(* ===== verification/_CoqProject ===== *)
-Q . S2P
Prelude.v
GoText.v
GoUrl.v
Base64.v
GoJson.v
Sha256.v
Token.v
RefreshToken.v
AccessToken.v
BearerSession.v
BearerSpec.v
BearerReference.v
BearerProps.v
Password.v
EmailAddress.v
EmailPassword.v
AccountSpec.v
EmailPasswordSpec.v
AccountReference.v
EmailPasswordProps.v
EmailVerification.v
EmailVerificationSpec.v
EmailVerificationProps.v
PasswordReset.v
PasswordResetSpec.v
PasswordResetProps.v
Totp.v
TotpSpec.v
TotpProps.v
GoogleOAuth.v
GoogleOAuthSpec.v
GoogleOAuthProps.v
Passkey.v
PasskeySpec.v
PasskeyProps.v
SsoSpec.v
Oidc.v
OidcSpec.v
OidcProps.v
Saml.v
SamlSpec.v
SamlProps.v
SessionToken.v
SessionSpec.v
SessionReference.v
SessionProps.v
GoHttp.v
Config.v
Replies.v
Handler.v
HandlerMethods.v
Router.v
Authlier.v
SignInSpec.v
SystemReference.v
HandlerProps.v
RouterProps.v
AuthlierProps.v
SignInProps.v
Redis.v
RedisSpec.v
RedisSessions.v
RedisSessionsSpec.v
RedisReference.v
RedisStores.v
RedisPasskeysProps.v
RedisSsoProps.v
RedisProps.v
Sql.v
SqlServer.v
Migrate.v
Postgres.v
PostgresSessions.v
PostgresAccounts.v
PostgresFactors.v
Mysql.v
MysqlStores.v
Mongo.v
MongoStores.v
StorageProps.v
