(* ===== verification/Prelude.v ===== *)
(** * Authlier: a verification development

    Authlier (src/) is a Go library for authentication: sessions, passwords,
    email verification, password reset, second factors, passkeys and sign-in with
    other identity providers. Each package has a manager, built by [NewManager]
    from interfaces the application or a storage adapter provides (stores, caches,
    mail senders, attempt guards, event sinks) and from a configuration. The
    managers hold no state of their own: they read clocks and random bytes, call
    the interfaces in a certain order, and decide on their answers. The root
    package checks a configuration, builds the managers it asks for and serves
    them over HTTP; the storage adapters implement the stores. This development
    translates all of these function by function, states what each needs of the
    others as contracts, and proves what they promise.

    ** How effects are modelled

    A call is a function of a [World]: how many times the clock, the random
    source and the UUID generator have been read, and the state of everything
    outside ([ext]); the sources are fixed sequences ([Env]), so a theorem for
    every [Env] holds for every run. [M S A] is the monad of such calls, [result]
    a Go pair of a value and an error, [error] a sentinel ([errors.New]) or a
    wrapping ([fmt.Errorf]), [errors_Is] Go's search in the tree of wrapped
    errors. [for range n] is [for_range], a range over a slice [for_each]. Go
    interfaces are records of calls or, with one method, calls; an optional
    interface is an [option]. Strings are Go strings, sequences of bytes;
    [time.Time] is the number of nanoseconds since the year 1, [time.Duration]
    a number with [Sub]'s saturation at 64 bits. [wp m Q w] says that the run of
    [m] from [w] ends in [Q]; the tactic [wp_go] runs a program symbolically up
    to its next unknown call.

    ** The files

    Each package has a file of definitions in the order of the source and with
    its names; a [Spec] file with the abstract state, the contract of the
    interfaces (a class: what a store promises of each operation, in terms of the
    abstract state that [view] reads off its own state, under an invariant [wf] of
    its own), and a lemma per operation about its effect on the abstract state; a
    [Reference] with an implementation of the contract and a concrete run (in the
    Spec or the Props file where it has none of its own); and a [Props] file with
    the properties and their runs.

    - GoText, GoUrl, Base64, GoJson, Sha256: the parts of Go's standard library
      that the program computes with, executable where they are computed with,
      with their round trips. Token: token/token.go. EmailAddress:
      emailaddress/emailaddress.go. Password: password/password.go.
    - SessionToken, SessionSpec, SessionReference, SessionProps:
      sessiontoken/sessiontoken.go, opaque sessions over a durable store and an
      optional cache.
    - RefreshToken (refreshtoken/refreshtoken.go), AccessToken
      (accesstoken/accesstoken.go), BearerSession (token_session.go), BearerSpec,
      BearerReference (with a reference signer), BearerProps: durable sessions
      presented as signed access tokens and renewed by one-time refresh tokens.
    - EmailPassword (emailpassword/emailpassword.go), EmailVerification
      (emailverification/emailverification.go), PasswordReset
      (passwordreset/passwordreset.go), each with its Spec and Props: email
      accounts. They share the abstract state of AccountSpec and the reference
      backend of AccountReference.
    - Totp (totp/totp.go), TotpSpec, TotpProps: the second factor. Passkey
      (passkey/passkey.go), PasskeySpec, PasskeyProps: WebAuthn credentials.
    - GoogleOAuth (googleoauth/googleoauth.go and provider.go), GoogleOAuthSpec,
      GoogleOAuthProps: sign-in with Google. Oidc (oidc/oidc.go) and Saml
      (saml/saml.go) with their Spec and Props: single sign-on with the
      connections of a tenant; SsoSpec is the abstract state of requests that
      wait for their answer, which they share.
    - The root package. GoHttp: requests, responses, headers, cookies, the route
      patterns of net/http. Config: config.go and delivery.go. Replies, Handler,
      HandlerMethods: the handlers (handler*.go), from their helpers and the type
      [Auth] to the operations of each method of sign-in. Router: the routes and what
      they wrap. Authlier: authlier.go, [New]. SignInSpec, SystemReference: what
      the sign-in of the handlers asks of the managers, and a whole system that
      runs. HandlerProps, RouterProps, AuthlierProps, SignInProps: their
      properties.
    - The Redis adapter (storage/redis). Redis: the client, as programs of
      commands ([prog]), and redis.go; RedisSpec: the keyspace, what commands and
      transactions do, and what other clients do between them; RedisSessions,
      RedisStores: the stores; RedisReference, RedisSessionsSpec and the Props
      files: a server, the contracts, the properties.
    - The SQL adapters. Sql: values, tables with their constraints, expressions
      and statements as syntax, and [execute], what a server does with them;
      SqlServer: transactions and pools of a client library, what a server
      promises of their calls ([PoolContract]), and rules for programs over them.
      Migrate: internal/migrate/migrate.go. Postgres: the client library,
      postgres.go and the tables of its migrations; PostgresSessions,
      PostgresAccounts, PostgresFactors: the stores, in the SQL of the source, and
      what they do to the tables. Mysql, MysqlStores: the same for storage/mysql.
    - The MongoDB adapter (storage/mongodb). Mongo: documents, filters and
      commands, what a server does with them, the client library with
      [WithTransaction], mongodb.go and sessions.go, and the contract of sessions;
      MongoStores: the other stores. StorageProps: a reference server of SQL and
      one of MongoDB, and the properties of the three adapters.

    ** What the theorems show

    - Sessions: every history of calls refines the abstract machine
      ([session_calls_refine_machine]); what [Resolve] returns is live and was
      issued to the presented token; revocation by token, subject or identifier
      is final; rotation replaces one credential by one; a session never lives
      longer than configured.
    - Bearer sessions: the invariant of sessions and refresh tokens along every
      history; a refresh token is consumed once, and its reuse ends the session;
      an access token verifies for its own subject, session and time only.
    - Passwords: hashes verify the password they were made of, stay within the
      limits whatever is stored, and are never downgraded.
    - Email accounts: a stored hash changes only for who knows the password or
      holds a live reset token; an email is verified only by the credential sent
      to it; credentials are single-use; each flow, run to its end, signs in.
    - Second factor: codes, challenges and recovery codes are single-use along
      every history, and a factor is enabled only with a code of its secret.
    - Passkeys: a ceremony is used up by its answer, a credential is registered
      for who asked and signs in its owner only.
    - Google, OpenID Connect, SAML: a sign-in answers one request of this program
      with an identity its provider vouched for, and takes over no existing
      account.
    - HTTP: [New] returns a handler whose parts are there; the mux is the table of
      routes; a request gets one answer; cross-site requests run nothing but the
      SAML callback; sensitive operations need a fresh session; a session cookie
      is issued only after every proof the account asks for, and resolves.
    - PostgreSQL: every store but that of passkeys keeps the contract of its
      package, over one view of the tables per package ([session_view],
      [accounts_view], [links_view], [totp_view], ...), with times kept to the
      microsecond; the constraints of the tables keep the invariants of accounts
      and links; the last way of a user to sign in is never removed; migrations
      are run and recorded once, in their order. The credentials of a user come in
      no order, which the contract of passkeys does not allow for.
    - MySQL and MongoDB: the stores of sessions keep the contract, with times kept
      to the microsecond and to the millisecond. Redis: sessions and their cache
      keep the contract as long as no other client acts between the commands of a
      call; among other clients [Create], [Rotate] and [Revoke] of sessions and the
      use of pending requests take effect at one instant.
    - Two defects: sign-ins with a passkey never complete over the adapters, and
      over MySQL a revoked session cannot be revoked again.

    ** Bounds

    One loop of the program has no bound of its own: the one that makes recovery
    codes until they are distinct. It has fuel, and
    [TotpProps.generateRecoveryCodes_returns] shows that it returns as soon as
    its reads gave enough different codes or failed. All other loops are counted
    or structural. The fuel of [decimal_digits] is the number of bits, and SHA-256
    runs over the blocks of its input.

    ** What is assumed, and what is not modelled

    Libraries that are not part of the repository are classes of functions with
    the laws they document: Argon2id and bcrypt ([PasswordHashes]), JWT ([JWT]),
    HOTP ([OtpLibrary]), go-oidc and oauth2 ([GoogleLibraries]), WebAuthn, SAML,
    and of the standard library what parses URLs, addresses, media types and
    bodies. The class [JSON] asks that decoding inverts encoding, which
    encoding/json promises for strings of valid UTF-8 and times of RFC 3339.
    Every law and contract has an instance. Contexts and cancellation are not
    modelled, and a call of a manager runs to its end before the next one begins:
    the contracts speak of store calls one at a time, which is what their
    transactions give.

    In SQL a statement acts on all its rows or fails and changes nothing, a
    transaction is one sequence of statements that its commit makes visible at
    once, and a failure of the server changes nothing. How texts compare (the
    collation) and whether an UPDATE counts the rows it matched or those it changed
    are parameters ([dialect]): PostgreSQL compares bytes and counts matches,
    MySQL has a collation and by default counts changes. A command of MongoDB acts
    at once, [WithTransaction] may run its function again. PostgreSQL drops what
    is below a microsecond, MySQL rounds to one, MongoDB drops what is below a
    millisecond. So a contract is a class with what is kept of a record or a time
    as parameters ([KeptStoreContract], [KeptFactorStoreContract], ...): the SQL
    and MongoDB stores keep it with the cut of their server, the reference stores
    and Redis with the identity ([StoreContract], [FactorStoreContract], ...),
    which is the contract the theorems about the managers ask for.

    A call may read a clock more than once: [ticks] counts the readings, no call
    turns it back ([forward]), and that a request was live or a certificate in
    force is said of a reading from the call on. The WebAuthn library reads a
    clock too and compares the expiry of a ceremony with it.

    Not modelled: the texts of the migrations, which the model hands to the server
    as they are (the tables they make are written out), the clients of HTTP and of
    mail, and how goroutines of one process interleave. *)
From Stdlib Require Export Ascii ZArith Lia Bool.
From stdpp Require Export prelude gmap strings list fin_maps option.

Declare Scope go_scope.
Delimit Scope go_scope with go.

(** ** Errors

    A Go [error] is either a sentinel made by [errors.New], identified by the
    package variable that holds it, or a value made by [fmt.Errorf] that wraps
    the errors its ["%w"] verbs name. *)
Inductive error : Type :=
| New (variable : string)
| Errorf (format : string) (wrapped : list error).

(** [errors.Is(err, target)] for a sentinel target: the tree of wrapped errors
    is searched. An [fmt.Errorf] value is a fresh pointer, so it is never
    identical to a sentinel. *)
Fixpoint errors_Is (err target : error) : bool :=
  match err with
  | New variable =>
      match target with
      | New variable' => String.eqb variable variable'
      | Errorf _ _ => false
      end
  | Errorf _ wrapped => existsb (fun inner => errors_Is inner target) wrapped
  end.

(** A Go call that returns [(value, error)] returns [Ok value] when the error
    is nil and [Err err] when it is not; the value of the second case is the
    zero value at every use in the program, except where the type says more. *)
Inductive result (A : Type) : Type :=
| Ok (value : A)
| Err (err : error).
Arguments Ok {A} value.
Arguments Err {A} err.

Definition is_ok {A} (r : result A) : bool :=
  match r with Ok _ => true | Err _ => false end.

Definition wrapf {A} (format : string) (r : result A) : result A :=
  match r with Ok a => Ok a | Err e => Err (Errorf format [e]) end.

(** ** Time

    [time.Time] is an instant in nanoseconds since 0001-01-01 00:00 UTC, the
    zero value of the type; [time.Duration] is a signed 64-bit number of
    nanoseconds. [UTC()] changes the presentation only and is the identity. *)
Abbreviation time := Z (only parsing).
Abbreviation duration := Z (only parsing).

Definition Nanosecond : duration := 1.
Definition Second : duration := 1000000000.
Definition Minute : duration := (60 * Second)%Z.
Definition Hour : duration := (60 * Minute)%Z.

Definition minDuration : duration := (- 2 ^ 63)%Z.
Definition maxDuration : duration := (2 ^ 63 - 1)%Z.

Definition IsZero (t : time) : bool := (t =? 0)%Z.
Definition Before (t u : time) : bool := (t <? u)%Z.
Definition After (t u : time) : bool := (u <? t)%Z.
Definition Add (t : time) (d : duration) : time := (t + d)%Z.

(** [Sub] saturates at the bounds of [time.Duration]. *)
Definition Sub (t u : time) : duration :=
  Z.max minDuration (Z.min maxDuration (t - u)%Z).

(** [Truncate] rounds down to a multiple of [d] since the zero time. *)
Definition Truncate (t : time) (d : duration) : time :=
  if (d <=? 0)%Z then t else (t - t mod d)%Z.

(** [Unix] counts the seconds since 1970-01-01 00:00 UTC. *)
Definition unixEpochSeconds : Z := 62135596800.
Definition Unix (t : time) : Z := (t / Second - unixEpochSeconds)%Z.

(** ** The outside world

    The program reads clocks, the operating system's random source and the
    UUID generator. Each is a sequence fixed in advance and read in order, so
    every run of the program is the run for some such sequence. *)
Class Env := {
  time_Now : nat -> time;
  (* [None]: the read fails; [Some f]: [f i] is the i-th byte read. *)
  rand_source : nat -> option (nat -> ascii);
  (* [uuid.NewV7().String()] *)
  uuid_NewV7 : nat -> option string;
}.

(** The state of a run: how far each source has been read, and the state [ext]
    of everything the program talks to (stores, caches, mail senders, logs). *)
Record World (S : Type) : Type := mkWorld {
  ticks : nat;
  draws : nat;
  uuids : nat;
  ext : S;
}.
Arguments mkWorld {S} ticks draws uuids ext.
Arguments ticks {S} w : rename.
Arguments draws {S} w : rename.
Arguments uuids {S} w : rename.
Arguments ext {S} w : rename.

Definition tick {S} (w : World S) : World S :=
  mkWorld (Datatypes.S (ticks w)) (draws w) (uuids w) (ext w).
Definition draw {S} (w : World S) : World S :=
  mkWorld (ticks w) (Datatypes.S (draws w)) (uuids w) (ext w).
Definition next_uuid {S} (w : World S) : World S :=
  mkWorld (ticks w) (draws w) (Datatypes.S (uuids w)) (ext w).
Definition set_ext {S} (s : S) (w : World S) : World S :=
  mkWorld (ticks w) (draws w) (uuids w) s.

(** ** The monad of effectful calls *)
Definition M (S A : Type) : Type := World S -> A * World S.

Definition ret {S A} (a : A) : M S A := fun w => (a, w).
Definition bind {S A B} (m : M S A) (k : A -> M S B) : M S B :=
  fun w => let '(a, w') := m w in k a w'.

(** Early return: [bind_ok m k] runs [k] on success and returns the error
    otherwise. *)
Definition bind_ok {S A B} (m : M S (result A)) (k : A -> M S (result B)) :
    M S (result B) :=
  bind m (fun r => match r with Ok a => k a | Err e => ret (Err e) end).

Notation "x <- m ;; k" := (bind m (fun x => k))
  (at level 100, m at next level, right associativity) : go_scope.
Notation "m ;;; k" := (bind m (fun _ => k))
  (at level 100, k at level 200, right associativity) : go_scope.
Notation "x <-? m ;; k" := (bind_ok m (fun x => k))
  (at level 100, m at next level, right associativity) : go_scope.
Open Scope go_scope.

(** [return x, fmt.Errorf(format, err)] on the error path. *)
Definition wrapped {S A} (format : string) (m : M S (result A)) : M S (result A) :=
  r <- m ;; ret (wrapf format r).

(** An operation of a component that only sees its own part of the state. *)
Definition lift_ext {S A} (f : S -> A * S) : M S A :=
  fun w => let '(a, s) := f (ext w) in (a, set_ext s w).

(** A clock is a [func() time.Time]: the sequence of its readings. *)
Definition read_now {S} (now : nat -> time) : M S time :=
  fun w => (now (ticks w), tick w).

Definition ErrRand : error := New "crypto/rand.Read".
Definition ErrUUID : error := New "uuid.NewV7".

Fixpoint string_of_list (l : list ascii) : string :=
  match l with [] => EmptyString | a :: l' => String a (string_of_list l') end.
Fixpoint list_of_string (s : string) : list ascii :=
  match s with EmptyString => [] | String a s' => a :: list_of_string s' end.

(** [rand.Read] on a slice of [n] bytes. *)
Definition rand_Read {S} `{Env} (n : nat) : M S (result string) :=
  fun w => (match rand_source (draws w) with
            | Some f => Ok (string_of_list (f <$> seq 0 n))
            | None => Err ErrRand
            end, draw w).

Definition new_uuid {S} `{Env} : M S (result string) :=
  fun w => (match uuid_NewV7 (uuids w) with
            | Some id => Ok id
            | None => Err ErrUUID
            end, next_uuid w).

(** ** Captured variables

    A Go closure shares the local variables [L] of the function that makes it:
    while they are in use, they are part of the state. *)
Definition with_local {S L} (l : L) (w : World S) : World (S * L) :=
  mkWorld (ticks w) (draws w) (uuids w) (ext w, l).
Definition drop_local {S L} (w : World (S * L)) : World S :=
  mkWorld (ticks w) (draws w) (uuids w) (fst (ext w)).

(** A call that does not see the variables. *)
Definition outer {S L A} (m : M S A) : M (S * L) A :=
  fun w => let '(a, v) := m (drop_local w) in (a, with_local (snd (ext w)) v).

(** An assignment. *)
Definition assign {S L} (f : L -> L) : M (S * L) unit :=
  fun w => (tt, set_ext (fst (ext w), f (snd (ext w))) w).

(** The scope of the variables: their first values and, at the end, their last. *)
Definition scope {S L A} (l : L) (m : M (S * L) A) : M S (A * L) :=
  fun w => let '(a, v) := m (with_local l w) in ((a, snd (ext v)), drop_local v).

(** ** Loops *)
Inductive flow (B A : Type) : Type :=
| Next (state : B)
| Return (value : A).
Arguments Next {B A} state.
Arguments Return {B A} value.

(** [for range n { body }; after] where [body] may [continue] or [return]. *)
Fixpoint for_range {S A} (n : nat) (body : M S (flow unit A)) (after : M S A) : M S A :=
  match n with
  | O => after
  | Datatypes.S n' =>
      c <- body ;;
      match c with
      | Next _ => for_range n' body after
      | Return a => ret a
      end
  end.

(** [for _, x := range l { body }; after] with a variable of type [B] assigned
    in the body. *)
Fixpoint for_each {S X B A} (l : list X) (b : B)
    (body : X -> B -> M S (flow B A)) (after : B -> M S A) : M S A :=
  match l with
  | [] => after b
  | x :: l' =>
      c <- body x b ;;
      match c with
      | Next b' => for_each l' b' body after
      | Return a => ret a
      end
  end.

(** ** Weakest preconditions

    [wp m Q w]: running [m] from [w] gives a value and a world that satisfy
    [Q]. Every call terminates, so this is total correctness. *)
Definition wp {S A} (m : M S A) (Q : A -> World S -> Prop) (w : World S) : Prop :=
  Q (fst (m w)) (snd (m w)).

Create HintDb go.
Create Rewrite HintDb go.

Section wp.
Context {S : Type}.

Lemma wp_elim {A} (m : M S A) Q w a w' : wp m Q w -> m w = (a, w') -> Q a w'.
Proof. unfold wp. intros H E. by rewrite E in H. Qed.

Lemma wp_run {A} (m : M S A) Q w : (forall a w', m w = (a, w') -> Q a w') -> wp m Q w.
Proof. unfold wp. destruct (m w) as [a w']; simpl; auto. Qed.

Lemma wp_mono {A} (m : M S A) (P Q : A -> World S -> Prop) w :
  wp m P w -> (forall a w', P a w' -> Q a w') -> wp m Q w.
Proof. unfold wp. auto. Qed.

Lemma wp_and {A} (m : M S A) (P Q : A -> World S -> Prop) w :
  wp m P w -> wp m Q w -> wp m (fun a w' => P a w' /\ Q a w') w.
Proof. unfold wp. auto. Qed.

(** A call that never turns the clock back: it is over at a later reading. *)
Definition forward {A} (m : M S A) : Prop := forall w, ticks w <= ticks (snd (m w)).

Lemma wp_forward {A} (m : M S A) (P : A -> World S -> Prop) w :
  forward m -> wp m P w -> wp m (fun a w' => P a w' /\ ticks w <= ticks w') w.
Proof. unfold wp. auto. Qed.

Lemma forward_ret {A} (a : A) : forward (ret a).
Proof. intros w. done. Qed.

Lemma forward_lift_ext {A} (f : S -> A * S) : forward (lift_ext f).
Proof. intros w. unfold lift_ext. by destruct (f (ext w)). Qed.

Lemma forward_bind {A B} (m : M S A) (k : A -> M S B) : forward m -> (forall a, forward (k a)) -> forward (bind m k).
Proof. intros Hm Hk w. unfold bind. pose proof (Hm w). destruct (m w) as [a v]. pose proof (Hk a v). simpl in *. lia. Qed.

Lemma wp_fst {A} (m : M S A) a w : fst (m w) = a -> wp m (fun a' _ => a' = a) w.
Proof. done. Qed.

Lemma wp_ret {A} (a : A) (Q : A -> World S -> Prop) w : Q a w -> wp (ret a) Q w.
Proof. done. Qed.

Lemma wp_bind {A B} (m : M S A) (k : A -> M S B) Q w :
  wp m (fun a w' => wp (k a) Q w') w -> wp (bind m k) Q w.
Proof. unfold wp, bind. by destruct (m w). Qed.

Lemma wp_bind_ok {A B} (m : M S (result A)) (k : A -> M S (result B)) Q w :
  wp m (fun r w' => match r with Ok a => wp (k a) Q w' | Err e => Q (Err e) w' end) w ->
  wp (bind_ok m k) Q w.
Proof.
  intros H. apply wp_bind, (wp_mono _ _ _ _ H). by intros [a|e] w'.
Qed.

Lemma wp_wrapped {A} format (m : M S (result A)) Q w :
  wp m (fun r => Q (wrapf format r)) w -> wp (wrapped format m) Q w.
Proof. intros H. by apply wp_bind. Qed.

Lemma wp_lift_ext {A} (f : S -> A * S) (Q : A -> World S -> Prop) w :
  Q (fst (f (ext w))) (set_ext (snd (f (ext w))) w) -> wp (lift_ext f) Q w.
Proof. unfold wp, lift_ext. by destruct (f (ext w)). Qed.

Lemma wp_read_now now (Q : time -> World S -> Prop) w :
  Q (now (ticks w)) (tick w) -> wp (read_now now) Q w.
Proof. done. Qed.

Lemma wp_rand_Read `{Env} n (Q : result string -> World S -> Prop) w :
  (forall f, rand_source (draws w) = Some f ->
     Q (Ok (string_of_list (f <$> seq 0 n))) (draw w)) ->
  (rand_source (draws w) = None -> Q (Err ErrRand) (draw w)) ->
  wp (rand_Read n) Q w.
Proof. unfold wp, rand_Read; simpl. destruct (rand_source (draws w)); auto. Qed.

Lemma wp_new_uuid `{Env} (Q : result string -> World S -> Prop) w :
  (forall id, uuid_NewV7 (uuids w) = Some id -> Q (Ok id) (next_uuid w)) ->
  (uuid_NewV7 (uuids w) = None -> Q (Err ErrUUID) (next_uuid w)) ->
  wp new_uuid Q w.
Proof. unfold wp, new_uuid; simpl. destruct (uuid_NewV7 (uuids w)); auto. Qed.

Lemma wp_outer {L A} (m : M S A) (Q : A -> World (S * L) -> Prop) w :
  wp m (fun a v => Q a (with_local (snd (ext w)) v)) (drop_local w) -> wp (outer m) Q w.
Proof. unfold wp, outer. by destruct (m (drop_local w)). Qed.

Lemma wp_assign {L} (f : L -> L) (Q : unit -> World (S * L) -> Prop) w :
  Q tt (set_ext (fst (ext w), f (snd (ext w))) w) -> wp (assign f) Q w.
Proof. done. Qed.

Lemma wp_scope {L A} (l : L) (m : M (S * L) A) (Q : A * L -> World S -> Prop) w :
  wp m (fun a v => Q (a, snd (ext v)) (drop_local v)) (with_local l w) -> wp (scope l m) Q w.
Proof. unfold wp, scope. by destruct (m (with_local l w)). Qed.

(** A counted loop keeps an invariant [I] that its body preserves. *)
Lemma wp_for_range {A} n (body : M S (flow unit A)) after Q (I : World S -> Prop) w :
  I w ->
  (forall w, I w ->
     wp body (fun c w' => match c with Next _ => I w' | Return a => Q a w' end) w) ->
  (forall w, I w -> wp after Q w) ->
  wp (for_range n body after) Q w.
Proof.
  intros Hw Hbody Hafter. revert w Hw. induction n as [|n IH]; simpl; intros w Hw; [auto|].
  apply wp_bind. eapply wp_mono; [by apply Hbody|].
  intros [[]|a] w' H; [by apply IH | by apply wp_ret].
Qed.

(** A loop over a list: [I l b w] holds before the elements [l] are visited. *)
Lemma wp_for_each {X B A} (l : list X) (b : B) (body : X -> B -> M S (flow B A)) after Q
    (I : list X -> B -> World S -> Prop) w :
  I l b w ->
  (forall x l b w, I (x :: l) b w ->
     wp (body x b) (fun c w' => match c with Next b' => I l b' w' | Return a => Q a w' end) w) ->
  (forall b w, I [] b w -> wp (after b) Q w) ->
  wp (for_each l b body after) Q w.
Proof.
  intros Hw Hbody Hafter. revert b w Hw. induction l as [|x l IH]; simpl; intros b w Hw; [auto|].
  apply wp_bind. eapply wp_mono; [by apply Hbody|].
  intros [b'|a] w' H; [by apply IH | by apply wp_ret].
Qed.
End wp.

(** ** Facts about errors, strings and instants *)
Lemma errors_Is_Errorf format e target :
  errors_Is (Errorf format [e]) target = errors_Is e target.
Proof. simpl. by rewrite orb_false_r. Qed.

Lemma errors_Is_New x y : errors_Is (New x) (New y) = String.eqb x y.
Proof. done. Qed.

#[export] Hint Rewrite errors_Is_Errorf errors_Is_New : go.
#[export] Hint Resolve forward_ret forward_lift_ext forward_bind : go.

Lemma list_of_string_of_list l : list_of_string (string_of_list l) = l.
Proof. induction l; simpl; congruence. Qed.

Lemma string_of_list_of_string s : string_of_list (list_of_string s) = s.
Proof. induction s; simpl; congruence. Qed.

Lemma length_string_of_list l : String.length (string_of_list l) = length l.
Proof. induction l; simpl; congruence. Qed.

#[export] Hint Rewrite list_of_string_of_list string_of_list_of_string length_string_of_list : go.

Lemma ext_tick {S} (w : World S) : ext (tick w) = ext w.
Proof. done. Qed.
Lemma ext_draw {S} (w : World S) : ext (draw w) = ext w.
Proof. done. Qed.
Lemma ext_next_uuid {S} (w : World S) : ext (next_uuid w) = ext w.
Proof. done. Qed.
Lemma ext_set_ext {S} s (w : World S) : ext (set_ext s w) = s.
Proof. done. Qed.

#[export] Hint Rewrite @ext_tick @ext_draw @ext_next_uuid @ext_set_ext : go.

Lemma Before_true t u : Before t u = true <-> (t < u)%Z.
Proof. apply Z.ltb_lt. Qed.
Lemma Before_false t u : Before t u = false <-> (u <= t)%Z.
Proof. apply Z.ltb_ge. Qed.
Lemma After_true t u : After t u = true <-> (u < t)%Z.
Proof. apply Z.ltb_lt. Qed.
Lemma After_false t u : After t u = false <-> (t <= u)%Z.
Proof. apply Z.ltb_ge. Qed.
Lemma IsZero_true t : IsZero t = true <-> t = 0%Z.
Proof. apply Z.eqb_eq. Qed.
Lemma IsZero_false t : IsZero t = false <-> t <> 0%Z.
Proof. apply Z.eqb_neq. Qed.

(** [Sub] is exact on instants less than 292 years apart. *)
Lemma Sub_exact t u : (minDuration <= t - u <= maxDuration)%Z -> Sub t u = (t - u)%Z.
Proof. unfold Sub. lia. Qed.

(** The sign of a difference survives saturation. *)
Lemma Sub_nonpos t u : (Sub t u <= 0)%Z <-> (t <= u)%Z.
Proof. unfold Sub, minDuration, maxDuration. lia. Qed.

Lemma Truncate_bounds t d : (0 < d)%Z -> (Truncate t d <= t < Truncate t d + d)%Z.
Proof.
  intros Hd. unfold Truncate. destruct (Z.leb_spec d 0); [lia|].
  pose proof (Z.mod_pos_bound t d Hd). lia.
Qed.

(** ** Automation *)

(** Turn boolean tests of the code into propositions. *)
Ltac go_bool :=
  repeat match goal with
  | H : is_true _ |- _ => unfold is_true in H
  | H : _ && _ = true |- _ => apply andb_true_iff in H as [? ?]
  | H : _ || _ = false |- _ => apply orb_false_iff in H as [? ?]
  | H : negb _ = true |- _ => apply negb_true_iff in H
  | H : negb _ = false |- _ => apply negb_false_iff in H
  | H : String.eqb _ _ = true |- _ => apply String.eqb_eq in H
  | H : String.eqb _ _ = false |- _ => apply String.eqb_neq in H
  | H : Before _ _ = true |- _ => apply Before_true in H
  | H : Before _ _ = false |- _ => apply Before_false in H
  | H : After _ _ = true |- _ => apply After_true in H
  | H : After _ _ = false |- _ => apply After_false in H
  | H : IsZero _ = true |- _ => apply IsZero_true in H
  | H : IsZero _ = false |- _ => apply IsZero_false in H
  | H : (_ <? _)%Z = true |- _ => apply Z.ltb_lt in H
  | H : (_ <? _)%Z = false |- _ => apply Z.ltb_ge in H
  | H : (_ <=? _)%Z = true |- _ => apply Z.leb_le in H
  | H : (_ <=? _)%Z = false |- _ => apply Z.leb_gt in H
  | H : (_ =? _)%Z = true |- _ => apply Z.eqb_eq in H
  | H : (_ =? _)%Z = false |- _ => apply Z.eqb_neq in H
  | H : bool_decide _ = true |- _ => apply bool_decide_eq_true in H
  | H : bool_decide _ = false |- _ => apply bool_decide_eq_false in H
  end.

(** One step of symbolic execution: sequencing, clocks, sources, branches. A
    call to an unknown operation is left in place. *)
Ltac wp_step :=
  match goal with
  | |- wp (ret _) _ _ => apply wp_ret
  | |- wp (bind _ _) _ _ => apply wp_bind
  | |- wp (bind_ok _ _) _ _ => apply wp_bind_ok
  | |- wp (wrapped _ _) _ _ => apply wp_wrapped
  | |- wp (read_now _) _ _ => apply wp_read_now
  | |- wp (lift_ext _) _ _ => apply wp_lift_ext
  | |- wp (outer _) _ _ => apply wp_outer
  | |- wp (assign _) _ _ => apply wp_assign
  | |- wp (scope _ _) _ _ => apply wp_scope
  | |- wp (rand_Read _) _ _ => apply wp_rand_Read; [intros ? ?|intros ?]
  | |- wp new_uuid _ _ => apply wp_new_uuid; [intros ? ?|intros ?]
  | |- wp (match ?x with _ => _ end) _ _ => destruct x eqn:?
  | |- wp (let '(_, _) := ?x in _) _ _ => destruct x eqn:?
  end.

(** Run an unknown operation, naming what it returns. *)
Ltac wp_call E :=
  match goal with |- wp _ _ _ => apply wp_run; intros ? ? E end.

(** Reduce what symbolic execution creates, and nothing of the program. *)
Ltac go_red := cbn beta iota zeta delta [fst snd wrapf].

Ltac wp_go := go_red; repeat (wp_step; go_red).

(** ** A concrete world for the examples

    A clock that advances one second per reading from 2025-01-01, distinct
    random reads and distinct identifiers. *)
Definition demo_epoch : time := (63871286400 * Second)%Z.
Definition demo_clock (i : nat) : time := (demo_epoch + Z.of_nat i * Second)%Z.

#[export] Instance demo_env : Env := {|
  time_Now := demo_clock;
  rand_source i := Some (fun j => ascii_of_nat (1 + 37 * i + j));
  uuid_NewV7 i := Some (String (ascii_of_nat (65 + i)) "0190-7000");
|}.

Definition demo_world {S} (s : S) : World S := mkWorld 0 0 0 s.
