(* ===== verification/GoText.v ===== *)
(** * Go's text packages

    The functions of [strings], [strconv], [fmt], [unicode/utf8] and
    [encoding/hex] the program calls, on Go strings: sequences of bytes. *)
From S2P Require Import Prelude.

(** ** Byte classes *)
Definition byte_in (lo hi : N) (a : ascii) : bool :=
  (lo <=? N_of_ascii a)%N && (N_of_ascii a <=? hi)%N.

Definition is_digit (a : ascii) : bool := byte_in 48 57 a.

(** ** [strings.TrimSpace]

    White space is what [unicode.IsSpace] accepts; a code point outside ASCII
    is recognised by its UTF-8 encoding. *)
Definition space1 (a : ascii) : bool :=
  byte_in 9 13 a || Ascii.eqb a " "%char.

(** U+0085 and U+00A0. *)
Definition space2 (a b : ascii) : bool :=
  byte_in 194 194 a && (byte_in 133 133 b || byte_in 160 160 b).

(** U+1680, U+2000 to U+200A, U+2028, U+2029, U+202F, U+205F, U+3000. *)
Definition space3 (a b c : ascii) : bool :=
  (byte_in 225 225 a && byte_in 154 154 b && byte_in 128 128 c) ||
  (byte_in 226 226 a && byte_in 128 128 b &&
     (byte_in 128 138 c || byte_in 168 169 c || byte_in 175 175 c)) ||
  (byte_in 226 226 a && byte_in 129 129 b && byte_in 159 159 c) ||
  (byte_in 227 227 a && byte_in 128 128 b && byte_in 128 128 c).

Fixpoint trim_left (l : list ascii) : list ascii :=
  match l with
  | [] => []
  | a :: l1 =>
      if space1 a then trim_left l1 else
      match l1 with
      | b :: l2 =>
          if space2 a b then trim_left l2 else
          match l2 with
          | c :: l3 => if space3 a b c then trim_left l3 else l
          | [] => l
          end
      | [] => l
      end
  end.

(** The same from the end, on the reversed bytes. *)
Fixpoint trim_right (l : list ascii) : list ascii :=
  match l with
  | [] => []
  | a :: l1 =>
      if space1 a then trim_right l1 else
      match l1 with
      | b :: l2 =>
          if space2 b a then trim_right l2 else
          match l2 with
          | c :: l3 => if space3 c b a then trim_right l3 else l
          | [] => l
          end
      | [] => l
      end
  end.

Definition TrimSpace (s : string) : string :=
  string_of_list (rev (trim_right (rev (trim_left (list_of_string s))))).

(** ** Prefixes, cutting and splitting *)
Fixpoint HasPrefix (s p : string) : bool :=
  match p, s with
  | EmptyString, _ => true
  | String a p', String b s' => Ascii.eqb a b && HasPrefix s' p'
  | String _ _, EmptyString => false
  end.

Fixpoint drop_bytes (n : nat) (s : string) : string :=
  match n, s with
  | Datatypes.S n', String _ s' => drop_bytes n' s'
  | _, _ => s
  end.

Definition CutPrefix (s p : string) : option string :=
  if HasPrefix s p then Some (drop_bytes (String.length p) s) else None.

(** [strings.Cut]: the text before and after the first [sep]. *)
Fixpoint Cut (s sep : string) : option (string * string) :=
  if HasPrefix s sep then Some (EmptyString, drop_bytes (String.length sep) s) else
  match s with
  | EmptyString => None
  | String a s' =>
      match Cut s' sep with
      | Some (before, after) => Some (String a before, after)
      | None => None
      end
  end.

(** [strings.Split] for a separator that is not empty. [skip] counts the bytes
    of a separator still to be passed over. *)
Fixpoint split_from (s sep : string) (skip : nat) : list string :=
  match s with
  | EmptyString => [EmptyString]
  | String a s' =>
      match skip with
      | Datatypes.S k => split_from s' sep k
      | O =>
          if HasPrefix s sep
          then EmptyString :: split_from s' sep (String.length sep - 1)
          else match split_from s' sep 0 with
               | p :: ps => String a p :: ps
               | [] => [String a EmptyString]
               end
      end
  end.

Definition Split (s sep : string) : list string := split_from s sep 0.

Fixpoint byte_occurs (a : ascii) (s : string) : bool :=
  match s with
  | EmptyString => false
  | String b s' => Ascii.eqb a b || byte_occurs a s'
  end.

(** ** Decimal numerals *)
Definition digit (n : N) : ascii := ascii_of_N (48 + n).

Fixpoint decimal_digits (fuel : nat) (n : N) (acc : string) : string :=
  match fuel with
  | O => acc
  | Datatypes.S fuel' =>
      let acc' := String (digit (n mod 10)%N) acc in
      if (n <? 10)%N then acc' else decimal_digits fuel' (n / 10)%N acc'
  end.

(** [fmt.Sprintf("%d", n)]; a number has at most one digit per bit. *)
Definition format_uint (n : N) : string := decimal_digits (N.size_nat n + 1) n EmptyString.

(** [fmt.Sprintf("%0*d", width, n)]. *)
Definition pad_zeros (width : nat) (s : string) : string :=
  string_of_list (repeat "0"%char (width - String.length s) ++ list_of_string s).

Fixpoint parse_digits (s : string) (acc : N) : option N :=
  match s with
  | EmptyString => Some acc
  | String a s' =>
      if is_digit a then parse_digits s' (10 * acc + (N_of_ascii a - 48))%N else None
  end.

(** [strconv.ParseUint(s, 10, bits)]: [None] is a syntax or range error. *)
Definition ParseUint (s : string) (bits : N) : option N :=
  match s with
  | EmptyString => None
  | _ => match parse_digits s 0 with
         | Some n => if (n <? 2 ^ bits)%N then Some n else None
         | None => None
         end
  end.

(** ** [utf8.ValidString] *)
Definition continuation (a : ascii) : bool := byte_in 128 191 a.

Fixpoint valid_utf8 (l : list ascii) : bool :=
  match l with
  | [] => true
  | a :: l1 =>
      if byte_in 0 127 a then valid_utf8 l1 else
      match l1 with
      | [] => false
      | b :: l2 =>
          if byte_in 194 223 a then continuation b && valid_utf8 l2 else
          match l2 with
          | [] => false
          | c :: l3 =>
              if byte_in 224 239 a then
                (if byte_in 224 224 a then byte_in 160 191 b
                 else if byte_in 237 237 a then byte_in 128 159 b
                 else continuation b) && continuation c && valid_utf8 l3
              else
              match l3 with
              | [] => false
              | d :: l4 =>
                  byte_in 240 244 a &&
                  (if byte_in 240 240 a then byte_in 144 191 b
                   else if byte_in 244 244 a then byte_in 128 143 b
                   else continuation b) && continuation c && continuation d && valid_utf8 l4
              end
          end
      end
  end.

Definition ValidString (s : string) : bool := valid_utf8 (list_of_string s).

Definition is_ascii_string (s : string) : bool :=
  forallb (byte_in 0 127) (list_of_string s).

Definition lower_byte (a : ascii) : ascii :=
  if byte_in 65 90 a then ascii_of_N (N_of_ascii a + 32) else a.

(** ** [hex.EncodeToString] *)
Definition hex_digit (n : N) : ascii :=
  if (n <? 10)%N then ascii_of_N (48 + n) else ascii_of_N (87 + n).

Fixpoint hex_encode (s : string) : string :=
  match s with
  | EmptyString => EmptyString
  | String a s' =>
      String (hex_digit (N_of_ascii a / 16)) (String (hex_digit (N_of_ascii a mod 16)) (hex_encode s'))
  end.

(** ** Facts *)
Example TrimSpace_example :
  TrimSpace (String "009"%char (" a b " +:+ String "194"%char (String "160"%char " "))) = "a b".
Proof. reflexivity. Qed.

Example Split_example : Split "$argon2id$v=19" "$" = [""; "argon2id"; "v=19"].
Proof. reflexivity. Qed.

Example format_uint_example : format_uint 19456 = "19456" /\ format_uint 0 = "0".
Proof. split; reflexivity. Qed.

Lemma length_app_string s t : String.length (s +:+ t) = String.length s + String.length t.
Proof. induction s; simpl; [done|]. by f_equal. Qed.

Lemma HasPrefix_app p s : HasPrefix (p +:+ s) p = true.
Proof. induction p as [|a p IH]; [by destruct s|]. simpl. by rewrite Ascii.eqb_refl. Qed.

Lemma drop_bytes_app p s : drop_bytes (String.length p) (p +:+ s) = s.
Proof. induction p as [|a p IH]; [by destruct s|]. simpl. apply IH. Qed.

Lemma CutPrefix_app p s : CutPrefix (p +:+ s) p = Some s.
Proof. unfold CutPrefix. by rewrite HasPrefix_app, drop_bytes_app. Qed.

Lemma byte_occurs_app a s t : byte_occurs a (s +:+ t) = byte_occurs a s || byte_occurs a t.
Proof. induction s as [|b s IH]; [done|]. simpl. by rewrite IH, orb_assoc. Qed.

(** A piece free of the one-byte separator is split off whole. *)
Lemma Split_cons p a s :
  byte_occurs a p = false ->
  Split (p +:+ String a s) (String a EmptyString) = p :: Split s (String a EmptyString).
Proof.
  unfold Split. induction p as [|b p IH]; intros H; simpl.
  - rewrite Ascii.eqb_refl. by destruct s.
  - simpl in H. apply orb_false_iff in H as [Hb Hp]. rewrite Hb. simpl.
    change (String.append p) with (String.app p). by rewrite IH.
Qed.

Lemma Split_last p a :
  byte_occurs a p = false -> Split p (String a EmptyString) = [p].
Proof.
  unfold Split. induction p as [|b p IH]; intros H; simpl; [done|].
  simpl in H. apply orb_false_iff in H as [Hb Hp]. rewrite Hb. simpl. by rewrite IH.
Qed.

Lemma split_from_nonempty s sep k : split_from s sep k <> [].
Proof.
  revert k. induction s as [|a s IH]; intros [|k]; cbn [split_from]; try done.
  destruct (HasPrefix _ _); [done|]. by destruct (split_from s sep 0).
Qed.

(** Splitting at a one-byte separator. *)
Lemma Split_app_sep p a s :
  Split (p +:+ String a s) (String a EmptyString) = Split p (String a EmptyString) ++ Split s (String a EmptyString).
Proof.
  assert (Hn : forall x, HasPrefix x "" = true) by by intros [].
  unfold Split. induction p as [|b p IH]; simpl.
  - rewrite Ascii.eqb_refl. by destruct s.
  - change (String.append p) with (String.app p). destruct (Ascii.eqb a b); cbn [andb]; [by rewrite !Hn, IH|].
    rewrite IH. destruct (split_from p _ 0) as [|q l] eqn:Hq; [|by rewrite ?Hn].
    by apply split_from_nonempty in Hq.
Qed.

Lemma hex_digit_inj n m : (n < 16)%N -> (m < 16)%N -> hex_digit n = hex_digit m -> n = m.
Proof.
  intros Hn Hm H. apply (f_equal N_of_ascii) in H. unfold hex_digit in H.
  destruct (N.ltb_spec n 10), (N.ltb_spec m 10);
    rewrite !N_ascii_embedding in H by lia; lia.
Qed.

(** The hash keys of a store are distinct for distinct hashes. *)
Lemma hex_encode_inj s t : hex_encode s = hex_encode t -> s = t.
Proof.
  revert t. induction s as [|a s IH]; intros [|b t]; simpl; try done.
  intros [= H1 H2 H3]. apply IH in H3 as ->. f_equal.
  assert (Hb : forall c, (N_of_ascii c < 256)%N) by apply N_ascii_bounded.
  apply hex_digit_inj in H1; [|apply N.Div0.div_lt_upper_bound; apply Hb..].
  apply hex_digit_inj in H2; [|by apply N.mod_lt..].
  rewrite <- (ascii_N_embedding a), <- (ascii_N_embedding b). f_equal.
  rewrite (N.Div0.div_mod (N_of_ascii a) 16), (N.Div0.div_mod (N_of_ascii b) 16). congruence.
Qed.

(** ** Printable ASCII text *)
Definition printable (a : ascii) : bool := byte_in 33 126 a.

Lemma printable_not_space a b c : printable a = true ->
  space1 a = false /\ space2 a b = false /\ space3 a b c = false /\ byte_in 0 127 a = true.
Proof.
  by destruct a as [[] [] [] [] [] [] [] []].
Qed.

Lemma trim_left_printable l : Forall (fun a => printable a = true) l -> trim_left l = l.
Proof.
  intros H. destruct l as [|a l]; [done|]. apply Forall_cons_1 in H as [Ha _]. simpl.
  rewrite (proj1 (printable_not_space a a a Ha)). destruct l as [|b l]; [done|].
  rewrite (proj1 (proj2 (printable_not_space a b b Ha))). destruct l as [|c l]; [done|].
  by rewrite (proj1 (proj2 (proj2 (printable_not_space a b c Ha)))).
Qed.

Lemma trim_right_printable l : Forall (fun a => printable a = true) l -> trim_right l = l.
Proof.
  intros H. destruct l as [|a l]; [done|]. apply Forall_cons_1 in H as [Ha Hl]. simpl.
  rewrite (proj1 (printable_not_space a a a Ha)).
  destruct l as [|b l]; [done|]. apply Forall_cons_1 in Hl as [Hb Hl].
  rewrite (proj1 (proj2 (printable_not_space b a a Hb))).
  destruct l as [|c l]; [done|]. apply Forall_cons_1 in Hl as [Hc _].
  by rewrite (proj1 (proj2 (proj2 (printable_not_space c b a Hc)))).
Qed.

Lemma TrimSpace_printable s :
  Forall (fun a => printable a = true) (list_of_string s) -> TrimSpace s = s.
Proof.
  intros H. unfold TrimSpace. rewrite trim_left_printable by done.
  rewrite trim_right_printable by by apply Forall_rev.
  by rewrite rev_involutive, string_of_list_of_string.
Qed.

(** Trimming a second time changes nothing: what is left starts with no space,
    and neither does a prefix of it. *)
Definition starts_blank (sp2 : ascii -> ascii -> bool) (sp3 : ascii -> ascii -> ascii -> bool) (l : list ascii) : bool :=
  match l with
  | [] => false
  | a :: l1 =>
      space1 a ||
      match l1 with
      | [] => false
      | b :: l2 => sp2 a b || match l2 with [] => false | c :: _ => sp3 a b c end
      end
  end.

Abbreviation blank_left := (starts_blank space2 space3).
Abbreviation blank_right := (starts_blank (fun a b => space2 b a) (fun a b c => space3 c b a)).

Lemma starts_blank_prefix sp2 sp3 l k : starts_blank sp2 sp3 (l ++ k) = false -> starts_blank sp2 sp3 l = false.
Proof.
  destruct l as [|a [|b [|c l]]]; simpl; [done|..].
  - intros [-> _]%orb_false_iff. done.
  - intros [-> [-> _]%orb_false_iff]%orb_false_iff. done.
  - done.
Qed.

Lemma trim_left_spec n l : length l <= n -> blank_left (trim_left l) = false.
Proof.
  revert l. induction n as [|n IH]; intros [|a l] Hl; simpl in Hl; try lia; try done. cbn [trim_left].
  destruct (space1 a) eqn:H1; [apply IH; lia|]. destruct l as [|b l]; simpl in Hl; [simpl; by rewrite H1|].
  destruct (space2 a b) eqn:H2; [apply IH; lia|]. destruct l as [|c l]; simpl in Hl; [simpl; by rewrite H1, H2|].
  destruct (space3 a b c) eqn:H3; [apply IH; lia|]. simpl. by rewrite H1, H2, H3.
Qed.

Lemma trim_right_spec n l : length l <= n -> blank_right (trim_right l) = false /\ exists k, l = k ++ trim_right l.
Proof.
  revert l. induction n as [|n IH]; intros [|a l] Hl; simpl in Hl; try lia; try (split; [done|by exists []]). cbn [trim_right].
  destruct (space1 a) eqn:H1.
  { destruct (IH l) as [Hb [k Hk]]; [lia|]. split; [done|]. exists (a :: k). simpl. by rewrite <- Hk. }
  destruct l as [|b l]; simpl in Hl; [split; [simpl; by rewrite H1|by exists []]|].
  destruct (space2 b a) eqn:H2.
  { destruct (IH l) as [Hb [k Hk]]; [lia|]. split; [done|]. exists (a :: b :: k). simpl. by rewrite <- Hk. }
  destruct l as [|c l]; simpl in Hl; [split; [simpl; by rewrite H1, H2|by exists []]|].
  destruct (space3 c b a) eqn:H3.
  { destruct (IH l) as [Hb [k Hk]]; [lia|]. split; [done|]. exists (a :: b :: c :: k). simpl. by rewrite <- Hk. }
  split; [simpl; by rewrite H1, H2, H3|by exists []].
Qed.

Lemma trim_left_fixed l : blank_left l = false -> trim_left l = l.
Proof.
  destruct l as [|a [|b [|c l]]]; simpl; [done|..].
  - by intros [-> _]%orb_false_iff.
  - by intros [-> [-> _]%orb_false_iff]%orb_false_iff.
  - by intros [-> [-> ->]%orb_false_iff]%orb_false_iff.
Qed.

Lemma trim_right_fixed l : blank_right l = false -> trim_right l = l.
Proof.
  destruct l as [|a [|b [|c l]]]; simpl; [done|..].
  - by intros [-> _]%orb_false_iff.
  - by intros [-> [-> _]%orb_false_iff]%orb_false_iff.
  - by intros [-> [-> ->]%orb_false_iff]%orb_false_iff.
Qed.

Lemma TrimSpace_TrimSpace s : TrimSpace (TrimSpace s) = TrimSpace s.
Proof.
  unfold TrimSpace. rewrite list_of_string_of_list.
  set (l := trim_left (list_of_string s)).
  destruct (trim_right_spec _ (rev l) (Nat.le_refl _)) as [Hb [k Hk]]. set (t := trim_right (rev l)) in *.
  assert (Hl : l = rev t ++ rev k) by by rewrite <- (rev_involutive l), Hk, rev_app_distr.
  assert (Hpre : blank_left (rev t) = false).
  { apply (starts_blank_prefix _ _ _ (rev k)). rewrite <- Hl. by apply (trim_left_spec (length (list_of_string s))). }
  by rewrite trim_left_fixed, rev_involutive, trim_right_fixed.
Qed.

Lemma ValidString_printable s :
  Forall (fun a => printable a = true) (list_of_string s) -> ValidString s = true.
Proof.
  unfold ValidString. induction 1 as [|a l Ha _ IH]; [done|]. simpl.
  by rewrite (proj2 (proj2 (proj2 (printable_not_space a a a Ha)))).
Qed.
