(* ===== verification/GoUrl.v ===== *)
(** * Go's [net/url]

    Query strings, written out; URLs themselves are parsed and printed by a
    class of two functions. *)
From stdpp Require Import sorting.
From S2P Require Import Prelude GoText.

(** ** Escaping in query components *)
Definition unreserved (a : ascii) : bool :=
  byte_in 97 122 a || byte_in 65 90 a || byte_in 48 57 a ||
  byte_in 45 46 a || byte_in 95 95 a || byte_in 126 126 a.

Definition upper_hex (n : N) : ascii :=
  if (n <? 10)%N then ascii_of_N (48 + n) else ascii_of_N (55 + n).

Fixpoint QueryEscape (s : string) : string :=
  match s with
  | EmptyString => EmptyString
  | String a s' =>
      if Ascii.eqb a " " then String "+" (QueryEscape s') else
      if unreserved a then String a (QueryEscape s') else
      String "%" (String (upper_hex (N_of_ascii a / 16))
        (String (upper_hex (N_of_ascii a mod 16)) (QueryEscape s')))
  end.

Definition unhex (a : ascii) : option N :=
  if byte_in 48 57 a then Some (N_of_ascii a - 48)%N else
  if byte_in 97 102 a then Some (N_of_ascii a - 87)%N else
  if byte_in 65 70 a then Some (N_of_ascii a - 55)%N else None.

Fixpoint QueryUnescape (s : string) : option string :=
  match s with
  | EmptyString => Some EmptyString
  | String a s1 =>
      if Ascii.eqb a "%" then
        match s1 with
        | String b (String c s3) =>
            match unhex b, unhex c, QueryUnescape s3 with
            | Some h, Some l, Some rest => Some (String (ascii_of_N (16 * h + l)) rest)
            | _, _, _ => None
            end
        | _ => None
        end
      else
        match QueryUnescape s1 with
        | Some rest => Some (String (if Ascii.eqb a "+" then " "%char else a) rest)
        | None => None
        end
  end.

(** ** [url.Values] *)
Abbreviation Values := (gmap string (list string)).

Definition Set_ (key value : string) (v : Values) : Values := <[key := [value]]> v.

(** The first value of a key, empty when there is none. *)
Definition Get (key : string) (v : Values) : string := List.hd "" (default [] (v !! key)).

Definition key_le (p q : string * list string) : Prop := String.leb (fst p) (fst q) = true.

#[export] Instance key_le_dec p q : Decision (key_le p q).
Proof. unfold key_le. apply _. Defined.

Definition encode_pair (p : string * string) : string := QueryEscape (fst p) +:+ "=" +:+ QueryEscape (snd p).

Definition pairs_of (l : list (string * list string)) : list (string * string) :=
  List.flat_map (fun p => (fun v => (fst p, v)) <$> snd p) l.

Definition Encode (v : Values) : string :=
  String.concat "&" (encode_pair <$> pairs_of (merge_sort key_le (map_to_list v))).

Definition parse_pair (piece : string) : option (string * string) :=
  if byte_occurs ";" piece || String.eqb piece "" then None else
  let '(key, value) := match Cut piece "=" with Some kv => kv | None => (piece, "") end in
  match QueryUnescape key, QueryUnescape value with
  | Some key, Some value => Some (key, value)
  | _, _ => None
  end.

Definition append_pair (v : Values) (p : string * string) : Values :=
  <[fst p := default [] (v !! fst p) ++ [snd p]]> v.

(** [URL.Query()]: pieces that do not parse are dropped. *)
Definition ParseQuery (query : string) : Values :=
  foldl append_pair ∅ (omap parse_pair (Split query "&")).

(** [url.ParseQuery] has an error when a piece does not parse. *)
Definition query_ok (query : string) : bool :=
  forallb (fun piece => String.eqb piece "" || match parse_pair piece with Some _ => true | None => false end)
    (Split query "&").

(** ** URLs

    [url.Parse] and [URL.String] belong to the standard library; what the
    program looks at is the record's fields. *)
Record URL : Type := mkURL {
  Scheme : string;
  Host : string;
  (* [User != nil] *)
  has_User : bool;
  Fragment : string;
  RawQuery : string;
  url_Path : string;
  (* what else there is *)
  url_rest : string;
}.

Class NetURL := {
  url_Parse : string -> option URL;
  url_String : URL -> string;
}.

Definition set_RawQuery (query : string) (u : URL) : URL :=
  mkURL (Scheme u) (Host u) (has_User u) (Fragment u) query (url_Path u) (url_rest u).

(** ** Forms of [net/http]

    A POST request as the program makes it, with its form values once
    [ParseForm] has run. *)
Record HTTPRequest : Type := mkHTTPRequest {
  req_URL : URL;
  req_ContentType : string;
  req_Body : string;
  req_PostForm : Values;
  req_Form : Values;
}.

(** The port of a host is dropped when it is empty. *)
Fixpoint removeEmptyPort (host : string) : string :=
  match host with
  | EmptyString => EmptyString
  | String a EmptyString => if Ascii.eqb a ":" then EmptyString else host
  | String a rest => String a (removeEmptyPort rest)
  end.

Definition set_Host (host : string) (u : URL) : URL :=
  mkURL (Scheme u) host (has_User u) (Fragment u) (RawQuery u) (url_Path u) (url_rest u).

Definition ErrParse : error := New "net/url.Parse".
Definition ErrForm : error := New "net/http.ParseForm".

(** [http.NewRequestWithContext] with the method POST. *)
Definition http_NewRequest `{NetURL} (url body : string) : result HTTPRequest :=
  match url_Parse url with
  | None => Err ErrParse
  | Some u => Ok (mkHTTPRequest (set_Host (removeEmptyPort (Host u)) u) "" body ∅ ∅)
  end.

Definition set_ContentType (value : string) (r : HTTPRequest) : HTTPRequest :=
  mkHTTPRequest (req_URL r) value (req_Body r) (req_PostForm r) (req_Form r).

Definition form_type : string := "application/x-www-form-urlencoded".
Definition maxFormSize : Z := 10 * 2 ^ 20.

Definition copyValues (dst src : Values) : Values := union_with (fun d s => Some (d ++ s)) dst src.

(** [request.ParseForm()]: the values of the body, then those of the query. *)
Definition ParseForm (r : HTTPRequest) : result HTTPRequest :=
  let form := String.eqb (req_ContentType r) form_type in
  let post := if form then ParseQuery (req_Body r) else ∅ in
  let query := RawQuery (req_URL r) in
  if form && ((maxFormSize <? Z.of_nat (String.length (req_Body r)))%Z || negb (query_ok (req_Body r)))
  then Err ErrForm else
  if negb (query_ok query) then Err ErrForm else
  Ok (mkHTTPRequest (req_URL r) (req_ContentType r) (req_Body r) post (copyValues post (ParseQuery query))).

(** ** Facts *)
Lemma unhex_upper_hex n : (n < 16)%N -> unhex (upper_hex n) = Some n.
Proof.
  intros Hn. unfold unhex, upper_hex, byte_in. destruct (N.ltb_spec n 10).
  - rewrite !N_ascii_embedding by lia. rewrite !(proj2 (N.leb_le _ _)) by lia. simpl. f_equal. lia.
  - rewrite !N_ascii_embedding by lia.
    assert (forall a b, (b < a)%N -> (a <=? b)%N = false) as Hf by (intros; by apply N.leb_gt).
    rewrite !(Hf _ 57%N), !(Hf 97%N) by lia. rewrite !(proj2 (N.leb_le _ _)) by lia. simpl. f_equal. lia.
Qed.

Lemma unreserved_not a b : unreserved b = false -> unreserved a = true -> Ascii.eqb a b = false.
Proof. intros Hb Ha. apply Ascii.eqb_neq. congruence. Qed.

Lemma upper_hex_unreserved n : (n < 16)%N -> unreserved (upper_hex n) = true.
Proof.
  intros Hn. unfold unreserved, upper_hex, byte_in. destruct (N.ltb_spec n 10);
    rewrite !N_ascii_embedding by lia; rewrite ?(proj2 (N.leb_le 48 _)), ?(proj2 (N.leb_le 65 _)),
      ?(proj2 (N.leb_le _ 57)), ?(proj2 (N.leb_le _ 90)) by lia; simpl; by rewrite ?orb_true_r.
Qed.

Lemma QueryUnescape_QueryEscape s : QueryUnescape (QueryEscape s) = Some s.
Proof.
  induction s as [|a s IH]; [done|]. cbn [QueryEscape].
  destruct (Ascii.eqb_spec a " ") as [->|Hsp]; [simpl; by rewrite IH|].
  destruct (unreserved a) eqn:Hu; cbn [QueryUnescape].
  - rewrite !(unreserved_not a), IH by done. done.
  - rewrite Ascii.eqb_refl, !unhex_upper_hex, IH
      by (first [apply N.mod_lt | apply N.Div0.div_lt_upper_bound]; pose proof (N_ascii_bounded a); lia).
    rewrite <- N.div_mod by lia. by rewrite ascii_N_embedding.
Qed.

(** Bytes that never occur in an escaped text. *)
Lemma QueryEscape_free a s :
  unreserved a = false -> a <> "+"%char -> a <> "%"%char -> byte_occurs a (QueryEscape s) = false.
Proof.
  intros Ha Hp Hc. induction s as [|b s IH]; [done|]. cbn [QueryEscape].
  assert (Hne : forall c, unreserved c = true -> Ascii.eqb a c = false)
    by (intros c Hc'; apply Ascii.eqb_neq; congruence).
  destruct (Ascii.eqb b " "); [|destruct (unreserved b) eqn:Hb]; cbn [byte_occurs]; rewrite IH.
  - by rewrite (proj2 (Ascii.eqb_neq _ _) Hp).
  - by rewrite Hne.
  - rewrite (proj2 (Ascii.eqb_neq _ _) Hc), !Hne; [done|apply upper_hex_unreserved..];
      [apply N.mod_lt|apply N.Div0.div_lt_upper_bound; pose proof (N_ascii_bounded b)]; lia.
Qed.

Lemma Cut_app a p s : byte_occurs a p = false ->
  Cut (p +:+ String a s) (String a EmptyString) = Some (p, s).
Proof.
  induction p as [|b p IH]; intros Hp.
  - simpl. rewrite Ascii.eqb_refl. by destruct s.
  - simpl in Hp. apply orb_false_iff in Hp as [Hb Hp]. simpl. rewrite Hb. simpl.
    change (String.append p) with (String.app p). by rewrite IH.
Qed.

Lemma encode_pair_free a p :
  unreserved a = false -> a <> "+"%char -> a <> "%"%char -> a <> "="%char ->
  byte_occurs a (encode_pair p) = false.
Proof.
  intros. unfold encode_pair. rewrite !byte_occurs_app, !QueryEscape_free by done. simpl.
  by rewrite (proj2 (Ascii.eqb_neq _ _)).
Qed.

Lemma parse_encode_pair p : parse_pair (encode_pair p) = Some p.
Proof.
  unfold parse_pair. rewrite encode_pair_free by done.
  assert (Hne : encode_pair p <> "").
  { intros E. apply (f_equal String.length) in E. unfold encode_pair in E. rewrite !length_app_string in E.
    simpl in E. lia. }
  rewrite (proj2 (String.eqb_neq _ _) Hne). unfold encode_pair.
  change ("=" +:+ ?x) with (String "=" x).
  rewrite Cut_app by by apply QueryEscape_free. cbn [orb]. rewrite !QueryUnescape_QueryEscape. by destruct p.
Qed.

Lemma Split_concat l : l <> [] -> Forall (fun p => byte_occurs "&" p = false) l ->
  Split (String.concat "&" l) "&" = l.
Proof.
  intros Hne Hl. induction Hl as [|p l Hp Hl IH]; [done|]. destruct l as [|q l].
  - by apply Split_last.
  - change (String.concat "&" (p :: q :: l)) with (p +:+ String "&" (String.concat "&" (q :: l))).
    rewrite Split_cons by done. by rewrite IH.
Qed.

Lemma parse_concat l : omap parse_pair (Split (String.concat "&" (encode_pair <$> l)) "&") = l.
Proof.
  assert (Hl : omap parse_pair (encode_pair <$> l) = l).
  { induction l as [|p l IH]; [done|]. rewrite fmap_cons. cbn [omap list_omap]. rewrite parse_encode_pair.
    f_equal. apply IH. }
  destruct l as [|p l]; [done|]. rewrite Split_concat; [done|done|].
  apply Forall_fmap. apply Forall_true. intros q. by apply encode_pair_free.
Qed.

Lemma append_block v k vs : foldl append_pair v ((fun x => (k, x)) <$> vs) =
  if decide (vs = []) then v else <[k := default [] (v !! k) ++ vs]> v.
Proof.
  revert v. induction vs as [|x vs IH]; intros v; [done|]. rewrite fmap_cons. cbn [foldl].
  rewrite IH. unfold append_pair. simpl. rewrite lookup_insert_eq. simpl.
  destruct (decide (vs = [])) as [->|]; [done|]. by rewrite insert_insert_eq, <- app_assoc.
Qed.

Lemma append_blocks l v :
  NoDup l.*1 -> Forall (fun p => snd p <> []) l -> Forall (fun p => v !! fst p = None) l ->
  foldl append_pair v (pairs_of l) = foldl (fun v p => <[fst p := snd p]> v) v l.
Proof.
  revert v. induction l as [|[k vs] l IH]; intros v Hnd Hne Hv; [done|].
  cbn [pairs_of List.flat_map]. rewrite foldl_app, append_block. simpl in *.
  apply list.NoDup_cons in Hnd as [Hk Hnd]. apply Forall_cons_iff in Hne as [Hvs Hne], Hv as [Hkv Hv].
  simpl in *. rewrite decide_False, Hkv by done. simpl. apply IH; [done|done|].
  apply Forall_forall. intros p Hp. rewrite lookup_insert_ne; [by eapply Forall_forall in Hv|].
  intros ->. apply Hk. by apply list_elem_of_In, in_map.
Qed.

Lemma foldl_insert l v :
  NoDup l.*1 -> Forall (fun p => v !! fst p = None) l ->
  foldl (fun (v : Values) p => <[fst p := snd p]> v) v l = list_to_map l ∪ v.
Proof.
  revert v. induction l as [|[k vs] l IH]; intros v Hnd Hv; simpl; [by rewrite map_empty_union|].
  apply list.NoDup_cons in Hnd as [Hk Hnd]. apply Forall_cons_iff in Hv as [Hkv Hv]. simpl in *. rewrite IH.
  - rewrite <- insert_union_l, <- insert_union_r; [done|]. by apply not_elem_of_list_to_map_1.
  - done.
  - apply Forall_forall. intros p Hp. rewrite lookup_insert_ne; [by eapply Forall_forall in Hv|].
    intros ->. apply Hk. by apply list_elem_of_In, in_map.
Qed.

(** What is encoded is parsed back. *)
Lemma ParseQuery_Encode v : (forall k vs, v !! k = Some vs -> vs <> []) -> ParseQuery (Encode v) = v.
Proof.
  intros Hne. unfold ParseQuery, Encode. rewrite parse_concat.
  set (l := merge_sort key_le (map_to_list v)).
  assert (Hp : Permutation l (map_to_list v)) by apply merge_sort_Permutation.
  assert (Hnd : NoDup l.*1) by (rewrite Hp; apply NoDup_fst_map_to_list).
  rewrite append_blocks, foldl_insert; try done; [|by apply Forall_true|apply Forall_forall|by apply Forall_true].
  - rewrite map_union_empty, (list_to_map_proper l (map_to_list v)) by done. apply list_to_map_to_list.
  - intros [k vs] Hin%list_elem_of_In. rewrite Hp in Hin. apply elem_of_map_to_list in Hin. by eapply Hne.
Qed.

Lemma query_ok_pairs l : query_ok (String.concat "&" (encode_pair <$> l)) = true.
Proof.
  unfold query_ok. assert (Hl : forallb (fun piece => String.eqb piece "" ||
      match parse_pair piece with Some _ => true | None => false end) (encode_pair <$> l) = true).
  { induction l as [|p l IH]; [done|]. rewrite fmap_cons. cbn [forallb]. by rewrite parse_encode_pair, orb_true_r, IH. }
  destruct l as [|p l]; [done|]. rewrite Split_concat; [done|done|].
  apply Forall_fmap. apply Forall_true. intros q. by apply encode_pair_free.
Qed.

Lemma query_ok_Encode v : query_ok (Encode v) = true.
Proof. apply query_ok_pairs. Qed.

Lemma length_QueryEscape s : String.length (QueryEscape s) <= 3 * String.length s.
Proof.
  induction s as [|a s IH]; [done|]. cbn [QueryEscape].
  destruct (Ascii.eqb a " "); [|destruct (unreserved a)]; cbn [String.length]; lia.
Qed.

(** A form with one value is parsed back from the body it was encoded in. *)
Lemma ParseForm_single u k value :
  query_ok (RawQuery u) = true -> (Z.of_nat (String.length (encode_pair (k, value))) <= maxFormSize)%Z ->
  exists form, ParseForm (mkHTTPRequest u form_type (Encode {[ k := [value] ]}) ∅ ∅) =
    Ok (mkHTTPRequest u form_type (Encode {[ k := [value] ]}) {[ k := [value] ]} form).
Proof.
  intros Hq Hlen. unfold ParseForm. cbn [req_URL req_ContentType req_Body]. rewrite String.eqb_refl, query_ok_Encode, Hq.
  assert (Hone : Encode {[ k := [value] ]} = encode_pair (k, value)).
  { unfold Encode. by rewrite map_to_list_singleton. }
  rewrite <- Hone in Hlen. rewrite (proj2 (Z.ltb_ge _ _) Hlen). cbn [negb orb andb].
  eexists. f_equal. rewrite ParseQuery_Encode; [done|].
  by intros k' vs [-> <-]%lookup_singleton_Some.
Qed.

Example Encode_example :
  Encode (Set_ "state" "a b&c" (Set_ "nonce" "x+y" ∅)) = "nonce=x%2By&state=a+b%26c".
Proof. vm_compute. reflexivity. Qed.
