(* ===== verification/Base64.v ===== *)
(** * [encoding/base64] without padding

    [RawURLEncoding] and [RawStdEncoding] of Go's standard library, with the
    strict decoder: line breaks are skipped, a group of one character is an
    error, and the unused low bits of a short last group must be zero. *)
From S2P Require Import Prelude GoText.

Inductive alphabet := StdAlphabet | URLAlphabet.

(** Six bits, most significant first. *)
Definition sextet : Type := bool * bool * bool * bool * bool * bool.

Definition sextet_index (s : sextet) : nat :=
  let '(b5, b4, b3, b2, b1, b0) := s in
  Nat.b2n b0 + 2 * Nat.b2n b1 + 4 * Nat.b2n b2 + 8 * Nat.b2n b3 + 16 * Nat.b2n b4 + 32 * Nat.b2n b5.

Definition letters (enc : alphabet) : list ascii :=
  list_of_string
    ("ABCDEFGHIJKLMNOPQRSTUVWXYZabcdefghijklmnopqrstuvwxyz0123456789" +:+
     match enc with StdAlphabet => "+/" | URLAlphabet => "-_" end).

Definition encode_sextet (enc : alphabet) (s : sextet) : ascii :=
  nth (sextet_index s) (letters enc) "A"%char.

Definition all_sextets : list sextet :=
  b5 ← [false; true]; b4 ← [false; true]; b3 ← [false; true];
  b2 ← [false; true]; b1 ← [false; true]; b0 ← [false; true]; [(b5, b4, b3, b2, b1, b0)].

(** The decoder's table: the sextet a character stands for. *)
Definition decode_sextet (enc : alphabet) (a : ascii) : option sextet :=
  List.find (fun s => Ascii.eqb (encode_sextet enc s) a) all_sextets.

Fixpoint encode_bytes (enc : alphabet) (l : list ascii) : list ascii :=
  match l with
  | [] => []
  | [Ascii a0 a1 a2 a3 a4 a5 a6 a7] =>
      [encode_sextet enc (a7, a6, a5, a4, a3, a2);
       encode_sextet enc (a1, a0, false, false, false, false)]
  | [Ascii a0 a1 a2 a3 a4 a5 a6 a7; Ascii b0 b1 b2 b3 b4 b5 b6 b7] =>
      [encode_sextet enc (a7, a6, a5, a4, a3, a2);
       encode_sextet enc (a1, a0, b7, b6, b5, b4);
       encode_sextet enc (b3, b2, b1, b0, false, false)]
  | Ascii a0 a1 a2 a3 a4 a5 a6 a7 :: Ascii b0 b1 b2 b3 b4 b5 b6 b7 ::
      Ascii c0 c1 c2 c3 c4 c5 c6 c7 :: rest =>
      encode_sextet enc (a7, a6, a5, a4, a3, a2) ::
      encode_sextet enc (a1, a0, b7, b6, b5, b4) ::
      encode_sextet enc (b3, b2, b1, b0, c7, c6) ::
      encode_sextet enc (c5, c4, c3, c2, c1, c0) :: encode_bytes enc rest
  end.

(** Groups of sextets to bytes, strict about trailing bits. *)
Fixpoint decode_groups (l : list sextet) : option (list ascii) :=
  match l with
  | [] => Some []
  | [_] => None
  | [(a7, a6, a5, a4, a3, a2); (a1, a0, t3, t2, t1, t0)] =>
      if t3 || t2 || t1 || t0 then None else Some [Ascii a0 a1 a2 a3 a4 a5 a6 a7]
  | [(a7, a6, a5, a4, a3, a2); (a1, a0, b7, b6, b5, b4); (b3, b2, b1, b0, t1, t0)] =>
      if t1 || t0 then None
      else Some [Ascii a0 a1 a2 a3 a4 a5 a6 a7; Ascii b0 b1 b2 b3 b4 b5 b6 b7]
  | (a7, a6, a5, a4, a3, a2) :: (a1, a0, b7, b6, b5, b4) ::
      (b3, b2, b1, b0, c7, c6) :: (c5, c4, c3, c2, c1, c0) :: rest =>
      match decode_groups rest with
      | Some bytes =>
          Some (Ascii a0 a1 a2 a3 a4 a5 a6 a7 :: Ascii b0 b1 b2 b3 b4 b5 b6 b7 ::
                Ascii c0 c1 c2 c3 c4 c5 c6 c7 :: bytes)
      | None => None
      end
  end.

Definition line_break (a : ascii) : bool := byte_in 10 10 a || byte_in 13 13 a.

Definition EncodeToString (enc : alphabet) (s : string) : string :=
  string_of_list (encode_bytes enc (list_of_string s)).

(** [enc.Strict().DecodeString(s)]. *)
Definition DecodeString (enc : alphabet) (s : string) : option string :=
  match mapM (decode_sextet enc) (List.filter (fun a => negb (line_break a)) (list_of_string s)) with
  | Some sextets => string_of_list <$> decode_groups sextets
  | None => None
  end.

(** The decoder that is not strict drops the unused bits of a last group. *)
Fixpoint decode_groups_lax (l : list sextet) : option (list ascii) :=
  match l with
  | [] => Some []
  | [_] => None
  | [(a7, a6, a5, a4, a3, a2); (a1, a0, _, _, _, _)] => Some [Ascii a0 a1 a2 a3 a4 a5 a6 a7]
  | [(a7, a6, a5, a4, a3, a2); (a1, a0, b7, b6, b5, b4); (b3, b2, b1, b0, _, _)] =>
      Some [Ascii a0 a1 a2 a3 a4 a5 a6 a7; Ascii b0 b1 b2 b3 b4 b5 b6 b7]
  | (a7, a6, a5, a4, a3, a2) :: (a1, a0, b7, b6, b5, b4) :: (b3, b2, b1, b0, c7, c6) ::
      (c5, c4, c3, c2, c1, c0) :: rest =>
      match decode_groups_lax rest with
      | Some decoded =>
          Some (Ascii a0 a1 a2 a3 a4 a5 a6 a7 :: Ascii b0 b1 b2 b3 b4 b5 b6 b7 ::
                Ascii c0 c1 c2 c3 c4 c5 c6 c7 :: decoded)
      | None => None
      end
  end.

Definition DecodeStringLax (enc : alphabet) (s : string) : option string :=
  match mapM (decode_sextet enc) (List.filter (fun a => negb (line_break a)) (list_of_string s)) with
  | Some sextets => string_of_list <$> decode_groups_lax sextets
  | None => None
  end.

(** ** The round trip *)
Lemma list_ind3 {A} (P : list A -> Prop) :
  P [] -> (forall a, P [a]) -> (forall a b, P [a; b]) ->
  (forall a b c l, P l -> P (a :: b :: c :: l)) -> forall l, P l.
Proof.
  intros H0 H1 H2 H3. fix IH 1. intros [|a [|b [|c l]]]; [done|done|done|]. apply H3, IH.
Qed.

Lemma decode_encode_sextet enc s : decode_sextet enc (encode_sextet enc s) = Some s.
Proof. by destruct enc, s as [[[[[[] []] []] []] []] []]. Qed.

Lemma encode_sextet_printable enc s :
  line_break (encode_sextet enc s) = false /\ encode_sextet enc s <> "$"%char.
Proof. by destruct enc, s as [[[[[[] []] []] []] []] []]. Qed.

(** The sextets an encoding is made of. *)
Fixpoint sextets_of (l : list ascii) : list sextet :=
  match l with
  | [] => []
  | [Ascii a0 a1 a2 a3 a4 a5 a6 a7] =>
      [(a7, a6, a5, a4, a3, a2); (a1, a0, false, false, false, false)]
  | [Ascii a0 a1 a2 a3 a4 a5 a6 a7; Ascii b0 b1 b2 b3 b4 b5 b6 b7] =>
      [(a7, a6, a5, a4, a3, a2); (a1, a0, b7, b6, b5, b4); (b3, b2, b1, b0, false, false)]
  | Ascii a0 a1 a2 a3 a4 a5 a6 a7 :: Ascii b0 b1 b2 b3 b4 b5 b6 b7 ::
      Ascii c0 c1 c2 c3 c4 c5 c6 c7 :: rest =>
      (a7, a6, a5, a4, a3, a2) :: (a1, a0, b7, b6, b5, b4) ::
      (b3, b2, b1, b0, c7, c6) :: (c5, c4, c3, c2, c1, c0) :: sextets_of rest
  end.

Lemma encode_bytes_sextets enc l : encode_bytes enc l = encode_sextet enc <$> sextets_of l.
Proof.
  induction l as [|[]|[] []|[] [] [] l IH] using list_ind3; [done..|].
  simpl. by rewrite IH.
Qed.

Lemma decode_groups_sextets l : decode_groups (sextets_of l) = Some l.
Proof.
  induction l as [|[]|[] []|[] [] [] l IH] using list_ind3; [done..|].
  simpl. by rewrite IH.
Qed.

Lemma DecodeString_EncodeToString enc s : DecodeString enc (EncodeToString enc s) = Some s.
Proof.
  unfold DecodeString, EncodeToString. rewrite list_of_string_of_list, encode_bytes_sextets.
  assert (Hf : forall l, List.filter (fun a => negb (line_break a)) (encode_sextet enc <$> l)
                    = encode_sextet enc <$> l).
  { induction l as [|x l IH]; [done|]. rewrite fmap_cons. cbn [List.filter].
    rewrite (proj1 (encode_sextet_printable enc x)). cbn [negb]. by rewrite IH. }
  rewrite Hf.
  assert (Hm : forall l, mapM (decode_sextet enc) (encode_sextet enc <$> l) = Some l).
  { induction l as [|x l IH]; [done|]. rewrite fmap_cons. cbn [mapM].
    by rewrite decode_encode_sextet, IH. }
  rewrite Hm, decode_groups_sextets. simpl. by rewrite string_of_list_of_string.
Qed.

Lemma EncodeToString_inj enc s t : EncodeToString enc s = EncodeToString enc t -> s = t.
Proof.
  intros H. apply (f_equal (DecodeString enc)) in H.
  rewrite !DecodeString_EncodeToString in H. congruence.
Qed.

(** An encoding has no ["$"], the separator of the password hash format. *)
Lemma EncodeToString_no_dollar enc s : byte_occurs "$" (EncodeToString enc s) = false.
Proof.
  unfold EncodeToString. rewrite encode_bytes_sextets.
  induction (sextets_of (list_of_string s)) as [|x l IH]; [done|].
  rewrite fmap_cons. cbn [string_of_list byte_occurs]. rewrite IH, orb_false_r. apply Ascii.eqb_neq. intros E.
  by apply (proj2 (encode_sextet_printable enc x)).
Qed.

(** An encoding is printable ASCII text. *)
Lemma EncodeToString_printable enc s :
  Forall (fun a => printable a = true) (list_of_string (EncodeToString enc s)).
Proof.
  unfold EncodeToString. rewrite list_of_string_of_list, encode_bytes_sextets.
  induction (sextets_of (list_of_string s)) as [|x l IH]; rewrite ?fmap_nil, ?fmap_cons; constructor; [|done].
  by destruct enc, x as [[[[[[] []] []] []] []] []].
Qed.

Lemma EncodeToString_nonempty enc s : s <> EmptyString -> EncodeToString enc s <> EmptyString.
Proof.
  intros Hs H. apply Hs, (EncodeToString_inj enc). by rewrite H.
Qed.

(** [n] whole groups of three bytes make [4 n] characters; the remainder adds
    one character more than it has bytes. *)
Lemma length_EncodeToString enc s :
  String.length (EncodeToString enc s) = (4 * String.length s + 2) / 3.
Proof.
  unfold EncodeToString. rewrite length_string_of_list.
  replace (String.length s) with (length (list_of_string s))
    by (rewrite <- length_string_of_list; by rewrite string_of_list_of_string).
  induction (list_of_string s) as [|[]|[] []|[] [] [] l IH] using list_ind3; [done..|].
  cbn [encode_bytes length]. rewrite IH.
  replace (4 * Datatypes.S (Datatypes.S (Datatypes.S (length l))) + 2)
    with (4 * length l + 2 + 4 * 3) by lia.
  rewrite Nat.div_add; lia.
Qed.

Example EncodeToString_example :
  EncodeToString StdAlphabet "Many hands" = "TWFueSBoYW5kcw" /\
  DecodeString StdAlphabet "TWFueSBoYW5kcw" = Some "Many hands" /\
  DecodeString StdAlphabet "TWFueSBoYW5kcx" = None.
Proof. vm_compute. auto. Qed.
