(* ===== verification/GoJson.v ===== *)
(** * Go's [encoding/json]: encoding

    [json.Marshal] of strings, booleans and byte slices, as the fields of a
    struct, and that the encoding determines what was encoded. *)
From S2P Require Import Prelude GoText GoUrl Base64.

(** ** Strings

    [appendString] with HTML escapes: a byte that is not part of a valid UTF-8
    sequence is written as U+FFFD. *)
Definition quote_byte : ascii := ascii_of_N 34.
Definition backslash : ascii := ascii_of_N 92.

Definition html_safe (a : ascii) : bool :=
  byte_in 32 127 a &&
  negb (existsb (Ascii.eqb a) [quote_byte; "&"%char; "<"%char; ">"%char; backslash]).

Definition escape_rune (h1 h2 h3 h4 : ascii) : list ascii := [backslash; "u"%char; h1; h2; h3; h4].

Definition json_ascii (a : ascii) : list ascii :=
  if html_safe a then [a] else
  if Ascii.eqb a backslash || Ascii.eqb a quote_byte then [backslash; a] else
  if byte_in 8 8 a then [backslash; "b"%char] else
  if byte_in 12 12 a then [backslash; "f"%char] else
  if byte_in 10 10 a then [backslash; "n"%char] else
  if byte_in 13 13 a then [backslash; "r"%char] else
  if byte_in 9 9 a then [backslash; "t"%char] else
  escape_rune "0" "0" (hex_digit (N_of_ascii a / 16)) (hex_digit (N_of_ascii a mod 16)).

(** Sequences of two, three and four bytes that encode a rune. *)
Definition rune2 (a b : ascii) : bool := byte_in 194 223 a && continuation b.

Definition rune3 (a b c : ascii) : bool :=
  byte_in 224 239 a &&
  ((if byte_in 224 224 a then byte_in 160 191 b
    else if byte_in 237 237 a then byte_in 128 159 b
    else continuation b) && continuation c).

Definition rune4 (a b c d : ascii) : bool :=
  byte_in 240 244 a &&
  (if byte_in 240 240 a then byte_in 144 191 b
   else if byte_in 244 244 a then byte_in 128 143 b
   else continuation b) && continuation c && continuation d.

Definition rune_error : list ascii := escape_rune "f" "f" "f" "d".

(** U+2028 and U+2029 are escaped. *)
Definition json_rune3 (a b c : ascii) : list ascii :=
  if byte_in 226 226 a && byte_in 128 128 b && byte_in 168 169 c
  then escape_rune "2" "0" "2" (hex_digit (N_of_ascii c mod 16 ))
  else [a; b; c].

Fixpoint json_body (l : list ascii) : list ascii :=
  match l with
  | [] => []
  | a :: l1 =>
      if byte_in 0 127 a then json_ascii a ++ json_body l1 else
      match l1 with
      | [] => rune_error ++ json_body l1
      | b :: l2 =>
          if rune2 a b then [a; b] ++ json_body l2 else
          match l2 with
          | [] => rune_error ++ json_body l1
          | c :: l3 =>
              if rune3 a b c then json_rune3 a b c ++ json_body l3 else
              match l3 with
              | [] => rune_error ++ json_body l1
              | d :: l4 =>
                  if rune4 a b c d then [a; b; c; d] ++ json_body l4
                  else rune_error ++ json_body l1
              end
          end
      end
  end.

Definition quoted (l : list ascii) : list ascii := quote_byte :: l ++ [quote_byte].

Definition json_string (s : string) : list ascii := quoted (json_body (list_of_string s)).

(** ** Booleans and byte slices

    [base64.StdEncoding]; a slice without bytes is [nil]. *)
Definition json_bool (b : bool) : list ascii := list_of_string (if b then "true" else "false").

Definition StdEncodeToString (s : string) : string :=
  let e := EncodeToString StdAlphabet s in
  e +:+ string_of_list (repeat "="%char ((4 - String.length e mod 4) mod 4)).

Definition json_bytes (s : string) : list ascii :=
  if String.eqb s "" then list_of_string "null" else quoted (list_of_string (StdEncodeToString s)).

(** ** Structs, by the names and the values of their fields *)
Inductive json_value : Type := JString (s : string) | JBytes (s : string) | JBool (b : bool).

Definition json_encode (v : json_value) : list ascii :=
  match v with
  | JString s => json_string s
  | JBytes s => json_bytes s
  | JBool b => json_bool b
  end.

Definition json_field (p : string * json_value) : list ascii := json_string (fst p) ++ ":"%char :: json_encode (snd p).

Definition json_fields (fields : list (string * json_value)) : list ascii :=
  match fields with
  | [] => []
  | first :: rest => json_field first ++ List.flat_map (fun p => ","%char :: json_field p) rest
  end.

Definition json_Marshal_struct (fields : list (string * json_value)) : string :=
  string_of_list ("{"%char :: json_fields fields ++ ["}"%char]).

Example json_Marshal_struct_example :
  list_of_string (json_Marshal_struct [("ID", JString "a<b"); ("Raw", JBytes "hi?"); ("Force", JBool true)]) =
  list_of_string "{" ++ quoted (list_of_string "ID") ++ list_of_string ":" ++ quoted (list_of_string "a\u003cb") ++
  list_of_string "," ++ quoted (list_of_string "Raw") ++ list_of_string ":" ++ quoted (list_of_string "aGk/") ++
  list_of_string "," ++ quoted (list_of_string "Force") ++ list_of_string ":true}".
Proof. vm_compute. reflexivity. Qed.

(** ** What an encoding determines

    [unquote] reads back what [quoted] wrote, up to the closing quote. *)
Definition unescape_rune (h1 h2 h3 h4 : ascii) : list ascii :=
  match unhex h3, unhex h4 with
  | Some h, Some k =>
      if Ascii.eqb h1 "2" then [ascii_of_N 226; ascii_of_N 128; ascii_of_N (160 + k)]
      else [ascii_of_N (16 * h + k)]
  | _, _ => []
  end.

Definition unescape (b : ascii) : ascii :=
  if Ascii.eqb b "b" then ascii_of_N 8 else if Ascii.eqb b "f" then ascii_of_N 12 else
  if Ascii.eqb b "n" then ascii_of_N 10 else if Ascii.eqb b "r" then ascii_of_N 13 else
  if Ascii.eqb b "t" then ascii_of_N 9 else b.

Definition before {A B} (x : list A) (r : option (list A * B)) : option (list A * B) :=
  match r with Some (y, rest) => Some (x ++ y, rest) | None => None end.

Fixpoint unquote (l : list ascii) : option (list ascii * list ascii) :=
  match l with
  | [] => None
  | a :: l1 =>
      if Ascii.eqb a quote_byte then Some ([], l1) else
      if Ascii.eqb a backslash then
        match l1 with
        | b :: l2 =>
            if Ascii.eqb b "u" then
              match l2 with
              | h1 :: h2 :: h3 :: h4 :: l3 => before (unescape_rune h1 h2 h3 h4) (unquote l3)
              | _ => None
              end
            else before [unescape b] (unquote l2)
        | [] => None
        end
      else before [a] (unquote l1)
  end.

Definition plain (a : ascii) : bool := negb (Ascii.eqb a quote_byte || Ascii.eqb a backslash).

Lemma unquote_plain a l : plain a = true -> unquote (a :: l) = before [a] (unquote l).
Proof. unfold plain. cbn [unquote]. destruct (Ascii.eqb a quote_byte); [done|]. by destruct (Ascii.eqb a backslash). Qed.

Lemma before_app {A B} (x y : list A) (r : option (list A * B)) : before (x ++ y) r = before x (before y r).
Proof. destruct r as [[z rest]|]; [|done]. simpl. by rewrite app_assoc. Qed.

Lemma unquote_plains x l : Forall (fun a => plain a = true) x -> unquote (x ++ l) = before x (unquote l).
Proof.
  intros Hx. induction Hx as [|a x Ha Hx IH]; [simpl; by destruct (unquote l) as [[? ?]|]|].
  change ((a :: x) ++ l) with (a :: (x ++ l)). rewrite unquote_plain, IH by done.
  by rewrite <- before_app.
Qed.

(** An escape stands for its byte. *)
Definition escape_of (a : ascii) (e : list ascii) : bool :=
  match e with
  | [s; b] => Ascii.eqb s backslash && negb (Ascii.eqb b "u") && Ascii.eqb (unescape b) a
  | [s; u; h1; h2; h3; h4] =>
      Ascii.eqb s backslash && Ascii.eqb u "u" &&
      match unescape_rune h1 h2 h3 h4 with [b] => Ascii.eqb b a | _ => false end
  | _ => false
  end.

Lemma json_ascii_escape a : byte_in 0 127 a = true -> html_safe a = false -> escape_of a (json_ascii a) = true.
Proof. by destruct a as [[] [] [] [] [] [] [] []]. Qed.

Lemma html_safe_plain a : html_safe a = true -> plain a = true.
Proof. by destruct a as [[] [] [] [] [] [] [] []]. Qed.

Lemma unquote_escape a e l : escape_of a e = true -> unquote (e ++ l) = before [a] (unquote l).
Proof.
  destruct e as [|s [|b [|h1 [|h2 [|h3 [|h4 [|? ?]]]]]]]; try done; cbn [escape_of]; intros He; go_bool.
  - apply Ascii.eqb_eq in H as ->. apply Ascii.eqb_eq in H0 as <-. cbn [app unquote].
    destruct (Ascii.eqb b "u"); [done|]. done.
  - apply Ascii.eqb_eq in H as ->. apply Ascii.eqb_eq in H1 as ->. cbn [app unquote].
    destruct (unescape_rune _ _ _ _) as [|x [|? ?]]; try done. by apply Ascii.eqb_eq in H0 as ->.
Qed.

Lemma unquote_ascii a l : byte_in 0 127 a = true -> unquote (json_ascii a ++ l) = before [a] (unquote l).
Proof.
  intros Ha. destruct (html_safe a) eqn:Hs; [|by apply unquote_escape, json_ascii_escape].
  unfold json_ascii. rewrite Hs. by apply unquote_plain, html_safe_plain.
Qed.

(** Bytes outside ASCII are plain. *)
Lemma byte_in_true lo hi a : byte_in lo hi a = true <-> (lo <= N_of_ascii a <= hi)%N.
Proof. unfold byte_in. by rewrite andb_true_iff, !N.leb_le. Qed.

Lemma high_plain a : (128 <= N_of_ascii a)%N -> plain a = true.
Proof. destruct a as [[] [] [] [] [] [] [] []]; vm_compute; intros Ha; first [reflexivity|by destruct Ha]. Qed.

Lemma continuation_high a : continuation a = true -> (128 <= N_of_ascii a)%N.
Proof. unfold continuation. rewrite byte_in_true. lia. Qed.

Lemma rune2_plain a b : rune2 a b = true -> Forall (fun x => plain x = true) [a; b].
Proof.
  unfold rune2. intros [Ha%byte_in_true Hb%continuation_high]%andb_true_iff.
  repeat constructor; apply high_plain; lia.
Qed.

Lemma rune3_high a b c : rune3 a b c = true ->
  (128 <= N_of_ascii a)%N /\ (128 <= N_of_ascii b)%N /\ (128 <= N_of_ascii c)%N.
Proof.
  unfold rune3. intros [Ha%byte_in_true [Hb Hc%continuation_high]%andb_true_iff]%andb_true_iff.
  assert (128 <= N_of_ascii b)%N; [|lia].
  destruct (byte_in 224 224 a); [apply byte_in_true in Hb; lia|].
  destruct (byte_in 237 237 a); [apply byte_in_true in Hb; lia|by apply continuation_high].
Qed.

Lemma rune4_plain a b c d : rune4 a b c d = true -> Forall (fun x => plain x = true) [a; b; c; d].
Proof.
  unfold rune4. intros [[[Ha%byte_in_true Hb]%andb_true_iff Hc%continuation_high]%andb_true_iff Hd%continuation_high]%andb_true_iff.
  assert (128 <= N_of_ascii b)%N.
  { destruct (byte_in 240 240 a); [apply byte_in_true in Hb; lia|].
    destruct (byte_in 244 244 a); [apply byte_in_true in Hb; lia|by apply continuation_high]. }
  repeat constructor; apply high_plain; lia.
Qed.

Lemma byte_at n a : byte_in n n a = true -> a = ascii_of_N n.
Proof. rewrite byte_in_true. intros Hn. rewrite <- (ascii_N_embedding a). f_equal. lia. Qed.

Lemma unquote_rune3 a b c l : rune3 a b c = true -> unquote (json_rune3 a b c ++ l) = before [a; b; c] (unquote l).
Proof.
  intros Hr. unfold json_rune3. destruct (_ && _) eqn:Hs.
  - go_bool. repeat match goal with Hb : byte_in ?n ?n _ = true |- _ => apply byte_at in Hb end. subst.
    assert (c = ascii_of_N 168 \/ c = ascii_of_N 169) as [->| ->]; [|done..].
    match goal with Hb : byte_in 168 169 c = true |- _ => apply byte_in_true in Hb end.
    rewrite <- (ascii_N_embedding c). destruct (decide (N_of_ascii c = 168%N)) as [->|]; [by left|].
    right. f_equal. lia.
  - destruct (rune3_high _ _ _ Hr) as (? & ? & ?). apply unquote_plains. by repeat constructor; apply high_plain.
Qed.

Lemma before_nil {A B} (r : option (list A * B)) : before [] r = r.
Proof. by destruct r as [[? ?]|]. Qed.

(** Valid UTF-8, rune by rune. *)
Lemma valid_utf8_ind (P : list ascii -> Prop) :
  P [] ->
  (forall a l, byte_in 0 127 a = true -> P l -> P (a :: l)) ->
  (forall a b l, byte_in 0 127 a = false -> rune2 a b = true -> P l -> P (a :: b :: l)) ->
  (forall a b c l, byte_in 0 127 a = false -> rune2 a b = false -> rune3 a b c = true -> P l -> P (a :: b :: c :: l)) ->
  (forall a b c d l, byte_in 0 127 a = false -> rune2 a b = false -> rune3 a b c = false -> rune4 a b c d = true ->
     P l -> P (a :: b :: c :: d :: l)) ->
  forall l, valid_utf8 l = true -> P l.
Proof.
  intros H0 H1 H2 H3 H4 l. remember (length l) as n eqn:Hn. revert l Hn.
  induction n as [n IH] using lt_wf_ind. intros l -> Hl. destruct l as [|a l1]; [done|]. cbn [valid_utf8] in Hl.
  destruct (byte_in 0 127 a) eqn:Ha; [apply H1, (IH (length l1)); simpl; auto|].
  destruct l1 as [|b l2]; [done|]. destruct (byte_in 194 223 a) eqn:Ha2.
  { go_bool. apply H2; [done|by unfold rune2; rewrite Ha2|]. apply (IH (length l2)); simpl; auto. }
  assert (Hr2 : rune2 a b = false) by (unfold rune2; by rewrite Ha2).
  destruct l2 as [|c l3]; [done|]. destruct (byte_in 224 239 a) eqn:Ha3.
  { apply andb_true_iff in Hl as [Hr Hl]. apply H3; [done..| |apply (IH (length l3)); simpl; auto].
    unfold rune3. by rewrite Ha3. }
  assert (Hr3 : rune3 a b c = false) by (unfold rune3; by rewrite Ha3).
  destruct l3 as [|d l4]; [done|]. apply andb_true_iff in Hl as [Hr Hl].
  apply H4; [done..|apply (IH (length l4)); simpl; auto; lia].
Qed.

Lemma unquote_body l rest : valid_utf8 l = true -> unquote (json_body l ++ quote_byte :: rest) = Some (l, rest).
Proof.
  intros Hl. revert l Hl. apply valid_utf8_ind; [done| | | |].
  - intros a l Ha IH. cbn [json_body]. rewrite Ha, <- app_assoc, unquote_ascii, IH by done. done.
  - intros a b l Ha Hr IH. cbn [json_body]. rewrite Ha, Hr, <- app_assoc, unquote_plains, IH by by apply rune2_plain. done.
  - intros a b c l Ha Hr2 Hr IH. cbn [json_body]. rewrite Ha, Hr2, Hr, <- app_assoc, unquote_rune3, IH by done. done.
  - intros a b c d l Ha Hr2 Hr3 Hr IH. cbn [json_body].
    rewrite Ha, Hr2, Hr3, Hr, <- app_assoc, unquote_plains, IH by by apply rune4_plain. done.
Qed.

(** A string, and a byte slice, is determined by its encoding, whatever follows. *)
Lemma json_string_inj s t r1 r2 :
  ValidString s = true -> ValidString t = true -> json_string s ++ r1 = json_string t ++ r2 -> s = t /\ r1 = r2.
Proof.
  unfold json_string, quoted. intros Hs Ht E. rewrite <- !app_comm_cons, <- !app_assoc in E. injection E as E.
  apply (f_equal unquote) in E. simpl in E. rewrite !unquote_body in E by done. injection E as E ->.
  split; [|done]. by rewrite <- (string_of_list_of_string s), E, string_of_list_of_string.
Qed.

Lemma json_bool_inj a b r1 r2 : json_bool a ++ r1 = json_bool b ++ r2 -> a = b /\ r1 = r2.
Proof. destruct a, b; simpl; intros [=]; by subst. Qed.

Lemma list_of_string_app s t : list_of_string (s +:+ t) = list_of_string s ++ list_of_string t.
Proof. induction s as [|a s IH]; [done|]. simpl. by rewrite <- IH. Qed.

Lemma encode_sextet_letter enc s : plain (encode_sextet enc s) = true /\ encode_sextet enc s <> "="%char.
Proof. by destruct enc, s as [[[[[[] []] []] []] []] []]. Qed.

Lemma EncodeToString_letters enc s :
  Forall (fun a => plain a = true /\ a <> "="%char) (list_of_string (EncodeToString enc s)).
Proof.
  unfold EncodeToString. rewrite list_of_string_of_list, encode_bytes_sextets. apply Forall_fmap, Forall_true.
  intros x. apply encode_sextet_letter.
Qed.

Lemma StdEncodeToString_plain s : Forall (fun a => plain a = true) (list_of_string (StdEncodeToString s)).
Proof.
  unfold StdEncodeToString. rewrite list_of_string_app, list_of_string_of_list. apply Forall_app. split.
  - eapply Forall_impl; [|apply EncodeToString_letters]. by intros a [? _].
  - induction (_ mod 4) as [|n IH]; [done|]. by constructor.
Qed.

Definition unpadded (l : list ascii) : list ascii := List.filter (fun a => negb (Ascii.eqb a "=")) l.

Lemma unpadded_StdEncodeToString s :
  unpadded (list_of_string (StdEncodeToString s)) = list_of_string (EncodeToString StdAlphabet s).
Proof.
  unfold StdEncodeToString, unpadded. rewrite list_of_string_app, list_of_string_of_list, List.filter_app.
  assert (Hpad : forall n, List.filter (fun a => negb (Ascii.eqb a "=")) (repeat "="%char n) = []) by by induction 0.
  rewrite Hpad, app_nil_r. pose proof (EncodeToString_letters StdAlphabet s) as Hl.
  induction Hl as [|a l [_ Ha] _ IH]; [done|]. simpl. rewrite (proj2 (Ascii.eqb_neq _ _)) by done. simpl. by rewrite IH.
Qed.

Lemma StdEncodeToString_inj s t : StdEncodeToString s = StdEncodeToString t -> s = t.
Proof.
  intros E. apply (f_equal (fun x => unpadded (list_of_string x))) in E.
  rewrite !unpadded_StdEncodeToString in E. apply (f_equal string_of_list) in E.
  rewrite !string_of_list_of_string in E. by eapply EncodeToString_inj.
Qed.

Lemma json_bytes_inj s t r1 r2 : json_bytes s ++ r1 = json_bytes t ++ r2 -> s = t /\ r1 = r2.
Proof.
  unfold json_bytes, quoted. destruct (String.eqb_spec s "") as [->|Hs], (String.eqb_spec t "") as [->|Ht]; intros E;
    [by injection E|done..|].
  rewrite <- !app_comm_cons, <- !app_assoc in E. injection E as E. apply (f_equal unquote) in E.
  rewrite !unquote_plains in E by apply StdEncodeToString_plain. simpl in E. rewrite !app_nil_r in E.
  injection E as E ->. split; [|done]. apply StdEncodeToString_inj.
  by rewrite <- (string_of_list_of_string (StdEncodeToString s)), E, string_of_list_of_string.
Qed.

(** Fields of the same name and type, with texts in UTF-8. *)
Definition json_alike (p q : string * json_value) : Prop :=
  fst p = fst q /\
  match snd p, snd q with
  | JString s, JString t => ValidString s = true /\ ValidString t = true
  | JBytes _, JBytes _ | JBool _, JBool _ => True
  | _, _ => False
  end.

Lemma json_field_inj p q r1 r2 : json_alike p q -> json_field p ++ r1 = json_field q ++ r2 -> p = q /\ r1 = r2.
Proof.
  destruct p as [k v], q as [k' v']. unfold json_alike, json_field. cbn [fst snd]. intros [<- Hv] E.
  rewrite <- !app_assoc in E. apply app_inv_head in E. rewrite <- !app_comm_cons in E. injection E as E.
  destruct v, v'; try done; cbn [json_encode] in E.
  - destruct Hv as [? ?]. by apply json_string_inj in E as [-> ->].
  - by apply json_bytes_inj in E as [-> ->].
  - by apply json_bool_inj in E as [-> ->].
Qed.

Lemma json_Marshal_struct_inj fs gs :
  Forall2 json_alike fs gs -> json_Marshal_struct fs = json_Marshal_struct gs -> fs = gs.
Proof.
  intros Hall E. apply (f_equal list_of_string) in E. unfold json_Marshal_struct in E.
  rewrite !list_of_string_of_list in E. injection E as E.
  assert (Htail : forall fs gs, Forall2 json_alike fs gs -> forall r1 r2,
    List.flat_map (fun p => ","%char :: json_field p) fs ++ r1 =
    List.flat_map (fun p => ","%char :: json_field p) gs ++ r2 -> fs = gs).
  { clear. intros fs gs Hall. induction Hall as [|p q fs gs Hp _ IH]; [done|]. cbn [List.flat_map]. intros r1 r2.
    rewrite <- !app_comm_cons, <- !app_assoc. intros E. apply (f_equal (@tail ascii)) in E. cbn [tail] in E.
    apply json_field_inj in E as [-> E]; [|done]. f_equal. by eapply IH. }
  destruct Hall as [|p q fs gs Hp Hall]; [done|]. cbn [json_fields] in E. rewrite <- !app_assoc in E.
  apply json_field_inj in E as [-> E]; [|done]. f_equal. by eapply Htail.
Qed.

(** ** Records

    [json.Marshal] and [json.Unmarshal] of a record whose fields are all
    exported. They are inverse to each other on texts in UTF-8 and on times that
    RFC 3339 can write. *)
Class JSON (A : Type) := {
  json_Marshal : A -> string;
  json_Unmarshal : string -> result A;
  json_Unmarshal_Marshal a : json_Unmarshal (json_Marshal a) = Ok a;
}.
