(* ===== verification/Sha256.v ===== *)
(** * [crypto/sha256] and [crypto/hmac]

    SHA-256 as FIPS 180-4 defines it, on 32-bit words held as [N], and
    HMAC-SHA-256 (RFC 2104), both executable and checked on test vectors. *)
From S2P Require Import Prelude.
Local Open Scope N_scope.

Definition word_mask : N := 2 ^ 32 - 1.
Definition add32 (x y : N) : N := N.land (x + y) word_mask.
Definition rotr (n x : N) : N :=
  N.lor (N.shiftr x n) (N.land (N.shiftl x (32 - n)) word_mask).
Definition not32 (x : N) : N := N.lxor x word_mask.

Definition Ch (x y z : N) : N := N.lxor (N.land x y) (N.land (not32 x) z).
Definition Maj (x y z : N) : N := N.lxor (N.land x y) (N.lxor (N.land x z) (N.land y z)).
Definition bsig0 (x : N) : N := N.lxor (rotr 2 x) (N.lxor (rotr 13 x) (rotr 22 x)).
Definition bsig1 (x : N) : N := N.lxor (rotr 6 x) (N.lxor (rotr 11 x) (rotr 25 x)).
Definition ssig0 (x : N) : N := N.lxor (rotr 7 x) (N.lxor (rotr 18 x) (N.shiftr x 3)).
Definition ssig1 (x : N) : N := N.lxor (rotr 17 x) (N.lxor (rotr 19 x) (N.shiftr x 10)).

(** FIPS 180-4 takes its constants from the first primes: 32 bits of the
    fractional parts of their square and cube roots. *)
Definition is_prime (p : N) : bool :=
  (2 <=? p) && forallb (fun i => negb (p mod N.of_nat i =? 0)) (seq 2 (N.to_nat (N.sqrt p) - 1)).

Definition primes_below (n : nat) : list N := List.filter is_prime (N.of_nat <$> seq 2 n).

(** The integer cube root of [x], given that it is in [r, r + 2^bits). *)
Fixpoint cube_root (bits : nat) (r x : N) : N :=
  match bits with
  | O => r
  | Datatypes.S b =>
      let r' := r + 2 ^ N.of_nat b in
      cube_root b (if r' * r' * r' <=? x then r' else r) x
  end.

Definition fractional_bits (root : N) : N := N.land root word_mask.

Definition round_constants : list N := Eval vm_compute in
  (fun p => fractional_bits (cube_root 36 0 (p * 2 ^ 96))) <$> take 64 (primes_below 311).

Definition initial_state : list N := Eval vm_compute in
  (fun p => fractional_bits (N.sqrt (p * 2 ^ 64))) <$> take 8 (primes_below 311).

(** The big-endian bytes of [x], [n] of them. *)
Fixpoint be_bytes (n : nat) (x : N) (acc : list ascii) : list ascii :=
  match n with
  | O => acc
  | Datatypes.S n' => be_bytes n' (x / 256) (ascii_of_N (x mod 256) :: acc)
  end.

Fixpoint words (l : list ascii) : list N :=
  match l with
  | a :: b :: c :: d :: rest =>
      (N_of_ascii a * 2 ^ 24 + N_of_ascii b * 2 ^ 16 + N_of_ascii c * 2 ^ 8 + N_of_ascii d) ::
      words rest
  | _ => []
  end.

(** The message schedule, latest word first. *)
Fixpoint extend_schedule (n : nat) (w : list N) : list N :=
  match n with
  | O => w
  | Datatypes.S n' =>
      extend_schedule n'
        (add32 (add32 (ssig1 (nth 1 w 0)) (nth 6 w 0)) (add32 (ssig0 (nth 14 w 0)) (nth 15 w 0)) :: w)
  end.

Definition schedule (block : list ascii) : list N := rev (extend_schedule 48 (rev (words block))).

Definition round (st : list N) (kw : N * N) : list N :=
  match st with
  | [a; b; c; d; e; f; g; h] =>
      let t1 := add32 (add32 h (bsig1 e)) (add32 (Ch e f g) (add32 (fst kw) (snd kw))) in
      let t2 := add32 (bsig0 a) (Maj a b c) in
      [add32 t1 t2; a; b; c; add32 d t1; e; f; g]
  | _ => st
  end.

Definition compress (st : list N) (block : list ascii) : list N :=
  zip_with add32 st (foldl round st (zip round_constants (schedule block))).

Fixpoint digest (blocks : nat) (st : list N) (l : list ascii) : list N :=
  match blocks with
  | O => st
  | Datatypes.S n => digest n (compress st (take 64 l)) (drop 64 l)
  end.

(** The message, a one bit, zeros up to 56 modulo 64, the length in bits. *)
Definition padded (l : list ascii) : list ascii :=
  let zeros := ((119 - length l mod 64) mod 64)%nat in
  l ++ ascii_of_N 128 :: repeat (ascii_of_N 0) zeros ++ be_bytes 8 (8 * N.of_nat (length l)) [].

(** The first 32 bytes of the eight state words. *)
Definition sum_bytes (l : list ascii) : list ascii :=
  let p := padded l in
  take 32 (mjoin ((fun x => be_bytes 4 x []) <$> digest (length p / 64) initial_state p) ++
           repeat (ascii_of_N 0) 32).

Definition Sum256 (s : string) : string := string_of_list (sum_bytes (list_of_string s)).

(** HMAC with a 64-byte block. *)
Definition xor_byte (x : N) (a : ascii) : ascii := ascii_of_N (N.lxor x (N_of_ascii a)).

Definition hmac_sha256 (key message : string) : string :=
  let k := list_of_string key in
  let k0 := (if (64 <? length k)%nat then sum_bytes k else k) in
  let kp := take 64 (k0 ++ repeat (ascii_of_N 0) 64) in
  string_of_list
    (sum_bytes ((xor_byte 0x5c <$> kp) ++
                sum_bytes ((xor_byte 0x36 <$> kp) ++ list_of_string message))).

Lemma length_sum_bytes l : length (sum_bytes l) = 32%nat.
Proof. unfold sum_bytes. rewrite length_take, length_app, repeat_length. lia. Qed.

Lemma length_Sum256 s : String.length (Sum256 s) = 32%nat.
Proof. unfold Sum256. by rewrite length_string_of_list, length_sum_bytes. Qed.

Lemma length_hmac_sha256 k m : String.length (hmac_sha256 k m) = 32%nat.
Proof. unfold hmac_sha256. by rewrite length_string_of_list, length_sum_bytes. Qed.

(** Test vectors: FIPS 180-4 ("abc" and the empty message), RFC 4231 case 2. *)
Definition of_hex_words (l : list N) : string :=
  string_of_list (mjoin ((fun x => be_bytes 4 x []) <$> l)).

Example Sum256_abc :
  Sum256 "abc" = of_hex_words
    [0xba7816bf; 0x8f01cfea; 0x414140de; 0x5dae2223; 0xb00361a3; 0x96177a9c; 0xb410ff61; 0xf20015ad].
Proof. vm_compute. reflexivity. Qed.

Example Sum256_empty :
  Sum256 "" = of_hex_words
    [0xe3b0c442; 0x98fc1c14; 0x9afbf4c8; 0x996fb924; 0x27ae41e4; 0x649b934c; 0xa495991b; 0x7852b855].
Proof. vm_compute. reflexivity. Qed.

Example hmac_sha256_rfc4231_2 :
  hmac_sha256 "Jefe" "what do ya want for nothing?" = of_hex_words
    [0x5bdcc146; 0xbf60754e; 0x6a042426; 0x089575c7; 0x5a003f08; 0x9d273983; 0x9dec58b9; 0x64ec3843].
Proof. vm_compute. reflexivity. Qed.

#[global] Opaque Sum256 hmac_sha256.
