(* ===== verification/Token.v ===== *)
(** * Package [token] (token/token.go)

    Opaque bearer credentials: 32 random bytes shown to the client in URL-safe
    base64, kept on the server as their SHA-256 hash. *)
From S2P Require Import Prelude GoText Base64 Sha256.

Definition entropyBytes : nat := 32.

Definition ErrInvalidToken : error := New "token.ErrInvalidToken".

(** [type Hash [sha256.Size]byte], a string of 32 bytes. *)
Abbreviation Hash := string (only parsing).
Definition zeroHash : Hash := string_of_list (repeat "000"%char 32).

Definition Generate {S} `{Env} : M S (result (string * Hash)) :=
  random <-? rand_Read entropyBytes ;;
  ret (Ok (EncodeToString URLAlphabet random, Sum256 random)).

Definition HashToken (rawToken : string) : result Hash :=
  match DecodeString URLAlphabet rawToken with
  | None => Err ErrInvalidToken
  | Some decoded =>
      if negb (String.length decoded =? entropyBytes)%nat ||
         negb (String.eqb (EncodeToString URLAlphabet decoded) rawToken)
      then Err ErrInvalidToken
      else Ok (Sum256 decoded)
  end.

(** ** Facts *)
Lemma HashToken_Encode random :
  String.length random = entropyBytes ->
  HashToken (EncodeToString URLAlphabet random) = Ok (Sum256 random).
Proof.
  intros Hlen. unfold HashToken. rewrite DecodeString_EncodeToString, Hlen.
  by rewrite Nat.eqb_refl, String.eqb_refl.
Qed.

Lemma HashToken_Ok raw h :
  HashToken raw = Ok h ->
  exists random, String.length random = entropyBytes /\
    raw = EncodeToString URLAlphabet random /\ h = Sum256 random.
Proof.
  unfold HashToken. destruct (DecodeString URLAlphabet raw) as [decoded|]; [|done].
  destruct (_ || _) eqn:E; [done|]. intros [= <-]. go_bool.
  exists decoded. apply Nat.eqb_eq in H. auto.
Qed.

Lemma HashToken_Err raw e : HashToken raw = Err e -> e = ErrInvalidToken.
Proof.
  unfold HashToken. destruct (DecodeString _ _); [destruct (_ || _)|]; congruence.
Qed.

(** Tokens are text without blanks. *)
Lemma HashToken_text raw h : HashToken raw = Ok h -> TrimSpace raw = raw /\ raw <> "".
Proof.
  intros Hh. split; [|by intros ->].
  apply HashToken_Ok in Hh as (random & _ & -> & _). apply TrimSpace_printable, EncodeToString_printable.
Qed.

(** A raw token that [Generate] returned is hashed to the hash it returned. *)
Lemma wp_Generate {S} `{Env} (Q : result (string * Hash) -> World S -> Prop) w :
  (forall raw h, HashToken raw = Ok h -> Q (Ok (raw, h)) (draw w)) ->
  Q (Err ErrRand) (draw w) ->
  wp Generate Q w.
Proof.
  intros Hok Herr. unfold Generate. wp_go; [|done].
  apply Hok, HashToken_Encode.
  by rewrite length_string_of_list, length_fmap, length_seq.
Qed.

(** [HashToken] accepts exactly the canonical unpadded base64url encodings
    of 32-byte strings, and returns the SHA-256 hash of the bytes encoded: no
    second spelling of a credential is accepted. *)
Theorem HashToken_canonical raw h :
  HashToken raw = Ok h <->
  exists random, String.length random = 32 /\
    raw = EncodeToString URLAlphabet random /\ h = Sum256 random.
Proof.
  split.
  - apply HashToken_Ok.
  - intros (random & Hlen & -> & ->). by apply HashToken_Encode.
Qed.

(** When the random source answers, [Generate] returns a token of 43
    characters together with the hash [HashToken] computes for it; when it
    fails, the failure is returned. *)
Theorem Generate_HashToken {S} `{Env} (w : World S) :
  match rand_source (draws w) with
  | Some _ => exists raw h, fst (Generate w) = Ok (raw, h) /\
                String.length raw = 43 /\ HashToken raw = Ok h
  | None => fst (Generate w) = Err ErrRand
  end.
Proof.
  unfold Generate, bind_ok, bind, rand_Read. destruct (rand_source (draws w)) as [f|]; [|done].
  eexists _, _; split; [done|].
  assert (Hlen : String.length (string_of_list (f <$> seq 0 entropyBytes)) = entropyBytes)
    by by rewrite length_string_of_list, length_fmap, length_seq.
  split; [by rewrite length_EncodeToString, Hlen | by apply HashToken_Encode].
Qed.
