(* ===== verification/RefreshToken.v ===== *)
(** * Package [refreshtoken] (refreshtoken/refreshtoken.go)

    Opaque tokens that renew access tokens: each is consumed once by [Rotate],
    which hands out a replacement that keeps the expiry of its predecessor. The
    durable store decides reuse; its contract is in BearerSpec.v. *)
From S2P Require Import Prelude GoText Base64 Sha256 Token.

Definition creationAttempts : nat := 3.

Definition ErrConflict : error := New "refreshtoken.ErrConflict".
Definition ErrInactive : error := New "refreshtoken.ErrInactive".
Definition ErrInvalidConfig : error := New "refreshtoken.ErrInvalidConfig".
Definition ErrInvalidRecord : error := New "refreshtoken.ErrInvalidRecord".
Definition ErrNotFound : error := New "refreshtoken.ErrNotFound".
Definition ErrReuseDetected : error := New "refreshtoken.ErrReuseDetected".

(** ** Data *)

(** The Go type is called [Record]. *)
Record RefreshRecord : Type := mkRefresh {
  SessionID : string;
  TokenHash : Hash;
  CreatedAt : time;
  ExpiresAt : time;
  RotatedAt : option time;
  RevokedAt : option time;
}.

#[export] Instance RefreshRecord_eq_dec : EqDecision RefreshRecord.
Proof. solve_decision. Defined.

Definition ActiveAt (record : RefreshRecord) (at_ : time) : bool :=
  bool_decide (RotatedAt record = None) && bool_decide (RevokedAt record = None) &&
  Before at_ (ExpiresAt record).

Record Issued : Type := mkIssued { issued_Token : string; issued_Record : RefreshRecord }.

Record Store (S : Type) : Type := mkStore {
  store_Create : RefreshRecord -> M S (result unit);
  store_FindByTokenHash : Hash -> M S (result RefreshRecord);
  store_Rotate : Hash -> RefreshRecord -> time -> M S (result unit);
  store_RevokeSession : string -> time -> M S (result unit);
}.
Arguments store_Create {S}. Arguments store_FindByTokenHash {S}.
Arguments store_Rotate {S}. Arguments store_RevokeSession {S}.

Record Config : Type := mkConfig {
  Lifetime : duration;
  Now : option (nat -> time);
}.

Record Manager (S : Type) : Type := mkManager {
  store : Store S;
  lifetime : duration;
  now : nat -> time;
}.
Arguments store {S}. Arguments lifetime {S}. Arguments now {S}.

(** ** Operations *)
Section Operations.
Context {S : Type} `{Env}.

Definition NewManager (store : option (Store S)) (config : Config) : result (Manager S) :=
  match store with
  | None => Err (Errorf "%w: store is required" [ErrInvalidConfig])
  | Some store =>
      if (Lifetime config <=? 0)%Z
      then Err (Errorf "%w: lifetime must be positive" [ErrInvalidConfig])
      else Ok (mkManager S store (Lifetime config) (default time_Now (Now config)))
  end.

Definition validRecord (record : RefreshRecord) : bool :=
  negb (String.eqb (TrimSpace (SessionID record)) "" || String.eqb (TokenHash record) zeroHash ||
        IsZero (CreatedAt record) || negb (After (ExpiresAt record) (CreatedAt record))) &&
  match RotatedAt record with
  | Some rotatedAt => negb (Before rotatedAt (CreatedAt record))
  | None => true
  end &&
  match RevokedAt record with
  | Some revokedAt => negb (Before revokedAt (CreatedAt record))
  | None => true
  end.

(** A zero [expiresAt] asks for a full lifetime. *)
Definition newIssued (manager : Manager S) (sessionID : string) (expiresAt : time) :
    M S (result Issued) :=
  generated <-? wrapped "generate refresh token: %w" Generate ;;
  now <- read_now (now manager) ;;
  let '(rawToken, tokenHash) := generated in
  let expiresAt := if IsZero expiresAt then Add now (lifetime manager) else expiresAt in
  ret (Ok (mkIssued rawToken (mkRefresh sessionID tokenHash now expiresAt None None))).

(** The unexported method [create]. *)
Definition create (manager : Manager S) (sessionID : string) : M S (result Issued) :=
  for_range creationAttempts
    (r <- newIssued manager sessionID 0%Z ;;
     match r with
     | Err err => ret (Return (Err err))
     | Ok issued =>
         r <- store_Create (store manager) (issued_Record issued) ;;
         match r with
         | Err err =>
             if errors_Is err ErrConflict then ret (Next tt)
             else ret (Return (Err (Errorf "create durable refresh token: %w" [err])))
         | Ok _ => ret (Return (Ok issued))
         end
     end)
    (ret (Err (Errorf "create unique refresh token: %w" [ErrConflict]))).

Definition Create (manager : Manager S) (sessionID : string) : M S (result Issued) :=
  if String.eqb (TrimSpace sessionID) ""
  then ret (Err (Errorf "%w: session ID is required" [ErrInvalidRecord]))
  else create manager sessionID.

Definition Resolve (manager : Manager S) (rawToken : string) : M S (result RefreshRecord) :=
  match HashToken rawToken with
  | Err err => ret (Err err)
  | Ok tokenHash =>
      record <-? wrapped "find refresh token: %w"
                   (store_FindByTokenHash (store manager) tokenHash) ;;
      if negb (validRecord record) || negb (String.eqb (TokenHash record) tokenHash)
      then ret (Err ErrInvalidRecord) else
      now <- read_now (now manager) ;;
      if negb (ActiveAt record now) then ret (Err ErrInactive) else ret (Ok record)
  end.

(** The presented token is not required to be active here: the store tells an
    active token from one that was already used. *)
Definition Rotate (manager : Manager S) (rawToken : string) : M S (result Issued) :=
  match HashToken rawToken with
  | Err err => ret (Err err)
  | Ok currentHash =>
      current <-? wrapped "find refresh token: %w"
                    (store_FindByTokenHash (store manager) currentHash) ;;
      if negb (validRecord current) || negb (String.eqb (TokenHash current) currentHash)
      then ret (Err ErrInvalidRecord) else
      for_range creationAttempts
        (r <- newIssued manager (SessionID current) (ExpiresAt current) ;;
         match r with
         | Err err => ret (Return (Err err))
         | Ok replacement =>
             now <- read_now (now manager) ;;
             r <- store_Rotate (store manager) currentHash (issued_Record replacement) now ;;
             match r with
             | Err err =>
                 if errors_Is err ErrConflict then ret (Next tt)
                 else ret (Return (Err (Errorf "rotate refresh token: %w" [err])))
             | Ok _ => ret (Return (Ok replacement))
             end
         end)
        (ret (Err (Errorf "create unique refresh token: %w" [ErrConflict])))
  end.

Definition RevokeSessionID (manager : Manager S) (sessionID : string) : M S (result unit) :=
  if String.eqb (TrimSpace sessionID) "" then ret (Err ErrInvalidRecord) else
  now <- read_now (now manager) ;;
  wrapped "revoke session refresh tokens: %w" (store_RevokeSession (store manager) sessionID now).

Definition RevokeSession (manager : Manager S) (rawToken : string) : M S (result unit) :=
  record <-? Resolve manager rawToken ;;
  RevokeSessionID manager (SessionID record).
End Operations.

(** ** Facts *)
Lemma refresh_ActiveAt_true record at_ :
  ActiveAt record at_ = true <->
    RotatedAt record = None /\ RevokedAt record = None /\ (at_ < ExpiresAt record)%Z.
Proof.
  unfold ActiveAt. rewrite !andb_true_iff, Before_true, !bool_decide_eq_true. tauto.
Qed.
