(* ===== verification/AccessToken.v ===== *)
(** * Package [accesstoken] (accesstoken/accesstoken.go)

    Short-lived signed access tokens for durable sessions. The JWT library is a
    parameter ([JWT]) with its documented behaviour as laws ([JWTLaws]);
    [crypto/ed25519] keys are byte strings. *)
From S2P Require Import Prelude GoText Base64 Sha256 Token.

Definition maximumTokenLength : nat := 8192.

Definition ErrInactiveSession : error := New "accesstoken.ErrInactiveSession".
Definition ErrInvalidConfig : error := New "accesstoken.ErrInvalidConfig".
Definition ErrInvalidToken : error := New "accesstoken.ErrInvalidToken".
Definition ErrSign : error := New "jwt.SignedString".

(** ** [crypto/ed25519]: a private key is its seed followed by its public key *)
Definition PrivateKeySize : nat := 64.
Definition PublicKeySize : nat := 32.
Definition Public (privateKey : string) : string := drop_bytes 32 privateKey.

(** ** Data *)
Record Claims : Type := mkClaims {
  SessionID : string;
  Issuer : string;
  Subject : string;
  Audience : list string;
  ExpiresAt : option time;
  NotBefore : option time;
  IssuedAt : option time;
  ID : string;
}.

Record Issued : Type := mkIssued { issued_Token : string; issued_ExpiresAt : time }.

Record IssuerConfig : Type := mkIssuerConfig {
  ic_Issuer : string;
  ic_Audience : string;
  ic_Lifetime : duration;
  ic_KeyID : string;
  ic_PrivateKey : string;
  ic_Now : option (nat -> time);
}.

(** The Go type is called [Issuer]. *)
Record TokenIssuer : Type := mkIssuer {
  issuer : string;
  audience : string;
  lifetime : duration;
  keyID : string;
  privateKey : string;
  issuer_now : nat -> time;
}.

Record Session : Type := mkSession {
  session_ID : string;
  session_SubjectID : string;
  session_CreatedAt : time;
  session_ExpiresAt : time;
}.

Definition ActiveAt (session : Session) (at_ : time) : bool :=
  Before at_ (session_ExpiresAt session).

(** The interface [SessionResolver]. *)
Definition SessionResolver (S : Type) : Type := string -> M S (result Session).

Record VerifierConfig : Type := mkVerifierConfig {
  vc_Issuer : string;
  vc_Audience : string;
  vc_PublicKeys : gmap string string;
  vc_Leeway : duration;
  vc_Now : option (nat -> time);
}.

Record Verifier (S : Type) : Type := mkVerifier {
  v_issuer : string;
  v_audience : string;
  v_publicKeys : gmap string string;
  v_leeway : duration;
  v_now : nat -> time;
  v_resolver : SessionResolver S;
}.
Arguments v_issuer {S}. Arguments v_audience {S}. Arguments v_publicKeys {S}.
Arguments v_leeway {S}. Arguments v_now {S}. Arguments v_resolver {S}.

(** ** github.com/golang-jwt/jwt/v5 *)

(** What a key function reads off a token: the signing method, named by its
    [alg] value, and the header [kid] when it is a string. *)
Record ParsedToken : Type := mkParsed { Method : string; Header_kid : option string }.

Definition SigningMethodEdDSA : string := "EdDSA".

Record ParserOptions : Type := mkOptions {
  WithValidMethods : list string;
  WithIssuer : string;
  WithAudience : string;
  WithExpirationRequired : bool;
  WithIssuedAt : bool;
  WithLeeway : duration;
}.

Class JWT := {
  NewNumericDate : time -> time;
  SignedString : ParsedToken -> Claims -> string -> option string;
  (* The claims, and whether the token is valid, at a reading of the clock. *)
  ParseWithClaims : string -> (ParsedToken -> result string) -> ParserOptions -> time ->
    result (Claims * bool);
  (* Used by the laws only: the unverified content of a token, and whether its
     signature verifies under a public key. *)
  ParseUnverified : string -> option (ParsedToken * Claims);
  SignatureVerifies : string -> string -> bool;
}.

(** ** Operations *)
Definition NewIssuer `{Env} (config : IssuerConfig) : result TokenIssuer :=
  if String.eqb (TrimSpace (ic_Issuer config)) "" || String.eqb (TrimSpace (ic_Audience config)) "" ||
     String.eqb (TrimSpace (ic_KeyID config)) "" || (ic_Lifetime config <=? 0)%Z ||
     negb (String.length (ic_PrivateKey config) =? PrivateKeySize)%nat
  then Err ErrInvalidConfig
  else Ok (mkIssuer (ic_Issuer config) (ic_Audience config) (ic_Lifetime config) (ic_KeyID config)
             (ic_PrivateKey config) (default time_Now (ic_Now config))).

(** A token is signed only when it will be live after [now]; a zero
    [maximumExpiry] sets no bound. *)
Definition issue {S} `{Env, JWT} (iss : TokenIssuer) (subjectID sessionID : string)
    (maximumExpiry : time) : M S (result Issued) :=
  if String.eqb (TrimSpace subjectID) "" || String.eqb (TrimSpace sessionID) ""
  then ret (Err ErrInvalidToken) else
  generated <-? wrapped "generate access token ID: %w" Generate ;;
  now <- read_now (issuer_now iss) ;;
  let now := Truncate now Second in
  let expiresAt := Add now (lifetime iss) in
  let expiresAt := if negb (IsZero maximumExpiry) && After expiresAt maximumExpiry
                   then Truncate maximumExpiry Second else expiresAt in
  if negb (After expiresAt now) then ret (Err ErrInactiveSession) else
  let claims := mkClaims sessionID (issuer iss) subjectID [audience iss]
                  (Some (NewNumericDate expiresAt)) (Some (NewNumericDate now))
                  (Some (NewNumericDate now)) (fst generated) in
  match SignedString (mkParsed SigningMethodEdDSA (Some (keyID iss))) claims (privateKey iss) with
  | None => ret (Err (Errorf "sign access token: %w" [ErrSign]))
  | Some rawToken => ret (Ok (mkIssued rawToken expiresAt))
  end.

Definition Issue {S} `{Env, JWT} (iss : TokenIssuer) (subjectID sessionID : string) :
    M S (result Issued) :=
  issue iss subjectID sessionID 0%Z.

Definition IssueUntil {S} `{Env, JWT} (iss : TokenIssuer) (subjectID sessionID : string)
    (maximumExpiry : time) : M S (result Issued) :=
  issue iss subjectID sessionID maximumExpiry.

Definition validKey (entry : string * string) : bool :=
  negb (String.eqb (TrimSpace (fst entry)) "") && (String.length (snd entry) =? PublicKeySize)%nat.

Definition NewVerifier {S} `{Env} (resolver : option (SessionResolver S)) (config : VerifierConfig) :
    result (Verifier S) :=
  match resolver with
  | None => Err ErrInvalidConfig
  | Some resolver =>
      if String.eqb (TrimSpace (vc_Issuer config)) "" ||
         String.eqb (TrimSpace (vc_Audience config)) "" ||
         bool_decide (vc_PublicKeys config = ∅) || (vc_Leeway config <? 0)%Z
      then Err ErrInvalidConfig else
      if negb (forallb validKey (map_to_list (vc_PublicKeys config))) then Err ErrInvalidConfig else
      Ok (mkVerifier S (vc_Issuer config) (vc_Audience config) (vc_PublicKeys config)
            (vc_Leeway config) (default time_Now (vc_Now config)) resolver)
  end.

(** The key function of [VerifySession]. *)
Definition keyFor {S} (verifier : Verifier S) (parsedToken : ParsedToken) : result string :=
  if negb (String.eqb (Method parsedToken) SigningMethodEdDSA) then Err ErrInvalidToken else
  match Header_kid parsedToken with
  | None => Err ErrInvalidToken
  | Some keyID =>
      match v_publicKeys verifier !! keyID with
      | None => Err ErrInvalidToken
      | Some publicKey => Ok publicKey
      end
  end.

Definition parserOptions {S} (verifier : Verifier S) : ParserOptions :=
  mkOptions [SigningMethodEdDSA] (v_issuer verifier) (v_audience verifier) true true
    (v_leeway verifier).

(** The claims that the checks after parsing accept. *)
Definition usableClaims (claims : Claims) : bool :=
  negb (String.eqb (TrimSpace (Subject claims)) "" ||
        String.eqb (TrimSpace (SessionID claims)) "" || String.eqb (TrimSpace (ID claims)) "" ||
        bool_decide (IssuedAt claims = None) || bool_decide (NotBefore claims = None)).

Definition VerifySession {S} `{JWT} (verifier : Verifier S) (rawToken : string) :
    M S (result (Claims * Session)) :=
  if (String.length rawToken =? 0)%nat || (maximumTokenLength <? String.length rawToken)%nat
  then ret (Err ErrInvalidToken) else
  at_ <- read_now (v_now verifier) ;;
  match ParseWithClaims rawToken (keyFor verifier) (parserOptions verifier) at_ with
  | Err _ => ret (Err ErrInvalidToken)
  | Ok (claims, valid) =>
      if negb valid || negb (usableClaims claims) then ret (Err ErrInvalidToken) else
      r <- v_resolver verifier (SessionID claims) ;;
      match r with
      | Err _ => ret (Err ErrInactiveSession)
      | Ok activeSession =>
          if negb (String.eqb (session_ID activeSession) (SessionID claims)) ||
             negb (String.eqb (session_SubjectID activeSession) (Subject claims))
          then ret (Err ErrInactiveSession) else
          now <- read_now (v_now verifier) ;;
          if negb (ActiveAt activeSession now) then ret (Err ErrInactiveSession)
          else ret (Ok (claims, activeSession))
      end
  end.

Definition Verify {S} `{JWT} (verifier : Verifier S) (rawToken : string) : M S (result Claims) :=
  r <-? VerifySession verifier rawToken ;;
  ret (Ok (fst r)).

(** ** What the JWT library documents *)

(** The registered claims that the parser's validator accepts at [at_]. *)
Definition claims_accepted (o : ParserOptions) (at_ : time) (c : Claims) : Prop :=
  Issuer c = WithIssuer o /\ WithAudience o ∈ Audience c /\
  match ExpiresAt c with
  | Some exp => (at_ < exp + WithLeeway o)%Z
  | None => WithExpirationRequired o = false
  end /\
  match NotBefore c with Some nbf => (nbf - WithLeeway o <= at_)%Z | None => True end /\
  match IssuedAt c with
  | Some iat => WithIssuedAt o = true -> (iat - WithLeeway o <= at_)%Z
  | None => True
  end.

(** A date that a JWT carries exactly: whole seconds since 1970. *)
Definition exact_date (d : option time) : Prop :=
  forall t, d = Some t -> (t mod Second = 0 /\ 0 <= Unix t < 2 ^ 53)%Z.

(** Claims that survive the JSON encoding: text in UTF-8, exact dates. *)
Definition encodable (c : Claims) : Prop :=
  Forall (fun s => ValidString s = true) [SessionID c; Issuer c; Subject c; ID c] /\
  (exists a, Audience c = [a] /\ ValidString a = true) /\
  exact_date (ExpiresAt c) /\ exact_date (NotBefore c) /\ exact_date (IssuedAt c).

(** A private key as [ed25519.GenerateKey] returns it. *)
Definition key_pair (publicOfSeed : string -> string) (privateKey : string) : Prop :=
  exists seed, String.length seed = 32 /\ privateKey = (seed +:+ publicOfSeed seed)%string /\
    String.length (publicOfSeed seed) = PublicKeySize.

Class JWTLaws `{JWT} (publicOfSeed : string -> string) : Prop := {
  NewNumericDate_seconds t : (t mod Second = 0)%Z -> NewNumericDate t = t;
  ParseWithClaims_valid raw keyfunc o at_ c :
    ParseWithClaims raw keyfunc o at_ = Ok (c, true) <->
    exists tok key, ParseUnverified raw = Some (tok, c) /\ Method tok ∈ WithValidMethods o /\
      keyfunc tok = Ok key /\ SignatureVerifies raw key = true /\ claims_accepted o at_ c;
  SignedString_parses kid c privateKey raw :
    encodable c -> ValidString kid = true -> key_pair publicOfSeed privateKey ->
    SignedString (mkParsed SigningMethodEdDSA (Some kid)) c privateKey = Some raw ->
    ParseUnverified raw = Some (mkParsed SigningMethodEdDSA (Some kid), c) /\
    SignatureVerifies raw (Public privateKey) = true;
}.

(** ** Facts *)

(** The claims of a token issued at [now] to expire at [expires]. *)
Definition issued_claims `{JWT} (iss : TokenIssuer) (subjectID sessionID tokenID : string)
    (now expires : time) : Claims :=
  mkClaims sessionID (issuer iss) subjectID [audience iss] (Some (NewNumericDate expires))
    (Some (NewNumericDate now)) (Some (NewNumericDate now)) tokenID.

Lemma wp_issue {S} `{Env, JWT} (iss : TokenIssuer) subjectID sessionID maximumExpiry (w : World S) :
  wp (issue iss subjectID sessionID maximumExpiry) (fun res w' => ext w' = ext w /\
    forall i, res = Ok i ->
      TrimSpace subjectID <> "" /\ TrimSpace sessionID <> "" /\
      (let now := Truncate (issuer_now iss (ticks w)) Second in
       now < issued_ExpiresAt i <= Add now (lifetime iss) /\
       (maximumExpiry <> 0 -> issued_ExpiresAt i <= maximumExpiry) /\
       (issued_ExpiresAt i = Add now (lifetime iss) \/
        issued_ExpiresAt i = Truncate maximumExpiry Second) /\
       exists tokenID h, HashToken tokenID = Ok h /\
         SignedString (mkParsed SigningMethodEdDSA (Some (keyID iss)))
           (issued_claims iss subjectID sessionID tokenID now (issued_ExpiresAt i)) (privateKey iss) =
         Some (issued_Token i))%Z) w.
Proof.
  unfold issue. wp_go; [done|]. apply wp_Generate; [|by wp_go]. intros tokenID h Hh. wp_go; [done| |done].
  split; [done|]. intros ? [= <-]. go_bool. split_and!; [done|done|done|..]; simpl in *.
  all: pose proof (Truncate_bounds maximumExpiry Second ltac:(unfold Second; lia)).
  all: pose proof (Truncate_bounds (issuer_now iss (ticks w)) Second ltac:(unfold Second; lia)).
  - destruct (_ && _) eqn:Hm; go_bool; [|lia]. unfold Add in *. lia.
  - intros Hne. destruct (_ && _) eqn:Hm; go_bool; [lia|].
    rewrite (proj2 (IsZero_false maximumExpiry) Hne) in Hm. simpl in Hm. go_bool. unfold Add in *. lia.
  - destruct (_ && _); auto.
  - eauto.
Qed.
