(* ===== verification/BearerSession.v ===== *)
(** * Bearer sessions (token_session.go, and the session types of storage.go)

    A durable session renewed by one-time refresh tokens and presented as
    signed access tokens. *)
From S2P Require Import Prelude GoText Base64 Sha256 Token.
From S2P Require RefreshToken AccessToken.

Definition ErrInvalidConfig : error := New "authlier.ErrInvalidConfig".

(** ** Data *)

(** The type [AccessSession] of storage.go. *)
Record AccessSession : Type := mkAccess {
  as_ID : string;
  as_SubjectID : string;
  as_CreatedAt : time;
  as_ExpiresAt : time;
  as_RevokedAt : option time;
}.

#[export] Instance AccessSession_eq_dec : EqDecision AccessSession.
Proof. solve_decision. Defined.

(** The interface [AccessSessionStore] of storage.go. *)
Record AccessSessionStore (S : Type) : Type := mkAccessStore {
  access_ResolveSession : string -> M S (result AccessToken.Session);
  access_CreateSession : AccessSession -> RefreshToken.RefreshRecord -> M S (result unit);
  access_ListBySubject : string -> M S (result (list AccessSession));
  access_Revoke : string -> time -> M S (result unit);
  access_RevokeAll : string -> time -> M S (result unit);
}.
Arguments access_ResolveSession {S}. Arguments access_CreateSession {S}.
Arguments access_ListBySubject {S}. Arguments access_Revoke {S}. Arguments access_RevokeAll {S}.

(** The type [BearerSessionConfig] of config.go. *)
Record BearerSessionConfig : Type := mkBearerConfig {
  Issuer : string;
  Audience : string;
  AccessTokenLifetime : duration;
  RefreshTokenLifetime : duration;
  KeyID : string;
  PrivateKey : string;
  PublicKeys : gmap string string;
  Leeway : duration;
}.

Record Session : Type := mkSession {
  ID : string;
  SubjectID : string;
  CreatedAt : time;
  ExpiresAt : time;
}.

Record bearerSessionManager (S : Type) : Type := mkBearerManager {
  store : AccessSessionStore S;
  issuer : AccessToken.TokenIssuer;
  verifier : AccessToken.Verifier S;
  refreshTokens : RefreshToken.Manager S;
  refreshLifetime : duration;
  now : nat -> time;
}.
Arguments store {S}. Arguments issuer {S}. Arguments verifier {S}.
Arguments refreshTokens {S}. Arguments refreshLifetime {S}. Arguments now {S}.

Record bearerSessionIssued : Type := mkBearerIssued {
  issued_Session : Session;
  AccessToken_ : string;
  AccessTokenExpiresAt : time;
  RefreshToken_ : string;
  RefreshTokenExpiresAt : time;
}.

Definition bearer_invalid {A} (format : string) : result A := Err (Errorf format [ErrInvalidConfig]).

(** ** Operations *)
Section Operations.
Context {S : Type} `{Env} `{AccessToken.JWT}.

(** The signing key's public half verifies tokens besides the configured keys. *)
Definition verificationKeys (config : BearerSessionConfig) : gmap string string :=
  if (String.length (PrivateKey config) =? AccessToken.PrivateKeySize)%nat &&
     negb (String.eqb (TrimSpace (KeyID config)) "")
  then <[KeyID config := AccessToken.Public (PrivateKey config)]> (PublicKeys config)
  else PublicKeys config.

(** A nil store is refused by [AccessToken.NewVerifier]. *)
Definition newBearerSessionManager (store : option (AccessSessionStore S))
    (refreshStore : option (RefreshToken.Store S)) (config : BearerSessionConfig) :
    result (bearerSessionManager S) :=
  if (RefreshTokenLifetime config <=? AccessTokenLifetime config)%Z
  then bearer_invalid "%w: refresh token lifetime must exceed access token lifetime" else
  match AccessToken.NewIssuer (AccessToken.mkIssuerConfig (Issuer config) (Audience config)
          (AccessTokenLifetime config) (KeyID config) (PrivateKey config) None),
        AccessToken.NewVerifier (access_ResolveSession <$> store)
          (AccessToken.mkVerifierConfig (Issuer config) (Audience config)
             (verificationKeys config) (Leeway config) None),
        RefreshToken.NewManager refreshStore
          (RefreshToken.mkConfig (RefreshTokenLifetime config) None),
        store with
  | Err _, _, _, _ => bearer_invalid "%w: invalid bearer token issuer"
  | _, Err _, _, _ | _, _, _, None => bearer_invalid "%w: invalid bearer token verifier"
  | _, _, Err _, _ => bearer_invalid "%w: invalid refresh token configuration"
  | Ok issuer, Ok verifier, Ok refreshTokens, Some store =>
      Ok (mkBearerManager S store issuer verifier refreshTokens
            (RefreshTokenLifetime config) time_Now)
  end.

Definition Create (manager : bearerSessionManager S) (subjectID : string) :
    M S (result bearerSessionIssued) :=
  if String.eqb (TrimSpace subjectID) ""
  then ret (Err (Errorf "create bearer session: subject ID is required" [])) else
  sessionID <-? wrapped "generate bearer session ID: %w" new_uuid ;;
  now <- read_now (now manager) ;;
  let now := Truncate now Second in
  let session := mkAccess sessionID subjectID now (Add now (refreshLifetime manager)) None in
  generated <-? wrapped "generate refresh token: %w" Generate ;;
  let refreshRecord := RefreshToken.mkRefresh (as_ID session) (snd generated) now
                         (as_ExpiresAt session) None None in
  accessToken <-? wrapped "issue access token: %w"
                    (AccessToken.IssueUntil (issuer manager) subjectID (as_ID session)
                       (as_ExpiresAt session)) ;;
  _ <-? wrapped "create bearer session: %w"
          (access_CreateSession (store manager) session refreshRecord) ;;
  ret (Ok (mkBearerIssued
    (mkSession (as_ID session) (as_SubjectID session) (as_CreatedAt session) (as_ExpiresAt session))
    (AccessToken.issued_Token accessToken) (AccessToken.issued_ExpiresAt accessToken)
    (fst generated) (RefreshToken.ExpiresAt refreshRecord))).

(** An inactive token still reaches the store, whose [Rotate] detects reuse. *)
Definition Refresh (manager : bearerSessionManager S) (rawRefreshToken : string) :
    M S (result bearerSessionIssued) :=
  r <- RefreshToken.Resolve (refreshTokens manager) rawRefreshToken ;;
  match r with
  | Err err =>
      if errors_Is err RefreshToken.ErrInactive then
        r <- RefreshToken.Rotate (refreshTokens manager) rawRefreshToken ;;
        match r with
        | Err rotationErr => ret (Err rotationErr)
        | Ok _ => ret (Err err)
        end
      else ret (Err err)
  | Ok current =>
      r <- access_ResolveSession (store manager) (RefreshToken.SessionID current) ;;
      match r with
      | Err _ => ret (Err AccessToken.ErrInactiveSession)
      | Ok durable =>
          if negb (String.eqb (AccessToken.session_ID durable) (RefreshToken.SessionID current))
          then ret (Err AccessToken.ErrInactiveSession) else
          now <- read_now (now manager) ;;
          if negb (AccessToken.ActiveAt durable now)
          then ret (Err AccessToken.ErrInactiveSession) else
          accessToken <-? AccessToken.IssueUntil (issuer manager)
                            (AccessToken.session_SubjectID durable) (AccessToken.session_ID durable)
                            (AccessToken.session_ExpiresAt durable) ;;
          replacement <-? RefreshToken.Rotate (refreshTokens manager) rawRefreshToken ;;
          ret (Ok (mkBearerIssued
            (mkSession (AccessToken.session_ID durable) (AccessToken.session_SubjectID durable)
               (AccessToken.session_CreatedAt durable) (AccessToken.session_ExpiresAt durable))
            (AccessToken.issued_Token accessToken) (AccessToken.issued_ExpiresAt accessToken)
            (RefreshToken.issued_Token replacement)
            (RefreshToken.ExpiresAt (RefreshToken.issued_Record replacement))))
      end
  end.

Definition Resolve (manager : bearerSessionManager S) (rawAccessToken : string) :
    M S (result Session) :=
  r <-? AccessToken.VerifySession (verifier manager) rawAccessToken ;;
  let durable := snd r in
  ret (Ok (mkSession (AccessToken.session_ID durable) (AccessToken.session_SubjectID durable)
             (AccessToken.session_CreatedAt durable) (AccessToken.session_ExpiresAt durable))).

Definition List_ (manager : bearerSessionManager S) (subjectID : string) :
    M S (result (list Session)) :=
  records <-? access_ListBySubject (store manager) subjectID ;;
  now <- read_now (now manager) ;;
  for_each records []
    (fun record sessions =>
       if bool_decide (is_Some (as_RevokedAt record)) || negb (Before now (as_ExpiresAt record))
       then ret (Next sessions)
       else ret (Next (sessions ++ [mkSession (as_ID record) (as_SubjectID record)
                                      (as_CreatedAt record) (as_ExpiresAt record)])))
    (fun sessions => ret (Ok sessions)).

Definition Revoke (manager : bearerSessionManager S) (sessionID : string) : M S (result unit) :=
  RefreshToken.RevokeSessionID (refreshTokens manager) sessionID.

Definition RevokeByRefreshToken (manager : bearerSessionManager S) (rawRefreshToken : string) :
    M S (result unit) :=
  RefreshToken.RevokeSession (refreshTokens manager) rawRefreshToken.

Definition RevokeByID (manager : bearerSessionManager S) (subjectID sessionID : string) :
    M S (result unit) :=
  records <-? access_ListBySubject (store manager) subjectID ;;
  for_each records tt
    (fun record _ =>
       if String.eqb (as_ID record) sessionID
       then (r <- Revoke manager sessionID ;; ret (Return r)) else ret (Next tt))
    (fun _ => ret (Err RefreshToken.ErrNotFound)).

Definition RevokeAll (manager : bearerSessionManager S) (subjectID : string) : M S (result unit) :=
  now <- read_now (now manager) ;;
  access_RevokeAll (store manager) subjectID now.
End Operations.
