(* ===== verification/BearerSpec.v ===== *)
(** * What bearer sessions promise

    The contract of the two stores behind bearer sessions, the abstract machine
    of sessions and refresh tokens, its invariant, and the refinement of every
    operation by the machine. *)
From S2P Require Import Prelude GoText Base64 Sha256 Token RefreshToken.
From S2P Require AccessToken.
From S2P Require Import BearerSession.

(** ** The abstract machine *)
Record bearer_state : Type := mkBearer {
  sessions : gmap string AccessSession;
  tokens : gmap string RefreshRecord;
}.

Definition revoke_access (at_ : time) (a : AccessSession) : AccessSession :=
  mkAccess (as_ID a) (as_SubjectID a) (as_CreatedAt a) (as_ExpiresAt a)
    (Some (default at_ (as_RevokedAt a))).

Definition revoke_token (at_ : time) (r : RefreshRecord) : RefreshRecord :=
  mkRefresh (SessionID r) (TokenHash r) (RefreshToken.CreatedAt r) (RefreshToken.ExpiresAt r)
    (RotatedAt r) (Some (default at_ (RevokedAt r))).

Definition consume_token (at_ : time) (r : RefreshRecord) : RefreshRecord :=
  mkRefresh (SessionID r) (TokenHash r) (RefreshToken.CreatedAt r) (RefreshToken.ExpiresAt r)
    (Some at_) (RevokedAt r).

(** The sessions that [ids] selects, and all their refresh tokens, are over. *)
Definition revoke_where (ids : AccessSession -> bool) (at_ : time) (s : bearer_state) : bearer_state :=
  mkBearer ((fun a => if ids a then revoke_access at_ a else a) <$> sessions s)
    ((fun r => match sessions s !! SessionID r with
               | Some a => if ids a then revoke_token at_ r else r
               | None => r
               end) <$> tokens s).

Definition revoke_session (id : string) : time -> bearer_state -> bearer_state :=
  revoke_where (fun a => String.eqb (as_ID a) id).
Definition revoke_subject (subject : string) : time -> bearer_state -> bearer_state :=
  revoke_where (fun a => String.eqb (as_SubjectID a) subject).

Definition rotate_tokens (h : string) (r replacement : RefreshRecord) (at_ : time)
    (s : bearer_state) : bearer_state :=
  mkBearer (sessions s)
    (<[TokenHash replacement := replacement]> (<[h := consume_token at_ r]> (tokens s))).

Inductive bearer_step (refreshLifetime : duration) : bearer_state -> bearer_state -> Prop :=
| bearer_create s a r :
    sessions s !! as_ID a = None -> tokens s !! TokenHash r = None ->
    SessionID r = as_ID a -> RefreshToken.ExpiresAt r = as_ExpiresAt a ->
    as_ExpiresAt a = Add (as_CreatedAt a) refreshLifetime ->
    as_RevokedAt a = None -> RotatedAt r = None -> RevokedAt r = None ->
    bearer_step refreshLifetime s
      (mkBearer (<[as_ID a := a]> (sessions s)) (<[TokenHash r := r]> (tokens s)))
| bearer_rotate s h r replacement at_ :
    tokens s !! h = Some r -> ActiveAt r at_ = true ->
    tokens s !! TokenHash replacement = None ->
    SessionID replacement = SessionID r ->
    RefreshToken.ExpiresAt replacement = RefreshToken.ExpiresAt r ->
    RotatedAt replacement = None -> RevokedAt replacement = None ->
    bearer_step refreshLifetime s (rotate_tokens h r replacement at_ s)
| bearer_revoke s ids at_ :
    bearer_step refreshLifetime s (revoke_where ids at_ s).

Definition bearer_steps (refreshLifetime : duration) : bearer_state -> bearer_state -> Prop :=
  rtc (bearer_step refreshLifetime).

(** ** The contract of storage

    A store answers with the state of its tables; a call that fails leaves them
    as they were, except that detected reuse ends the session.

    As in SessionSpec, a database may keep less than it is given: [keep_token] and
    [keep_access] are what it keeps of a record and [kept] of a time. *)
Section Contract.
Context {S : Type}.

Class KeptRefreshContract (keep_token : RefreshRecord -> RefreshRecord) (kept : time -> time)
    (st : RefreshToken.Store S) (wf : S -> Prop) (view : S -> bearer_state) : Prop := {
  refresh_Find_ok h w : wf (ext w) ->
    wp (store_FindByTokenHash st h) (fun res w' => wf (ext w') /\ view (ext w') = view (ext w) /\
      forall r, res = Ok r -> tokens (view (ext w)) !! h = Some r) w;
  refresh_Rotate_ok h replacement at_ w : wf (ext w) ->
    wp (store_Rotate st h replacement at_) (fun res w' => wf (ext w') /\
      match res with
      | Ok _ => exists r, tokens (view (ext w)) !! h = Some r /\ ActiveAt r at_ = true /\
                  tokens (view (ext w)) !! TokenHash replacement = None /\
                  view (ext w') = rotate_tokens h r (keep_token replacement) (kept at_) (view (ext w))
      | Err e => if errors_Is e ErrReuseDetected
                 then errors_Is e ErrConflict = false /\
                      exists r, tokens (view (ext w)) !! h = Some r /\ ActiveAt r at_ = false /\
                        view (ext w') = revoke_session (SessionID r) (kept at_) (view (ext w))
                 else view (ext w') = view (ext w)
      end) w;
  refresh_RevokeSession_ok id at_ w : wf (ext w) ->
    wp (store_RevokeSession st id at_) (fun res w' => wf (ext w') /\
      match res with
      | Ok _ => view (ext w') = revoke_session id (kept at_) (view (ext w))
      | Err _ => view (ext w') = view (ext w)
      end) w;
}.

Definition session_of (a : AccessSession) : AccessToken.Session :=
  AccessToken.mkSession (as_ID a) (as_SubjectID a) (as_CreatedAt a) (as_ExpiresAt a).

Class KeptAccessContract (keep_access : AccessSession -> AccessSession) (keep_token : RefreshRecord -> RefreshRecord)
    (kept : time -> time) (st : AccessSessionStore S) (wf : S -> Prop) (view : S -> bearer_state) : Prop := {
  access_keyed w id a : wf (ext w) -> sessions (view (ext w)) !! id = Some a -> as_ID a = id;
  access_Resolve_ok id w : wf (ext w) ->
    wp (access_ResolveSession st id) (fun res w' => wf (ext w') /\ view (ext w') = view (ext w) /\
      forall x, res = Ok x -> exists a, sessions (view (ext w)) !! id = Some a /\
        as_RevokedAt a = None /\ x = session_of a) w;
  access_Create_ok a r w : wf (ext w) ->
    wp (access_CreateSession st a r) (fun res w' => wf (ext w') /\
      match res with
      | Ok _ => sessions (view (ext w)) !! as_ID a = None /\
                tokens (view (ext w)) !! TokenHash r = None /\
                view (ext w') = mkBearer (<[as_ID a := keep_access a]> (sessions (view (ext w))))
                                  (<[TokenHash r := keep_token r]> (tokens (view (ext w))))
      | Err _ => view (ext w') = view (ext w)
      end) w;
  access_List_ok subject w : wf (ext w) ->
    wp (access_ListBySubject st subject) (fun res w' => wf (ext w') /\ view (ext w') = view (ext w) /\
      forall l, res = Ok l -> forall a, a ∈ l <->
        sessions (view (ext w)) !! as_ID a = Some a /\ as_SubjectID a = subject) w;
  access_RevokeAll_ok subject at_ w : wf (ext w) ->
    wp (access_RevokeAll st subject at_) (fun res w' => wf (ext w') /\
      match res with
      | Ok _ => view (ext w') = revoke_subject subject (kept at_) (view (ext w))
      | Err _ => view (ext w') = view (ext w)
      end) w;
}.

End Contract.

(** What is given is kept. *)
Abbreviation RefreshContract := (KeptRefreshContract (fun r => r) (fun t => t)).
Abbreviation AccessContract := (KeptAccessContract (fun a => a) (fun r => r) (fun t => t)).

Section Backend.
Context {S : Type}.

(** The stores of a manager share their tables, its verifier resolves sessions
    in the same store, and its clock is past the zero time. *)
Class BearerBackend (manager : bearerSessionManager S) (wf : S -> Prop)
    (view : S -> bearer_state) : Prop := {
  backend_refresh :: RefreshContract (RefreshToken.store (refreshTokens manager)) wf view;
  backend_access :: AccessContract (store manager) wf view;
  backend_resolver : AccessToken.v_resolver (verifier manager) = access_ResolveSession (store manager);
  backend_clock i : (0 < RefreshToken.now (refreshTokens manager) i)%Z;
}.
End Backend.

(** ** Facts about the updates *)
Lemma lookup_sessions_revoke ids at_ s id :
  sessions (revoke_where ids at_ s) !! id =
    (fun a => if ids a then revoke_access at_ a else a) <$> sessions s !! id.
Proof. apply lookup_fmap. Qed.

Lemma lookup_tokens_revoke ids at_ s h :
  tokens (revoke_where ids at_ s) !! h =
    (fun r => match sessions s !! SessionID r with
              | Some a => if ids a then revoke_token at_ r else r
              | None => r
              end) <$> tokens s !! h.
Proof. apply lookup_fmap. Qed.

Lemma refresh_ActiveAt_rotated r at_ : RotatedAt r <> None -> ActiveAt r at_ = false.
Proof. intros Hr. apply not_true_iff_false. by rewrite refresh_ActiveAt_true; intros (? & _). Qed.

Lemma refresh_ActiveAt_revoked r at_ : RevokedAt r <> None -> ActiveAt r at_ = false.
Proof. intros Hr. apply not_true_iff_false. by rewrite refresh_ActiveAt_true; intros (_ & ? & _). Qed.

(** ** The invariant *)
Section Invariant.
Context (refreshLifetime : duration).

(** Every refresh token belongs to a stored session and ends with it, no session
    outlives the configured lifetime, the tokens of a revoked session are
    revoked, and a session has at most one token that can still be used. *)
Record bearer_inv (s : bearer_state) : Prop := {
  inv_key id a : sessions s !! id = Some a -> as_ID a = id;
  inv_lifetime id a : sessions s !! id = Some a ->
    as_ExpiresAt a = Add (as_CreatedAt a) refreshLifetime;
  inv_session h r : tokens s !! h = Some r ->
    exists a, sessions s !! SessionID r = Some a /\ RefreshToken.ExpiresAt r = as_ExpiresAt a /\
      (as_RevokedAt a <> None -> RevokedAt r <> None);
  inv_single h1 h2 r1 r2 : tokens s !! h1 = Some r1 -> tokens s !! h2 = Some r2 ->
    SessionID r1 = SessionID r2 ->
    RotatedAt r1 = None -> RevokedAt r1 = None -> RotatedAt r2 = None -> RevokedAt r2 = None ->
    h1 = h2;
}.

Lemma bearer_inv_create s a r :
  sessions s !! as_ID a = None -> tokens s !! TokenHash r = None ->
  SessionID r = as_ID a -> RefreshToken.ExpiresAt r = as_ExpiresAt a ->
  as_ExpiresAt a = Add (as_CreatedAt a) refreshLifetime -> as_RevokedAt a = None ->
  bearer_inv s ->
  bearer_inv (mkBearer (<[as_ID a := a]> (sessions s)) (<[TokenHash r := r]> (tokens s))).
Proof.
  intros Ha Hr Hid Hex Hlife Hrev [Hk Hl Hs H1].
  assert (Hold : forall h x, tokens s !! h = Some x -> SessionID x <> as_ID a).
  { intros h x Hx. destruct (Hs h x Hx) as (b & Hb & _). congruence. }
  split; simpl.
  - intros id b [[<- <-]|[? ?]]%lookup_insert_Some; eauto.
  - intros id b [[<- <-]|[? ?]]%lookup_insert_Some; eauto.
  - intros h x [[<- <-]|[? Hx]]%lookup_insert_Some.
    + exists a. rewrite Hid, lookup_insert_eq. by split_and!.
    + rewrite lookup_insert_ne by (intros E; by apply (Hold h x)). eauto.
  - intros h1 h2 r1 r2 [[<- <-]|[? Hx1]]%lookup_insert_Some [[<- <-]|[? Hx2]]%lookup_insert_Some Hsame;
      intros; eauto.
    + exfalso. apply (Hold h2 r2); [done|congruence].
    + exfalso. apply (Hold h1 r1); [done|congruence].
Qed.

Lemma bearer_inv_rotate s h r replacement at_ :
  tokens s !! h = Some r -> ActiveAt r at_ = true -> tokens s !! TokenHash replacement = None ->
  SessionID replacement = SessionID r ->
  RefreshToken.ExpiresAt replacement = RefreshToken.ExpiresAt r ->
  bearer_inv s -> bearer_inv (rotate_tokens h r replacement at_ s).
Proof.
  intros Hr Ha Hn Hid Hex [Hk Hl Hs H1]. apply refresh_ActiveAt_true in Ha as (Hrot & Hrev & _).
  destruct (Hs h r Hr) as (a & Hsa & Hxa & Hra).
  assert (Hlive : as_RevokedAt a = None) by (destruct (as_RevokedAt a); [by destruct Hra|done]).
  split; simpl; [done|done|..].
  - intros h' x [[<- <-]|[? [[<- <-]|[? Hx]]%lookup_insert_Some]]%lookup_insert_Some; [| |eauto].
    + exists a. rewrite Hid, Hex. split_and!; [done|done|]. by rewrite Hlive.
    + exists a. by split_and!.
  - intros h1 h2 r1 r2.
    intros [[<- <-]|[? [[<- <-]|[? Hx1]]%lookup_insert_Some]]%lookup_insert_Some
      [[<- <-]|[? [[<- <-]|[? Hx2]]%lookup_insert_Some]]%lookup_insert_Some Hsame ????;
      simpl in *; try done; eauto.
    + assert (h = h2) by (eapply (H1 h h2); eauto; congruence). done.
    + assert (h = h1) by (eapply (H1 h h1); eauto; congruence). done.
Qed.

Lemma bearer_inv_revoke ids at_ s : bearer_inv s -> bearer_inv (revoke_where ids at_ s).
Proof.
  intros [Hk Hl Hs H1]. split.
  - intros id a. rewrite lookup_sessions_revoke. destruct (sessions s !! id) as [b|] eqn:Hb; [|done].
    intros [= <-]. rewrite <- (Hk id b Hb). by destruct (ids b).
  - intros id a. rewrite lookup_sessions_revoke. destruct (sessions s !! id) as [b|] eqn:Hb; [|done].
    intros [= <-]. pose proof (Hl id b Hb). by destruct (ids b).
  - intros h x. rewrite lookup_tokens_revoke. destruct (tokens s !! h) as [r|] eqn:Hr; [|done].
    intros [= <-]. destruct (Hs h r Hr) as (a & Ha & Hx & Hrev). rewrite Ha.
    exists (if ids a then revoke_access at_ a else a). rewrite lookup_sessions_revoke.
    destruct (ids a) eqn:Hids; simpl; rewrite Ha; simpl; rewrite Hids; split_and!; done.
  - intros h1 h2 x1 x2. rewrite !lookup_tokens_revoke.
    destruct (tokens s !! h1) as [r1|] eqn:Hr1, (tokens s !! h2) as [r2|] eqn:Hr2; try done.
    intros [= <-] [= <-].
    destruct (Hs h1 r1 Hr1) as (a1 & Ha1 & _), (Hs h2 r2 Hr2) as (a2 & Ha2 & _).
    rewrite Ha1, Ha2. destruct (ids a1), (ids a2); simpl; eauto; done.
Qed.

Lemma bearer_inv_step s s' : bearer_step refreshLifetime s s' -> bearer_inv s -> bearer_inv s'.
Proof.
  destruct 1; eauto using bearer_inv_create, bearer_inv_rotate, bearer_inv_revoke.
Qed.

(** A session that was revoked stays revoked. *)
Definition session_over (id : string) (s : bearer_state) : Prop :=
  exists a, sessions s !! id = Some a /\ as_RevokedAt a <> None.

Lemma session_over_step id s s' :
  bearer_step refreshLifetime s s' -> session_over id s -> session_over id s'.
Proof.
  intros Hstep (a & Ha & Hrev). destruct Hstep as [s b r Hn|s h r rep at_|s ids at_].
  - exists a. simpl. rewrite lookup_insert_ne by congruence. done.
  - by exists a.
  - eexists. rewrite lookup_sessions_revoke, Ha. split; [done|]. by destruct (ids a).
Qed.
End Invariant.

(** ** Refinement *)
Section RefreshRefinement.
Context {S : Type} `{Env} (rt : RefreshToken.Manager S) (wf : S -> Prop) (view : S -> bearer_state).
Context `{!RefreshContract (RefreshToken.store rt) wf view}.
Hypothesis clock_positive : forall i, (0 < RefreshToken.now rt i)%Z.

Abbreviation abs w := (view (ext w)).

Lemma wp_refresh_Resolve raw w :
  wf (ext w) ->
  wp (RefreshToken.Resolve rt raw) (fun res w' => wf (ext w') /\ abs w' = abs w /\
    forall r, res = Ok r -> HashToken raw = Ok (TokenHash r) /\
      tokens (abs w) !! TokenHash r = Some r /\ RevokedAt r = None /\ RotatedAt r = None) w.
Proof.
  intros Hwf. unfold RefreshToken.Resolve. destruct (HashToken raw) as [h|e] eqn:Hh; [|by wp_go].
  wp_go. eapply wp_mono; [by apply refresh_Find_ok|]. intros [r|e] w1 (? & Ha & Hf); [|by wp_go].
  wp_go; [done|done|]. rewrite ext_tick. go_bool. subst.
  apply refresh_ActiveAt_true in Heqb0 as (? & ? & _). split_and!; [done|done|].
  intros ? [= <-]. split_and!; auto.
Qed.

Lemma wp_refresh_newIssued sid expires w :
  wp (newIssued rt sid expires) (fun res w' => ext w' = ext w /\
    forall i, res = Ok i -> HashToken (issued_Token i) = Ok (TokenHash (issued_Record i)) /\
      SessionID (issued_Record i) = sid /\
      (expires <> 0%Z -> RefreshToken.ExpiresAt (issued_Record i) = expires) /\
      RotatedAt (issued_Record i) = None /\ RevokedAt (issued_Record i) = None) w.
Proof.
  unfold newIssued. wp_go. apply wp_Generate; [|by wp_go]. intros raw h Hh. wp_go. split; [done|].
  intros ? [= <-]. simpl. split_and!; [done|done| |done|done].
  intros Hne. destruct (IsZero expires) eqn:Hz; [|done]. by apply IsZero_true in Hz.
Qed.

(** The effect of a successful rotation. *)
Definition rotated (raw : string) (i : RefreshToken.Issued) (s s' : bearer_state) : Prop :=
  exists h r at_, HashToken raw = Ok h /\ tokens s !! h = Some r /\ ActiveAt r at_ = true /\
    tokens s !! TokenHash (issued_Record i) = None /\
    s' = rotate_tokens h r (issued_Record i) at_ s /\
    HashToken (issued_Token i) = Ok (TokenHash (issued_Record i)) /\
    SessionID (issued_Record i) = SessionID r /\
    RefreshToken.ExpiresAt (issued_Record i) = RefreshToken.ExpiresAt r /\
    RotatedAt (issued_Record i) = None /\ RevokedAt (issued_Record i) = None /\ (0 < at_)%Z.

(** The effect of detected reuse: the session of the token is over. *)
Definition reuse_revoked (raw : string) (s s' : bearer_state) : Prop :=
  exists h r at_, HashToken raw = Ok h /\ tokens s !! h = Some r /\ ActiveAt r at_ = false /\
    s' = revoke_session (SessionID r) at_ s.

Lemma wp_refresh_Rotate raw w :
  wf (ext w) ->
  wp (RefreshToken.Rotate rt raw) (fun res w' => wf (ext w') /\
    match res with
    | Ok i => rotated raw i (abs w) (abs w')
    | Err e => abs w' = abs w \/
               errors_Is e ErrReuseDetected = true /\ reuse_revoked raw (abs w) (abs w')
    end) w.
Proof.
  intros Hwf. unfold RefreshToken.Rotate. destruct (HashToken raw) as [h|e] eqn:Hh; [|wp_go; auto].
  wp_go. eapply wp_mono; [by apply refresh_Find_ok|]. intros [r|e] w1 (Hwf1 & Ha & Hf); [|wp_go; auto].
  wp_go; [by auto|]. go_bool. specialize (Hf r eq_refl).
  apply wp_for_range with (I := fun w' => wf (ext w') /\ abs w' = abs w);
    [done| |intros w2 [? ?]; wp_go; auto].
  intros w2 [Hwf2 Ha2]. wp_go. eapply wp_mono; [apply wp_refresh_newIssued|].
  intros [i|e] w3 [He Hi]; wp_go; [|rewrite He; auto].
  destruct (Hi i eq_refl) as (Ht & Hsid & Hex & Hrot & Hrev).
  eapply wp_mono; [apply refresh_Rotate_ok; by rewrite ext_tick, He|].
  intros [[]|e] w4 [Hwf4 Hres]; rewrite ext_tick, He in Hres; wp_go.
  - split; [done|]. destruct Hres as (r' & Hr' & Hact & Hn & Hv).
    rewrite Ha2 in Hr', Hn. assert (r' = r) as -> by congruence.
    pose proof (clock_positive (ticks w3)).
    eexists h, r, _. split_and!; try done; [by rewrite Hv, Ha2|].
    apply Hex. apply refresh_ActiveAt_true in Hact as (_ & _ & Hlt). lia.
  - split; [done|]. destruct (errors_Is e ErrReuseDetected); [|congruence].
    destruct Hres as [? _]. congruence.
  - split; [done|]. rewrite errors_Is_Errorf. destruct (errors_Is e ErrReuseDetected); [|left; congruence].
    right. split; [done|]. destruct Hres as (_ & r' & Hr' & Hact & Hv). rewrite Ha2 in *.
    eexists h, r', _. done.
Qed.

Lemma wp_RevokeSessionID id w :
  wf (ext w) ->
  wp (RevokeSessionID rt id) (fun res w' => wf (ext w') /\
    match res with
    | Ok _ => exists at_, abs w' = revoke_session id at_ (abs w)
    | Err _ => abs w' = abs w
    end) w.
Proof.
  intros Hwf. unfold RevokeSessionID. wp_go; [done|].
  eapply wp_mono; [by apply refresh_RevokeSession_ok|]. intros [[]|e] w1 [? Hv]; wp_go; eauto.
Qed.

Lemma wp_RevokeSession raw w :
  wf (ext w) ->
  wp (RevokeSession rt raw) (fun res w' => wf (ext w') /\
    match res with
    | Ok _ => exists r at_, HashToken raw = Ok (TokenHash r) /\
                tokens (abs w) !! TokenHash r = Some r /\
                abs w' = revoke_session (SessionID r) at_ (abs w)
    | Err _ => abs w' = abs w
    end) w.
Proof.
  intros Hwf. unfold RevokeSession. wp_go. eapply wp_mono; [by apply wp_refresh_Resolve|].
  intros [r|e] w1 (? & Ha & Hr); wp_go; [|done]. destruct (Hr r eq_refl) as (? & ? & _).
  eapply wp_mono; [by apply wp_RevokeSessionID|]. intros [[]|e] w2 [? Hv]; (split; [done|]).
  - destruct Hv as [at_ Hv]. exists r, at_. by rewrite Hv, Ha.
  - congruence.
Qed.
End RefreshRefinement.

Section BearerRefinement.
Context {S : Type} `{Env} `{AccessToken.JWT} (manager : bearerSessionManager S).
Context (wf : S -> Prop) (view : S -> bearer_state) `{!BearerBackend manager wf view}.

Abbreviation abs w := (view (ext w)).
Abbreviation rt := (refreshTokens manager).

(** What a successful [Create] stored. *)
Definition created (subject : string) (i : bearerSessionIssued) (s s' : bearer_state) : Prop :=
  exists a r, sessions s !! as_ID a = None /\ tokens s !! TokenHash r = None /\
    s' = mkBearer (<[as_ID a := a]> (sessions s)) (<[TokenHash r := r]> (tokens s)) /\
    issued_Session i = mkSession (as_ID a) subject (as_CreatedAt a) (as_ExpiresAt a) /\
    as_SubjectID a = subject /\ as_RevokedAt a = None /\
    as_ExpiresAt a = Add (as_CreatedAt a) (refreshLifetime manager) /\
    HashToken (RefreshToken_ i) = Ok (TokenHash r) /\ SessionID r = as_ID a /\
    RefreshToken.ExpiresAt r = as_ExpiresAt a /\ RefreshTokenExpiresAt i = as_ExpiresAt a /\
    RotatedAt r = None /\ RevokedAt r = None /\
    (as_ExpiresAt a <> 0 -> AccessTokenExpiresAt i <= as_ExpiresAt a)%Z.

Lemma wp_bearer_Create subject w :
  wf (ext w) ->
  wp (Create manager subject) (fun res w' => wf (ext w') /\
    match res with
    | Ok i => created subject i (abs w) (abs w')
    | Err _ => abs w' = abs w
    end) w.
Proof.
  intros Hwf. unfold Create. wp_go; [done| |done].
  apply wp_Generate; [|by wp_go]. intros raw h Hh. wp_go. unfold AccessToken.IssueUntil.
  eapply wp_mono; [apply AccessToken.wp_issue|]. intros [i|e] w1 [He Hi]; wp_go; [|by rewrite He].
  destruct (Hi i eq_refl) as (_ & _ & _ & Hmax & _).
  eapply wp_mono; [apply access_Create_ok; by rewrite He|].
  rewrite He; simpl. intros [[]|e] w2 [Hwf2 Hres]; wp_go; [|done]. split; [done|].
  destruct Hres as (Ha & Hr & Hv). eexists (mkAccess _ _ _ _ _), (mkRefresh _ _ _ _ _ _).
  split_and!; try done.
Qed.

(** What a successful [Refresh] did. *)
Definition refreshed (raw : string) (i : bearerSessionIssued) (s s' : bearer_state) : Prop :=
  exists j a, rotated raw j s s' /\
    sessions s !! SessionID (issued_Record j) = Some a /\ as_RevokedAt a = None /\
    as_ID a = SessionID (issued_Record j) /\
    issued_Session i = mkSession (as_ID a) (as_SubjectID a) (as_CreatedAt a) (as_ExpiresAt a) /\
    RefreshToken_ i = issued_Token j /\
    RefreshTokenExpiresAt i = RefreshToken.ExpiresAt (issued_Record j) /\
    (as_ExpiresAt a <> 0 -> AccessTokenExpiresAt i <= as_ExpiresAt a)%Z.

(** The outcomes of a [Refresh] that returns an error. *)
Definition refresh_failed (raw : string) (s s' : bearer_state) (err : error) : Prop :=
  s' = s \/ (errors_Is err ErrReuseDetected = true /\ reuse_revoked raw s s') \/
  exists j, rotated raw j s s'.

Lemma wp_bearer_Refresh raw w :
  wf (ext w) ->
  wp (Refresh manager raw) (fun res w' => wf (ext w') /\
    match res with
    | Ok i => refreshed raw i (abs w) (abs w')
    | Err e => refresh_failed raw (abs w) (abs w') e
    end) w.
Proof.
  intros Hwf. unfold Refresh, refresh_failed. wp_go.
  eapply wp_mono; [by apply (wp_refresh_Resolve rt wf view)|].
  intros [r|e] w1 (Hwf1 & Ha1 & Hr); wp_go; [| |by auto].
  - destruct (Hr r eq_refl) as (Hh & Hlr & _). eapply wp_mono; [by apply access_Resolve_ok|].
    intros [d|e] w2 (Hwf2 & Ha2 & Hd); wp_go;
      try (split; [done|]; left; rewrite ?ext_tick; congruence).
    go_bool. destruct (Hd d eq_refl) as (a & Hla & Hrev & ->).
    unfold AccessToken.IssueUntil. eapply wp_mono; [apply AccessToken.wp_issue|].
    intros [i|e] w3 [He Hi]; wp_go; [|rewrite He, ext_tick, Ha2; auto].
    destruct (Hi i eq_refl) as (_ & _ & _ & Hmax & _).
    rewrite ext_tick in He.
    eapply wp_mono; [apply (wp_refresh_Rotate rt wf view); [by apply backend_clock|by rewrite He]|].
    rewrite He, Ha2, Ha1. intros [j|e] w4 [Hwf4 Hj]; wp_go; (split; [done|]); [|tauto].
    destruct Hj as (h & r' & at_ & Hh' & Hr' & Hact & Hn & Hv & Ht & Hsid & Hex & Hrot & Hrvk & Hpos).
    exists j, a. assert (r' = r) as ->. { rewrite Hh in Hh'. injection Hh' as <-. congruence. }
    simpl in *. split_and!; try done; [by exists h, r, at_|congruence|congruence].
  - eapply wp_mono; [apply (wp_refresh_Rotate rt wf view); [by apply backend_clock|done]|].
    rewrite Ha1. intros [j|e'] w2 [? Hj]; wp_go; (split; [done|]); [by eauto|tauto].
Qed.

Lemma wp_bearer_Resolve raw w :
  wf (ext w) ->
  wp (Resolve manager raw) (fun res w' => wf (ext w') /\ abs w' = abs w /\
    forall x, res = Ok x -> exists a, sessions (abs w) !! ID x = Some a /\ as_RevokedAt a = None /\
      x = mkSession (as_ID a) (as_SubjectID a) (as_CreatedAt a) (as_ExpiresAt a)) w.
Proof.
  intros Hwf. unfold Resolve, AccessToken.VerifySession. wp_go; try done.
  rewrite (backend_resolver (manager:=manager)). eapply wp_mono; [by apply access_Resolve_ok|].
  intros [d|e] w1 (? & Ha & Hd); wp_go; try done.
  destruct (Hd d eq_refl) as (a & Hla & Hrev & ->). go_bool. simpl in *.
  split_and!; [done|done|]. intros ? [= <-]. simpl. exists a. split_and!; [congruence|done|done].
Qed.

Lemma wp_bearer_List_ subject w :
  wf (ext w) ->
  wp (List_ manager subject) (fun res w' => wf (ext w') /\ abs w' = abs w /\
    forall l, res = Ok l -> forall x, x ∈ l -> exists a,
      sessions (abs w) !! as_ID a = Some a /\ as_SubjectID a = subject /\ as_RevokedAt a = None /\
      x = mkSession (as_ID a) (as_SubjectID a) (as_CreatedAt a) (as_ExpiresAt a)) w.
Proof.
  intros Hwf. unfold List_. wp_go. eapply wp_mono; [by apply access_List_ok|].
  intros [l|e] w1 (? & Ha & Hl); wp_go; [|done]. specialize (Hl l eq_refl).
  apply wp_for_each with (I := fun rest acc w' => wf (ext w') /\ abs w' = abs w /\
    (forall a, a ∈ rest -> a ∈ l) /\
    forall x, x ∈ acc -> exists a, sessions (abs w) !! as_ID a = Some a /\ as_SubjectID a = subject /\
      as_RevokedAt a = None /\
      x = mkSession (as_ID a) (as_SubjectID a) (as_CreatedAt a) (as_ExpiresAt a)).
  - rewrite ext_tick. split_and!; try done. intros x Hx. by apply not_elem_of_nil in Hx.
  - intros a rest acc w2 (? & ? & Hrest & Hacc). wp_go; (split_and!; [done|done| |]).
    1,3: intros b Hb; apply Hrest; by apply list_elem_of_further.
    + done.
    + intros x [Hx|Hx%list_elem_of_singleton]%elem_of_app; [by apply Hacc|]. go_bool.
      destruct (proj1 (Hl a) (Hrest a (list_elem_of_here _ _))) as [? ?].
      exists a. split_and!; try done. by apply eq_None_not_Some.
  - intros acc w2 (? & ? & _ & Hacc). wp_go. split_and!; [done|done|]. by intros ? [= <-].
Qed.

Lemma wp_bearer_RevokeByID subject id w :
  wf (ext w) ->
  wp (RevokeByID manager subject id) (fun res w' => wf (ext w') /\
    match res with
    | Ok _ => exists a at_, sessions (abs w) !! id = Some a /\ as_SubjectID a = subject /\
                abs w' = revoke_session id at_ (abs w)
    | Err _ => abs w' = abs w
    end) w.
Proof.
  intros Hwf. unfold RevokeByID. wp_go. eapply wp_mono; [by apply access_List_ok|].
  intros [l|e] w1 (? & Ha & Hl); wp_go; [|done]. specialize (Hl l eq_refl).
  apply wp_for_each with (I := fun rest _ w' => wf (ext w') /\ abs w' = abs w /\
    forall a, a ∈ rest -> a ∈ l).
  - done.
  - intros a rest _ w2 (? & Ha2 & Hrest). wp_go.
    + eapply wp_mono; [by apply (wp_RevokeSessionID rt wf view)|].
      rewrite Ha2. intros [[]|e] w3 [? Hv]; wp_go; [|done]. split; [done|]. destruct Hv as [at_ Hv].
      go_bool. destruct (proj1 (Hl a) (Hrest a (list_elem_of_here _ _))) as [Hla ?].
      exists a, at_. subst. done.
    + split_and!; [done|done|]. intros b Hb. apply Hrest. by apply list_elem_of_further.
  - intros _ w2 (? & ? & _). by wp_go.
Qed.

Lemma wp_bearer_RevokeAll subject w :
  wf (ext w) ->
  wp (RevokeAll manager subject) (fun res w' => wf (ext w') /\
    match res with
    | Ok _ => exists at_, abs w' = revoke_subject subject at_ (abs w)
    | Err _ => abs w' = abs w
    end) w.
Proof.
  intros Hwf. unfold RevokeAll. wp_go. eapply wp_mono; [by apply access_RevokeAll_ok|].
  intros [[]|e] w1 [? Hv]; eauto.
Qed.
End BearerRefinement.

(** ** Reuse, on a store that answers *)
Class RefreshAnswers {S} (st : RefreshToken.Store S) (wf : S -> Prop) (view : S -> bearer_state) : Prop := {
  answers_Find h r w : wf (ext w) -> tokens (view (ext w)) !! h = Some r ->
    fst (store_FindByTokenHash st h w) = Ok r;
  answers_Rotate h r replacement at_ w : wf (ext w) -> tokens (view (ext w)) !! h = Some r ->
    ActiveAt r at_ = false ->
    exists e, fst (store_Rotate st h replacement at_ w) = Err e /\ errors_Is e ErrReuseDetected = true;
}.

(** The session [id] is revoked, and so is every refresh token of it. *)
Definition session_ended (id : string) (s : bearer_state) : Prop :=
  (forall a, sessions s !! id = Some a -> as_RevokedAt a <> None) /\
  forall h r, tokens s !! h = Some r -> SessionID r = id -> RevokedAt r <> None.

Lemma revoke_session_ended refreshLifetime id at_ s :
  bearer_inv refreshLifetime s -> session_ended id (revoke_session id at_ s).
Proof.
  intros [Hk _ Hs _]. split.
  - intros a. unfold revoke_session. rewrite lookup_sessions_revoke.
    destruct (sessions s !! id) as [b|] eqn:Hb; [|done]. intros [= <-].
    rewrite (Hk id b Hb), String.eqb_refl. done.
  - intros h r. unfold revoke_session. rewrite lookup_tokens_revoke.
    destruct (tokens s !! h) as [x|] eqn:Hx; [|done]. intros [= <-].
    destruct (Hs h x Hx) as (a & Ha & _). rewrite Ha.
    destruct (String.eqb (as_ID a) id) eqn:E; simpl; [done|]. intros Hid. subst.
    rewrite (Hk _ a Ha), String.eqb_refl in E. done.
Qed.

Section Reuse.
Context {S : Type} `{Env} `{AccessToken.JWT} (manager : bearerSessionManager S).
Context (wf : S -> Prop) (view : S -> bearer_state) `{!BearerBackend manager wf view}.
Context `{!RefreshAnswers (RefreshToken.store (refreshTokens manager)) wf view}.
Hypothesis rand_answers : forall i, rand_source i <> None.

Abbreviation abs w := (view (ext w)).
Abbreviation rt := (refreshTokens manager).

Lemma wp_answers_Find h r w :
  wf (ext w) -> tokens (abs w) !! h = Some r ->
  wp (store_FindByTokenHash (RefreshToken.store rt) h)
    (fun res w' => res = Ok r /\ wf (ext w') /\ abs w' = abs w) w.
Proof.
  intros Hwf Hr. apply wp_run. intros res w' E.
  pose proof (answers_Find h r w Hwf Hr) as Ha. rewrite E in Ha. simpl in Ha. subst.
  destruct (wp_elim _ _ _ _ _ (refresh_Find_ok h w Hwf) E) as (? & ? & _). done.
Qed.

Lemma wp_newIssued_Ok sid expires w :
  wp (newIssued rt sid expires) (fun res w' => ext w' = ext w /\ exists i, res = Ok i) w.
Proof.
  unfold newIssued, Generate. wp_go; [by eauto|]. by destruct (rand_answers (draws w)).
Qed.

Lemma wp_Rotate_reuse raw h r w :
  wf (ext w) -> HashToken raw = Ok h -> tokens (abs w) !! h = Some r -> TokenHash r = h ->
  validRecord r = true -> (forall at_, ActiveAt r at_ = false) ->
  wp (RefreshToken.Rotate rt raw) (fun res w' => exists err, res = Err err /\
    errors_Is err ErrReuseDetected = true /\
    exists at_, abs w' = revoke_session (SessionID r) at_ (abs w)) w.
Proof.
  intros Hwf Hh Hr Hk Hv Hin. unfold RefreshToken.Rotate. rewrite Hh. apply wp_bind_ok, wp_wrapped.
  eapply wp_mono; [by apply wp_answers_Find|]. intros ? w1 (-> & Hwf1 & Ha1). go_red.
  rewrite Hv, Hk, String.eqb_refl. go_red. simpl negb. simpl orb.
  apply wp_bind, wp_bind. eapply wp_mono; [apply wp_newIssued_Ok|]. intros ? w2 (He & i & ->).
  apply wp_bind, wp_read_now, wp_bind. apply wp_run. intros res w3 E.
  assert (Hr2 : tokens (abs (tick w2)) !! h = Some r) by by rewrite ext_tick, He, Ha1.
  destruct (answers_Rotate h r (issued_Record i) (RefreshToken.now rt (ticks w2)) (tick w2))
    as (e & He' & Hreuse); [by rewrite ext_tick, He|done|done|].
  rewrite E in He'. simpl in He'. subst res.
  pose proof (refresh_Rotate_ok h (issued_Record i) (RefreshToken.now rt (ticks w2)) (tick w2)) as Hok.
  rewrite ext_tick, He in Hok. specialize (Hok Hwf1). destruct (wp_elim _ _ _ _ _ Hok E) as [_ Heff].
  rewrite Hreuse in Heff. destruct Heff as (Hc & r' & Hr' & _ & Hv').
  rewrite Hc. wp_go. rewrite Ha1 in Hr', Hv'. assert (r' = r) as -> by congruence.
  eexists. split_and!; [done|by rewrite errors_Is_Errorf|eauto].
Qed.

Lemma wp_Refresh_reuse raw h r w :
  wf (ext w) -> HashToken raw = Ok h -> tokens (abs w) !! h = Some r -> TokenHash r = h ->
  validRecord r = true -> (forall at_, ActiveAt r at_ = false) ->
  wp (Refresh manager raw) (fun res w' => exists err, res = Err err /\
    errors_Is err ErrReuseDetected = true /\
    exists at_, abs w' = revoke_session (SessionID r) at_ (abs w)) w.
Proof.
  intros Hwf Hh Hr Hk Hv Hin. unfold Refresh, RefreshToken.Resolve. rewrite Hh.
  apply wp_bind, wp_bind_ok, wp_wrapped.
  eapply wp_mono; [by apply wp_answers_Find|]. intros ? w1 (-> & Hwf1 & Ha1). go_red.
  rewrite Hv, Hk, String.eqb_refl. go_red. simpl negb. simpl orb.
  apply wp_bind, wp_read_now. rewrite Hin. go_red. simpl negb. apply wp_ret. go_red.
  change (errors_Is ErrInactive ErrInactive) with true. go_red. apply wp_bind.
  eapply wp_mono; [by apply (wp_Rotate_reuse raw h r); rewrite ?ext_tick, ?Ha1|].
  rewrite ext_tick, Ha1. intros ? w2 (err & -> & ? & ?). wp_go. eauto.
Qed.
End Reuse.
