(* ===== verification/BearerReference.v ===== *)
(** * A reference backend for bearer sessions

    Stores whose state is the abstract machine's, updated in one step per call,
    and a bearer session manager over them. *)
From S2P Require Import Prelude GoText Base64 Sha256 Token RefreshToken.
From S2P Require Import AccessToken.

(** * A reference JWT library

    The simplest token format that keeps the laws of [AccessToken.JWTLaws]: the
    fields of a token, encoded and joined, followed by the public key that signed
    it. It shows that the laws can be met and runs the concrete examples. *)

(** ** Lists of strings as one string *)
Fixpoint join_fields (l : list string) : string :=
  match l with
  | [] => EmptyString
  | [x] => EncodeToString URLAlphabet x
  | x :: l' => EncodeToString URLAlphabet x +:+ String "$" (join_fields l')
  end.

Fixpoint decode_fields (l : list string) : option (list string) :=
  match l with
  | [] => Some []
  | x :: l' =>
      match DecodeString URLAlphabet x, decode_fields l' with
      | Some y, Some ys => Some (y :: ys)
      | _, _ => None
      end
  end.

Definition split_fields (s : string) : option (list string) := decode_fields (Split s "$").

Lemma split_join_fields l : l <> [] -> split_fields (join_fields l) = Some l.
Proof.
  intros Hl. unfold split_fields. induction l as [|x [|y l] IH]; [done| |].
  - simpl. rewrite Split_last by apply EncodeToString_no_dollar. simpl.
    by rewrite DecodeString_EncodeToString.
  - change (join_fields (x :: y :: l))
      with (EncodeToString URLAlphabet x +:+ String "$" (join_fields (y :: l))).
    rewrite Split_cons by apply EncodeToString_no_dollar. cbn [decode_fields].
    by rewrite DecodeString_EncodeToString, IH.
Qed.

(** ** Dates as strings *)
Fixpoint bits_of_pos (p : positive) : string :=
  match p with
  | xH => EmptyString
  | xO p' => String "0" (bits_of_pos p')
  | xI p' => String "1" (bits_of_pos p')
  end.

Fixpoint pos_of_bits (s : string) : positive :=
  match s with
  | EmptyString => xH
  | String a s' => if Ascii.eqb a "1" then xI (pos_of_bits s') else xO (pos_of_bits s')
  end.

Definition date_field (d : option time) : string :=
  match d with Some t => String "d" (bits_of_pos (Z.to_pos t)) | None => EmptyString end.
Definition field_date (s : string) : option time :=
  match s with String _ s' => Some (Zpos (pos_of_bits s')) | EmptyString => None end.

Lemma pos_of_bits_of_pos p : pos_of_bits (bits_of_pos p) = p.
Proof. induction p; simpl; congruence. Qed.

Lemma field_date_field d : exact_date d -> field_date (date_field d) = d.
Proof.
  destruct d as [t|]; [|done]. intros Hd. destruct (Hd t eq_refl) as [_ [Hu _]].
  simpl. rewrite pos_of_bits_of_pos, Z2Pos.id; [done|].
  unfold Unix, unixEpochSeconds, Second in Hu.
  pose proof (Z.div_mod t 1000000000 ltac:(lia)). pose proof (Z.mod_pos_bound t 1000000000 ltac:(lia)). lia.
Qed.

(** ** The library *)
#[export] Instance claims_accepted_dec o at_ c : Decision (claims_accepted o at_ c).
Proof.
  unfold claims_accepted. destruct (ExpiresAt c), (NotBefore c), (IssuedAt c); apply _.
Defined.

Definition reference_sign (tok : ParsedToken) (c : Claims) (privateKey : string) : option string :=
  match Header_kid tok, Audience c with
  | Some kid, [aud] =>
      if String.eqb (Method tok) SigningMethodEdDSA
      then Some (join_fields [kid; SessionID c; Issuer c; Subject c; aud; ID c; date_field (ExpiresAt c);
                              date_field (NotBefore c); date_field (IssuedAt c); Public privateKey])
      else None
  | _, _ => None
  end.

Definition reference_parse (raw : string) : option (ParsedToken * Claims) :=
  match split_fields raw with
  | Some [kid; sid; iss; sub; aud; id; exp; nbf; iat; _] =>
      Some (mkParsed SigningMethodEdDSA (Some kid),
            mkClaims sid iss sub [aud] (field_date exp) (field_date nbf) (field_date iat) id)
  | _ => None
  end.

Definition reference_verifies (raw key : string) : bool :=
  match split_fields raw with
  | Some [_; _; _; _; _; _; _; _; _; signer] => String.eqb signer key
  | _ => false
  end.

#[export] Instance reference_jwt : JWT := {|
  NewNumericDate t := Truncate t Second;
  SignedString := reference_sign;
  ParseWithClaims raw keyfunc o at_ :=
    match reference_parse raw with
    | None => Err (New "jwt.ErrTokenMalformed")
    | Some (tok, c) =>
        match keyfunc tok with
        | Err e => Err e
        | Ok key =>
            if bool_decide (Method tok ∈ WithValidMethods o) && reference_verifies raw key &&
               bool_decide (claims_accepted o at_ c)
            then Ok (c, true) else Err (New "jwt.ErrTokenInvalidClaims")
        end
    end;
  ParseUnverified := reference_parse;
  SignatureVerifies := reference_verifies;
|}.

#[export] Instance reference_jwt_laws : JWTLaws id.
Proof.
  split.
  - intros t Ht. simpl. unfold Truncate. rewrite Ht. simpl. lia.
  - intros raw keyfunc o at_ c. simpl. destruct (reference_parse raw) as [[tok c']|]; [|split; [done|]].
    2: { by intros (? & ? & ? & _). }
    destruct (keyfunc tok) as [key|e] eqn:Hk; [|split; [done|]].
    2: { intros (? & ? & [= <- <-] & _ & ? & _). congruence. }
    destruct (_ && _) eqn:Hc; split.
    + intros [= <-]. go_bool. eauto 10.
    + intros (? & ? & [= <- <-] & _). done.
    + done.
    + intros (? & key' & [= <- <-] & ? & ? & Hs & ?). assert (key' = key) as -> by congruence.
      rewrite Hs, !bool_decide_eq_true_2 in Hc by done. done.
  - intros kid c privateKey raw (_ & (aud & Ha & _) & He & Hn & Hi) _ (seed & Hlen & -> & Hp).
    unfold SignedString, ParseUnverified, SignatureVerifies, reference_jwt.
    unfold reference_sign, reference_parse, reference_verifies. cbn [Header_kid Method]. rewrite Ha.
    rewrite String.eqb_refl. intros Hraw. apply Some_inj in Hraw. subst raw.
    rewrite !split_join_fields by done. rewrite !field_date_field by done.
    split; [|apply String.eqb_refl]. destruct c; simpl in *. by subst.
Qed.

(** * The backend *)
From S2P Require Import RefreshToken BearerSession BearerSpec.

Definition bearer_Find (h : Hash) (s : bearer_state) : result RefreshRecord * bearer_state :=
  (match tokens s !! h with Some r => Ok r | None => Err ErrNotFound end, s).

Definition bearer_Rotate (h : Hash) (replacement : RefreshRecord) (at_ : time) (s : bearer_state) :
    result unit * bearer_state :=
  match tokens s !! h with
  | None => (Err ErrNotFound, s)
  | Some r =>
      if negb (ActiveAt r at_) then (Err ErrReuseDetected, revoke_session (SessionID r) at_ s) else
      if bool_decide (is_Some (tokens s !! TokenHash replacement)) then (Err ErrConflict, s)
      else (Ok tt, rotate_tokens h r replacement at_ s)
  end.

Definition bearer_CreateToken (r : RefreshRecord) (s : bearer_state) : result unit * bearer_state :=
  if bool_decide (is_Some (tokens s !! TokenHash r)) then (Err ErrConflict, s)
  else (Ok tt, mkBearer (sessions s) (<[TokenHash r := r]> (tokens s))).

Definition ref_refresh_store : RefreshToken.Store bearer_state :=
  {| store_Create r := lift_ext (bearer_CreateToken r);
     store_FindByTokenHash h := lift_ext (bearer_Find h);
     store_Rotate h r at_ := lift_ext (bearer_Rotate h r at_);
     store_RevokeSession id at_ := lift_ext (fun s => (Ok tt, revoke_session id at_ s)) |}.

Definition bearer_Resolve (id : string) (s : bearer_state) : result AccessToken.Session * bearer_state :=
  (match sessions s !! id with
   | Some a => if bool_decide (as_RevokedAt a = None) then Ok (session_of a)
               else Err AccessToken.ErrInactiveSession
   | None => Err AccessToken.ErrInactiveSession
   end, s).

Definition bearer_Create (a : AccessSession) (r : RefreshRecord) (s : bearer_state) :
    result unit * bearer_state :=
  if bool_decide (is_Some (sessions s !! as_ID a)) || bool_decide (is_Some (tokens s !! TokenHash r))
  then (Err ErrConflict, s)
  else (Ok tt, mkBearer (<[as_ID a := a]> (sessions s)) (<[TokenHash r := r]> (tokens s))).

Definition bearer_List (subject : string) (s : bearer_state) : list AccessSession :=
  List.filter (fun a => String.eqb (as_SubjectID a) subject) (map_to_list (sessions s)).*2.

Definition ref_access_store : AccessSessionStore bearer_state :=
  {| access_ResolveSession id := lift_ext (bearer_Resolve id);
     access_CreateSession a r := lift_ext (bearer_Create a r);
     access_ListBySubject subject := lift_ext (fun s => (Ok (bearer_List subject s), s));
     access_Revoke id at_ := lift_ext (fun s => (Ok tt, revoke_session id at_ s));
     access_RevokeAll subject at_ := lift_ext (fun s => (Ok tt, revoke_subject subject at_ s)) |}.

Definition bearer_keyed (s : bearer_state) : Prop :=
  map_Forall (fun id a => as_ID a = id) (sessions s).

Lemma bearer_keyed_revoke ids at_ s : bearer_keyed s -> bearer_keyed (revoke_where ids at_ s).
Proof.
  intros Hk id a. rewrite lookup_sessions_revoke. destruct (sessions s !! id) as [b|] eqn:Hb; [|done].
  intros [= <-]. rewrite <- (Hk id b Hb). by destruct (ids b).
Qed.

#[export] Instance ref_refresh_contract : RefreshContract ref_refresh_store bearer_keyed id.
Proof.
  split; intros; unfold Datatypes.id in *; simpl in *; wp_go.
  - unfold bearer_Find. destruct (tokens (ext w) !! h) eqn:?; (split_and!; [done..|]); by intros ? [= <-].
  - unfold bearer_Rotate. destruct (tokens (ext w) !! h) as [r|] eqn:Hr; [|done].
    destruct (ActiveAt r at_) eqn:Ha; simpl.
    + case_bool_decide as Hd; [done|]. apply eq_None_not_Some in Hd. simpl. split; [exact H|]. eauto.
    + split; [by apply bearer_keyed_revoke|]. split; [done|]. eauto.
  - split; [by apply bearer_keyed_revoke|done].
Qed.

#[export] Instance ref_access_contract : AccessContract ref_access_store bearer_keyed id.
Proof.
  split; intros; unfold Datatypes.id in *; simpl in *; try wp_go.
  - exact (H id a H0).
  - unfold bearer_Resolve. destruct (sessions (ext w) !! id) as [a|] eqn:Ha; [|done].
    case_bool_decide; [|done]. split_and!; [done..|]. intros ? [= <-]. eauto.
  - unfold bearer_Create. destruct (_ || _) eqn:Hd; [done|]. go_bool. simpl.
    rewrite eq_None_not_Some, (eq_None_not_Some (tokens _ !! _)).
    split_and!; [by apply map_Forall_insert_2|done..].
  - split_and!; [done..|]. intros ? [= <-] a. unfold bearer_List.
    rewrite list_elem_of_In, filter_In, <- list_elem_of_In, String.eqb_eq, list_elem_of_fmap. split.
    + intros [([i b] & -> & Hin) <-]. apply elem_of_map_to_list in Hin. simpl. by rewrite (H i b Hin).
    + intros [Ha <-]. split; [|done]. exists (as_ID a, a). by rewrite elem_of_map_to_list.
  - split; [by apply bearer_keyed_revoke|done].
Qed.

(** ** A run: alice signs in with bearer tokens *)
Definition demo_seed : string := string_of_list (repeat "k"%char 32).

Definition demo_config : BearerSessionConfig :=
  mkBearerConfig "https://auth.example.com" "api" Minute Hour "key-1" (demo_seed +:+ demo_seed) ∅ 0%Z.

Definition demo_verifier : AccessToken.Verifier bearer_state :=
  AccessToken.mkVerifier bearer_state "https://auth.example.com" "api" {["key-1" := demo_seed]} 0%Z
    demo_clock (access_ResolveSession ref_access_store).

Definition demo_bearer : bearerSessionManager bearer_state :=
  mkBearerManager bearer_state ref_access_store
    (AccessToken.mkIssuer "https://auth.example.com" "api" Minute "key-1" (demo_seed +:+ demo_seed)
       demo_clock)
    demo_verifier (mkManager bearer_state ref_refresh_store Hour demo_clock) Hour demo_clock.

Example demo_bearer_configured :
  newBearerSessionManager (Some ref_access_store) (Some ref_refresh_store) demo_config = Ok demo_bearer.
Proof. reflexivity. Qed.

#[export] Instance demo_bearer_backend : BearerBackend demo_bearer bearer_keyed id.
Proof.
  split; [apply _|apply _|done|]. intros i. simpl.
  unfold demo_clock, demo_epoch, Second. lia.
Defined.

Definition bearer_start : World bearer_state := demo_world (mkBearer ∅ ∅).
Definition bearer_login : result bearerSessionIssued * World bearer_state :=
  BearerSession.Create demo_bearer "alice" bearer_start.
Definition demo_refresh : string :=
  match fst bearer_login with Ok i => RefreshToken_ i | Err _ => EmptyString end.
Definition demo_access : string :=
  match fst bearer_login with Ok i => AccessToken_ i | Err _ => EmptyString end.
Definition bearer_after : World bearer_state := snd bearer_login.

Lemma bearer_start_ok : bearer_keyed (ext bearer_start) /\ bearer_inv Hour (id (ext bearer_start)).
Proof. split; [intros ? ? [=]|by split]. Defined.

Lemma bearer_after_ok : bearer_keyed (ext bearer_after) /\ bearer_inv Hour (id (ext bearer_after)).
Proof.
  destruct bearer_start_ok as [Hk Hi].
  pose proof (wp_bearer_Create demo_bearer bearer_keyed id "alice" bearer_start Hk) as Hwp.
  unfold wp in Hwp. destruct Hwp as [Hk' Hres]. split; [exact Hk'|].
  fold bearer_login in Hres. unfold bearer_after. destruct (fst bearer_login) as [i|e].
  - destruct Hres as (a & r & ? & ? & -> & _ & _ & ? & ? & _ & ? & ? & _).
    by apply bearer_inv_create.
  - by rewrite Hres.
Defined.

#[export] Instance ref_refresh_answers : RefreshAnswers ref_refresh_store bearer_keyed id.
Proof.
  split; intros; unfold Datatypes.id in *; simpl in *.
  - unfold bearer_Find. by rewrite H0.
  - unfold bearer_Rotate, lift_ext. rewrite H0, H1. eexists. done.
Qed.
