(* ===== verification/BearerProps.v ===== *)
(** * Bearer session theorems

    Histories of a bearer session manager, and the properties of access tokens,
    refresh tokens and sessions, each with a run on the reference backend. *)
From S2P Require Import Prelude GoText Base64 Sha256 Token RefreshToken.
From S2P Require AccessToken.
From S2P Require Import BearerSession BearerSpec BearerReference.

(** ** Histories *)
Inductive bearer_call : Type :=
| BCreate (subject : string)
| BRefresh (raw : string)
| BResolve (raw : string)
| BList (subject : string)
| BRevoke (id : string)
| BRevokeByRefreshToken (raw : string)
| BRevokeByID (subject id : string)
| BRevokeAll (subject : string).

Section Histories.
Context {S : Type} `{Env} `{AccessToken.JWT} (manager : bearerSessionManager S).
Context (wf : S -> Prop) (view : S -> bearer_state).

Abbreviation abs w := (view (ext w)).
Abbreviation life := (refreshLifetime manager).

Definition bearer_run (c : bearer_call) (w : World S) : World S :=
  match c with
  | BCreate subject => snd (Create manager subject w)
  | BRefresh raw => snd (Refresh manager raw w)
  | BResolve raw => snd (Resolve manager raw w)
  | BList subject => snd (List_ manager subject w)
  | BRevoke id => snd (Revoke manager id w)
  | BRevokeByRefreshToken raw => snd (RevokeByRefreshToken manager raw w)
  | BRevokeByID subject id => snd (RevokeByID manager subject id w)
  | BRevokeAll subject => snd (RevokeAll manager subject w)
  end.

(** Calls of this manager mixed with steps of other servers on the same tables. *)
Inductive bearer_reachable (w : World S) : World S -> Prop :=
| bearer_here : bearer_reachable w w
| bearer_call_step w1 c : bearer_reachable w w1 -> bearer_reachable w (bearer_run c w1)
| bearer_other w1 w2 :
    bearer_reachable w w1 -> wf (ext w2) -> bearer_steps life (abs w1) (abs w2) ->
    bearer_reachable w w2.

Context `{!BearerBackend manager wf view}.

Lemma rotated_step raw i s s' : rotated raw i s s' -> bearer_step life s s'.
Proof.
  intros (h & r & at_ & _ & Hr & Ha & Hn & -> & _ & Hsid & Hex & Hrot & Hrev & _).
  by econstructor.
Qed.

Lemma bearer_run_steps c w :
  wf (ext w) -> wf (ext (bearer_run c w)) /\ bearer_steps life (abs w) (abs (bearer_run c w)).
Proof.
  intros Hwf.
  assert (Hsame : forall s, s = abs w -> bearer_steps life (abs w) s) by (intros s ->; apply rtc_refl).
  destruct c; simpl.
  - destruct (wp_bearer_Create manager wf view subject w Hwf) as [? Hr]. split; [done|].
    destruct (fst _) as [i|e]; [|by apply Hsame].
    destruct Hr as (a & r & ? & ? & -> & ? & ? & ? & ? & ? & ? & ? & ? & ? & ? & _).
    apply rtc_once. by constructor.
  - destruct (wp_bearer_Refresh manager wf view raw w Hwf) as [? Hr]. split; [done|].
    destruct (fst _) as [i|e].
    + destruct Hr as (j & a & Hr & _). by eapply rtc_once, rotated_step.
    + destruct Hr as [Hr|[[_ (h & r & at_ & _ & _ & _ & ->)]|[j Hr]]]; [by apply Hsame| |].
      * apply rtc_once. constructor.
      * by eapply rtc_once, rotated_step.
  - destruct (wp_bearer_Resolve manager wf view raw w Hwf) as (? & ? & _). auto.
  - destruct (wp_bearer_List_ manager wf view subject w Hwf) as (? & ? & _). auto.
  - destruct (wp_RevokeSessionID (refreshTokens manager) wf view id w Hwf) as [? Hr].
    unfold Revoke. split; [done|]. destruct (fst _); [|by apply Hsame].
    destruct Hr as [at_ ->]. apply rtc_once. constructor.
  - destruct (wp_RevokeSession (refreshTokens manager) wf view raw w Hwf) as [? Hr].
    unfold RevokeByRefreshToken. split; [done|]. destruct (fst _); [|by apply Hsame].
    destruct Hr as (r & at_ & _ & _ & ->). apply rtc_once. constructor.
  - destruct (wp_bearer_RevokeByID manager wf view subject id w Hwf) as [? Hr]. split; [done|].
    destruct (fst _); [|by apply Hsame].
    destruct Hr as (a & at_ & _ & _ & ->). apply rtc_once. constructor.
  - destruct (wp_bearer_RevokeAll manager wf view subject w Hwf) as [? Hr]. split; [done|].
    destruct (fst _); [|by apply Hsame]. destruct Hr as [at_ ->]. apply rtc_once. constructor.
Qed.

Lemma bearer_reachable_steps w w' :
  wf (ext w) -> bearer_reachable w w' -> wf (ext w') /\ bearer_steps life (abs w) (abs w').
Proof.
  intros Hwf Hr. induction Hr as [|w1 c _ [? Hs]|w1 w2 _ [? Hs] ? ?].
  - split; [done|apply rtc_refl].
  - destruct (bearer_run_steps c w1) as [? ?]; [done|]. split; [done|]. unfold bearer_steps in *. by etrans.
  - split; [done|]. unfold bearer_steps in *. by etrans.
Qed.

Lemma bearer_reachable_invariant (I : bearer_state -> Prop) w w' :
  (forall s s', bearer_step life s s' -> I s -> I s') ->
  wf (ext w) -> bearer_reachable w w' -> I (abs w) -> I (abs w').
Proof.
  intros Hstep Hwf Hr HI. destruct (bearer_reachable_steps w w') as [_ Hs]; [done..|].
  revert HI. induction Hs; eauto.
Qed.
End Histories.

(** A refresh token that was consumed stays consumed. *)
Definition consumed (h : string) (s : bearer_state) : Prop :=
  exists r, tokens s !! h = Some r /\ RotatedAt r <> None.

Lemma consumed_step life h s s' : bearer_step life s s' -> consumed h s -> consumed h s'.
Proof.
  intros Hstep (x & Hx & Hrot). destruct Hstep as [s b r _ Hn|s h0 r rep at_ Hr Ha Hn|s ids at_].
  - exists x. simpl. rewrite lookup_insert_ne by congruence. done.
  - apply refresh_ActiveAt_true in Ha as (Hnone & _).
    exists x. simpl. rewrite !lookup_insert_ne; [done|congruence|congruence].
  - eexists. rewrite lookup_tokens_revoke, Hx. split; [done|].
    destruct (sessions s !! SessionID x) as [a|]; [|done]. by destruct (ids a).
Qed.

Section Properties.
Context {S : Type} `{Env} `{AccessToken.JWT} (manager : bearerSessionManager S).
Context (wf : S -> Prop) (view : S -> bearer_state) `{!BearerBackend manager wf view}.

Abbreviation abs w := (view (ext w)).
Abbreviation life := (refreshLifetime manager).

Lemma consumed_Refresh raw h w :
  wf (ext w) -> HashToken raw = Ok h -> consumed h (abs w) ->
  exists err, fst (Refresh manager raw w) = Err err.
Proof.
  intros Hwf Hh (x & Hx & Hrot). destruct (wp_bearer_Refresh manager wf view raw w Hwf) as [_ Hr].
  destruct (fst _) as [i|e]; [|by eexists].
  destruct Hr as (j & a & (h' & r & at_ & Hh' & Hr & Ha & _) & _).
  rewrite Hh in Hh'. injection Hh' as <-. apply refresh_ActiveAt_true in Ha as (? & _). congruence.
Qed.

(** C20: the tables of bearer sessions stay sound in every history of calls, on
    any number of servers: each refresh token belongs to a stored session and
    expires with it, no session outlives the configured lifetime, the tokens of
    a revoked session are revoked, and a session never has two refresh tokens
    that can still be used. *)
Theorem bearer_sessions_invariant w w' :
  wf (ext w) -> bearer_inv life (abs w) -> bearer_reachable manager wf view w w' ->
  bearer_inv life (abs w').
Proof.
  intros Hwf Hinv Hr. apply (bearer_reachable_invariant manager wf view _ w w'); [|done..].
  intros s s' ?. by apply bearer_inv_step.
Qed.

(** A refresh token works once. A successful [Refresh] consumes the
    presented token, stores a replacement for the same live session with the
    same expiry, issues an access token that ends no later than the session, and
    in every later history [Refresh] refuses the consumed token. *)
Theorem Refresh_once raw w i w1 :
  wf (ext w) -> bearer_inv life (abs w) -> Refresh manager raw w = (Ok i, w1) ->
  exists h h' a r',
    HashToken raw = Ok h /\ HashToken (RefreshToken_ i) = Ok h' /\ h <> h' /\
    sessions (abs w1) = sessions (abs w) /\
    sessions (abs w) !! ID (issued_Session i) = Some a /\ as_RevokedAt a = None /\
    consumed h (abs w1) /\ tokens (abs w) !! h' = None /\
    tokens (abs w1) !! h' = Some r' /\ SessionID r' = ID (issued_Session i) /\
    RotatedAt r' = None /\ RevokedAt r' = None /\
    RefreshTokenExpiresAt i = as_ExpiresAt a /\ (AccessTokenExpiresAt i <= as_ExpiresAt a)%Z /\
    forall w', bearer_reachable manager wf view w1 w' ->
      exists err, fst (Refresh manager raw w') = Err err.
Proof.
  intros Hwf Hinv E. destruct (wp_elim _ _ _ _ _ (wp_bearer_Refresh manager wf view raw w Hwf) E)
    as [Hwf1 (j & a & (h & r & at_ & Hh & Hr & Hact & Hn & Hv & Ht & Hsid & Hex & Hrot & Hrev & Hpos) & Ha &
      Hlive & Hid & Hs & Htok & Hrex & Hacc)].
  assert (Hne : h <> TokenHash (issued_Record j)) by congruence.
  assert (Hcons : consumed h (abs w1)).
  { eexists. rewrite Hv. simpl. by rewrite lookup_insert_ne, lookup_insert_eq by done. }
  destruct (inv_session _ _ Hinv h r Hr) as (a' & Ha' & Hxa & _).
  assert (a' = a) as -> by congruence.
  apply refresh_ActiveAt_true in Hact as (_ & _ & Hlt).
  exists h, (TokenHash (issued_Record j)), a, (issued_Record j). rewrite Hs. simpl.
  split_and!; try done; try congruence.
  - by rewrite Hv.
  - rewrite Hv. apply lookup_insert_eq.
  - apply Hacc. lia.
  - intros w' Hr'. destruct (bearer_reachable_steps manager wf view w1 w' Hwf1 Hr') as [Hwf' _].
    apply (consumed_Refresh raw h w'); [done..|].
    apply (bearer_reachable_invariant manager wf view (consumed h) w1 w'); [|done..].
    intros s s' ?. by apply (consumed_step life).
Qed.

(** C21: reuse of a refresh token ends its session. On a store that answers,
    [Refresh] on a stored token that was already consumed or revoked reports
    [ErrReuseDetected], and afterwards the session of the token and all its
    refresh tokens are revoked. *)
Theorem Refresh_reuse_ends_session raw r w
  `{!RefreshAnswers (RefreshToken.store (refreshTokens manager)) wf view} :
  (forall i, rand_source i <> None) ->
  wf (ext w) -> bearer_inv life (abs w) ->
  HashToken raw = Ok (TokenHash r) -> tokens (abs w) !! TokenHash r = Some r ->
  validRecord r = true -> RotatedAt r <> None \/ RevokedAt r <> None ->
  exists err, fst (Refresh manager raw w) = Err err /\ errors_Is err ErrReuseDetected = true /\
    session_ended (SessionID r) (abs (snd (Refresh manager raw w))).
Proof.
  intros Hrand Hwf Hinv Hh Hr Hv Hused.
  assert (Hin : forall at_, ActiveAt r at_ = false).
  { intros at_. destruct Hused; [by apply refresh_ActiveAt_rotated|by apply refresh_ActiveAt_revoked]. }
  destruct (wp_Refresh_reuse manager wf view Hrand raw (TokenHash r) r w)
    as (err & He & Hreuse & at_ & Hv'); [done..|].
  exists err. split_and!; [done|done|]. rewrite Hv'. by eapply revoke_session_ended.
Qed.

Lemma session_over_Resolve id raw w :
  wf (ext w) -> session_over id (abs w) ->
  forall x, fst (Resolve manager raw w) = Ok x -> ID x <> id.
Proof.
  intros Hwf (a & Ha & Hrev) x E Hid.
  destruct (wp_bearer_Resolve manager wf view raw w Hwf) as (_ & _ & Hx).
  destruct (Hx x E) as (b & Hb & Hn & _). congruence.
Qed.

Lemma session_over_Refresh id raw w :
  wf (ext w) -> session_over id (abs w) ->
  forall i, fst (Refresh manager raw w) = Ok i -> ID (issued_Session i) <> id.
Proof.
  intros Hwf (a & Ha & Hrev) i E Hid.
  destruct (wp_bearer_Refresh manager wf view raw w Hwf) as [_ Hx]. rewrite E in Hx.
  destruct Hx as (j & b & _ & Hb & Hn & Hbid & Hs & _).
  rewrite Hs in Hid. simpl in Hid. rewrite <- Hbid in Hb. congruence.
Qed.

(** The calls that end the stored session [id]. *)
Definition ends (id : string) (a : AccessSession) (w w1 : World S) : Prop :=
  Revoke manager id w = (Ok tt, w1) \/
  RevokeByID manager (as_SubjectID a) id w = (Ok tt, w1) \/
  RevokeAll manager (as_SubjectID a) w = (Ok tt, w1).

Lemma ends_session_over id a w w1 :
  wf (ext w) -> sessions (abs w) !! id = Some a -> ends id a w w1 ->
  wf (ext w1) /\ session_over id (abs w1).
Proof.
  intros Hwf Ha Hends. pose proof (access_keyed w id a Hwf Ha) as Hid.
  assert (Hwhere : forall ids at_, ids a = true -> session_over id (revoke_where ids at_ (abs w))).
  { intros ids at_ Hi. exists (revoke_access at_ a). rewrite lookup_sessions_revoke, Ha. simpl.
    by rewrite Hi. }
  destruct Hends as [E|[E|E]].
  - destruct (wp_elim _ _ _ _ _ (wp_RevokeSessionID (refreshTokens manager) wf view id w Hwf) E)
      as [? [at_ ->]]. split; [done|]. apply Hwhere. rewrite Hid. apply String.eqb_refl.
  - destruct (wp_elim _ _ _ _ _ (wp_bearer_RevokeByID manager wf view _ id w Hwf) E)
      as [? (b & at_ & _ & _ & ->)]. split; [done|]. apply Hwhere. rewrite Hid. apply String.eqb_refl.
  - destruct (wp_elim _ _ _ _ _ (wp_bearer_RevokeAll manager wf view _ w Hwf) E) as [? [at_ ->]].
    split; [done|]. apply Hwhere, String.eqb_refl.
Qed.

(** Revocation of a bearer session is final: once [Revoke], [RevokeByID] or
    [RevokeAll] has succeeded on it, in no later history does an access token
    resolve to the session or a refresh token renew it. *)
Theorem revoked_bearer_session_is_over id a w w1 w' :
  wf (ext w) -> sessions (abs w) !! id = Some a -> ends id a w w1 ->
  bearer_reachable manager wf view w1 w' ->
  (forall raw x, fst (Resolve manager raw w') = Ok x -> ID x <> id) /\
  (forall raw i, fst (Refresh manager raw w') = Ok i -> ID (issued_Session i) <> id).
Proof.
  intros Hwf Ha E Hr. destruct (ends_session_over id a w w1 Hwf Ha E) as [Hwf1 Hover].
  destruct (bearer_reachable_steps manager wf view w1 w' Hwf1 Hr) as [Hwf' _].
  assert (Hover' : session_over id (abs w')).
  { apply (bearer_reachable_invariant manager wf view (session_over id) w1 w'); [|done..].
    intros s s' ?. by apply (session_over_step life). }
  split; intros; [by eapply session_over_Resolve|by eapply session_over_Refresh].
Qed.
End Properties.

(** ** Access tokens *)
Section AccessTokens.
Import AccessToken.
Context {S : Type} `{Env} `{JWT} (publicOfSeed : string -> string) `{!JWTLaws publicOfSeed}.

(** An access token is accepted only with a valid EdDSA signature by a
    configured key, named by its [kid], from the configured issuer and for the
    configured audience, before it expires, and for a session that the resolver
    returned, that belongs to the subject of the token and that is still live. *)
Theorem VerifySession_sound (verifier : Verifier S) raw w c s w' :
  VerifySession verifier raw w = (Ok (c, s), w') ->
  exists kid key exp w2,
    v_resolver verifier (SessionID c) (tick w) = (Ok s, w2) /\
    ParseUnverified raw = Some (mkParsed SigningMethodEdDSA (Some kid), c) /\
    v_publicKeys verifier !! kid = Some key /\ SignatureVerifies raw key = true /\
    Issuer c = v_issuer verifier /\ v_audience verifier ∈ Audience c /\
    ExpiresAt c = Some exp /\ (v_now verifier (ticks w) < exp + v_leeway verifier)%Z /\
    session_ID s = SessionID c /\ session_SubjectID s = Subject c /\ TrimSpace (Subject c) <> "" /\
    (v_now verifier (ticks w2) < session_ExpiresAt s)%Z.
Proof.
  intros E. refine (wp_elim _ (fun res _ => res = Ok (c, s) -> _) w _ w' _ E eq_refl). clear E.
  unfold VerifySession. wp_go; [done|done| |done].
  apply wp_run; intros [d|e] w1 Hres; wp_go; try done. intros [= -> ->]. go_bool. subst.
  apply ParseWithClaims_valid in Heqr as (tok & key & Hp & _ & Hk & Hsig & Hi & Ha & Hexp & _).
  simpl in *. unfold keyFor in Hk. destruct (String.eqb _ _) eqn:Hm; [|done].
  destruct tok as [m [kid|]]; [|done]. simpl in *. destruct (_ !! kid) as [k|] eqn:Hkey; [|done].
  injection Hk as ->. apply String.eqb_eq in Hm. subst m.
  destruct (ExpiresAt c) as [exp|] eqn:Hx; [|done]. unfold usableClaims in *. go_bool.
  apply Before_true in Heqb2. eauto 20.
Qed.

Lemma Truncate_seconds t : (Truncate t Second mod Second = 0)%Z.
Proof.
  unfold Truncate. rewrite (proj2 (Z.leb_gt Second 0)) by done.
  rewrite Zminus_mod_idemp_r, Z.sub_diag. done.
Qed.

Lemma Unix_mono t u : (t <= u)%Z -> (Unix t <= Unix u)%Z.
Proof. intros H'. unfold Unix. pose proof (Z.div_le_mono t u Second ltac:(done) H'). lia. Qed.

(** Claims as [issue] signs them survive the encoding. *)
Lemma issued_claims_encodable (iss : TokenIssuer) sub sid raw h now expires :
  Forall (fun x => ValidString x = true) [sub; sid; issuer iss; audience iss] ->
  HashToken raw = Ok h ->
  (now mod Second = 0)%Z -> (expires mod Second = 0)%Z -> (0 <= Unix now)%Z -> (now <= expires)%Z ->
  (Unix expires < 2 ^ 53)%Z ->
  encodable (issued_claims iss sub sid raw now expires).
Proof.
  intros Hutf Hraw Hn He Hun Hle Hux. pose proof (Unix_mono _ _ Hle).
  destruct (HashToken_Ok raw h Hraw) as (random & _ & -> & _).
  rewrite !Forall_cons_iff in Hutf. destruct Hutf as (? & ? & ? & ? & _).
  unfold issued_claims. rewrite !NewNumericDate_seconds by done.
  split; [|split; [by exists (audience iss)|]].
  - repeat constructor; try done. apply ValidString_printable, EncodeToString_printable.
  - split_and!; intros t [= <-]; (split; [done|lia]).
Qed.

(** An access token that [IssueUntil] signed is accepted by every verifier
    that holds its public key under its key ID, for the same issuer and audience,
    while the clock is between the issue and the expiry of the token and the
    session is live; and the claims it yields name the session and the subject. *)
Theorem issued_token_verifies (iss : TokenIssuer) (verifier : Verifier S) sub sid maximumExpiry
    (w : World S) i w1 (w2 : World S) s w3 :
  let now := Truncate (issuer_now iss (ticks w)) Second in
  key_pair publicOfSeed (privateKey iss) ->
  Forall (fun x => ValidString x = true) [sub; sid; issuer iss; audience iss; keyID iss] ->
  (lifetime iss mod Second = 0)%Z -> (0 <= Unix now)%Z -> (Unix (Add now (lifetime iss)) < 2 ^ 53)%Z ->
  IssueUntil iss sub sid maximumExpiry w = (Ok i, w1) ->
  0 < String.length (issued_Token i) <= maximumTokenLength ->
  v_issuer verifier = issuer iss -> v_audience verifier = audience iss ->
  v_publicKeys verifier !! keyID iss = Some (Public (privateKey iss)) -> (0 <= v_leeway verifier)%Z ->
  (now <= v_now verifier (ticks w2) < issued_ExpiresAt i)%Z ->
  v_resolver verifier sid (tick w2) = (Ok s, w3) ->
  session_ID s = sid -> session_SubjectID s = sub ->
  (v_now verifier (ticks w3) < session_ExpiresAt s)%Z ->
  exists c, fst (VerifySession verifier (issued_Token i) w2) = Ok (c, s) /\
    Subject c = sub /\ SessionID c = sid.
Proof.
  intros now Hkey Hutf Hlife Hun Hux E [Hlen0 Hlen] Hvi Hva Hvk Hlee [Hlo Hhi] Hres Hsid Hsub Hlive.
  destruct (wp_elim _ _ _ _ _ (wp_issue iss sub sid maximumExpiry w) E) as [_ Hi].
  destruct (Hi i eq_refl) as (Htsub & Htsid & [Hnow Hcap] & Hmax & Heq & raw & h & Hraw & Hsig).
  fold now in Hnow, Hcap, Heq, Hsig. clear Hi E.
  set (exp := issued_ExpiresAt i) in *. set (c := issued_claims iss sub sid raw now exp) in *.
  assert (Hnmod : (now mod Second = 0)%Z) by apply Truncate_seconds.
  assert (Hmod : (exp mod Second = 0)%Z).
  { destruct Heq as [->| ->]; [|apply Truncate_seconds]. unfold Add.
    by rewrite Z.add_mod, Hlife, Hnmod by done. }
  assert (Henc : encodable c).
  { eapply issued_claims_encodable; [|done..|lia|].
    - rewrite !Forall_cons_iff in *. naive_solver.
    - pose proof (Unix_mono _ _ Hcap). lia. }
  rewrite !Forall_cons_iff in Hutf. destruct Hutf as (_ & _ & _ & _ & Hkid & _).
  destruct (SignedString_parses _ _ _ _ Henc Hkid Hkey Hsig) as [Hparse Hver].
  exists c. split; [|done].
  assert (Hp : ParseWithClaims (issued_Token i) (keyFor verifier) (parserOptions verifier)
    (v_now verifier (ticks w2)) = Ok (c, true)).
  { apply ParseWithClaims_valid. exists (mkParsed SigningMethodEdDSA (Some (keyID iss))).
    exists (Public (privateKey iss)). unfold keyFor. simpl. rewrite Hvk.
    split_and!; try done; [by apply list_elem_of_singleton|].
    unfold claims_accepted, c, issued_claims; simpl. rewrite !NewNumericDate_seconds by done.
    split_and!; [done|rewrite Hva; by apply list_elem_of_singleton|lia|lia|lia]. }
  assert (Hu : usableClaims c = true).
  { unfold usableClaims, c, issued_claims; simpl.
    destruct (HashToken_Ok raw h Hraw) as (random & Hlenr & -> & _).
    rewrite (TrimSpace_printable (EncodeToString _ _)) by apply EncodeToString_printable.
    rewrite !(proj2 (String.eqb_neq _ _)); [done| |done|done].
    apply EncodeToString_nonempty. by intros ->. }
  unfold VerifySession. rewrite (proj2 (Nat.eqb_neq _ _)), (proj2 (Nat.ltb_ge _ _)) by lia.
  unfold bind, read_now, ret. cbn [orb]. rewrite Hp, Hu.
  change (SessionID c) with sid. change (Subject c) with sub. cbn [orb negb]. rewrite Hres.
  rewrite Hsid, Hsub, !String.eqb_refl. cbn [orb negb].
  unfold ActiveAt. by rewrite (proj2 (Before_true _ _) Hlive).
Qed.
End AccessTokens.

(** ** Runs of the theorems *)
Ltac bearer_ok E := exfalso; vm_compute in E; discriminate E.

Lemma bearer_sessions_invariant_witness :
  bearer_inv Hour (id (ext (bearer_run demo_bearer (BRefresh demo_refresh) bearer_after))).
Proof.
  destruct bearer_after_ok as [Hk Hi].
  apply (bearer_sessions_invariant demo_bearer bearer_keyed id bearer_after); [exact Hk|exact Hi|].
  apply bearer_call_step, bearer_here.
Defined.

Lemma Refresh_once_witness :
  exists i w1, Refresh demo_bearer demo_refresh bearer_after = (Ok i, w1) /\
    exists err, fst (Refresh demo_bearer demo_refresh w1) = Err err.
Proof.
  destruct bearer_after_ok as [Hk Hi].
  destruct (Refresh demo_bearer demo_refresh bearer_after) as [[i|e] w1] eqn:E; [|bearer_ok E].
  exists i, w1. split; [reflexivity|].
  destruct (Refresh_once demo_bearer bearer_keyed id demo_refresh bearer_after i w1 Hk Hi E)
    as (h & h' & a & r & _ & _ & _ & _ & _ & _ & _ & _ & _ & _ & _ & _ & _ & _ & Hlater).
  apply Hlater, bearer_here.
Defined.

(** The run after which the first refresh token is consumed. *)
Definition bearer_refreshed : World bearer_state :=
  bearer_run demo_bearer (BRefresh demo_refresh) bearer_after.

Lemma bearer_refreshed_reachable :
  bearer_reachable demo_bearer bearer_keyed id bearer_after bearer_refreshed.
Proof. unfold bearer_refreshed. apply bearer_call_step, bearer_here. Defined.

Lemma Refresh_reuse_ends_session_witness :
  exists err, fst (Refresh demo_bearer demo_refresh bearer_refreshed) = Err err /\
    errors_Is err ErrReuseDetected = true /\
    session_ended "A0190-7000" (id (ext (snd (Refresh demo_bearer demo_refresh bearer_refreshed)))).
Proof.
  destruct bearer_after_ok as [Hk Hi].
  pose proof bearer_refreshed_reachable as Hr.
  destruct (bearer_reachable_steps demo_bearer bearer_keyed id bearer_after bearer_refreshed Hk Hr)
    as [Hk' _].
  assert (Hi' : bearer_inv Hour (id (ext bearer_refreshed))).
  { apply (bearer_reachable_invariant demo_bearer bearer_keyed id (bearer_inv Hour)
      bearer_after bearer_refreshed); [|exact Hk|exact Hr|exact Hi].
    intros s s' Hs. exact (bearer_inv_step Hour s s' Hs). }
  destruct (HashToken demo_refresh) as [h|e] eqn:Hh; [|bearer_ok Hh].
  destruct (tokens (id (ext bearer_refreshed)) !! h) as [r|] eqn:Hl.
  - assert (Hfacts : TokenHash r = h /\ validRecord r = true /\ RotatedAt r <> None /\
      SessionID r = "A0190-7000").
    { vm_compute in Hh. injection Hh as <-. vm_compute in Hl. injection Hl as <-.
      split; [reflexivity|]. split; [reflexivity|]. split; [discriminate|reflexivity]. }
    destruct Hfacts as (Hrh & Hv & Hrot & Hsid). rewrite <- Hsid.
    apply (Refresh_reuse_ends_session demo_bearer bearer_keyed id demo_refresh r bearer_refreshed);
      [discriminate|exact Hk'|exact Hi'|rewrite Hrh; exact Hh|rewrite Hrh; exact Hl|exact Hv|left; exact Hrot].
  - exfalso. vm_compute in Hh. injection Hh as <-. vm_compute in Hl. discriminate Hl.
Defined.

Lemma revoked_bearer_session_is_over_witness :
  fst (Resolve demo_bearer demo_access bearer_after) <> Err AccessToken.ErrInactiveSession /\
  fst (Revoke demo_bearer "A0190-7000" bearer_after) = Ok tt /\
  forall x, fst (Resolve demo_bearer demo_access (snd (Revoke demo_bearer "A0190-7000" bearer_after))) = Ok x ->
    ID x <> "A0190-7000".
Proof.
  destruct bearer_after_ok as [Hk Hi]. split; [vm_compute; discriminate|].
  destruct (Revoke demo_bearer "A0190-7000" bearer_after) as [[[]|e] w1] eqn:E; [|bearer_ok E].
  split; [reflexivity|].
  destruct (sessions (id (ext bearer_after)) !! "A0190-7000") as [a|] eqn:Ha.
  - destruct (revoked_bearer_session_is_over demo_bearer bearer_keyed id "A0190-7000" a bearer_after w1 w1
      Hk Ha (or_introl E) (bearer_here _ _ _ _)) as [Hres _].
    apply Hres.
  - exfalso. vm_compute in Ha. discriminate Ha.
Defined.

Lemma VerifySession_sound_witness :
  exists c s, fst (AccessToken.VerifySession demo_verifier demo_access bearer_after) = Ok (c, s) /\
    AccessToken.session_ID s = AccessToken.SessionID c.
Proof.
  destruct (AccessToken.VerifySession demo_verifier demo_access bearer_after) as [[[c s]|e] w'] eqn:E;
    [|bearer_ok E].
  exists c, s. split; [reflexivity|].
  destruct (VerifySession_sound id demo_verifier demo_access bearer_after c s w' E)
    as (kid & key & exp & w2 & _ & _ & _ & _ & _ & _ & _ & _ & Hid & _).
  exact Hid.
Defined.

Lemma issued_token_verifies_witness :
  exists i w1 c, AccessToken.IssueUntil (issuer demo_bearer) "alice" "A0190-7000" 0%Z bearer_after = (Ok i, w1) /\
    fst (AccessToken.VerifySession demo_verifier (AccessToken.issued_Token i) w1) =
      Ok (c, AccessToken.mkSession "A0190-7000" "alice" demo_epoch (demo_epoch + Hour)%Z).
Proof.
  destruct (AccessToken.IssueUntil (issuer demo_bearer) "alice" "A0190-7000" 0%Z bearer_after)
    as [[i|e] w1] eqn:E; [|bearer_ok E].
  destruct (AccessToken.v_resolver demo_verifier "A0190-7000" (tick w1)) as [[s|e] w3] eqn:Hs.
  2: { exfalso. vm_compute in E. injection E as _ <-. vm_compute in Hs. discriminate Hs. }
  assert (Hfacts : s = AccessToken.mkSession "A0190-7000" "alice" demo_epoch (demo_epoch + Hour)%Z /\
    (ticks w1 = 3 /\ ticks w3 = 4) /\
    0 < String.length (AccessToken.issued_Token i) <= AccessToken.maximumTokenLength /\
    AccessToken.issued_ExpiresAt i = (demo_epoch + 62 * Second)%Z).
  { vm_compute in E. injection E as <- <-. vm_compute in Hs. injection Hs as <- <-.
    split; [reflexivity|]. split; [split; reflexivity|]. split; [|reflexivity].
    split; [apply Nat.ltb_lt|apply Nat.leb_le]; vm_compute; reflexivity. }
  destruct Hfacts as (-> & [Ht1 Ht3] & Hlen & Hexp).
  destruct (issued_token_verifies id (issuer demo_bearer) demo_verifier "alice" "A0190-7000" 0%Z
    bearer_after i w1 w1 (AccessToken.mkSession "A0190-7000" "alice" demo_epoch (demo_epoch + Hour)%Z) w3)
    as (c & Hc & _).
  - exists demo_seed. repeat split; reflexivity.
  - repeat constructor.
  - reflexivity.
  - vm_compute; discriminate.
  - vm_compute; reflexivity.
  - exact E.
  - exact Hlen.
  - reflexivity.
  - reflexivity.
  - reflexivity.
  - vm_compute; discriminate.
  - rewrite Ht1, Hexp. split; vm_compute; congruence.
  - exact Hs.
  - reflexivity.
  - reflexivity.
  - rewrite Ht3. vm_compute; reflexivity.
  - exists i, w1, c. split; [reflexivity|exact Hc].
Defined.
