(* ===== verification/Password.v ===== *)
(** * Package [password] (password/password.go)

    Password hashes: Argon2id by default, bcrypt for compatibility. The two hash
    functions of golang.org/x/crypto are parameters ([PasswordHashes]); the
    encoding of Argon2id hashes, its parser and its limits are modelled. *)
From S2P Require Import Prelude GoText Base64.

Definition Algorithm : Type := string.
Definition Argon2id : Algorithm := "argon2id".
Definition Bcrypt : Algorithm := "bcrypt".
Definition DefaultAlgorithm : Algorithm := Argon2id.
Definition BcryptMaximumPasswordLength : nat := 72.

(** [argon2.Version] is 0x13. *)
Definition argon2Version : N := 19.
Definition argon2Memory : N := 19 * 1024.
Definition argon2Iterations : N := 2.
Definition argon2Parallelism : N := 1.
Definition argon2SaltLength : nat := 16.
Definition argon2KeyLength : N := 32.
Definition bcryptCost : Z := 12.

Definition maximumEncodedLength : nat := 512.
Definition maximumArgon2Memory : N := 256 * 1024.
Definition maximumArgon2Iterations : N := 10.
Definition maximumArgon2Parallelism : N := 16.
Definition maximumArgon2SaltLength : nat := 64.
Definition maximumArgon2KeyLength : nat := 64.

Definition ErrInvalidHash : error := New "password.ErrInvalidHash".
Definition ErrPasswordTooLong : error := New "password.ErrPasswordTooLong".
Definition ErrUnsupportedAlgorithm : error := New "password.ErrUnsupportedAlgorithm".

Record Verification : Type := mkVerification { Matches : bool; NeedsRehash : bool }.

Record argon2Parameters : Type := mkParameters {
  memory : N;
  iterations : N;
  parallelism : N;
  salt : string;
  key : string;
}.

(** ** golang.org/x/crypto *)
Definition bcrypt_ErrPasswordTooLong : error := New "bcrypt.ErrPasswordTooLong".
Definition bcrypt_ErrMismatchedHashAndPassword : error := New "bcrypt.ErrMismatchedHashAndPassword".

Class PasswordHashes := {
  (* password, salt, time, memory, threads, keyLen *)
  argon2_IDKey : string -> string -> N -> N -> N -> N -> string;
  (* password, cost, and a read of the random source *)
  bcrypt_GenerateFromPassword : string -> Z -> option (nat -> ascii) -> result string;
  bcrypt_CompareHashAndPassword : string -> string -> result unit;
  bcrypt_Cost : string -> result Z;
}.

(** ** Parsing *)

(** The loop of [parseArgon2Parameters] over ["key=value"] texts. *)
Fixpoint parse_pairs (values : list string) (parsed : gmap string N) : option (gmap string N) :=
  match values with
  | [] => Some parsed
  | value :: values' =>
      match Cut value "=" with
      | None => None
      | Some (key, raw) =>
          if String.eqb key "" || String.eqb raw "" then None else
          match parsed !! key with
          | Some _ => None
          | None =>
              match ParseUint raw 32 with
              | None => None
              | Some number => parse_pairs values' (<[key := number]> parsed)
              end
          end
      end
  end.

(** The results are narrowed to [uint32], [uint32] and [uint8]. *)
Definition parseArgon2Parameters (encoded : string) : result (N * N * N) :=
  let values := Split encoded "," in
  if negb (length values =? 3)%nat then Err ErrInvalidHash else
  match parse_pairs values ∅ with
  | None => Err ErrInvalidHash
  | Some parsed =>
      match parsed !! "m", parsed !! "t", parsed !! "p" with
      | Some memoryValue, Some iterationValue, Some parallelismValue =>
          if negb (size parsed =? 3)%nat then Err ErrInvalidHash else
          if (memoryValue =? 0)%N || (maximumArgon2Memory <? memoryValue)%N ||
             (iterationValue =? 0)%N || (maximumArgon2Iterations <? iterationValue)%N ||
             (parallelismValue =? 0)%N || (maximumArgon2Parallelism <? parallelismValue)%N
          then Err ErrInvalidHash
          else Ok (memoryValue mod 2 ^ 32, iterationValue mod 2 ^ 32, parallelismValue mod 2 ^ 8)%N
      | _, _, _ => Err ErrInvalidHash
      end
  end.

(** A strict base64 field of 1 to [maximum] bytes. *)
Definition decode_field (encoded : string) (maximum : nat) : option string :=
  match DecodeString StdAlphabet encoded with
  | Some bytes =>
      if (String.length bytes =? 0)%nat || (maximum <? String.length bytes)%nat
      then None else Some bytes
  | None => None
  end.

Definition parseArgon2id (encodedHash : string) : result argon2Parameters :=
  if (String.length encodedHash =? 0)%nat || (maximumEncodedLength <? String.length encodedHash)%nat
  then Err ErrInvalidHash else
  match Split encodedHash "$" with
  | [p0; p1; p2; p3; p4; p5] =>
      if negb (String.eqb p0 "") || negb (String.eqb p1 Argon2id) then Err ErrInvalidHash else
      match CutPrefix p2 "v=" with
      | None => Err ErrInvalidHash
      | Some encodedVersion =>
          match ParseUint encodedVersion 32 with
          | None => Err ErrInvalidHash
          | Some parsedVersion =>
              if negb (parsedVersion =? argon2Version)%N then Err ErrInvalidHash else
              match parseArgon2Parameters p3 with
              | Err err => Err err
              | Ok (memoryValue, iterationValue, parallelismValue) =>
                  match decode_field p4 maximumArgon2SaltLength, decode_field p5 maximumArgon2KeyLength with
                  | Some salt, Some key =>
                      Ok (mkParameters memoryValue iterationValue parallelismValue salt key)
                  | _, _ => Err ErrInvalidHash
                  end
              end
          end
      end
  | _ => Err ErrInvalidHash
  end.

Definition supported (algorithm : Algorithm) : bool :=
  String.eqb algorithm Argon2id || String.eqb algorithm Bcrypt.

Definition identify (encodedHash : string) : Algorithm :=
  if HasPrefix encodedHash "$argon2id$" then Argon2id else
  if HasPrefix encodedHash "$2a$" || HasPrefix encodedHash "$2b$" || HasPrefix encodedHash "$2y$"
  then Bcrypt else "".

(** ** Hashing and verification *)
Section Operations.
Context {S : Type} `{Env} `{PasswordHashes}.

Definition encodeArgon2id (salt key : string) : string :=
  "$argon2id$v=" +:+ format_uint argon2Version +:+ "$m=" +:+ format_uint argon2Memory +:+
  ",t=" +:+ format_uint argon2Iterations +:+ ",p=" +:+ format_uint argon2Parallelism +:+
  "$" +:+ EncodeToString StdAlphabet salt +:+ "$" +:+ EncodeToString StdAlphabet key.

Definition hashArgon2id (plainPassword : string) : M S (result string) :=
  salt <-? wrapped "generate password salt: %w" (rand_Read argon2SaltLength) ;;
  let key := argon2_IDKey plainPassword salt argon2Iterations argon2Memory argon2Parallelism
               argon2KeyLength in
  ret (Ok (encodeArgon2id salt key)).

Definition HashWithAlgorithm (plainPassword : string) (algorithm : Algorithm) : M S (result string) :=
  if String.eqb algorithm Argon2id then hashArgon2id plainPassword else
  if String.eqb algorithm Bcrypt then
    fun w =>
      (match bcrypt_GenerateFromPassword plainPassword bcryptCost (rand_source (draws w)) with
       | Err err => if errors_Is err bcrypt_ErrPasswordTooLong then Err ErrPasswordTooLong
                    else Err (Errorf "hash password with bcrypt: %w" [err])
       | Ok encodedHash => Ok encodedHash
       end, draw w)
  else ret (Err (Errorf "%w: %q" [ErrUnsupportedAlgorithm])).

Definition Hash (plainPassword : string) : M S (result string) :=
  HashWithAlgorithm plainPassword DefaultAlgorithm.

Definition verifyArgon2id (plainPassword encodedHash : string) : result Verification :=
  match parseArgon2id encodedHash with
  | Err err => Err err
  | Ok parsed =>
      let candidate := argon2_IDKey plainPassword (salt parsed) (iterations parsed) (memory parsed)
                         (parallelism parsed) (N.of_nat (String.length (key parsed)) mod 2 ^ 32)%N in
      let matches := String.eqb candidate (key parsed) in
      Ok (mkVerification matches
            (matches && (negb (memory parsed =? argon2Memory)%N ||
                         negb (iterations parsed =? argon2Iterations)%N ||
                         negb (parallelism parsed =? argon2Parallelism)%N ||
                         negb (String.length (salt parsed) =? argon2SaltLength)%nat ||
                         negb (N.of_nat (String.length (key parsed)) =? argon2KeyLength)%N)))
  end.

Definition verifyBcrypt (plainPassword encodedHash : string) (preferredAlgorithm : Algorithm) :
    result Verification :=
  match bcrypt_CompareHashAndPassword encodedHash plainPassword with
  | Err err =>
      if errors_Is err bcrypt_ErrMismatchedHashAndPassword
      then Ok (mkVerification false false) else Err ErrInvalidHash
  | Ok _ =>
      match bcrypt_Cost encodedHash with
      | Err _ => Err ErrInvalidHash
      | Ok cost =>
          Ok (mkVerification true
                (negb (String.eqb preferredAlgorithm Bcrypt) || negb (cost =? bcryptCost)%Z))
      end
  end.

Definition VerifyWithAlgorithm (plainPassword encodedHash : string) (preferredAlgorithm : Algorithm) :
    result Verification :=
  if negb (supported preferredAlgorithm) then Err (Errorf "%w: %q" [ErrUnsupportedAlgorithm]) else
  let algorithm := identify encodedHash in
  if String.eqb algorithm Argon2id then
    match verifyArgon2id plainPassword encodedHash with
    | Err err => Err err
    | Ok verification =>
        if String.eqb preferredAlgorithm Bcrypt
        then Ok (mkVerification (Matches verification) false) else Ok verification
    end
  else if String.eqb algorithm Bcrypt
  then verifyBcrypt plainPassword encodedHash preferredAlgorithm
  else Err ErrInvalidHash.

Definition Verify (plainPassword encodedHash : string) : result Verification :=
  VerifyWithAlgorithm plainPassword encodedHash DefaultAlgorithm.
End Operations.

(** ** What golang.org/x/crypto documents *)
Class PasswordHashLaws `{PasswordHashes} : Prop := {
  IDKey_length password salt t m p keyLen : (1 <= t)%N -> (1 <= p)%N ->
    String.length (argon2_IDKey password salt t m p keyLen) = N.to_nat keyLen;
  bcrypt_Generate_ok password cost random h :
    bcrypt_GenerateFromPassword password cost random = Ok h ->
    bcrypt_CompareHashAndPassword h password = Ok tt /\ bcrypt_Cost h = Ok cost /\
    HasPrefix h "$2a$" = true;
  bcrypt_too_long password cost random : BcryptMaximumPasswordLength < String.length password ->
    bcrypt_GenerateFromPassword password cost random = Err bcrypt_ErrPasswordTooLong;
}.

(** ** Facts about the parser *)
Lemma parseArgon2Parameters_default :
  parseArgon2Parameters ("m=" +:+ format_uint argon2Memory +:+ ",t=" +:+ format_uint argon2Iterations
    +:+ ",p=" +:+ format_uint argon2Parallelism) = Ok (argon2Memory, argon2Iterations, argon2Parallelism).
Proof. vm_compute. reflexivity. Qed.

Lemma parseArgon2Parameters_bounds encoded m t p :
  parseArgon2Parameters encoded = Ok (m, t, p) ->
  (1 <= m <= maximumArgon2Memory /\ 1 <= t <= maximumArgon2Iterations /\
   1 <= p <= maximumArgon2Parallelism)%N.
Proof.
  unfold parseArgon2Parameters. destruct (negb _); [done|].
  destruct (parse_pairs _ _) as [parsed|]; [|done].
  destruct (parsed !! "m") as [m'|], (parsed !! "t") as [t'|], (parsed !! "p") as [p'|]; try done.
  destruct (negb _); [done|]. destruct (_ || _) eqn:Hb; [done|]. intros [= <- <- <-].
  repeat match goal with H : _ || _ = false |- _ => apply orb_false_iff in H as [? ?] end.
  repeat match goal with
  | H : (_ =? _)%N = false |- _ => apply N.eqb_neq in H
  | H : (_ <? _)%N = false |- _ => apply N.ltb_ge in H
  end.
  unfold maximumArgon2Memory, maximumArgon2Iterations, maximumArgon2Parallelism in *.
  rewrite !N.mod_small by lia. lia.
Qed.

Lemma decode_field_ok encoded maximum bytes :
  decode_field encoded maximum = Some bytes -> 1 <= String.length bytes <= maximum.
Proof.
  unfold decode_field. destruct (DecodeString _ _); [|done].
  destruct (_ || _) eqn:Hb; [done|]. intros [= <-]. go_bool.
  apply Nat.eqb_neq in H. apply Nat.ltb_ge in H0. lia.
Qed.

Lemma decode_field_encode bytes maximum :
  1 <= String.length bytes <= maximum ->
  decode_field (EncodeToString StdAlphabet bytes) maximum = Some bytes.
Proof.
  intros Hlen. unfold decode_field. rewrite DecodeString_EncodeToString.
  rewrite (proj2 (Nat.eqb_neq _ _)), (proj2 (Nat.ltb_ge _ _)) by lia. done.
Qed.

(** The limits on what a stored hash can ask the hash function to do. *)
Definition within_limits (p : argon2Parameters) : Prop :=
  (1 <= memory p <= maximumArgon2Memory /\ 1 <= iterations p <= maximumArgon2Iterations /\
   1 <= parallelism p <= maximumArgon2Parallelism)%N /\
  1 <= String.length (salt p) <= maximumArgon2SaltLength /\
  1 <= String.length (key p) <= maximumArgon2KeyLength.

Lemma parseArgon2id_limits encodedHash p : parseArgon2id encodedHash = Ok p -> within_limits p.
Proof.
  unfold parseArgon2id. destruct (_ || _); [done|].
  destruct (Split encodedHash "$") as [|p0 [|p1 [|p2 [|p3 [|p4 [|p5 [|]]]]]]]; try done.
  destruct (_ || _); [done|]. destruct (CutPrefix _ _); [|done]. destruct (ParseUint _ _); [|done].
  destruct (negb _); [done|]. destruct (parseArgon2Parameters p3) as [[[m t] q]|] eqn:Hp; [|done].
  destruct (decode_field p4 _) eqn:Hs; [|done]. destruct (decode_field p5 _) eqn:Hk; [|done].
  intros [= <-]. apply parseArgon2Parameters_bounds in Hp.
  apply decode_field_ok in Hs, Hk. done.
Qed.

(** What [hashArgon2id] writes is parsed back. *)
Lemma parse_encodeArgon2id s k :
  1 <= String.length s <= maximumArgon2SaltLength -> 1 <= String.length k <= maximumArgon2KeyLength ->
  parseArgon2id (encodeArgon2id s k) =
    Ok (mkParameters argon2Memory argon2Iterations argon2Parallelism s k).
Proof.
  intros Hs Hk. unfold parseArgon2id.
  set (params := "m=" +:+ format_uint argon2Memory +:+ ",t=" +:+ format_uint argon2Iterations
    +:+ ",p=" +:+ format_uint argon2Parallelism).
  assert (Hshape : encodeArgon2id s k =
    "" +:+ String "$" ("argon2id" +:+ String "$" ("v=19" +:+ String "$" (params +:+
      String "$" (EncodeToString StdAlphabet s +:+ String "$" (EncodeToString StdAlphabet k)))))).
  { reflexivity. }
  assert (Hlen : String.length (encodeArgon2id s k) <= maximumEncodedLength).
  { rewrite Hshape. rewrite !length_app_string. simpl.
    rewrite !length_app_string. simpl. rewrite !length_EncodeToString.
    unfold maximumArgon2SaltLength, maximumArgon2KeyLength, maximumEncodedLength in *.
    pose proof (Nat.Div0.div_le_mono (4 * String.length s + 2) 258 3).
    pose proof (Nat.Div0.div_le_mono (4 * String.length k + 2) 258 3).
    change (258 / 3) with 86 in *. lia. }
  rewrite (proj2 (Nat.ltb_ge _ _) Hlen). rewrite Hshape at 1. simpl (_ =? 0). cbn [orb].
  rewrite Hshape, !Split_cons, Split_last by (apply EncodeToString_no_dollar || reflexivity).
  change (CutPrefix "v=19" "v=") with (Some "19"). change (ParseUint "19" 32) with (Some 19%N).
  unfold params. rewrite parseArgon2Parameters_default, !decode_field_encode by done. done.
Qed.

(** ** A reference pair of hash functions, for the examples *)
Definition reference_key (n : nat) (text : string) : string :=
  string_of_list (take n (list_of_string text ++ repeat "="%char n)).

Definition reference_bcrypt (password : string) : string :=
  "$2a$12$" +:+ EncodeToString StdAlphabet password.

#[export] Instance reference_hashes : PasswordHashes := {|
  argon2_IDKey password salt _ _ _ keyLen := reference_key (N.to_nat keyLen) (password +:+ salt);
  bcrypt_GenerateFromPassword password cost _ :=
    if (BcryptMaximumPasswordLength <? String.length password)%nat
    then Err bcrypt_ErrPasswordTooLong else
    if (cost =? bcryptCost)%Z then Ok (reference_bcrypt password) else Err (New "bcrypt.InvalidCostError");
  bcrypt_CompareHashAndPassword h password :=
    if String.eqb h (reference_bcrypt password) then Ok tt
    else Err bcrypt_ErrMismatchedHashAndPassword;
  bcrypt_Cost h := if HasPrefix h "$2a$12$" then Ok bcryptCost else Err (New "bcrypt.ErrHashTooShort");
|}.

#[export] Instance reference_hash_laws : PasswordHashLaws.
Proof.
  split.
  - intros. simpl. unfold reference_key. rewrite length_string_of_list, length_take, length_app, repeat_length.
    lia.
  - intros password cost random h. simpl. destruct (_ <? _)%nat; [done|].
    destruct (Z.eqb_spec cost bcryptCost) as [->|]; [|done]. intros [= <-].
    rewrite String.eqb_refl. unfold reference_bcrypt. simpl.
    by destruct (EncodeToString StdAlphabet password).
  - intros. simpl. by rewrite (proj2 (Nat.ltb_lt _ _)).
Qed.

(** ** Properties *)
Section Properties.
Context {S : Type} `{Env} `{PasswordHashLaws}.

Lemma hashArgon2id_Ok password (w : World S) h w' :
  hashArgon2id password w = (Ok h, w') ->
  exists s, String.length s = argon2SaltLength /\
    h = encodeArgon2id s (argon2_IDKey password s argon2Iterations argon2Memory argon2Parallelism
          argon2KeyLength).
Proof.
  intros E. refine (wp_elim _ (fun res _ => res = Ok h -> _) w _ w' _ E eq_refl). clear E.
  unfold hashArgon2id. wp_go; [|done]. intros Hh.
  exists (string_of_list (f <$> seq 0 argon2SaltLength)). split; [|congruence].
  by rewrite length_string_of_list, length_fmap, length_seq.
Qed.

Lemma HashWithAlgorithm_verifies password algorithm (w : World S) h w' :
  HashWithAlgorithm password algorithm w = (Ok h, w') ->
  VerifyWithAlgorithm password h algorithm = Ok (mkVerification true false).
Proof.
  unfold HashWithAlgorithm, VerifyWithAlgorithm, supported.
  destruct (String.eqb_spec algorithm Argon2id) as [->|Hna].
  - intros E. destruct (hashArgon2id_Ok _ _ _ _ E) as (s & Hs & ->).
    set (k := argon2_IDKey _ _ _ _ _ _).
    assert (Hk : String.length k = 32) by (unfold k; by rewrite IDKey_length).
    change (identify _) with Argon2id. simpl. unfold verifyArgon2id.
    rewrite parse_encodeArgon2id by (rewrite ?Hs, ?Hk; vm_compute; lia). simpl.
    rewrite Hs, Hk. change (N.of_nat 32 mod 2 ^ 32)%N with argon2KeyLength.
    fold k. by rewrite String.eqb_refl.
  - destruct (String.eqb_spec algorithm Bcrypt) as [->|]; [|done]. simpl.
    destruct (bcrypt_GenerateFromPassword _ _ _) as [enc|e] eqn:Hg; [|by destruct (errors_Is e _)].
    intros [= <- _]. destruct (bcrypt_Generate_ok _ _ _ _ Hg) as (Hc & Hcost & Hp).
    unfold identify, verifyBcrypt. rewrite Hp, Hc, Hcost. simpl.
    assert (Hna2 : HasPrefix enc "$argon2id$" = false).
    { destruct enc as [|c [|b enc]]; cbn [HasPrefix] in *; [done|by rewrite andb_false_r|].
      destruct (Ascii.eqb "$" c); [|done]. destruct (Ascii.eqb_spec "2" b) as [<-|]; done. }
    by rewrite Hna2.
Qed.

Lemma encodeArgon2id_printable s k :
  Forall (fun a => printable a = true) (list_of_string (encodeArgon2id s k)).
Proof.
  assert (Happ : forall x y, Forall (fun a => printable a = true) (list_of_string x) ->
    Forall (fun a => printable a = true) (list_of_string y) ->
    Forall (fun a => printable a = true) (list_of_string (x +:+ y))).
  { intros x y Hx Hy. induction x as [|a x IH]; [done|]. apply Forall_cons_1 in Hx as [? ?].
    simpl. constructor; auto. }
  unfold encodeArgon2id. repeat apply Happ; try apply EncodeToString_printable; repeat constructor.
Qed.

(** The default hasher: its hashes verify, are not blank, and need nothing but
    the random source. *)
Lemma wp_Hash password (w : World S) :
  wp (Hash password) (fun res w' => (ext w' = ext w /\ ticks w' = ticks w) /\
    forall h, res = Ok h -> Verify password h = Ok (mkVerification true false) /\ TrimSpace h <> "") w.
Proof.
  assert (He : wp (S := S) (Hash password) (fun _ w' => ext w' = ext w /\ ticks w' = ticks w) w).
  { unfold Hash, HashWithAlgorithm. change (String.eqb DefaultAlgorithm Argon2id) with true.
    unfold hashArgon2id. by wp_go. }
  apply wp_run. intros res w' E. unfold wp in He. rewrite E in He. split; [exact He|].
  intros h ->. split; [by eapply HashWithAlgorithm_verifies|].
  unfold Hash, HashWithAlgorithm in E. change (String.eqb DefaultAlgorithm Argon2id) with true in E.
  destruct (hashArgon2id_Ok _ _ _ _ E) as (s & _ & ->).
  rewrite TrimSpace_printable by apply encodeArgon2id_printable. done.
Qed.

(** C36: a password verifies against the hash that was made of it, with either
    algorithm, and the hash needs no replacement as long as the algorithm stays
    the preferred one. *)
Theorem Verify_Hash password algorithm (w : World S) h w' :
  HashWithAlgorithm password algorithm w = (Ok h, w') ->
  VerifyWithAlgorithm password h algorithm = Ok (mkVerification true false).
Proof. apply HashWithAlgorithm_verifies. Qed.
End Properties.

(** C35: verification of an Argon2id hash accepts exactly the passwords whose
    derived key is the stored key, and whatever text is stored, the parameters
    it makes the hash function use stay within the limits. *)
Theorem verify_argon2id_exact `{PasswordHashes} password encodedHash preferred v :
  identify encodedHash = Argon2id ->
  VerifyWithAlgorithm password encodedHash preferred = Ok v ->
  exists p, parseArgon2id encodedHash = Ok p /\ within_limits p /\
    (Matches v = true <->
     argon2_IDKey password (salt p) (iterations p) (memory p) (parallelism p)
       (N.of_nat (String.length (key p))) = key p).
Proof.
  intros Hid. unfold VerifyWithAlgorithm. destruct (negb _); [done|]. rewrite Hid. simpl.
  unfold verifyArgon2id. destruct (parseArgon2id encodedHash) as [p|] eqn:Hp; [|done].
  pose proof (parseArgon2id_limits _ _ Hp) as Hl. intros Hv. exists p. split_and!; [done|done|].
  destruct Hl as (_ & _ & Hk). unfold maximumArgon2KeyLength in Hk.
  rewrite N.mod_small in Hv by lia. rewrite <- String.eqb_eq.
  by destruct (String.eqb preferred Bcrypt); injection Hv as <-.
Qed.

(** Replacing hashes on sign-in only moves towards Argon2id: a hash is
    replaced only after its password matched, an Argon2id hash is never replaced
    when bcrypt is preferred, and a matching bcrypt hash always is when Argon2id
    is preferred. *)
Theorem rehash_never_downgrades `{PasswordHashes} password encodedHash preferred v :
  VerifyWithAlgorithm password encodedHash preferred = Ok v ->
  (NeedsRehash v = true -> Matches v = true /\ ~ (preferred = Bcrypt /\ identify encodedHash = Argon2id)) /\
  (preferred = Argon2id -> identify encodedHash = Bcrypt -> Matches v = true -> NeedsRehash v = true).
Proof.
  unfold VerifyWithAlgorithm, supported. destruct (String.eqb_spec preferred Argon2id) as [->|Hpa];
    [|destruct (String.eqb_spec preferred Bcrypt) as [->|]; [|done]]; simpl.
  - destruct (String.eqb_spec (identify encodedHash) Argon2id) as [Hi|Hi].
    + unfold verifyArgon2id. destruct (parseArgon2id _); [|done]. intros [= <-]. simpl.
      rewrite Hi. split; [|done]. intros [? _]%andb_true_iff. split; [done|]. by intros [? _].
    + destruct (String.eqb_spec (identify encodedHash) Bcrypt) as [Hb|]; [|done].
      unfold verifyBcrypt. destruct (bcrypt_CompareHashAndPassword _ _) as [|e].
      * destruct (bcrypt_Cost _); [|done]. intros [= <-]. simpl. split; [|done]. by split; [|intros [? _]].
      * destruct (errors_Is _ _); [|done]. by intros [= <-].
  - destruct (String.eqb_spec (identify encodedHash) Argon2id) as [Hi|Hi].
    + unfold verifyArgon2id. destruct (parseArgon2id _); [|done]. by intros [= <-].
    + destruct (String.eqb_spec (identify encodedHash) Bcrypt) as [Hb|]; [|done].
      unfold verifyBcrypt. destruct (bcrypt_CompareHashAndPassword _ _) as [|e].
      * destruct (bcrypt_Cost _); [|done]. intros [= <-]. simpl. split; [|done]. intros _. split; [done|].
        by intros [_ ?].
      * destruct (errors_Is _ _); [|done]. by intros [= <-].
Qed.

(** ** Runs of the theorems *)
Definition demo_password : string := "correct horse battery staple".
Definition demo_hash : string :=
  match fst (Hash demo_password (demo_world tt)) with Ok h => h | Err _ => EmptyString end.

Lemma Verify_Hash_witness :
  VerifyWithAlgorithm demo_password demo_hash Argon2id = Ok (mkVerification true false) /\
  VerifyWithAlgorithm "wrong" demo_hash Argon2id = Ok (mkVerification false false).
Proof.
  split; [|vm_compute; reflexivity].
  apply (Verify_Hash demo_password Argon2id (demo_world tt) demo_hash (draw (demo_world tt))).
  vm_compute. reflexivity.
Defined.

Lemma verify_argon2id_exact_witness :
  exists p, parseArgon2id demo_hash = Ok p /\ within_limits p.
Proof.
  destruct (verify_argon2id_exact demo_password demo_hash Argon2id (mkVerification true false))
    as (p & Hp & Hl & _).
  - vm_compute. reflexivity.
  - vm_compute. reflexivity.
  - exists p. split; assumption.
Defined.

Lemma rehash_never_downgrades_witness :
  NeedsRehash (mkVerification true true) = true /\
  identify (reference_bcrypt demo_password) = Bcrypt /\
  Matches (mkVerification true true) = true.
Proof.
  destruct (rehash_never_downgrades demo_password (reference_bcrypt demo_password) Argon2id
    (mkVerification true true)) as [_ Hup].
  - vm_compute. reflexivity.
  - split; [apply Hup; vm_compute; reflexivity|]. split; vm_compute; reflexivity.
Defined.
