(* ===== verification/EmailAddress.v ===== *)
(** * Package [emailaddress] (emailaddress/emailaddress.go)

    Normal forms of email identities. [net/mail.ParseAddress] is modelled as far
    as the comparison of its result with its input can tell. *)
From S2P Require Import Prelude GoText.

Definition maximumLength : nat := 254.

Definition ErrInvalid : error := New "emailaddress.ErrInvalid".

(** The parts of Go's standard library that are tables or numeric syntax:
    [unicode.ToLower] over the code points of a string that is not ASCII, and
    whether [net.ParseIP] accepts a text. *)
Class GoTables := {
  unicode_ToLower : string -> string;
  net_ParseIP : string -> bool;
}.

(** [strings.ToLower] works on bytes when the string is ASCII. *)
Definition ToLower `{GoTables} (s : string) : string :=
  if is_ascii_string s then string_of_list (lower_byte <$> list_of_string s)
  else unicode_ToLower s.

(** ** [net/mail] *)

(** [isAtext] with dots allowed, on valid UTF-8: bytes from 128 on only occur in
    multibyte characters, which are all accepted. *)
Definition is_special (a : ascii) : bool :=
  byte_occurs a (String "(" (String ")" (String "<" (String ">" (String "[" (String "]"
    (String ":" (String ";" (String "@" (String "092" (String "," (String "034" EmptyString)))))))))))).

Definition is_atext (a : ascii) : bool := (printable a || byte_in 128 255 a) && negb (is_special a).

Fixpoint double_dot (s : string) : bool :=
  match s with
  | String a s' => HasPrefix s ".." || double_dot s'
  | EmptyString => false
  end.

Definition HasSuffix (s p : string) : bool :=
  HasPrefix (string_of_list (rev (list_of_string s))) (string_of_list (rev (list_of_string p))).

(** An atom with dots, as [consumeAtom(true, false)] takes the whole of [s]. *)
Definition dot_atom (s : string) : bool :=
  negb (String.eqb s "") && forallb is_atext (list_of_string s) &&
  negb (HasPrefix s "." || double_dot s || HasSuffix s ".").

(** A domain literal, as [consumeDomainLiteral] takes the whole of [s]. *)
Definition domain_literal `{GoTables} (s : string) : bool :=
  match CutPrefix s "[" with
  | None => false
  | Some rest =>
      match Cut rest "]" with
      | Some (dtext, EmptyString) =>
          forallb (fun a => (printable a || byte_in 128 255 a) &&
                            negb (byte_occurs a (String "[" (String "]" (String "092" EmptyString)))))
            (list_of_string dtext) && net_ParseIP dtext
      | _ => false
      end
  end.

(** Whether [mail.ParseAddress(s)] succeeds with an [Address] equal to [s]. The
    address of a display name, a group, a comment, a quoted local part or a
    domain after white space is always shorter than the text it was parsed
    from, so only a bare local part and domain can be equal to it. *)
Definition ParseAddress_self `{GoTables} (s : string) : bool :=
  match Cut s "@" with
  | None => false
  | Some (local, domain) => dot_atom local && (dot_atom domain || domain_literal domain)
  end.

(** ** The package *)
Definition Normalizer : Type := string -> result string.

Definition Valid `{GoTables} (normalizedEmail : string) : bool :=
  if String.eqb normalizedEmail "" || negb (String.eqb normalizedEmail (TrimSpace normalizedEmail)) ||
     (maximumLength <? String.length normalizedEmail)%nat || negb (ValidString normalizedEmail)
  then false
  else ParseAddress_self normalizedEmail.

Definition Normalize `{GoTables} : Normalizer := fun rawEmail =>
  let normalizedEmail := ToLower (TrimSpace rawEmail) in
  if negb (Valid normalizedEmail) then Err ErrInvalid else Ok normalizedEmail.

(** ** Examples *)
#[export] Instance ascii_tables : GoTables := {|
  unicode_ToLower s := s;
  net_ParseIP s := String.eqb s "192.0.2.1";
|}.

Example Normalize_examples :
  Normalize "  Alice.Smith@Example.COM " = Ok "alice.smith@example.com" /\
  Normalize "alice@[192.0.2.1]" = Ok "alice@[192.0.2.1]" /\
  Normalize "Alice <alice@example.com>" = Err ErrInvalid /\
  Normalize "alice@ example.com" = Err ErrInvalid /\
  Normalize "alice..smith@example.com" = Err ErrInvalid /\
  Normalize "alice@@example.com" = Err ErrInvalid /\
  Normalize "alice@example.com (work)" = Err ErrInvalid.
Proof. vm_compute. repeat split. Qed.
