(* ===== verification/EmailPassword.v ===== *)
(** * Package [emailpassword] (emailpassword/emailpassword.go)

    Registration, sign-in and password changes of email identities. *)
From S2P Require Import Prelude GoText Base64 EmailAddress.
From S2P Require Password.

Definition ErrAttemptBlocked : error := New "emailpassword.ErrAttemptBlocked".
Definition ErrConflict : error := New "emailpassword.ErrConflict".
Definition ErrInvalidConfig : error := New "emailpassword.ErrInvalidConfig".
Definition ErrInvalidCredentials : error := New "emailpassword.ErrInvalidCredentials".
Definition ErrInvalidInput : error := New "emailpassword.ErrInvalidInput".
Definition ErrInvalidPassword : error := New "emailpassword.ErrInvalidPassword".
Definition ErrInvalidRecord : error := New "emailpassword.ErrInvalidRecord".
Definition ErrLastCredential : error := New "emailpassword.ErrLastCredential".
Definition ErrNotFound : error := New "emailpassword.ErrNotFound".
Definition ErrPasswordUnchanged : error := New "emailpassword.ErrPasswordUnchanged".
Definition ErrRegistrationUnavailable : error := New "emailpassword.ErrRegistrationUnavailable".

(** ** Data *)
Record User : Type := mkUser { ID : string; Email : string }.

Record PasswordCredential : Type := mkCredential { UserID : string; PasswordHash : string }.

Record Registration : Type := mkRegistration {
  reg_Email : string;
  reg_PasswordHash : string;
  reg_CreatedAt : time;
}.

Record Store (S : Type) : Type := mkStore {
  store_Register : Registration -> M S (result User);
  store_FindByEmail : string -> M S (result (User * PasswordCredential));
  store_ReplacePasswordHash : string -> string -> string -> time -> M S (result unit);
}.
Arguments store_Register {S}. Arguments store_FindByEmail {S}. Arguments store_ReplacePasswordHash {S}.

Record CredentialStore (S : Type) : Type := mkCredentialStore {
  cred_FindBySubject : string -> M S (result (User * PasswordCredential));
  cred_AddPassword : string -> string -> time -> M S (result User);
  cred_ReplacePasswordHash : string -> string -> string -> time -> M S (result unit);
  cred_RemovePassword : string -> string -> time -> M S (result unit);
}.
Arguments cred_FindBySubject {S}. Arguments cred_AddPassword {S}.
Arguments cred_ReplacePasswordHash {S}. Arguments cred_RemovePassword {S}.

Record Passwords (S : Type) : Type := mkPasswords {
  pw_Hash : string -> M S (result string);
  pw_Verify : string -> string -> result Password.Verification;
}.
Arguments pw_Hash {S}. Arguments pw_Verify {S}.

Inductive Operation : Type :=
| OperationRegister
| OperationLogin
| OperationAddPassword
| OperationChangePassword
| OperationRemovePassword.

Record Attempt : Type := mkAttempt {
  attempt_Operation : Operation;
  attempt_Email : string;
  attempt_SubjectID : string;
  attempt_SourceKey : string;
}.

(** The interface [AttemptGuard]. *)
Definition AttemptGuard (S : Type) : Type := Attempt -> M S (result unit).

Inductive EventType : Type :=
| EventRegistrationRejected
| EventRegistrationSucceeded
| EventLoginFailed
| EventLoginSucceeded
| EventPasswordAdded
| EventPasswordChangeFailed
| EventPasswordChanged
| EventPasswordRemovalFailed
| EventPasswordRemoved
| EventPasswordRehashed.

Record SecurityEvent : Type := mkEvent {
  event_Type : EventType;
  event_SubjectID : string;
  event_SourceKey : string;
  event_OccurredAt : time;
}.

(** The interface [SecurityEventSink]. *)
Definition SecurityEventSink (S : Type) : Type := SecurityEvent -> M S unit.

Definition PasswordValidator : Type := string -> option error.

Record Config (S : Type) : Type := mkConfig {
  c_Passwords : option (Passwords S);
  c_Credentials : option (CredentialStore S);
  c_ValidatePassword : option PasswordValidator;
  c_AttemptGuard : option (AttemptGuard S);
  c_SecurityEvents : option (SecurityEventSink S);
  c_NormalizeEmail : option Normalizer;
  c_Now : option (nat -> time);
}.
Arguments c_Passwords {S}. Arguments c_Credentials {S}. Arguments c_ValidatePassword {S}.
Arguments c_AttemptGuard {S}. Arguments c_SecurityEvents {S}. Arguments c_NormalizeEmail {S}.
Arguments c_Now {S}.

Record Manager (S : Type) : Type := mkManager {
  store : Store S;
  credentials : option (CredentialStore S);
  passwords : Passwords S;
  validatePassword : option PasswordValidator;
  attemptGuard : option (AttemptGuard S);
  securityEvents : option (SecurityEventSink S);
  normalizeEmail : Normalizer;
  dummyHash : string;
  now : nat -> time;
}.
Arguments store {S}. Arguments credentials {S}. Arguments passwords {S}.
Arguments validatePassword {S}. Arguments attemptGuard {S}. Arguments securityEvents {S}.
Arguments normalizeEmail {S}. Arguments dummyHash {S}. Arguments now {S}.

Record RegisterInput : Type := mkRegisterInput {
  register_Email : string; register_Password : string; register_SourceKey : string }.
Record LoginInput : Type := mkLoginInput {
  login_Email : string; login_Password : string; login_SourceKey : string }.
Record LoginResult : Type := mkLoginResult { login_User : User; PasswordRehashed : bool }.
Record ChangePasswordInput : Type := mkChangeInput {
  change_SubjectID : string; CurrentPassword : string; NewPassword : string; change_SourceKey : string }.
Record AddPasswordInput : Type := mkAddInput {
  add_SubjectID : string; add_Password : string; add_SourceKey : string }.
Record RemovePasswordInput : Type := mkRemoveInput {
  remove_SubjectID : string; remove_CurrentPassword : string; remove_SourceKey : string }.

(** ** Operations *)
Section Operations.
Context {S : Type} `{Env} `{GoTables} `{Password.PasswordHashes}.

Definition defaultPasswords : Passwords S := mkPasswords S Password.Hash Password.Verify.

(** [storeCredentials] is what the type assertion [store.(CredentialStore)]
    yields. *)
Definition NewManager (store : option (Store S)) (storeCredentials : option (CredentialStore S))
    (config : Config S) : M S (result (Manager S)) :=
  match store with
  | None => ret (Err (Errorf "%w: store is required" [ErrInvalidConfig]))
  | Some store =>
      let passwords := default defaultPasswords (c_Passwords config) in
      let credentials := match c_Credentials config with
                         | Some credentials => Some credentials
                         | None => storeCredentials
                         end in
      r <- pw_Hash passwords "authlier dummy password for unknown identities" ;;
      match r with
      | Err err => ret (Err (Errorf "%w: create dummy password hash: %w" [ErrInvalidConfig; err]))
      | Ok dummyHash =>
          if String.eqb (TrimSpace dummyHash) ""
          then ret (Err (Errorf "%w: password hasher returned an empty dummy hash" [ErrInvalidConfig]))
          else ret (Ok (mkManager S store credentials passwords (c_ValidatePassword config)
                          (c_AttemptGuard config) (c_SecurityEvents config)
                          (default Normalize (c_NormalizeEmail config)) dummyHash
                          (default time_Now (c_Now config))))
      end
  end.

Definition normalizeAndValidateEmail (manager : Manager S) (rawEmail : string) : result string :=
  match normalizeEmail manager rawEmail with
  | Err _ => Err ErrInvalidInput
  | Ok normalizedEmail =>
      if negb (Valid normalizedEmail) then Err ErrInvalidInput else Ok normalizedEmail
  end.

Definition validate (manager : Manager S) (plainPassword : string) : result unit :=
  match validatePassword manager with
  | None => Ok tt
  | Some validatePassword =>
      match validatePassword plainPassword with
      | Some err => Err (Errorf "%w: %w" [ErrInvalidPassword; err])
      | None => Ok tt
      end
  end.

Definition checkAttempt (manager : Manager S) (attempt : Attempt) : M S (result unit) :=
  match attemptGuard manager with
  | None => ret (Ok tt)
  | Some check => wrapped "check %s attempt: %w" (check attempt)
  end.

Definition record (manager : Manager S) (eventType : EventType) (subjectID sourceKey : string) :
    M S unit :=
  match securityEvents manager with
  | None => ret tt
  | Some sink =>
      at_ <- read_now (now manager) ;;
      sink (mkEvent eventType subjectID sourceKey at_)
  end.

Definition validUser (user : User) : bool :=
  negb (String.eqb (TrimSpace (ID user)) "") && negb (String.eqb (TrimSpace (Email user)) "").

Definition validCredential (user : User) (credential : PasswordCredential) : bool :=
  String.eqb (UserID credential) (ID user) && negb (String.eqb (TrimSpace (PasswordHash credential)) "").

(** The operations that need the optional credential store. *)
Definition with_credentials {A} (manager : Manager S) (k : CredentialStore S -> M S (result A)) :
    M S (result A) :=
  match credentials manager with
  | None => ret (Err (Errorf "%w: credential store is required" [ErrInvalidConfig]))
  | Some credentials => k credentials
  end.

Definition AddPassword (manager : Manager S) (input : AddPasswordInput) : M S (result User) :=
  with_credentials manager (fun credentials =>
  let subjectID := TrimSpace (add_SubjectID input) in
  if String.eqb subjectID "" || String.eqb (add_Password input) "" then ret (Err ErrInvalidInput) else
  _ <-? ret (validate manager (add_Password input)) ;;
  _ <-? checkAttempt manager (mkAttempt OperationAddPassword "" subjectID (add_SourceKey input)) ;;
  encodedHash <-? wrapped "hash added password: %w" (pw_Hash (passwords manager) (add_Password input)) ;;
  now <- read_now (now manager) ;;
  user <-? wrapped "add password: %w" (cred_AddPassword credentials subjectID encodedHash now) ;;
  if negb (validUser user) || negb (String.eqb (ID user) subjectID) then ret (Err ErrInvalidRecord) else
  _ <- record manager EventPasswordAdded subjectID (add_SourceKey input) ;;
  ret (Ok user)).

Definition Register (manager : Manager S) (input : RegisterInput) : M S (result User) :=
  match normalizeAndValidateEmail manager (register_Email input) with
  | Err _ => ret (Err ErrInvalidInput)
  | Ok normalizedEmail =>
      if String.eqb (register_Password input) "" then ret (Err ErrInvalidInput) else
      _ <-? ret (validate manager (register_Password input)) ;;
      _ <-? checkAttempt manager
              (mkAttempt OperationRegister normalizedEmail "" (register_SourceKey input)) ;;
      encodedHash <-? wrapped "hash registration password: %w"
                        (pw_Hash (passwords manager) (register_Password input)) ;;
      now <- read_now (now manager) ;;
      r <- store_Register (store manager) (mkRegistration normalizedEmail encodedHash now) ;;
      match r with
      | Err err =>
          if errors_Is err ErrConflict then
            _ <- record manager EventRegistrationRejected "" (register_SourceKey input) ;;
            ret (Err ErrRegistrationUnavailable)
          else ret (Err (Errorf "register email identity: %w" [err]))
      | Ok user =>
          if negb (validUser user) || negb (String.eqb (Email user) normalizedEmail)
          then ret (Err ErrInvalidRecord) else
          _ <- record manager EventRegistrationSucceeded (ID user) (register_SourceKey input) ;;
          ret (Ok user)
      end
  end.

(** The stored credential of a subject, for an operation that checks the current
    password; [failed] is the event it records when it refuses. *)
Definition findCredential (manager : Manager S) (credentials : CredentialStore S) (failed : EventType)
    (subjectID sourceKey : string) : M S (result (User * PasswordCredential)) :=
  r <- cred_FindBySubject credentials subjectID ;;
  match r with
  | Err err =>
      if errors_Is err ErrNotFound then
        _ <- record manager failed subjectID sourceKey ;;
        ret (Err ErrInvalidCredentials)
      else ret (Err (Errorf "find password credential: %w" [err]))
  | Ok (user, credential) =>
      if negb (validUser user) || negb (String.eqb (ID user) subjectID) ||
         negb (validCredential user credential)
      then ret (Err ErrInvalidRecord) else ret (Ok (user, credential))
  end.

Definition matches (r : result Password.Verification) : bool :=
  match r with Ok verification => Password.Matches verification | Err _ => false end.

Definition ChangePassword (manager : Manager S) (input : ChangePasswordInput) : M S (result User) :=
  with_credentials manager (fun credentials =>
  let subjectID := TrimSpace (change_SubjectID input) in
  if String.eqb subjectID "" || String.eqb (CurrentPassword input) "" ||
     String.eqb (NewPassword input) ""
  then ret (Err ErrInvalidInput) else
  _ <-? ret (validate manager (NewPassword input)) ;;
  _ <-? checkAttempt manager (mkAttempt OperationChangePassword "" subjectID (change_SourceKey input)) ;;
  found <-? findCredential manager credentials EventPasswordChangeFailed subjectID
              (change_SourceKey input) ;;
  let '(user, credential) := found in
  if negb (matches (pw_Verify (passwords manager) (CurrentPassword input) (PasswordHash credential)))
  then
    _ <- record manager EventPasswordChangeFailed subjectID (change_SourceKey input) ;;
    ret (Err ErrInvalidCredentials)
  else
  unchanged <-? wrapped "compare replacement password: %w"
                  (ret (pw_Verify (passwords manager) (NewPassword input) (PasswordHash credential))) ;;
  if Password.Matches unchanged then ret (Err ErrPasswordUnchanged) else
  replacementHash <-? wrapped "hash replacement password: %w"
                        (pw_Hash (passwords manager) (NewPassword input)) ;;
  now <- read_now (now manager) ;;
  r <- cred_ReplacePasswordHash credentials subjectID (PasswordHash credential) replacementHash now ;;
  match r with
  | Err err =>
      if errors_Is err ErrConflict || errors_Is err ErrNotFound then
        _ <- record manager EventPasswordChangeFailed subjectID (change_SourceKey input) ;;
        ret (Err ErrInvalidCredentials)
      else ret (Err (Errorf "replace password: %w" [err]))
  | Ok _ =>
      _ <- record manager EventPasswordChanged subjectID (change_SourceKey input) ;;
      ret (Ok user)
  end).

Definition RemovePassword (manager : Manager S) (input : RemovePasswordInput) : M S (result unit) :=
  with_credentials manager (fun credentials =>
  let subjectID := TrimSpace (remove_SubjectID input) in
  if String.eqb subjectID "" || String.eqb (remove_CurrentPassword input) ""
  then ret (Err ErrInvalidInput) else
  _ <-? checkAttempt manager (mkAttempt OperationRemovePassword "" subjectID (remove_SourceKey input)) ;;
  found <-? findCredential manager credentials EventPasswordRemovalFailed subjectID
              (remove_SourceKey input) ;;
  let '(user, credential) := found in
  if negb (matches (pw_Verify (passwords manager) (remove_CurrentPassword input)
                      (PasswordHash credential)))
  then
    _ <- record manager EventPasswordRemovalFailed subjectID (remove_SourceKey input) ;;
    ret (Err ErrInvalidCredentials)
  else
  now <- read_now (now manager) ;;
  r <- cred_RemovePassword credentials subjectID (PasswordHash credential) now ;;
  match r with
  | Err err =>
      if errors_Is err ErrLastCredential then ret (Err err) else
      if errors_Is err ErrConflict || errors_Is err ErrNotFound then
        _ <- record manager EventPasswordRemovalFailed subjectID (remove_SourceKey input) ;;
        ret (Err ErrInvalidCredentials)
      else ret (Err (Errorf "remove password: %w" [err]))
  | Ok _ =>
      _ <- record manager EventPasswordRemoved subjectID (remove_SourceKey input) ;;
      ret (Ok tt)
  end).

(** The identity that [Login] looks up: [None] when there is none. *)
Definition lookupIdentity (manager : Manager S) (normalized : result string) :
    M S (result (option (User * PasswordCredential))) :=
  match normalized with
  | Err _ => ret (Ok None)
  | Ok normalizedEmail =>
      r <- store_FindByEmail (store manager) normalizedEmail ;;
      match r with
      | Ok (user, credential) =>
          if negb (validUser user) || negb (String.eqb (Email user) normalizedEmail) ||
             negb (validCredential user credential)
          then ret (Err ErrInvalidRecord) else ret (Ok (Some (user, credential)))
      | Err lookupErr =>
          if errors_Is lookupErr ErrNotFound then ret (Ok None)
          else ret (Err (Errorf "find email identity: %w" [lookupErr]))
      end
  end.

(** An unknown identity is verified against the dummy hash. *)
Definition Login (manager : Manager S) (input : LoginInput) : M S (result LoginResult) :=
  let normalized := normalizeAndValidateEmail manager (login_Email input) in
  let normalizedEmail := match normalized with Ok email => email | Err _ => "" end in
  _ <-? checkAttempt manager
          (mkAttempt OperationLogin normalizedEmail "" (login_SourceKey input)) ;;
  identity <-? lookupIdentity manager normalized ;;
  let encodedHash := match identity with
                     | Some (_, credential) => PasswordHash credential
                     | None => dummyHash manager
                     end in
  match pw_Verify (passwords manager) (login_Password input) encodedHash, identity with
  | Err _, Some (user, _) =>
      _ <- record manager EventLoginFailed (ID user) (login_SourceKey input) ;;
      ret (Err ErrInvalidCredentials)
  | Err _, None => ret (Err ErrInvalidCredentials)
  | Ok _, None =>
      _ <- record manager EventLoginFailed "" (login_SourceKey input) ;;
      ret (Err ErrInvalidCredentials)
  | Ok verification, Some (user, credential) =>
      if negb (Password.Matches verification) then
        _ <- record manager EventLoginFailed (ID user) (login_SourceKey input) ;;
        ret (Err ErrInvalidCredentials)
      else
      rehashed <-?
        (if negb (Password.NeedsRehash verification) then ret (Ok false) else
         replacementHash <-? wrapped "rehash login password: %w"
                               (pw_Hash (passwords manager) (login_Password input)) ;;
         now <- read_now (now manager) ;;
         r <- store_ReplacePasswordHash (store manager) (ID user) (PasswordHash credential)
                replacementHash now ;;
         match r with
         | Err err =>
             if errors_Is err ErrConflict || errors_Is err ErrNotFound then
               _ <- record manager EventLoginFailed (ID user) (login_SourceKey input) ;;
               ret (Err ErrInvalidCredentials)
             else ret (Err (Errorf "replace password hash: %w" [err]))
         | Ok _ =>
             _ <- record manager EventPasswordRehashed (ID user) (login_SourceKey input) ;;
             ret (Ok true)
         end) ;;
      _ <- record manager EventLoginSucceeded (ID user) (login_SourceKey input) ;;
      ret (Ok (mkLoginResult user rehashed))
  end.

Definition NormalizeEmail (rawEmail : string) : result string :=
  match Normalize rawEmail with
  | Err _ => Err ErrInvalidInput
  | Ok normalizedEmail => Ok normalizedEmail
  end.
End Operations.
