(* ===== verification/AccountSpec.v ===== *)
(** * What accounts promise

    The abstract state of email accounts, which the packages [emailpassword],
    [emailverification] and [passwordreset] share, and what quiet collaborators
    (attempt guards, event sinks, mail senders) leave alone. *)
From S2P Require Import Prelude.

Record account : Type := mkAccount { acc_Email : string; acc_Verified : bool }.

(** A pending verification or reset: one per user. *)
Record pending : Type := mkPending { p_Email : string; p_TokenHash : string; p_ExpiresAt : time }.

Record accounts : Type := mkAccounts {
  users : gmap string account;
  hashes : gmap string string;
  (* the other sign-in methods of a user *)
  others : gmap string nat;
  verifications : gmap string pending;
  resets : gmap string pending;
}.

Definition set_users u (s : accounts) : accounts :=
  mkAccounts u (hashes s) (others s) (verifications s) (resets s).
Definition set_hashes h (s : accounts) : accounts :=
  mkAccounts (users s) h (others s) (verifications s) (resets s).
Definition set_verifications v (s : accounts) : accounts :=
  mkAccounts (users s) (hashes s) (others s) v (resets s).
Definition set_resets r (s : accounts) : accounts :=
  mkAccounts (users s) (hashes s) (others s) (verifications s) r.

Definition set_hash (id h : string) (s : accounts) : accounts := set_hashes (<[id := h]> (hashes s)) s.

(** The user with an email, when there is one. *)
Definition has_email (id email : string) (s : accounts) : Prop :=
  exists a, users s !! id = Some a /\ acc_Email a = email.

(** Emails name users, and passwords and pending requests belong to users. *)
Record accounts_inv (s : accounts) : Prop := {
  inv_unique id1 id2 email : has_email id1 email s -> has_email id2 email s -> id1 = id2;
  inv_hash id h : hashes s !! id = Some h -> is_Some (users s !! id);
}.

Section Quiet.
Context {S : Type} (wf : S -> Prop) (view : S -> accounts).

(** A call that leaves the accounts alone. *)
Definition quiet {A} (m : M S A) : Prop :=
  forall w, wf (ext w) ->
    wp m (fun _ w' => wf (ext w') /\ view (ext w') = view (ext w)) w.

Lemma quiet_ret {A} (a : A) : quiet (ret a).
Proof. intros w Hwf. by apply wp_ret. Qed.

Lemma quiet_wrapped {A} format (m : M S (result A)) : quiet m -> quiet (wrapped format m).
Proof. intros Hm w Hwf. apply wp_wrapped. eapply wp_mono; [by apply Hm|]. auto. Qed.

Lemma wp_quiet {A} (m : M S A) (Q : A -> World S -> Prop) w :
  quiet m -> wf (ext w) ->
  (forall a w', wf (ext w') -> view (ext w') = view (ext w) -> Q a w') -> wp m Q w.
Proof. intros Hm Hwf HQ. eapply wp_mono; [by apply Hm|]. intros a w' [? ?]. auto. Qed.
End Quiet.

(** Run a quiet call, then rewrite the state it left. *)
Ltac wp_quiet_call lem :=
  eapply wp_quiet; [apply lem|done|]; let Hv := fresh "Hv" in
  intros ? ? ? Hv; go_red; try (match goal with |- match ?x with _ => _ end => destruct x end);
  wp_go; rewrite ?Hv.
