(* ===== verification/EmailPasswordSpec.v ===== *)
(** * What email and password sign-in promises

    The contract of the stores behind package [emailpassword], and the effect of
    every operation on the accounts. *)
From S2P Require Import Prelude GoText Base64 EmailAddress EmailPassword AccountSpec.
From S2P Require Password.

Section Contract.
Context {S : Type}.

Class EmailStoreContract (st : Store S) (wf : S -> Prop) (view : S -> accounts) : Prop := {
  email_Register_ok reg w : wf (ext w) ->
    wp (store_Register st reg) (fun res w' => wf (ext w') /\
      match res with
      | Ok u => Email u = reg_Email reg /\ TrimSpace (ID u) <> "" /\
                users (view (ext w)) !! ID u = None /\
                (forall id, ~ has_email id (reg_Email reg) (view (ext w))) /\
                view (ext w') =
                  set_hash (ID u) (reg_PasswordHash reg)
                    (set_users (<[ID u := mkAccount (reg_Email reg) false]> (users (view (ext w))))
                       (view (ext w)))
      | Err _ => view (ext w') = view (ext w)
      end) w;
  email_Find_ok email w : wf (ext w) ->
    wp (store_FindByEmail st email) (fun res w' => wf (ext w') /\ view (ext w') = view (ext w) /\
      forall u c, res = Ok (u, c) -> has_email (ID u) email (view (ext w)) /\ Email u = email /\
        UserID c = ID u /\ hashes (view (ext w)) !! ID u = Some (PasswordHash c)) w;
  email_Replace_ok id current replacement at_ w : wf (ext w) ->
    wp (store_ReplacePasswordHash st id current replacement at_) (fun res w' => wf (ext w') /\
      match res with
      | Ok _ => hashes (view (ext w)) !! id = Some current /\
                view (ext w') = set_hash id replacement (view (ext w))
      | Err _ => view (ext w') = view (ext w)
      end) w;
}.

Class CredentialStoreContract (st : CredentialStore S) (wf : S -> Prop) (view : S -> accounts) : Prop := {
  cred_Find_ok id w : wf (ext w) ->
    wp (cred_FindBySubject st id) (fun res w' => wf (ext w') /\ view (ext w') = view (ext w) /\
      forall u c, res = Ok (u, c) -> has_email id (Email u) (view (ext w)) /\ ID u = id /\
        UserID c = id /\ hashes (view (ext w)) !! id = Some (PasswordHash c)) w;
  cred_Add_ok id hash at_ w : wf (ext w) ->
    wp (cred_AddPassword st id hash at_) (fun res w' => wf (ext w') /\
      match res with
      | Ok u => has_email id (Email u) (view (ext w)) /\ ID u = id /\
                hashes (view (ext w)) !! id = None /\
                view (ext w') = set_hash id hash (view (ext w))
      | Err _ => view (ext w') = view (ext w)
      end) w;
  cred_Replace_ok id current replacement at_ w : wf (ext w) ->
    wp (cred_ReplacePasswordHash st id current replacement at_) (fun res w' => wf (ext w') /\
      match res with
      | Ok _ => hashes (view (ext w)) !! id = Some current /\
                view (ext w') = set_hash id replacement (view (ext w))
      | Err _ => view (ext w') = view (ext w)
      end) w;
  cred_Remove_ok id current at_ w : wf (ext w) ->
    wp (cred_RemovePassword st id current at_) (fun res w' => wf (ext w') /\
      match res with
      | Ok _ => hashes (view (ext w)) !! id = Some current /\
                (exists n, others (view (ext w)) !! id = Some n /\ 0 < n) /\
                view (ext w') = set_hashes (delete id (hashes (view (ext w)))) (view (ext w))
      | Err _ => view (ext w') = view (ext w)
      end) w;
}.

(** A password hasher whose hashes verify, and need no replacement yet. *)
Class PasswordsContract (pw : Passwords S) (wf : S -> Prop) (view : S -> accounts) : Prop := {
  pw_Hash_ok password w : wf (ext w) ->
    wp (pw_Hash pw password) (fun res w' => wf (ext w') /\ view (ext w') = view (ext w) /\
      forall h, res = Ok h -> pw_Verify pw password h = Ok (Password.mkVerification true false) /\
        TrimSpace h <> "") w;
}.

Class EmailPasswordBackend (manager : Manager S) (wf : S -> Prop) (view : S -> accounts) : Prop := {
  backend_store :: EmailStoreContract (store manager) wf view;
  backend_credentials c : credentials manager = Some c -> CredentialStoreContract c wf view;
  backend_passwords :: PasswordsContract (passwords manager) wf view;
  backend_guard g a : attemptGuard manager = Some g -> quiet wf view (g a);
  backend_events e a : securityEvents manager = Some e -> quiet wf view (e a);
}.
End Contract.

Section Refinement.
Context {S : Type} `{Env} `{GoTables} `{Password.PasswordHashes} (manager : Manager S).
Context (wf : S -> Prop) (view : S -> accounts) `{!EmailPasswordBackend manager wf view}.

Abbreviation abs w := (view (ext w)).
Abbreviation verify := (pw_Verify (passwords manager)).

Lemma quiet_record e subject source : quiet wf view (record manager e subject source).
Proof.
  intros w Hwf. unfold record. destruct (securityEvents manager) as [sink|] eqn:He; wp_go; [|done].
  eapply wp_mono; [by eapply backend_events|]. done.
Qed.

Lemma quiet_checkAttempt a : quiet wf view (checkAttempt manager a).
Proof.
  intros w Hwf. unfold checkAttempt. destruct (attemptGuard manager) as [g|] eqn:Hg; [|by wp_go].
  apply quiet_wrapped; [|done]. by eapply backend_guard.
Qed.

(** What a successful sign-in presented, and what it changed. *)
Definition signed_in (input : LoginInput) (r : LoginResult) (s s' : accounts) : Prop :=
  exists email h v,
    normalizeAndValidateEmail manager (login_Email input) = Ok email /\
    Email (login_User r) = email /\ has_email (ID (login_User r)) email s /\
    hashes s !! ID (login_User r) = Some h /\ verify (login_Password input) h = Ok v /\
    Password.Matches v = true /\ PasswordRehashed r = Password.NeedsRehash v /\
    if Password.NeedsRehash v
    then exists h', verify (login_Password input) h' = Ok (Password.mkVerification true false) /\
           s' = set_hash (ID (login_User r)) h' s
    else s' = s.

Lemma wp_lookupIdentity normalized w :
  wf (ext w) ->
  wp (lookupIdentity manager normalized) (fun res w' => wf (ext w') /\ abs w' = abs w /\
    forall u c, res = Ok (Some (u, c)) -> exists email, normalized = Ok email /\
      Email u = email /\ has_email (ID u) email (abs w) /\ UserID c = ID u /\
      hashes (abs w) !! ID u = Some (PasswordHash c)) w.
Proof.
  intros Hwf. unfold lookupIdentity. destruct normalized as [email|e]; wp_go; [|done].
  eapply wp_mono; [by apply email_Find_ok|]. intros res w1 (? & ? & Hf); wp_go; try done.
  split_and!; [done|done|]. intros ? ? [= <- <-].
  destruct (Hf _ _ eq_refl) as (? & ? & ? & ?). eauto 10.
Qed.

Lemma wp_Login input w :
  wf (ext w) ->
  wp (Login manager input) (fun res w' => wf (ext w') /\
    match res with
    | Ok r => signed_in input r (abs w) (abs w')
    | Err _ => abs w' = abs w
    end) w.
Proof.
  intros Hwf. unfold Login. wp_go. wp_quiet_call quiet_checkAttempt; [|done].
  eapply wp_mono; [by apply wp_lookupIdentity|]. rewrite Hv. intros [identity|e] w1 (? & Hv1 & Hid);
    [go_red|wp_go; by rewrite Hv1].
  unfold signed_in. destruct (verify _ _) as [v|e] eqn:Hver, identity as [[u c]|]; wp_go;
    [by wp_quiet_call quiet_record; rewrite Hv1| | |by wp_quiet_call quiet_record; rewrite Hv1..|by rewrite Hv1].
  all: destruct (Hid u c eq_refl) as (email & Hn & Hue & Hhas & Hc & Hh); rewrite Hn in *; go_bool.
  - wp_quiet_call quiet_record. split; [done|]. exists email, (PasswordHash c), v.
    replace (Password.NeedsRehash v) with false by congruence. by split_and!.
  - eapply wp_mono; [by apply pw_Hash_ok|]. intros [h'|e] w2 (? & Hv2 & Hh'); wp_go; [|by rewrite Hv2, Hv1].
    destruct (Hh' h' eq_refl) as [Hver' _].
    eapply wp_mono; [by apply email_Replace_ok|]. rewrite ext_tick, Hv2, Hv1.
    intros [[]|e] w3 [? Hr]; wp_go; [|by wp_quiet_call quiet_record; rewrite Hr|by auto].
    destruct Hr as [_ Hr]. wp_quiet_call quiet_record. wp_quiet_call quiet_record.
    split; [done|]. exists email, (PasswordHash c), v.
    replace (Password.NeedsRehash v) with true by congruence. split_and!; try done.
    exists h'. simpl. split; [done|congruence].
Qed.

Lemma wp_findCredential credentials failed id source w
  `{!CredentialStoreContract credentials wf view} :
  wf (ext w) ->
  wp (findCredential manager credentials failed id source) (fun res w' => wf (ext w') /\
    abs w' = abs w /\
    forall u c, res = Ok (u, c) -> ID u = id /\ validUser u = true /\
      has_email id (Email u) (abs w) /\ hashes (abs w) !! id = Some (PasswordHash c)) w.
Proof.
  intros Hwf. unfold findCredential. wp_go. eapply wp_mono; [by apply cred_Find_ok|].
  intros res w1 (? & ? & Hf); wp_go; try done.
  - split_and!; [done|done|]. intros ? ? [= <- <-]. go_bool.
    destruct (Hf _ _ eq_refl) as (? & ? & _ & ?). done.
  - wp_quiet_call quiet_record. done.
Qed.

(** A change of the password of [id] by someone who presented the current one. *)
Definition password_known (id password : string) (s : accounts) : Prop :=
  exists h, hashes s !! id = Some h /\ matches (verify password h) = true.

Definition changed (input : ChangePasswordInput) (u : User) (s s' : accounts) : Prop :=
  let id := TrimSpace (change_SubjectID input) in
  ID u = id /\ validUser u = true /\ has_email id (Email u) s /\
  password_known id (CurrentPassword input) s /\
  ~ password_known id (NewPassword input) s /\
  exists h', verify (NewPassword input) h' = Ok (Password.mkVerification true false) /\
    TrimSpace h' <> "" /\ s' = set_hash id h' s.

Lemma wp_ChangePassword input w :
  wf (ext w) ->
  wp (ChangePassword manager input) (fun res w' => wf (ext w') /\
    match res with
    | Ok u => changed input u (abs w) (abs w')
    | Err _ => abs w' = abs w
    end) w.
Proof.
  intros Hwf. unfold ChangePassword, with_credentials.
  destruct (credentials manager) as [creds|] eqn:Hc; [|by wp_go].
  pose proof (backend_credentials creds Hc). wp_go; [done|].
  destruct (validate _ _); wp_go; [|done]. wp_quiet_call quiet_checkAttempt; [|done].
  eapply wp_mono; [by apply wp_findCredential|]. rewrite Hv. intros [[u c]|e] w1 (? & Hv1 & Hf);
    [|wp_go; by rewrite Hv1].
  destruct (Hf u c eq_refl) as (Hid & Hvu & Hhas & Hh). go_red.
  wp_go; [by wp_quiet_call quiet_record; rewrite Hv1|].
  destruct (verify (NewPassword input) _) as [v|] eqn:Hnew; wp_go; [by rewrite Hv1| |by rewrite Hv1].
  apply negb_false_iff in Heqb0.
  eapply wp_mono; [by apply pw_Hash_ok|]. intros [h'|e] w2 (? & Hv2 & Hh'); wp_go; [|by rewrite Hv2, Hv1].
  destruct (Hh' h' eq_refl) as [Hver' Hblank].
  eapply wp_mono; [by apply cred_Replace_ok|]. rewrite ext_tick, Hv2, Hv1.
  intros [[]|e] w3 [? Hr]; wp_go; [|by wp_quiet_call quiet_record; rewrite Hr|by auto].
  destruct Hr as [_ Hr]. wp_quiet_call quiet_record. split; [done|].
  split_and!; [done|done|done|by exists (PasswordHash c)| |by exists h'].
  intros (h & Hh2 & Hm2). simplify_eq. unfold matches in Hm2. rewrite Hnew in Hm2. congruence.
Qed.

Lemma wp_RemovePassword input w :
  wf (ext w) ->
  wp (RemovePassword manager input) (fun res w' => wf (ext w') /\
    let id := TrimSpace (remove_SubjectID input) in
    match res with
    | Ok _ => password_known id (remove_CurrentPassword input) (abs w) /\
              (exists n, others (abs w) !! id = Some n /\ 0 < n) /\
              abs w' = set_hashes (delete id (hashes (abs w))) (abs w)
    | Err _ => abs w' = abs w
    end) w.
Proof.
  intros Hwf. unfold RemovePassword, with_credentials.
  destruct (credentials manager) as [creds|] eqn:Hc; [|by wp_go].
  pose proof (backend_credentials creds Hc). wp_go; [done|].
  wp_quiet_call quiet_checkAttempt; [|done].
  eapply wp_mono; [by apply wp_findCredential|]. rewrite Hv. intros [[u c]|e] w1 (? & Hv1 & Hf);
    [|wp_go; by rewrite Hv1].
  destruct (Hf u c eq_refl) as (Hid & Hvu & Hhas & Hh). go_red.
  wp_go; [by wp_quiet_call quiet_record; rewrite Hv1|]. apply negb_false_iff in Heqb0.
  eapply wp_mono; [by apply cred_Remove_ok|]. rewrite ext_tick, Hv1.
  intros [[]|e] w2 [? Hr]; wp_go; [|by auto|by wp_quiet_call quiet_record; rewrite Hr|by auto].
  destruct Hr as (_ & Hn & Hr). wp_quiet_call quiet_record. split; [done|].
  split_and!; [by exists (PasswordHash c)|done|done].
Qed.

(** An added password: to a user that had none. *)
Definition added (id password : string) (s s' : accounts) : Prop :=
  hashes s !! id = None /\ (exists email, has_email id email s) /\
  exists h, verify password h = Ok (Password.mkVerification true false) /\ TrimSpace h <> "" /\
    s' = set_hash id h s.

Lemma wp_AddPassword input w :
  wf (ext w) ->
  wp (AddPassword manager input) (fun res w' => wf (ext w') /\
    let id := TrimSpace (add_SubjectID input) in
    match res with
    | Ok u => ID u = id /\ added id (add_Password input) (abs w) (abs w')
    | Err e => abs w' = abs w \/ e = ErrInvalidRecord /\ added id (add_Password input) (abs w) (abs w')
    end) w.
Proof.
  intros Hwf. unfold AddPassword, with_credentials.
  destruct (credentials manager) as [creds|] eqn:Hc; [|by wp_go; auto].
  pose proof (backend_credentials creds Hc). wp_go; [by auto|].
  destruct (validate _ _); wp_go; [|by auto]. wp_quiet_call quiet_checkAttempt; [|by auto].
  eapply wp_mono; [by apply pw_Hash_ok|]. rewrite Hv.
  intros [h|e] w1 (? & Hv1 & Hh); wp_go; [|by rewrite Hv1; auto].
  destruct (Hh h eq_refl) as [Hver Hblank].
  eapply wp_mono; [by apply cred_Add_ok|]. rewrite ext_tick, Hv1.
  intros [u|e] w2 [? Hr]; wp_go; [| |by auto]; destruct Hr as (Hhas & Hid & Hnone & Hr).
  - split; [done|]. right. split; [done|]. unfold added. eauto 10.
  - wp_quiet_call quiet_record. split; [done|]. split; [done|]. unfold added. eauto 10.
Qed.

(** A registered account: a new user, the only one with its email. *)
Definition registered (email password : string) (u : User) (s s' : accounts) : Prop :=
  Email u = email /\ users s !! ID u = None /\ (forall id, ~ has_email id email s) /\
  TrimSpace (ID u) <> "" /\
  exists h, verify password h = Ok (Password.mkVerification true false) /\ TrimSpace h <> "" /\
    s' = set_hash (ID u) h (set_users (<[ID u := mkAccount email false]> (users s)) s).

Lemma Valid_not_blank email : Valid email = true -> TrimSpace email <> "".
Proof.
  unfold Valid. destruct (_ || _) eqn:Hb; [done|]. intros _ Ht. go_bool. congruence.
Qed.

Lemma normalize_Valid raw email :
  normalizeAndValidateEmail manager raw = Ok email -> Valid email = true.
Proof.
  unfold normalizeAndValidateEmail. destruct (normalizeEmail manager raw); [|done].
  destruct (Valid value) eqn:Hv; [|done]. by intros [= <-].
Qed.

Lemma wp_Register input w :
  wf (ext w) ->
  wp (Register manager input) (fun res w' => wf (ext w') /\
    match res with
    | Ok u => exists email, normalizeAndValidateEmail manager (register_Email input) = Ok email /\
                registered email (register_Password input) u (abs w) (abs w')
    | Err _ => abs w' = abs w
    end) w.
Proof.
  intros Hwf. unfold Register.
  destruct (normalizeAndValidateEmail _ _) as [email|] eqn:Hn; [|by wp_go].
  pose proof (Valid_not_blank email (normalize_Valid _ _ Hn)) as Hne. wp_go; [done|].
  destruct (validate _ _); wp_go; [|done]. wp_quiet_call quiet_checkAttempt; [|done].
  eapply wp_mono; [by apply pw_Hash_ok|]. rewrite Hv.
  intros [h|e] w1 (? & Hv1 & Hh); wp_go; [|by rewrite Hv1].
  destruct (Hh h eq_refl) as [Hver Hblank].
  eapply wp_mono; [by apply email_Register_ok|]. rewrite ext_tick, Hv1. simpl.
  intros [u|e] w2 [? Hr]; wp_go; [| |by wp_quiet_call quiet_record; rewrite Hr|by auto];
    destruct Hr as (He & Hid & Hfresh & Hno & Hr).
  - exfalso. unfold validUser in *. rewrite He, String.eqb_refl in Heqb0.
    rewrite !(proj2 (String.eqb_neq _ _)) in Heqb0 by done. done.
  - wp_quiet_call quiet_record. split; [done|]. exists email. split; [done|]. unfold registered. eauto 10.
Qed.
End Refinement.
