(* ===== verification/AccountReference.v ===== *)
(** * A reference backend for accounts

    Stores for email identities whose state is the abstract one, updated in one
    step per call, and the default password hasher. *)
From S2P Require Import Prelude GoText Base64 EmailAddress AccountSpec EmailPassword EmailPasswordSpec.
From S2P Require Password.

#[export] Existing Instance Password.reference_hashes.
#[export] Existing Instance Password.reference_hash_laws.

(** ** Lookup by email *)
Definition find_by_email (email : string) (s : accounts) : option (string * account) :=
  List.find (fun p => String.eqb (acc_Email (snd p)) email) (map_to_list (users s)).

Lemma find_by_email_Some email s id a :
  find_by_email email s = Some (id, a) -> users s !! id = Some a /\ acc_Email a = email.
Proof.
  intros Hf. apply find_some in Hf as [Hin He]. simpl in He. apply String.eqb_eq in He.
  apply list_elem_of_In, elem_of_map_to_list in Hin. done.
Qed.

Lemma find_by_email_None email s :
  find_by_email email s = None -> forall id, ~ has_email id email s.
Proof.
  intros Hf id (a & Ha & <-). apply find_none with (x := (id, a)) in Hf.
  - simpl in Hf. by rewrite String.eqb_refl in Hf.
  - by apply list_elem_of_In, elem_of_map_to_list.
Qed.

Lemma find_by_email_has email s id :
  accounts_inv s -> has_email id email s ->
  exists a, find_by_email email s = Some (id, a) /\ users s !! id = Some a.
Proof.
  intros Hinv Hhas. destruct (find_by_email email s) as [[id' a]|] eqn:Hf.
  - destruct (find_by_email_Some _ _ _ _ Hf) as [Ha He].
    assert (id' = id) as -> by (eapply (inv_unique s Hinv); [by exists a|done]). eauto.
  - by destruct (find_by_email_None _ _ Hf id).
Qed.

(** ** The stores *)
Definition ref_Register (reg : Registration) (id : string) (s : accounts) : result User * accounts :=
  match find_by_email (reg_Email reg) s, users s !! id with
  | None, None =>
      if String.eqb (TrimSpace id) "" then (Err ErrInvalidRecord, s) else
      (Ok (mkUser id (reg_Email reg)),
       set_hash id (reg_PasswordHash reg)
         (set_users (<[id := mkAccount (reg_Email reg) false]> (users s)) s))
  | _, _ => (Err ErrConflict, s)
  end.

Definition ref_Find (found : option (string * account)) (s : accounts) :
    result (User * PasswordCredential) * accounts :=
  (match found with
   | Some (id, a) =>
       match hashes s !! id with
       | Some h => Ok (mkUser id (acc_Email a), mkCredential id h)
       | None => Err ErrNotFound
       end
   | None => Err ErrNotFound
   end, s).

Definition ref_Replace (id current replacement : string) (s : accounts) : result unit * accounts :=
  if bool_decide (hashes s !! id = Some current) then (Ok tt, set_hash id replacement s)
  else (Err ErrConflict, s).

Definition ref_Add (id hash : string) (s : accounts) : result User * accounts :=
  match users s !! id, hashes s !! id with
  | Some a, None => (Ok (mkUser id (acc_Email a)), set_hash id hash s)
  | None, _ => (Err ErrNotFound, s)
  | _, Some _ => (Err ErrConflict, s)
  end.

Definition ref_Remove (id current : string) (s : accounts) : result unit * accounts :=
  if bool_decide (hashes s !! id = Some current) then
    match others s !! id with
    | Some (Datatypes.S _) => (Ok tt, set_hashes (delete id (hashes s)) s)
    | _ => (Err ErrLastCredential, s)
    end
  else (Err ErrConflict, s).

Definition ref_email_store `{Env} : Store accounts :=
  {| store_Register reg := (id <-? new_uuid ;; lift_ext (ref_Register reg id));
     store_FindByEmail email := lift_ext (fun s => ref_Find (find_by_email email s) s);
     store_ReplacePasswordHash id current replacement _ := lift_ext (ref_Replace id current replacement) |}.

Definition ref_credential_store : CredentialStore accounts :=
  {| cred_FindBySubject id :=
       lift_ext (fun s => ref_Find (match users s !! id with Some a => Some (id, a) | None => None end) s);
     cred_AddPassword id hash _ := lift_ext (ref_Add id hash);
     cred_ReplacePasswordHash id current replacement _ := lift_ext (ref_Replace id current replacement);
     cred_RemovePassword id current _ := lift_ext (ref_Remove id current) |}.

(** ** The contracts *)
Lemma accounts_inv_set_hash id h s :
  accounts_inv s -> is_Some (users s !! id) -> accounts_inv (set_hash id h s).
Proof.
  intros [Hu Hh] Hid. split; [exact Hu|]. intros id' h'. simpl.
  intros [[<- <-]|[? ?]]%lookup_insert_Some; [done|eauto].
Qed.

Lemma accounts_inv_register id h email s :
  accounts_inv s -> users s !! id = None -> (forall id', ~ has_email id' email s) ->
  accounts_inv (set_hash id h (set_users (<[id := mkAccount email false]> (users s)) s)).
Proof.
  intros [Hu Hh] Hid Hno. split; simpl.
  - intros id1 id2 email' (a1 & H1 & He1) (a2 & H2 & He2). simpl in *.
    apply lookup_insert_Some in H1 as [[<- <-]|[? H1]], H2 as [[<- <-]|[? H2]]; simpl in *; [done|..].
    + destruct (Hno id2). exists a2. by subst.
    + destruct (Hno id1). exists a1. by subst.
    + eapply Hu; [by exists a1|by exists a2].
  - intros id' h' Hl. destruct (decide (id = id')) as [<-|Hne]; [rewrite lookup_insert_eq; eauto|].
    rewrite lookup_insert_ne in Hl by done. rewrite lookup_insert_ne by done. by eapply Hh.
Qed.

Lemma ref_Replace_ok id current replacement s :
  accounts_inv s ->
  accounts_inv (snd (ref_Replace id current replacement s)) /\
  match fst (ref_Replace id current replacement s) with
  | Ok _ => hashes s !! id = Some current /\ snd (ref_Replace id current replacement s) = set_hash id replacement s
  | Err _ => snd (ref_Replace id current replacement s) = s
  end.
Proof.
  intros Hinv. unfold ref_Replace. case_bool_decide as Hh; simpl; [|done].
  split; [|done]. apply accounts_inv_set_hash; [done|]. by eapply inv_hash.
Qed.

Lemma ref_Find_ok found s u c :
  (forall id a, found = Some (id, a) -> users s !! id = Some a) ->
  fst (ref_Find found s) = Ok (u, c) ->
  exists a, found = Some (ID u, a) /\ users s !! ID u = Some a /\ Email u = acc_Email a /\
    UserID c = ID u /\ hashes s !! ID u = Some (PasswordHash c).
Proof.
  intros Hf. unfold ref_Find. destruct found as [[id a]|]; [|done]. simpl.
  destruct (hashes s !! id) eqn:Hh; [|done]. intros [= <- <-]. exists a. simpl. split_and!; auto.
Qed.

#[export] Instance ref_email_contract `{Env} : EmailStoreContract ref_email_store accounts_inv id.
Proof.
  split; intros; unfold Datatypes.id in *; simpl.
  - wp_go; [|done]. rewrite ext_next_uuid. unfold ref_Register.
    destruct (find_by_email _ _) eqn:Hf; [done|]. destruct (users (ext w) !! id) eqn:Hid; [done|].
    destruct (String.eqb _ _) eqn:Hb; [done|]. go_bool. simpl.
    pose proof (find_by_email_None _ _ Hf).
    split_and!; [by apply accounts_inv_register|done|done|done|done|done].
  - wp_go. split_and!; [done|done|]. intros u c Hr.
    apply ref_Find_ok in Hr as (a & Hf & Ha & -> & Hc & Hh); [|intros ? ? Hf; by apply find_by_email_Some in Hf as [? _]].
    apply find_by_email_Some in Hf as [_ He]. split_and!; [by exists a|done..].
  - wp_go. by apply ref_Replace_ok.
Qed.

#[export] Instance ref_credential_contract : CredentialStoreContract ref_credential_store accounts_inv id.
Proof.
  split; intros; unfold Datatypes.id in *; simpl; wp_go.
  - split_and!; [done|done|]. intros u c Hr.
    apply ref_Find_ok in Hr as (a & Hf & Ha & -> & Hc & Hh); [|intros ? ? Hf; by destruct (users _ !! id) eqn:?; simplify_eq].
    destruct (users (ext w) !! id) eqn:Hu; [|done]. simplify_eq. split_and!; [by exists a|done..].
  - unfold ref_Add. destruct (users (ext w) !! id) as [a|] eqn:Hu, (hashes (ext w) !! id) eqn:Hh; simpl;
      try done. split_and!; [by apply accounts_inv_set_hash|by exists a|done..].
  - by apply ref_Replace_ok.
  - unfold ref_Remove. case_bool_decide; simpl; [|done].
    destruct (others (ext w) !! id) as [[|n]|] eqn:Ho; simpl; try done.
    split_and!; [|done|exists (Datatypes.S n); split; [done|lia]|done].
    destruct H as [Hu Hh]. split; [exact Hu|]. intros id' h' Hl. simpl in Hl.
    apply lookup_delete_Some in Hl as [_ Hl]. eauto.
Qed.

#[export] Instance default_passwords_contract {S} `{Env} `{Password.PasswordHashLaws} (wf : S -> Prop)
  (view : S -> accounts) : PasswordsContract defaultPasswords wf view.
Proof.
  split. intros password w Hwf. eapply wp_mono; [apply Password.wp_Hash|].
  intros res w' [[He _] Hh]. simpl. rewrite He. done.
Qed.

(** ** A run: alice registers *)
Definition demo_email_manager : Manager accounts :=
  mkManager accounts ref_email_store (Some ref_credential_store) defaultPasswords None None None
    Normalize Password.demo_hash demo_clock.

#[export] Instance demo_email_backend : EmailPasswordBackend demo_email_manager accounts_inv id.
Proof.
  split; [apply _|intros c [= <-]; apply _|apply _|done|done].
Defined.

Definition accounts_start : World accounts := demo_world (mkAccounts ∅ ∅ ∅ ∅ ∅).

Lemma accounts_start_ok : accounts_inv (ext accounts_start).
Proof. by split; [intros ? ? ? (? & ? & ?)|intros ? ?]. Defined.

Definition demo_email : string := " Alice@Example.com ".
Definition alice_registers : result User * World accounts :=
  Register demo_email_manager (mkRegisterInput demo_email Password.demo_password "10.0.0.1") accounts_start.
Definition accounts_after : World accounts := snd alice_registers.

Lemma accounts_after_ok : accounts_inv (ext accounts_after).
Proof.
  exact (proj1 (wp_Register demo_email_manager accounts_inv id
    (mkRegisterInput demo_email Password.demo_password "10.0.0.1") accounts_start accounts_start_ok)).
Defined.

(** * A reference mailbox

    The state of accounts with the messages that were sent, and lookup of the
    pending verification or reset with a hash: what the reference stores of
    packages [emailverification] and [passwordreset] share. *)

Record mailbox (Msg : Type) : Type := mkMailbox { box_accounts : accounts; box_mail : list Msg }.
Arguments mkMailbox {Msg}. Arguments box_accounts {Msg}. Arguments box_mail {Msg}.

Section Mailbox.
Context {Msg : Type}.

Definition on_accounts {A} (f : accounts -> A * accounts) : M (mailbox Msg) A :=
  lift_ext (fun s => let '(a, t) := f (box_accounts s) in (a, mkMailbox t (box_mail s))).

(** A sender that always delivers. *)
Definition deliver (m : Msg) : M (mailbox Msg) (result unit) :=
  lift_ext (fun s => (Ok tt, mkMailbox (box_accounts s) (box_mail s ++ [m]))).

Lemma wp_on_accounts {A} (f : accounts -> A * accounts) (Q : A -> World (mailbox Msg) -> Prop) w :
  Q (fst (f (box_accounts (ext w))))
    (set_ext (mkMailbox (snd (f (box_accounts (ext w)))) (box_mail (ext w))) w) ->
  wp (on_accounts f) Q w.
Proof.
  intros HQ. unfold on_accounts. apply wp_lift_ext. by destruct (f (box_accounts (ext w))).
Qed.

(** A call on the accounts alone. *)
Definition inside (w : World (mailbox Msg)) : World accounts :=
  mkWorld (ticks w) (draws w) (uuids w) (box_accounts (ext w)).
Definition outside (w : World (mailbox Msg)) (v : World accounts) : World (mailbox Msg) :=
  mkWorld (ticks v) (draws v) (uuids v) (mkMailbox (ext v) (box_mail (ext w))).
Definition zoom {A} (m : M accounts A) : M (mailbox Msg) A :=
  fun w => let '(a, v) := m (inside w) in (a, outside w v).

Lemma wp_zoom {A} (m : M accounts A) (Q : A -> World (mailbox Msg) -> Prop) w :
  wp m (fun a v => Q a (outside w v)) (inside w) -> wp (zoom m) Q w.
Proof. unfold wp, zoom. by destruct (m (inside w)). Qed.
End Mailbox.

(** ** Lookup by hash *)
Definition find_pending (hash : string) (m : gmap string pending) : option (string * pending) :=
  List.find (fun p => String.eqb (p_TokenHash (snd p)) hash) (map_to_list m).

(** No two users share the hash of a pending credential. *)
Definition pending_unique (m : gmap string pending) : Prop :=
  forall i j p q, m !! i = Some p -> m !! j = Some q -> p_TokenHash p = p_TokenHash q -> i = j.

Lemma find_pending_Some hash m i p :
  find_pending hash m = Some (i, p) -> m !! i = Some p /\ p_TokenHash p = hash.
Proof.
  intros Hf. apply find_some in Hf as [Hin He]. simpl in He. apply String.eqb_eq in He.
  apply list_elem_of_In, elem_of_map_to_list in Hin. done.
Qed.

Lemma find_pending_None hash m i p : find_pending hash m = None -> m !! i = Some p -> p_TokenHash p <> hash.
Proof.
  intros Hf Hp <-. apply find_none with (x := (i, p)) in Hf.
  - simpl in Hf. by rewrite String.eqb_refl in Hf.
  - by apply list_elem_of_In, elem_of_map_to_list.
Qed.

Lemma find_pending_eq hash m i p :
  pending_unique m -> m !! i = Some p -> p_TokenHash p = hash -> find_pending hash m = Some (i, p).
Proof.
  intros Hu Hp Hh. destruct (find_pending hash m) as [[j q]|] eqn:Hf.
  - apply find_pending_Some in Hf as [Hq Hhq]. assert (j = i) as -> by (eapply Hu; [done|done|congruence]).
    congruence.
  - by destruct (find_pending_None _ _ _ _ Hf Hp).
Qed.

(** Storing a credential keeps hashes apart when its hash is new or replaces
    the user's own. *)
Lemma pending_unique_insert i p m :
  pending_unique m -> (forall j q, find_pending (p_TokenHash p) m = Some (j, q) -> j = i) ->
  pending_unique (<[i := p]> m).
Proof.
  intros Hu Hi j k q r Hj Hk He.
  assert (Hfree : forall l s, m !! l = Some s -> p_TokenHash s = p_TokenHash p -> l = i).
  { intros l s Hl Hs. eapply Hi, find_pending_eq; eauto. }
  apply lookup_insert_Some in Hj as [[<- <-]|[? Hj]], Hk as [[<- <-]|[? Hk]]; [done| | |by eapply Hu].
  - symmetry. by eapply Hfree.
  - by eapply Hfree.
Qed.

Lemma pending_unique_delete i m : pending_unique m -> pending_unique (delete i m).
Proof. intros Hu j k q r [_ ?]%lookup_delete_Some [_ ?]%lookup_delete_Some. by eapply Hu. Qed.

(** The hash belongs to another user's pending credential. *)
Definition taken (hash id : string) (m : gmap string pending) : bool :=
  match find_pending hash m with
  | Some (owner, _) => negb (String.eqb owner id)
  | None => false
  end.

Lemma taken_false p id m :
  taken (p_TokenHash p) id m = false -> forall j q, find_pending (p_TokenHash p) m = Some (j, q) -> j = id.
Proof. unfold taken. intros Ht j q Hf. rewrite Hf in Ht. by go_bool. Qed.
