(* ===== verification/EmailPasswordProps.v ===== *)
(** * Email and password theorems *)
From S2P Require Import Prelude GoText Base64 EmailAddress EmailPassword.
From S2P Require Import AccountSpec EmailPasswordSpec AccountReference.
From S2P Require Password.

(** ** Calls *)
Inductive password_call : Type :=
| PRegister (input : RegisterInput)
| PLogin (input : LoginInput)
| PAddPassword (input : AddPasswordInput)
| PChangePassword (input : ChangePasswordInput)
| PRemovePassword (input : RemovePasswordInput).

(** The current password that a call presents. *)
Definition presented (c : password_call) : option string :=
  match c with
  | PLogin input => Some (login_Password input)
  | PChangePassword input => Some (CurrentPassword input)
  | PRemovePassword input => Some (remove_CurrentPassword input)
  | PRegister _ | PAddPassword _ => None
  end.

Section Properties.
Context {S : Type} `{Env} `{GoTables} `{Password.PasswordHashes} (manager : Manager S).
Context (wf : S -> Prop) (view : S -> accounts) `{!EmailPasswordBackend manager wf view}.

Abbreviation abs w := (view (ext w)).
Abbreviation verify := (pw_Verify (passwords manager)).

Definition password_run (c : password_call) (w : World S) : World S :=
  match c with
  | PRegister input => snd (Register manager input w)
  | PLogin input => snd (Login manager input w)
  | PAddPassword input => snd (AddPassword manager input w)
  | PChangePassword input => snd (ChangePassword manager input w)
  | PRemovePassword input => snd (RemovePassword manager input w)
  end.

(** C23: a sign-in succeeds only for the user that has the normalised email of
    the request, and only with a password that the stored hash of that user
    verifies; it changes nothing but that hash, and only when the hash was due
    for replacement, by a fresh hash of the same password. *)
Theorem Login_needs_password input w r w1 :
  wf (ext w) -> Login manager input w = (Ok r, w1) -> signed_in manager input r (abs w) (abs w1).
Proof.
  intros Hwf E. exact (proj2 (wp_elim _ _ _ _ _ (wp_Login manager wf view input w Hwf) E)).
Qed.

Lemma known_matches id h password s :
  hashes s !! id = Some h -> password_known manager id password s -> matches (verify password h) = true.
Proof. intros Hh (h' & Hh' & Hm). congruence. Qed.

Lemma set_hash_other id id' h s : hashes (set_hash id' h s) !! id <> hashes s !! id -> id' = id.
Proof. simpl. intros Hne. destruct (decide (id' = id)) as [|Hd]; [done|]. by rewrite lookup_insert_ne in Hne. Qed.

(** C22: the stored hash of a user is replaced or removed only by a call that
    presented a password which that hash verifies; a failed call changes none. *)
Theorem credential_changes_need_password c id h w :
  wf (ext w) -> accounts_inv (abs w) -> hashes (abs w) !! id = Some h ->
  hashes (abs (password_run c w)) !! id <> Some h ->
  exists password, presented c = Some password /\ matches (verify password h) = true.
Proof.
  intros Hwf Hinv Hh Hne. rewrite <- Hh in Hne. destruct c as [input|input|input|input|input]; simpl in *.
  - destruct (wp_Register manager wf view input w Hwf) as [_ Hr].
    destruct (fst _); [|by rewrite Hr in Hne]. destruct Hr as (e & _ & _ & Hn & _ & _ & h' & _ & _ & Hv).
    rewrite Hv in Hne. simpl in Hne. exfalso. destruct (decide (ID value = id)) as [<-|Hd].
    + destruct (inv_hash _ Hinv _ _ Hh) as [a Ha]. congruence.
    + by rewrite lookup_insert_ne in Hne.
  - destruct (wp_Login manager wf view input w Hwf) as [_ Hr].
    destruct (fst _) as [r|]; [|by rewrite Hr in Hne].
    destruct Hr as (e & h' & v & _ & _ & _ & Hh' & Hv & Hm & _ & Hs).
    destruct (Password.NeedsRehash v); [|by rewrite Hs in Hne]. destruct Hs as (h2 & _ & Hs).
    rewrite Hs in Hne. apply set_hash_other in Hne as <-. exists (login_Password input). split; [done|].
    assert (h' = h) as -> by congruence. by rewrite Hv.
  - destruct (wp_AddPassword manager wf view input w Hwf) as [_ Hr]. exfalso.
    assert (Hadd : added manager (TrimSpace (add_SubjectID input)) (add_Password input) (abs w)
      (abs (snd (AddPassword manager input w)))).
    { destruct (fst _); [by destruct Hr|]. destruct Hr as [Hr|[_ ?]]; [by rewrite Hr in Hne|done]. }
    destruct Hadd as (Hn & _ & h' & _ & _ & Hv). rewrite Hv in Hne.
    apply set_hash_other in Hne as <-. congruence.
  - destruct (wp_ChangePassword manager wf view input w Hwf) as [_ Hr].
    destruct (fst _); [|by rewrite Hr in Hne].
    destruct Hr as (_ & _ & _ & Hk & _ & h' & _ & _ & Hv). rewrite Hv in Hne.
    apply set_hash_other in Hne as <-. exists (CurrentPassword input). split; [done|].
    by eapply known_matches.
  - destruct (wp_RemovePassword manager wf view input w Hwf) as [_ Hr].
    destruct (fst _); [|by rewrite Hr in Hne]. destruct Hr as (Hk & _ & Hv).
    assert (Hid : TrimSpace (remove_SubjectID input) = id).
    { rewrite Hv in Hne. simpl in Hne. destruct (decide (TrimSpace (remove_SubjectID input) = id)); [done|].
      by rewrite lookup_delete_ne in Hne. }
    exists (remove_CurrentPassword input). split; [done|]. rewrite Hid in Hk. by eapply known_matches.
Qed.

(** ** Sign-in after a change *)

(** A store that answers, and a guard that lets every attempt through. *)
Class EmailAnswers : Prop := {
  answers_Find id email h w : wf (ext w) -> has_email id email (abs w) ->
    hashes (abs w) !! id = Some h ->
    fst (store_FindByEmail (store manager) email w) = Ok (mkUser id email, mkCredential id h);
  answers_guard a w : wf (ext w) -> fst (checkAttempt manager a w) = Ok tt;
}.

Lemma wp_Login_answers `{!EmailAnswers} raw email password source id h w :
  wf (ext w) -> normalizeAndValidateEmail manager raw = Ok email ->
  has_email id email (abs w) -> hashes (abs w) !! id = Some h -> TrimSpace h <> "" ->
  TrimSpace id <> "" -> verify password h = Ok (Password.mkVerification true false) ->
  wp (Login manager (mkLoginInput raw password source))
    (fun res _ => res = Ok (mkLoginResult (mkUser id email) false)) w.
Proof.
  intros Hwf Hn Hhas Hh Hblank Hid Hver. unfold Login. simpl. rewrite Hn. apply wp_bind_ok.
  set (a := mkAttempt _ _ _ _). eapply wp_mono.
  { apply wp_and; [apply (quiet_checkAttempt manager wf view a w Hwf)|].
    apply wp_fst, answers_guard. exact Hwf. }
  intros res w1 ([Hwf1 Hv1] & ->). apply wp_bind_ok. unfold lookupIdentity. apply wp_bind.
  rewrite <- Hv1 in Hhas, Hh. eapply wp_mono; [by apply wp_fst, answers_Find|]. intros res w2 ->.
  assert (Hvu : validUser (mkUser id email) = true).
  { unfold validUser. simpl. rewrite !(proj2 (String.eqb_neq _ _)); [done| |done].
    by eapply Valid_not_blank, normalize_Valid. }
  rewrite Hvu. unfold validCredential. simpl. rewrite !String.eqb_refl, (proj2 (String.eqb_neq _ _) Hblank).
  simpl. apply wp_ret. go_red. simpl. rewrite Hver. simpl. apply wp_bind_ok, wp_ret, wp_bind, wp_run.
  intros [] w3 _. by apply wp_ret.
Qed.

(** C37: an account that [Register] created can be signed in to at once, with
    the email and password it was registered with. *)
Theorem Register_then_Login `{!EmailAnswers} raw password source u w w1 :
  wf (ext w) -> Register manager (mkRegisterInput raw password source) w = (Ok u, w1) ->
  fst (Login manager (mkLoginInput raw password source) w1) = Ok (mkLoginResult u false).
Proof.
  intros Hwf E. destruct (wp_elim _ _ _ _ _ (wp_Register manager wf view _ w Hwf) E)
    as [Hwf1 (email & Hn & He & _ & _ & Hid & h & Hver & Hblank & Hv)]. simpl in *.
  destruct u as [id e]. simpl in *. subst e.
  apply (wp_Login_answers raw email password source id h w1); try done.
  - rewrite Hv. exists (mkAccount email false). simpl. by rewrite lookup_insert_eq.
  - rewrite Hv. simpl. apply lookup_insert_eq.
Qed.

(** After [ChangePassword], the user signs in with the new password, and
    the hash that verified the old one is no longer stored. *)
Theorem ChangePassword_then_Login `{!EmailAnswers} input raw source u w w1 :
  wf (ext w) -> ChangePassword manager input w = (Ok u, w1) ->
  normalizeAndValidateEmail manager raw = Ok (Email u) ->
  fst (Login manager (mkLoginInput raw (NewPassword input) source) w1) = Ok (mkLoginResult u false) /\
  hashes (abs w1) !! ID u <> hashes (abs w) !! ID u.
Proof.
  intros Hwf E Hn. destruct (wp_elim _ _ _ _ _ (wp_ChangePassword manager wf view _ w Hwf) E)
    as [Hwf1 (Hid & Hvu & (a & Ha & He) & (h & Hh & Hm) & Hnot & h' & Hver & Hblank & Hv)].
  destruct u as [id e]. simpl in *. subst id e. unfold validUser in Hvu. simpl in Hvu. go_bool. split.
  - apply (wp_Login_answers raw (acc_Email a) _ source _ h' w1); try done.
    + rewrite Hv. by exists a.
    + rewrite Hv. simpl. apply lookup_insert_eq.
  - rewrite Hv. simpl. rewrite lookup_insert_eq, Hh. intros [= <-].
    apply Hnot. exists h'. split; [done|]. by rewrite Hver.
Qed.

(** A failed sign-in does not tell why it failed: when the guard passes and
    the store answers, an email that cannot be normalised, an email nobody has
    and a password that does not match all end in [ErrInvalidCredentials]. *)
Theorem Login_failures_look_alike input w w1 identity w2 :
  let normalized := normalizeAndValidateEmail manager (login_Email input) in
  checkAttempt manager (mkAttempt OperationLogin
    (match normalized with Ok email => email | Err _ => "" end) "" (login_SourceKey input)) w = (Ok tt, w1) ->
  lookupIdentity manager normalized w1 = (Ok identity, w2) ->
  match identity with
  | Some (_, c) => matches (verify (login_Password input) (PasswordHash c)) = false
  | None => True
  end ->
  fst (Login manager input w) = Err ErrInvalidCredentials.
Proof.
  intros normalized Hg Hl Hm.
  enough (wp (Login manager input) (fun res _ => res = Err ErrInvalidCredentials) w) by done.
  unfold Login. apply wp_bind_ok, wp_run. fold normalized. intros ? ? E. rewrite Hg in E.
  injection E as <- <-. apply wp_bind_ok, wp_run. intros ? ? E. rewrite Hl in E. injection E as <- <-.
  unfold matches in Hm. destruct identity as [[u c]|]; go_red;
    destruct (verify _ _) as [v|e]; rewrite ?Hm; simpl;
    repeat first [apply wp_bind, wp_run; intros [] ? _ | by apply wp_ret].
Qed.
End Properties.

(** ** Runs of the theorems *)
Ltac email_ok E := exfalso; vm_compute in E; discriminate E.

#[export] Instance demo_email_answers : EmailAnswers demo_email_manager accounts_inv id.
Proof.
  split; [|done]. intros id email h w Hwf Hhas Hh. simpl. unfold lift_ext.
  destruct (find_by_email_has email (ext w) id Hwf Hhas) as (a & Hf & Ha). rewrite Hf. simpl.
  unfold Datatypes.id in *. rewrite Hh. simpl.
  apply find_by_email_Some in Hf as [_ ->]. done.
Qed.

Definition demo_login_input : LoginInput := mkLoginInput demo_email Password.demo_password "10.0.0.1".

Lemma Login_needs_password_witness :
  exists r w1, Login demo_email_manager demo_login_input accounts_after = (Ok r, w1) /\
    signed_in demo_email_manager demo_login_input r (id (ext accounts_after)) (id (ext w1)).
Proof.
  destruct (Login demo_email_manager demo_login_input accounts_after) as [[r|e] w1] eqn:E; [|email_ok E].
  exists r, w1. split; [reflexivity|].
  exact (Login_needs_password demo_email_manager accounts_inv id demo_login_input accounts_after r w1
    accounts_after_ok E).
Defined.

Definition demo_change : ChangePasswordInput :=
  mkChangeInput "A0190-7000" Password.demo_password "a better passphrase" "10.0.0.1".

Lemma credential_changes_need_password_witness :
  exists password, presented (PChangePassword demo_change) = Some password /\
    matches (pw_Verify (passwords demo_email_manager) password
      (default "" (hashes (ext accounts_after) !! "A0190-7000"))) = true.
Proof.
  destruct (hashes (id (ext accounts_after)) !! "A0190-7000") as [h|] eqn:Hh; [|email_ok Hh].
  assert (Hd : default "" (hashes (ext accounts_after) !! "A0190-7000") = h)
    by (change (ext accounts_after) with (id (ext accounts_after)); rewrite Hh; reflexivity).
  rewrite Hd. apply (credential_changes_need_password demo_email_manager accounts_inv id
    (PChangePassword demo_change) "A0190-7000" h accounts_after accounts_after_ok accounts_after_ok Hh).
  intros Hsame. vm_compute in Hh. injection Hh as <-. vm_compute in Hsame. discriminate Hsame.
Defined.

Lemma Register_then_Login_witness :
  exists u, fst alice_registers = Ok u /\
    fst (Login demo_email_manager demo_login_input accounts_after) = Ok (mkLoginResult u false).
Proof.
  destruct alice_registers as [[u|e] w1] eqn:E; [|email_ok E].
  exists u. split; [reflexivity|].
  assert (Hw : w1 = accounts_after) by (unfold accounts_after; rewrite E; reflexivity).
  rewrite <- Hw.
  exact (Register_then_Login demo_email_manager accounts_inv id demo_email Password.demo_password
    "10.0.0.1" u accounts_start w1 accounts_start_ok E).
Defined.

Lemma ChangePassword_then_Login_witness :
  exists u w1, ChangePassword demo_email_manager demo_change accounts_after = (Ok u, w1) /\
    fst (Login demo_email_manager (mkLoginInput demo_email "a better passphrase" "10.0.0.1") w1) =
      Ok (mkLoginResult u false).
Proof.
  destruct (ChangePassword demo_email_manager demo_change accounts_after) as [[u|e] w1] eqn:E; [|email_ok E].
  exists u, w1. split; [reflexivity|].
  apply (ChangePassword_then_Login demo_email_manager accounts_inv id demo_change demo_email "10.0.0.1" u
    accounts_after w1 accounts_after_ok E).
  vm_compute in E. injection E as <- _. vm_compute. reflexivity.
Defined.

Lemma Login_failures_look_alike_witness :
  fst (Login demo_email_manager (mkLoginInput "nobody@example.com" "guess" "10.0.0.1") accounts_after) =
    Err ErrInvalidCredentials /\
  fst (Login demo_email_manager (mkLoginInput demo_email "guess" "10.0.0.1") accounts_after) =
    Err ErrInvalidCredentials.
Proof.
  split.
  - apply (Login_failures_look_alike demo_email_manager _ accounts_after accounts_after None accounts_after);
      [reflexivity|vm_compute; reflexivity|exact I].
  - destruct (lookupIdentity demo_email_manager (Ok "alice@example.com") accounts_after)
      as [[identity|e] w2] eqn:E; [|email_ok E].
    apply (Login_failures_look_alike demo_email_manager _ accounts_after accounts_after identity w2).
    + reflexivity.
    + exact E.
    + vm_compute in E. injection E as <- _. vm_compute. reflexivity.
Defined.
