(* ===== verification/EmailVerification.v ===== *)
(** * Package [emailverification] (emailverification/emailverification.go)

    Proof of ownership of an email address, by a link with an opaque token or by
    a six-digit code. *)
From S2P Require Import Prelude GoText Base64 Sha256 Token EmailAddress.

Definition issueAttempts : nat := 3.
Definition otpDigits : nat := 6.
Definition minimumOTPSecretSize : nat := 32.

Definition ErrAlreadyVerified : error := New "emailverification.ErrAlreadyVerified".
Definition ErrAttemptBlocked : error := New "emailverification.ErrAttemptBlocked".
Definition ErrConflict : error := New "emailverification.ErrConflict".
Definition ErrInactiveToken : error := New "emailverification.ErrInactiveToken".
Definition ErrInvalidConfig : error := New "emailverification.ErrInvalidConfig".
Definition ErrInvalidRecord : error := New "emailverification.ErrInvalidRecord".
Definition ErrNotFound : error := New "emailverification.ErrNotFound".

(** ** Data *)
Definition DeliveryMethod : Type := string.
Definition DeliveryMethodLink : DeliveryMethod := "link".
Definition DeliveryMethodOTP : DeliveryMethod := "otp".

Record User : Type := mkUser { user_ID : string; user_Email : string; Verified : bool }.

(** The Go type is called [Record]. *)
Record VerificationRecord : Type := mkVerificationRecord {
  rec_UserID : string;
  rec_Email : string;
  rec_TokenHash : Hash;
  rec_CreatedAt : time;
  rec_ExpiresAt : time;
}.

Record Store (S : Type) : Type := mkStore {
  store_FindUserByEmail : string -> M S (result User);
  store_Issue : VerificationRecord -> M S (result unit);
  store_Verify : Hash -> time -> M S (result User);
}.
Arguments store_FindUserByEmail {S}. Arguments store_Issue {S}. Arguments store_Verify {S}.

Record Message : Type := mkMessage {
  UserID : string;
  Email : string;
  Token_ : string;
  Code : string;
  URL : string;
  ExpiresAt : time;
}.

(** The interface [Sender]. *)
Definition Sender (S : Type) : Type := Message -> M S (result unit).

Inductive Operation : Type := OperationRequest | OperationVerify.

Record Attempt : Type := mkAttempt {
  attempt_Operation : Operation;
  attempt_Email : string;
  attempt_SourceKey : string;
}.

Definition AttemptGuard (S : Type) : Type := Attempt -> M S (result unit).

Inductive EventType : Type := EventMessageSent | EventVerified | EventVerifyFailed.

Record SecurityEvent : Type := mkEvent {
  event_Type : EventType;
  event_SubjectID : string;
  event_SourceKey : string;
  event_OccurredAt : time;
}.

Definition SecurityEventSink (S : Type) : Type := SecurityEvent -> M S unit.

Record Config (S : Type) : Type := mkConfig {
  c_Delivery : DeliveryMethod;
  c_OTPSecret : string;
  c_Lifetime : duration;
  c_Sender : option (Sender S);
  c_AttemptGuard : option (AttemptGuard S);
  c_SecurityEvents : option (SecurityEventSink S);
  c_NormalizeEmail : option Normalizer;
  c_Now : option (nat -> time);
}.
Arguments c_Delivery {S}. Arguments c_OTPSecret {S}. Arguments c_Lifetime {S}. Arguments c_Sender {S}.
Arguments c_AttemptGuard {S}. Arguments c_SecurityEvents {S}. Arguments c_NormalizeEmail {S}.
Arguments c_Now {S}.

Record Manager (S : Type) : Type := mkManager {
  store : Store S;
  sender : Sender S;
  attemptGuard : option (AttemptGuard S);
  securityEvents : option (SecurityEventSink S);
  normalizeEmail : Normalizer;
  delivery : DeliveryMethod;
  otpSecret : string;
  lifetime : duration;
  now : nat -> time;
}.
Arguments store {S}. Arguments sender {S}. Arguments attemptGuard {S}. Arguments securityEvents {S}.
Arguments normalizeEmail {S}. Arguments delivery {S}. Arguments otpSecret {S}. Arguments lifetime {S}.
Arguments now {S}.

Record RequestInput : Type := mkRequestInput { request_Email : string; request_SourceKey : string }.

Record VerifyInput : Type := mkVerifyInput {
  verify_Token : string;
  verify_Email : string;
  verify_Code : string;
  verify_SourceKey : string;
}.

Record credential : Type := mkCredential { token : string; code : string }.

(** ** One-time codes *)

(** [rand.Int(rand.Reader, maximum)]: candidates of three bytes are read until
    one is below the maximum. The source determines the value returned, and any
    value below the maximum may be returned. *)
Definition rand_Int {S} `{Env} (maximum : N) : M S (result N) :=
  fun w => (match rand_source (draws w) with
            | Some f => Ok ((N_of_ascii (f 0%nat) * 65536 + N_of_ascii (f 1%nat) * 256 +
                             N_of_ascii (f 2%nat)) mod maximum)%N
            | None => Err ErrRand
            end, draw w).

Definition generateOTP {S} `{Env} : M S (result string) :=
  value <-? rand_Int (10 ^ N.of_nat otpDigits) ;;
  ret (Ok (pad_zeros otpDigits (format_uint value))).

Definition validOTP (code : string) : bool :=
  (String.length code =? otpDigits)%nat && forallb is_digit (list_of_string code).

(** ** Operations *)
Section Operations.
Context {S : Type} `{Env} `{GoTables}.

Definition NewManager (store : option (Store S)) (config : Config S) : result (Manager S) :=
  match store with
  | None => Err (Errorf "%w: store is required" [ErrInvalidConfig])
  | Some store =>
      match c_Sender config with
      | None => Err (Errorf "%w: sender is required" [ErrInvalidConfig])
      | Some sender =>
          if (c_Lifetime config <=? 0)%Z
          then Err (Errorf "%w: lifetime must be positive" [ErrInvalidConfig]) else
          let delivery := if String.eqb (c_Delivery config) "" then DeliveryMethodLink
                          else c_Delivery config in
          if negb (String.eqb delivery DeliveryMethodLink) && negb (String.eqb delivery DeliveryMethodOTP)
          then Err (Errorf "%w: delivery method must be link or otp" [ErrInvalidConfig]) else
          if String.eqb delivery DeliveryMethodOTP && negb (bool_decide (is_Some (c_AttemptGuard config)))
          then Err (Errorf "%w: attempt guard is required for OTP delivery" [ErrInvalidConfig]) else
          if String.eqb delivery DeliveryMethodOTP &&
             (String.length (c_OTPSecret config) <? minimumOTPSecretSize)%nat
          then Err (Errorf "%w: OTP secret must contain at least %d bytes" [ErrInvalidConfig]) else
          Ok (mkManager S store sender (c_AttemptGuard config) (c_SecurityEvents config)
                (default Normalize (c_NormalizeEmail config)) delivery (c_OTPSecret config)
                (c_Lifetime config) (default time_Now (c_Now config)))
      end
  end.

(** The normalised address, empty when there is none. *)
Definition normalizedOrEmpty (manager : Manager S) (email : string) : string :=
  match normalizeEmail manager email with
  | Ok normalizedEmail => if Valid normalizedEmail then normalizedEmail else ""
  | Err _ => ""
  end.

Definition hashOTP (manager : Manager S) (email code : string) : Hash :=
  hmac_sha256 (otpSecret manager) (email +:+ String "000" code).

Definition generateCredential (manager : Manager S) (email : string) : M S (result (credential * Hash)) :=
  if String.eqb (delivery manager) DeliveryMethodOTP then
    code <-? generateOTP ;;
    ret (Ok (mkCredential "" code, hashOTP manager email code))
  else
    generated <-? Generate ;;
    ret (Ok (mkCredential (fst generated) "", snd generated)).

Definition hashVerificationInput (manager : Manager S) (input : VerifyInput) (normalizedEmail : string) :
    result Hash :=
  if String.eqb (delivery manager) DeliveryMethodOTP then
    if String.eqb normalizedEmail "" || negb (validOTP (verify_Code input)) then Err ErrInvalidToken
    else Ok (hashOTP manager normalizedEmail (verify_Code input))
  else HashToken (verify_Token input).

Definition checkAttempt (manager : Manager S) (attempt : Attempt) : M S (result unit) :=
  match attemptGuard manager with
  | None => ret (Ok tt)
  | Some check => wrapped "check email verification attempt: %w" (check attempt)
  end.

Definition record (manager : Manager S) (eventType : EventType) (subjectID sourceKey : string) :
    M S unit :=
  match securityEvents manager with
  | None => ret tt
  | Some sink =>
      at_ <- read_now (now manager) ;;
      sink (mkEvent eventType subjectID sourceKey at_)
  end.

Definition validUser (user : User) (expectedEmail : string) : bool :=
  negb (String.eqb (TrimSpace (user_ID user)) "" || negb (String.eqb (user_Email user) expectedEmail) ||
        negb (Valid (user_Email user))).

Definition Request (manager : Manager S) (input : RequestInput) : M S (result unit) :=
  let normalizedEmail := normalizedOrEmpty manager (request_Email input) in
  _ <-? checkAttempt manager (mkAttempt OperationRequest normalizedEmail (request_SourceKey input)) ;;
  if String.eqb normalizedEmail "" then ret (Ok tt) else
  r <- store_FindUserByEmail (store manager) normalizedEmail ;;
  match r with
  | Err err =>
      if errors_Is err ErrNotFound then ret (Ok tt)
      else ret (Err (Errorf "find user for email verification: %w" [err]))
  | Ok user =>
      if negb (validUser user normalizedEmail) then ret (Err ErrInvalidRecord) else
      if Verified user then ret (Ok tt) else
      for_range issueAttempts
        (r <- wrapped "generate email verification credential: %w"
                (generateCredential manager normalizedEmail) ;;
         match r with
         | Err err => ret (Return (Err err))
         | Ok (credential, tokenHash) =>
             now <- read_now (now manager) ;;
             let rec := mkVerificationRecord (user_ID user) (user_Email user) tokenHash now
                          (Add now (lifetime manager)) in
             r <- store_Issue (store manager) rec ;;
             match r with
             | Err err =>
                 if errors_Is err ErrConflict then ret (Next tt) else
                 if errors_Is err ErrAlreadyVerified then ret (Return (Ok tt)) else
                 ret (Return (Err (Errorf "store email verification token: %w" [err])))
             | Ok _ =>
                 r <- sender manager (mkMessage (user_ID user) (user_Email user) (token credential)
                                        (code credential) "" (rec_ExpiresAt rec)) ;;
                 match r with
                 | Err err => ret (Return (Err (Errorf "send email verification message: %w" [err])))
                 | Ok _ =>
                     _ <- record manager EventMessageSent (user_ID user) (request_SourceKey input) ;;
                     ret (Return (Ok tt))
                 end
             end
         end)
        (ret (Err (Errorf "create unique email verification token: %w" [ErrConflict])))
  end.

Definition Verify (manager : Manager S) (input : VerifyInput) : M S (result User) :=
  let normalizedEmail := if String.eqb (delivery manager) DeliveryMethodOTP
                         then normalizedOrEmpty manager (verify_Email input) else "" in
  _ <-? checkAttempt manager (mkAttempt OperationVerify normalizedEmail (verify_SourceKey input)) ;;
  match hashVerificationInput manager input normalizedEmail with
  | Err _ =>
      _ <- record manager EventVerifyFailed "" (verify_SourceKey input) ;;
      ret (Err ErrInvalidToken)
  | Ok tokenHash =>
      now <- read_now (now manager) ;;
      r <- store_Verify (store manager) tokenHash now ;;
      match r with
      | Err err =>
          if errors_Is err ErrNotFound || errors_Is err ErrInactiveToken then
            _ <- record manager EventVerifyFailed "" (verify_SourceKey input) ;;
            ret (Err ErrInvalidToken)
          else ret (Err (Errorf "verify email: %w" [err]))
      | Ok user =>
          if String.eqb (TrimSpace (user_ID user)) "" || negb (Valid (user_Email user)) ||
             negb (Verified user)
          then ret (Err ErrInvalidRecord) else
          _ <- record manager EventVerified (user_ID user) (verify_SourceKey input) ;;
          ret (Ok user)
      end
  end.

Definition IsVerified (manager : Manager S) (email : string) : M S (result bool) :=
  let normalizedEmail := normalizedOrEmpty manager email in
  if String.eqb normalizedEmail "" then ret (Ok false) else
  r <- store_FindUserByEmail (store manager) normalizedEmail ;;
  match r with
  | Err err =>
      if errors_Is err ErrNotFound then ret (Ok false)
      else ret (Err (Errorf "find email verification status: %w" [err]))
  | Ok user =>
      if negb (validUser user normalizedEmail) then ret (Err ErrInvalidRecord)
      else ret (Ok (Verified user))
  end.
End Operations.
