(* ===== verification/EmailVerificationSpec.v ===== *)
(** * What email verification promises

    The contract of the store and the sender behind package
    [emailverification], and the effect of its operations. *)
From S2P Require Import Prelude GoText Base64 Sha256 Token EmailAddress AccountSpec EmailVerification AccountReference.

Definition user_of (id : string) (a : account) : User := mkUser id (acc_Email a) (acc_Verified a).

(** The pending verification of [id] is used up and its email is verified. *)
Definition verify_user (id : string) (a : account) (s : accounts) : accounts :=
  set_verifications (delete id (verifications s))
    (set_users (<[id := mkAccount (acc_Email a) true]> (users s)) s).

(** [kept] is what the store keeps of the expiry of a verification. *)
Section Contract.
Context {S : Type}.

Class KeptVerificationStoreContract (kept : time -> time) (st : Store S) (wf : S -> Prop) (view : S -> accounts)
    (outbox : S -> list Message) : Prop := {
  verification_unique w i j p q : wf (ext w) ->
    verifications (view (ext w)) !! i = Some p -> verifications (view (ext w)) !! j = Some q ->
    p_TokenHash p = p_TokenHash q -> i = j;
  verification_Find_ok email w : wf (ext w) ->
    wp (store_FindUserByEmail st email) (fun res w' => wf (ext w') /\ view (ext w') = view (ext w) /\
      outbox (ext w') = outbox (ext w) /\
      forall u, res = Ok u -> exists a, users (view (ext w)) !! user_ID u = Some a /\
        acc_Email a = email /\ u = user_of (user_ID u) a) w;
  verification_Issue_ok rec w : wf (ext w) ->
    wp (store_Issue st rec) (fun res w' => wf (ext w') /\ outbox (ext w') = outbox (ext w) /\
      match res with
      | Ok _ => view (ext w') =
          set_verifications
            (<[rec_UserID rec := mkPending (rec_Email rec) (rec_TokenHash rec) (kept (rec_ExpiresAt rec))]>
               (verifications (view (ext w)))) (view (ext w))
      | Err _ => view (ext w') = view (ext w)
      end) w;
  verification_Verify_ok hash at_ w : wf (ext w) ->
    wp (store_Verify st hash at_) (fun res w' => wf (ext w') /\ outbox (ext w') = outbox (ext w) /\
      match res with
      | Ok u => exists p a, verifications (view (ext w)) !! user_ID u = Some p /\ p_TokenHash p = hash /\
                  (at_ < p_ExpiresAt p)%Z /\ users (view (ext w)) !! user_ID u = Some a /\
                  acc_Verified a = false /\ u = mkUser (user_ID u) (acc_Email a) true /\
                  view (ext w') = verify_user (user_ID u) a (view (ext w))
      | Err _ => view (ext w') = view (ext w)
      end) w;
}.

End Contract.

(** What is given is kept. *)
Abbreviation VerificationStoreContract := (KeptVerificationStoreContract (fun t => t)).

Section Backend.
Context {S : Type}.

Class VerificationBackend (manager : Manager S) (wf : S -> Prop) (view : S -> accounts)
    (outbox : S -> list Message) : Prop := {
  backend_store :: VerificationStoreContract (store manager) wf view outbox;
  backend_sender m w : wf (ext w) ->
    wp (sender manager m) (fun res w' => wf (ext w') /\ view (ext w') = view (ext w) /\
      (outbox (ext w') = outbox (ext w) ++ [m] \/
       (exists e, res = Err e) /\ outbox (ext w') = outbox (ext w))) w;
  backend_guard g a w : attemptGuard manager = Some g -> wf (ext w) ->
    wp (g a) (fun _ w' => wf (ext w') /\ view (ext w') = view (ext w) /\
      outbox (ext w') = outbox (ext w) /\ ticks w <= ticks w') w;
  backend_events e a w : securityEvents manager = Some e -> wf (ext w) ->
    wp (e a) (fun _ w' => wf (ext w') /\ view (ext w') = view (ext w) /\
      outbox (ext w') = outbox (ext w)) w;
}.
End Backend.

(** ** One-time codes *)
Lemma decimal_digits_length fuel n acc k :
  (n < 10 ^ N.of_nat (Datatypes.S k))%N ->
  String.length (decimal_digits fuel n acc) <= Datatypes.S k + String.length acc.
Proof.
  revert n acc k. induction fuel as [|fuel IH]; intros n acc k Hn; simpl; [lia|].
  destruct (N.ltb_spec n 10) as [|Hge]; simpl; [lia|]. destruct k as [|k]; [lia|].
  assert (Hd : (n / 10 < 10 ^ N.of_nat (Datatypes.S k))%N).
  { apply N.Div0.div_lt_upper_bound. rewrite Nat2N.inj_succ, N.pow_succ_r' in Hn. lia. }
  specialize (IH _ (String (digit (n mod 10)) acc) k Hd). simpl in IH. lia.
Qed.

Lemma is_digit_digit n : (n < 10)%N -> is_digit (digit n) = true.
Proof.
  intros Hn. unfold is_digit, byte_in, digit. rewrite N_ascii_embedding by lia.
  by rewrite !(proj2 (N.leb_le _ _)) by lia.
Qed.

Lemma decimal_digits_digits fuel n acc :
  forallb is_digit (list_of_string acc) = true ->
  forallb is_digit (list_of_string (decimal_digits fuel n acc)) = true.
Proof.
  revert n acc. induction fuel as [|fuel IH]; intros n acc Hacc; simpl; [done|].
  assert (Hacc' : forallb is_digit (list_of_string (String (digit (n mod 10)) acc)) = true).
  { simpl. rewrite is_digit_digit by by apply N.mod_lt. done. }
  destruct (n <? 10)%N; [done|]. by apply IH.
Qed.

(** A padded number below [10^6] is a code that [Verify] accepts. *)
Lemma validOTP_padded n : (n < 10 ^ N.of_nat otpDigits)%N ->
  validOTP (pad_zeros otpDigits (format_uint n)) = true.
Proof.
  intros Hn. pose proof (decimal_digits_length (N.size_nat n + 1) n "" 5 Hn) as Hlen. simpl in Hlen.
  pose proof (decimal_digits_digits (N.size_nat n + 1) n "" eq_refl) as Hdig.
  unfold validOTP, pad_zeros, format_uint in *. set (s := decimal_digits _ n "") in *.
  rewrite length_string_of_list, list_of_string_of_list, length_app, repeat_length.
  assert (Hls : length (list_of_string s) = String.length s)
    by (rewrite <- length_string_of_list; by rewrite string_of_list_of_string).
  rewrite Hls. unfold otpDigits in *. rewrite (proj2 (Nat.eqb_eq _ _)) by lia.
  rewrite forallb_app, Hdig. generalize (6 - String.length s). intros m. simpl. rewrite andb_true_r.
  by induction m.
Qed.

(** ** Refinement *)
Section Refinement.
Context {S : Type} `{Env} `{GoTables} (manager : Manager S).
Context (wf : S -> Prop) (view : S -> accounts) (outbox : S -> list Message).
Context `{!VerificationBackend manager wf view outbox}.

Abbreviation abs w := (view (ext w)).
Abbreviation mail w := (outbox (ext w)).

Lemma wp_verification_guard a w :
  wf (ext w) ->
  wp (checkAttempt manager a)
    (fun _ w' => wf (ext w') /\ abs w' = abs w /\ mail w' = mail w /\ ticks w <= ticks w') w.
Proof.
  intros Hwf. unfold checkAttempt. destruct (attemptGuard manager) as [g|] eqn:Hg; [|by wp_go].
  apply wp_wrapped. eapply wp_mono; [by eapply backend_guard|]. auto.
Qed.

Lemma wp_verification_record e subject source w :
  wf (ext w) ->
  wp (record manager e subject source) (fun _ w' => wf (ext w') /\ abs w' = abs w /\ mail w' = mail w) w.
Proof.
  intros Hwf. unfold record. destruct (securityEvents manager) as [sink|] eqn:He; wp_go; [|done].
  eapply wp_mono; [by eapply backend_events|]. done.
Qed.

(** The hash under which a message's credential is stored. *)
Definition credential_hash (m : Message) : result Hash :=
  hashVerificationInput manager (mkVerifyInput (Token_ m) (Email m) (Code m) "") (Email m).

Lemma wp_generateCredential email w :
  email <> "" ->
  wp (generateCredential manager email) (fun res w' => ext w' = ext w /\
    forall c h, res = Ok (c, h) -> forall id url expires,
      credential_hash (mkMessage id email (token c) (code c) url expires) = Ok h) w.
Proof.
  intros Hne. unfold generateCredential, credential_hash, hashVerificationInput. simpl.
  destruct (String.eqb (delivery manager) DeliveryMethodOTP).
  - apply wp_bind_ok. unfold generateOTP. apply wp_bind_ok. unfold rand_Int, wp. simpl.
    destruct (rand_source (draws w)) as [f|]; simpl; [|done]. split; [done|].
    intros c h E. apply (f_equal (fun r => match r with Ok x => x | Err _ => (c, h) end)) in E.
    injection E as <- <-. intros id url expires. cbn [code].
    rewrite validOTP_padded by by apply N.mod_lt. by rewrite (proj2 (String.eqb_neq _ _) Hne).
  - apply wp_bind_ok, wp_Generate; [|by split]. intros raw h Hh. wp_go. split; [done|].
    by intros c h' [= <- <-].
Qed.

(** A stored credential for a user whose email is not verified yet. *)
Definition issued (id email : string) (h : Hash) (expires : time) (s s' : accounts) : Prop :=
  TrimSpace id <> "" /\
  (exists a, users s !! id = Some a /\ acc_Email a = email /\ acc_Verified a = false) /\
  s' = set_verifications (<[id := mkPending email h expires]> (verifications s)) s.

(** What [Request] did: nothing; or it stored a credential and sent it to the
    address on record; or it stored one and the message failed. *)
Definition requested (input : RequestInput) (res : result unit) (s s' : accounts)
    (before after : list Message) : Prop :=
  let email := normalizedOrEmpty manager (request_Email input) in
  (s' = s /\ after = before) \/
  (exists m h, after = before ++ [m] /\ Email m = email /\ email <> "" /\
     credential_hash m = Ok h /\ issued (UserID m) email h (ExpiresAt m) s s') \/
  (exists id h expires e, res = Err e /\ after = before /\ issued id email h expires s s').

Lemma validUser_true u email : validUser u email = true ->
  TrimSpace (user_ID u) <> "" /\ user_Email u = email /\ Valid (user_Email u) = true.
Proof. unfold validUser. intros Hv. go_bool. done. Qed.

Lemma wp_Request input w :
  wf (ext w) ->
  wp (Request manager input) (fun res w' => wf (ext w') /\
    requested input res (abs w) (abs w') (mail w) (mail w')) w.
Proof.
  intros Hwf. unfold Request, requested. wp_go.
  eapply wp_mono; [by apply wp_verification_guard|]. intros [[]|e] w1 (Hwf1 & Hv1 & Hm1 & Ht1); wp_go; [by auto| |by auto].
  eapply wp_mono; [by apply verification_Find_ok|]. rewrite Hv1, Hm1.
  intros [u|e] w2 (Hwf2 & Hv2 & Hm2 & Hu); wp_go; try (by auto).
  apply negb_false_iff, validUser_true in Heqb0 as (Hid & He & _). apply String.eqb_neq in Heqb.
  destruct (Hu u eq_refl) as (a & Ha & Hea & Hua).
  apply wp_for_range with (I := fun w' => wf (ext w') /\ abs w' = abs w /\ mail w' = mail w);
    [done| |intros w3 (? & ? & ?); wp_go; auto].
  intros w3 (Hwf3 & Hv3 & Hm3). wp_go. eapply wp_mono; [by apply wp_generateCredential|].
  intros [[c h]|e] w4 [He4 Hc]; wp_go; [|rewrite He4; auto].
  eapply wp_mono; [apply verification_Issue_ok; by rewrite ext_tick, He4|]. rewrite ext_tick, He4, Hv3, Hm3.
  simpl. intros [[]|e] w5 (Hwf5 & Hm5 & Hv5); wp_go; [|by auto..].
  assert (Hiss : forall x, issued (user_ID u) (normalizedOrEmpty manager (request_Email input)) h x (abs w)
    (set_verifications (<[user_ID u := mkPending (user_Email u) h x]> (verifications (abs w))) (abs w))).
  { intros x. rewrite He. split_and!; [done| |done]. exists a. split_and!; [done|congruence|].
    rewrite Hua in Heqb1. done. }
  eapply wp_mono; [by apply backend_sender|].
  intros [[]|e] w6 (? & Hv6 & Hm6); wp_go; rewrite Hv5, ?Hm5 in *.
  - eapply wp_mono; [by apply wp_verification_record|]. intros [] w7 (? & Hv7 & Hm7). wp_go.
    split; [done|]. right; left. destruct Hm6 as [Hm6|[[? ?] _]]; [|done].
    eexists _, h. rewrite Hm7, Hm6. split_and!; [done|by simpl|done| |].
    + rewrite He. by apply Hc.
    + rewrite Hv7, Hv6. simpl. apply Hiss.
  - split; [done|]. right. destruct Hm6 as [Hm6|[_ Hm6]].
    + left. eexists _, h. rewrite Hm6. split_and!; [done|by simpl|done| |].
      * rewrite He. by apply Hc.
      * rewrite Hv6. simpl. apply Hiss.
    + right. eexists _, h, _, _. split_and!; [done|done|]. rewrite Hv6. apply Hiss.
Qed.

(** The use of a stored credential: it was live at the [n]-th clock reading, and
    its owner's email is verified now. *)
Definition verified (h : Hash) (n : nat) (u : User) (s s' : accounts) : Prop :=
  exists p a, verifications s !! user_ID u = Some p /\ p_TokenHash p = h /\
    (now manager n < p_ExpiresAt p)%Z /\
    users s !! user_ID u = Some a /\ acc_Verified a = false /\
    u = mkUser (user_ID u) (acc_Email a) true /\ s' = verify_user (user_ID u) a s.

Definition otpEmail (input : VerifyInput) : string :=
  if String.eqb (delivery manager) DeliveryMethodOTP
  then normalizedOrEmpty manager (verify_Email input) else "".

Definition used (input : VerifyInput) (n : nat) (u : User) (s s' : accounts) : Prop :=
  exists h m, hashVerificationInput manager input (otpEmail input) = Ok h /\ n <= m /\ verified h m u s s'.

Lemma wp_Verify input w :
  wf (ext w) ->
  wp (Verify manager input) (fun res w' => wf (ext w') /\ mail w' = mail w /\
    match res with
    | Ok u => used input (ticks w) u (abs w) (abs w')
    | Err e => abs w' = abs w \/ e = ErrInvalidRecord /\ exists u, used input (ticks w) u (abs w) (abs w')
    end) w.
Proof.
  intros Hwf. unfold Verify. fold (otpEmail input). wp_go.
  eapply wp_mono; [by apply wp_verification_guard|]. intros [[]|e] w1 (Hwf1 & Hv1 & Hm1 & Ht1); wp_go; [| |by auto].
  - eapply wp_mono; [by apply verification_Verify_ok|]. rewrite ext_tick, Hv1, Hm1.
    intros [u|e] w2 (Hwf2 & Hm2 & Hu).
    + assert (Hused : used input (ticks w) u (abs w) (abs w2)).
      { destruct Hu as (p & a & ? & ? & ? & ? & ? & ? & ?). eexists _, (ticks w1). split_and!; [done|done|].
        by exists p, a. }
      wp_go; [by eauto 6|]. eapply wp_mono; [by apply wp_verification_record|].
      intros [] w3 (? & Hv3 & Hm3). wp_go. rewrite Hv3. split_and!; [done|congruence|done].
    + wp_go; [|by auto]. eapply wp_mono; [by apply wp_verification_record|].
      intros [] w3 (? & Hv3 & Hm3). wp_go. split_and!; [done|congruence|left; congruence].
  - eapply wp_mono; [by apply wp_verification_record|]. intros [] w3 (? & Hv3 & Hm3). wp_go.
    split_and!; [done|congruence|left; congruence].
Qed.
End Refinement.

(** * A reference backend for email verification

    A store whose state is the abstract one and a sender that always delivers,
    and a run: alice asks for a six-digit code. *)

Definition ref_FindUserByEmail (email : string) (s : accounts) : result User * accounts :=
  (match find_by_email email s with
   | Some (id, a) => Ok (user_of id a)
   | None => Err ErrNotFound
   end, s).

Definition ref_Issue (rec : VerificationRecord) (s : accounts) : result unit * accounts :=
  match users s !! rec_UserID rec with
  | None => (Err ErrNotFound, s)
  | Some a =>
      if acc_Verified a then (Err ErrAlreadyVerified, s) else
      if taken (rec_TokenHash rec) (rec_UserID rec) (verifications s) then (Err ErrConflict, s) else
      (Ok tt, set_verifications
         (<[rec_UserID rec := mkPending (rec_Email rec) (rec_TokenHash rec) (rec_ExpiresAt rec)]>
            (verifications s)) s)
  end.

Definition ref_Verify (hash : Hash) (at_ : time) (s : accounts) : result User * accounts :=
  match find_pending hash (verifications s) with
  | None => (Err ErrNotFound, s)
  | Some (id, p) =>
      match users s !! id with
      | None => (Err ErrNotFound, s)
      | Some a =>
          if acc_Verified a || negb (Before at_ (p_ExpiresAt p)) then (Err ErrInactiveToken, s) else
          (Ok (mkUser id (acc_Email a) true), verify_user id a s)
      end
  end.

Definition ref_verification_store : Store (mailbox Message) :=
  {| store_FindUserByEmail email := on_accounts (ref_FindUserByEmail email);
     store_Issue rec := on_accounts (ref_Issue rec);
     store_Verify hash at_ := on_accounts (ref_Verify hash at_) |}.

Definition verification_wf (s : mailbox Message) : Prop :=
  accounts_inv (box_accounts s) /\ pending_unique (verifications (box_accounts s)).

Lemma accounts_inv_verify id a s :
  accounts_inv s -> users s !! id = Some a -> accounts_inv (verify_user id a s).
Proof.
  intros [Hu Hh] Ha.
  assert (Hsame : forall i email, has_email i email (verify_user id a s) -> has_email i email s).
  { intros i email (b & Hb & <-). simpl in Hb. apply lookup_insert_Some in Hb as [[<- <-]|[_ Hb]]; by eexists. }
  split; [intros i j email Hi Hj; eapply Hu; by apply Hsame|]. intros i h Hl. simpl.
  destruct (decide (id = i)) as [<-|Hne]; [rewrite lookup_insert_eq; eauto|].
  rewrite lookup_insert_ne by done. by eapply Hh.
Qed.

#[export] Instance ref_verification_contract :
  VerificationStoreContract ref_verification_store verification_wf box_accounts box_mail.
Proof.
  split; simpl.
  - intros w i j p q [_ Hu]. apply Hu.
  - intros email w Hwf. apply wp_on_accounts. simpl. split_and!; [done..|].
    intros u. destruct (find_by_email email _) as [[id a]|] eqn:Hf; [|done]. intros [= <-].
    apply find_by_email_Some in Hf as [Ha He]. by exists a.
  - intros rec w [Hinv Hu]. apply wp_on_accounts. unfold ref_Issue.
    destruct (users _ !! _) as [a|]; [|done]. destruct (acc_Verified a); [done|].
    destruct (taken _ _ _) eqn:Ht; [done|]. simpl. split_and!; [|done..].
    split; [by destruct Hinv|]. apply pending_unique_insert; [done|]. by apply taken_false.
  - intros hash at_ w [Hinv Hu]. apply wp_on_accounts. unfold ref_Verify.
    destruct (find_pending _ _) as [[i p]|] eqn:Hf; [|done].
    destruct (users _ !! i) as [a|] eqn:Ha; [|done].
    destruct (acc_Verified a || _) eqn:Hb; [done|]. go_bool. simpl.
    apply find_pending_Some in Hf as [Hp Hh]. split_and!; [|done|by exists p, a].
    split; [by apply accounts_inv_verify|by apply pending_unique_delete].
Qed.

(** ** A run with one-time codes *)
Definition demo_verification_manager : Manager (mailbox Message) :=
  mkManager _ ref_verification_store deliver (Some (fun _ => ret (Ok tt))) None Normalize
    DeliveryMethodOTP "0123456789abcdef0123456789abcdef" (10 * Minute)%Z demo_clock.

#[export] Instance demo_verification_backend :
  VerificationBackend demo_verification_manager verification_wf box_accounts box_mail.
Proof.
  split; [apply _| | |done].
  - intros m w Hwf. apply wp_lift_ext. simpl. by eauto.
  - intros g a w [= <-] Hwf. apply wp_ret. split_and!; [done..|lia].
Defined.

Definition alice_signed_up : accounts :=
  mkAccounts {["u1" := mkAccount "alice@example.com" false]} ∅ ∅ ∅ ∅.

Definition verification_start : World (mailbox Message) := demo_world (mkMailbox alice_signed_up []).

Lemma alice_signed_up_inv : accounts_inv alice_signed_up.
Proof.
  split; [|done]. intros i j email (a & Ha & _) (b & Hb & _). simpl in *.
  apply lookup_singleton_Some in Ha as [<- _], Hb as [<- _]. done.
Defined.

Lemma verification_start_ok : verification_wf (ext verification_start).
Proof. split; [apply alice_signed_up_inv|by intros ? ? ? ? ?]. Defined.

Definition alice_asks : RequestInput := mkRequestInput " Alice@Example.com" "10.0.0.1".
Definition alice_asked : World (mailbox Message) := snd (Request demo_verification_manager alice_asks verification_start).
Definition alice_mail : Message :=
  List.hd (mkMessage "" "" "" "" "" 0) (box_mail (ext alice_asked)).

Example alice_got_a_code :
  box_mail (ext alice_asked) = [mkMessage "u1" "alice@example.com" "" (Code alice_mail) "" (ExpiresAt alice_mail)] /\
  validOTP (Code alice_mail) = true.
Proof. vm_compute. done. Qed.

Lemma alice_asked_ok : verification_wf (ext alice_asked).
Proof.
  exact (proj1 (wp_Request demo_verification_manager verification_wf box_accounts box_mail
    alice_asks verification_start verification_start_ok)).
Defined.
