(* ===== verification/EmailVerificationProps.v ===== *)
(** * Properties of email verification

    Only the stored credential, once and in time, verifies an email, and the
    credential a user is sent is one that does. *)
From S2P Require Import Prelude GoText Base64 Sha256 Token EmailAddress AccountSpec EmailVerification EmailVerificationSpec AccountReference.

(** ** Calls *)
Inductive call : Type :=
| CRequest (input : RequestInput)
| CVerify (input : VerifyInput).

Section Properties.
Context {S : Type} `{Env} `{GoTables} (manager : Manager S).
Context (wf : S -> Prop) (view : S -> accounts) (outbox : S -> list Message).
Context `{!VerificationBackend manager wf view outbox}.

Abbreviation abs w := (view (ext w)).
Abbreviation mail w := (outbox (ext w)).

Definition run (c : call) (w : World S) : World S :=
  match c with
  | CRequest input => snd (Request manager input w)
  | CVerify input => snd (Verify manager input w)
  end.

(** The hash under which a call's credential would be stored. *)
Definition presents (c : call) (h : Hash) : Prop :=
  match c with
  | CRequest _ => False
  | CVerify input => hashVerificationInput manager input (otpEmail manager input) = Ok h
  end.

Lemma used_users input n u s s' id a a' :
  used manager input n u s s' -> users s !! id = Some a -> users s' !! id = Some a' ->
  a' = a \/ id = user_ID u /\ a' = mkAccount (acc_Email a) true.
Proof.
  intros (h & m & _ & _ & p & b & _ & _ & _ & Hb & _ & _ & ->) Ha. simpl.
  intros [[<- <-]|[_ Ha']]%lookup_insert_Some; [right|left]; [|congruence].
  rewrite Ha in Hb. by injection Hb as ->.
Qed.

(** C32: an email becomes verified only by a call that presents the credential
    stored for its owner before it expires; no call changes the address of an
    account, and none takes a verification back. *)
Theorem verification_needs_credential c id a a' w :
  wf (ext w) -> users (abs w) !! id = Some a -> users (abs (run c w)) !! id = Some a' ->
  acc_Email a' = acc_Email a /\
  (acc_Verified a = true -> acc_Verified a' = true) /\
  (acc_Verified a = false -> acc_Verified a' = true ->
   exists p n, verifications (abs w) !! id = Some p /\ presents c (p_TokenHash p) /\
     ticks w <= n /\ (now manager n < p_ExpiresAt p)%Z).
Proof.
  intros Hwf Ha Ha'.
  assert (Hcase : a' = a \/ exists input u, c = CVerify input /\ used manager input (ticks w) u (abs w) (abs (run c w))).
  { destruct c as [input|input]; simpl in *.
    - destruct (Request manager input w) as [res w'] eqn:E.
      destruct (wp_elim _ _ _ _ _ (wp_Request manager wf view outbox input w Hwf) E) as [_ Hreq].
      simpl in *. left. destruct Hreq as [[Hs _]|[(m & h & _ & _ & _ & _ & _ & _ & Hs)|(i & h & x & e & _ & _ & _ & _ & Hs)]];
        rewrite Hs in Ha'; simpl in Ha'; congruence.
    - destruct (Verify manager input w) as [res w'] eqn:E.
      destruct (wp_elim _ _ _ _ _ (wp_Verify manager wf view outbox input w Hwf) E) as (_ & _ & Hres).
      simpl in *. destruct res as [u|e]; [by eauto|].
      destruct Hres as [Hs|[_ [u Hu]]]; [left; rewrite Hs in Ha'; congruence|by eauto]. }
  destruct Hcase as [->|(input & u & -> & Hu)]; [split_and!; [done|done|congruence]|].
  destruct (used_users _ _ _ _ _ _ _ _ Hu Ha Ha') as [->|[-> ->]]; [split_and!; [done|done|congruence]|].
  split_and!; [done|done|]. intros _ _.
  destruct Hu as (h & m & Hh & Hm & p & b & Hp & <- & Hlive & _). by exists p, m.
Qed.

(** A credential verifies once: after a successful [Verify], no call with the
    same credential succeeds, whoever presents it. *)
Theorem Verify_single_use input source u w w1 :
  wf (ext w) -> Verify manager input w = (Ok u, w1) ->
  Verified u = true /\
  users (abs w1) !! user_ID u = Some (mkAccount (user_Email u) true) /\
  exists e w2, Verify manager (mkVerifyInput (verify_Token input) (verify_Email input) (verify_Code input) source) w1 =
    (Err e, w2).
Proof.
  intros Hwf E. destruct (wp_elim _ _ _ _ _ (wp_Verify manager wf view outbox input w Hwf) E)
    as (Hwf1 & _ & (h & n & Hh & _ & p & a & Hp & Hph & _ & Ha & _ & Hu & Hs)).
  rewrite Hu, Hs. simpl. rewrite lookup_insert_eq. split_and!; [done|done|].
  destruct (Verify manager _ w1) as [[u2|e] w2] eqn:E2; [|by eauto]. exfalso.
  destruct (wp_elim _ _ _ _ _ (wp_Verify manager wf view outbox _ w1 Hwf1) E2)
    as (_ & _ & (h2 & n2 & Hh2 & _ & p2 & a2 & Hp2 & Hph2 & _)).
  assert (h2 = h) as -> by (unfold hashVerificationInput, otpEmail in *; simpl in *; congruence).
  rewrite Hs in Hp2. simpl in Hp2. apply lookup_delete_Some in Hp2 as [Hne Hp2].
  apply Hne. eapply (verification_unique (st := store manager)); [exact Hwf|exact Hp|exact Hp2|congruence].
Qed.

(** ** Sign-up mail *)

(** A store that answers, and a guard that lets every attempt through. *)
Class VerificationAnswers : Prop := {
  answers_Verify id p a at_ w : wf (ext w) -> verifications (abs w) !! id = Some p ->
    (at_ < p_ExpiresAt p)%Z -> users (abs w) !! id = Some a -> acc_Verified a = false ->
    fst (store_Verify (store manager) (p_TokenHash p) at_ w) = Ok (mkUser id (acc_Email a) true);
  answers_guard a w : wf (ext w) ->
    fst (checkAttempt manager a w) = Ok tt /\ ticks (snd (checkAttempt manager a w)) = ticks w;
}.

(** The credential in a message, presented as the user typed the request. *)
Definition reply (input : RequestInput) (m : Message) (source : string) : VerifyInput :=
  mkVerifyInput (Token_ m) (request_Email input) (Code m) source.

Lemma hash_reply input m source :
  Email m = normalizedOrEmpty manager (request_Email input) ->
  hashVerificationInput manager (reply input m source) (otpEmail manager (reply input m source)) =
    credential_hash manager m.
Proof.
  intros He. unfold credential_hash, hashVerificationInput, otpEmail, reply. simpl. rewrite He.
  by destruct (String.eqb _ _).
Qed.

(** A message that [Request] sends goes to the address on record, and until
    it expires its link token or code verifies that address. *)
Theorem Request_then_Verify `{!VerificationAnswers} input m source w w1 :
  wf (ext w) -> Request manager input w = (Ok tt, w1) -> mail w1 = mail w ++ [m] ->
  (now manager (ticks w1) < ExpiresAt m)%Z ->
  has_email (UserID m) (Email m) (abs w) /\
  exists w2, Verify manager (reply input m source) w1 = (Ok (mkUser (UserID m) (Email m) true), w2).
Proof.
  intros Hwf E Hmail Hlive.
  destruct (wp_elim _ _ _ _ _ (wp_Request manager wf view outbox input w Hwf) E) as [Hwf1 Hreq].
  destruct Hreq as [[_ Hm]|[(m' & h & Hm & He & Hne & Hh & Hid & (a & Ha & Hea & Hnv) & Hs)|(i & h & x & e & Hc & _)]];
    [|rewrite Hmail in Hm; apply app_inj_tail in Hm as [_ <-]|discriminate].
  { rewrite Hmail in Hm. apply (f_equal length) in Hm. rewrite length_app in Hm. simpl in Hm. lia. }
  split; [exists a; split; [done|congruence]|].
  enough (wp (Verify manager (reply input m source)) (fun res _ => res = Ok (mkUser (UserID m) (Email m) true)) w1) as Hwp.
  { unfold wp in Hwp. destruct (Verify manager (reply input m source) w1) as [r w2]. simpl in Hwp. subst. eauto. }
  unfold Verify. fold (otpEmail manager (reply input m source)). apply wp_bind_ok, wp_run. intros g w2 Eg.
  pose proof (wp_elim _ _ _ _ _ (wp_verification_guard manager wf view outbox _ w1 Hwf1) Eg) as (Hwf2 & Hv2 & _).
  match type of Eg with checkAttempt manager ?at_ w1 = _ => destruct (answers_guard at_ w1 Hwf1) as [Hg Ht] end.
  rewrite Eg in Hg, Ht. simpl in Hg, Ht. subst g. rewrite (hash_reply input m source He), Hh.
  apply wp_bind, wp_read_now, wp_bind, wp_run. intros r w3 Er.
  assert (Hr : r = Ok (mkUser (UserID m) (acc_Email a) true)).
  { change r with (fst (r, w3)). rewrite <- Er, Ht.
    apply (answers_Verify (UserID m) (mkPending (normalizedOrEmpty manager (request_Email input)) h (ExpiresAt m)));
      rewrite ?ext_tick, ?Hv2, ?Hs; simpl; rewrite ?lookup_insert_eq; done. }
  rewrite Hr, Hea, <- He. simpl. rewrite (proj2 (String.eqb_neq _ _) Hid). simpl.
  assert (Hval : Valid (Email m) = true).
  { rewrite He in *. unfold normalizedOrEmpty in *.
    destruct (normalizeEmail _ _) as [e|?]; [|done]. by destruct (Valid e) eqn:?. }
  rewrite Hval. simpl. apply wp_bind, wp_run. intros [] w4 _. by apply wp_ret.
Qed.
End Properties.

(** ** Runs of the theorems *)
Ltac verification_ok E := exfalso; vm_compute in E; discriminate E.

#[export] Instance demo_verification_answers :
  VerificationAnswers demo_verification_manager verification_wf box_accounts.
Proof.
  split; [|done]. intros id p a at_ w [_ Hu] Hp Hlive Ha Hnv.
  cbn -[ref_Verify]. unfold on_accounts, lift_ext. simpl. unfold ref_Verify.
  rewrite (find_pending_eq _ _ _ _ Hu Hp eq_refl), Ha, Hnv. simpl.
  rewrite (proj2 (Before_true _ _) Hlive). done.
Qed.

Definition alice_replies : VerifyInput := reply alice_asks alice_mail "10.0.0.1".

Lemma verification_needs_credential_witness :
  exists p n, verifications (box_accounts (ext alice_asked)) !! "u1" = Some p /\
    presents demo_verification_manager (CVerify alice_replies) (p_TokenHash p) /\
    ticks alice_asked <= n /\ (now demo_verification_manager n < p_ExpiresAt p)%Z.
Proof.
  apply (verification_needs_credential demo_verification_manager verification_wf box_accounts box_mail
    (CVerify alice_replies) "u1" (mkAccount "alice@example.com" false) (mkAccount "alice@example.com" true)
    alice_asked alice_asked_ok); vm_compute; reflexivity.
Defined.

Lemma Verify_single_use_witness :
  exists u w1, Verify demo_verification_manager alice_replies alice_asked = (Ok u, w1) /\
  exists e w2, Verify demo_verification_manager
    (mkVerifyInput (verify_Token alice_replies) (verify_Email alice_replies) (verify_Code alice_replies) "10.0.0.2") w1 =
    (Err e, w2).
Proof.
  destruct (Verify demo_verification_manager alice_replies alice_asked) as [[u|e] w1] eqn:E; [|verification_ok E].
  exists u, w1. split; [reflexivity|].
  apply (Verify_single_use demo_verification_manager verification_wf box_accounts box_mail alice_replies
    "10.0.0.2" u alice_asked w1 alice_asked_ok E).
Defined.

Lemma Request_then_Verify_witness :
  has_email "u1" "alice@example.com" (box_accounts (ext verification_start)) /\
  exists w2, Verify demo_verification_manager alice_replies alice_asked = (Ok (mkUser "u1" "alice@example.com" true), w2).
Proof.
  apply (Request_then_Verify demo_verification_manager verification_wf box_accounts box_mail alice_asks
    alice_mail "10.0.0.1" verification_start alice_asked verification_start_ok); vm_compute; reflexivity.
Defined.
