(* ===== verification/PasswordReset.v ===== *)
(** * Package [passwordreset] (passwordreset/passwordreset.go)

    Recovery of a password with an emailed token. *)
From S2P Require Import Prelude GoText Base64 Sha256 Token EmailAddress.
From S2P Require Password.

Definition issueAttempts : nat := 3.

Definition ErrAttemptBlocked : error := New "passwordreset.ErrAttemptBlocked".
Definition ErrConflict : error := New "passwordreset.ErrConflict".
Definition ErrInactiveToken : error := New "passwordreset.ErrInactiveToken".
Definition ErrInvalidConfig : error := New "passwordreset.ErrInvalidConfig".
Definition ErrInvalidPassword : error := New "passwordreset.ErrInvalidPassword".
Definition ErrInvalidRecord : error := New "passwordreset.ErrInvalidRecord".
Definition ErrNotFound : error := New "passwordreset.ErrNotFound".

(** ** Data *)
Record User : Type := mkUser { user_ID : string; user_Email : string }.

(** The Go type is called [Record]. *)
Record ResetRecord : Type := mkResetRecord {
  rec_UserID : string;
  rec_Email : string;
  rec_TokenHash : Hash;
  rec_CreatedAt : time;
  rec_ExpiresAt : time;
}.

Record Store (S : Type) : Type := mkStore {
  store_FindUserByEmail : string -> M S (result User);
  store_Issue : ResetRecord -> M S (result unit);
  store_ResetPassword : Hash -> string -> time -> M S (result User);
}.
Arguments store_FindUserByEmail {S}. Arguments store_Issue {S}. Arguments store_ResetPassword {S}.

(** The interface [Passwords] has one method, [Hash]. *)
Definition Passwords (S : Type) : Type := string -> M S (result string).

Record Message : Type := mkMessage {
  UserID : string;
  Email : string;
  Token_ : string;
  URL : string;
  ExpiresAt : time;
}.

(** The interface [Sender]. *)
Definition Sender (S : Type) : Type := Message -> M S (result unit).

Inductive Operation : Type := OperationRequest | OperationReset.

Record Attempt : Type := mkAttempt {
  attempt_Operation : Operation;
  attempt_Email : string;
  attempt_SourceKey : string;
}.

Definition AttemptGuard (S : Type) : Type := Attempt -> M S (result unit).

Inductive EventType : Type := EventMessageSent | EventResetFailed | EventReset.

Record SecurityEvent : Type := mkEvent {
  event_Type : EventType;
  event_SubjectID : string;
  event_SourceKey : string;
  event_OccurredAt : time;
}.

Definition SecurityEventSink (S : Type) : Type := SecurityEvent -> M S unit.

Definition PasswordValidator : Type := string -> option error.

Record Config (S : Type) : Type := mkConfig {
  c_Lifetime : duration;
  c_Sender : option (Sender S);
  c_Passwords : option (Passwords S);
  c_ValidatePassword : option PasswordValidator;
  c_AttemptGuard : option (AttemptGuard S);
  c_SecurityEvents : option (SecurityEventSink S);
  c_NormalizeEmail : option Normalizer;
  c_Now : option (nat -> time);
}.
Arguments c_Lifetime {S}. Arguments c_Sender {S}. Arguments c_Passwords {S}.
Arguments c_ValidatePassword {S}. Arguments c_AttemptGuard {S}. Arguments c_SecurityEvents {S}.
Arguments c_NormalizeEmail {S}. Arguments c_Now {S}.

Record Manager (S : Type) : Type := mkManager {
  store : Store S;
  sender : Sender S;
  passwords : Passwords S;
  validatePassword : option PasswordValidator;
  attemptGuard : option (AttemptGuard S);
  securityEvents : option (SecurityEventSink S);
  normalizeEmail : Normalizer;
  lifetime : duration;
  now : nat -> time;
}.
Arguments store {S}. Arguments sender {S}. Arguments passwords {S}. Arguments validatePassword {S}.
Arguments attemptGuard {S}. Arguments securityEvents {S}. Arguments normalizeEmail {S}.
Arguments lifetime {S}. Arguments now {S}.

Record RequestInput : Type := mkRequestInput { request_Email : string; request_SourceKey : string }.

Record ResetInput : Type := mkResetInput {
  reset_Token : string;
  NewPassword : string;
  reset_SourceKey : string;
}.

(** ** Operations *)
Section Operations.
Context {S : Type} `{Env} `{GoTables} `{Password.PasswordHashes}.

Definition defaultPasswords : Passwords S := Password.Hash.

Definition NewManager (store : option (Store S)) (config : Config S) : result (Manager S) :=
  match store with
  | None => Err (Errorf "%w: store is required" [ErrInvalidConfig])
  | Some store =>
      match c_Sender config with
      | None => Err (Errorf "%w: sender is required" [ErrInvalidConfig])
      | Some sender =>
          if (c_Lifetime config <=? 0)%Z
          then Err (Errorf "%w: lifetime must be positive" [ErrInvalidConfig]) else
          Ok (mkManager S store sender (default defaultPasswords (c_Passwords config))
                (c_ValidatePassword config) (c_AttemptGuard config) (c_SecurityEvents config)
                (default Normalize (c_NormalizeEmail config)) (c_Lifetime config)
                (default time_Now (c_Now config)))
      end
  end.

Definition checkAttempt (manager : Manager S) (attempt : Attempt) : M S (result unit) :=
  match attemptGuard manager with
  | None => ret (Ok tt)
  | Some check => wrapped "check password reset attempt: %w" (check attempt)
  end.

Definition record (manager : Manager S) (eventType : EventType) (subjectID sourceKey : string) :
    M S unit :=
  match securityEvents manager with
  | None => ret tt
  | Some sink =>
      at_ <- read_now (now manager) ;;
      sink (mkEvent eventType subjectID sourceKey at_)
  end.

Definition validUser (user : User) (expectedEmail : string) : bool :=
  negb (String.eqb (TrimSpace (user_ID user)) "" || negb (String.eqb (user_Email user) expectedEmail) ||
        negb (Valid (user_Email user))).

(** The normalised address, empty when there is none. *)
Definition normalizedOrEmpty (manager : Manager S) (email : string) : string :=
  match normalizeEmail manager email with
  | Ok normalizedEmail => if Valid normalizedEmail then normalizedEmail else ""
  | Err _ => ""
  end.

Definition Request (manager : Manager S) (input : RequestInput) : M S (result unit) :=
  let normalizedEmail := normalizedOrEmpty manager (request_Email input) in
  _ <-? checkAttempt manager (mkAttempt OperationRequest normalizedEmail (request_SourceKey input)) ;;
  if String.eqb normalizedEmail "" then ret (Ok tt) else
  r <- store_FindUserByEmail (store manager) normalizedEmail ;;
  match r with
  | Err err =>
      if errors_Is err ErrNotFound then ret (Ok tt)
      else ret (Err (Errorf "find user for password reset: %w" [err]))
  | Ok user =>
      if negb (validUser user normalizedEmail) then ret (Err ErrInvalidRecord) else
      for_range issueAttempts
        (r <- wrapped "generate password reset token: %w" Generate ;;
         match r with
         | Err err => ret (Return (Err err))
         | Ok (rawToken, tokenHash) =>
             now <- read_now (now manager) ;;
             let rec := mkResetRecord (user_ID user) (user_Email user) tokenHash now
                          (Add now (lifetime manager)) in
             r <- store_Issue (store manager) rec ;;
             match r with
             | Err err =>
                 if errors_Is err ErrConflict then ret (Next tt) else
                 ret (Return (Err (Errorf "store password reset token: %w" [err])))
             | Ok _ =>
                 r <- sender manager (mkMessage (user_ID user) (user_Email user) rawToken ""
                                        (rec_ExpiresAt rec)) ;;
                 match r with
                 | Err err => ret (Return (Err (Errorf "send password reset message: %w" [err])))
                 | Ok _ =>
                     _ <- record manager EventMessageSent (user_ID user) (request_SourceKey input) ;;
                     ret (Return (Ok tt))
                 end
             end
         end)
        (ret (Err (Errorf "create unique password reset token: %w" [ErrConflict])))
  end.

(** The checks of a replacement password. *)
Definition validate (manager : Manager S) (plainPassword : string) : result unit :=
  if String.eqb plainPassword "" then Err ErrInvalidPassword else
  match validatePassword manager with
  | None => Ok tt
  | Some validatePassword =>
      match validatePassword plainPassword with
      | Some err => Err (Errorf "%w: %w" [ErrInvalidPassword; err])
      | None => Ok tt
      end
  end.

Definition Reset (manager : Manager S) (input : ResetInput) : M S (result User) :=
  _ <-? checkAttempt manager (mkAttempt OperationReset "" (reset_SourceKey input)) ;;
  _ <-? ret (validate manager (NewPassword input)) ;;
  match HashToken (reset_Token input) with
  | Err _ =>
      _ <- record manager EventResetFailed "" (reset_SourceKey input) ;;
      ret (Err ErrInvalidToken)
  | Ok tokenHash =>
      encodedHash <-? wrapped "hash replacement password: %w" (passwords manager (NewPassword input)) ;;
      now <- read_now (now manager) ;;
      r <- store_ResetPassword (store manager) tokenHash encodedHash now ;;
      match r with
      | Err err =>
          if errors_Is err ErrNotFound || errors_Is err ErrInactiveToken then
            _ <- record manager EventResetFailed "" (reset_SourceKey input) ;;
            ret (Err ErrInvalidToken)
          else ret (Err (Errorf "reset password: %w" [err]))
      | Ok user =>
          if String.eqb (TrimSpace (user_ID user)) "" || negb (Valid (user_Email user))
          then ret (Err ErrInvalidRecord) else
          _ <- record manager EventReset (user_ID user) (reset_SourceKey input) ;;
          ret (Ok user)
      end
  end.
End Operations.
