(* ===== verification/PasswordResetSpec.v ===== *)
(** * What password reset promises

    The contract of the store, the sender and the hasher behind package
    [passwordreset], and the effect of its operations. *)
From S2P Require Import Prelude GoText Base64 Sha256 Token EmailAddress AccountSpec PasswordReset AccountReference.
From S2P Require Password EmailPassword EmailPasswordSpec.

(** The pending reset of [id] is used up and its password hash is [h]. *)
Definition reset_user (id h : string) (s : accounts) : accounts :=
  set_resets (delete id (resets s)) (set_hash id h s).

(** [kept] is what the store keeps of the expiry of a reset. *)
Section Contract.
Context {S : Type}.

Class KeptResetStoreContract (kept : time -> time) (st : Store S) (wf : S -> Prop) (view : S -> accounts)
    (outbox : S -> list Message) : Prop := {
  reset_unique w i j p q : wf (ext w) ->
    resets (view (ext w)) !! i = Some p -> resets (view (ext w)) !! j = Some q ->
    p_TokenHash p = p_TokenHash q -> i = j;
  reset_Find_ok email w : wf (ext w) ->
    wp (store_FindUserByEmail st email) (fun res w' => wf (ext w') /\ view (ext w') = view (ext w) /\
      outbox (ext w') = outbox (ext w) /\
      forall u, res = Ok u -> has_email (user_ID u) email (view (ext w))) w;
  reset_Issue_ok rec w : wf (ext w) ->
    wp (store_Issue st rec) (fun res w' => wf (ext w') /\ outbox (ext w') = outbox (ext w) /\
      match res with
      | Ok _ => view (ext w') =
          set_resets
            (<[rec_UserID rec := mkPending (rec_Email rec) (rec_TokenHash rec) (kept (rec_ExpiresAt rec))]>
               (resets (view (ext w)))) (view (ext w))
      | Err _ => view (ext w') = view (ext w)
      end) w;
  reset_ResetPassword_ok hash h at_ w : wf (ext w) ->
    wp (store_ResetPassword st hash h at_) (fun res w' => wf (ext w') /\ outbox (ext w') = outbox (ext w) /\
      match res with
      | Ok u => exists p, resets (view (ext w)) !! user_ID u = Some p /\ p_TokenHash p = hash /\
                  (at_ < p_ExpiresAt p)%Z /\ has_email (user_ID u) (user_Email u) (view (ext w)) /\
                  view (ext w') = reset_user (user_ID u) h (view (ext w))
      | Err _ => view (ext w') = view (ext w)
      end) w;
}.

End Contract.

(** What is given is kept. *)
Abbreviation ResetStoreContract := (KeptResetStoreContract (fun t => t)).

Section Backend.
Context {S : Type}.

(** [accepts password h]: what the hasher guarantees of a hash it made. *)
Class ResetBackend (manager : Manager S) (wf : S -> Prop) (view : S -> accounts)
    (outbox : S -> list Message) (accepts : string -> string -> Prop) : Prop := {
  backend_store :: ResetStoreContract (store manager) wf view outbox;
  backend_sender m w : wf (ext w) ->
    wp (sender manager m) (fun res w' => wf (ext w') /\ view (ext w') = view (ext w) /\
      (outbox (ext w') = outbox (ext w) ++ [m] \/
       (exists e, res = Err e) /\ outbox (ext w') = outbox (ext w))) w;
  backend_passwords password w : wf (ext w) ->
    wp (passwords manager password) (fun res w' => wf (ext w') /\ view (ext w') = view (ext w) /\
      outbox (ext w') = outbox (ext w) /\ ticks w <= ticks w' /\
      forall h, res = Ok h -> accepts password h) w;
  backend_guard g a w : attemptGuard manager = Some g -> wf (ext w) ->
    wp (g a) (fun _ w' => wf (ext w') /\ view (ext w') = view (ext w) /\
      outbox (ext w') = outbox (ext w) /\ ticks w <= ticks w') w;
  backend_events e a w : securityEvents manager = Some e -> wf (ext w) ->
    wp (e a) (fun _ w' => wf (ext w') /\ view (ext w') = view (ext w) /\
      outbox (ext w') = outbox (ext w)) w;
}.
End Backend.

Section Refinement.
Context {S : Type} `{Env} `{GoTables} `{Password.PasswordHashes} (manager : Manager S).
Context (wf : S -> Prop) (view : S -> accounts) (outbox : S -> list Message).
Context (accepts : string -> string -> Prop) `{!ResetBackend manager wf view outbox accepts}.

Abbreviation abs w := (view (ext w)).
Abbreviation mail w := (outbox (ext w)).

Lemma wp_reset_guard a w :
  wf (ext w) ->
  wp (checkAttempt manager a)
    (fun _ w' => wf (ext w') /\ abs w' = abs w /\ mail w' = mail w /\ ticks w <= ticks w') w.
Proof.
  intros Hwf. unfold checkAttempt. destruct (attemptGuard manager) as [g|] eqn:Hg; [|by wp_go].
  apply wp_wrapped. eapply wp_mono; [by eapply backend_guard|]. auto.
Qed.

Lemma wp_reset_record e subject source w :
  wf (ext w) ->
  wp (record manager e subject source) (fun _ w' => wf (ext w') /\ abs w' = abs w /\ mail w' = mail w) w.
Proof.
  intros Hwf. unfold record. destruct (securityEvents manager) as [sink|] eqn:He; wp_go; [|done].
  eapply wp_mono; [by eapply backend_events|]. done.
Qed.

Lemma reset_validUser u email : validUser u email = true ->
  TrimSpace (user_ID u) <> "" /\ user_Email u = email /\ Valid (user_Email u) = true.
Proof. unfold validUser. intros Hv. go_bool. done. Qed.

(** A token stored for a user with an address. *)
Definition issued (id email : string) (h : Hash) (expires : time) (s s' : accounts) : Prop :=
  TrimSpace id <> "" /\ has_email id email s /\
  s' = set_resets (<[id := mkPending email h expires]> (resets s)) s.

(** What [Request] did: nothing; or it stored a token and sent it to the address
    on record; or it stored one and the message failed. *)
Definition requested (input : RequestInput) (res : result unit) (s s' : accounts)
    (before after : list Message) : Prop :=
  let email := normalizedOrEmpty manager (request_Email input) in
  (s' = s /\ after = before) \/
  (exists m h, after = before ++ [m] /\ Email m = email /\ Valid email = true /\
     HashToken (Token_ m) = Ok h /\ issued (UserID m) email h (ExpiresAt m) s s') \/
  (exists id h expires e, res = Err e /\ after = before /\ issued id email h expires s s').

Lemma wp_reset_Request input w :
  wf (ext w) ->
  wp (Request manager input) (fun res w' => wf (ext w') /\
    requested input res (abs w) (abs w') (mail w) (mail w')) w.
Proof.
  intros Hwf. unfold Request, requested. wp_go.
  eapply wp_mono; [by apply wp_reset_guard|]. intros [[]|e] w1 (Hwf1 & Hv1 & Hm1 & _); wp_go; [by auto| |by auto].
  eapply wp_mono; [by apply reset_Find_ok|]. rewrite Hv1, Hm1.
  intros [u|e] w2 (Hwf2 & Hv2 & Hm2 & Hu); wp_go; try (by auto).
  apply negb_false_iff, reset_validUser in Heqb0 as (Hid & He & Hval). specialize (Hu u eq_refl).
  apply wp_for_range with (I := fun w' => wf (ext w') /\ abs w' = abs w /\ mail w' = mail w);
    [done| |intros w3 (? & ? & ?); wp_go; auto].
  intros w3 (Hwf3 & Hv3 & Hm3). wp_go. apply wp_Generate; [|wp_go; by auto]. intros raw h Hh. wp_go.
  eapply wp_mono; [by apply reset_Issue_ok|]. rewrite ext_tick, ext_draw, Hv3, Hm3.
  simpl. intros [[]|e] w5 (Hwf5 & Hm5 & Hv5); wp_go; [|by auto..].
  assert (Hiss : forall x, issued (user_ID u) (normalizedOrEmpty manager (request_Email input)) h x (abs w)
    (set_resets (<[user_ID u := mkPending (user_Email u) h x]> (resets (abs w))) (abs w)))
    by (intros x; by rewrite He).
  rewrite He in Hval. eapply wp_mono; [by apply backend_sender|].
  intros [[]|e] w6 (? & Hv6 & Hm6); wp_go; rewrite Hv5, ?Hm5 in *.
  - eapply wp_mono; [by apply wp_reset_record|]. intros [] w7 (? & Hv7 & Hm7). wp_go.
    split; [done|]. right; left. destruct Hm6 as [Hm6|[[? ?] _]]; [|done].
    eexists _, h. rewrite Hm7, Hm6, Hv7, Hv6. split_and!; [done|by simpl|done|done|apply Hiss].
  - split; [done|]. right. destruct Hm6 as [Hm6|[_ Hm6]].
    + left. eexists _, h. rewrite Hm6, Hv6. split_and!; [done|by simpl|done|done|apply Hiss].
    + right. eexists _, h, _, _. rewrite Hv6. split_and!; [done|done|apply Hiss].
Qed.

(** The use of a stored token: it was live at a clock reading after [n], and its
    owner's hash is one of the new password. *)
Definition used (input : ResetInput) (n : nat) (u : User) (s s' : accounts) : Prop :=
  exists p m h, resets s !! user_ID u = Some p /\ HashToken (reset_Token input) = Ok (p_TokenHash p) /\
    n <= m /\ (now manager m < p_ExpiresAt p)%Z /\ has_email (user_ID u) (user_Email u) s /\
    validate manager (NewPassword input) = Ok tt /\ accepts (NewPassword input) h /\
    s' = reset_user (user_ID u) h s.

Lemma wp_Reset input w :
  wf (ext w) ->
  wp (Reset manager input) (fun res w' => wf (ext w') /\ mail w' = mail w /\
    match res with
    | Ok u => TrimSpace (user_ID u) <> "" /\ Valid (user_Email u) = true /\
              used input (ticks w) u (abs w) (abs w')
    | Err e => abs w' = abs w \/ e = ErrInvalidRecord /\ exists u, used input (ticks w) u (abs w) (abs w')
    end) w.
Proof.
  intros Hwf. unfold Reset. wp_go.
  eapply wp_mono; [by apply wp_reset_guard|]. intros [[]|e] w1 (Hwf1 & Hv1 & Hm1 & Ht1); [|wp_go; by auto].
  wp_go. destruct (validate manager (NewPassword input)) as [[]|e] eqn:Hval; [|by auto].
  destruct (HashToken (reset_Token input)) as [hash|e] eqn:Hhash; wp_go.
  2: { eapply wp_mono; [by apply wp_reset_record|]. intros [] w2 (? & Hv2 & Hm2). wp_go.
       split_and!; [done|congruence|left; congruence]. }
  eapply wp_mono; [by apply backend_passwords|]. rewrite Hv1, Hm1.
  intros [h|e] w2 (Hwf2 & Hv2 & Hm2 & Ht2 & Hacc); wp_go; [|by auto].
  eapply wp_mono; [by apply reset_ResetPassword_ok|]. rewrite ext_tick, Hv2, Hm2.
  intros [u|e] w3 (Hwf3 & Hm3 & Hu).
  - assert (Hused : used input (ticks w) u (abs w) (abs w3)).
    { destruct Hu as (p & Hp & <- & ? & ? & ?). exists p, (ticks w2), h.
      split_and!; try done; [lia|by apply Hacc]. }
    wp_go; [by eauto 6|]. go_bool. eapply wp_mono; [by apply wp_reset_record|].
    intros [] w4 (? & Hv4 & Hm4). wp_go. rewrite Hv4. split_and!; try done. congruence.
  - wp_go; [|by auto]. eapply wp_mono; [by apply wp_reset_record|].
    intros [] w4 (? & Hv4 & Hm4). wp_go. split_and!; [done|congruence|left; congruence].
Qed.
End Refinement.

(** * A reference backend for password reset

    A store whose state is the abstract one, shared with a reference store for
    email sign-in, and a run: alice forgets her password. *)

Definition ref_FindUserByEmail (email : string) (s : accounts) : result User * accounts :=
  (match find_by_email email s with
   | Some (id, a) => Ok (mkUser id (acc_Email a))
   | None => Err ErrNotFound
   end, s).

Definition ref_Issue (rec : ResetRecord) (s : accounts) : result unit * accounts :=
  if taken (rec_TokenHash rec) (rec_UserID rec) (resets s) then (Err ErrConflict, s) else
  (Ok tt, set_resets
     (<[rec_UserID rec := mkPending (rec_Email rec) (rec_TokenHash rec) (rec_ExpiresAt rec)]>
        (resets s)) s).

Definition ref_ResetPassword (hash : Hash) (h : string) (at_ : time) (s : accounts) :
    result User * accounts :=
  match find_pending hash (resets s) with
  | None => (Err ErrNotFound, s)
  | Some (id, p) =>
      match users s !! id with
      | None => (Err ErrNotFound, s)
      | Some a =>
          if negb (Before at_ (p_ExpiresAt p)) then (Err ErrInactiveToken, s) else
          (Ok (mkUser id (acc_Email a)), reset_user id h s)
      end
  end.

Definition ref_reset_store : Store (mailbox Message) :=
  {| store_FindUserByEmail email := on_accounts (ref_FindUserByEmail email);
     store_Issue rec := on_accounts (ref_Issue rec);
     store_ResetPassword hash h at_ := on_accounts (ref_ResetPassword hash h at_) |}.

Definition reset_wf (s : mailbox Message) : Prop :=
  accounts_inv (box_accounts s) /\ pending_unique (resets (box_accounts s)).

#[export] Instance ref_reset_contract :
  ResetStoreContract ref_reset_store reset_wf box_accounts box_mail.
Proof.
  split; simpl.
  - intros w i j p q [_ Hu]. apply Hu.
  - intros email w Hwf. apply wp_on_accounts. simpl. split_and!; [done..|].
    intros u. destruct (find_by_email email _) as [[id a]|] eqn:Hf; [|done]. intros [= <-].
    apply find_by_email_Some in Hf as [Ha He]. by exists a.
  - intros rec w [Hinv Hu]. apply wp_on_accounts. unfold ref_Issue.
    destruct (taken _ _ _) eqn:Ht; [done|]. simpl. split_and!; [|done..].
    split; [by destruct Hinv|]. apply pending_unique_insert; [done|]. by apply taken_false.
  - intros hash h at_ w [Hinv Hu]. apply wp_on_accounts. unfold ref_ResetPassword.
    destruct (find_pending _ _) as [[i p]|] eqn:Hf; [|done].
    destruct (users _ !! i) as [a|] eqn:Ha; [|done].
    destruct (Before at_ _) eqn:Hb; [|done]. go_bool. simpl.
    apply find_pending_Some in Hf as [Hp Hh].
    split_and!; [|done|exists p; split_and!; [done|done|done|by exists a|done]].
    split; [|by apply pending_unique_delete].
    destruct (accounts_inv_set_hash i h _ Hinv (mk_is_Some _ _ Ha)) as [H1 H2].
    split; [exact H1|exact H2].
Qed.

(** ** Sign-in over the same accounts *)
Section SignIn.
Context (st : EmailPassword.Store accounts) `{!EmailPasswordSpec.EmailStoreContract st accounts_inv id}.

Definition zoom_store : EmailPassword.Store (mailbox Message) :=
  {| EmailPassword.store_Register reg := zoom (EmailPassword.store_Register st reg);
     EmailPassword.store_FindByEmail email := zoom (EmailPassword.store_FindByEmail st email);
     EmailPassword.store_ReplacePasswordHash id current replacement at_ :=
       zoom (EmailPassword.store_ReplacePasswordHash st id current replacement at_) |}.

#[export] Instance zoom_email_contract :
  EmailPasswordSpec.EmailStoreContract zoom_store reset_wf box_accounts.
Proof.
  split; simpl; intros; apply wp_zoom; match goal with Hwf : reset_wf _ |- _ => destruct Hwf as [Hinv Hu] end.
  - eapply wp_mono; [by apply EmailPasswordSpec.email_Register_ok|].
    intros [u|e] v [Hv Hr]; unfold id in *; simpl in *; unfold reset_wf; simpl; [|by rewrite Hr].
    destruct Hr as (? & ? & ? & ? & Hr). by rewrite Hr in *.
  - eapply wp_mono; [by apply EmailPasswordSpec.email_Find_ok|].
    intros res v (Hv & Hr & Hf); unfold id in *; simpl in *; unfold reset_wf; simpl. by rewrite Hr.
  - eapply wp_mono; [by apply EmailPasswordSpec.email_Replace_ok|].
    intros [u|e] v [Hv Hr]; unfold Datatypes.id in *; simpl in *; unfold reset_wf; simpl; [|by rewrite Hr].
    destruct Hr as (? & Hr). by rewrite Hr in *.
Qed.
End SignIn.

(** ** A run: alice forgets her password *)
Definition demo_reset_manager : Manager (mailbox Message) :=
  mkManager _ ref_reset_store deliver defaultPasswords None None None Normalize (10 * Minute)%Z demo_clock.

Definition demo_login_manager : EmailPassword.Manager (mailbox Message) :=
  EmailPassword.mkManager _ (zoom_store ref_email_store) None EmailPassword.defaultPasswords None None None
    Normalize Password.demo_hash demo_clock.

Definition default_accepts (password h : string) : Prop :=
  Password.Verify password h = Ok (Password.mkVerification true false) /\ TrimSpace h <> "".

#[export] Instance demo_reset_backend :
  ResetBackend demo_reset_manager reset_wf box_accounts box_mail default_accepts.
Proof.
  split; [apply _| | |done|done].
  - intros m w Hwf. apply wp_lift_ext. simpl. by eauto.
  - intros password w Hwf. eapply wp_mono; [apply Password.wp_Hash|].
    intros res w1 [[He Ht] Hh]. rewrite He, Ht. by split_and!.
Defined.

#[export] Instance demo_login_backend :
  EmailPasswordSpec.EmailPasswordBackend demo_login_manager reset_wf box_accounts.
Proof. split; [apply _|done|apply _|done|done]. Defined.

Definition alice_forgot_accounts : accounts :=
  mkAccounts {["u1" := mkAccount "alice@example.com" true]} {["u1" := Password.demo_hash]} ∅ ∅ ∅.

Definition reset_start : World (mailbox Message) := demo_world (mkMailbox alice_forgot_accounts []).

Lemma reset_start_ok : reset_wf (ext reset_start).
Proof.
  split; [|by intros ? ? ? ? ?]. split; simpl.
  - intros i j email (a & Ha & _) (b & Hb & _). simpl in *.
    apply lookup_singleton_Some in Ha as [<- _], Hb as [<- _]. done.
  - intros i h Hh. apply lookup_singleton_Some in Hh as [<- _]. rewrite lookup_singleton_eq. by eexists.
Defined.

Definition alice_forgot : RequestInput := mkRequestInput " Alice@Example.com" "10.0.0.1".
Definition alice_told : World (mailbox Message) := snd (Request demo_reset_manager alice_forgot reset_start).
Definition alice_letter : Message := List.hd (mkMessage "" "" "" "" 0) (box_mail (ext alice_told)).

Lemma alice_told_ok : reset_wf (ext alice_told).
Proof.
  exact (proj1 (wp_reset_Request demo_reset_manager reset_wf box_accounts box_mail default_accepts
    alice_forgot reset_start reset_start_ok)).
Defined.
