(* ===== verification/PasswordResetProps.v ===== *)
(** * Properties of password reset

    Only the emailed token, once and in time, sets a password without knowing
    the old one, and the password it sets is the one that signs in. *)
From S2P Require Import Prelude GoText Base64 Sha256 Token EmailAddress AccountSpec PasswordReset PasswordResetSpec AccountReference.
From S2P Require Password EmailPassword EmailPasswordSpec EmailPasswordProps.

Inductive call : Type :=
| CRequest (input : RequestInput)
| CReset (input : ResetInput).

Section Properties.
Context {S : Type} `{Env} `{GoTables} `{Password.PasswordHashes} (manager : Manager S).
Context (wf : S -> Prop) (view : S -> accounts) (outbox : S -> list Message).
Context (accepts : string -> string -> Prop) `{!ResetBackend manager wf view outbox accepts}.

Abbreviation abs w := (view (ext w)).
Abbreviation mail w := (outbox (ext w)).

Definition run (c : call) (w : World S) : World S :=
  match c with
  | CRequest input => snd (Request manager input w)
  | CReset input => snd (Reset manager input w)
  end.

(** The call presents a stored token of [id] that is still live, with a
    replacement password the validator accepts. *)
Definition resets_password (c : call) (id : string) (w : World S) (h' : string) : Prop :=
  exists input p n, c = CReset input /\ resets (abs w) !! id = Some p /\
    HashToken (reset_Token input) = Ok (p_TokenHash p) /\
    ticks w <= n /\ (now manager n < p_ExpiresAt p)%Z /\
    validate manager (NewPassword input) = Ok tt /\ accepts (NewPassword input) h'.

Lemma run_cases c w :
  wf (ext w) ->
  hashes (abs (run c w)) = hashes (abs w) /\ users (abs (run c w)) = users (abs w) \/
  exists input u, c = CReset input /\ used manager accepts input (ticks w) u (abs w) (abs (run c w)).
Proof.
  intros Hwf. destruct c as [input|input]; simpl.
  - left. destruct (Request manager input w) as [res w'] eqn:E.
    destruct (wp_elim _ _ _ _ _ (wp_reset_Request manager wf view outbox accepts input w Hwf) E) as [_ Hreq].
    simpl. destruct Hreq as [[Hs _]|[(m & h & _ & _ & _ & _ & _ & _ & Hs)|(i & h & x & e & _ & _ & _ & _ & Hs)]];
      by rewrite Hs.
  - destruct (Reset manager input w) as [res w'] eqn:E.
    destruct (wp_elim _ _ _ _ _ (wp_Reset manager wf view outbox accepts input w Hwf) E) as (_ & _ & Hres).
    simpl. destruct res as [u|e]; [destruct Hres as (_ & _ & ?); by eauto|].
    destruct Hres as [Hs|[_ [u Hu]]]; [left; by rewrite Hs|by eauto].
Qed.

(** C31: a stored password hash is only changed by a call of [Reset] that
    presents the token stored for that user before it expires, and the new hash
    is one of the password it asks for; accounts are left alone. *)
Theorem reset_needs_live_token c id w :
  wf (ext w) ->
  users (abs (run c w)) = users (abs w) /\
  (hashes (abs (run c w)) !! id = hashes (abs w) !! id \/
   exists h', hashes (abs (run c w)) !! id = Some h' /\ resets_password c id w h').
Proof.
  intros Hwf. destruct (run_cases c w Hwf) as [[Hh Hu]|(input & u & -> & Hused)]; [rewrite Hh; auto|].
  destruct Hused as (p & n & h & Hp & Htok & Hn & Hlive & _ & Hval & Hacc & Hs). rewrite Hs. simpl.
  split; [done|]. destruct (decide (user_ID u = id)) as [<-|Hne]; [right|left; by rewrite lookup_insert_ne].
  exists h. rewrite lookup_insert_eq. split; [done|]. by exists input, p, n.
Qed.

(** A token resets once: after a successful [Reset], the user has no pending
    token, and no call with the same one succeeds. *)
Theorem Reset_single_use input password source u w w1 :
  wf (ext w) -> Reset manager input w = (Ok u, w1) ->
  resets (abs w1) !! user_ID u = None /\
  exists e w2, Reset manager (mkResetInput (reset_Token input) password source) w1 = (Err e, w2).
Proof.
  intros Hwf E. destruct (wp_elim _ _ _ _ _ (wp_Reset manager wf view outbox accepts input w Hwf) E)
    as (Hwf1 & _ & _ & _ & (p & n & h & Hp & Htok & _ & _ & _ & _ & _ & Hs)).
  split; [rewrite Hs; simpl; by rewrite lookup_delete_eq|].
  destruct (Reset manager _ w1) as [[u2|e] w2] eqn:E2; [|by eauto]. exfalso.
  destruct (wp_elim _ _ _ _ _ (wp_Reset manager wf view outbox accepts _ w1 Hwf1) E2)
    as (_ & _ & _ & _ & (p2 & n2 & h2 & Hp2 & Htok2 & _)).
  rewrite Hs in Hp2. simpl in *. apply lookup_delete_Some in Hp2 as [Hne Hp2].
  apply Hne. eapply (reset_unique (st := store manager)); [exact Hwf|exact Hp|exact Hp2|congruence].
Qed.

(** ** Recovery *)

(** A store, a hasher and a guard that answer. *)
Class ResetAnswers : Prop := {
  answers_Reset id p email h at_ w : wf (ext w) -> resets (abs w) !! id = Some p ->
    (at_ < p_ExpiresAt p)%Z -> has_email id email (abs w) ->
    fst (store_ResetPassword (store manager) (p_TokenHash p) h at_ w) = Ok (mkUser id email);
  answers_passwords password w : wf (ext w) ->
    is_ok (fst (passwords manager password w)) = true /\
    ticks (snd (passwords manager password w)) = ticks w;
  answers_guard a w : wf (ext w) ->
    fst (checkAttempt manager a w) = Ok tt /\ ticks (snd (checkAttempt manager a w)) = ticks w;
}.

Lemma wp_Reset_answers `{!ResetAnswers} input id p email w :
  wf (ext w) -> resets (abs w) !! id = Some p -> HashToken (reset_Token input) = Ok (p_TokenHash p) ->
  (now manager (ticks w) < p_ExpiresAt p)%Z -> has_email id email (abs w) ->
  TrimSpace id <> "" -> Valid email = true -> validate manager (NewPassword input) = Ok tt ->
  wp (Reset manager input) (fun res _ => res = Ok (mkUser id email)) w.
Proof.
  intros Hwf Hp Htok Hlive Hhas Hid Hval Hnew. unfold Reset. set (at_ := mkAttempt _ _ _).
  apply wp_bind_ok, wp_run. intros g w1 Eg.
  pose proof (wp_elim _ _ _ _ _ (wp_reset_guard manager wf view outbox accepts _ w Hwf) Eg) as (Hwf1 & Hv1 & _).
  destruct (answers_guard at_ w Hwf) as [Hg Ht]. rewrite Eg in Hg, Ht. simpl in Hg, Ht. subst g.
  apply wp_bind_ok, wp_ret. rewrite Hnew, Htok. apply wp_bind_ok, wp_wrapped, wp_run. intros r w2 Er.
  pose proof (wp_elim _ _ _ _ _ (backend_passwords (outbox := outbox) (accepts := accepts) _ w1 Hwf1) Er)
    as (Hwf2 & Hv2 & _).
  destruct (answers_passwords (NewPassword input) w1 Hwf1) as [Hr Ht2]. rewrite Er in Hr, Ht2. simpl in Hr, Ht2.
  destruct r as [h|e]; [|done]. go_red. apply wp_bind, wp_read_now, wp_bind, wp_run. intros r w3 Er3.
  assert (Hr3 : r = Ok (mkUser id email)).
  { change r with (fst (r, w3)). rewrite <- Er3. rewrite Ht2, Ht.
    by apply answers_Reset; rewrite ?ext_tick, ?Hv2, ?Hv1. }
  rewrite Hr3. simpl. rewrite (proj2 (String.eqb_neq _ _) Hid), Hval. simpl.
  apply wp_bind, wp_run. intros [] w4 _. by apply wp_ret.
Qed.

(** A message that [Request] sends goes to the address on record, and until
    it expires its token resets the password of that user to any password the
    validator accepts. *)
Theorem Request_then_Reset `{!ResetAnswers} input m password source w w1 :
  wf (ext w) -> Request manager input w = (Ok tt, w1) -> mail w1 = mail w ++ [m] ->
  (now manager (ticks w1) < ExpiresAt m)%Z -> validate manager password = Ok tt ->
  has_email (UserID m) (Email m) (abs w) /\
  exists w2, Reset manager (mkResetInput (Token_ m) password source) w1 =
    (Ok (mkUser (UserID m) (Email m)), w2).
Proof.
  intros Hwf E Hmail Hlive Hval.
  destruct (wp_elim _ _ _ _ _ (wp_reset_Request manager wf view outbox accepts input w Hwf) E) as [Hwf1 Hreq].
  destruct Hreq as [[_ Hm]|[(m' & h & Hm & He & Hok & Hh & Hid & Hhas & Hs)|(i & h & x & e & Hc & _)]];
    [|rewrite Hmail in Hm; apply app_inj_tail in Hm as [_ <-]|discriminate].
  { rewrite Hmail in Hm. apply (f_equal length) in Hm. rewrite length_app in Hm. simpl in Hm. lia. }
  rewrite <- He in *. split; [done|].
  enough (wp (Reset manager (mkResetInput (Token_ m) password source))
            (fun res _ => res = Ok (mkUser (UserID m) (Email m))) w1) as Hwp.
  { unfold wp in Hwp. destruct (Reset manager _ w1) as [r w2]. simpl in Hwp. subst. eauto. }
  apply (wp_Reset_answers _ (UserID m) (mkPending (Email m) h (ExpiresAt m))); rewrite ?Hs; try done.
  simpl. by rewrite lookup_insert_eq.
Qed.
End Properties.

(** ** Recovery and sign-in *)
Section SignInAgain.
Context {S : Type} `{Env} `{GoTables} `{Password.PasswordHashes} (manager : Manager S).
Context (login : EmailPassword.Manager S).
Context (wf : S -> Prop) (view : S -> accounts) (outbox : S -> list Message).

(** The hasher of the reset manager makes hashes that sign-in verifies. *)
Definition accepted_by_login (password h : string) : Prop :=
  EmailPassword.pw_Verify (EmailPassword.passwords login) password h =
    Ok (Password.mkVerification true false) /\ TrimSpace h <> "".

Context `{!ResetBackend manager wf view outbox accepted_by_login}.
Context `{!EmailPasswordSpec.EmailPasswordBackend login wf view}.
Context `{!EmailPasswordProps.EmailAnswers login wf view}.

(** After [Reset], the user signs in with the new password, and no stored
    hash but theirs has changed. *)
Theorem Reset_then_Login input raw source u w w1 :
  wf (ext w) -> Reset manager input w = (Ok u, w1) ->
  EmailPassword.normalizeAndValidateEmail login raw = Ok (user_Email u) ->
  fst (EmailPassword.Login login (EmailPassword.mkLoginInput raw (NewPassword input) source) w1) =
    Ok (EmailPassword.mkLoginResult (EmailPassword.mkUser (user_ID u) (user_Email u)) false) /\
  forall id, id <> user_ID u -> hashes (view (ext w1)) !! id = hashes (view (ext w)) !! id.
Proof.
  intros Hwf E Hn.
  destruct (wp_elim _ _ _ _ _ (wp_Reset manager wf view outbox accepted_by_login input w Hwf) E)
    as (Hwf1 & _ & Hid & Hval & (p & n & h & Hp & Htok & _ & _ & Hhas & _ & [Hver Hblank] & Hs)).
  split; [|intros id Hne; rewrite Hs; simpl; by rewrite lookup_insert_ne].
  eapply (EmailPasswordProps.wp_Login_answers login wf view raw (user_Email u) _ source _ h w1); try done.
  - by rewrite Hs.
  - rewrite Hs. simpl. apply lookup_insert_eq.
Qed.
End SignInAgain.

(** ** Runs of the theorems *)
Ltac reset_ok E := exfalso; vm_compute in E; discriminate E.

#[export] Instance demo_reset_answers : ResetAnswers demo_reset_manager reset_wf box_accounts.
Proof.
  split; [| |done].
  - intros id p email h at_ w [_ Hu] Hp Hlive (a & Ha & <-).
    cbn -[ref_ResetPassword]. unfold on_accounts, lift_ext. simpl. unfold ref_ResetPassword.
    rewrite (find_pending_eq _ _ _ _ Hu Hp eq_refl), Ha. simpl.
    rewrite (proj2 (Before_true _ _) Hlive). done.
  - intros password w Hwf. done.
Qed.

#[export] Instance demo_login_answers :
  EmailPasswordProps.EmailAnswers demo_login_manager reset_wf box_accounts.
Proof.
  split; [|done]. intros id email h w [Hinv _] Hhas Hh. simpl. unfold zoom, lift_ext. simpl.
  destruct (find_by_email_has email (box_accounts (ext w)) id Hinv Hhas) as (a & Hf & Ha). rewrite Hf. simpl.
  rewrite Hh. simpl. by apply find_by_email_Some in Hf as [_ ->].
Qed.

Definition alice_recovers : ResetInput := mkResetInput (Token_ alice_letter) "a better passphrase" "10.0.0.1".

Lemma reset_needs_live_token_witness :
  exists h', hashes (box_accounts (ext (run demo_reset_manager (CReset alice_recovers) alice_told))) !! "u1" = Some h' /\
    resets_password demo_reset_manager box_accounts default_accepts (CReset alice_recovers) "u1" alice_told h'.
Proof.
  destruct (reset_needs_live_token demo_reset_manager reset_wf box_accounts box_mail default_accepts
    (CReset alice_recovers) "u1" alice_told alice_told_ok) as [_ [Hsame|Hnew]]; [|exact Hnew].
  exfalso. vm_compute in Hsame. discriminate Hsame.
Defined.

Lemma Reset_single_use_witness :
  exists u w1, Reset demo_reset_manager alice_recovers alice_told = (Ok u, w1) /\
  exists e w2, Reset demo_reset_manager
    (mkResetInput (reset_Token alice_recovers) "mallory's passphrase" "10.0.0.2") w1 = (Err e, w2).
Proof.
  destruct (Reset demo_reset_manager alice_recovers alice_told) as [[u|e] w1] eqn:E; [|reset_ok E].
  exists u, w1. split; [reflexivity|].
  apply (Reset_single_use demo_reset_manager reset_wf box_accounts box_mail default_accepts alice_recovers
    "mallory's passphrase" "10.0.0.2" u alice_told w1 alice_told_ok E).
Defined.

Lemma Request_then_Reset_witness :
  has_email "u1" "alice@example.com" (box_accounts (ext reset_start)) /\
  exists w2, Reset demo_reset_manager alice_recovers alice_told = (Ok (mkUser "u1" "alice@example.com"), w2).
Proof.
  apply (Request_then_Reset demo_reset_manager reset_wf box_accounts box_mail default_accepts alice_forgot
    alice_letter "a better passphrase" "10.0.0.1" reset_start alice_told reset_start_ok); vm_compute; reflexivity.
Defined.

Lemma Reset_then_Login_witness :
  exists u w1, Reset demo_reset_manager alice_recovers alice_told = (Ok u, w1) /\
    fst (EmailPassword.Login demo_login_manager
           (EmailPassword.mkLoginInput " Alice@Example.com" "a better passphrase" "10.0.0.1") w1) =
      Ok (EmailPassword.mkLoginResult (EmailPassword.mkUser (user_ID u) (user_Email u)) false).
Proof.
  destruct (Reset demo_reset_manager alice_recovers alice_told) as [[u|e] w1] eqn:E; [|reset_ok E].
  exists u, w1. split; [reflexivity|].
  apply (Reset_then_Login demo_reset_manager demo_login_manager reset_wf box_accounts box_mail alice_recovers
    " Alice@Example.com" "10.0.0.1" u alice_told w1 alice_told_ok E).
  vm_compute in E. injection E as <- _. vm_compute. reflexivity.
Defined.
