(* ===== verification/Totp.v ===== *)
(** * Package [totp] (totp/totp.go)

    Authenticator apps as a second factor, with recovery codes. *)
From S2P Require Import Prelude GoText Base64 Sha256 Token.

Definition challengeAttempts : nat := 3.
Definition periodSeconds : Z := 30.
Definition recoveryCodeBytes : nat := 16.

Definition ErrAlreadyEnabled : error := New "totp.ErrAlreadyEnabled".
Definition ErrAttemptBlocked : error := New "totp.ErrAttemptBlocked".
Definition ErrConflict : error := New "totp.ErrConflict".
Definition ErrInactiveChallenge : error := New "totp.ErrInactiveChallenge".
Definition ErrInactiveEnrollment : error := New "totp.ErrInactiveEnrollment".
Definition ErrInvalidChallenge : error := New "totp.ErrInvalidChallenge".
Definition ErrInvalidCode : error := New "totp.ErrInvalidCode".
Definition ErrInvalidConfig : error := New "totp.ErrInvalidConfig".
Definition ErrInvalidInput : error := New "totp.ErrInvalidInput".
Definition ErrInvalidRecord : error := New "totp.ErrInvalidRecord".
Definition ErrNotFound : error := New "totp.ErrNotFound".

(** ** The library github.com/pquerna/otp *)
Record Key : Type := mkKey { key_Secret : string; key_URL : string }.

Class OtpLibrary := {
  (* [totp.Generate] with an issuer, an account name and a secret size, on what
     the random source gives *)
  otp_Generate : string -> string -> nat -> option (nat -> ascii) -> result Key;
  (* [hotp.ValidateCustom(code, counter, secret)] with six digits and SHA-1 *)
  hotp_ValidateCustom : string -> Z -> string -> result bool;
}.

(** ** Data *)
Definition ChallengeHash : Type := Hash.
Definition RecoveryCodeHash : Type := string.

Record Enrollment : Type := mkEnrollment {
  enr_SubjectID : string;
  enr_Secret : string;
  enr_CreatedAt : time;
  enr_ExpiresAt : time;
}.

Record Credential : Type := mkCredential {
  cred_SubjectID : string;
  cred_Secret : string;
  EnabledAt : time;
  LastUsedCounter : Z;
  HasLastUsedCounter : bool;
}.

Record Challenge : Type := mkChallenge {
  ch_SubjectID : string;
  ch_TokenHash : ChallengeHash;
  ch_CreatedAt : time;
  ch_ExpiresAt : time;
}.

Record Store (S : Type) : Type := mkStore {
  store_IsEnabled : string -> M S (result bool);
  store_BeginEnrollment : Enrollment -> M S (result unit);
  store_FindEnrollment : string -> M S (result Enrollment);
  store_Enable : string -> Z -> list RecoveryCodeHash -> time -> M S (result unit);
  store_Disable : string -> time -> M S (result unit);
  store_CreateChallenge : Challenge -> M S (result unit);
  store_FindChallenge : ChallengeHash -> M S (result (Challenge * Credential));
  store_CompleteCode : ChallengeHash -> Z -> time -> M S (result string);
  store_CompleteRecovery : ChallengeHash -> RecoveryCodeHash -> time -> M S (result string);
}.
Arguments store_IsEnabled {S}. Arguments store_BeginEnrollment {S}. Arguments store_FindEnrollment {S}.
Arguments store_Enable {S}. Arguments store_Disable {S}. Arguments store_CreateChallenge {S}.
Arguments store_FindChallenge {S}. Arguments store_CompleteCode {S}. Arguments store_CompleteRecovery {S}.

Inductive Operation : Type :=
| OperationConfirmEnrollment
| OperationVerifyCode
| OperationUseRecovery.

Record Attempt : Type := mkAttempt {
  attempt_Operation : Operation;
  attempt_SubjectID : string;
  attempt_SourceKey : string;
}.

Definition AttemptGuard (S : Type) : Type := Attempt -> M S (result unit).

Inductive EventType : Type :=
| EventEnabled
| EventDisabled
| EventFailed
| EventVerified
| EventRecoveryUsed.

Record SecurityEvent : Type := mkEvent {
  event_Type : EventType;
  event_SubjectID : string;
  event_SourceKey : string;
  event_OccurredAt : time;
}.

Definition SecurityEventSink (S : Type) : Type := SecurityEvent -> M S unit.

Record Config (S : Type) : Type := mkConfig {
  c_Issuer : string;
  c_EnrollmentLifetime : duration;
  c_ChallengeLifetime : duration;
  c_RecoveryCodeCount : Z;
  c_AttemptGuard : option (AttemptGuard S);
  c_SecurityEvents : option (SecurityEventSink S);
  c_Now : option (nat -> time);
}.
Arguments c_Issuer {S}. Arguments c_EnrollmentLifetime {S}. Arguments c_ChallengeLifetime {S}.
Arguments c_RecoveryCodeCount {S}. Arguments c_AttemptGuard {S}. Arguments c_SecurityEvents {S}.
Arguments c_Now {S}.

Record Manager (S : Type) : Type := mkManager {
  store : Store S;
  issuer : string;
  enrollmentLifetime : duration;
  challengeLifetime : duration;
  recoveryCodeCount : Z;
  attemptGuard : option (AttemptGuard S);
  securityEvents : option (SecurityEventSink S);
  now : nat -> time;
}.
Arguments store {S}. Arguments issuer {S}. Arguments enrollmentLifetime {S}.
Arguments challengeLifetime {S}. Arguments recoveryCodeCount {S}. Arguments attemptGuard {S}.
Arguments securityEvents {S}. Arguments now {S}.

Record EnrollmentStarted : Type := mkEnrollmentStarted {
  started_Secret : string; started_URI : string; started_ExpiresAt : time }.
Record EnrollmentConfirmed : Type := mkEnrollmentConfirmed { RecoveryCodes : list string }.
Record ChallengeStarted : Type := mkChallengeStarted { challenge_Token : string; challenge_ExpiresAt : time }.
Record VerifyInput : Type := mkVerifyInput {
  ChallengeToken : string; input_Code : string; input_SourceKey : string }.
Record Authentication : Type := mkAuthentication { auth_SubjectID : string; UsedRecoveryCode : bool }.

(** ** Records and codes *)
Definition validEnrollment (enrollment : Enrollment) (subjectID : string) : bool :=
  String.eqb (enr_SubjectID enrollment) subjectID &&
  negb (String.eqb (TrimSpace (enr_Secret enrollment)) "") &&
  negb (IsZero (enr_CreatedAt enrollment)) &&
  After (enr_ExpiresAt enrollment) (enr_CreatedAt enrollment).

Definition validChallenge (challenge : Challenge) (expectedHash : ChallengeHash) : bool :=
  negb (String.eqb (TrimSpace (ch_SubjectID challenge)) "") &&
  String.eqb (ch_TokenHash challenge) expectedHash &&
  negb (IsZero (ch_CreatedAt challenge)) &&
  After (ch_ExpiresAt challenge) (ch_CreatedAt challenge).

Definition validCredential (credential : Credential) (subjectID : string) : bool :=
  String.eqb (cred_SubjectID credential) subjectID &&
  negb (String.eqb (TrimSpace (cred_Secret credential)) "") &&
  negb (IsZero (EnabledAt credential)).

Definition HashRecoveryCode (rawCode : string) : result RecoveryCodeHash :=
  let rawCode := TrimSpace rawCode in
  if String.eqb rawCode "" then Err ErrInvalidCode else Ok (Sum256 rawCode).

(** The zero value of [RecoveryCodeHash]. *)
Definition zeroRecoveryCodeHash : RecoveryCodeHash := string_of_list (repeat "000"%char 32).

(** The counters [matchCounter] tries, the current one first. *)
Definition counterWindow (currentCounter : Z) : list Z :=
  [currentCounter; (currentCounter - 1)%Z; (currentCounter + 1)%Z].

Section Codes.
Context `{OtpLibrary}.

Fixpoint tryCounters (secret code : string) (counters : list Z) : result (option Z) :=
  match counters with
  | [] => Ok None
  | counter :: counters =>
      match hotp_ValidateCustom code counter secret with
      | Err err => Err err
      | Ok true => Ok (Some counter)
      | Ok false => tryCounters secret code counters
      end
  end.

(** [Ok (Some counter)]: the code is the one of [counter]; [Ok None]: it is no
    code of the window. [Z.quot] is Go's division of signed integers. *)
Definition matchCounter (secret code : string) (at_ : time) : result (option Z) :=
  if negb (String.length code =? 6)%nat then Ok None else
  if negb (forallb is_digit (list_of_string code)) then Ok None else
  let currentCounter := Z.quot (Unix at_) periodSeconds in
  if (currentCounter <? 1)%Z then Ok None else
  tryCounters secret code (counterWindow currentCounter).
End Codes.

(** ** Operations *)
Section Operations.
Context {S : Type} `{Env} `{OtpLibrary}.

(** The loop [for len(codes) < count]: it draws until it has enough codes with
    distinct hashes. [None]: [fuel] draws were not enough. *)
Fixpoint recoveryCodesLoop (fuel : nat) (count : Z) (codes : list string)
    (hashes : list RecoveryCodeHash) : M S (option (result (list string * list RecoveryCodeHash))) :=
  if negb (Z.of_nat (length codes) <? count)%Z then ret (Some (Ok (codes, hashes))) else
  match fuel with
  | O => ret None
  | Datatypes.S fuel =>
      r <- rand_Read recoveryCodeBytes ;;
      match r with
      | Err err => ret (Some (Err err))
      | Ok random =>
          let code := EncodeToString URLAlphabet random in
          let hash := match HashRecoveryCode code with Ok hash => hash | Err _ => zeroRecoveryCodeHash end in
          if bool_decide (hash ∈ hashes) then recoveryCodesLoop fuel count codes hashes
          else recoveryCodesLoop fuel count (codes ++ [code]) (hashes ++ [hash])
      end
  end.

Definition generateRecoveryCodes (fuel : nat) (count : Z) :
    M S (option (result (list string * list RecoveryCodeHash))) :=
  recoveryCodesLoop fuel count [] [].

Definition NewManager (store : option (Store S)) (config : Config S) : result (Manager S) :=
  match store with
  | None => Err (Errorf "%w: store is required" [ErrInvalidConfig])
  | Some store =>
      let issuer := TrimSpace (c_Issuer config) in
      if String.eqb issuer ""
      then Err (Errorf "%w: issuer is required" [ErrInvalidConfig]) else
      if (c_EnrollmentLifetime config <=? 0)%Z || (c_ChallengeLifetime config <=? 0)%Z
      then Err (Errorf "%w: lifetimes must be positive" [ErrInvalidConfig]) else
      if (c_RecoveryCodeCount config <=? 0)%Z
      then Err (Errorf "%w: recovery code count must be positive" [ErrInvalidConfig]) else
      Ok (mkManager S store issuer (c_EnrollmentLifetime config) (c_ChallengeLifetime config)
            (c_RecoveryCodeCount config) (c_AttemptGuard config) (c_SecurityEvents config)
            (default time_Now (c_Now config)))
  end.

Definition checkAttempt (manager : Manager S) (operation : Operation) (subjectID sourceKey : string) :
    M S (result unit) :=
  match attemptGuard manager with
  | None => ret (Ok tt)
  | Some check => wrapped "check TOTP attempt: %w" (check (mkAttempt operation subjectID sourceKey))
  end.

Definition record (manager : Manager S) (eventType : EventType) (subjectID sourceKey : string) :
    M S unit :=
  match securityEvents manager with
  | None => ret tt
  | Some sink =>
      at_ <- read_now (now manager) ;;
      sink (mkEvent eventType subjectID sourceKey at_)
  end.

(** [otplibrary.Generate] reads the random source itself. *)
Definition generateKey (issuer accountName : string) : M S (result Key) :=
  fun w => (otp_Generate issuer accountName 20 (rand_source (draws w)), draw w).

Definition BeginEnrollment (manager : Manager S) (subjectID accountName : string) :
    M S (result EnrollmentStarted) :=
  let subjectID := TrimSpace subjectID in
  let accountName := TrimSpace accountName in
  if String.eqb subjectID "" || String.eqb accountName "" then ret (Err ErrInvalidInput) else
  key <-? wrapped "generate TOTP secret: %w" (generateKey (issuer manager) accountName) ;;
  now <- read_now (now manager) ;;
  let enrollment := mkEnrollment subjectID (key_Secret key) now (Add now (enrollmentLifetime manager)) in
  _ <-? wrapped "begin TOTP enrollment: %w" (store_BeginEnrollment (store manager) enrollment) ;;
  ret (Ok (mkEnrollmentStarted (key_Secret key) (key_URL key) (enr_ExpiresAt enrollment))).

Definition IsEnabled (manager : Manager S) (subjectID : string) : M S (result bool) :=
  let subjectID := TrimSpace subjectID in
  if String.eqb subjectID "" then ret (Err ErrInvalidInput) else
  wrapped "check TOTP status: %w" (store_IsEnabled (store manager) subjectID).

(** The checks of a code against the enrollment it confirms. *)
Definition matchEnrollment (manager : Manager S) (subjectID code sourceKey : string) :
    M S (result (Z * time)) :=
  r <- store_FindEnrollment (store manager) subjectID ;;
  match r with
  | Err err =>
      if errors_Is err ErrNotFound || errors_Is err ErrInactiveEnrollment then
        _ <- record manager EventFailed subjectID sourceKey ;;
        ret (Err ErrInvalidCode)
      else ret (Err (Errorf "find TOTP enrollment: %w" [err]))
  | Ok enrollment =>
      now <- read_now (now manager) ;;
      if negb (validEnrollment enrollment subjectID) then ret (Err ErrInvalidRecord) else
      if negb (Before now (enr_ExpiresAt enrollment)) then
        _ <- record manager EventFailed subjectID sourceKey ;;
        ret (Err ErrInvalidCode)
      else
      match matchCounter (enr_Secret enrollment) code now with
      | Err _ => ret (Err ErrInvalidRecord)
      | Ok None =>
          _ <- record manager EventFailed subjectID sourceKey ;;
          ret (Err ErrInvalidCode)
      | Ok (Some confirmedCounter) => ret (Ok (confirmedCounter, now))
      end
  end.

(** [None] when [fuel] draws did not give enough recovery codes. *)
Definition ConfirmEnrollment (fuel : nat) (manager : Manager S) (subjectID code sourceKey : string) :
    M S (option (result EnrollmentConfirmed)) :=
  let subjectID := TrimSpace subjectID in
  if String.eqb subjectID "" then ret (Some (Err ErrInvalidInput)) else
  r <- checkAttempt manager OperationConfirmEnrollment subjectID sourceKey ;;
  match r with
  | Err err => ret (Some (Err err))
  | Ok _ =>
      r <- matchEnrollment manager subjectID code sourceKey ;;
      match r with
      | Err err => ret (Some (Err err))
      | Ok (confirmedCounter, now) =>
          r <- generateRecoveryCodes fuel (recoveryCodeCount manager) ;;
          match r with
          | None => ret None
          | Some (Err err) => ret (Some (Err (Errorf "generate recovery codes: %w" [err])))
          | Some (Ok (codes, hashes)) =>
              r <- store_Enable (store manager) subjectID confirmedCounter hashes now ;;
              match r with
              | Err err =>
                  if errors_Is err ErrNotFound || errors_Is err ErrInactiveEnrollment
                  then ret (Some (Err ErrInvalidCode))
                  else ret (Some (Err (Errorf "enable TOTP: %w" [err])))
              | Ok _ =>
                  _ <- record manager EventEnabled subjectID sourceKey ;;
                  ret (Some (Ok (mkEnrollmentConfirmed codes)))
              end
          end
      end
  end.

Definition BeginChallenge (manager : Manager S) (subjectID : string) : M S (result ChallengeStarted) :=
  let subjectID := TrimSpace subjectID in
  if String.eqb subjectID "" then ret (Err ErrInvalidInput) else
  for_range challengeAttempts
    (r <- wrapped "generate TOTP challenge: %w" Generate ;;
     match r with
     | Err err => ret (Return (Err err))
     | Ok (rawToken, tokenHash) =>
         now <- read_now (now manager) ;;
         let challenge := mkChallenge subjectID tokenHash now (Add now (challengeLifetime manager)) in
         r <- store_CreateChallenge (store manager) challenge ;;
         match r with
         | Err err =>
             if errors_Is err ErrConflict then ret (Next tt)
             else ret (Return (Err (Errorf "store TOTP challenge: %w" [err])))
         | Ok _ => ret (Return (Ok (mkChallengeStarted rawToken (ch_ExpiresAt challenge))))
         end
     end)
    (ret (Err (Errorf "create unique TOTP challenge: %w" [ErrConflict]))).

Definition findChallenge (manager : Manager S) (rawToken : string) :
    M S (result (Challenge * Credential * ChallengeHash)) :=
  match HashToken rawToken with
  | Err _ => ret (Err ErrInvalidChallenge)
  | Ok challengeHash =>
      r <- store_FindChallenge (store manager) challengeHash ;;
      match r with
      | Err err =>
          if errors_Is err ErrNotFound || errors_Is err ErrInactiveChallenge
          then ret (Err ErrInvalidChallenge)
          else ret (Err (Errorf "find TOTP challenge: %w" [err]))
      | Ok (challenge, credential) =>
          now <- read_now (now manager) ;;
          if negb (validChallenge challenge challengeHash) ||
             negb (validCredential credential (ch_SubjectID challenge))
          then ret (Err ErrInvalidRecord) else
          if negb (Before now (ch_ExpiresAt challenge)) then ret (Err ErrInvalidChallenge) else
          ret (Ok (challenge, credential, challengeHash))
      end
  end.

Definition completionError (err : error) : error :=
  if errors_Is err ErrNotFound || errors_Is err ErrInactiveChallenge then ErrInvalidChallenge else
  if errors_Is err ErrInvalidCode then ErrInvalidCode else
  Errorf "complete TOTP challenge: %w" [err].

(** What [Verify] and [Recover] do with the answer of the store. *)
Definition complete (manager : Manager S) (challenge : Challenge) (sourceKey : string)
    (eventType : EventType) (authentication : string -> Authentication) (r : result string) :
    M S (result Authentication) :=
  match r with
  | Err err =>
      let completionErr := completionError err in
      _ <- (if errors_Is completionErr ErrInvalidCode
            then record manager EventFailed (ch_SubjectID challenge) sourceKey else ret tt) ;;
      ret (Err completionErr)
  | Ok subjectID =>
      if negb (String.eqb subjectID (ch_SubjectID challenge)) then ret (Err ErrInvalidRecord) else
      _ <- record manager eventType subjectID sourceKey ;;
      ret (Ok (authentication subjectID))
  end.

Definition Verify (manager : Manager S) (input : VerifyInput) : M S (result Authentication) :=
  found <-? findChallenge manager (ChallengeToken input) ;;
  let '(challenge, credential, challengeHash) := found in
  _ <-? checkAttempt manager OperationVerifyCode (ch_SubjectID challenge) (input_SourceKey input) ;;
  now <- read_now (now manager) ;;
  match matchCounter (cred_Secret credential) (input_Code input) now with
  | Err _ => ret (Err ErrInvalidRecord)
  | Ok None =>
      _ <- record manager EventFailed (ch_SubjectID challenge) (input_SourceKey input) ;;
      ret (Err ErrInvalidCode)
  | Ok (Some counter) =>
      if HasLastUsedCounter credential && (counter <=? LastUsedCounter credential)%Z then
        _ <- record manager EventFailed (ch_SubjectID challenge) (input_SourceKey input) ;;
        ret (Err ErrInvalidCode)
      else
      r <- store_CompleteCode (store manager) challengeHash counter now ;;
      complete manager challenge (input_SourceKey input) EventVerified
        (fun subjectID => mkAuthentication subjectID false) r
  end.

Definition Recover (manager : Manager S) (input : VerifyInput) : M S (result Authentication) :=
  found <-? findChallenge manager (ChallengeToken input) ;;
  let '(challenge, _, challengeHash) := found in
  _ <-? checkAttempt manager OperationUseRecovery (ch_SubjectID challenge) (input_SourceKey input) ;;
  match HashRecoveryCode (input_Code input) with
  | Err _ =>
      _ <- record manager EventFailed (ch_SubjectID challenge) (input_SourceKey input) ;;
      ret (Err ErrInvalidCode)
  | Ok recoveryHash =>
      now <- read_now (now manager) ;;
      r <- store_CompleteRecovery (store manager) challengeHash recoveryHash now ;;
      complete manager challenge (input_SourceKey input) EventRecoveryUsed
        (fun subjectID => mkAuthentication subjectID true) r
  end.

Definition Disable (manager : Manager S) (subjectID sourceKey : string) : M S (result unit) :=
  let subjectID := TrimSpace subjectID in
  if String.eqb subjectID "" then ret (Err ErrInvalidInput) else
  now <- read_now (now manager) ;;
  _ <-? wrapped "disable TOTP: %w" (store_Disable (store manager) subjectID now) ;;
  _ <- record manager EventDisabled subjectID sourceKey ;;
  ret (Ok tt).
End Operations.
