(* ===== verification/TotpSpec.v ===== *)
(** * What the second factor promises

    The abstract state behind package [totp], the contract of its store, and the
    effect of its operations. *)
From S2P Require Import Prelude GoText Base64 Sha256 Token Totp.

(** ** Abstract state *)
Record enrolled : Type := mkEnrolled { e_Secret : string; e_ExpiresAt : time }.
Record factor : Type := mkFactor { f_Secret : string; f_LastUsed : option Z }.
Record challenged : Type := mkChallenged { d_Subject : string; d_ExpiresAt : time }.

Record factors : Type := mkFactors {
  enrollments : gmap string enrolled;
  (* enabled credentials *)
  enabled : gmap string factor;
  (* challenges that are not consumed *)
  challenges : gmap string challenged;
  (* the hashes of unused recovery codes *)
  recovery : gmap string (gset string);
}.

Definition begin_enrollment (id : string) (e : enrolled) (s : factors) : factors :=
  mkFactors (<[id := e]> (enrollments s)) (enabled s) (challenges s) (recovery s).
Definition enable (id secret : string) (counter : Z) (codes : list string) (s : factors) : factors :=
  mkFactors (delete id (enrollments s)) (<[id := mkFactor secret (Some counter)]> (enabled s))
    (challenges s) (<[id := list_to_set codes]> (recovery s)).
Definition disable (id : string) (s : factors) : factors :=
  mkFactors (enrollments s) (delete id (enabled s)) (challenges s) (delete id (recovery s)).
Definition challenge_subject (h id : string) (expires : time) (s : factors) : factors :=
  mkFactors (enrollments s) (enabled s) (<[h := mkChallenged id expires]> (challenges s)) (recovery s).
Definition complete_code (h id secret : string) (counter : Z) (s : factors) : factors :=
  mkFactors (enrollments s) (<[id := mkFactor secret (Some counter)]> (enabled s))
    (delete h (challenges s)) (recovery s).
Definition complete_recovery (h id code : string) (codes : gset string) (s : factors) : factors :=
  mkFactors (enrollments s) (enabled s) (delete h (challenges s)) (<[id := codes ∖ {[code]}]> (recovery s)).

(** A counter that comes after the last one used, in an order of counters. *)
Definition fresh_by (order : Z -> Z) (f : factor) (counter : Z) : Prop :=
  match f_LastUsed f with Some last => (order last < order counter)%Z | None => True end.

Definition fresh (f : factor) (counter : Z) : Prop :=
  match f_LastUsed f with Some last => (last < counter)%Z | None => True end.

Definition factor_of (c : Credential) : factor :=
  mkFactor (cred_Secret c) (if HasLastUsedCounter c then Some (LastUsedCounter c) else None).

(** A database may keep less than it is given: [kept] is what it keeps of a time,
    [count] of a counter, and [order] how it compares counters. *)
Section Contract.
Context {S : Type}.

Class KeptFactorStoreContract (kept : time -> time) (count order : Z -> Z) (st : Store S) (wf : S -> Prop) (view : S -> factors) : Prop := {
  factor_IsEnabled_ok id w : wf (ext w) ->
    wp (store_IsEnabled st id) (fun res w' => wf (ext w') /\ view (ext w') = view (ext w) /\
      forall b, res = Ok b -> b = bool_decide (is_Some (enabled (view (ext w)) !! id))) w;
  factor_Begin_ok e w : wf (ext w) ->
    wp (store_BeginEnrollment st e) (fun res w' => wf (ext w') /\
      match res with
      | Ok _ => view (ext w') =
          begin_enrollment (enr_SubjectID e) (mkEnrolled (enr_Secret e) (kept (enr_ExpiresAt e))) (view (ext w))
      | Err _ => view (ext w') = view (ext w)
      end) w;
  factor_FindEnrollment_ok id w : wf (ext w) ->
    wp (store_FindEnrollment st id) (fun res w' => wf (ext w') /\ view (ext w') = view (ext w) /\
      forall e, res = Ok e ->
        enrollments (view (ext w)) !! id = Some (mkEnrolled (enr_Secret e) (enr_ExpiresAt e))) w;
  factor_Enable_ok id counter codes at_ w : wf (ext w) ->
    wp (store_Enable st id counter codes at_) (fun res w' => wf (ext w') /\
      match res with
      | Ok _ => exists e, enrollments (view (ext w)) !! id = Some e /\ (at_ < e_ExpiresAt e)%Z /\
                  view (ext w') = enable id (e_Secret e) (count counter) codes (view (ext w))
      | Err _ => view (ext w') = view (ext w)
      end) w;
  factor_Disable_ok id at_ w : wf (ext w) ->
    wp (store_Disable st id at_) (fun res w' => wf (ext w') /\
      match res with
      | Ok _ => view (ext w') = disable id (view (ext w))
      | Err _ => view (ext w') = view (ext w)
      end) w;
  factor_Create_ok c w : wf (ext w) ->
    wp (store_CreateChallenge st c) (fun res w' => wf (ext w') /\
      match res with
      | Ok _ => challenges (view (ext w)) !! ch_TokenHash c = None /\
                view (ext w') = challenge_subject (ch_TokenHash c) (ch_SubjectID c) (kept (ch_ExpiresAt c)) (view (ext w))
      | Err _ => view (ext w') = view (ext w)
      end) w;
  factor_FindChallenge_ok h w : wf (ext w) ->
    wp (store_FindChallenge st h) (fun res w' => wf (ext w') /\ view (ext w') = view (ext w) /\
      forall c cr, res = Ok (c, cr) ->
        challenges (view (ext w)) !! h = Some (mkChallenged (ch_SubjectID c) (ch_ExpiresAt c)) /\
        enabled (view (ext w)) !! ch_SubjectID c = Some (factor_of cr)) w;
  factor_CompleteCode_ok h counter at_ w : wf (ext w) ->
    wp (store_CompleteCode st h counter at_) (fun res w' => wf (ext w') /\
      match res with
      | Ok id => exists d f, challenges (view (ext w)) !! h = Some d /\ d_Subject d = id /\
                   (kept at_ < d_ExpiresAt d)%Z /\ enabled (view (ext w)) !! id = Some f /\ fresh_by order f counter /\
                   view (ext w') = complete_code h id (f_Secret f) (count counter) (view (ext w))
      | Err _ => view (ext w') = view (ext w)
      end) w;
  factor_CompleteRecovery_ok h code at_ w : wf (ext w) ->
    wp (store_CompleteRecovery st h code at_) (fun res w' => wf (ext w') /\
      match res with
      | Ok id => exists d codes, challenges (view (ext w)) !! h = Some d /\ d_Subject d = id /\
                   (kept at_ < d_ExpiresAt d)%Z /\ recovery (view (ext w)) !! id = Some codes /\ code ∈ codes /\
                   view (ext w') = complete_recovery h id code codes (view (ext w))
      | Err _ => view (ext w') = view (ext w)
      end) w;
}.

End Contract.

(** What is given is kept. *)
Abbreviation FactorStoreContract := (KeptFactorStoreContract (fun t => t) (fun k => k) (fun k => k)).

Section Backend.
Context {S : Type}.

Class FactorBackend (manager : Manager S) (wf : S -> Prop) (view : S -> factors) : Prop := {
  backend_store :: FactorStoreContract (store manager) wf view;
  backend_guard g a w : attemptGuard manager = Some g -> wf (ext w) ->
    wp (g a) (fun _ w' => wf (ext w') /\ view (ext w') = view (ext w) /\ ticks w <= ticks w') w;
  backend_events e a w : securityEvents manager = Some e -> wf (ext w) ->
    wp (e a) (fun _ w' => wf (ext w') /\ view (ext w') = view (ext w)) w;
  (* lookups do not turn the clock back *)
  backend_FindEnrollment_ticks id w : ticks w <= ticks (snd (store_FindEnrollment (store manager) id w));
  backend_FindChallenge_ticks h w : ticks w <= ticks (snd (store_FindChallenge (store manager) h w));
}.
End Backend.

(** ** Codes *)
Section Codes.
Context `{OtpLibrary}.

(** The code of [counter], within one period of the instant. *)
Definition code_of (secret code : string) (at_ : time) (counter : Z) : Prop :=
  let current := Z.quot (Unix at_) periodSeconds in
  String.length code = 6 /\ forallb is_digit (list_of_string code) = true /\
  (1 <= current)%Z /\ (current - 1 <= counter <= current + 1)%Z /\
  hotp_ValidateCustom code counter secret = Ok true.

Lemma tryCounters_Some secret code counters counter :
  tryCounters secret code counters = Ok (Some counter) ->
  In counter counters /\ hotp_ValidateCustom code counter secret = Ok true.
Proof.
  induction counters as [|c counters IH]; simpl; [done|].
  destruct (hotp_ValidateCustom code c secret) as [[]|e] eqn:Hc; [|naive_solver|done].
  intros [= <-]. auto.
Qed.

Lemma matchCounter_Some secret code at_ counter :
  matchCounter secret code at_ = Ok (Some counter) -> code_of secret code at_ counter.
Proof.
  unfold matchCounter, code_of. destruct (Nat.eqb_spec (String.length code) 6) as [Hlen|]; [|done]. simpl.
  destruct (forallb is_digit _) eqn:Hd; [|done]. simpl.
  destruct (Z.ltb_spec (Z.quot (Unix at_) periodSeconds) 1) as [|Hcur]; [done|].
  intros Hm. apply (tryCounters_Some secret code (counterWindow _)) in Hm as [Hin Hok].
  split_and!; try done; simpl in Hin; lia.
Qed.
End Codes.

(** ** Recovery codes *)
Lemma HashRecoveryCode_encoded random : String.length random = recoveryCodeBytes ->
  HashRecoveryCode (EncodeToString URLAlphabet random) = Ok (Sum256 (EncodeToString URLAlphabet random)).
Proof.
  intros Hlen. unfold HashRecoveryCode.
  rewrite (TrimSpace_printable (EncodeToString _ _)) by apply EncodeToString_printable.
  destruct (String.eqb_spec (EncodeToString URLAlphabet random) "") as [He|]; [|done].
  apply (f_equal String.length) in He. rewrite length_EncodeToString, Hlen in He. done.
Qed.

(** Codes and their hashes, all different. *)
Definition distinct_codes (codes : list string) (hashes : list RecoveryCodeHash) : Prop :=
  NoDup hashes /\ Forall2 (fun code hash => HashRecoveryCode code = Ok hash) codes hashes.

Lemma distinct_codes_NoDup codes hashes : distinct_codes codes hashes -> NoDup codes.
Proof.
  intros [Hnd Hf]. revert Hnd. induction Hf as [|c h codes hashes Hc Hf IH]; [intros _; apply NoDup_nil_2|].
  intros [Hnin Hnd]%list.NoDup_cons. apply NoDup_cons_2; [|by apply IH]. intros Hin. apply Hnin.
  apply list_elem_of_lookup in Hin as [i Hi]. destruct (Forall2_lookup_l _ _ _ _ _ Hf Hi) as (h' & Hh' & Hc').
  apply list_elem_of_lookup. exists i. congruence.
Qed.

Section Recovery.
Context {S : Type} `{Env}.

(** The hash of the code made of the [i]-th random read. *)
Definition drawn_hash (i : nat) : option RecoveryCodeHash :=
  (fun f => Sum256 (EncodeToString URLAlphabet (string_of_list (f <$> seq 0 recoveryCodeBytes)))) <$>
  rand_source i.

(** The different hashes among [n] reads. *)
Definition drawn_hashes (i n : nat) : gset RecoveryCodeHash :=
  list_to_set (omap drawn_hash (seq i n)).

Lemma length_random (f : nat -> ascii) :
  String.length (string_of_list (f <$> seq 0 recoveryCodeBytes)) = recoveryCodeBytes.
Proof. by rewrite length_string_of_list, length_fmap, length_seq. Qed.

(** What the loop returns, and that enough different reads make it return. *)
Definition generated (count : Z) (enough : Prop)
    (res : option (result (list string * list RecoveryCodeHash))) : Prop :=
  match res with
  | Some (Ok (codes, hashes)) => distinct_codes codes hashes /\ Z.of_nat (length codes) = count
  | Some (Err e) => e = ErrRand
  | None => ~ enough
  end.

Lemma generated_weaken count (P Q : Prop) res : (P -> Q) -> generated count Q res -> generated count P res.
Proof. destruct res as [[[codes hashes]|e]|]; simpl; tauto. Qed.

(** [fuel] reads from the [i]-th on give [count] different codes, counting those
    at hand, or one of them fails. *)
Definition enough_reads (hashes : list RecoveryCodeHash) (i fuel : nat) (count : Z) : Prop :=
  (count <= Z.of_nat (size (list_to_set hashes ∪ drawn_hashes i fuel : gset RecoveryCodeHash)))%Z \/
  exists j, j < fuel /\ rand_source (i + j) = None.

Lemma enough_reads_S hashes i fuel count f :
  rand_source i = Some f ->
  let h := Sum256 (EncodeToString URLAlphabet (string_of_list (f <$> seq 0 recoveryCodeBytes))) in
  enough_reads hashes i (Datatypes.S fuel) count ->
  enough_reads (hashes ++ [h]) (Datatypes.S i) fuel count.
Proof.
  intros Hf h [Hsize|(j & Hj & Hfail)].
  - left. replace (list_to_set (hashes ++ [h]) ∪ drawn_hashes (Datatypes.S i) fuel : gset RecoveryCodeHash)
      with (list_to_set hashes ∪ drawn_hashes i (Datatypes.S fuel) : gset RecoveryCodeHash); [done|].
    unfold drawn_hashes at 1. cbn [seq omap list_omap]. unfold drawn_hash at 1. rewrite Hf. fold h.
    cbn [fmap option_fmap option_map]. fold h. unfold drawn_hashes. set_solver.
  - right. destruct j as [|j]; [rewrite Nat.add_0_r in Hfail; congruence|].
    exists j. split; [lia|]. by replace (Datatypes.S i + j) with (i + Datatypes.S j) by lia.
Qed.

Lemma enough_reads_seen hashes i fuel count h :
  h ∈ hashes -> enough_reads (hashes ++ [h]) i fuel count -> enough_reads hashes i fuel count.
Proof.
  intros Hin [Hsize|?]; [left|by right].
  replace (list_to_set hashes ∪ _ : gset RecoveryCodeHash)
    with (list_to_set (hashes ++ [h]) ∪ drawn_hashes i fuel : gset RecoveryCodeHash) by set_solver. done.
Qed.

Lemma wp_recoveryCodesLoop fuel count codes hashes (w : World S) :
  distinct_codes codes hashes -> (Z.of_nat (length codes) <= count)%Z ->
  wp (recoveryCodesLoop fuel count codes hashes) (fun res w' => ext w' = ext w /\ ticks w' = ticks w /\
    generated count (enough_reads hashes (draws w) fuel count) res) w.
Proof.
  revert codes hashes w. induction fuel as [|fuel IH]; intros codes hashes w Hd Hle; cbn [recoveryCodesLoop];
    destruct (Z.ltb_spec (Z.of_nat (length codes)) count) as [Hlt|]; cbn [negb];
    try (apply wp_ret; split_and!; [done|done|]; split; [done|lia]).
  - apply wp_ret. split_and!; [done..|]. destruct Hd as [Hnd Hf]. intros [Hsize|(j & Hj & _)]; [|lia].
    unfold drawn_hashes in Hsize. simpl in Hsize.
    rewrite union_empty_r_L, size_list_to_set, <- (Forall2_length Hf) in Hsize by done. lia.
  - apply wp_bind, wp_rand_Read; [|by intros _; apply wp_ret]. intros f Hf.
    rewrite (HashRecoveryCode_encoded _ (length_random f)).
    pose proof (HashRecoveryCode_encoded _ (length_random f)) as Hh.
    pose proof (enough_reads_S hashes _ fuel count f Hf) as Hmore. simpl in Hmore. set (h := Sum256 _) in *.
    case_bool_decide as Hin.
    + eapply wp_mono; [by apply (IH _ _ (draw w))|]. intros res w' (? & ? & Hg). split_and!; [done..|].
      eapply generated_weaken; [|done]. intros Hen. by eapply enough_reads_seen, Hmore.
    + eapply wp_mono; [apply (IH (codes ++ [_]) (hashes ++ [h]) (draw w)); [|rewrite length_app; simpl; lia]|].
      * destruct Hd as [Hnd Hall].
        split; [apply list.NoDup_app; split_and!; [done|set_solver|apply NoDup_singleton]|].
        apply Forall2_app; [done|]. by constructor; [|constructor].
      * intros res w' (? & ? & Hg). split_and!; [done..|]. by eapply generated_weaken.
Qed.
End Recovery.

(** ** Refinement *)
Section Refinement.
Context {S : Type} `{Env} `{OtpLibrary} (manager : Manager S).
Context (wf : S -> Prop) (view : S -> factors) `{!FactorBackend manager wf view}.

Abbreviation abs w := (view (ext w)).

Lemma wp_factor_guard operation subject source w :
  wf (ext w) ->
  wp (checkAttempt manager operation subject source)
    (fun _ w' => wf (ext w') /\ abs w' = abs w /\ ticks w <= ticks w') w.
Proof.
  intros Hwf. unfold checkAttempt. destruct (attemptGuard manager) as [g|] eqn:Hg; [|by wp_go].
  apply wp_wrapped. eapply wp_mono; [by eapply backend_guard|]. auto.
Qed.

Lemma wp_factor_record e subject source w :
  wf (ext w) ->
  wp (record manager e subject source) (fun _ w' => wf (ext w') /\ abs w' = abs w) w.
Proof.
  intros Hwf. unfold record. destruct (securityEvents manager) as [sink|] eqn:He; wp_go; [|done].
  eapply wp_mono; [by eapply backend_events|]. done.
Qed.

(** A challenge that is pending, live at a clock reading after [n], of a subject
    with an enabled factor. *)
Definition pending_challenge (raw : string) (n : nat) (h : Hash) (c : Challenge) (s : factors) : Prop :=
  HashToken raw = Ok h /\
  challenges s !! h = Some (mkChallenged (ch_SubjectID c) (ch_ExpiresAt c)) /\
  exists m, n <= m /\ (now manager m < ch_ExpiresAt c)%Z.

Lemma wp_findChallenge raw w :
  wf (ext w) ->
  wp (findChallenge manager raw) (fun res w' => wf (ext w') /\ abs w' = abs w /\ ticks w <= ticks w' /\
    forall c cr h, res = Ok (c, cr, h) -> pending_challenge raw (ticks w) h c (abs w) /\
      enabled (abs w) !! ch_SubjectID c = Some (factor_of cr)) w.
Proof.
  intros Hwf. unfold findChallenge. destruct (HashToken raw) as [h|e] eqn:Hh; [|by wp_go].
  apply wp_bind. eapply wp_mono.
  { apply wp_and; [by apply factor_FindChallenge_ok|].
    apply (wp_run _ (fun _ w' => ticks w <= ticks w')). intros r w1 E.
    change w1 with (snd (r, w1)). rewrite <- E. apply backend_FindChallenge_ticks. }
  intros [[c cr]|e] w1 ((Hwf1 & Hv1 & Hc) & Ht); wp_go; try (split_and!; [done|done|simpl; lia|done]).
  destruct (Hc _ _ eq_refl) as [Hch Hcr]. go_bool. split_and!; [done|done|simpl; lia|].
  intros c' cr' h' Heq. simplify_eq. split; [|done]. split_and!; [done|done|by exists (ticks w1)].
Qed.

Definition passed_code (input : VerifyInput) (n : nat) (a : Authentication) (s s' : factors) : Prop :=
  exists h d f counter m,
    HashToken (ChallengeToken input) = Ok h /\ challenges s !! h = Some d /\
    d_Subject d = auth_SubjectID a /\ n <= m /\ (now manager m < d_ExpiresAt d)%Z /\
    enabled s !! auth_SubjectID a = Some f /\
    code_of (f_Secret f) (input_Code input) (now manager m) counter /\ fresh f counter /\
    UsedRecoveryCode a = false /\ s' = complete_code h (auth_SubjectID a) (f_Secret f) counter s.

Lemma wp_factor_Verify input w :
  wf (ext w) ->
  wp (Verify manager input) (fun res w' => wf (ext w') /\
    match res with
    | Ok a => passed_code input (ticks w) a (abs w) (abs w')
    | Err _ => abs w' = abs w
    end) w.
Proof.
  intros Hwf. unfold Verify. wp_go. eapply wp_mono; [by apply wp_findChallenge|].
  intros [[[c cr] h]|e] w1 (Hwf1 & Hv1 & Ht1 & Hf); wp_go; [|done].
  destruct (Hf _ _ _ eq_refl) as [(Hh & Hd & _) Hcr]. clear Hf.
  eapply wp_mono; [by apply wp_factor_guard|]. rewrite Hv1. intros [[]|e] w2 (Hwf2 & Hv2 & Ht2); wp_go.
  1, 3: eapply wp_mono; [by apply wp_factor_record|]; intros [] w3 [? Hv3]; rewrite ext_tick in Hv3; wp_go; split; [done|congruence].
  2, 3: done.
  eapply wp_mono; [by apply factor_CompleteCode_ok|]. rewrite ext_tick, Hv2. unfold complete.
  intros [id|e] w3 [Hwf3 Hr]; [destruct Hr as (d & f & Hd' & <- & Hlive & Hf & Hfresh & Hs);
    unfold ChallengeHash in *; rewrite Hd in Hd'; injection Hd' as <-; simpl in *|]; wp_go.
  - by go_bool.
  - eapply wp_mono; [by apply wp_factor_record|]. intros [] w4 [? Hv4]. wp_go. split; [done|].
    rewrite Hv4, Hs. rewrite Hcr in Hf. injection Hf as <-. simpl in *.
    eexists h, _, _, _, (ticks w2). split_and!; try done; [lia|by apply matchCounter_Some].
  - eapply wp_mono; [by apply wp_factor_record|]. intros [] w4 [? Hv4]. wp_go. split; [done|congruence].
  - split; [done|congruence].
Qed.

Definition passed_recovery (input : VerifyInput) (n : nat) (a : Authentication) (s s' : factors) : Prop :=
  exists h d m code codes,
    HashToken (ChallengeToken input) = Ok h /\ challenges s !! h = Some d /\
    d_Subject d = auth_SubjectID a /\ n <= m /\ (now manager m < d_ExpiresAt d)%Z /\
    is_Some (enabled s !! auth_SubjectID a) /\ HashRecoveryCode (input_Code input) = Ok code /\
    recovery s !! auth_SubjectID a = Some codes /\ code ∈ codes /\
    UsedRecoveryCode a = true /\ s' = complete_recovery h (auth_SubjectID a) code codes s.

Lemma wp_factor_Recover input w :
  wf (ext w) ->
  wp (Recover manager input) (fun res w' => wf (ext w') /\
    match res with
    | Ok a => passed_recovery input (ticks w) a (abs w) (abs w')
    | Err _ => abs w' = abs w
    end) w.
Proof.
  intros Hwf. unfold Recover. wp_go. eapply wp_mono; [by apply wp_findChallenge|].
  intros [[[c cr] h]|e] w1 (Hwf1 & Hv1 & Ht1 & Hf); wp_go; [|done].
  destruct (Hf _ _ _ eq_refl) as [(Hh & Hd & _) Hcr]. clear Hf.
  eapply wp_mono; [by apply wp_factor_guard|]. rewrite Hv1. intros [[]|e] w2 (Hwf2 & Hv2 & Ht2); wp_go; [| |done].
  2: { eapply wp_mono; [by apply wp_factor_record|]. intros [] w3 [? Hv3]. wp_go. split; [done|congruence]. }
  eapply wp_mono; [by apply factor_CompleteRecovery_ok|]. rewrite ext_tick, Hv2. unfold complete.
  intros [id|e] w3 [Hwf3 Hr]; [destruct Hr as (d & codes & Hd' & <- & Hlive & Hcodes & Hin & Hs);
    unfold ChallengeHash in *; rewrite Hd in Hd'; injection Hd' as <-; simpl in *|]; wp_go.
  - by go_bool.
  - eapply wp_mono; [by apply wp_factor_record|]. intros [] w4 [? Hv4]. wp_go. split; [done|].
    rewrite Hv4, Hs. eexists h, _, (ticks w2), _, codes. split_and!; try done; lia.
  - eapply wp_mono; [by apply wp_factor_record|]. intros [] w4 [? Hv4]. wp_go. split; [done|congruence].
  - split; [done|congruence].
Qed.

Lemma wp_factor_Disable id source w :
  wf (ext w) ->
  wp (Disable manager id source) (fun res w' => wf (ext w') /\
    (abs w' = abs w \/ abs w' = disable (TrimSpace id) (abs w))) w.
Proof.
  intros Hwf. unfold Disable. wp_go; [by auto|]. eapply wp_mono; [by apply factor_Disable_ok|].
  rewrite ext_tick. intros [[]|e] w1 [Hwf1 Hv1]; wp_go; [|by auto].
  eapply wp_mono; [by apply wp_factor_record|]. intros [] w2 [? Hv2]. wp_go. rewrite Hv2, Hv1. auto.
Qed.

Lemma wp_factor_BeginEnrollment id name w :
  wf (ext w) ->
  wp (BeginEnrollment manager id name) (fun res w' => wf (ext w') /\
    match res with
    | Ok started => abs w' = begin_enrollment (TrimSpace id)
        (mkEnrolled (started_Secret started) (started_ExpiresAt started)) (abs w)
    | Err _ => abs w' = abs w
    end) w.
Proof.
  intros Hwf. unfold BeginEnrollment. wp_go; [done|]. unfold generateKey, wp at 1. cbn [fst snd].
  destruct (otp_Generate _ _ _ _) as [key|e]; wp_go; [|done].
  eapply wp_mono; [by apply factor_Begin_ok|]. rewrite ext_tick, ext_draw. simpl.
  intros [[]|e] w1 [Hwf1 Hv1]; wp_go; done.
Qed.

Lemma wp_factor_BeginChallenge id w :
  wf (ext w) ->
  wp (BeginChallenge manager id) (fun res w' => wf (ext w') /\
    match res with
    | Ok started => exists h, HashToken (challenge_Token started) = Ok h /\ challenges (abs w) !! h = None /\
        abs w' = challenge_subject h (TrimSpace id) (challenge_ExpiresAt started) (abs w)
    | Err _ => abs w' = abs w
    end) w.
Proof.
  intros Hwf. unfold BeginChallenge. wp_go; [done|].
  apply wp_for_range with (I := fun w' => wf (ext w') /\ abs w' = abs w); [done| |intros w1 [? ?]; by wp_go].
  intros w1 [Hwf1 Hv1]. wp_go. apply wp_Generate; [|by wp_go]. intros raw h Hh. wp_go.
  eapply wp_mono; [by apply factor_Create_ok|]. rewrite ext_tick, ext_draw, Hv1. simpl.
  intros [[]|e] w2 [Hwf2 Hr]; wp_go; try done. destruct Hr as [Hnone Hv]. eauto.
Qed.

(** A confirmed enrollment: the code was one of the enrolled secret, in time. *)
Definition confirmed (id code : string) (n : nat) (c : EnrollmentConfirmed) (s s' : factors) : Prop :=
  exists e counter m hashes,
    enrollments s !! id = Some e /\ n <= m /\ (now manager m < e_ExpiresAt e)%Z /\
    code_of (e_Secret e) code (now manager m) counter /\
    distinct_codes (RecoveryCodes c) hashes /\
    Z.of_nat (length (RecoveryCodes c)) = recoveryCodeCount manager /\
    s' = enable id (e_Secret e) counter hashes s.

Lemma wp_matchEnrollment id code source w :
  wf (ext w) ->
  wp (matchEnrollment manager id code source) (fun res w' => wf (ext w') /\ abs w' = abs w /\
    forall counter at_, res = Ok (counter, at_) -> exists e m,
      enrollments (abs w) !! id = Some e /\ ticks w <= m /\ at_ = now manager m /\
      (at_ < e_ExpiresAt e)%Z /\ code_of (e_Secret e) code at_ counter) w.
Proof.
  intros Hwf. unfold matchEnrollment. apply wp_bind. eapply wp_mono.
  { apply wp_and; [by apply factor_FindEnrollment_ok|].
    apply (wp_run _ (fun _ w' => ticks w <= ticks w')). intros r w1 E.
    change w1 with (snd (r, w1)). rewrite <- E. apply backend_FindEnrollment_ticks. }
  intros [e|e] w1 ((Hwf1 & Hv1 & He) & Ht); wp_go; try done;
    try (eapply wp_mono; [by apply wp_factor_record|]; intros [] w2 [? Hv2]; rewrite ?ext_tick in Hv2;
         wp_go; split_and!; [done|congruence|done]).
  split_and!; [done|done|]. intros counter at_ [= <- <-]. eexists _, (ticks w1).
  split_and!; [by apply He|done|done| |].
  - by go_bool.
  - by apply matchCounter_Some.
Qed.

Lemma wp_ConfirmEnrollment fuel id code source w :
  wf (ext w) -> (0 <= recoveryCodeCount manager)%Z ->
  wp (ConfirmEnrollment fuel manager id code source) (fun res w' => wf (ext w') /\
    match res with
    | Some (Ok c) => confirmed (TrimSpace id) code (ticks w) c (abs w) (abs w')
    | _ => abs w' = abs w
    end) w.
Proof.
  intros Hwf Hcount. unfold ConfirmEnrollment. wp_go; [done|].
  eapply wp_mono; [by apply wp_factor_guard|]. intros [[]|e] w1 (Hwf1 & Hv1 & Ht1); wp_go; [|done].
  eapply wp_mono; [by apply wp_matchEnrollment|]. rewrite Hv1.
  intros [[counter at_]|e] w2 (Hwf2 & Hv2 & He); wp_go; [|done].
  destruct (He _ _ eq_refl) as (e & m & Hen & Hm & -> & Hlive & Hcode). clear He.
  eapply wp_mono; [by apply (wp_recoveryCodesLoop fuel (recoveryCodeCount manager) [] []); [split; constructor|]|].
  intros [[[codes hashes]|e']|] w3 (He3 & Ht3 & Hcodes); wp_go; rewrite ?He3; try done.
  destruct Hcodes as [Hd Hlen].
  eapply wp_mono; [apply factor_Enable_ok; by rewrite He3|]. rewrite He3, Hv2.
  intros [[]|e'] w4 [Hwf4 Hr]; wp_go; try done. destruct Hr as (e' & Hen' & _ & Hs).
  rewrite Hen in Hen'. injection Hen' as <-.
  eapply wp_mono; [by apply wp_factor_record|]. intros [] w5 [? Hv5]. wp_go. split; [done|].
  rewrite Hv5, Hs. exists e, counter, m, hashes. by split_and!; try done; lia.
Qed.
End Refinement.

(** * A reference backend for the second factor

    A store whose state is the abstract one, an OTP library with predictable
    codes, and a run: alice enrolls and starts a challenge. *)

(** A reference store keeps no creation times: it makes up a valid one. *)
Definition ref_FindEnrollment (id : string) (s : factors) : result Enrollment * factors :=
  (match enrollments s !! id with
   | Some e => Ok (mkEnrollment id (e_Secret e) (e_ExpiresAt e - 1)%Z (e_ExpiresAt e))
   | None => Err ErrNotFound
   end, s).

Definition ref_Enable (id : string) (counter : Z) (codes : list RecoveryCodeHash) (at_ : time)
    (s : factors) : result unit * factors :=
  match enrollments s !! id with
  | None => (Err ErrNotFound, s)
  | Some e => if negb (Before at_ (e_ExpiresAt e)) then (Err ErrInactiveEnrollment, s)
              else (Ok tt, enable id (e_Secret e) counter codes s)
  end.

Definition ref_Disable (id : string) (s : factors) : result unit * factors :=
  match enabled s !! id with
  | None => (Err ErrNotFound, s)
  | Some _ => (Ok tt, disable id s)
  end.

Definition ref_CreateChallenge (c : Challenge) (s : factors) : result unit * factors :=
  match challenges s !! ch_TokenHash c with
  | Some _ => (Err ErrConflict, s)
  | None => (Ok tt, challenge_subject (ch_TokenHash c) (ch_SubjectID c) (ch_ExpiresAt c) s)
  end.

Definition ref_FindChallenge (h : Hash) (s : factors) : result (Challenge * Credential) * factors :=
  (match challenges s !! h with
   | None => Err ErrNotFound
   | Some d =>
       match enabled s !! d_Subject d with
       | None => Err ErrNotFound
       | Some f =>
           Ok (mkChallenge (d_Subject d) h (d_ExpiresAt d - 1)%Z (d_ExpiresAt d),
               mkCredential (d_Subject d) (f_Secret f) 1 (default 0%Z (f_LastUsed f))
                 (bool_decide (is_Some (f_LastUsed f))))
       end
   end, s).

Definition ref_CompleteCode (h : Hash) (counter : Z) (at_ : time) (s : factors) : result string * factors :=
  match challenges s !! h with
  | None => (Err ErrInactiveChallenge, s)
  | Some d =>
      if negb (Before at_ (d_ExpiresAt d)) then (Err ErrInactiveChallenge, s) else
      match enabled s !! d_Subject d with
      | None => (Err ErrInvalidCode, s)
      | Some f =>
          if match f_LastUsed f with Some last => (counter <=? last)%Z | None => false end
          then (Err ErrInvalidCode, s)
          else (Ok (d_Subject d), complete_code h (d_Subject d) (f_Secret f) counter s)
      end
  end.

Definition ref_CompleteRecovery (h : Hash) (code : RecoveryCodeHash) (at_ : time) (s : factors) :
    result string * factors :=
  match challenges s !! h with
  | None => (Err ErrInactiveChallenge, s)
  | Some d =>
      if negb (Before at_ (d_ExpiresAt d)) then (Err ErrInactiveChallenge, s) else
      match recovery s !! d_Subject d with
      | None => (Err ErrInvalidCode, s)
      | Some codes =>
          if bool_decide (code ∈ codes)
          then (Ok (d_Subject d), complete_recovery h (d_Subject d) code codes s)
          else (Err ErrInvalidCode, s)
      end
  end.

Definition ref_factor_store : Store factors :=
  {| store_IsEnabled id := lift_ext (fun s => (Ok (bool_decide (is_Some (enabled s !! id))), s));
     store_BeginEnrollment e := lift_ext (fun s =>
       (Ok tt, begin_enrollment (enr_SubjectID e) (mkEnrolled (enr_Secret e) (enr_ExpiresAt e)) s));
     store_FindEnrollment id := lift_ext (ref_FindEnrollment id);
     store_Enable id counter codes at_ := lift_ext (ref_Enable id counter codes at_);
     store_Disable id _ := lift_ext (ref_Disable id);
     store_CreateChallenge c := lift_ext (ref_CreateChallenge c);
     store_FindChallenge h := lift_ext (ref_FindChallenge h);
     store_CompleteCode h counter at_ := lift_ext (ref_CompleteCode h counter at_);
     store_CompleteRecovery h code at_ := lift_ext (ref_CompleteRecovery h code at_) |}.

Definition factors_wf (s : factors) : Prop := True.

#[export] Instance ref_factor_contract : FactorStoreContract ref_factor_store factors_wf id.
Proof.
  split; intros; unfold Datatypes.id, ChallengeHash, RecoveryCodeHash in *; simpl; apply wp_lift_ext; simpl.
  - split_and!; [done|done|]. by intros b [= <-].
  - done.
  - split_and!; [done|done|]. intros e. destruct (enrollments _ !! id) as [[secret expires]|]; [|done].
    by intros [= <-].
  - unfold ref_Enable. destruct (enrollments _ !! id) as [e|] eqn:He; [|done].
    destruct (Before _ _) eqn:Hb; [|done]. go_bool. split; [done|]. by exists e.
  - unfold ref_Disable. by destruct (enabled _ !! id).
  - unfold ref_CreateChallenge. by destruct (challenges _ !! _).
  - split_and!; [done|done|]. intros c cr. destruct (challenges _ !! h) as [[subject expires]|];
      intros Heq; [|discriminate Heq].
    simpl in Heq. destruct (enabled _ !! subject) as [[secret last]|] eqn:Hf; simplify_eq.
    simpl. rewrite Hf. by destruct last.
  - unfold ref_CompleteCode. destruct (challenges _ !! h) as [d|]; [|done].
    destruct (Before _ _) eqn:Hb; [|done]. simpl. destruct (enabled _ !! _) as [f|] eqn:Hf; [|done].
    destruct (match f_LastUsed f with Some _ => _ | None => _ end) eqn:Hl; [done|]. go_bool.
    split; [done|]. exists d, f. split_and!; try done. unfold fresh_by. destruct (f_LastUsed f); go_bool; done.
  - unfold ref_CompleteRecovery. destruct (challenges _ !! h) as [d|]; [|done].
    destruct (Before _ _) eqn:Hb; [|done]. simpl. destruct (recovery _ !! _) as [codes|] eqn:Hf; [|done].
    case_bool_decide; [|done]. go_bool. split; [done|]. by exists d, codes.
Qed.

(** ** A run: alice enrolls *)
#[export] Instance demo_otp : OtpLibrary := {|
  otp_Generate issuer account size source := Ok (mkKey "JBSWY3DPEHPK3PXP" ("otpauth://totp/" +:+ issuer));
  hotp_ValidateCustom code counter secret :=
    Ok (String.eqb code (pad_zeros 6 (format_uint (Z.to_N counter mod 1000000))));
|}.

(** Ten seconds per reading. *)
Definition factor_clock (i : nat) : time := (demo_epoch + Z.of_nat i * (10 * Second))%Z.

Definition demo_factor_manager : Manager factors :=
  mkManager _ ref_factor_store "Example" (10 * Minute)%Z (5 * Minute)%Z 3 None None factor_clock.

#[export] Instance demo_factor_backend : FactorBackend demo_factor_manager factors_wf id.
Proof.
  split; [apply _|done|done| |]; intros x w; simpl; unfold lift_ext; simpl; lia.
Defined.

Definition factors_start : World factors := demo_world (mkFactors ∅ ∅ ∅ ∅).
Definition alice_begins : World factors := snd (BeginEnrollment demo_factor_manager "alice" "alice@example.com" factors_start).
Definition alice_confirms : option (result EnrollmentConfirmed) * World factors :=
  ConfirmEnrollment 3 demo_factor_manager " alice " "856320" "10.0.0.1" alice_begins.
Definition alice_enabled : World factors := snd alice_confirms.
Definition alice_codes : list string :=
  match fst alice_confirms with Some (Ok c) => RecoveryCodes c | _ => [] end.
Definition alice_signs_in : result ChallengeStarted * World factors :=
  BeginChallenge demo_factor_manager "alice" alice_enabled.
Definition alice_challenge : string :=
  match fst alice_signs_in with Ok started => challenge_Token started | Err _ => "" end.
Definition alice_challenged : World factors := snd alice_signs_in.

Example alice_has_three_codes : length alice_codes = 3 /\ alice_challenge <> "".
Proof. vm_compute. done. Qed.
