(* ===== verification/TotpProps.v ===== *)
(** * Properties of the second factor

    Codes, challenges and recovery codes work once; enabling a factor needs a
    code of the enrolled secret. *)
From S2P Require Import Prelude GoText Base64 Sha256 Token Totp TotpSpec.

(** ** Calls *)
Inductive call : Type :=
| CBeginEnrollment (id name : string)
| CConfirmEnrollment (fuel : nat) (id code source : string)
| CBeginChallenge (id : string)
| CVerify (input : VerifyInput)
| CRecover (input : VerifyInput)
| CDisable (id source : string).

Definition confirms (c : call) (id : string) : Prop :=
  match c with CConfirmEnrollment _ raw _ _ => TrimSpace raw = id | _ => False end.

Section Properties.
Context {S : Type} `{Env} `{OtpLibrary} (manager : Manager S).
Context (wf : S -> Prop) (view : S -> factors) `{!FactorBackend manager wf view}.

(** What [NewManager] checks. *)
Context (count_positive : (0 < recoveryCodeCount manager)%Z).

Abbreviation abs w := (view (ext w)).

Definition run (c : call) (w : World S) : World S :=
  match c with
  | CBeginEnrollment id name => snd (BeginEnrollment manager id name w)
  | CConfirmEnrollment fuel id code source => snd (ConfirmEnrollment fuel manager id code source w)
  | CBeginChallenge id => snd (BeginChallenge manager id w)
  | CVerify input => snd (Verify manager input w)
  | CRecover input => snd (Recover manager input w)
  | CDisable id source => snd (Disable manager id source w)
  end.

Definition run_all (cs : list call) (w : World S) : World S := foldl (fun w c => run c w) w cs.

(** The effect of a call on the abstract state. *)
Inductive step (c : call) (n : nat) : factors -> factors -> Prop :=
| step_same s : step c n s s
| step_begin id e s : step c n s (begin_enrollment id e s)
| step_confirm fuel id code source started s s' :
    c = CConfirmEnrollment fuel id code source -> confirmed manager (TrimSpace id) code n started s s' ->
    step c n s s'
| step_challenge h id expires s : step c n s (challenge_subject h id expires s)
| step_verify input a s s' : passed_code manager input n a s s' -> step c n s s'
| step_recover input a s s' : passed_recovery manager input n a s s' -> step c n s s'
| step_disable id s : step c n s (disable id s).

Lemma run_step c w : wf (ext w) -> wf (ext (run c w)) /\ step c (ticks w) (abs w) (abs (run c w)).
Proof.
  intros Hwf. destruct c as [id name|fuel id code source|id|input|input|id source]; simpl.
  - destruct (wp_factor_BeginEnrollment manager wf view id name w Hwf) as [? Hr]. split; [done|].
    destruct (fst _); rewrite Hr; constructor.
  - destruct (wp_ConfirmEnrollment manager wf view fuel id code source w Hwf) as [? Hr]; [lia|]. split; [done|].
    destruct (fst _) as [[started|e]|]; [by eapply step_confirm|rewrite Hr; constructor..].
  - destruct (wp_factor_BeginChallenge manager wf view id w Hwf) as [? Hr]. split; [done|].
    destruct (fst _); [destruct Hr as (h & _ & _ & ->)|rewrite Hr]; constructor.
  - destruct (wp_factor_Verify manager wf view input w Hwf) as [? Hr]. split; [done|].
    destruct (fst _); [by eapply step_verify|rewrite Hr; constructor].
  - destruct (wp_factor_Recover manager wf view input w Hwf) as [? Hr]. split; [done|].
    destruct (fst _); [by eapply step_recover|rewrite Hr; constructor].
  - destruct (wp_factor_Disable manager wf view id source w Hwf) as [? [Hr|Hr]]; (split; [done|]);
      rewrite Hr; constructor.
Qed.

(** A property of one user's factor that every call but its confirmation keeps
    is kept by every sequence of such calls. *)
Lemma run_all_keeps (P : factors -> Prop) id cs w :
  (forall c n s s', step c n s s' -> ~ confirms c id -> P s -> P s') ->
  wf (ext w) -> Forall (fun c => ~ confirms c id) cs -> P (abs w) ->
  wf (ext (run_all cs w)) /\ P (abs (run_all cs w)).
Proof.
  intros HP Hwf Hcs. revert w Hwf. induction Hcs as [|c cs Hc Hcs IH]; intros w Hwf Hw; [done|]. simpl.
  destruct (run_step c w Hwf) as [Hwf' Hs]. apply IH; [done|]. by eapply HP.
Qed.

(** A sign-in with an authenticator code succeeds only on a pending challenge
    that has not expired, with a six-digit code of the subject's secret for a
    period at most one away, later than every period used before; it uses up
    the challenge and the period. *)
Theorem Verify_needs_fresh_code input a w w1 :
  wf (ext w) -> Verify manager input w = (Ok a, w1) ->
  exists h d f counter n,
    HashToken (ChallengeToken input) = Ok h /\ challenges (abs w) !! h = Some d /\
    d_Subject d = auth_SubjectID a /\ ticks w <= n /\ (now manager n < d_ExpiresAt d)%Z /\
    enabled (abs w) !! auth_SubjectID a = Some f /\ fresh f counter /\
    code_of (f_Secret f) (input_Code input) (now manager n) counter /\
    abs w1 = complete_code h (auth_SubjectID a) (f_Secret f) counter (abs w).
Proof.
  intros Hwf E. destruct (wp_elim _ _ _ _ _ (wp_factor_Verify manager wf view input w Hwf) E)
    as [_ (h & d & f & counter & n & Hpass)].
  exists h, d, f, counter, n. tauto.
Qed.

(** The factor of [id] is off, or has used a period from [k] on. *)
Definition used_since (id secret : string) (k : Z) (s : factors) : Prop :=
  enabled s !! id = None \/
  exists k', (k <= k')%Z /\ enabled s !! id = Some (mkFactor secret (Some k')).

Lemma used_since_step id secret k c n s s' :
  step c n s s' -> ~ confirms c id -> used_since id secret k s -> used_since id secret k s'.
Proof.
  intros Hs Hc Hu. destruct Hs as [| |fuel raw code source started s s' -> Hconf| | input a s s' Hp|input a s s' Hp|id' s];
    unfold used_since in *; simpl in *; try done.
  - destruct Hconf as (e & counter & m & hs & _ & _ & _ & _ & _ & _ & ->). simpl. by rewrite lookup_insert_ne.
  - destruct Hp as (h & d & f & counter & m & _ & _ & _ & _ & _ & Hf & _ & Hfresh & _ & ->). simpl.
    destruct (decide (auth_SubjectID a = id)) as [<-|Hne]; [|by rewrite lookup_insert_ne].
    rewrite lookup_insert_eq. destruct Hu as [Hu|(k' & Hk & Hu)]; [congruence|].
    rewrite Hu in Hf. injection Hf as <-. unfold fresh in Hfresh. simpl in *. right. exists counter. split; [lia|done].
  - by destruct Hp as (h & d & m & code & codes & _ & _ & _ & _ & _ & _ & _ & _ & _ & _ & ->).
  - destruct (decide (id' = id)) as [<-|Hne]; [left; apply lookup_delete_eq|by rewrite lookup_delete_ne].
Qed.

(** C27: no authenticator code is accepted twice: however many calls come between
    two sign-ins of a subject, short of a new enrollment, the second one used a
    code of a later period than the first. *)
Theorem code_never_replayed input1 input2 a1 a2 cs w w1 w3 :
  wf (ext w) -> Verify manager input1 w = (Ok a1, w1) ->
  Forall (fun c => ~ confirms c (auth_SubjectID a1)) cs ->
  Verify manager input2 (run_all cs w1) = (Ok a2, w3) -> auth_SubjectID a2 = auth_SubjectID a1 ->
  exists secret k1 k2 n1 n2,
    (k1 < k2)%Z /\
    code_of secret (input_Code input1) (now manager n1) k1 /\
    code_of secret (input_Code input2) (now manager n2) k2 /\
    enabled (abs w1) !! auth_SubjectID a1 = Some (mkFactor secret (Some k1)) /\
    enabled (abs w3) !! auth_SubjectID a1 = Some (mkFactor secret (Some k2)).
Proof.
  intros Hwf E1 Hcs E2 Hsub.
  destruct (wp_elim _ _ _ _ _ (wp_factor_Verify manager wf view _ w Hwf) E1)
    as [Hwf1 (h1 & d1 & f1 & k1 & n1 & _ & _ & _ & _ & _ & _ & Hcode1 & _ & _ & Hs1)].
  assert (Hf1 : enabled (abs w1) !! auth_SubjectID a1 = Some (mkFactor (f_Secret f1) (Some k1)))
    by (rewrite Hs1; simpl; apply lookup_insert_eq).
  destruct (run_all_keeps (used_since (auth_SubjectID a1) (f_Secret f1) k1) (auth_SubjectID a1) cs w1)
    as [Hwf2 Hu]; [intros; by eapply used_since_step|done|done|right; exists k1; by split|].
  destruct (wp_elim _ _ _ _ _ (wp_factor_Verify manager wf view _ _ Hwf2) E2)
    as [_ (h2 & d2 & f2 & k2 & n2 & _ & _ & _ & _ & _ & Hf2 & Hcode2 & Hfresh & _ & Hs2)].
  rewrite Hsub in *. destruct Hu as [Hu|(k' & Hk & Hu)]; [congruence|].
  rewrite Hu in Hf2. injection Hf2 as <-. unfold fresh in Hfresh. simpl in *.
  exists (f_Secret f1), k1, k2, n1, n2. split_and!; try done; [lia|].
  rewrite Hs2. simpl. apply lookup_insert_eq.
Qed.

(** ** Challenges *)
Lemma no_challenge input h w :
  wf (ext w) -> HashToken (ChallengeToken input) = Ok h -> challenges (abs w) !! h = None ->
  is_ok (fst (Verify manager input w)) = false /\ is_ok (fst (Recover manager input w)) = false.
Proof.
  intros Hwf Hh Hnone. split.
  - destruct (wp_factor_Verify manager wf view input w Hwf) as [_ Hr]. destruct (fst _); [|done].
    destruct Hr as (h' & d & f & k & n & Hh' & Hd & _). congruence.
  - destruct (wp_factor_Recover manager wf view input w Hwf) as [_ Hr]. destruct (fst _); [|done].
    destruct Hr as (h' & d & n & code & codes & Hh' & Hd & _). congruence.
Qed.

(** A challenge is answered once: after a sign-in with a code or a recovery
    code, its token signs nobody in, by either way and with any code. *)
Theorem challenge_single_use input code source a w w1 :
  let again := mkVerifyInput (ChallengeToken input) code source in
  wf (ext w) -> Verify manager input w = (Ok a, w1) \/ Recover manager input w = (Ok a, w1) ->
  is_ok (fst (Verify manager again w1)) = false /\ is_ok (fst (Recover manager again w1)) = false.
Proof.
  intros again Hwf [E|E].
  - destruct (wp_elim _ _ _ _ _ (wp_factor_Verify manager wf view _ w Hwf) E)
      as [Hwf1 (h & d & f & k & n & Hh & _ & _ & _ & _ & _ & _ & _ & _ & Hs)].
    apply (no_challenge again h w1 Hwf1 Hh). rewrite Hs. apply lookup_delete_eq.
  - destruct (wp_elim _ _ _ _ _ (wp_factor_Recover manager wf view _ w Hwf) E)
      as [Hwf1 (h & d & n & c & codes & Hh & _ & _ & _ & _ & _ & _ & _ & _ & _ & Hs)].
    apply (no_challenge again h w1 Hwf1 Hh). rewrite Hs. apply lookup_delete_eq.
Qed.

(** ** Enrollment *)

(** A secret starts counting as a second factor only when its enrollment is
    confirmed in time with a code of that secret. *)
Theorem enabling_needs_code c id secret w :
  wf (ext w) -> f_Secret <$> enabled (abs (run c w)) !! id = Some secret ->
  f_Secret <$> enabled (abs w) !! id <> Some secret ->
  exists fuel raw code source e counter n,
    c = CConfirmEnrollment fuel raw code source /\ TrimSpace raw = id /\
    enrollments (abs w) !! id = Some e /\ e_Secret e = secret /\
    ticks w <= n /\ (now manager n < e_ExpiresAt e)%Z /\ code_of secret code (now manager n) counter.
Proof.
  intros Hwf Hnew Hold. destruct (run_step c w Hwf) as [_ Hs]. revert Hnew Hold. generalize (abs (run c w)) Hs.
  intros s' Hs' Hnew Hold.
  destruct Hs' as [| |fuel raw code source started s s' -> Hconf| | input a s s' Hp|input a s s' Hp|id' s];
    simpl in *; try done.
  - destruct Hconf as (e & counter & m & hs & He & Hm & Hlive & Hcode & _ & _ & ->). simpl in *.
    destruct (decide (TrimSpace raw = id)) as [<-|Hne]; [|by rewrite lookup_insert_ne in Hnew].
    rewrite lookup_insert_eq in Hnew. simpl in Hnew. injection Hnew as <-.
    by exists fuel, raw, code, source, e, counter, m.
  - destruct Hp as (h & d & f & counter & m & _ & _ & _ & _ & _ & Hf & _ & _ & _ & ->). simpl in *.
    destruct (decide (auth_SubjectID a = id)) as [<-|Hne]; [|by rewrite lookup_insert_ne in Hnew].
    rewrite lookup_insert_eq in Hnew. rewrite Hf in Hold. done.
  - by destruct Hp as (h & d & m & code & codes & _ & _ & _ & _ & _ & _ & _ & _ & _ & _ & ->).
  - destruct (decide (id' = id)) as [<-|Hne]; [by rewrite lookup_delete_eq in Hnew|by rewrite lookup_delete_ne in Hnew].
Qed.

Lemma list_to_set_hashes codes hashes : distinct_codes codes hashes ->
  size (list_to_set hashes : gset string) = length codes /\
  forall code, In code codes -> exists h, HashRecoveryCode code = Ok h /\ h ∈ (list_to_set hashes : gset string).
Proof.
  intros [Hnd Hf]. split; [rewrite size_list_to_set by done; symmetry; by eapply Forall2_length|].
  intros code Hin%list_elem_of_In. apply list_elem_of_lookup in Hin as [i Hi].
  destruct (Forall2_lookup_l _ _ _ _ _ Hf Hi) as (h & Hh & Hc). exists h. split; [done|].
  apply elem_of_list_to_set, list_elem_of_lookup. by exists i.
Qed.

(** A confirmed enrollment hands out as many recovery codes as configured, no
    two alike, and what is stored is exactly their hashes. *)
Theorem ConfirmEnrollment_recovery_codes fuel raw code source c w w1 :
  wf (ext w) -> ConfirmEnrollment fuel manager raw code source w = (Some (Ok c), w1) ->
  NoDup (RecoveryCodes c) /\ Z.of_nat (length (RecoveryCodes c)) = recoveryCodeCount manager /\
  exists codes, recovery (abs w1) !! TrimSpace raw = Some codes /\
    size codes = length (RecoveryCodes c) /\
    forall code, In code (RecoveryCodes c) -> exists h, HashRecoveryCode code = Ok h /\ h ∈ codes.
Proof.
  intros Hwf E.
  destruct (wp_elim _ _ _ _ _ (wp_ConfirmEnrollment manager wf view fuel raw code source w Hwf ltac:(lia)) E)
    as [_ (e & counter & m & hs & _ & _ & _ & _ & Hd & Hlen & Hs)].
  split_and!; [by eapply distinct_codes_NoDup|done|].
  exists (list_to_set hs). rewrite Hs. simpl. rewrite lookup_insert_eq.
  split; [done|]. by apply list_to_set_hashes.
Qed.

(** ** Recovery *)
Definition not_stored (id h : string) (s : factors) : Prop :=
  forall codes, recovery s !! id = Some codes -> h ∉ codes.

Lemma not_stored_step id h c n s s' :
  step c n s s' -> ~ confirms c id -> not_stored id h s -> not_stored id h s'.
Proof.
  intros Hs Hc Hn codes. destruct Hs as [| |fuel raw code source started s s' -> Hconf| | input a s s' Hp|input a s s' Hp|id' s];
    simpl in *; try by apply Hn.
  - destruct Hconf as (e & counter & m & hs & _ & _ & _ & _ & _ & _ & ->). simpl.
    rewrite lookup_insert_ne by done. apply Hn.
  - destruct Hp as (h' & d & f & counter & m & _ & _ & _ & _ & _ & _ & _ & _ & _ & ->). apply Hn.
  - destruct Hp as (h' & d & m & code & codes' & _ & _ & _ & _ & _ & _ & _ & Hcodes & _ & _ & ->). simpl.
    intros [[<- <-]|[_ Hl]]%lookup_insert_Some; [|by apply Hn]. specialize (Hn _ Hcodes). set_solver.
  - intros [_ Hl]%lookup_delete_Some. by apply Hn.
Qed.

(** A recovery code works once: after it signed its subject in, no sequence of
    calls short of a new enrollment makes it sign that subject in again. *)
Theorem recovery_code_single_use input1 input2 a1 cs w w1 :
  wf (ext w) -> Recover manager input1 w = (Ok a1, w1) ->
  Forall (fun c => ~ confirms c (auth_SubjectID a1)) cs ->
  HashRecoveryCode (input_Code input2) = HashRecoveryCode (input_Code input1) ->
  forall a2 w3, Recover manager input2 (run_all cs w1) = (Ok a2, w3) -> auth_SubjectID a2 <> auth_SubjectID a1.
Proof.
  intros Hwf E1 Hcs Hsame a2 w3 E2 Hsub.
  destruct (wp_elim _ _ _ _ _ (wp_factor_Recover manager wf view _ w Hwf) E1)
    as [Hwf1 (h1 & d1 & n1 & code & codes1 & _ & _ & _ & _ & _ & _ & Hcode & _ & _ & _ & Hs1)].
  destruct (run_all_keeps (not_stored (auth_SubjectID a1) code) (auth_SubjectID a1) cs w1)
    as [Hwf2 Hn]; [intros; by eapply not_stored_step|done|done| |].
  { intros codes. rewrite Hs1. simpl. rewrite lookup_insert_eq. intros [= <-]. set_solver. }
  destruct (wp_elim _ _ _ _ _ (wp_factor_Recover manager wf view _ _ Hwf2) E2)
    as [_ (h2 & d2 & n2 & code2 & codes2 & _ & _ & _ & _ & _ & _ & Hcode2 & Hcodes2 & Hin & _)].
  assert (code2 = code) as -> by congruence. rewrite Hsub in *. by apply (Hn codes2).
Qed.
End Properties.

(** C38: the loop that makes recovery codes ends: when the reads of the random
    source that its fuel allows give enough different codes, or one fails, it
    returns; its codes are then as many as asked for, with distinct hashes. *)
Theorem generateRecoveryCodes_returns {S} `{Env} fuel count (w : World S) :
  (0 <= count)%Z -> enough_reads [] (draws w) fuel count ->
  match fst (generateRecoveryCodes fuel count w) with
  | Some (Ok (codes, hashes)) => distinct_codes codes hashes /\ Z.of_nat (length codes) = count
  | Some (Err e) => e = ErrRand
  | None => False
  end.
Proof.
  intros Hcount Hen. destruct (wp_recoveryCodesLoop fuel count [] [] w) as (_ & _ & Hg); [split; constructor|done|].
  unfold generateRecoveryCodes. destruct (fst _) as [[[codes hashes]|e]|]; simpl in *; tauto.
Qed.

(** ** Runs of the theorems *)
Ltac factor_ok E := exfalso; vm_compute in E; discriminate E.

Definition alice_code : VerifyInput := mkVerifyInput alice_challenge "856321" "10.0.0.1".
Definition alice_recovery : VerifyInput := mkVerifyInput alice_challenge (List.hd "" alice_codes) "10.0.0.1".

Lemma Verify_needs_fresh_code_witness :
  exists a w1, Verify demo_factor_manager alice_code alice_challenged = (Ok a, w1) /\
    exists h f counter n, fresh f counter /\
      code_of (f_Secret f) "856321" (now demo_factor_manager n) counter /\
      id (ext w1) = complete_code h (auth_SubjectID a) (f_Secret f) counter (id (ext alice_challenged)).
Proof.
  destruct (Verify demo_factor_manager alice_code alice_challenged) as [[a|e] w1] eqn:E; [|factor_ok E].
  exists a, w1. split; [reflexivity|].
  destruct (Verify_needs_fresh_code demo_factor_manager factors_wf id alice_code a alice_challenged w1 I E)
    as (h & d & f & counter & n & _ & _ & _ & _ & _ & _ & Hfresh & Hcode & Hs).
  exists h, f, counter, n. exact (conj Hfresh (conj Hcode Hs)).
Defined.

Lemma challenge_single_use_witness :
  is_ok (fst (Verify demo_factor_manager alice_code alice_challenged)) = true /\
  is_ok (fst (Verify demo_factor_manager (mkVerifyInput alice_challenge "856321" "10.0.0.2")
    (snd (Verify demo_factor_manager alice_code alice_challenged)))) = false.
Proof.
  destruct (Verify demo_factor_manager alice_code alice_challenged) as [[a|e] w1] eqn:E; [|factor_ok E].
  split; [reflexivity|].
  apply (challenge_single_use demo_factor_manager factors_wf id alice_code "856321" "10.0.0.2" a
    alice_challenged w1 I (or_introl E)).
Defined.

Lemma enabling_needs_code_witness :
  exists e counter n, enrollments (id (ext alice_begins)) !! "alice" = Some e /\
    (now demo_factor_manager n < e_ExpiresAt e)%Z /\
    code_of "JBSWY3DPEHPK3PXP" "856320" (now demo_factor_manager n) counter.
Proof.
  destruct (enabling_needs_code demo_factor_manager factors_wf id eq_refl
    (CConfirmEnrollment 3 " alice " "856320" "10.0.0.1") "alice" "JBSWY3DPEHPK3PXP" alice_begins I)
    as (fuel & raw & code & source & e & counter & n & Hc & _ & He & Hsec & _ & Hlive & Hcode).
  - vm_compute. reflexivity.
  - intros Hold. vm_compute in Hold. discriminate Hold.
  - injection Hc as <- <- <- <-. exists e, counter, n. exact (conj He (conj Hlive Hcode)).
Defined.

Lemma ConfirmEnrollment_recovery_codes_witness :
  exists c, fst alice_confirms = Some (Ok c) /\ NoDup (RecoveryCodes c) /\ length (RecoveryCodes c) = 3.
Proof.
  destruct alice_confirms as [[[c|e]|] w1] eqn:E; [|factor_ok E..].
  exists c. split; [reflexivity|].
  destruct (ConfirmEnrollment_recovery_codes demo_factor_manager factors_wf id eq_refl 3 " alice " "856320"
    "10.0.0.1" c alice_begins w1 I E) as (Hnd & Hlen & _).
  split; [exact Hnd|]. simpl in Hlen. lia.
Defined.

Lemma recovery_code_single_use_witness :
  exists a w1, Recover demo_factor_manager alice_recovery alice_challenged = (Ok a, w1) /\
    forall token a2 w3, Recover demo_factor_manager (mkVerifyInput token (List.hd "" alice_codes) "10.0.0.2")
      (run_all demo_factor_manager [CBeginChallenge "alice"] w1) = (Ok a2, w3) -> auth_SubjectID a2 <> auth_SubjectID a.
Proof.
  destruct (Recover demo_factor_manager alice_recovery alice_challenged) as [[a|e] w1] eqn:E; [|factor_ok E].
  exists a, w1. split; [reflexivity|]. intros token.
  apply (recovery_code_single_use demo_factor_manager factors_wf id eq_refl alice_recovery
    (mkVerifyInput token (List.hd "" alice_codes) "10.0.0.2") a [CBeginChallenge "alice"] alice_challenged w1 I E).
  - constructor; [intros []|constructor].
  - reflexivity.
Defined.

Lemma generateRecoveryCodes_returns_witness :
  exists codes hashes, fst (generateRecoveryCodes 3 3 factors_start) = Some (Ok (codes, hashes)) /\
    distinct_codes codes hashes.
Proof.
  pose proof (generateRecoveryCodes_returns 3 3 factors_start ltac:(lia)) as Hg.
  destruct (fst (generateRecoveryCodes 3 3 factors_start)) as [[[codes hashes]|e]|] eqn:E; [|factor_ok E..].
  exists codes, hashes. split; [reflexivity|]. apply Hg. left. vm_compute. discriminate.
Defined.

(** Alice signs in, starts another challenge and signs in with the next code. *)
Definition alice_signed_in : World factors := snd (Verify demo_factor_manager alice_code alice_challenged).
Definition alice_next : VerifyInput :=
  mkVerifyInput
    match fst (BeginChallenge demo_factor_manager "alice" alice_signed_in) with
    | Ok started => challenge_Token started
    | Err _ => ""
    end "856322" "10.0.0.1".

Lemma code_never_replayed_witness :
  is_ok (fst (Verify demo_factor_manager alice_next
    (run_all demo_factor_manager [CBeginChallenge "alice"] alice_signed_in))) = true /\
  exists secret k1 k2 n1 n2, (k1 < k2)%Z /\
    code_of secret "856321" (now demo_factor_manager n1) k1 /\
    code_of secret "856322" (now demo_factor_manager n2) k2.
Proof.
  destruct (Verify demo_factor_manager alice_code alice_challenged) as [[a1|e] w1] eqn:E1; [|factor_ok E1].
  assert (Hw1 : w1 = alice_signed_in) by (unfold alice_signed_in; rewrite E1; reflexivity). rewrite <- Hw1.
  destruct (Verify demo_factor_manager alice_next (run_all demo_factor_manager [CBeginChallenge "alice"] w1))
    as [[a2|e] w3] eqn:E2; [|rewrite Hw1 in E2; factor_ok E2].
  split; [reflexivity|].
  destruct (code_never_replayed demo_factor_manager factors_wf id eq_refl alice_code alice_next a1 a2
    [CBeginChallenge "alice"] alice_challenged w1 w3 I E1)
    as (secret & k1 & k2 & n1 & n2 & Hk & Hc1 & Hc2 & _).
  - constructor; [intros []|constructor].
  - exact E2.
  - apply (f_equal (fun r => match fst r with Ok a => auth_SubjectID a | Err _ => "" end)) in E1.
    apply (f_equal (fun r => match fst r with Ok a => auth_SubjectID a | Err _ => "" end)) in E2.
    rewrite Hw1 in E2. cbn [fst] in E1, E2. rewrite <- E1, <- E2. vm_compute. reflexivity.
  - exists secret, k1, k2, n1, n2. exact (conj Hk (conj Hc1 Hc2)).
Defined.
