(* ===== verification/GoogleOAuth.v ===== *)
(** * Package [googleoauth] (googleoauth/googleoauth.go, googleoauth/provider.go)

    Sign-in with Google by the authorization code flow with PKCE, and linking of
    Google identities to accounts. *)
From S2P Require Import Prelude GoText GoUrl Base64 Sha256 EmailAddress.

Definition ErrConflict : error := New "googleoauth.ErrConflict".
Definition ErrInvalidConfig : error := New "googleoauth.ErrInvalidConfig".
Definition ErrInvalidInput : error := New "googleoauth.ErrInvalidInput".
Definition ErrInvalidRecord : error := New "googleoauth.ErrInvalidRecord".
Definition ErrInvalidState : error := New "googleoauth.ErrInvalidState".
Definition ErrLastCredential : error := New "googleoauth.ErrLastCredential".
Definition ErrLinkRequired : error := New "googleoauth.ErrLinkRequired".
Definition ErrNotFound : error := New "googleoauth.ErrNotFound".
Definition ErrUnverified : error := New "googleoauth.ErrUnverified".

(** ** Data *)
Record Challenge : Type := mkChallenge {
  StateHash : string;
  ch_Nonce : string;
  CodeVerifier : string;
  ch_SubjectID : string;
  CreatedAt : time;
  ExpiresAt : time;
}.

Record Identity : Type := mkIdentity {
  id_ProviderSubject : string;
  id_Email : string;
  EmailVerified : bool;
  id_Nonce : string;
}.

Record User : Type := mkUser { ID : string }.

Record IdentityResolution : Type := mkResolution {
  ProviderSubject : string;
  Email : string;
  SubjectID : string;
}.

Record Store (S : Type) : Type := mkStore {
  store_CreateChallenge : Challenge -> M S (result unit);
  store_ConsumeChallenge : string -> time -> M S (result Challenge);
  store_ResolveIdentity : IdentityResolution -> M S (result User);
}.
Arguments store_CreateChallenge {S}. Arguments store_ConsumeChallenge {S}.
Arguments store_ResolveIdentity {S}.

(** The interface [IdentityStore] has one method, [UnlinkIdentity]. *)
Definition IdentityStore (S : Type) : Type := string -> time -> M S (result unit).

Record ExchangeInput : Type := mkExchangeInput {
  ex_Code : string;
  ex_CodeVerifier : string;
  ex_RedirectURL : string;
  ex_Audience : string;
}.

(** The interface [Provider]. *)
Definition Provider (S : Type) : Type := ExchangeInput -> M S (result Identity).

Inductive EventType : Type := EventUnlinked.

Record SecurityEvent : Type := mkEvent {
  event_Type : EventType;
  event_SubjectID : string;
  event_SourceKey : string;
  event_OccurredAt : time;
}.

Definition SecurityEventSink (S : Type) : Type := SecurityEvent -> M S unit.

Record Config (S : Type) : Type := mkConfig {
  c_ClientID : string;
  c_AuthorizationURL : string;
  c_RedirectURL : string;
  c_StateLifetime : duration;
  c_Identities : option (IdentityStore S);
  c_SecurityEvents : option (SecurityEventSink S);
  c_Now : option (nat -> time);
}.
Arguments c_ClientID {S}. Arguments c_AuthorizationURL {S}. Arguments c_RedirectURL {S}.
Arguments c_StateLifetime {S}. Arguments c_Identities {S}. Arguments c_SecurityEvents {S}.
Arguments c_Now {S}.

Record Manager (S : Type) : Type := mkManager {
  store : Store S;
  identities : option (IdentityStore S);
  provider : Provider S;
  clientID : string;
  authorizationURL : URL;
  redirectURL : string;
  lifetime : duration;
  securityEvents : option (SecurityEventSink S);
  now : nat -> time;
}.
Arguments store {S}. Arguments identities {S}. Arguments provider {S}. Arguments clientID {S}.
Arguments authorizationURL {S}. Arguments redirectURL {S}. Arguments lifetime {S}.
Arguments securityEvents {S}. Arguments now {S}.

Record Started : Type := mkStarted { AuthorizationURL : string; State : string }.

(** ** Helpers *)
Definition parseURL `{NetURL} (rawURL : string) (requireHTTPS : bool) : result URL :=
  match url_Parse (TrimSpace rawURL) with
  | None => Err ErrInvalidConfig
  | Some parsed =>
      if String.eqb (Host parsed) "" || has_User parsed || negb (String.eqb (Fragment parsed) "")
      then Err ErrInvalidConfig else
      if requireHTTPS && negb (String.eqb (Scheme parsed) "https") then Err ErrInvalidConfig else
      if negb requireHTTPS && negb (String.eqb (Scheme parsed) "https") &&
         negb (String.eqb (Scheme parsed) "http")
      then Err ErrInvalidConfig else Ok parsed
  end.

Definition validChallenge (challenge : Challenge) (stateHash : string) (now : time) : bool :=
  String.eqb (StateHash challenge) stateHash &&
  negb (String.eqb (TrimSpace (ch_Nonce challenge)) "") &&
  negb (String.eqb (TrimSpace (CodeVerifier challenge)) "") &&
  negb (IsZero (CreatedAt challenge)) &&
  After (ExpiresAt challenge) (CreatedAt challenge) &&
  Before now (ExpiresAt challenge).

Definition hash (value : string) : string := Sum256 value.

Definition pkceChallenge (codeVerifier : string) : string :=
  EncodeToString URLAlphabet (Sum256 codeVerifier).

(** ** Operations *)
Section Operations.
Context {S : Type} `{Env} `{GoTables} `{NetURL}.

Definition randomString : M S (result string) :=
  random <-? rand_Read 32 ;;
  ret (Ok (EncodeToString URLAlphabet random)).

(** [storeIdentities] is what the type assertion [store.(IdentityStore)]
    yields. *)
Definition NewManager (store : option (Store S)) (storeIdentities : option (IdentityStore S))
    (provider : option (Provider S)) (config : Config S) : result (Manager S) :=
  match store with
  | None => Err (Errorf "%w: store is required" [ErrInvalidConfig])
  | Some store =>
      match provider with
      | None => Err (Errorf "%w: provider is required" [ErrInvalidConfig])
      | Some provider =>
          let clientID := TrimSpace (c_ClientID config) in
          if String.eqb clientID ""
          then Err (Errorf "%w: client ID is required" [ErrInvalidConfig]) else
          match parseURL (c_AuthorizationURL config) true with
          | Err _ => Err (Errorf "%w: invalid authorization URL" [ErrInvalidConfig])
          | Ok authorizationURL =>
              match parseURL (c_RedirectURL config) false with
              | Err _ => Err (Errorf "%w: invalid redirect URL" [ErrInvalidConfig])
              | Ok redirectURL =>
                  if (c_StateLifetime config <=? 0)%Z
                  then Err (Errorf "%w: state lifetime must be positive" [ErrInvalidConfig]) else
                  let identities := match c_Identities config with
                                    | Some identities => Some identities
                                    | None => storeIdentities
                                    end in
                  Ok (mkManager S store identities provider clientID authorizationURL
                        (url_String redirectURL) (c_StateLifetime config) (c_SecurityEvents config)
                        (default time_Now (c_Now config)))
              end
          end
      end
  end.

Definition record (manager : Manager S) (eventType : EventType) (subjectID sourceKey : string) :
    M S unit :=
  match securityEvents manager with
  | None => ret tt
  | Some sink =>
      at_ <- read_now (now manager) ;;
      sink (mkEvent eventType subjectID sourceKey at_)
  end.

Definition Unlink (manager : Manager S) (subjectID sourceKey : string) : M S (result unit) :=
  match identities manager with
  | None => ret (Err (Errorf "%w: identity store is required" [ErrInvalidConfig]))
  | Some unlinkIdentity =>
      let subjectID := TrimSpace subjectID in
      if String.eqb subjectID "" then ret (Err ErrInvalidInput) else
      now <- read_now (now manager) ;;
      r <- unlinkIdentity subjectID now ;;
      match r with
      | Err err =>
          if errors_Is err ErrLastCredential || errors_Is err ErrNotFound then ret (Err err)
          else ret (Err (Errorf "unlink Google identity: %w" [err]))
      | Ok _ =>
          _ <- record manager EventUnlinked subjectID sourceKey ;;
          ret (Ok tt)
      end
  end.

(** The query of the authorization request. *)
Definition authorizationQuery (manager : Manager S) (state nonce codeVerifier : string) : Values :=
  let query := ParseQuery (RawQuery (authorizationURL manager)) in
  let query := Set_ "client_id" (clientID manager) query in
  let query := Set_ "redirect_uri" (redirectURL manager) query in
  let query := Set_ "response_type" "code" query in
  let query := Set_ "scope" "openid email profile" query in
  let query := Set_ "state" state query in
  let query := Set_ "nonce" nonce query in
  let query := Set_ "code_challenge" (pkceChallenge codeVerifier) query in
  Set_ "code_challenge_method" "S256" query.

Definition Begin (manager : Manager S) (subjectID : string) : M S (result Started) :=
  state <-? wrapped "generate OAuth state: %w" randomString ;;
  nonce <-? wrapped "generate OAuth nonce: %w" randomString ;;
  codeVerifier <-? wrapped "generate PKCE verifier: %w" randomString ;;
  now <- read_now (now manager) ;;
  let challenge := mkChallenge (hash state) nonce codeVerifier (TrimSpace subjectID) now
                     (Add now (lifetime manager)) in
  _ <-? wrapped "store OAuth challenge: %w" (store_CreateChallenge (store manager) challenge) ;;
  let query := authorizationQuery manager state nonce codeVerifier in
  ret (Ok (mkStarted (url_String (set_RawQuery (Encode query) (authorizationURL manager))) state)).

Definition Complete (manager : Manager S) (state code : string) : M S (result User) :=
  let state := TrimSpace state in
  let code := TrimSpace code in
  if String.eqb state "" || String.eqb code "" then ret (Err ErrInvalidState) else
  let stateHash := hash state in
  now <- read_now (now manager) ;;
  r <- store_ConsumeChallenge (store manager) stateHash now ;;
  match r with
  | Err err =>
      if errors_Is err ErrNotFound || errors_Is err ErrInvalidState then ret (Err ErrInvalidState)
      else ret (Err (Errorf "consume OAuth challenge: %w" [err]))
  | Ok challenge =>
      if negb (validChallenge challenge stateHash now) then ret (Err ErrInvalidRecord) else
      identity <-? wrapped "exchange Google authorization code: %w"
                     (provider manager (mkExchangeInput code (CodeVerifier challenge)
                                          (redirectURL manager) (clientID manager))) ;;
      if negb (String.eqb (id_Nonce identity) (ch_Nonce challenge)) then ret (Err ErrInvalidState) else
      let providerSubject := TrimSpace (id_ProviderSubject identity) in
      if String.eqb providerSubject "" then ret (Err ErrInvalidRecord) else
      if negb (EmailVerified identity) then ret (Err ErrUnverified) else
      match Normalize (id_Email identity) with
      | Err _ => ret (Err ErrInvalidRecord)
      | Ok normalizedEmail =>
          user <-? wrapped "resolve Google identity: %w"
                     (store_ResolveIdentity (store manager)
                        (mkResolution providerSubject normalizedEmail (ch_SubjectID challenge))) ;;
          if String.eqb (TrimSpace (ID user)) "" then ret (Err ErrInvalidRecord) else
          ret (Ok user)
      end
  end.
End Operations.

(** ** Google's own provider

    The libraries go-oidc and oauth2 are a class of calls; HTTP clients and
    contexts are part of them. *)
Class GoogleLibraries (S : Type) := {
  Discovery : Type;
  OAuthToken : Type;
  IDToken : Type;
  (* [oidc.NewProvider(issuer)] *)
  oidc_NewProvider : string -> M S (result Discovery);
  (* [oauth2.Config{client, secret, endpoint, redirect, scopes}.Exchange(code, verifier)] *)
  oauth2_Exchange : string -> string -> Discovery -> string -> list string -> string -> string ->
                    M S (result OAuthToken);
  (* [token.Extra("id_token").(string)] *)
  token_id_token : OAuthToken -> option string;
  (* [discovery.Verifier(audience).Verify(rawIDToken)] *)
  oidc_Verify : Discovery -> string -> string -> M S (result IDToken);
  (* the claims sub, email, email_verified and nonce *)
  oidc_Claims : IDToken -> result Identity;
}.

Definition googleIssuer : string := "https://accounts.google.com".
Definition AuthorizationEndpoint : string := "https://accounts.google.com/o/oauth2/v2/auth".

Record GoogleProviderConfig : Type := mkGoogleProviderConfig { g_ClientID : string; g_ClientSecret : string }.

Section GoogleProvider.
Context {S : Type} `{GoogleLibraries S}.

(** The field [discovery], which is part of the state. *)
Record googleProvider : Type := mkGoogleProvider {
  g_clientID : string;
  g_clientSecret : string;
  get_discovery : S -> option Discovery;
  set_discovery : Discovery -> S -> S;
}.

Definition openIDProvider (provider : googleProvider) : M S (result Discovery) :=
  cached <- lift_ext (fun s => (get_discovery provider s, s)) ;;
  match cached with
  | Some discovery => ret (Ok discovery)
  | None =>
      discovery <-? wrapped "discover Google OpenID provider: %w" (oidc_NewProvider googleIssuer) ;;
      _ <- lift_ext (fun s => (tt, set_discovery provider discovery s)) ;;
      ret (Ok discovery)
  end.

Definition Exchange (provider : googleProvider) (input : ExchangeInput) : M S (result Identity) :=
  discovery <-? openIDProvider provider ;;
  token <-? wrapped "exchange authorization code: %w"
              (oauth2_Exchange (g_clientID provider) (g_clientSecret provider) discovery
                 (ex_RedirectURL input) ["openid"; "email"; "profile"] (ex_Code input)
                 (ex_CodeVerifier input)) ;;
  match token_id_token token with
  | None => ret (Err ErrInvalidRecord)
  | Some rawIDToken =>
      if String.eqb rawIDToken "" then ret (Err ErrInvalidRecord) else
      verified <-? wrapped "verify Google ID token: %w" (oidc_Verify discovery (ex_Audience input) rawIDToken) ;;
      ret (wrapf "read Google ID token claims: %w" (oidc_Claims verified))
  end.

Definition NewGoogleProvider (config : GoogleProviderConfig) (get : S -> option Discovery)
    (set : Discovery -> S -> S) : result googleProvider :=
  let clientID := TrimSpace (g_ClientID config) in
  let clientSecret := TrimSpace (g_ClientSecret config) in
  if String.eqb clientID "" || String.eqb clientSecret ""
  then Err (Errorf "%w: Google client ID and secret are required" [ErrInvalidConfig])
  else Ok (mkGoogleProvider clientID clientSecret get set).
End GoogleProvider.
