(* ===== verification/GoogleOAuthSpec.v ===== *)
(** * What Google sign-in promises

    The abstract state behind package [googleoauth], the contract of its stores
    and provider, and the effect of its operations. *)
From S2P Require Import Prelude GoText GoUrl Base64 Sha256 EmailAddress GoogleOAuth.

Record links : Type := mkLinks {
  (* pending challenges by the hash of their state *)
  states : gmap string Challenge;
  (* the user a Google identity belongs to *)
  owners : gmap string string;
  (* users and their emails *)
  people : gmap string string;
  (* how many other ways to sign in a user has *)
  methods : gmap string nat;
}.

Definition add_state (c : Challenge) (s : links) : links :=
  mkLinks (<[StateHash c := c]> (states s)) (owners s) (people s) (methods s).
Definition consume (h : string) (s : links) : links :=
  mkLinks (delete h (states s)) (owners s) (people s) (methods s).
Definition link (subject id : string) (s : links) : links :=
  mkLinks (states s) (<[subject := id]> (owners s)) (people s) (methods s).
Definition unlink (subject : string) (s : links) : links :=
  mkLinks (states s) (delete subject (owners s)) (people s) (methods s).
Definition add_person (id email : string) (s : links) : links :=
  mkLinks (states s) (owners s) (<[id := email]> (people s)) (methods s).

(** How an identity may be resolved to a user. *)
Inductive resolution (r : IdentityResolution) (s : links) : string -> links -> Prop :=
| resolution_known id :
    owners s !! ProviderSubject r = Some id -> SubjectID r = "" \/ SubjectID r = id ->
    resolution r s id s
| resolution_link id :
    owners s !! ProviderSubject r = None -> SubjectID r = id -> id <> "" -> is_Some (people s !! id) ->
    (forall subject, owners s !! subject <> Some id) ->
    resolution r s id (link (ProviderSubject r) id s)
| resolution_new id :
    owners s !! ProviderSubject r = None -> SubjectID r = "" -> people s !! id = None ->
    (forall other, people s !! other <> Some (Email r)) ->
    resolution r s id (link (ProviderSubject r) id (add_person id (Email r) s)).

(** A user has at most one Google identity, and identities belong to users. *)
Record links_inv (s : links) : Prop := {
  inv_one p q id : owners s !! p = Some id -> owners s !! q = Some id -> p = q;
  inv_owner p id : owners s !! p = Some id -> is_Some (people s !! id);
  inv_states h c : states s !! h = Some c -> StateHash c = h;
}.

Lemma resolution_inv r s id s' : resolution r s id s' -> links_inv s -> links_inv s'.
Proof.
  intros Hr [Hone Hown Hst]. destruct Hr as [id Ho _|id Ho _ _ Hp Hno|id Ho _ Hp Hno]; [by split| |].
  - split; simpl; [| |done].
    + intros p q id' [[<- E1]|[? Hp']]%lookup_insert_Some [[<- E2]|[? Hq]]%lookup_insert_Some; subst;
        [done|by destruct (Hno q)|by destruct (Hno p)|by eapply Hone].
    + intros p id' [[<- <-]|[? Hp']]%lookup_insert_Some; [done|by eapply Hown].
  - assert (Hfresh : forall p, owners s !! p <> Some id).
    { intros p Hp'. destruct (Hown _ _ Hp') as [e He]. congruence. }
    split; simpl; [| |done].
    + intros p q id' [[<- E1]|[? Hp']]%lookup_insert_Some [[<- E2]|[? Hq]]%lookup_insert_Some; subst;
        [done|by destruct (Hfresh q)|by destruct (Hfresh p)|by eapply Hone].
    + intros p id' [[<- <-]|[? Hp']]%lookup_insert_Some; [by rewrite lookup_insert_eq|].
      destruct (decide (id = id')) as [<-|]; [by rewrite lookup_insert_eq|].
      rewrite lookup_insert_ne by done. by eapply Hown.
Qed.

Lemma consume_inv h s : links_inv s -> links_inv (consume h s).
Proof. intros [Hone Hown Hst]. split; simpl; [done|done|]. intros k c [_ ?]%lookup_delete_Some. by apply Hst. Qed.

Lemma add_state_inv c s : links_inv s -> links_inv (add_state c s).
Proof.
  intros [Hone Hown Hst]. split; simpl; [done|done|].
  intros k c' [[<- <-]|[_ ?]]%lookup_insert_Some; [done|by apply Hst].
Qed.

Lemma unlink_inv p s : links_inv s -> links_inv (unlink p s).
Proof.
  intros [Hone Hown Hst]. split; simpl; [| |done].
  - intros q r id [_ Hq]%lookup_delete_Some [_ Hr]%lookup_delete_Some. by eapply Hone.
  - intros q id [_ Hq]%lookup_delete_Some. by eapply Hown.
Qed.

(** [keep] is what the store keeps of a challenge. *)
Section Contract.
Context {S : Type}.

Class KeptGoogleStoreContract (keep : Challenge -> Challenge) (st : Store S) (wf : S -> Prop) (view : S -> links) : Prop := {
  google_Create_ok c w : wf (ext w) ->
    wp (store_CreateChallenge st c) (fun res w' => wf (ext w') /\
      match res with
      | Ok _ => states (view (ext w)) !! StateHash c = None /\ view (ext w') = add_state (keep c) (view (ext w))
      | Err _ => view (ext w') = view (ext w)
      end) w;
  google_Consume_ok h at_ w : wf (ext w) ->
    wp (store_ConsumeChallenge st h at_) (fun res w' => wf (ext w') /\
      match res with
      | Ok c => states (view (ext w)) !! h = Some c /\ view (ext w') = consume h (view (ext w))
      | Err _ => view (ext w') = view (ext w) \/ view (ext w') = consume h (view (ext w))
      end) w;
  google_Resolve_ok r w : wf (ext w) ->
    wp (store_ResolveIdentity st r) (fun res w' => wf (ext w') /\
      match res with
      | Ok u => resolution r (view (ext w)) (ID u) (view (ext w'))
      | Err _ => view (ext w') = view (ext w)
      end) w;
}.

End Contract.

(** What is given is kept. *)
Abbreviation GoogleStoreContract := (KeptGoogleStoreContract (fun c => c)).

Section Backend.
Context {S : Type}.

Class GoogleBackend (manager : Manager S) (wf : S -> Prop) (view : S -> links) : Prop := {
  backend_store :: GoogleStoreContract (store manager) wf view;
  backend_identities unlinkIdentity id at_ w : identities manager = Some unlinkIdentity -> wf (ext w) ->
    wp (unlinkIdentity id at_) (fun res w' => wf (ext w') /\
      match res with
      | Ok _ => exists subject n, owners (view (ext w)) !! subject = Some id /\
                  methods (view (ext w)) !! id = Some n /\ 0 < n /\ view (ext w') = unlink subject (view (ext w))
      | Err _ => view (ext w') = view (ext w)
      end) w;
  backend_provider input w : wf (ext w) ->
    wp (provider manager input) (fun _ w' => wf (ext w') /\ view (ext w') = view (ext w)) w;
  backend_events e a w : securityEvents manager = Some e -> wf (ext w) ->
    wp (e a) (fun _ w' => wf (ext w') /\ view (ext w') = view (ext w)) w;
}.
End Backend.

Section Refinement.
Context {S : Type} `{Env} `{GoTables} `{NetURL} (manager : Manager S).
Context (wf : S -> Prop) (view : S -> links) `{!GoogleBackend manager wf view}.

Abbreviation abs w := (view (ext w)).

Lemma wp_google_record e subject source w :
  wf (ext w) ->
  wp (record manager e subject source) (fun _ w' => wf (ext w') /\ abs w' = abs w) w.
Proof.
  intros Hwf. unfold record. destruct (securityEvents manager) as [sink|] eqn:He; wp_go; [|done].
  eapply wp_mono; [by eapply backend_events|]. done.
Qed.

Lemma wp_randomString w : wp (S := S) randomString (fun _ w' => ext w' = ext w) w.
Proof. unfold randomString. by wp_go. Qed.

(** The challenge [Begin] stored and the request it made of it. *)
Definition began (subject : string) (started : Started) (s s' : links) : Prop :=
  exists c, StateHash c = hash (State started) /\ ch_SubjectID c = TrimSpace subject /\
    s' = add_state c s /\
    AuthorizationURL started = url_String (set_RawQuery
      (Encode (authorizationQuery manager (State started) (ch_Nonce c) (CodeVerifier c)))
      (authorizationURL manager)).

Lemma wp_google_Begin subject w :
  wf (ext w) ->
  wp (Begin manager subject) (fun res w' => wf (ext w') /\
    match res with
    | Ok started => began subject started (abs w) (abs w')
    | Err _ => abs w' = abs w
    end) w.
Proof.
  intros Hwf. unfold Begin. wp_go. eapply wp_mono; [by apply wp_randomString|].
  intros [state|e] w1 He1; wp_go; [|by rewrite He1]. eapply wp_mono; [by apply wp_randomString|].
  intros [nonce|e] w2 He2; wp_go; [|by rewrite He2, He1]. eapply wp_mono; [by apply wp_randomString|].
  intros [verifier|e] w3 He3; wp_go; [|by rewrite He3, He2, He1].
  eapply wp_mono; [apply google_Create_ok; by rewrite ext_tick, He3, He2, He1|].
  rewrite ext_tick, He3, He2, He1. intros [[]|e] w4 [? Hr]; wp_go; [|done].
  destruct Hr as [_ Hs]. split; [done|]. eexists. split_and!; [..|exact Hs|]; done.
Qed.

(** What [Complete] checked before it signed a user in. *)
Definition completed (state code : string) (n : nat) (u : User) (s s' : links) : Prop :=
  exists c identity email w2 w3,
    states s !! hash (TrimSpace state) = Some c /\ (now manager n < ExpiresAt c)%Z /\
    provider manager (mkExchangeInput (TrimSpace code) (CodeVerifier c) (redirectURL manager)
      (clientID manager)) w2 = (Ok identity, w3) /\
    id_Nonce identity = ch_Nonce c /\ EmailVerified identity = true /\
    Normalize (id_Email identity) = Ok email /\
    resolution (mkResolution (TrimSpace (id_ProviderSubject identity)) email (ch_SubjectID c))
      (consume (hash (TrimSpace state)) s) (ID u) s'.

Lemma wp_Complete state code w :
  wf (ext w) ->
  wp (Complete manager state code) (fun res w' => wf (ext w') /\
    match res with
    | Ok u => completed state code (ticks w) u (abs w) (abs w')
    | Err e => abs w' = abs w \/ abs w' = consume (hash (TrimSpace state)) (abs w) \/
        e = ErrInvalidRecord /\ exists r id, resolution r (consume (hash (TrimSpace state)) (abs w)) id (abs w')
    end) w.
Proof.
  intros Hwf. unfold Complete. wp_go; [by auto|]. eapply wp_mono; [by apply google_Consume_ok|].
  rewrite ext_tick. intros [c|e] w1 [Hwf1 Hr]; wp_go; [destruct Hr; by auto| |by tauto..].
  destruct Hr as [Hc Hs1]. eapply wp_mono; [by eapply wp_and; [by apply backend_provider|by apply wp_run; intros ? ? E; exact E]|].
  rewrite Hs1. intros [identity|e] w2 [[Hwf2 Hs2] E]; wp_go; try (by auto).
  eapply wp_mono; [by apply google_Resolve_ok|]. rewrite Hs2.
  intros [u|e] w3 [Hwf3 Hr]; wp_go; [| |by auto].
  { split; [done|]. right; right. split; [done|]. by eexists _, _. }
  split; [done|].
  unfold validChallenge in *. go_bool. eexists c, identity, _, w1, w2. by split_and!.
Qed.

Lemma wp_Unlink subject source w :
  wf (ext w) ->
  wp (Unlink manager subject source) (fun res w' => wf (ext w') /\
    match res with
    | Ok _ => exists p n, owners (abs w) !! p = Some (TrimSpace subject) /\
                methods (abs w) !! TrimSpace subject = Some n /\ 0 < n /\ abs w' = unlink p (abs w)
    | Err _ => abs w' = abs w
    end) w.
Proof.
  intros Hwf. unfold Unlink. destruct (identities manager) as [unlinkIdentity|] eqn:Hi; wp_go; [done| |done].
  eapply wp_mono; [by eapply backend_identities|]. rewrite ext_tick.
  intros [[]|e] w1 [Hwf1 Hr]; wp_go; [|done|done].
  eapply wp_mono; [by apply wp_google_record|]. intros [] w2 [? Hv2]. wp_go. by rewrite Hv2.
Qed.
End Refinement.

(** * A reference backend for Google sign-in

    A store whose state is the abstract one, a small URL library, a provider
    that vouches for alice, and a run: alice signs in. *)

Definition person_with_email (email : string) (s : links) : bool :=
  bool_decide (Exists (fun p => snd p = email) (map_to_list (people s))).

Lemma person_with_email_false email s id : person_with_email email s = false -> people s !! id <> Some email.
Proof.
  unfold person_with_email. intros Hb Hp. go_bool. apply Hb, Exists_exists.
  exists (id, email). split; [|done]. by apply list_elem_of_In, elem_of_map_to_list.
Qed.

Definition owner_with_identity (id : string) (s : links) : bool :=
  bool_decide (Exists (fun p => snd p = id) (map_to_list (owners s))).

Lemma owner_with_identity_false id s subject : owner_with_identity id s = false -> owners s !! subject <> Some id.
Proof.
  unfold owner_with_identity. intros Hb Hp. go_bool. apply Hb, Exists_exists.
  exists (subject, id). split; [|done]. by apply list_elem_of_In, elem_of_map_to_list.
Qed.

Definition ref_Create (c : Challenge) (s : links) : result unit * links :=
  match states s !! StateHash c with
  | Some _ => (Err ErrConflict, s)
  | None => (Ok tt, add_state c s)
  end.

(** A challenge is deleted even when it has expired. *)
Definition ref_Consume (h : string) (at_ : time) (s : links) : result Challenge * links :=
  match states s !! h with
  | None => (Err ErrNotFound, s)
  | Some c => (if Before at_ (ExpiresAt c) then Ok c else Err ErrInvalidState, consume h s)
  end.

Definition ref_Resolve (r : IdentityResolution) (fresh : string) (s : links) : result User * links :=
  match owners s !! ProviderSubject r with
  | Some id =>
      if negb (String.eqb (SubjectID r) "") && negb (String.eqb id (SubjectID r)) then (Err ErrConflict, s)
      else (Ok (mkUser id), s)
  | None =>
      if negb (String.eqb (SubjectID r) "") then
        match people s !! SubjectID r with
        | None => (Err ErrNotFound, s)
        | Some _ =>
            if owner_with_identity (SubjectID r) s then (Err ErrConflict, s)
            else (Ok (mkUser (SubjectID r)), link (ProviderSubject r) (SubjectID r) s)
        end
      else if person_with_email (Email r) s then (Err ErrLinkRequired, s)
      else match people s !! fresh with
           | Some _ => (Err ErrLinkRequired, s)
           | None => (Ok (mkUser fresh), link (ProviderSubject r) fresh (add_person fresh (Email r) s))
           end
  end.

Definition ref_google_store `{Env} : Store links :=
  {| store_CreateChallenge c := lift_ext (ref_Create c);
     store_ConsumeChallenge h at_ := lift_ext (ref_Consume h at_);
     store_ResolveIdentity r := (id <-? new_uuid ;; lift_ext (ref_Resolve r id)) |}.

Definition links_wf (s : links) : Prop := True.

#[export] Instance ref_google_contract `{Env} : GoogleStoreContract ref_google_store links_wf id.
Proof.
  split; intros; unfold Datatypes.id in *; simpl.
  - wp_go. unfold ref_Create. by destruct (states _ !! _) eqn:?.
  - wp_go. unfold ref_Consume. destruct (states _ !! h) as [c|] eqn:Hc; [|split; [done|by left]].
    simpl. destruct (Before _ _); split; [done|done|done|by right].
  - wp_go; [|done]. rewrite ext_next_uuid. unfold ref_Resolve.
    destruct (owners _ !! _) as [owner|] eqn:Ho.
    + destruct (_ && _) eqn:Hb; [done|]. split; [done|]. apply resolution_known; [done|].
      apply andb_false_iff in Hb as [Hb|Hb]; go_bool; auto.
    + destruct (negb (String.eqb (SubjectID r) "")) eqn:Hs; go_bool.
      * destruct (people _ !! _) as [email|] eqn:Hp; [|done].
        destruct (owner_with_identity _ _) eqn:Hid; [done|]. split; [done|]. simpl.
        apply resolution_link; try done. intros subject. by apply owner_with_identity_false.
      * destruct (person_with_email _ _) eqn:Hpe; [done|]. destruct (people _ !! _) eqn:Hp; [done|].
        split; [done|]. simpl. apply resolution_new; try done. intros other. by apply person_with_email_false.
Qed.

(** ** A run: alice signs in with Google *)
#[export] Instance demo_url : NetURL := {|
  url_Parse s :=
    match Cut s "://" with
    | Some (scheme, rest) =>
        let '(rest, query) := match Cut rest "?" with Some pq => pq | None => (rest, "") end in
        let '(host, path) := match Cut rest "/" with Some (h, p) => (h, "/" +:+ p) | None => (rest, "") end in
        Some (mkURL scheme host false "" query path "")
    | None => None
    end;
  url_String u :=
    Scheme u +:+ "://" +:+ Host u +:+ url_Path u +:+
    (if String.eqb (RawQuery u) "" then "" else "?" +:+ RawQuery u);
|}.

Definition demo_nonce : string :=
  match fst (randomString (mkWorld 0 1 0 tt)) with Ok nonce => nonce | Err _ => "" end.

Definition demo_google_provider : Provider links := fun _ =>
  ret (Ok (mkIdentity "google-alice" " Alice@Example.com" true demo_nonce)).

Definition demo_google_config : Config links :=
  mkConfig _ "client" "https://accounts.google.com/o/oauth2/v2/auth?prompt=select_account"
    "https://app.example.com/callback" (10 * Minute)%Z None None (Some demo_clock).

Definition demo_google_manager : Manager links :=
  mkManager _ ref_google_store None demo_google_provider "client"
    (mkURL "https" "accounts.google.com" false "" "prompt=select_account" "/o/oauth2/v2/auth" "")
    "https://app.example.com/callback" (10 * Minute)%Z None demo_clock.

Example demo_google_manager_made :
  NewManager (Some ref_google_store) None (Some demo_google_provider) demo_google_config = Ok demo_google_manager.
Proof. reflexivity. Qed.

#[export] Instance demo_google_backend : GoogleBackend demo_google_manager links_wf id.
Proof. split; [apply _|done..]. Defined.

Definition google_start : World links := demo_world (mkLinks ∅ ∅ {["u1" := "bob@example.com"]} ∅).
Definition alice_leaves : result Started * World links := Begin demo_google_manager "" google_start.
Definition alice_left : World links := snd alice_leaves.
Definition alice_state : string := match fst alice_leaves with Ok started => State started | Err _ => "" end.
