(* ===== verification/GoogleOAuthProps.v ===== *)
(** * Properties of Google sign-in

    A sign-in answers a request this program made, once, and never opens an
    account that the identity was not linked to by its owner. *)
From S2P Require Import Prelude GoText GoUrl Base64 Sha256 EmailAddress GoogleOAuth GoogleOAuthSpec.

Lemma ParseQuery_values query k vs : ParseQuery query !! k = Some vs -> vs <> [].
Proof.
  unfold ParseQuery. generalize (omap parse_pair (Split query "&")). intros l.
  assert (Hinv : forall k vs, (∅ : Values) !! k = Some vs -> vs <> []) by done.
  revert Hinv. generalize (∅ : Values). induction l as [|[key value] l IH]; intros v Hv; [by apply Hv|].
  apply IH. intros k' vs'. unfold append_pair. simpl.
  intros [[<- <-]|[_ Hl]]%lookup_insert_Some; [by destruct (default [] _)|by eapply Hv].
Qed.

Section Properties.
Context {S : Type} `{Env} `{GoTables} `{NetURL} (manager : Manager S).
Context (wf : S -> Prop) (view : S -> links) `{!GoogleBackend manager wf view}.

Abbreviation abs w := (view (ext w)).

(** Reading the query back. *)
Lemma Set_values key value (v : Values) k vs :
  (forall k vs, v !! k = Some vs -> vs <> []) -> Set_ key value v !! k = Some vs -> vs <> [].
Proof. unfold Set_. intros Hv [[<- <-]|[_ Hl]]%lookup_insert_Some; [done|by eapply Hv]. Qed.

Lemma authorizationQuery_values state nonce verifier k vs :
  authorizationQuery manager state nonce verifier !! k = Some vs -> vs <> [].
Proof.
  unfold authorizationQuery. revert k vs.
  do 8 (intros k vs; refine (Set_values _ _ _ _ _ _); clear k vs). apply ParseQuery_values.
Qed.

(** [Begin] stores a challenge under the hash of a fresh state and returns an
    authorization request that carries that state, its nonce and the S256
    challenge of its verifier, for this client, back to this program; every
    other parameter of the configured URL is kept. *)
Theorem Begin_authorization_request subject started w w1 :
  wf (ext w) -> Begin manager subject w = (Ok started, w1) ->
  exists c query,
    states (abs w1) !! hash (State started) = Some c /\ ch_SubjectID c = TrimSpace subject /\
    AuthorizationURL started = url_String (set_RawQuery query (authorizationURL manager)) /\
    let params := ParseQuery query in
    Get "state" params = State started /\ Get "nonce" params = ch_Nonce c /\
    Get "code_challenge" params = EncodeToString URLAlphabet (Sum256 (CodeVerifier c)) /\
    Get "code_challenge_method" params = "S256" /\ Get "response_type" params = "code" /\
    Get "client_id" params = clientID manager /\ Get "redirect_uri" params = redirectURL manager /\
    forall k, k ∉ ["state"; "nonce"; "code_challenge"; "code_challenge_method"; "response_type";
                    "client_id"; "redirect_uri"; "scope"] ->
      params !! k = ParseQuery (RawQuery (authorizationURL manager)) !! k.
Proof.
  intros Hwf E. destruct (wp_elim _ _ _ _ _ (wp_google_Begin manager wf view subject w Hwf) E)
    as [_ (c & Hh & Hsub & Hs & Hurl)].
  eexists c, _. split_and!; [|done|exact Hurl|].
  { rewrite Hs. simpl. by rewrite Hh, lookup_insert_eq. }
  simpl. rewrite ParseQuery_Encode by apply authorizationQuery_values.
  unfold authorizationQuery, Get, Set_, pkceChallenge.
  split_and!; [repeat first [rewrite lookup_insert_eq; reflexivity | rewrite lookup_insert_ne by done]..|].
  intros k Hk. repeat rewrite lookup_insert_ne by set_solver. done.
Qed.

(** C28: [Complete] signs in only with a pending state that has not expired, which
    it uses up, and a verified identity that answers it: its nonce is the
    challenge's, and it was obtained with the challenge's verifier. The user is
    one the identity was linked to already, or the one that began the flow, or
    one created for an email nobody had: no existing account is taken over. *)
Theorem Complete_no_takeover state code u w w1 :
  wf (ext w) -> Complete manager state code w = (Ok u, w1) ->
  exists c identity email w2 w3,
    states (abs w) !! hash (TrimSpace state) = Some c /\ (now manager (ticks w) < ExpiresAt c)%Z /\
    states (abs w1) !! hash (TrimSpace state) = None /\
    provider manager (mkExchangeInput (TrimSpace code) (CodeVerifier c) (redirectURL manager)
      (clientID manager)) w2 = (Ok identity, w3) /\
    id_Nonce identity = ch_Nonce c /\ EmailVerified identity = true /\ Normalize (id_Email identity) = Ok email /\
    owners (abs w1) !! TrimSpace (id_ProviderSubject identity) = Some (ID u) /\
    (owners (abs w) !! TrimSpace (id_ProviderSubject identity) = Some (ID u) \/
     ch_SubjectID c = ID u /\ is_Some (people (abs w) !! ID u) \/
     people (abs w) !! ID u = None /\ forall other, people (abs w) !! other <> Some email).
Proof.
  intros Hwf E. destruct (wp_elim _ _ _ _ _ (wp_Complete manager wf view state code w Hwf) E)
    as [_ (c & identity & email & w2 & w3 & Hc & Hlive & Hex & Hnonce & Hver & Hemail & Hres)].
  exists c, identity, email, w2, w3. split_and!; try done.
  - destruct Hres; simpl; apply lookup_delete_eq.
  - destruct Hres; simpl; [done|apply lookup_insert_eq..].
  - destruct Hres; simpl in *; auto.
Qed.

(** A state is good for one answer: after a sign-in, no call with the same
    state signs anybody in, whatever code comes with it. *)
Theorem state_single_use state code code2 u w w1 :
  wf (ext w) -> Complete manager state code w = (Ok u, w1) ->
  is_ok (fst (Complete manager state code2 w1)) = false.
Proof.
  intros Hwf E. destruct (wp_elim _ _ _ _ _ (wp_Complete manager wf view state code w Hwf) E)
    as [Hwf1 (c & identity & email & w2 & w3 & Hc & _ & _ & _ & _ & _ & Hres)].
  assert (Hgone : states (abs w1) !! hash (TrimSpace state) = None)
    by (destruct Hres; simpl; apply lookup_delete_eq).
  destruct (wp_Complete manager wf view state code2 w1 Hwf1) as [_ Hr].
  destruct (fst (Complete manager state code2 w1)) as [u2|e]; [|done].
  destruct Hr as (c2 & i2 & e2 & w4 & w5 & Hc2 & _). congruence.
Qed.

(** Every call keeps the links: a user has at most one Google identity and an
    identity belongs to an existing user; an identity is only unlinked from a
    user who has another way to sign in. *)
Theorem links_preserved w :
  wf (ext w) -> links_inv (abs w) ->
  (forall state code, links_inv (abs (snd (Complete manager state code w)))) /\
  (forall subject, links_inv (abs (snd (Begin manager subject w)))) /\
  (forall subject source, links_inv (abs (snd (Unlink manager subject source w))) /\
     (owners (abs (snd (Unlink manager subject source w))) <> owners (abs w) ->
      exists n, methods (abs w) !! TrimSpace subject = Some n /\ 0 < n)).
Proof.
  intros Hwf Hinv. split_and!.
  - intros state code. destruct (wp_Complete manager wf view state code w Hwf) as [_ Hr].
    destruct (fst (Complete manager state code w)) as [u|e].
    + destruct Hr as (c & identity & email & w2 & w3 & _ & _ & _ & _ & _ & _ & Hres).
      eapply resolution_inv; [done|]. by apply consume_inv.
    + destruct Hr as [Hr|[Hr|[_ (r & id & Hr)]]]; [by rewrite Hr|rewrite Hr; by apply consume_inv|].
      eapply resolution_inv; [done|]. by apply consume_inv.
  - intros subject. destruct (wp_google_Begin manager wf view subject w Hwf) as [_ Hr].
    destruct (fst (Begin manager subject w)); [|by rewrite Hr].
    destruct Hr as (c & _ & _ & Hr & _). rewrite Hr. by apply add_state_inv.
  - intros subject source. destruct (wp_Unlink manager wf view subject source w Hwf) as [_ Hr].
    destruct (fst (Unlink manager subject source w)); [|by rewrite Hr].
    destruct Hr as (p & n & _ & Hn & Hpos & Hr). rewrite Hr. split; [by apply unlink_inv|]. intros _. by exists n.
Qed.
End Properties.

(** ** Runs of the theorems *)
Ltac google_ok E := exfalso; vm_compute in E; discriminate E.

Lemma Begin_authorization_request_witness :
  exists started w1, alice_leaves = (Ok started, w1) /\
    exists c query, AuthorizationURL started = url_String (set_RawQuery query (authorizationURL demo_google_manager)) /\
      Get "state" (ParseQuery query) = State started /\
      Get "code_challenge" (ParseQuery query) = EncodeToString URLAlphabet (Sum256 (CodeVerifier c)).
Proof.
  destruct alice_leaves as [[started|e] w1] eqn:E; [|google_ok E].
  exists started, w1. split; [reflexivity|].
  destruct (Begin_authorization_request demo_google_manager links_wf id "" started google_start w1 I E)
    as (c & query & _ & _ & Hurl & Hstate & _ & Hpkce & _).
  exists c, query. exact (conj Hurl (conj Hstate Hpkce)).
Defined.

Lemma Complete_no_takeover_witness :
  exists u w1 c, Complete demo_google_manager alice_state "code" alice_left = (Ok u, w1) /\
    states (id (ext alice_left)) !! hash (TrimSpace alice_state) = Some c /\
    states (id (ext w1)) !! hash (TrimSpace alice_state) = None.
Proof.
  destruct (Complete demo_google_manager alice_state "code" alice_left) as [[u|e] w1] eqn:E; [|google_ok E].
  destruct (Complete_no_takeover demo_google_manager links_wf id alice_state "code" u alice_left w1 I E)
    as (c & _ & _ & _ & _ & Hc & _ & Hgone & _).
  exists u, w1, c. exact (conj eq_refl (conj Hc Hgone)).
Defined.

Lemma state_single_use_witness :
  is_ok (fst (Complete demo_google_manager alice_state "code" alice_left)) = true /\
  is_ok (fst (Complete demo_google_manager alice_state "another"
    (snd (Complete demo_google_manager alice_state "code" alice_left)))) = false.
Proof.
  destruct (Complete demo_google_manager alice_state "code" alice_left) as [[u|e] w1] eqn:E; [|google_ok E].
  split; [reflexivity|].
  exact (state_single_use demo_google_manager links_wf id alice_state "code" "another" u alice_left w1 I E).
Defined.

Lemma links_preserved_witness :
  links_inv (id (ext (snd (Complete demo_google_manager alice_state "code" alice_left)))) /\
  exists id, owners (ext (snd (Complete demo_google_manager alice_state "code" alice_left))) !! "google-alice" = Some id.
Proof.
  assert (Hinv : links_inv (id (ext alice_left))).
  { refine (proj1 (proj2 (links_preserved demo_google_manager links_wf id google_start I _)) "").
    split; intros; simpl in *; discriminate. }
  split; [exact (proj1 (links_preserved demo_google_manager links_wf id alice_left I Hinv) alice_state "code")|].
  destruct (owners (ext (snd (Complete demo_google_manager alice_state "code" alice_left))) !! "google-alice")
    as [owner|] eqn:E; [|google_ok E].
  exists owner. reflexivity.
Defined.
