(* ===== verification/Passkey.v ===== *)
(** * Package [passkey] (passkey/passkey.go)

    Registration of WebAuthn passkeys and sign-in with them. *)
From S2P Require Import Prelude GoText Base64 Sha256 Token.

Definition ceremonyAttempts : nat := 3.

Definition ErrAttemptBlocked : error := New "passkey.ErrAttemptBlocked".
Definition ErrConflict : error := New "passkey.ErrConflict".
Definition ErrInactiveCeremony : error := New "passkey.ErrInactiveCeremony".
Definition ErrInvalidCeremony : error := New "passkey.ErrInvalidCeremony".
Definition ErrInvalidConfig : error := New "passkey.ErrInvalidConfig".
Definition ErrInvalidInput : error := New "passkey.ErrInvalidInput".
Definition ErrInvalidRecord : error := New "passkey.ErrInvalidRecord".
Definition ErrLastCredential : error := New "passkey.ErrLastCredential".
Definition ErrNotFound : error := New "passkey.ErrNotFound".
Definition ErrVerification : error := New "passkey.ErrVerification".

Definition CeremonyHash : Type := Hash.

(** ** The library's records

    [webauthn.Credential] and [webauthn.SessionData]: the fields the package
    looks at, and the rest of them as one value. *)
Record Credential : Type := mkCredential {
  cred_ID : string;
  PublicKey : string;
  CloneWarning : bool;
  cred_rest : string;
}.

Record SessionData : Type := mkSessionData {
  ses_Challenge : string;
  ses_UserID : string;
  ses_Expires : time;
  ses_rest : string;
}.

Definition set_Expires (expires : time) (session : SessionData) : SessionData :=
  mkSessionData (ses_Challenge session) (ses_UserID session) expires (ses_rest session).

(** ** Data *)
Record User : Type := mkUser {
  SubjectID : string;
  Handle : string;
  Name : string;
  DisplayName : string;
  Credentials : list Credential;
}.

Inductive CeremonyType : Type := CeremonyRegistration | CeremonyAuthentication.

#[export] Instance CeremonyType_eq_dec : EqDecision CeremonyType.
Proof. solve_decision. Defined.

Record Ceremony : Type := mkCeremony {
  cer_Type : CeremonyType;
  cer_TokenHash : CeremonyHash;
  cer_SubjectID : string;
  Session : SessionData;
  cer_CreatedAt : time;
  cer_ExpiresAt : time;
}.

Record Store (S : Type) : Type := mkStore {
  store_FindUserBySubject : string -> M S (result User);
  store_FindUserByCredential : string -> string -> M S (result User);
  store_CreateCeremony : Ceremony -> M S (result unit);
  store_FindCeremony : CeremonyHash -> M S (result Ceremony);
  store_CompleteRegistration : CeremonyHash -> string -> Credential -> time -> M S (result unit);
  store_CompleteAuthentication : CeremonyHash -> string -> Credential -> Credential -> time -> M S (result unit);
  store_DeleteCredential : string -> string -> time -> M S (result unit);
}.
Arguments store_FindUserBySubject {S}. Arguments store_FindUserByCredential {S}.
Arguments store_CreateCeremony {S}. Arguments store_FindCeremony {S}.
Arguments store_CompleteRegistration {S}. Arguments store_CompleteAuthentication {S}.
Arguments store_DeleteCredential {S}.

Inductive Operation : Type := OperationRegister | OperationAuthenticate.

Record Attempt : Type := mkAttempt {
  attempt_Operation : Operation;
  attempt_SubjectID : string;
  attempt_SourceKey : string;
}.

Definition AttemptGuard (S : Type) : Type := Attempt -> M S (result unit).

Inductive EventType : Type :=
| EventRegistered
| EventRegistrationFailed
| EventAuthenticated
| EventAuthenticationFailed
| EventCloneWarning
| EventRemoved.

Record SecurityEvent : Type := mkEvent {
  event_Type : EventType;
  event_SubjectID : string;
  event_SourceKey : string;
  event_OccurredAt : time;
}.

Definition SecurityEventSink (S : Type) : Type := SecurityEvent -> M S unit.

Record Config (S : Type) : Type := mkConfig {
  c_RelyingPartyID : string;
  c_RelyingPartyName : string;
  c_Origins : list string;
  c_CeremonyLifetime : duration;
  c_AttemptGuard : option (AttemptGuard S);
  c_SecurityEvents : option (SecurityEventSink S);
  c_Now : option (nat -> time);
}.
Arguments c_RelyingPartyID {S}. Arguments c_RelyingPartyName {S}. Arguments c_Origins {S}.
Arguments c_CeremonyLifetime {S}. Arguments c_AttemptGuard {S}. Arguments c_SecurityEvents {S}.
Arguments c_Now {S}.

(** ** The library github.com/go-webauthn/webauthn

    It reads the random source for its challenges, and the clock [time.Now] for
    the expiry of a session: a registration is checked at a time it is given
    here. A discoverable login finds the user by a handler, which runs in
    whatever state its caller gives it. *)
Class WebAuthnLibrary := {
  WebAuthn : Type;
  CredentialCreation : Type;
  CredentialAssertion : Type;
  ParsedCreation : Type;
  ParsedAssertion : Type;
  (* relying party, its name, its origins, and the timeout of both ceremonies *)
  webauthn_New : string -> string -> list string -> duration -> result WebAuthn;
  (* the user, with the identifiers of credentials to exclude *)
  webauthn_BeginRegistration : WebAuthn -> User -> list string -> option (nat -> ascii) ->
                               result (CredentialCreation * SessionData);
  protocol_ParseCreation : string -> result ParsedCreation;
  webauthn_CreateCredential : WebAuthn -> User -> SessionData -> ParsedCreation -> time -> result Credential;
  webauthn_BeginDiscoverableLogin : WebAuthn -> option (nat -> ascii) ->
                                    result (CredentialAssertion * SessionData);
  protocol_ParseAssertion : string -> result ParsedAssertion;
  webauthn_ValidatePasskeyLogin : forall S : Type, WebAuthn -> (string -> string -> M S (result User)) ->
                                  SessionData -> ParsedAssertion -> M S (result (User * Credential));
}.
Arguments webauthn_ValidatePasskeyLogin {_} S.

(** ** The interface [ceremonyProtocol] *)

(** [credentialLookup] *)
Definition credentialLookup (S : Type) : Type := string -> string -> M S (result User).

Record ceremonyProtocol `{WebAuthnLibrary} : Type := mkProtocol {
  protocol_BeginRegistration : forall S : Type, User -> M S (result (CredentialCreation * SessionData));
  protocol_FinishRegistration : forall S : Type, User -> SessionData -> string -> M S (result Credential);
  protocol_BeginAuthentication : forall S : Type, M S (result (CredentialAssertion * SessionData));
  protocol_FinishAuthentication : forall S : Type, SessionData -> string -> credentialLookup S ->
                                  M S (result (User * Credential * Credential));
}.

Record Manager `{WebAuthnLibrary} (S : Type) : Type := mkManager {
  store : Store S;
  protocol : ceremonyProtocol;
  lifetime : duration;
  attemptGuard : option (AttemptGuard S);
  securityEvents : option (SecurityEventSink S);
  now : nat -> time;
}.
Arguments store {_ S}. Arguments protocol {_ S}. Arguments lifetime {_ S}.
Arguments attemptGuard {_ S}. Arguments securityEvents {_ S}. Arguments now {_ S}.
Arguments mkManager {_} S.

Record RegistrationStarted `{WebAuthnLibrary} : Type := mkRegistrationStarted {
  reg_Token : string; reg_Options : CredentialCreation; reg_ExpiresAt : time }.
Record AuthenticationStarted `{WebAuthnLibrary} : Type := mkAuthenticationStarted {
  auth_Token : string; auth_Options : CredentialAssertion; auth_ExpiresAt : time }.
Record CompleteInput : Type := mkCompleteInput {
  CeremonyToken : string;
  input_SubjectID : string;
  Response : string;
  input_SourceKey : string;
}.
Record Authentication : Type := mkAuthentication { authenticated : string; clone_warning : bool }.

(** ** The engine over the library *)
Section Engine.
Context `{Env} `{WebAuthnLibrary}.

(** The zero value of [User]. *)
Definition noUser : User := mkUser "" "" "" "" [].

Definition engine_BeginRegistration (webAuthn : WebAuthn) (S : Type) (user : User) :
    M S (result (CredentialCreation * SessionData)) :=
  fun w => (webauthn_BeginRegistration webAuthn user (cred_ID <$> Credentials user) (rand_source (draws w)),
            draw w).

Definition engine_FinishRegistration (webAuthn : WebAuthn) (S : Type) (user : User) (session : SessionData)
    (response : string) : M S (result Credential) :=
  match protocol_ParseCreation response with
  | Err err => ret (Err err)
  | Ok parsed =>
      now <- read_now time_Now ;;
      ret (webauthn_CreateCredential webAuthn user session parsed now)
  end.

Definition engine_BeginAuthentication (webAuthn : WebAuthn) (S : Type) :
    M S (result (CredentialAssertion * SessionData)) :=
  fun w => (webauthn_BeginDiscoverableLogin webAuthn (rand_source (draws w)), draw w).

(** The closure [handler] of [FinishAuthentication]; it assigns [loaded]. *)
Definition engine_handler {S : Type} (lookup : credentialLookup S) : credentialLookup (S * User) :=
  fun credentialID userHandle =>
    user <-? outer (lookup credentialID userHandle) ;;
    _ <- assign (fun _ => user) ;;
    ret (Ok user).

Definition engine_FinishAuthentication (webAuthn : WebAuthn) (S : Type) (session : SessionData)
    (response : string) (lookup : credentialLookup S) : M S (result (User * Credential * Credential)) :=
  match protocol_ParseAssertion response with
  | Err err => ret (Err err)
  | Ok parsed =>
      r <- scope noUser (webauthn_ValidatePasskeyLogin (S * User) webAuthn (engine_handler lookup) session parsed) ;;
      let '(validated, loaded) := r in
      match validated with
      | Err err => ret (Err err)
      | Ok (user, updated) =>
          if negb (String.eqb (SubjectID user) (SubjectID loaded)) then ret (Err ErrInvalidRecord) else
          match List.find (fun credential => String.eqb (cred_ID credential) (cred_ID updated)) (Credentials user) with
          | Some credential => ret (Ok (user, credential, updated))
          | None => ret (Err ErrInvalidRecord)
          end
      end
  end.

Definition webAuthnProtocol (webAuthn : WebAuthn) : ceremonyProtocol := {|
  protocol_BeginRegistration := engine_BeginRegistration webAuthn;
  protocol_FinishRegistration := engine_FinishRegistration webAuthn;
  protocol_BeginAuthentication := engine_BeginAuthentication webAuthn;
  protocol_FinishAuthentication := engine_FinishAuthentication webAuthn;
|}.
End Engine.

(** ** Checks of records *)
Definition validUser (user : User) : bool :=
  negb (String.eqb (TrimSpace (SubjectID user)) "") &&
  (0 <? String.length (Handle user))%nat && (String.length (Handle user) <=? 64)%nat &&
  negb (String.eqb (TrimSpace (Name user)) "") && negb (String.eqb (TrimSpace (DisplayName user)) "").

Definition validCredential (credential : Credential) : bool :=
  (0 <? String.length (cred_ID credential))%nat && (0 <? String.length (PublicKey credential))%nat.

Definition validCeremony (ceremony : Ceremony) (expectedHash : CeremonyHash) (expectedType : CeremonyType) : bool :=
  if negb (bool_decide (cer_Type ceremony = expectedType)) ||
     negb (String.eqb (cer_TokenHash ceremony) expectedHash) ||
     String.eqb (TrimSpace (ses_Challenge (Session ceremony))) "" ||
     IsZero (cer_CreatedAt ceremony) || negb (After (cer_ExpiresAt ceremony) (cer_CreatedAt ceremony))
  then false else
  if bool_decide (expectedType = CeremonyRegistration)
  then negb (String.eqb (TrimSpace (cer_SubjectID ceremony)) "") &&
       (0 <? String.length (ses_UserID (Session ceremony)))%nat
  else String.eqb (cer_SubjectID ceremony) "" && (String.length (ses_UserID (Session ceremony)) =? 0)%nat.

(** ** Operations *)
Section Operations.
Context {S : Type} `{Env} `{WebAuthnLibrary}.

Definition NewManager (store : option (Store S)) (config : Config S) : result (Manager S) :=
  match store with
  | None => Err (Errorf "%w: store is required" [ErrInvalidConfig])
  | Some store =>
      if (c_CeremonyLifetime config <=? 0)%Z
      then Err (Errorf "%w: ceremony lifetime must be positive" [ErrInvalidConfig]) else
      match webauthn_New (TrimSpace (c_RelyingPartyID config)) (TrimSpace (c_RelyingPartyName config))
              (c_Origins config) (c_CeremonyLifetime config) with
      | Err _ => Err (Errorf "%w: %v" [ErrInvalidConfig])
      | Ok webAuthn =>
          Ok (mkManager S store (webAuthnProtocol webAuthn) (c_CeremonyLifetime config)
                (c_AttemptGuard config) (c_SecurityEvents config) (default time_Now (c_Now config)))
      end
  end.

Definition checkAttempt (manager : Manager S) (operation : Operation) (subjectID sourceKey : string) :
    M S (result unit) :=
  match attemptGuard manager with
  | None => ret (Ok tt)
  | Some check => wrapped "check passkey attempt: %w" (check (mkAttempt operation subjectID sourceKey))
  end.

Definition record (manager : Manager S) (eventType : EventType) (subjectID sourceKey : string) :
    M S unit :=
  match securityEvents manager with
  | None => ret tt
  | Some sink =>
      at_ <- read_now (now manager) ;;
      sink (mkEvent eventType subjectID sourceKey at_)
  end.

Definition completionError (operation : string) (err : error) : error :=
  if errors_Is err ErrNotFound || errors_Is err ErrInactiveCeremony then ErrInvalidCeremony else
  if errors_Is err ErrConflict then ErrConflict else
  Errorf "%s: %w" [err].

Definition storeCeremony (manager : Manager S) (ceremonyType : CeremonyType) (subjectID : string)
    (session : SessionData) : M S (result (string * time)) :=
  for_range ceremonyAttempts
    (r <- wrapped "generate passkey ceremony token: %w" Generate ;;
     match r with
     | Err err => ret (Return (Err err))
     | Ok (rawToken, tokenHash) =>
         now <- read_now (now manager) ;;
         let expiresAt := Add now (lifetime manager) in
         let ceremony := mkCeremony ceremonyType tokenHash subjectID (set_Expires expiresAt session) now expiresAt in
         r <- store_CreateCeremony (store manager) ceremony ;;
         match r with
         | Err err =>
             if errors_Is err ErrConflict then ret (Next tt)
             else ret (Return (Err (Errorf "store passkey ceremony: %w" [err])))
         | Ok _ => ret (Return (Ok (rawToken, expiresAt)))
         end
     end)
    (ret (Err (Errorf "create unique passkey ceremony: %w" [ErrConflict]))).

Definition findCeremony (manager : Manager S) (rawToken : string) (expectedType : CeremonyType) :
    M S (result (Ceremony * CeremonyHash)) :=
  match HashToken rawToken with
  | Err _ => ret (Err ErrInvalidCeremony)
  | Ok ceremonyHash =>
      r <- store_FindCeremony (store manager) ceremonyHash ;;
      match r with
      | Err err =>
          if errors_Is err ErrNotFound || errors_Is err ErrInactiveCeremony
          then ret (Err ErrInvalidCeremony)
          else ret (Err (Errorf "find passkey ceremony: %w" [err]))
      | Ok ceremony =>
          if negb (validCeremony ceremony ceremonyHash expectedType) then ret (Err ErrInvalidRecord) else
          now <- read_now (now manager) ;;
          if negb (Before now (cer_ExpiresAt ceremony)) then ret (Err ErrInvalidCeremony) else
          ret (Ok (ceremony, ceremonyHash))
      end
  end.

Definition BeginRegistration (manager : Manager S) (subjectID : string) : M S (result RegistrationStarted) :=
  let subjectID := TrimSpace subjectID in
  if String.eqb subjectID "" then ret (Err ErrInvalidInput) else
  user <-? wrapped "find user for passkey registration: %w" (store_FindUserBySubject (store manager) subjectID) ;;
  if negb (validUser user) || negb (String.eqb (SubjectID user) subjectID) then ret (Err ErrInvalidRecord) else
  started <-? wrapped "begin passkey registration: %w" (protocol_BeginRegistration (protocol manager) S user) ;;
  let '(options, session) := started in
  stored <-? storeCeremony manager CeremonyRegistration subjectID session ;;
  let '(token, expiresAt) := stored in
  ret (Ok (mkRegistrationStarted _ token options expiresAt)).

Definition CompleteRegistration (manager : Manager S) (input : CompleteInput) : M S (result Credential) :=
  found <-? findCeremony manager (CeremonyToken input) CeremonyRegistration ;;
  let '(ceremony, ceremonyHash) := found in
  if negb (String.eqb (input_SubjectID input) "") &&
     negb (String.eqb (cer_SubjectID ceremony) (input_SubjectID input))
  then ret (Err ErrInvalidCeremony) else
  _ <-? checkAttempt manager OperationRegister (cer_SubjectID ceremony) (input_SourceKey input) ;;
  user <-? wrapped "find user for passkey registration: %w"
             (store_FindUserBySubject (store manager) (cer_SubjectID ceremony)) ;;
  if negb (validUser user) || negb (String.eqb (SubjectID user) (cer_SubjectID ceremony)) ||
     negb (String.eqb (Handle user) (ses_UserID (Session ceremony)))
  then ret (Err ErrInvalidRecord) else
  r <- protocol_FinishRegistration (protocol manager) S user (Session ceremony) (Response input) ;;
  match r with
  | Err _ =>
      _ <- record manager EventRegistrationFailed (cer_SubjectID ceremony) (input_SourceKey input) ;;
      ret (Err ErrVerification)
  | Ok credential =>
      if negb (validCredential credential) then ret (Err ErrInvalidRecord) else
      now <- read_now (now manager) ;;
      r <- store_CompleteRegistration (store manager) ceremonyHash (cer_SubjectID ceremony) credential now ;;
      match r with
      | Err err => ret (Err (completionError "register passkey" err))
      | Ok _ =>
          _ <- record manager EventRegistered (cer_SubjectID ceremony) (input_SourceKey input) ;;
          ret (Ok credential)
      end
  end.

Definition BeginAuthentication (manager : Manager S) : M S (result AuthenticationStarted) :=
  started <-? wrapped "begin passkey authentication: %w" (protocol_BeginAuthentication (protocol manager) S) ;;
  let '(options, session) := started in
  stored <-? storeCeremony manager CeremonyAuthentication "" session ;;
  let '(token, expiresAt) := stored in
  ret (Ok (mkAuthenticationStarted _ token options expiresAt)).

(** The variables [foundUser] and [callbackErr] that the closure [lookup] of
    [CompleteAuthentication] assigns. *)
Definition locals : Type := User * option error.
Definition set_callbackErr (err : error) (l : locals) : locals := (fst l, Some err).
Definition set_foundUser (user : User) (l : locals) : locals := (user, snd l).

Definition lookup (manager : Manager S) (sourceKey : string) : credentialLookup (S * locals) :=
  fun credentialID userHandle =>
    r <- outer (store_FindUserByCredential (store manager) credentialID userHandle) ;;
    match r with
    | Err lookupErr =>
        _ <- (if negb (errors_Is lookupErr ErrNotFound)
              then assign (set_callbackErr (Errorf "find passkey owner: %w" [lookupErr])) else ret tt) ;;
        ret (Err lookupErr)
    | Ok user =>
        if negb (validUser user) || negb (String.eqb (Handle user) userHandle) then
          _ <- assign (set_callbackErr ErrInvalidRecord) ;;
          ret (Err ErrInvalidRecord)
        else
        r <- outer (checkAttempt manager OperationAuthenticate (SubjectID user) sourceKey) ;;
        match r with
        | Err guardErr =>
            _ <- assign (set_callbackErr guardErr) ;;
            ret (Err guardErr)
        | Ok _ =>
            _ <- assign (set_foundUser user) ;;
            ret (Ok user)
        end
    end.

Definition CompleteAuthentication (manager : Manager S) (input : CompleteInput) : M S (result Authentication) :=
  found <-? findCeremony manager (CeremonyToken input) CeremonyAuthentication ;;
  let '(ceremony, ceremonyHash) := found in
  finished <- scope (noUser, None)
    (protocol_FinishAuthentication (protocol manager) (S * locals) (Session ceremony) (Response input)
       (lookup manager (input_SourceKey input))) ;;
  let '(r, (foundUser, callbackErr)) := finished in
  match r with
  | Err _ =>
      match callbackErr with
      | Some callbackErr => ret (Err callbackErr)
      | None =>
          _ <- record manager EventAuthenticationFailed (SubjectID foundUser) (input_SourceKey input) ;;
          ret (Err ErrVerification)
      end
  | Ok (user, previous, updated) =>
      if negb (validUser user) || negb (validCredential previous) || negb (validCredential updated) ||
         negb (String.eqb (cred_ID previous) (cred_ID updated))
      then ret (Err ErrInvalidRecord) else
      now <- read_now (now manager) ;;
      r <- store_CompleteAuthentication (store manager) ceremonyHash (SubjectID user) previous updated now ;;
      match r with
      | Err err => ret (Err (completionError "authenticate passkey" err))
      | Ok _ =>
          _ <- record manager EventAuthenticated (SubjectID user) (input_SourceKey input) ;;
          _ <- (if CloneWarning updated
                then record manager EventCloneWarning (SubjectID user) (input_SourceKey input) else ret tt) ;;
          ret (Ok (mkAuthentication (SubjectID user) (CloneWarning updated)))
      end
  end.

Definition Remove (manager : Manager S) (subjectID credentialID sourceKey : string) : M S (result unit) :=
  let subjectID := TrimSpace subjectID in
  if String.eqb subjectID "" || (String.length credentialID =? 0)%nat then ret (Err ErrInvalidInput) else
  now <- read_now (now manager) ;;
  r <- store_DeleteCredential (store manager) subjectID credentialID now ;;
  match r with
  | Err err =>
      if errors_Is err ErrLastCredential then ret (Err err)
      else ret (Err (Errorf "remove passkey: %w" [err]))
  | Ok _ =>
      _ <- record manager EventRemoved subjectID sourceKey ;;
      ret (Ok tt)
  end.

Definition List (manager : Manager S) (subjectID : string) : M S (result (list Credential)) :=
  let subjectID := TrimSpace subjectID in
  if String.eqb subjectID "" then ret (Err ErrInvalidInput) else
  user <-? wrapped "find passkeys: %w" (store_FindUserBySubject (store manager) subjectID) ;;
  if negb (validUser user) || negb (String.eqb (SubjectID user) subjectID) then ret (Err ErrInvalidRecord) else
  ret (Ok (Credentials user)).
End Operations.
