(* ===== verification/PasskeySpec.v ===== *)
(** * What passkeys promise

    The abstract state behind package [passkey], the contract of its stores and
    the law of a discoverable login, and the effect of its operations. *)
From S2P Require Import Prelude GoText Base64 Sha256 Token Passkey.

(** Users by subject with their credentials, open ceremonies by the hash of
    their token, and how many other ways to sign in a user has. *)
Record passkeys : Type := mkPasskeys {
  users : gmap string User;
  ceremonies : gmap string Ceremony;
  others : gmap string nat;
}.

Definition with_credentials (u : User) (cs : list Credential) : User :=
  mkUser (SubjectID u) (Handle u) (Name u) (DisplayName u) cs.

Definition add_ceremony (c : Ceremony) (s : passkeys) : passkeys :=
  mkPasskeys (users s) (<[cer_TokenHash c := c]> (ceremonies s)) (others s).
Definition end_ceremony (h : string) (s : passkeys) : passkeys :=
  mkPasskeys (users s) (delete h (ceremonies s)) (others s).
Definition set_credentials (subject : string) (u : User) (cs : list Credential) (s : passkeys) : passkeys :=
  mkPasskeys (<[subject := with_credentials u cs]> (users s)) (ceremonies s) (others s).

(** One credential takes the place of the one with its identifier. *)
Definition update_credential (updated : Credential) (cs : list Credential) : list Credential :=
  (fun c => if String.eqb (cred_ID c) (cred_ID updated) then updated else c) <$> cs.
Definition drop_credential (id : string) (cs : list Credential) : list Credential :=
  List.filter (fun c => negb (String.eqb (cred_ID c) id)) cs.

(** Some user has a credential with this identifier. *)
Definition credential_of (s : passkeys) (subject : string) (u : User) (c : Credential) : Prop :=
  users s !! subject = Some u /\ c ∈ Credentials u.
Definition unused (s : passkeys) (id : string) : Prop :=
  forall subject u c, credential_of s subject u c -> cred_ID c <> id.

(** ** The invariant

    Users and ceremonies are filed under their own keys, and a credential
    belongs to one user, who has it once. *)
Record passkeys_inv (s : passkeys) : Prop := {
  inv_subject subject u : users s !! subject = Some u -> SubjectID u = subject;
  inv_ceremony h c : ceremonies s !! h = Some c -> cer_TokenHash c = h;
  inv_owner s1 s2 u1 u2 c1 c2 : credential_of s s1 u1 c1 -> credential_of s s2 u2 c2 ->
    cred_ID c1 = cred_ID c2 -> s1 = s2;
  inv_distinct subject u : users s !! subject = Some u -> NoDup (cred_ID <$> Credentials u);
}.

Lemma update_credential_ids updated (cs : list Credential) : cred_ID <$> update_credential updated cs = cred_ID <$> cs.
Proof.
  unfold update_credential. rewrite <- list_fmap_compose. apply list_fmap_ext. intros i c _. simpl.
  destruct (String.eqb_spec (cred_ID c) (cred_ID updated)); congruence.
Qed.

Lemma elem_of_ids id (cs : list Credential) : id ∈ cred_ID <$> cs <-> exists c, c ∈ cs /\ cred_ID c = id.
Proof. rewrite list_elem_of_fmap. naive_solver. Qed.

Lemma elem_of_drop id c (cs : list Credential) : c ∈ drop_credential id cs <-> c ∈ cs /\ cred_ID c <> id.
Proof.
  unfold drop_credential. rewrite !list_elem_of_In, filter_In, negb_true_iff. by rewrite String.eqb_neq.
Qed.

Lemma drop_credential_NoDup id (cs : list Credential) : NoDup (cred_ID <$> cs) -> NoDup (cred_ID <$> drop_credential id cs).
Proof.
  induction cs as [|c cs IH]; simpl; [done|]. rewrite list.NoDup_cons. intros [Hn Hd].
  destruct (negb _); simpl; [|by apply IH]. rewrite list.NoDup_cons. split; [|by apply IH].
  intros (x & Hx & E)%elem_of_ids. apply Hn. apply elem_of_ids. exists x.
  by apply elem_of_drop in Hx as [? _].
Qed.

(** The credentials of one user may change, as long as they are his own or
    nobody's. *)
Lemma set_credentials_inv subject u cs s :
  passkeys_inv s -> users s !! subject = Some u -> NoDup (cred_ID <$> cs) ->
  (forall c, c ∈ cs -> cred_ID c ∈ (cred_ID <$> Credentials u) \/ unused s (cred_ID c)) ->
  passkeys_inv (set_credentials subject u cs s).
Proof.
  intros [Hsub Hcer Hown Hdis] Hu Hnd Hcs.
  assert (Hold : forall s1 u1 c1, credential_of (set_credentials subject u cs s) s1 u1 c1 ->
            s1 = subject /\ c1 ∈ cs \/ s1 <> subject /\ credential_of s s1 u1 c1).
  { intros s1 u1 c1 [Hs1 Hc]. simpl in Hs1.
    apply lookup_insert_Some in Hs1 as [[<- <-]|[? ?]]; [by left|right]. by repeat split. }
  assert (Hmine : forall s1 u1 c1 c2, s1 <> subject -> credential_of s s1 u1 c1 -> c2 ∈ cs ->
            cred_ID c1 <> cred_ID c2).
  { intros s1 u1 c1 c2 Hne H1 H2 E. destruct (Hcs _ H2) as [(c & Hc & Ec)%elem_of_ids|Hun]; [|by eapply Hun].
    apply Hne. eapply Hown; [exact H1|by split; [exact Hu|exact Hc]|congruence]. }
  split; simpl.
  - intros s1 u1 [[<- <-]|[_ ?]]%lookup_insert_Some; [exact (Hsub _ _ Hu)|by apply Hsub].
  - exact Hcer.
  - intros s1 s2 u1 u2 c1 c2 [[-> H1]|[N1 H1]]%Hold [[-> H2]|[N2 H2]]%Hold E; [done|..].
    + by edestruct Hmine; [exact N2|exact H2|exact H1|].
    + by edestruct Hmine; [exact N1|exact H1|exact H2|].
    + by eapply Hown.
  - intros s1 u1 [[<- <-]|[_ ?]]%lookup_insert_Some; [done|]. by eapply Hdis.
Qed.

Lemma end_ceremony_inv h s : passkeys_inv s -> passkeys_inv (end_ceremony h s).
Proof. intros [Hsub Hcer Hown Hdis]. split; simpl; [done| |done|done]. intros k c [_ ?]%lookup_delete_Some. by apply Hcer. Qed.

Lemma add_ceremony_inv c s : passkeys_inv s -> passkeys_inv (add_ceremony c s).
Proof.
  intros [Hsub Hcer Hown Hdis]. split; simpl; [done| |done|done].
  intros k c' [[<- <-]|[_ ?]]%lookup_insert_Some; [done|by apply Hcer].
Qed.

(** ** What the store may do *)

(** A ceremony is spent on a new credential of the user who began it. *)
Definition registers (h subject : string) (credential : Credential) (at_ : time) (s s' : passkeys) : Prop :=
  exists c u, ceremonies s !! h = Some c /\ cer_Type c = CeremonyRegistration /\ cer_SubjectID c = subject /\
    (at_ < cer_ExpiresAt c)%Z /\ users s !! subject = Some u /\ unused s (cred_ID credential) /\
    s' = end_ceremony h (set_credentials subject u (Credentials u ++ [credential]) s).

(** A ceremony is spent on a use of a stored credential. *)
Definition authenticates (h subject : string) (previous updated : Credential) (at_ : time) (s s' : passkeys) : Prop :=
  exists c u, ceremonies s !! h = Some c /\ cer_Type c = CeremonyAuthentication /\
    (at_ < cer_ExpiresAt c)%Z /\ users s !! subject = Some u /\ previous ∈ Credentials u /\
    s' = end_ceremony h (set_credentials subject u (update_credential updated (Credentials u)) s).

(** A credential is removed from a user with another way to sign in. *)
Definition removes (subject id : string) (s s' : passkeys) : Prop :=
  exists u, users s !! subject = Some u /\ id ∈ (cred_ID <$> Credentials u) /\
    (0 < default 0 (others s !! subject) \/ drop_credential id (Credentials u) <> []) /\
    s' = set_credentials subject u (drop_credential id (Credentials u)) s.

Lemma registers_inv h subject c at_ s s' : registers h subject c at_ s s' -> passkeys_inv s -> passkeys_inv s'.
Proof.
  intros (cer & u & _ & _ & _ & _ & Hu & Hun & ->) Hinv. apply end_ceremony_inv, set_credentials_inv; [done|done|..].
  - rewrite fmap_app. simpl. apply list.NoDup_app. split_and!; [by eapply inv_distinct| |apply NoDup_singleton].
    intros id (x & Hx & <-)%elem_of_ids E. apply list_elem_of_singleton in E. by eapply Hun; [split|].
  - intros x [Hx|Hx]%elem_of_app; [left; apply elem_of_ids; by exists x|].
    apply list_elem_of_singleton in Hx as ->. by right.
Qed.

Lemma authenticates_inv h subject p c at_ s s' :
  authenticates h subject p c at_ s s' -> passkeys_inv s -> passkeys_inv s'.
Proof.
  intros (cer & u & _ & _ & _ & Hu & _ & ->) Hinv. apply end_ceremony_inv, set_credentials_inv; [done|done|..].
  - rewrite update_credential_ids. by eapply inv_distinct.
  - intros x Hx. left. rewrite <- (update_credential_ids c). apply elem_of_ids. by exists x.
Qed.

Lemma removes_inv subject id s s' : removes subject id s s' -> passkeys_inv s -> passkeys_inv s'.
Proof.
  intros (u & Hu & _ & _ & ->) Hinv. apply set_credentials_inv; [done|done|..].
  - by eapply drop_credential_NoDup, inv_distinct.
  - intros x [Hx _]%elem_of_drop. left. apply elem_of_ids. by exists x.
Qed.

(** ** The contract of the store

    [view] reads the abstract state off the world's state, [wf] is an invariant
    of the store's own. A call that fails changes nothing. *)
Section Contract.
Context {S : Type}.

Class PasskeyStoreContract (st : Store S) (wf : S -> Prop) (view : S -> passkeys) : Prop := {
  passkey_FindUser_ok subject w : wf (ext w) ->
    wp (store_FindUserBySubject st subject) (fun res w' => wf (ext w') /\ view (ext w') = view (ext w) /\
      forall u, res = Ok u -> users (view (ext w)) !! subject = Some u) w;
  passkey_FindOwner_ok id handle w : wf (ext w) ->
    wp (store_FindUserByCredential st id handle) (fun res w' => wf (ext w') /\ view (ext w') = view (ext w) /\
      forall u, res = Ok u ->
        exists c, credential_of (view (ext w)) (SubjectID u) u c /\ cred_ID c = id) w;
  passkey_Create_ok c w : wf (ext w) ->
    wp (store_CreateCeremony st c) (fun res w' => wf (ext w') /\
      match res with
      | Ok _ => ceremonies (view (ext w)) !! cer_TokenHash c = None /\ view (ext w') = add_ceremony c (view (ext w))
      | Err _ => view (ext w') = view (ext w)
      end) w;
  passkey_FindCeremony_ok h w : wf (ext w) ->
    wp (store_FindCeremony st h) (fun res w' => wf (ext w') /\ view (ext w') = view (ext w) /\
      forall c, res = Ok c -> ceremonies (view (ext w)) !! h = Some c) w;
  passkey_CompleteRegistration_ok h subject c at_ w : wf (ext w) ->
    wp (store_CompleteRegistration st h subject c at_) (fun res w' => wf (ext w') /\
      match res with
      | Ok _ => registers h subject c at_ (view (ext w)) (view (ext w'))
      | Err _ => view (ext w') = view (ext w)
      end) w;
  passkey_CompleteAuthentication_ok h subject previous updated at_ w : wf (ext w) ->
    wp (store_CompleteAuthentication st h subject previous updated at_) (fun res w' => wf (ext w') /\
      match res with
      | Ok _ => authenticates h subject previous updated at_ (view (ext w)) (view (ext w'))
      | Err _ => view (ext w') = view (ext w)
      end) w;
  passkey_Delete_ok subject id at_ w : wf (ext w) ->
    wp (store_DeleteCredential st subject id at_) (fun res w' => wf (ext w') /\
      match res with
      | Ok _ => removes subject id (view (ext w)) (view (ext w'))
      | Err _ => view (ext w') = view (ext w)
      end) w;
}.

(** ** The law of a discoverable login

    The library reads the credential and the user handle off the response, asks
    the handler once for their owner, and validates the response against the
    user it is given. It has no state of its own, and looks at the clock for the
    expiry of the session: before it asks or when it validates. *)
Class DiscoverableLogin `{Env} `{WebAuthnLibrary} := {
  discover : WebAuthn -> SessionData -> ParsedAssertion -> time -> result (string * string);
  validate : WebAuthn -> User -> SessionData -> ParsedAssertion -> time -> result Credential;
  refused : error -> error;
  ValidatePasskeyLogin_law S webAuthn (handler : string -> string -> M S (result User)) session parsed w :
    webauthn_ValidatePasskeyLogin S webAuthn handler session parsed w =
      match discover webAuthn session parsed (time_Now (ticks w)) with
      | Err e => (Err e, tick w)
      | Ok (id, handle) =>
          match handler id handle (tick w) with
          | (Err e, w') => (Err (refused e), w')
          | (Ok user, w') =>
              (match validate webAuthn user session parsed (time_Now (ticks w')) with
               | Ok updated => Ok (user, updated)
               | Err e => Err e
               end, tick w')
          end
      end;
  in_time webAuthn user session parsed t t' found updated :
    discover webAuthn session parsed t = Ok found -> validate webAuthn user session parsed t' = Ok updated ->
    ses_Expires session = 0%Z \/ (t <= ses_Expires session)%Z \/ (t' <= ses_Expires session)%Z;
}.

Class PasskeyBackend `{Env} `{WebAuthnLibrary} (manager : Manager S) (webAuthn : WebAuthn)
    (wf : S -> Prop) (view : S -> passkeys) : Prop := {
  backend_store :: PasskeyStoreContract (store manager) wf view;
  backend_protocol : protocol manager = webAuthnProtocol webAuthn;
  backend_guard g a w : attemptGuard manager = Some g -> wf (ext w) ->
    wp (g a) (fun _ w' => wf (ext w') /\ view (ext w') = view (ext w)) w;
  backend_guard_forward g a : attemptGuard manager = Some g -> forward (g a);
  backend_FindUser_forward subject : forward (store_FindUserBySubject (store manager) subject);
  backend_FindCeremony_forward h : forward (store_FindCeremony (store manager) h);
  backend_FindOwner_forward id handle : forward (store_FindUserByCredential (store manager) id handle);
  backend_events e a w : securityEvents manager = Some e -> wf (ext w) ->
    wp (e a) (fun _ w' => wf (ext w') /\ view (ext w') = view (ext w)) w;
}.
End Contract.

(** ** The effect of the operations *)
Section Refinement.
Context {S : Type} `{DiscoverableLogin} (manager : Manager S) (webAuthn : WebAuthn).
Context (wf : S -> Prop) (view : S -> passkeys) `{!PasskeyBackend manager webAuthn wf view}.

Abbreviation abs w := (view (ext w)).

Lemma wp_passkey_record e subject source w :
  wf (ext w) -> wp (record manager e subject source) (fun _ w' => wf (ext w') /\ abs w' = abs w) w.
Proof.
  intros Hwf. unfold record. destruct (securityEvents manager) as [sink|] eqn:He; wp_go; [|done].
  eapply wp_mono; [by eapply backend_events|]. done.
Qed.

Lemma wp_passkey_checkAttempt op subject source w :
  wf (ext w) ->
  wp (checkAttempt manager op subject source) (fun _ w' => (wf (ext w') /\ abs w' = abs w) /\ ticks w <= ticks w') w.
Proof.
  intros Hwf. unfold checkAttempt. destruct (attemptGuard manager) as [g|] eqn:Hg; wp_go; [|done].
  eapply wp_mono; [apply wp_forward; [by eapply backend_guard_forward|by eapply backend_guard]|]. done.
Qed.

(** The ceremony that was stored under the token handed out. *)
Definition stored (kind : CeremonyType) (subject token : string) (expires : time) (s s' : passkeys) : Prop :=
  exists h session created, HashToken token = Ok h /\ ceremonies s !! h = None /\
    expires = Add created (lifetime manager) /\
    s' = add_ceremony (mkCeremony kind h subject (set_Expires expires session) created expires) s.

Lemma wp_storeCeremony kind subject session w :
  wf (ext w) ->
  wp (storeCeremony manager kind subject session) (fun res w' => wf (ext w') /\
    match res with
    | Ok (token, expires) => stored kind subject token expires (abs w) (abs w')
    | Err _ => abs w' = abs w
    end) w.
Proof.
  intros Hwf. unfold storeCeremony.
  apply (wp_for_range _ _ _ _ (fun v => wf (ext v) /\ abs v = abs w)); [done| |by intros v [? ?]; wp_go].
  intros v [Hv Ev]. wp_go. apply wp_Generate; [|by wp_go]. intros raw h Hh. wp_go.
  eapply wp_mono; [by apply passkey_Create_ok|]. rewrite ext_tick, ext_draw, Ev.
  intros [[]|e] v' [Hv' Hr]; wp_go; [|done|done]. split; [done|].
  destruct Hr as [Hn Hs]. by eexists h, _, _.
Qed.

(** The live ceremony of a token. *)
Definition live_ceremony (token : string) (kind : CeremonyType) (s : passkeys) (c : Ceremony) (h : string)
    (at_ : time) : Prop :=
  HashToken token = Ok h /\ ceremonies s !! h = Some c /\ validCeremony c h kind = true /\
  (at_ < cer_ExpiresAt c)%Z.

Lemma wp_findCeremony token kind w :
  wf (ext w) ->
  wp (findCeremony manager token kind) (fun res w' => (wf (ext w') /\ abs w' = abs w) /\ ticks w <= ticks w' /\
    forall c h, res = Ok (c, h) -> exists n, ticks w <= n /\ n < ticks w' /\ live_ceremony token kind (abs w) c h (now manager n)) w.
Proof.
  intros Hwf. unfold findCeremony. destruct (HashToken token) as [h|e] eqn:Hh; wp_go; [|by split_and!].
  eapply wp_mono; [apply wp_forward; [apply backend_FindCeremony_forward|by apply passkey_FindCeremony_ok]|].
  intros [c|e] w' [(Hwf' & Hv & Hc) Ht]; wp_go; split_and!; try done; try (cbn [ticks tick]; lia).
  go_bool. intros c' h' [= <- <-]. exists (ticks w'). split; [done|]. split; [simpl; lia|].
  split_and!; [done|by apply Hc|done..].
Qed.

Lemma wp_BeginRegistration subject w :
  wf (ext w) ->
  wp (BeginRegistration manager subject) (fun res w' => wf (ext w') /\
    match res with
    | Ok started => is_Some (users (abs w) !! TrimSpace subject) /\
        stored CeremonyRegistration (TrimSpace subject) (reg_Token started) (reg_ExpiresAt started) (abs w) (abs w')
    | Err _ => abs w' = abs w
    end) w.
Proof.
  intros Hwf. unfold BeginRegistration. rewrite backend_protocol. wp_go; [done|].
  eapply wp_mono; [by apply passkey_FindUser_ok|]. intros [u|e] w1 (Hwf1 & Hv1 & Hu); wp_go; try done.
  unfold webAuthnProtocol, protocol_BeginRegistration, engine_BeginRegistration. unfold wp at 1. simpl.
  destruct (webauthn_BeginRegistration _ _ _ _) as [[options session]|e]; wp_go; [|done].
  eapply wp_mono; [by apply wp_storeCeremony|]. rewrite ext_draw, Hv1.
  intros [[token expires]|e] w2 [Hwf2 Hs]; wp_go; [|done]. split_and!; [done| |done]. eexists. by apply Hu.
Qed.

Lemma wp_BeginAuthentication w :
  wf (ext w) ->
  wp (BeginAuthentication manager) (fun res w' => wf (ext w') /\
    match res with
    | Ok started => stored CeremonyAuthentication "" (auth_Token started) (auth_ExpiresAt started) (abs w) (abs w')
    | Err _ => abs w' = abs w
    end) w.
Proof.
  intros Hwf. unfold BeginAuthentication. rewrite backend_protocol. wp_go.
  unfold webAuthnProtocol, protocol_BeginAuthentication, engine_BeginAuthentication. unfold wp at 1. simpl.
  destruct (webauthn_BeginDiscoverableLogin _ _) as [[options session]|e]; wp_go; [|done].
  eapply wp_mono; [by apply wp_storeCeremony|]. rewrite ext_draw.
  intros [[token expires]|e] w2 [Hwf2 Hs]; wp_go; done.
Qed.

(** What [CompleteRegistration] checked before it stored a credential. *)
Definition registration (input : CompleteInput) (start : nat) (credential : Credential) (s s' : passkeys) : Prop :=
  exists c h u parsed n k m, start <= n /\ n < k /\
    live_ceremony (CeremonyToken input) CeremonyRegistration s c h (now manager n) /\
    (input_SubjectID input = "" \/ input_SubjectID input = cer_SubjectID c) /\
    users s !! cer_SubjectID c = Some u /\ Handle u = ses_UserID (Session c) /\
    protocol_ParseCreation (Response input) = Ok parsed /\
    webauthn_CreateCredential webAuthn u (Session c) parsed (time_Now k) = Ok credential /\
    registers h (cer_SubjectID c) credential (now manager m) s s'.

(** The library makes the credential at one reading of its clock. *)
Lemma wp_FinishRegistration u session response w :
  wf (ext w) ->
  wp (engine_FinishRegistration webAuthn S u session response) (fun res w' => wf (ext w') /\ abs w' = abs w /\
    forall credential, res = Ok credential -> exists parsed, protocol_ParseCreation response = Ok parsed /\
      webauthn_CreateCredential webAuthn u session parsed (time_Now (ticks w)) = Ok credential) w.
Proof.
  intros Hwf. unfold engine_FinishRegistration. destruct (protocol_ParseCreation _) as [parsed|e] eqn:Hp; wp_go; [|done].
  split_and!; try done. intros credential Hc. by exists parsed.
Qed.

Lemma wp_CompleteRegistration input w :
  wf (ext w) ->
  wp (CompleteRegistration manager input) (fun res w' => wf (ext w') /\
    match res with
    | Ok credential => registration input (ticks w) credential (abs w) (abs w')
    | Err _ => abs w' = abs w
    end) w.
Proof.
  intros Hwf. unfold CompleteRegistration. rewrite backend_protocol. wp_go.
  eapply wp_mono; [by apply wp_findCeremony|]. intros [[c h]|e] w1 ([Hwf1 Hv1] & Ht1 & Hc); wp_go; try done.
  destruct (Hc c h eq_refl) as (n & Hn & Hn1 & Hlive).
  eapply wp_mono; [by apply wp_passkey_checkAttempt|]. intros [[]|e] w2 [[Hwf2 Hv2] Ht2]; wp_go; try by rewrite Hv2.
  eapply wp_mono; [apply wp_forward; [apply backend_FindUser_forward|by apply passkey_FindUser_ok]|]. rewrite Hv2, Hv1.
  intros [u|e] w3 [(Hwf3 & Hv3 & Hu) Ht3]; wp_go; try done.
  eapply wp_mono; [by apply wp_FinishRegistration|]. intros res w4 (Hwf4 & Hv4 & Hres). rewrite Hv3 in Hv4.
  destruct res as [credential|e]; wp_go; try by rewrite Hv4.
  - eapply wp_mono; [by apply passkey_CompleteRegistration_ok|]. rewrite ext_tick, Hv4.
    intros [[]|e] w5 [Hwf5 Hr]; wp_go; [|done].
    eapply wp_mono; [by apply wp_passkey_record|]. intros [] w6 [Hwf6 Hv6]. wp_go. split; [done|]. rewrite Hv6.
    destruct (Hres _ eq_refl) as (parsed & Hp & Hmade).
    rename Heqb into Hb. apply andb_false_iff in Hb. go_bool.
    exists c, h, u, parsed, n, (ticks w3). eexists. split_and!; try done; [lia| |by apply Hu].
    destruct Hb as [Hb|Hb]; go_bool; auto.
  - eapply wp_mono; [by apply wp_passkey_record|]. intros [] w5 [Hwf5 Hv5]. wp_go. by rewrite Hv5, Hv4.
Qed.

(** The user a response names: the owner of its credential, under its handle,
    against whom the library validates it, at readings from [start] on. *)
Definition signs_in (start : nat) (session : SessionData) (response : string) (u : User) (previous updated : Credential)
    (s : passkeys) : Prop :=
  exists parsed id c k k', start <= k /\ k <= k' /\
    protocol_ParseAssertion response = Ok parsed /\
    discover webAuthn session parsed (time_Now k) = Ok (id, Handle u) /\
    credential_of s (SubjectID u) u c /\ cred_ID c = id /\
    validate webAuthn u session parsed (time_Now k') = Ok updated /\
    previous ∈ Credentials u /\ cred_ID previous = cred_ID updated.

Lemma signs_in_earlier start start' session response u previous updated s :
  signs_in start session response u previous updated s -> start' <= start ->
  signs_in start' session response u previous updated s.
Proof.
  intros (parsed & id & c & k & k' & Hk & Hsign) Hle. exists parsed, id, c, k, k'. split; [lia|done].
Qed.

(** The owner the handler of [FinishAuthentication] finds. *)
Lemma wp_engine_handler source id handle v :
  wf (fst (fst (ext v))) ->
  wp (engine_handler (lookup manager source) id handle) (fun res v' =>
    wf (fst (fst (ext v'))) /\ view (fst (fst (ext v'))) = view (fst (fst (ext v))) /\ ticks v <= ticks v' /\
    forall u, res = Ok u -> Handle u = handle /\
      exists c, credential_of (view (fst (fst (ext v)))) (SubjectID u) u c /\ cred_ID c = id) v.
Proof.
  intros Hwf. unfold engine_handler, lookup. wp_go.
  eapply wp_mono; [apply wp_forward; [apply backend_FindOwner_forward|by apply passkey_FindOwner_ok]|]. simpl.
  intros [u|e] w1 [(Hwf1 & Hv1 & Hu) Ht1]; wp_go; try done.
  eapply wp_mono; [by apply wp_passkey_checkAttempt|]. simpl.
  intros [[]|e] w2 [[Hwf2 Hv2] Ht2]; wp_go; simpl; rewrite ?Hv2; go_bool; split_and!; try done; try lia. intros u' [= <-]. auto.
Qed.

Lemma wp_FinishAuthentication source session response v :
  wf (fst (ext v)) ->
  wp (engine_FinishAuthentication webAuthn (S * locals) session response (lookup manager source))
    (fun res v' => (wf (fst (ext v')) /\ view (fst (ext v')) = view (fst (ext v))) /\ ticks v <= ticks v' /\
       forall u previous updated, res = Ok (u, previous, updated) ->
         signs_in (ticks v) session response u previous updated (view (fst (ext v)))) v.
Proof.
  intros Hwf. unfold engine_FinishAuthentication.
  destruct (protocol_ParseAssertion response) as [parsed|e] eqn:Hp; wp_go; [|done].
  unfold wp at 1. rewrite ValidatePasskeyLogin_law. cbn [ticks with_local].
  destruct (discover webAuthn session parsed _) as [[id handle]|e] eqn:Hd; [|simpl; wp_go; split_and!; try done; simpl; lia].
  destruct (engine_handler _ _ _ _) as [r v1] eqn:E.
  destruct (wp_elim _ _ _ _ _ (wp_engine_handler source id handle (tick (with_local noUser v)) Hwf) E)
    as (Hwf1 & Hv1 & Ht1 & Hu). simpl in Ht1 |- *.
  destruct r as [u|e]; simpl; [|wp_go; split_and!; try done; simpl; lia]. destruct (Hu u eq_refl) as [Hh (c & Hc & Hid)].
  destruct (validate webAuthn u session parsed _) as [updated|e] eqn:Hval; wp_go; split_and!; try done; try (simpl; lia). intros u' p' x [= <- <- <-].
  destruct (find_some _ _ Heqo) as [Hin Heq]. go_bool.
  exists parsed, id, c, (ticks v), (ticks v1).
  split_and!; try done; [lia|by rewrite Hh|by apply list_elem_of_In].
Qed.

(** What [CompleteAuthentication] checked, from the reading [start] on, before it
    signed a user in. *)
Definition authentication (input : CompleteInput) (start : nat) (a : Authentication) (s s' : passkeys) : Prop :=
  exists c h u previous updated n m, start <= n /\ n < m /\
    live_ceremony (CeremonyToken input) CeremonyAuthentication s c h (now manager n) /\
    signs_in (Datatypes.S n) (Session c) (Response input) u previous updated s /\
    authenticates h (SubjectID u) previous updated (now manager m) s s' /\
    a = mkAuthentication (SubjectID u) (CloneWarning updated).

Lemma wp_CompleteAuthentication input w :
  wf (ext w) ->
  wp (CompleteAuthentication manager input) (fun res w' => wf (ext w') /\
    match res with
    | Ok a => authentication input (ticks w) a (abs w) (abs w')
    | Err _ => abs w' = abs w
    end) w.
Proof.
  intros Hwf. unfold CompleteAuthentication. rewrite backend_protocol. wp_go.
  eapply wp_mono; [by apply wp_findCeremony|]. intros [[c h]|e] w1 ([Hwf1 Hv1] & Ht1 & Hc); wp_go; try done.
  destruct (Hc c h eq_refl) as (n & Hn & Hn1 & Hlive). simpl protocol_FinishAuthentication. cbv beta.
  eapply wp_mono; [by apply wp_FinishAuthentication|]. simpl. rewrite Hv1.
  intros r v2 ([Hwf2 Hv2] & Ht2 & Hr). assert (Hd2 : abs (drop_local v2) = abs w) by exact Hv2. wp_go; try done.
  - specialize (Hr _ _ _ eq_refl).
    eapply wp_mono; [by apply passkey_CompleteAuthentication_ok|]. rewrite ext_tick, Hd2.
    intros [[]|e] w3 [Hwf3 Hs]; wp_go; [|done].
    eapply wp_mono; [by apply wp_passkey_record|]. intros [] w4 [Hwf4 Hv4].
    assert (Hdone : authentication input (ticks w) (mkAuthentication (SubjectID u0) (CloneWarning c0)) (abs w) (abs w4)).
    { rewrite Hv4. exists c, h, u0, c1, c0, n, (ticks v2). split_and!; try done; [by apply (Nat.lt_le_trans _ _ _ Hn1)|].
      by apply (signs_in_earlier (ticks w1)). }
    wp_go; [|done]. eapply wp_mono; [by apply wp_passkey_record|]. intros [] w5 [Hwf5 Hv5]. wp_go. by rewrite Hv5.
  - eapply wp_mono; [by apply wp_passkey_record|]. intros [] w3 [Hwf3 Hv3]. wp_go. by rewrite Hv3.
Qed.

Lemma wp_Remove subject id source w :
  wf (ext w) ->
  wp (Remove manager subject id source) (fun res w' => wf (ext w') /\
    match res with
    | Ok _ => removes (TrimSpace subject) id (abs w) (abs w')
    | Err _ => abs w' = abs w
    end) w.
Proof.
  intros Hwf. unfold Remove. wp_go; [done|]. eapply wp_mono; [by apply passkey_Delete_ok|]. rewrite ext_tick.
  intros [[]|e] w1 [Hwf1 Hr]; wp_go; try done.
  eapply wp_mono; [by apply wp_passkey_record|]. intros [] w2 [Hwf2 Hv2]. wp_go. by rewrite Hv2.
Qed.

Lemma wp_List subject w :
  wf (ext w) ->
  wp (List manager subject) (fun res w' => wf (ext w') /\ abs w' = abs w /\
    forall cs, res = Ok cs -> exists u, users (abs w) !! TrimSpace subject = Some u /\ cs = Credentials u) w.
Proof.
  intros Hwf. unfold List. wp_go; [done|]. eapply wp_mono; [by apply passkey_FindUser_ok|].
  intros [u|e] w1 (Hwf1 & Hv1 & Hu); wp_go; try done. split_and!; [done|done|]. intros cs [= <-].
  exists u. split; [by apply Hu|done].
Qed.
End Refinement.

(** * A reference backend for passkeys

    A store whose state is the abstract one, a small WebAuthn library, and a
    run: alice registers a passkey and signs in with it. *)

#[export] Instance Credential_eq_dec : EqDecision Credential.
Proof. solve_decision. Defined.

(** ** The store *)
Definition owns (id handle : string) (u : User) : bool :=
  String.eqb (Handle u) handle && existsb (fun c => String.eqb (cred_ID c) id) (Credentials u).

Definition ref_FindUser (subject : string) (s : passkeys) : result User * passkeys :=
  (match users s !! subject with Some u => Ok u | None => Err ErrNotFound end, s).

Definition ref_FindOwner (id handle : string) (s : passkeys) : result User * passkeys :=
  (match List.find (owns id handle) (map_to_list (users s)).*2 with Some u => Ok u | None => Err ErrNotFound end, s).

Definition ref_CreateCeremony (c : Ceremony) (s : passkeys) : result unit * passkeys :=
  match ceremonies s !! cer_TokenHash c with
  | Some _ => (Err ErrConflict, s)
  | None => (Ok tt, add_ceremony c s)
  end.

Definition ref_FindCeremony (h : string) (s : passkeys) : result Ceremony * passkeys :=
  (match ceremonies s !! h with Some c => Ok c | None => Err ErrNotFound end, s).

Definition in_use (id : string) (s : passkeys) : bool :=
  existsb (fun u => existsb (fun c => String.eqb (cred_ID c) id) (Credentials u)) (map_to_list (users s)).*2.

Definition ref_CompleteRegistration (h subject : string) (credential : Credential) (at_ : time) (s : passkeys) :
    result unit * passkeys :=
  match ceremonies s !! h with
  | None => (Err ErrInactiveCeremony, s)
  | Some c =>
      if negb (bool_decide (cer_Type c = CeremonyRegistration)) || negb (String.eqb (cer_SubjectID c) subject) ||
         negb (Before at_ (cer_ExpiresAt c)) then (Err ErrInactiveCeremony, s) else
      if in_use (cred_ID credential) s then (Err ErrConflict, s) else
      match users s !! subject with
      | None => (Err ErrNotFound, s)
      | Some u => (Ok tt, end_ceremony h (set_credentials subject u (Credentials u ++ [credential]) s))
      end
  end.

Definition ref_CompleteAuthentication (h subject : string) (previous updated : Credential) (at_ : time) (s : passkeys) :
    result unit * passkeys :=
  match ceremonies s !! h, users s !! subject with
  | Some c, Some u =>
      if negb (bool_decide (cer_Type c = CeremonyAuthentication)) || negb (Before at_ (cer_ExpiresAt c))
      then (Err ErrInactiveCeremony, s) else
      match List.find (fun c => String.eqb (cred_ID c) (cred_ID previous)) (Credentials u) with
      | None => (Err ErrNotFound, s)
      | Some existing =>
          if negb (bool_decide (existing = previous)) then (Err ErrConflict, s)
          else (Ok tt, end_ceremony h (set_credentials subject u (update_credential updated (Credentials u)) s))
      end
  | None, _ => (Err ErrInactiveCeremony, s)
  | _, None => (Err ErrNotFound, s)
  end.

Definition ref_DeleteCredential (subject id : string) (s : passkeys) : result unit * passkeys :=
  match users s !! subject with
  | None => (Err ErrNotFound, s)
  | Some u =>
      if negb (existsb (fun c => String.eqb (cred_ID c) id) (Credentials u)) then (Err ErrNotFound, s) else
      if (default 0 (others s !! subject) =? 0) && (length (drop_credential id (Credentials u)) =? 0)
      then (Err ErrLastCredential, s)
      else (Ok tt, set_credentials subject u (drop_credential id (Credentials u)) s)
  end.

Definition ref_passkey_store : Store passkeys :=
  {| store_FindUserBySubject subject := lift_ext (ref_FindUser subject);
     store_FindUserByCredential id handle := lift_ext (ref_FindOwner id handle);
     store_CreateCeremony c := lift_ext (ref_CreateCeremony c);
     store_FindCeremony h := lift_ext (ref_FindCeremony h);
     store_CompleteRegistration h subject c at_ := lift_ext (ref_CompleteRegistration h subject c at_);
     store_CompleteAuthentication h subject p c at_ := lift_ext (ref_CompleteAuthentication h subject p c at_);
     store_DeleteCredential subject id _ := lift_ext (ref_DeleteCredential subject id) |}.

Lemma has_id id (cs : list Credential) :
  existsb (fun c => String.eqb (cred_ID c) id) cs = true -> exists c, c ∈ cs /\ cred_ID c = id.
Proof. intros (c & Hc & E)%existsb_exists. go_bool. exists c. by rewrite list_elem_of_In. Qed.

Lemma in_use_false id s : in_use id s = false -> unused s id.
Proof.
  intros Hf subject u c [Hu Hc] E. assert (Ht : in_use id s = true); [|congruence].
  apply existsb_exists. exists u. split.
  - apply list_elem_of_In, list_elem_of_fmap. exists (subject, u). split; [done|]. by apply elem_of_map_to_list.
  - apply existsb_exists. exists c. split; [by apply list_elem_of_In|]. by rewrite E, String.eqb_refl.
Qed.

Lemma find_owner id handle s u : passkeys_inv s ->
  List.find (owns id handle) (map_to_list (users s)).*2 = Some u ->
  exists c, credential_of s (SubjectID u) u c /\ cred_ID c = id.
Proof.
  intros Hinv [Hin Ho]%find_some. apply list_elem_of_In, list_elem_of_fmap in Hin as ([k v] & -> & Hk).
  apply elem_of_map_to_list in Hk. simpl in *. unfold owns in Ho. go_bool.
  match goal with H : existsb _ _ = true |- _ => apply has_id in H as (c & Hc & E) end.
  exists c. split; [|done]. split; [|done]. by rewrite (inv_subject s Hinv k v).
Qed.

#[export] Instance ref_passkey_contract : PasskeyStoreContract ref_passkey_store passkeys_inv id.
Proof.
  split; intros; unfold Datatypes.id in *; simpl; wp_go; rewrite ext_set_ext.
  - unfold ref_FindUser. destruct (users _ !! _) eqn:?; simpl; split_and!; try done. by intros found [= <-].
  - unfold ref_FindOwner. destruct (find _ _) eqn:Hf; simpl; split_and!; try done.
    intros owner [= <-]. by eapply find_owner.
  - unfold ref_CreateCeremony. destruct (ceremonies _ !! _) eqn:?; simpl; [done|].
    split; [by apply add_ceremony_inv|done].
  - unfold ref_FindCeremony. destruct (ceremonies _ !! _) eqn:?; simpl; split_and!; try done. by intros found [= <-].
  - unfold ref_CompleteRegistration. destruct (ceremonies _ !! _) as [cer|] eqn:Hc; [|done].
    destruct (_ || _) eqn:Hb; [done|]. destruct (in_use _ _) eqn:Hin; [done|].
    destruct (users _ !! _) as [u|] eqn:Hu; [|done]. simpl.
    assert (Hr : registers h subject c at_ (ext w)
      (end_ceremony h (set_credentials subject u (Credentials u ++ [c]) (ext w)))).
    { go_bool. exists cer, u. split_and!; try done. by apply in_use_false. }
    split; [by eapply registers_inv|done].
  - unfold ref_CompleteAuthentication. destruct (ceremonies _ !! _) as [cer|] eqn:Hc; [|done].
    destruct (users _ !! _) as [u|] eqn:Hu; [|done]. destruct (_ || _) eqn:Hb; [done|].
    destruct (find _ _) as [existing|] eqn:Hf; [|done]. destruct (negb (bool_decide (existing = previous))) eqn:Hsame; [done|]. simpl.
    apply find_some in Hf as [Hin Hid]. go_bool. subst.
    assert (Hr : authenticates h subject previous updated at_ (ext w)
      (end_ceremony h (set_credentials subject u (update_credential updated (Credentials u)) (ext w)))).
    { exists cer, u. split_and!; try done. by apply list_elem_of_In. }
    split; [by eapply authenticates_inv|done].
  - unfold ref_DeleteCredential. destruct (users _ !! _) as [u|] eqn:Hu; [|done].
    destruct (negb (existsb _ _)) eqn:He; [done|]. destruct (_ && _) eqn:Hl; [done|]. simpl. go_bool.
    apply has_id in He as (c & Hmem & E).
    assert (Hr : removes subject id (ext w) (set_credentials subject u (drop_credential id (Credentials u)) (ext w))).
    { exists u. split_and!; [done|apply elem_of_ids; by exists c| |done].
      apply andb_false_iff in Hl as [Hl|Hl]; apply Nat.eqb_neq in Hl; [left; lia|right].
      by destruct (drop_credential _ _). }
    split; [by eapply removes_inv|done].
Qed.

(** ** A run: alice registers a passkey and signs in with it

    The library of the run knows of a response only what it says: the
    identifier of a new credential, or the identifier and the handle of a
    sign-in; it reads the [clock] for the expiry of the session. *)
Definition expired (session : SessionData) (t : time) : bool :=
  negb (IsZero (ses_Expires session)) && Before (ses_Expires session) t.

Definition webauthn_at (clock : nat -> time) : WebAuthnLibrary := {|
  WebAuthn := string;
  CredentialCreation := list string;
  CredentialAssertion := unit;
  ParsedCreation := string;
  ParsedAssertion := string * string;
  webauthn_New rpid _ _ _ := if String.eqb rpid "" then Err (New "webauthn") else Ok rpid;
  webauthn_BeginRegistration _ u excluded _ := Ok (excluded, mkSessionData "challenge" (Handle u) 0 "");
  protocol_ParseCreation response := if String.eqb response "" then Err (New "parse") else Ok response;
  webauthn_CreateCredential _ u session id t :=
    if expired session t then Err (New "expired") else
    if String.eqb (Handle u) (ses_UserID session) then Ok (mkCredential id "key" false "") else Err (New "user");
  webauthn_BeginDiscoverableLogin _ _ := Ok (tt, mkSessionData "challenge" "" 0 "");
  protocol_ParseAssertion response := match Cut response "/" with Some r => Ok r | None => Err (New "parse") end;
  webauthn_ValidatePasskeyLogin S _ handler session parsed :=
    t <- read_now clock ;;
    if expired session t then ret (Err (New "expired")) else
    user <-? wrapped "%w" (handler (fst parsed) (snd parsed)) ;;
    _ <- read_now clock ;;
    match List.find (fun c => String.eqb (cred_ID c) (fst parsed)) (Credentials user) with
    | Some c => ret (Ok (user, mkCredential (cred_ID c) (PublicKey c) (CloneWarning c) (cred_rest c +:+ "+")))
    | None => ret (Err (New "credential"))
    end;
|}.

#[export] Instance demo_webauthn `{Env} : WebAuthnLibrary := webauthn_at time_Now.

#[export, refine] Instance demo_discoverable `{Env} : DiscoverableLogin := {|
  discover _ session parsed t := if expired session t then Err (New "expired") else Ok parsed;
  validate _ user _ parsed _ :=
    match List.find (fun c => String.eqb (cred_ID c) (fst parsed)) (Credentials user) with
    | Some c => Ok (mkCredential (cred_ID c) (PublicKey c) (CloneWarning c) (cred_rest c +:+ "+"))
    | None => Err (New "credential")
    end;
  refused e := Errorf "%w" [e];
  ValidatePasskeyLogin_law := _;
  in_time := _;
|}.
Proof.
  - intros S webAuthn handler session [id handle] w. simpl. unfold bind_ok, wrapped, bind, read_now. simpl.
    destruct (expired session _); [done|].
    destruct (handler id handle (tick w)) as [[user|e] w']; simpl; [|done]. by destruct (find _ _).
  - intros webAuthn user session parsed t t' found updated. unfold expired. simpl.
    destruct (_ && _) eqn:He; [done|]. intros _ _. apply andb_false_iff in He as [He|He]; go_bool; auto.
Defined.

Definition demo_passkey_config : Config passkeys :=
  mkConfig _ "app.example.com" "Example" ["https://app.example.com"] (10 * Minute)%Z None None (Some demo_clock).

Definition passkey_manager_at `{Env} (clock : nat -> time) : Manager passkeys :=
  mkManager _ ref_passkey_store (webAuthnProtocol "app.example.com") (10 * Minute)%Z None None clock.

Definition demo_passkey_manager : Manager passkeys := passkey_manager_at demo_clock.

Example demo_passkey_manager_made :
  NewManager (Some ref_passkey_store) demo_passkey_config = Ok demo_passkey_manager.
Proof. reflexivity. Qed.

#[export] Instance demo_passkey_backend `{Env} clock :
  PasskeyBackend (passkey_manager_at clock) "app.example.com" passkeys_inv id.
Proof.
  split; try done; intros; first [apply _ | apply forward_lift_ext].
Defined.

#[export] Instance demo_passkey_manager_backend :
  PasskeyBackend demo_passkey_manager "app.example.com" passkeys_inv id.
Proof. apply demo_passkey_backend. Defined.

Definition alice : User := mkUser "alice" "handle-a" "alice@example.com" "Alice" [].
Definition passkey_start : World passkeys := demo_world (mkPasskeys {["alice" := alice]} ∅ {["alice" := 1]}).

Lemma passkey_start_inv : passkeys_inv (ext passkey_start).
Proof.
  split; simpl.
  - by intros subject u [<- <-]%lookup_singleton_Some.
  - done.
  - intros s1 s2 u1 u2 c1 c2 [H1 _] [H2 _]. simpl in H1, H2. by simplify_map_eq.
  - intros subject u [<- <-]%lookup_singleton_Some. by apply NoDup_nil_2.
Qed.

Definition token_of `{WebAuthnLibrary} (r : result RegistrationStarted) : string :=
  match r with Ok started => reg_Token started | Err _ => "" end.
Definition signin_token_of `{WebAuthnLibrary} (r : result AuthenticationStarted) : string :=
  match r with Ok started => auth_Token started | Err _ => "" end.

Definition alice_begins : result RegistrationStarted * World passkeys :=
  BeginRegistration demo_passkey_manager "alice" passkey_start.
Definition alice_input : CompleteInput := mkCompleteInput (token_of (fst alice_begins)) "alice" "cred-1" "".
Definition alice_registers : result Credential * World passkeys :=
  CompleteRegistration demo_passkey_manager alice_input (snd alice_begins).
Definition alice_returns : result AuthenticationStarted * World passkeys :=
  BeginAuthentication demo_passkey_manager (snd alice_registers).
Definition alice_response : CompleteInput :=
  mkCompleteInput (signin_token_of (fst alice_returns)) "" "cred-1/handle-a" "".
Definition alice_signs_in : result Authentication * World passkeys :=
  CompleteAuthentication demo_passkey_manager alice_response (snd alice_returns).

Example alice_signs_in_ok : fst alice_signs_in = Ok (mkAuthentication "alice" false).
Proof. vm_compute. reflexivity. Qed.
