(* ===== verification/PasskeyProps.v ===== *)
(** * Properties of passkeys

    A credential is bound to the user whose ceremony it answers, a sign-in is by
    a credential of the user it names, every ceremony is good for one answer,
    and nobody is left without a way to sign in. *)
From S2P Require Import Prelude GoText Base64 Sha256 Token Passkey PasskeySpec.

Lemma elem_of_update_credential updated (cs : list Credential) previous :
  previous ∈ cs -> cred_ID previous = cred_ID updated -> updated ∈ update_credential updated cs.
Proof.
  intros Hin E. unfold update_credential. apply list_elem_of_fmap. exists previous. split; [|done].
  by rewrite E, String.eqb_refl.
Qed.

Lemma find_NoDup_id (cs : list Credential) c :
  NoDup (cred_ID <$> cs) -> c ∈ cs -> List.find (fun x => String.eqb (cred_ID x) (cred_ID c)) cs = Some c.
Proof.
  induction cs as [|x cs IH]; simpl; [by intros _ ?%not_elem_of_nil|].
  rewrite list.NoDup_cons, elem_of_cons. intros [Hx Hnd] [->|Hc]; [by rewrite String.eqb_refl|].
  destruct (String.eqb_spec (cred_ID x) (cred_ID c)) as [E|]; [|by apply IH].
  destruct Hx. apply elem_of_ids. by exists c.
Qed.

Section Properties.
Context {S : Type} `{DiscoverableLogin} (manager : Manager S) (webAuthn : WebAuthn).
Context (wf : S -> Prop) (view : S -> passkeys) `{!PasskeyBackend manager webAuthn wf view}.

Abbreviation abs w := (view (ext w)).

(** A passkey is registered only for the user who began the ceremony that the
    token names, while the ceremony lasts, and only when the library made the
    credential of the response for that user and session. The ceremony is used
    up, nobody had the credential before, and no other user is changed. *)
Theorem registration_binds_requester input credential w w1 :
  wf (ext w) -> CompleteRegistration manager input w = (Ok credential, w1) ->
  exists c h u parsed,
    HashToken (CeremonyToken input) = Ok h /\ ceremonies (abs w) !! h = Some c /\
    cer_Type c = CeremonyRegistration /\ ceremonies (abs w1) !! h = None /\
    (exists n, ticks w <= n /\ (now manager n < cer_ExpiresAt c)%Z) /\
    (input_SubjectID input = "" \/ input_SubjectID input = cer_SubjectID c) /\
    users (abs w) !! cer_SubjectID c = Some u /\ Handle u = ses_UserID (Session c) /\
    protocol_ParseCreation (Response input) = Ok parsed /\
    (exists k, ticks w <= k /\ webauthn_CreateCredential webAuthn u (Session c) parsed (time_Now k) = Ok credential) /\
    unused (abs w) (cred_ID credential) /\
    users (abs w1) = <[cer_SubjectID c := with_credentials u (Credentials u ++ [credential])]> (users (abs w)).
Proof.
  intros Hwf E. destruct (wp_elim _ _ _ _ _ (wp_CompleteRegistration manager webAuthn wf view input w Hwf) E)
    as [_ (c & h & u & parsed & n & k & m & Hn & Hk & (Hh & Hc & _ & Hlive) & Hsub & Hu & Hhandle & Hp & Hcr & Hreg)].
  destruct Hreg as (c' & u' & Hc' & Htype & _ & _ & Hu' & Hun & Hs).
  rewrite Hc in Hc'. injection Hc' as <-. rewrite Hu in Hu'. injection Hu' as <-.
  exists c, h, u, parsed. rewrite Hs. split_and!; try done; [by simpl; rewrite lookup_delete_eq|by exists n|].
  exists k. split; [lia|done].
Qed.

(** C39: a passkey signs in only on an authentication ceremony that is live at
    two readings of the clock from the call on, when it is looked up and later,
    when it is used up, the user who owns the credential of the response under the
    user handle of the response, after the library validated the response against
    that user, later than the ceremony was looked up and in time for the session; the stored credential becomes the
    validated one, its clone warning is reported, and nothing else changes. *)
Theorem authentication_needs_credential input a w w1 :
  wf (ext w) -> CompleteAuthentication manager input w = (Ok a, w1) ->
  exists c h u parsed id updated n m k k',
    HashToken (CeremonyToken input) = Ok h /\ ceremonies (abs w) !! h = Some c /\
    cer_Type c = CeremonyAuthentication /\
    ticks w <= n /\ (now manager n < cer_ExpiresAt c)%Z /\ n < m /\ (now manager m < cer_ExpiresAt c)%Z /\
    ceremonies (abs w1) = delete h (ceremonies (abs w)) /\
    protocol_ParseAssertion (Response input) = Ok parsed /\
    n < k /\ discover webAuthn (Session c) parsed (time_Now k) = Ok (id, Handle u) /\
    users (abs w) !! authenticated a = Some u /\ id ∈ (cred_ID <$> Credentials u) /\
    k <= k' /\ validate webAuthn u (Session c) parsed (time_Now k') = Ok updated /\
    (ses_Expires (Session c) = 0 \/ time_Now k <= ses_Expires (Session c) \/ time_Now k' <= ses_Expires (Session c))%Z /\
    clone_warning a = CloneWarning updated /\
    users (abs w1) = <[authenticated a := with_credentials u (update_credential updated (Credentials u))]> (users (abs w)) /\
    updated ∈ update_credential updated (Credentials u).
Proof.
  intros Hwf E.
  destruct (wp_elim _ _ _ _ _ (wp_CompleteAuthentication manager webAuthn wf view input w Hwf) E)
    as [_ (c & h & u & previous & updated & n & m & Hn & Hm & (Hh & Hc & _ & Hlive) & Hsign & Hauth & ->)].
  destruct Hsign as (parsed & id & x & k & k' & Hk & Hk' & Hp & Hd & [Hu Hx] & Hid & Hval & Hin & Hids).
  destruct Hauth as (c' & u' & Hc' & Htype & Hspent & Hu' & _ & Hs).
  rewrite Hc in Hc'. injection Hc' as <-. rewrite Hu in Hu'. injection Hu' as <-.
  exists c, h, u, parsed, id, updated, n, m, k, k'. rewrite Hs. split_and!; try done.
  - apply elem_of_ids. by exists x.
  - by eapply in_time.
  - by eapply elem_of_update_credential.
Qed.

(** The ceremony of a completed call is gone. *)
Lemma completed_gone token c h kind at_ s s' :
  live_ceremony token kind s c h at_ -> ceremonies s' = delete h (ceremonies s) ->
  forall kind' c' h' at', ~ live_ceremony token kind' s' c' h' at'.
Proof.
  intros (Hh & _) Hs kind' c' h' at' (Hh' & Hc' & _). rewrite Hh in Hh'. injection Hh' as <-.
  unfold CeremonyHash in *. by rewrite Hs, lookup_delete_eq in Hc'.
Qed.

Lemma gone_refuses token w :
  wf (ext w) -> (forall kind c h at_, ~ live_ceremony token kind (abs w) c h at_) ->
  forall input, CeremonyToken input = token ->
    is_ok (fst (CompleteRegistration manager input w)) = false /\
    is_ok (fst (CompleteAuthentication manager input w)) = false.
Proof.
  intros Hwf Hgone input <-. split.
  - destruct (wp_CompleteRegistration manager webAuthn wf view input w Hwf) as [_ Hr].
    destruct (fst _); [|done]. destruct Hr as (c & h & u & p & n & k & m & _ & _ & Hlive & _). by apply Hgone in Hlive.
  - destruct (wp_CompleteAuthentication manager webAuthn wf view input w Hwf) as [_ Hr].
    destruct (fst _); [|done]. destruct Hr as (c & h & u & p & x & n & m & _ & _ & Hlive & _). by apply Hgone in Hlive.
Qed.

(** A ceremony is good for one answer: after a registration or a sign-in, no
    call with the same token completes anything, whatever response comes with
    it. *)
Theorem ceremony_single_use input again w :
  wf (ext w) -> CeremonyToken again = CeremonyToken input ->
  (forall credential w1, CompleteRegistration manager input w = (Ok credential, w1) ->
     is_ok (fst (CompleteRegistration manager again w1)) = false /\
     is_ok (fst (CompleteAuthentication manager again w1)) = false) /\
  (forall a w1, CompleteAuthentication manager input w = (Ok a, w1) ->
     is_ok (fst (CompleteRegistration manager again w1)) = false /\
     is_ok (fst (CompleteAuthentication manager again w1)) = false).
Proof.
  intros Hwf Hsame. split.
  - intros credential w1 E.
    destruct (wp_elim _ _ _ _ _ (wp_CompleteRegistration manager webAuthn wf view input w Hwf) E)
      as [Hwf1 (c & h & u & p & n & k & m & _ & _ & Hlive & _ & _ & _ & _ & _ & (c' & u' & _ & _ & _ & _ & _ & _ & Hs))].
    apply (gone_refuses _ _ Hwf1 (completed_gone _ _ _ _ _ _ _ Hlive (f_equal ceremonies Hs)) again Hsame).
  - intros a w1 E.
    destruct (wp_elim _ _ _ _ _ (wp_CompleteAuthentication manager webAuthn wf view input w Hwf) E)
      as [Hwf1 (c & h & u & p & x & n & m & _ & _ & Hlive & _ & (c' & u' & _ & _ & _ & _ & _ & Hs) & _)].
    apply (gone_refuses _ _ Hwf1 (completed_gone _ _ _ _ _ _ _ Hlive (f_equal ceremonies Hs)) again Hsame).
Qed.

(** ** Histories *)
Inductive passkey_call : World S -> World S -> Prop :=
| call_BeginRegistration subject w : passkey_call w (snd (BeginRegistration manager subject w))
| call_CompleteRegistration input w : passkey_call w (snd (CompleteRegistration manager input w))
| call_BeginAuthentication w : passkey_call w (snd (BeginAuthentication manager w))
| call_CompleteAuthentication input w : passkey_call w (snd (CompleteAuthentication manager input w))
| call_Remove subject id source w : passkey_call w (snd (Remove manager subject id source w))
| call_List subject w : passkey_call w (snd (List manager subject w)).

(** How the calls change the state. *)
Inductive effect (s : passkeys) : passkeys -> Prop :=
| effect_none : effect s s
| effect_ceremony kind subject token expires s' :
    stored manager kind subject token expires s s' -> effect s s'
| effect_registers h subject c at_ s' : registers h subject c at_ s s' -> effect s s'
| effect_authenticates h subject p c at_ s' : authenticates h subject p c at_ s s' -> effect s s'
| effect_removes subject id s' : removes subject id s s' -> effect s s'.
Hint Constructors effect : core.

Lemma call_effect w w1 : passkey_call w w1 -> wf (ext w) -> wf (ext w1) /\ effect (abs w) (abs w1).
Proof.
  intros Hcall Hwf. destruct Hcall as [subject w|input w|w|input w|subject id source w|subject w].
  - destruct (wp_BeginRegistration manager webAuthn wf view subject w Hwf) as [? Hr].
    destruct (fst _) as [a|]; [destruct Hr; by eauto|rewrite Hr; by auto].
  - destruct (wp_CompleteRegistration manager webAuthn wf view input w Hwf) as [? Hr].
    destruct (fst _) as [a|]; [|rewrite Hr; by auto].
    destruct Hr as (c & h & u & p & n & k & m & _ & _ & _ & _ & _ & _ & _ & _ & Hr). by eauto.
  - destruct (wp_BeginAuthentication manager webAuthn wf view w Hwf) as [? Hr].
    destruct (fst _) as [a|]; [by eauto|rewrite Hr; by auto].
  - destruct (wp_CompleteAuthentication manager webAuthn wf view input w Hwf) as [? Hr].
    destruct (fst _) as [a|]; [|rewrite Hr; by auto].
    destruct Hr as (c & h & u & p & x & n & m & _ & _ & _ & _ & Hr & _). by eauto.
  - destruct (wp_Remove manager webAuthn wf view subject id source w Hwf) as [? Hr].
    destruct (fst _) as [a|]; [by eauto|rewrite Hr; by auto].
  - destruct (wp_List manager webAuthn wf view subject w Hwf) as (? & Hr & _). rewrite Hr. by auto.
Qed.

(** Whoever could sign in still can. *)
Definition can_sign_in (s : passkeys) (subject : string) : Prop :=
  0 < default 0 (others s !! subject) \/ exists u, users s !! subject = Some u /\ Credentials u <> [].

Lemma can_sign_in_set subject u cs s who :
  can_sign_in s who -> users s !! subject = Some u ->
  (who = subject -> cs <> [] \/ 0 < default 0 (others s !! subject)) ->
  can_sign_in (set_credentials subject u cs s) who.
Proof.
  intros [Hm|(v & Hv & Hne)] Hu Hcs; [by left|]. destruct (decide (who = subject)) as [->|Hw].
  - destruct (Hcs eq_refl) as [?|?]; [right|by left]. eexists. simpl. by rewrite lookup_insert_eq.
  - right. exists v. simpl. by rewrite lookup_insert_ne.
Qed.

Lemma effect_keeps s s' : effect s s' -> passkeys_inv s ->
  passkeys_inv s' /\ forall who, can_sign_in s who -> can_sign_in s' who.
Proof.
  intros Heff Hinv. destruct Heff as [|kind subject token expires s' (h & ses & cr & _ & _ & _ & ->)
    |h subject c at_ s' Hr|h subject p c at_ s' Hr|subject id s' Hr].
  - done.
  - split; [by apply add_ceremony_inv|done].
  - split; [by eapply registers_inv|]. destruct Hr as (cer & u & _ & _ & _ & _ & Hu & _ & ->).
    intros who Hw. apply (can_sign_in_set subject u _ s who Hw Hu). intros _. left. by destruct (Credentials u).
  - split; [by eapply authenticates_inv|]. destruct Hr as (cer & u & _ & _ & _ & Hu & Hp & ->).
    intros who Hw. apply (can_sign_in_set subject u _ s who Hw Hu). intros _. left.
    unfold update_credential. by destruct (Credentials u); [apply not_elem_of_nil in Hp|].
  - split; [by eapply removes_inv|]. destruct Hr as (u & Hu & _ & Hkeep & ->).
    intros who Hw. apply (can_sign_in_set subject u _ s who Hw Hu). intros _. tauto.
Qed.

(** Along every history of calls, a credential identifier belongs to one user,
    who holds it once, and whoever has a way to sign in keeps one: passkeys are
    never removed down to a lock-out. *)
Theorem passkeys_invariant w w1 :
  rtc passkey_call w w1 -> wf (ext w) -> passkeys_inv (abs w) ->
  passkeys_inv (abs w1) /\ forall who, can_sign_in (abs w) who -> can_sign_in (abs w1) who.
Proof.
  induction 1 as [w|w w2 w1 Hcall _ IH]; intros Hwf Hinv; [done|].
  destruct (call_effect _ _ Hcall Hwf) as [Hwf2 Heff]. destruct (effect_keeps _ _ Heff Hinv) as [Hinv2 Hkeep].
  destruct (IH Hwf2 Hinv2) as [Hinv1 Hkeep1]. auto.
Qed.

(** ** A sign-in that completes *)

(** A store that answers. *)
Class PasskeyAnswers : Prop := {
  answers_FindCeremony h c w : wf (ext w) -> ceremonies (abs w) !! h = Some c ->
    fst (store_FindCeremony (store manager) h w) = Ok c;
  answers_FindOwner id u w : wf (ext w) -> users (abs w) !! SubjectID u = Some u ->
    id ∈ (cred_ID <$> Credentials u) -> fst (store_FindUserByCredential (store manager) id (Handle u) w) = Ok u;
  answers_CompleteAuthentication h c u previous updated at_ w : wf (ext w) ->
    ceremonies (abs w) !! h = Some c -> cer_Type c = CeremonyAuthentication -> (at_ < cer_ExpiresAt c)%Z ->
    users (abs w) !! SubjectID u = Some u -> previous ∈ Credentials u ->
    NoDup (cred_ID <$> Credentials u) ->
    fst (store_CompleteAuthentication (store manager) h (SubjectID u) previous updated at_ w) = Ok tt;
}.

(** The library finds and validates the user. *)
Lemma wp_FinishAuthentication_answers `{!PasskeyAnswers} source session response parsed id u updated previous v :
  attemptGuard manager = None -> wf (fst (ext v)) -> users (view (fst (ext v))) !! SubjectID u = Some u ->
  validUser u = true -> protocol_ParseAssertion response = Ok parsed ->
  (forall k, discover webAuthn session parsed (time_Now k) = Ok (id, Handle u)) -> id ∈ (cred_ID <$> Credentials u) ->
  (forall k, validate webAuthn u session parsed (time_Now k) = Ok updated) ->
  List.find (fun c => String.eqb (cred_ID c) (cred_ID updated)) (Credentials u) = Some previous ->
  wp (engine_FinishAuthentication webAuthn (S * locals) session response (lookup manager source))
    (fun res v' => res = Ok (u, previous, updated) /\ wf (fst (ext v')) /\ view (fst (ext v')) = view (fst (ext v))) v.
Proof.
  intros Hg Hwf Hu Hvu Hp Hd Hid Hval Hfind. unfold engine_FinishAuthentication. rewrite Hp. wp_go.
  unfold wp at 1. rewrite ValidatePasskeyLogin_law, Hd.
  assert (Hh : wp (engine_handler (lookup manager source) id (Handle u))
    (fun res v' => (res = Ok u /\ snd (ext v') = u) /\ wf (fst (fst (ext v'))) /\
       view (fst (fst (ext v'))) = view (fst (ext v))) (tick (with_local noUser v))).
  { unfold engine_handler, lookup, checkAttempt. rewrite Hg. wp_go.
    eapply wp_mono; [eapply wp_and; [by apply passkey_FindOwner_ok|]|].
    { apply (wp_fst _ (Ok u)). by apply answers_FindOwner. }
    intros res w1 [(Hwf1 & Hv1 & _) ->]. wp_go; go_bool; [|by split_and!].
    match goal with H : _ || _ = true |- _ => rewrite Hvu, String.eqb_refl in H; discriminate H end. }
  unfold wp in Hh. destruct (engine_handler _ _ _ _) as [r v1]. simpl in Hh.
  destruct Hh as ([-> Hl] & Hwf1 & Hv1). simpl. rewrite Hval. wp_go; rewrite Hl in *.
  - by rewrite String.eqb_refl in *.
  - rewrite Hfind in *. simplify_eq. by split_and!.
  - congruence.
Qed.

(** A passkey sign-in completes: on a store that answers, a response that names
    the owner of a stored credential under their handle, and that the library
    validates, signs them in as long as the ceremony lasts. *)
Theorem valid_response_signs_in `{!PasskeyAnswers} input c h u parsed id previous updated w :
  attemptGuard manager = None -> wf (ext w) -> passkeys_inv (abs w) ->
  HashToken (CeremonyToken input) = Ok h -> ceremonies (abs w) !! h = Some c ->
  validCeremony c h CeremonyAuthentication = true -> (forall n, now manager n < cer_ExpiresAt c)%Z ->
  users (abs w) !! SubjectID u = Some u -> validUser u = true ->
  protocol_ParseAssertion (Response input) = Ok parsed ->
  (forall k, discover webAuthn (Session c) parsed (time_Now k) = Ok (id, Handle u)) ->
  previous ∈ Credentials u -> cred_ID previous = id ->
  (forall k, validate webAuthn u (Session c) parsed (time_Now k) = Ok updated) -> cred_ID updated = id ->
  validCredential previous = true -> validCredential updated = true ->
  fst (CompleteAuthentication manager input w) = Ok (mkAuthentication (SubjectID u) (CloneWarning updated)).
Proof.
  intros Hg Hwf Hinv Hh Hc Hvc Hlive Hu Hvu Hp Hd Hprev Hpid Hval Huid Hvp Hvup.
  enough (wp (CompleteAuthentication manager input) (fun res _ =>
    res = Ok (mkAuthentication (SubjectID u) (CloneWarning updated))) w) by done.
  assert (Hfind : List.find (fun c => String.eqb (cred_ID c) (cred_ID updated)) (Credentials u) = Some previous).
  { rewrite Huid, <- Hpid. apply find_NoDup_id; [by apply (inv_distinct _ Hinv (SubjectID u))|done]. }
  unfold CompleteAuthentication, findCeremony. rewrite Hh, backend_protocol. wp_go.
  eapply wp_mono; [eapply wp_and; [by apply passkey_FindCeremony_ok|]|].
  { apply (wp_fst _ (Ok c)). by apply answers_FindCeremony. }
  intros res w1 [(Hwf1 & Hv1 & _) ->]. rewrite Hvc. wp_go; [done| |].
  { go_bool. specialize (Hlive (ticks w1)). lia. }
  eapply wp_mono; [eapply (wp_FinishAuthentication_answers _ _ _ parsed id u updated previous); try done|].
  { simpl. by rewrite Hv1. }
  { apply elem_of_ids. by exists previous. }
  intros res v2 (-> & Hwf2 & Hv2). wp_go.
  { exfalso. rewrite Hvu, Hvp, Hvup, Hpid, Huid, String.eqb_refl in *. done. }
  assert (Habs : abs (tick (drop_local v2)) = abs w) by (rewrite <- Hv1; exact Hv2).
  eapply wp_mono; [apply (wp_fst _ (Ok tt)), (answers_CompleteAuthentication h c); rewrite ?Habs; try done|].
  { unfold validCeremony in Hvc. destruct (bool_decide (cer_Type c = _)) eqn:Ht; [|done]. by go_bool. }
  { by apply (inv_distinct _ Hinv (SubjectID u)). }
  intros res w3 ->. wp_go; wp_call Er; wp_go; [|done]. wp_call Er2. by wp_go.
Qed.
End Properties.

(** ** Runs of the theorems *)
Ltac passkey_ok E := exfalso; vm_compute in E; discriminate E.

Abbreviation demo_site := "app.example.com".

Lemma alice_begins_inv : passkeys_inv (ext (snd alice_begins)).
Proof.
  unfold alice_begins.
  by destruct (wp_BeginRegistration demo_passkey_manager demo_site passkeys_inv id "alice" passkey_start passkey_start_inv).
Qed.

Lemma alice_registers_inv : passkeys_inv (ext (snd alice_registers)).
Proof.
  unfold alice_registers.
  by destruct (wp_CompleteRegistration demo_passkey_manager demo_site passkeys_inv id alice_input _ alice_begins_inv).
Qed.

Lemma alice_returns_inv : passkeys_inv (ext (snd alice_returns)).
Proof.
  unfold alice_returns.
  by destruct (wp_BeginAuthentication demo_passkey_manager demo_site passkeys_inv id _ alice_registers_inv).
Qed.

Lemma registration_binds_requester_witness :
  exists credential w1, CompleteRegistration demo_passkey_manager alice_input (snd alice_begins) = (Ok credential, w1) /\
    exists subject u, users (id (ext w1)) !! subject = Some u.
Proof.
  destruct (CompleteRegistration demo_passkey_manager alice_input (snd alice_begins)) as [[credential|e] w1] eqn:E;
    [|passkey_ok E].
  exists credential, w1. split; [reflexivity|].
  destruct (registration_binds_requester demo_passkey_manager demo_site passkeys_inv id alice_input credential
    (snd alice_begins) w1 alice_begins_inv E) as (c & h & u & parsed & _ & _ & _ & _ & _ & _ & _ & _ & _ & _ & _ & Hs).
  exists (cer_SubjectID c), (with_credentials u (Credentials u ++ [credential])). rewrite Hs.
  apply lookup_insert_eq.
Defined.

Lemma authentication_needs_credential_witness :
  exists a w1, CompleteAuthentication demo_passkey_manager alice_response (snd alice_returns) = (Ok a, w1) /\
    exists u, users (id (ext (snd alice_returns))) !! authenticated a = Some u.
Proof.
  destruct (CompleteAuthentication demo_passkey_manager alice_response (snd alice_returns)) as [[a|e] w1] eqn:E;
    [|passkey_ok E].
  exists a, w1. split; [reflexivity|].
  destruct (authentication_needs_credential demo_passkey_manager demo_site passkeys_inv id alice_response a
    (snd alice_returns) w1 alice_returns_inv E) as (c & h & u & parsed & i & x & n & m & k & k' & _ & _ & _ & _ & _ & _ & _ & _ & _ & _ & _ & Hu & _).
  exists u. exact Hu.
Defined.

Lemma ceremony_single_use_witness :
  is_ok (fst (CompleteAuthentication demo_passkey_manager alice_response (snd alice_returns))) = true /\
  is_ok (fst (CompleteAuthentication demo_passkey_manager alice_response (snd alice_signs_in))) = false.
Proof.
  split; [vm_compute; reflexivity|].
  destruct alice_signs_in as [[a|e] w1] eqn:E; [|passkey_ok E].
  exact (proj2 (proj2 (ceremony_single_use demo_passkey_manager demo_site passkeys_inv id alice_response alice_response
    (snd alice_returns) alice_returns_inv eq_refl) a w1 E)).
Defined.

Lemma passkeys_invariant_witness :
  passkeys_inv (id (ext (snd alice_signs_in))) /\ can_sign_in (id (ext (snd alice_signs_in))) "alice".
Proof.
  assert (Hrun : rtc (passkey_call demo_passkey_manager) passkey_start (snd alice_signs_in)).
  { eapply rtc_l; [exact (call_BeginRegistration demo_passkey_manager "alice" passkey_start)|].
    eapply rtc_l; [exact (call_CompleteRegistration demo_passkey_manager alice_input (snd alice_begins))|].
    eapply rtc_l; [exact (call_BeginAuthentication demo_passkey_manager (snd alice_registers))|].
    apply rtc_once. exact (call_CompleteAuthentication demo_passkey_manager alice_response (snd alice_returns)). }
  destruct (passkeys_invariant demo_passkey_manager demo_site passkeys_inv id _ _ Hrun passkey_start_inv
    passkey_start_inv) as [Hinv Hkeep].
  split; [exact Hinv|]. apply Hkeep. left. vm_compute. lia.
Defined.

(** The reference store answers. *)
Lemma ref_FindOwner_answers id u s :
  passkeys_inv s -> users s !! SubjectID u = Some u -> id ∈ (cred_ID <$> Credentials u) ->
  fst (ref_FindOwner id (Handle u) s) = Ok u.
Proof.
  intros Hinv Hu (c & Hc & Hid)%elem_of_ids. unfold ref_FindOwner. simpl.
  destruct (List.find _ _) as [v|] eqn:Hf.
  - destruct (find_owner _ _ _ _ Hinv Hf) as (x & [Hv Hx] & Ex).
    assert (SubjectID v = SubjectID u) as E by (eapply (inv_owner _ Hinv _ _ v u x c); [done|done|congruence]).
    congruence.
  - exfalso. refine (_ (find_none _ _ Hf u _)).
    + unfold owns. rewrite String.eqb_refl. simpl. intros Hno.
      assert (existsb (fun c => String.eqb (cred_ID c) id) (Credentials u) = true); [|congruence].
      apply existsb_exists. exists c. rewrite <- list_elem_of_In, Hid, String.eqb_refl. done.
    + apply list_elem_of_In, list_elem_of_fmap. exists (SubjectID u, u). split; [done|]. by apply elem_of_map_to_list.
Qed.

#[export] Instance demo_passkey_answers `{Env} clock : PasskeyAnswers (passkey_manager_at clock) passkeys_inv id.
Proof.
  split; unfold Datatypes.id, CeremonyHash; simpl; unfold lift_ext; simpl.
  - intros h c w _ Hc. unfold ref_FindCeremony. by rewrite Hc.
  - intros id u w Hinv Hu Hid. by apply (ref_FindOwner_answers id u (ext w)).
  - intros h c u previous updated at_ w _ Hc Ht Hlive Hu Hp Hnd. unfold ref_CompleteAuthentication.
    rewrite Hc, Hu, Ht, (proj2 (Before_true _ _) Hlive). simpl.
    assert (List.find (fun c => String.eqb (cred_ID c) (cred_ID previous)) (Credentials u) = Some previous) as ->;
      [by apply find_NoDup_id|]. by rewrite bool_decide_eq_true_2.
Qed.

(** The run with clocks that stand still, and the ceremony it has open. *)
#[local] Instance still_env : Env := {|
  time_Now _ := demo_epoch;
  rand_source := rand_source;
  uuid_NewV7 := uuid_NewV7;
|}.

Definition still_manager : Manager passkeys := passkey_manager_at (fun _ => demo_epoch).
Definition still_returns : result AuthenticationStarted * World passkeys :=
  BeginAuthentication still_manager (demo_world (mkPasskeys
    {["alice" := with_credentials alice [mkCredential "cred-1" "key" false ""]]} ∅ ∅)).
Definition still_response : CompleteInput :=
  mkCompleteInput (signin_token_of (fst still_returns)) "" "cred-1/handle-a" "".

Lemma still_returns_inv : passkeys_inv (ext (snd still_returns)).
Proof.
  unfold still_returns.
  edestruct (wp_BeginAuthentication still_manager demo_site passkeys_inv id) as [Hinv _]; [|exact Hinv].
  split; simpl.
  - by intros subject u [<- <-]%lookup_singleton_Some.
  - done.
  - intros s1 s2 u1 u2 c1 c2 [H1 _] [H2 _]. simpl in H1, H2. by simplify_map_eq.
  - intros subject u [<- <-]%lookup_singleton_Some. apply NoDup_singleton.
Qed.

Lemma valid_response_signs_in_witness :
  fst (CompleteAuthentication still_manager still_response (snd still_returns)) =
    Ok (mkAuthentication "alice" false).
Proof.
  destruct (HashToken (CeremonyToken still_response)) as [h|] eqn:Hh; [|passkey_ok Hh].
  destruct (ceremonies (ext (snd still_returns)) !! h) as [c|] eqn:Hc; [|vm_compute in Hh; injection Hh as <-; passkey_ok Hc].
  refine (valid_response_signs_in still_manager demo_site passkeys_inv id still_response c h
    (with_credentials alice [mkCredential "cred-1" "key" false ""]) ("cred-1", "handle-a") "cred-1"
    (mkCredential "cred-1" "key" false "") (mkCredential "cred-1" "key" false "+") (snd still_returns)
    eq_refl still_returns_inv still_returns_inv Hh Hc _ _ _ _ _ _ _ _ _ _ _ _);
    vm_compute in Hh; injection Hh as <-; vm_compute in Hc; try injection Hc as <-; first [reflexivity | by apply list_elem_of_In; left].
Defined.
