(* ===== verification/SsoSpec.v ===== *)
(** * What the stores of single sign-on promise

    Packages [oidc] and [saml] keep what began a sign-on under the hash of a
    state, and use it up when the answer comes. *)
From S2P Require Import Prelude Token.

Section Pending.
Context {S C : Type} (hash_of : C -> string).
Context (create : C -> M S (result unit)) (consume : Hash -> time -> M S (result C)).

(** What is pending, by the hash of its state: [keep] is what the store keeps of it. *)
Class KeptPendingContract (keep : C -> C) (wf : S -> Prop) (view : S -> gmap string C) : Prop := {
  pending_Create_ok c w : wf (ext w) ->
    wp (create c) (fun res w' => wf (ext w') /\
      match res with
      | Ok _ => view (ext w) !! hash_of c = None /\ view (ext w') = <[hash_of c := keep c]> (view (ext w))
      | Err _ => view (ext w') = view (ext w)
      end) w;
  pending_Consume_ok h at_ w : wf (ext w) ->
    wp (consume h at_) (fun res w' => wf (ext w') /\
      match res with
      | Ok c => view (ext w) !! h = Some c /\ view (ext w') = delete h (view (ext w))
      | Err _ => view (ext w') = view (ext w) \/ view (ext w') = delete h (view (ext w))
      end) w;
}.
End Pending.

(** What is given is kept. *)
Abbreviation PendingContract hash_of create consume := (KeptPendingContract hash_of create consume (fun c => c)).

(** A call that leaves what is pending alone. *)
Definition leaves {S C} (wf : S -> Prop) (view : S -> gmap string C) {A} (m : M S A) : Prop :=
  forall w, wf (ext w) -> wp m (fun _ w' => wf (ext w') /\ view (ext w') = view (ext w)) w.

(** What is used up stays so under calls that only use up. *)
Lemma used_up_stays {S C} (wf : S -> Prop) (view : S -> gmap string C) (R : World S -> World S -> Prop) h w w' :
  (forall v v', R v v' -> wf (ext v) -> wf (ext v') /\ view (ext v') ⊆ view (ext v)) ->
  rtc R w w' -> wf (ext w) -> view (ext w) !! h = None -> wf (ext w') /\ view (ext w') !! h = None.
Proof.
  intros HR. induction 1 as [w|w v w' Hv _ IH]; [done|]. intros Hwf Hh.
  destruct (HR _ _ Hv Hwf) as [Hwf' Hsub]. apply IH; [done|]. by eapply lookup_weaken_None.
Qed.

(** ** A reference implementation

    [get] and [put] read and write what is pending; what has expired at [at_] is
    used up and refused. *)
Section Reference.
Context {S C : Type} (hash_of : C -> string) (expires : C -> time) (conflict gone inactive : error).
Context (get : S -> gmap string C) (put : gmap string C -> S -> S).

Definition ref_create (c : C) : M S (result unit) :=
  lift_ext (fun s =>
    match get s !! hash_of c with
    | Some _ => (Err conflict, s)
    | None => (Ok tt, put (<[hash_of c := c]> (get s)) s)
    end).

Definition ref_consume (h : Hash) (at_ : time) : M S (result C) :=
  lift_ext (fun s =>
    match get s !! h with
    | None => (Err gone, s)
    | Some c => (if Before at_ (expires c) then Ok c else Err inactive, put (delete h (get s)) s)
    end).

Lemma forward_consume h at_ : forward (ref_consume h at_).
Proof. apply forward_lift_ext. Qed.

Lemma ref_pending_contract (wf : S -> Prop) :
  (forall s p, wf s -> wf (put p s) /\ get (put p s) = p) -> PendingContract hash_of ref_create ref_consume wf get.
Proof.
  intros Hput. split; intros; apply wp_lift_ext.
  - destruct (get (ext w) !! hash_of c) eqn:Hc; simpl; [done|].
    by destruct (Hput (ext w) (<[hash_of c := c]> (get (ext w)))).
  - destruct (get (ext w) !! h) as [c|] eqn:Hc; simpl; [|by auto].
    destruct (Hput (ext w) (delete h (get (ext w)))) as [? ->]; [done|]. destruct (Before _ _); by auto.
Qed.
End Reference.
