(* ===== verification/Oidc.v ===== *)
(** * Package [oidc] (oidc/oidc.go)

    Single sign-on with OpenID Connect over connections that the application
    configures. *)
From S2P Require Import Prelude GoText GoUrl Base64 Sha256 Token EmailAddress.

Definition challengeAttempts : nat := 3.

Definition ErrAttemptBlocked : error := New "oidc.ErrAttemptBlocked".
Definition ErrConflict : error := New "oidc.ErrConflict".
Definition ErrInactiveState : error := New "oidc.ErrInactiveState".
Definition ErrInvalidConfig : error := New "oidc.ErrInvalidConfig".
Definition ErrInvalidIdentity : error := New "oidc.ErrInvalidIdentity".
Definition ErrInvalidInput : error := New "oidc.ErrInvalidInput".
Definition ErrInvalidRecord : error := New "oidc.ErrInvalidRecord".
Definition ErrInvalidState : error := New "oidc.ErrInvalidState".
Definition ErrNotFound : error := New "oidc.ErrNotFound".
Definition ErrUnverifiedEmail : error := New "oidc.ErrUnverifiedEmail".

(** ** Data *)
Record Connection : Type := mkConnection {
  conn_ID : string;
  conn_Issuer : string;
  conn_ClientID : string;
  conn_ClientSecret : string;
  conn_RedirectURL : string;
  conn_Scopes : list string;
  conn_RequireVerifiedEmail : bool;
}.

(** The interface [ConnectionSource] has one method, [Find]. *)
Definition ConnectionSource (S : Type) : Type := string -> M S (result Connection).

Record Challenge : Type := mkChallenge {
  StateHash : Hash;
  ch_ConnectionID : string;
  ch_Issuer : string;
  ch_ClientID : string;
  ch_RedirectURL : string;
  ch_Scopes : list string;
  ch_RequireVerifiedEmail : bool;
  ch_Nonce : string;
  CodeVerifier : string;
  CreatedAt : time;
  ExpiresAt : time;
}.

Record Store (S : Type) : Type := mkStore {
  store_CreateChallenge : Challenge -> M S (result unit);
  store_ConsumeChallenge : Hash -> time -> M S (result Challenge);
}.
Arguments store_CreateChallenge {S}. Arguments store_ConsumeChallenge {S}.

Inductive Operation : Type := OperationBegin | OperationComplete.

Record Attempt : Type := mkAttempt {
  attempt_Operation : Operation;
  attempt_ConnectionID : string;
  attempt_SourceKey : string;
}.

Definition AttemptGuard (S : Type) : Type := Attempt -> M S (result unit).

Inductive EventType : Type := EventAuthenticationFailed | EventAuthenticationSucceeded.

Record SecurityEvent : Type := mkEvent {
  event_Type : EventType;
  event_ConnectionID : string;
  event_ProviderSubject : string;
  event_SourceKey : string;
  event_OccurredAt : time;
}.

Definition SecurityEventSink (S : Type) : Type := SecurityEvent -> M S unit.

Record BeginInput : Type := mkBeginInput { begin_ConnectionID : string; begin_SourceKey : string }.
Record Started : Type := mkStarted { started_AuthorizationURL : string; started_State : string; started_ExpiresAt : time }.
Record CompleteInput : Type := mkCompleteInput { input_State : string; input_Code : string; input_SourceKey : string }.

Record Identity : Type := mkIdentity {
  id_ConnectionID : string;
  id_Issuer : string;
  id_ProviderSubject : string;
  id_Email : string;
  id_EmailVerified : bool;
  id_Name : string;
}.

Record providerIdentity : Type := mkProviderIdentity {
  pi_Issuer : string;
  pi_ProviderSubject : string;
  pi_Nonce : string;
  pi_Email : string;
  pi_EmailVerified : bool;
  pi_Name : string;
}.

(** ** The interface [protocol] *)
Record protocol (S : Type) : Type := mkProtocol {
  (* connection, state, nonce, code verifier *)
  protocol_AuthorizationURL : Connection -> string -> string -> string -> M S (result string);
  (* connection, code, code verifier *)
  protocol_Exchange : Connection -> string -> string -> M S (result providerIdentity);
}.
Arguments protocol_AuthorizationURL {S}. Arguments protocol_Exchange {S}.

(** ** Connections *)
Definition ScopeOpenID : string := "openid".
Definition ScopeEmail : string := "email".
Definition ScopeProfile : string := "profile".

Definition validIssuerURL `{NetURL} (rawURL : string) : bool :=
  match url_Parse rawURL with
  | None => false
  | Some parsed =>
      if String.eqb (Host parsed) "" || has_User parsed || negb (String.eqb (RawQuery parsed) "") ||
         negb (String.eqb (Fragment parsed) "")
      then false else String.eqb (Scheme parsed) "https"
  end.

Definition validRedirectURL `{NetURL} (rawURL : string) : bool :=
  match url_Parse rawURL with
  | None => false
  | Some parsed =>
      negb (String.eqb (Host parsed) "") && negb (has_User parsed) && String.eqb (Fragment parsed) "" &&
      (String.eqb (Scheme parsed) "https" || String.eqb (Scheme parsed) "http")
  end.

Definition validEndpointURL `{NetURL} (rawURL : string) : bool :=
  match url_Parse rawURL with
  | None => false
  | Some parsed =>
      negb (String.eqb (Host parsed) "") && negb (has_User parsed) && String.eqb (Fragment parsed) "" &&
      String.eqb (Scheme parsed) "https"
  end.

(** The loop over the scopes: [None] when one is blank. *)
Fixpoint normalizeScopes (seen : list string) (scopes : list string) : option (list string) :=
  match scopes with
  | [] => Some []
  | scope :: scopes =>
      let scope := TrimSpace scope in
      if String.eqb scope "" then None else
      if existsb (String.eqb scope) seen then normalizeScopes seen scopes else
      match normalizeScopes (scope :: seen) scopes with
      | Some rest => Some (scope :: rest)
      | None => None
      end
  end.

Definition normalizeConnection `{NetURL} (connection : Connection) : result Connection :=
  let id := TrimSpace (conn_ID connection) in
  let issuer := TrimSpace (conn_Issuer connection) in
  let clientID := TrimSpace (conn_ClientID connection) in
  let redirectURL := TrimSpace (conn_RedirectURL connection) in
  let with_scopes scopes :=
    mkConnection id issuer clientID (conn_ClientSecret connection) redirectURL scopes
      (conn_RequireVerifiedEmail connection) in
  if String.eqb id "" || String.eqb clientID "" || negb (validIssuerURL issuer) || negb (validRedirectURL redirectURL)
  then Err ErrInvalidConfig else
  if (length (conn_Scopes connection) =? 0)%nat
  then Ok (with_scopes [ScopeOpenID; ScopeEmail; ScopeProfile]) else
  match normalizeScopes [] (ScopeOpenID :: conn_Scopes connection) with
  | None => Err ErrInvalidConfig
  | Some scopes => Ok (with_scopes scopes)
  end.

Definition validChallenge (challenge : Challenge) (expectedHash : Hash) (now : time) : bool :=
  String.eqb (StateHash challenge) expectedHash &&
  negb (String.eqb (TrimSpace (ch_ConnectionID challenge)) "") &&
  negb (String.eqb (TrimSpace (ch_Issuer challenge)) "") &&
  negb (String.eqb (TrimSpace (ch_ClientID challenge)) "") &&
  negb (String.eqb (TrimSpace (ch_RedirectURL challenge)) "") &&
  negb (String.eqb (TrimSpace (ch_Nonce challenge)) "") &&
  negb (String.eqb (TrimSpace (CodeVerifier challenge)) "") &&
  negb (IsZero (CreatedAt challenge)) && After (ExpiresAt challenge) (CreatedAt challenge) &&
  Before now (ExpiresAt challenge).

Definition challengeMatchesConnection (challenge : Challenge) (connection : Connection) : bool :=
  String.eqb (ch_ConnectionID challenge) (conn_ID connection) &&
  String.eqb (ch_Issuer challenge) (conn_Issuer connection) &&
  String.eqb (ch_ClientID challenge) (conn_ClientID connection) &&
  String.eqb (ch_RedirectURL challenge) (conn_RedirectURL connection) &&
  Bool.eqb (ch_RequireVerifiedEmail challenge) (conn_RequireVerifiedEmail connection) &&
  bool_decide (ch_Scopes challenge = conn_Scopes connection).

(** ** The libraries go-oidc and oauth2 *)

(** [oauth2.Endpoint]: the addresses the package checks, and the rest. *)
Record Endpoint : Type := mkEndpoint { AuthURL : string; TokenURL : string; endpoint_rest : string }.

(** [oauth2.Config] *)
Record OAuthConfig : Type := mkOAuthConfig {
  oauth_ClientID : string;
  oauth_ClientSecret : string;
  oauth_Endpoint : Endpoint;
  oauth_RedirectURL : string;
  oauth_Scopes : list string;
}.

(** Contexts and the HTTP client are part of the calls. *)
Class OIDCLibraries (S : Type) := {
  Provider : Type;
  OAuthToken : Type;
  IDToken : Type;
  (* [oidc.NewProvider(issuer)] *)
  oidc_NewProvider : string -> M S (result Provider);
  provider_Endpoint : Provider -> Endpoint;
  (* [config.AuthCodeURL(state, nonce parameter, S256 challenge of the verifier)] *)
  oauth2_AuthCodeURL : OAuthConfig -> string -> string -> string -> string;
  (* [config.Exchange(code, verifier)] *)
  oauth2_Exchange : OAuthConfig -> string -> string -> M S (result OAuthToken);
  (* [token.Extra("id_token").(string)], [token.AccessToken] *)
  token_id_token : OAuthToken -> option string;
  token_AccessToken : OAuthToken -> string;
  (* [provider.Verifier(client, clock).Verify(rawIDToken)] *)
  oidc_Verify : Provider -> string -> (nat -> time) -> string -> M S (result IDToken);
  idtoken_Issuer : IDToken -> string;
  idtoken_Subject : IDToken -> string;
  idtoken_Nonce : IDToken -> string;
  idtoken_AccessTokenHash : IDToken -> string;
  idtoken_VerifyAccessToken : IDToken -> string -> result unit;
  (* the claims email, email_verified and name *)
  idtoken_Claims : IDToken -> result (string * bool * string);
}.

Definition oauthConfig (connection : Connection) (endpoint : Endpoint) : OAuthConfig :=
  mkOAuthConfig (conn_ClientID connection) (conn_ClientSecret connection) endpoint (conn_RedirectURL connection)
    (conn_Scopes connection).

Section Protocol.
Context {S : Type} `{NetURL} `{OIDCLibraries S}.

(** [discoveredProvider], and [oidcProtocol] with its map of providers, which is
    part of the state. A lock guards the map: reads and writes are one step. *)
Record discoveredProvider : Type := mkDiscovered { discovered_provider : Provider; discovered_endpoint : Endpoint }.

Record oidcProtocol : Type := mkOIDCProtocol {
  protocol_now : nat -> time;
  get_providers : S -> gmap string discoveredProvider;
  set_providers : gmap string discoveredProvider -> S -> S;
}.

Definition newOIDCProtocol (now : nat -> time) (get : S -> gmap string discoveredProvider)
    (set : gmap string discoveredProvider -> S -> S) : oidcProtocol := mkOIDCProtocol now get set.

(** The second critical section: a provider that another call stored wins. *)
Definition rememberProvider (oidc : oidcProtocol) (issuer : string) (provider : discoveredProvider) : M S discoveredProvider :=
  lift_ext (fun s =>
    match get_providers oidc s !! issuer with
    | Some existing => (existing, s)
    | None => (provider, set_providers oidc (<[issuer := provider]> (get_providers oidc s)) s)
    end).

Definition provider (oidc : oidcProtocol) (issuer : string) : M S (result discoveredProvider) :=
  known <- lift_ext (fun s => (get_providers oidc s !! issuer, s)) ;;
  match known with
  | Some provider => ret (Ok provider)
  | None =>
      discovered <-? oidc_NewProvider issuer ;;
      let endpoint := provider_Endpoint discovered in
      if negb (validEndpointURL (AuthURL endpoint)) || negb (validEndpointURL (TokenURL endpoint))
      then ret (Err ErrInvalidConfig) else
      provider <- rememberProvider oidc issuer (mkDiscovered discovered endpoint) ;;
      ret (Ok provider)
  end.

Definition AuthorizationURL (oidc : oidcProtocol) (connection : Connection) (state nonce codeVerifier : string) :
    M S (result string) :=
  provider <-? provider oidc (conn_Issuer connection) ;;
  ret (Ok (oauth2_AuthCodeURL (oauthConfig connection (discovered_endpoint provider)) state nonce codeVerifier)).

Definition Exchange (oidc : oidcProtocol) (connection : Connection) (code codeVerifier : string) :
    M S (result providerIdentity) :=
  provider <-? provider oidc (conn_Issuer connection) ;;
  oauthToken <-? oauth2_Exchange (oauthConfig connection (discovered_endpoint provider)) code codeVerifier ;;
  match token_id_token oauthToken with
  | None => ret (Err ErrInvalidIdentity)
  | Some rawIDToken =>
      if String.eqb (TrimSpace rawIDToken) "" then ret (Err ErrInvalidIdentity) else
      verified <- oidc_Verify (discovered_provider provider) (conn_ClientID connection) (protocol_now oidc) rawIDToken ;;
      match verified with
      | Err _ => ret (Err ErrInvalidIdentity)
      | Ok idToken =>
          if negb (String.eqb (idtoken_AccessTokenHash idToken) "") &&
             negb (is_ok (idtoken_VerifyAccessToken idToken (token_AccessToken oauthToken)))
          then ret (Err ErrInvalidIdentity) else
          match idtoken_Claims idToken with
          | Err _ => ret (Err ErrInvalidIdentity)
          | Ok (email, emailVerified, name) =>
              ret (Ok (mkProviderIdentity (idtoken_Issuer idToken) (idtoken_Subject idToken) (idtoken_Nonce idToken)
                         email emailVerified name))
          end
      end
  end.

Definition asProtocol (oidc : oidcProtocol) : protocol S :=
  {| protocol_AuthorizationURL := AuthorizationURL oidc; protocol_Exchange := Exchange oidc |}.
End Protocol.
Arguments discoveredProvider S {_}.
Arguments oidcProtocol S {_}.

(** ** The manager *)
Record Config (S : Type) : Type := mkConfig {
  c_StateLifetime : duration;
  (* whether there is an HTTP client *)
  c_HTTPClient : bool;
  c_AttemptGuard : option (AttemptGuard S);
  c_SecurityEvents : option (SecurityEventSink S);
  c_Now : option (nat -> time);
}.
Arguments c_StateLifetime {S}. Arguments c_HTTPClient {S}. Arguments c_AttemptGuard {S}.
Arguments c_SecurityEvents {S}. Arguments c_Now {S}.

Record Manager (S : Type) : Type := mkManager {
  store : Store S;
  connections : ConnectionSource S;
  manager_protocol : protocol S;
  lifetime : duration;
  attemptGuard : option (AttemptGuard S);
  securityEvents : option (SecurityEventSink S);
  now : nat -> time;
}.
Arguments store {S}. Arguments connections {S}. Arguments manager_protocol {S}. Arguments lifetime {S}.
Arguments attemptGuard {S}. Arguments securityEvents {S}. Arguments now {S}.

Section Operations.
Context {S : Type} `{Env} `{GoTables} `{NetURL}.

Definition NewManager `{OIDCLibraries S} (store : option (Store S)) (connections : option (ConnectionSource S))
    (config : Config S) (get : S -> gmap string (discoveredProvider S))
    (set : gmap string (discoveredProvider S) -> S -> S) : result (Manager S) :=
  match store, connections with
  | Some store, Some connections =>
      if (c_StateLifetime config <=? 0)%Z
      then Err (Errorf "%w: state lifetime must be positive" [ErrInvalidConfig]) else
      if negb (c_HTTPClient config) then Err (Errorf "%w: HTTP client is required" [ErrInvalidConfig]) else
      let now := default time_Now (c_Now config) in
      Ok (mkManager S store connections (asProtocol (newOIDCProtocol now get set)) (c_StateLifetime config)
            (c_AttemptGuard config) (c_SecurityEvents config) now)
  | _, _ => Err (Errorf "%w: store and connections are required" [ErrInvalidConfig])
  end.

Definition findConnection (manager : Manager S) (connectionID : string) : M S (result Connection) :=
  r <- connections manager connectionID ;;
  match r with
  | Err err =>
      if errors_Is err ErrNotFound then ret (Err ErrNotFound)
      else ret (Err (Errorf "find OIDC connection: %w" [err]))
  | Ok connection =>
      match normalizeConnection connection with
      | Err _ => ret (Err ErrInvalidConfig)
      | Ok connection =>
          if negb (String.eqb (conn_ID connection) connectionID) then ret (Err ErrInvalidConfig) else
          ret (Ok connection)
      end
  end.

Definition checkAttempt (manager : Manager S) (attempt : Attempt) : M S (result unit) :=
  match attemptGuard manager with
  | None => ret (Ok tt)
  | Some check => wrapped "check OIDC attempt: %w" (check attempt)
  end.

Definition record (manager : Manager S) (eventType : EventType) (connectionID providerSubject sourceKey : string) :
    M S unit :=
  match securityEvents manager with
  | None => ret tt
  | Some sink =>
      at_ <- read_now (now manager) ;;
      sink (mkEvent eventType connectionID providerSubject sourceKey at_)
  end.

Definition Begin (manager : Manager S) (input : BeginInput) : M S (result Started) :=
  let connectionID := TrimSpace (begin_ConnectionID input) in
  if String.eqb connectionID "" then ret (Err ErrInvalidInput) else
  _ <-? checkAttempt manager (mkAttempt OperationBegin connectionID (begin_SourceKey input)) ;;
  connection <-? findConnection manager connectionID ;;
  for_range challengeAttempts
    (r <- (generated <-? wrapped "generate OIDC state: %w" Generate ;;
           let '(state, stateHash) := generated in
           generated <-? wrapped "generate OIDC nonce: %w" Generate ;;
           let '(nonce, _) := generated in
           generated <-? wrapped "generate PKCE verifier: %w" Generate ;;
           let '(codeVerifier, _) := generated in
           authorizationURL <-? wrapped "create OIDC authorization URL: %w"
             (protocol_AuthorizationURL (manager_protocol manager) connection state nonce codeVerifier) ;;
           now <- read_now (now manager) ;;
           let challenge := mkChallenge stateHash (conn_ID connection) (conn_Issuer connection) (conn_ClientID connection)
             (conn_RedirectURL connection) (conn_Scopes connection) (conn_RequireVerifiedEmail connection)
             nonce codeVerifier now (Add now (lifetime manager)) in
           ret (Ok (authorizationURL, state, challenge))) ;;
     match r with
     | Err err => ret (Return (Err err))
     | Ok (authorizationURL, state, challenge) =>
         r <- store_CreateChallenge (store manager) challenge ;;
         match r with
         | Err err =>
             if errors_Is err ErrConflict then ret (Next tt)
             else ret (Return (Err (Errorf "store OIDC challenge: %w" [err])))
         | Ok _ => ret (Return (Ok (mkStarted authorizationURL state (ExpiresAt challenge))))
         end
     end)
    (ret (Err (Errorf "create unique OIDC state: %w" [ErrConflict]))).

(** What [Complete] makes of the identity the provider gave. *)
Definition acceptIdentity (manager : Manager S) (connection : Connection) (challenge : Challenge)
    (identity : providerIdentity) (sourceKey : string) : M S (result Identity) :=
  let providerSubject := TrimSpace (pi_ProviderSubject identity) in
  if negb (String.eqb (pi_Issuer identity) (conn_Issuer connection)) ||
     negb (String.eqb (pi_Nonce identity) (ch_Nonce challenge)) || String.eqb providerSubject ""
  then
    _ <- record manager EventAuthenticationFailed (conn_ID connection) providerSubject sourceKey ;;
    ret (Err ErrInvalidIdentity)
  else
  match (if negb (String.eqb (TrimSpace (pi_Email identity)) "") then Normalize (pi_Email identity) else Ok "") with
  | Err _ => ret (Err ErrInvalidIdentity)
  | Ok email =>
      if conn_RequireVerifiedEmail connection && (String.eqb email "" || negb (pi_EmailVerified identity)) then
        _ <- record manager EventAuthenticationFailed (conn_ID connection) providerSubject sourceKey ;;
        ret (Err ErrUnverifiedEmail)
      else
      _ <- record manager EventAuthenticationSucceeded (conn_ID connection) providerSubject sourceKey ;;
      ret (Ok (mkIdentity (conn_ID connection) (conn_Issuer connection) providerSubject email
                 (pi_EmailVerified identity) (TrimSpace (pi_Name identity))))
  end.

Definition Complete (manager : Manager S) (input : CompleteInput) : M S (result Identity) :=
  _ <-? checkAttempt manager (mkAttempt OperationComplete "" (input_SourceKey input)) ;;
  let refused :=
    (_ <- record manager EventAuthenticationFailed "" "" (input_SourceKey input) ;;
     ret (Err ErrInvalidState)) in
  match HashToken (TrimSpace (input_State input)) with
  | Err _ => refused
  | Ok stateHash =>
      if String.eqb (TrimSpace (input_Code input)) "" then refused else
      now <- read_now (now manager) ;;
      r <- store_ConsumeChallenge (store manager) stateHash now ;;
      match r with
      | Err err =>
          if errors_Is err ErrNotFound || errors_Is err ErrInactiveState then refused
          else ret (Err (Errorf "consume OIDC challenge: %w" [err]))
      | Ok challenge =>
          if negb (validChallenge challenge stateHash now) then ret (Err ErrInvalidRecord) else
          r <- findConnection manager (ch_ConnectionID challenge) ;;
          match r with
          | Err err =>
              if errors_Is err ErrNotFound || errors_Is err ErrInvalidConfig then ret (Err ErrInvalidState)
              else ret (Err err)
          | Ok connection =>
              if negb (challengeMatchesConnection challenge connection) then ret (Err ErrInvalidState) else
              identity <-? wrapped "exchange OIDC authorization code: %w"
                (protocol_Exchange (manager_protocol manager) connection (TrimSpace (input_Code input))
                   (CodeVerifier challenge)) ;;
              acceptIdentity manager connection challenge identity (input_SourceKey input)
          end
      end
  end.
End Operations.
