(* ===== verification/OidcSpec.v ===== *)
(** * What OpenID Connect sign-on promises

    The pending challenges behind package [oidc], the contract of its store and
    of the libraries, and the effect of its operations. *)
From S2P Require Import Prelude GoText GoUrl Base64 Sha256 Token EmailAddress SsoSpec Oidc.
From S2P Require GoogleOAuthSpec.

(** Pending challenges by the hash of their state. *)
Abbreviation pending := (gmap string Challenge).

Section Contract.
Context {S : Type}.

Class OIDCBackend (manager : Manager S) (wf : S -> Prop) (view : S -> pending) : Prop := {
  backend_store :: PendingContract StateHash (store_CreateChallenge (store manager)) (store_ConsumeChallenge (store manager)) wf view;
  backend_Consume_forward h at_ : forward (store_ConsumeChallenge (store manager) h at_);
  backend_connections id : leaves wf view (connections manager id);
  backend_connections_forward id : forward (connections manager id);
  backend_AuthorizationURL c state nonce verifier :
    leaves wf view (protocol_AuthorizationURL (manager_protocol manager) c state nonce verifier);
  backend_Exchange c code verifier : leaves wf view (protocol_Exchange (manager_protocol manager) c code verifier);
  backend_guard g a : attemptGuard manager = Some g -> leaves wf view (g a);
  backend_guard_forward g a : attemptGuard manager = Some g -> forward (g a);
  backend_events e a : securityEvents manager = Some e -> leaves wf view (e a);
}.
End Contract.

(** ** The protocol over the libraries *)
Section Protocol.
Context {S : Type} `{NetURL} `{OIDCLibraries S} (oidc : oidcProtocol S) (wf : S -> Prop) (view : S -> pending).

(** The libraries, and the map of providers, are no part of the challenges, and
    the map is read as it was written. *)
Class OIDCLibrariesContract : Prop := {
  library_NewProvider issuer w : wf (ext w) ->
    wp (oidc_NewProvider issuer) (fun _ w' => wf (ext w') /\ view (ext w') = view (ext w) /\
      get_providers oidc (ext w') = get_providers oidc (ext w)) w;
  library_Exchange config code verifier w : wf (ext w) ->
    wp (oauth2_Exchange config code verifier) (fun _ w' => wf (ext w') /\ view (ext w') = view (ext w) /\
      get_providers oidc (ext w') = get_providers oidc (ext w)) w;
  library_Verify provider client now raw w : wf (ext w) ->
    wp (oidc_Verify provider client now raw) (fun _ w' => wf (ext w') /\ view (ext w') = view (ext w) /\
      get_providers oidc (ext w') = get_providers oidc (ext w)) w;
  library_NewProvider_forward issuer : forward (oidc_NewProvider issuer);
  library_Exchange_forward config code verifier : forward (oauth2_Exchange config code verifier);
  providers_set ps s : wf s -> wf (set_providers oidc ps s) /\ view (set_providers oidc ps s) = view s /\
    get_providers oidc (set_providers oidc ps s) = ps;
}.

(** Every provider the map holds has endpoints that were checked. *)
Definition checked (d : discoveredProvider S) : Prop :=
  validEndpointURL (AuthURL (discovered_endpoint d)) = true /\ validEndpointURL (TokenURL (discovered_endpoint d)) = true /\
  discovered_endpoint d = provider_Endpoint (discovered_provider d).

Definition providers_checked (s : S) : Prop := forall issuer d, get_providers oidc s !! issuer = Some d -> checked d.

Context `{!OIDCLibrariesContract}.

Lemma wp_rememberProvider issuer d w :
  wf (ext w) -> providers_checked (ext w) -> checked d ->
  wp (rememberProvider oidc issuer d) (fun d' w' => wf (ext w') /\ view (ext w') = view (ext w) /\
    providers_checked (ext w') /\ get_providers oidc (ext w) ⊆ get_providers oidc (ext w') /\ ticks w' = ticks w /\
    checked d' /\ get_providers oidc (ext w') !! issuer = Some d') w.
Proof.
  intros Hwf Hps Hd. unfold rememberProvider. apply wp_lift_ext.
  destruct (get_providers oidc (ext w) !! issuer) as [d'|] eqn:Hi; simpl.
  - split_and!; try done. by eapply Hps.
  - destruct (providers_set (<[issuer := d]> (get_providers oidc (ext w))) (ext w) Hwf) as (Hwf2 & Hv2 & Hp2).
    unfold providers_checked. rewrite Hp2, Hv2. split_and!; try done.
    + intros i x [[<- <-]|[_ Hx]]%lookup_insert_Some; [done|by eapply Hps].
    + by apply insert_subseteq.
    + by rewrite lookup_insert_eq.
Qed.

Lemma wp_provider issuer w :
  wf (ext w) -> providers_checked (ext w) ->
  wp (provider oidc issuer) (fun res w' => wf (ext w') /\ view (ext w') = view (ext w) /\ providers_checked (ext w') /\
    get_providers oidc (ext w) ⊆ get_providers oidc (ext w') /\ ticks w <= ticks w' /\
    forall d, res = Ok d -> checked d /\ get_providers oidc (ext w') !! issuer = Some d) w.
Proof.
  intros Hwf Hps. unfold provider. wp_go.
  { split_and!; try done. intros ? [= <-]. split; [by eapply Hps|done]. }
  eapply wp_mono; [apply wp_forward; [apply library_NewProvider_forward|by apply library_NewProvider]|].
  rewrite ext_set_ext. intros r w1 [(Hwf1 & Hv1 & Hp1) Ht1]. cbn [ticks set_ext] in Ht1.
  assert (Hps1 : providers_checked (ext w1)) by (intros i d; rewrite Hp1; apply Hps).
  rewrite <- Hv1, <- Hp1. destruct r as [p|e]; wp_go; try done. go_bool.
  eapply wp_mono; [by apply wp_rememberProvider|]. intros d w2 (Hwf2 & Hv2 & Hp2 & Hsub & Ht2 & Hd & Hi). wp_go.
  split_and!; try done; [lia|]. by intros ? [= <-].
Qed.

(** The authorization request goes to the checked endpoint of the issuer. *)
Lemma wp_AuthorizationURL c state nonce verifier w :
  wf (ext w) -> providers_checked (ext w) ->
  wp (AuthorizationURL oidc c state nonce verifier) (fun res w' => wf (ext w') /\ view (ext w') = view (ext w) /\
    providers_checked (ext w') /\
    forall url, res = Ok url -> exists d, checked d /\
      url = oauth2_AuthCodeURL (oauthConfig c (discovered_endpoint d)) state nonce verifier) w.
Proof.
  intros Hwf Hps. unfold AuthorizationURL. wp_go. eapply wp_mono; [by apply wp_provider|].
  intros [d|e] w1 (Hwf1 & Hv1 & Hp1 & _ & _ & Hd); wp_go; split_and!; try done.
  intros url [= <-]. exists d. split; [by apply Hd|done].
Qed.

(** Where an identity comes from: from the reading [start] on, the code was
    redeemed with its verifier at the checked endpoint, and the library verified
    the token for the client. *)
Definition exchanged (start : nat) (c : Connection) (code verifier : string) (pi : providerIdentity) : Prop :=
  exists d token raw idToken w1 w2 w3 w4,
    checked d /\ start <= ticks w1 /\ start <= ticks w3 /\
    oauth2_Exchange (oauthConfig c (discovered_endpoint d)) code verifier w1 = (Ok token, w2) /\
    token_id_token token = Some raw /\
    oidc_Verify (discovered_provider d) (conn_ClientID c) (protocol_now oidc) raw w3 = (Ok idToken, w4) /\
    (idtoken_AccessTokenHash idToken = "" \/ is_ok (idtoken_VerifyAccessToken idToken (token_AccessToken token)) = true) /\
    idtoken_Claims idToken = Ok (pi_Email pi, pi_EmailVerified pi, pi_Name pi) /\
    pi_Issuer pi = idtoken_Issuer idToken /\ pi_ProviderSubject pi = idtoken_Subject idToken /\
    pi_Nonce pi = idtoken_Nonce idToken.

Lemma exchanged_earlier start start' c code verifier pi :
  exchanged start c code verifier pi -> start' <= start -> exchanged start' c code verifier pi.
Proof.
  intros (d & token & raw & idToken & w1 & w2 & w3 & w4 & Hd & Hw1 & Hw3 & Hrest) Hle.
  exists d, token, raw, idToken, w1, w2, w3, w4. split_and!; [done|lia|lia|by apply Hrest..].
Qed.

Lemma wp_Exchange c code verifier w :
  wf (ext w) -> providers_checked (ext w) ->
  wp (Exchange oidc c code verifier) (fun res w' => wf (ext w') /\ view (ext w') = view (ext w) /\
    providers_checked (ext w') /\ forall pi, res = Ok pi -> exchanged (ticks w) c code verifier pi) w.
Proof.
  intros Hwf Hps. unfold Exchange. wp_go. eapply wp_mono; [by apply wp_provider|].
  intros [d|e] w1 (Hwf1 & Hv1 & Hp1 & _ & Ht1 & Hd); wp_go; [|by split_and!].
  eapply wp_mono; [apply wp_forward; [apply library_Exchange_forward|];
    eapply wp_and; [by apply library_Exchange|by apply wp_run; intros ? ? E; exact E]|].
  intros r w2 [[(Hwf2 & Hv2 & Hp2) E] Ht2]. assert (Hp2' : providers_checked (ext w2)) by (intros i x; rewrite Hp2; apply Hp1).
  rewrite <- Hv1, <- Hv2. destruct r as [tok|e]; wp_go; try by split_and!.
  eapply wp_mono; [eapply wp_and; [by apply library_Verify|by apply wp_run; intros ? ? E'; exact E']|].
  intros r w3 [(Hwf3 & Hv3 & Hp3) E3]. assert (Hp3' : providers_checked (ext w3)) by (intros i x; rewrite Hp3; apply Hp2').
  rewrite <- Hv3. wp_go; try by split_and!. split_and!; try done. intros pi [= <-].
  eexists d, _, _, _, w1, w2, w2, w3. split_and!; try done; [by apply Hd|lia|].
  match goal with Hb : _ && _ = false |- _ => apply andb_false_iff in Hb as [Hb|Hb]; [left|right] end; by go_bool.
Qed.

(** The protocol leaves the challenges alone while the map is checked. *)
Definition protocol_wf (s : S) : Prop := wf s /\ providers_checked s.

Lemma leaves_AuthorizationURL c state nonce verifier : leaves protocol_wf view (AuthorizationURL oidc c state nonce verifier).
Proof.
  intros w [Hwf Hp]. eapply wp_mono; [by apply wp_AuthorizationURL|]. unfold protocol_wf. intros r w' (? & ? & ? & _). by split_and!.
Qed.

Lemma leaves_Exchange c code verifier : leaves protocol_wf view (Exchange oidc c code verifier).
Proof. intros w [Hwf Hp]. eapply wp_mono; [by apply wp_Exchange|]. unfold protocol_wf. intros r w' (? & ? & ? & _). by split_and!. Qed.
End Protocol.

(** ** The effect of the operations *)
Section Refinement.
Context {S : Type} `{Env} `{GoTables} `{NetURL} (manager : Manager S).
Context (wf : S -> Prop) (view : S -> pending) `{!OIDCBackend manager wf view}.

Abbreviation abs w := (view (ext w)).

Lemma wp_oidc_record e connection subject source w :
  wf (ext w) -> wp (record manager e connection subject source) (fun _ w' => wf (ext w') /\ abs w' = abs w) w.
Proof.
  intros Hwf. unfold record. destruct (securityEvents manager) as [sink|] eqn:He; wp_go; [|done].
  eapply wp_mono; [by eapply backend_events|]. done.
Qed.

Lemma wp_oidc_checkAttempt a w :
  wf (ext w) -> wp (checkAttempt manager a) (fun _ w' => (wf (ext w') /\ abs w' = abs w) /\ ticks w <= ticks w') w.
Proof.
  intros Hwf. unfold checkAttempt. destruct (attemptGuard manager) as [g|] eqn:Hg; wp_go; [|done].
  eapply wp_mono; [apply wp_forward; [by eapply backend_guard_forward|by eapply backend_guard]|]. done.
Qed.

(** A connection that was found, looked up from the reading [start] on: configured
    under the identifier, normalized. *)
Definition found (start : nat) (id : string) (c : Connection) : Prop :=
  conn_ID c = id /\ exists raw w1 w2, wf (ext w1) /\ start <= ticks w1 /\
    connections manager id w1 = (Ok raw, w2) /\ normalizeConnection raw = Ok c.

Lemma found_earlier start start' id c : found start id c -> start' <= start -> found start' id c.
Proof.
  intros (Hid & raw & w1 & w2 & Hwf & Hs & Hc) Hle. split; [done|]. exists raw, w1, w2. split_and!; [done|lia|by apply Hc..].
Qed.

Lemma wp_findConnection id w :
  wf (ext w) ->
  wp (findConnection manager id) (fun res w' => (wf (ext w') /\ abs w' = abs w) /\ ticks w <= ticks w' /\ forall c, res = Ok c -> found (ticks w) id c) w.
Proof.
  intros Hwf. unfold findConnection. wp_go.
  eapply wp_mono; [apply wp_forward; [apply backend_connections_forward|];
    eapply wp_and; [by apply backend_connections|by apply wp_run; intros ? ? E; exact E]|].
  intros r w1 [[[Hwf1 Hv1] E] Ht1]. wp_go; split_and!; try done. intros c [= <-]. go_bool. split; [done|].
  eexists _, w, w1. by split_and!.
Qed.

(** The challenge behind an authorization request. *)
Definition begun (start : nat) (id : string) (started : Started) (s s' : pending) : Prop :=
  exists conn c w1 w2,
    found start id conn /\ s !! StateHash c = None /\ s' = <[StateHash c := c]> s /\
    HashToken (started_State started) = Ok (StateHash c) /\ challengeMatchesConnection c conn = true /\
    (exists n, CreatedAt c = now manager n) /\ ExpiresAt c = Add (CreatedAt c) (lifetime manager) /\ started_ExpiresAt started = ExpiresAt c /\
    TrimSpace (ch_Nonce c) <> "" /\ TrimSpace (CodeVerifier c) <> "" /\
    wf (ext w1) /\ protocol_AuthorizationURL (manager_protocol manager) conn (started_State started) (ch_Nonce c) (CodeVerifier c) w1 =
      (Ok (started_AuthorizationURL started), w2).

Lemma challengeMatches_self conn h nonce verifier t e :
  challengeMatchesConnection (mkChallenge h (conn_ID conn) (conn_Issuer conn) (conn_ClientID conn) (conn_RedirectURL conn)
    (conn_Scopes conn) (conn_RequireVerifiedEmail conn) nonce verifier t e) conn = true.
Proof. unfold challengeMatchesConnection. simpl. rewrite !String.eqb_refl, Bool.eqb_reflx. by rewrite bool_decide_eq_true_2. Qed.

Lemma wp_oidc_Begin input w :
  wf (ext w) ->
  wp (Begin manager input) (fun res w' => wf (ext w') /\
    match res with
    | Ok started => begun (ticks w) (TrimSpace (begin_ConnectionID input)) started (abs w) (abs w')
    | Err _ => abs w' = abs w
    end) w.
Proof.
  intros Hwf. unfold Begin. wp_go; [done|].
  eapply wp_mono; [by apply wp_oidc_checkAttempt|]. intros [[]|e] w1 [[Hwf1 Hv1] Ht1]; wp_go; [|done].
  eapply wp_mono; [by apply wp_findConnection|]. intros [conn|e] w2 ([Hwf2 Hv2] & _ & Hc); wp_go; [|by rewrite Hv2].
  specialize (Hc conn eq_refl). apply (found_earlier _ (ticks w)) in Hc; [|done]. rewrite <- Hv1, <- Hv2.
  apply (wp_for_range _ _ _ _ (fun v => wf (ext v) /\ abs v = abs w2)); [done| |by intros v [? ?]; wp_go].
  intros v [Hv Ev]. wp_go. apply wp_Generate; [|by wp_go]. intros state h Hh. wp_go.
  apply wp_Generate; [|by wp_go]. intros nonce nh Hn. wp_go.
  apply wp_Generate; [|by wp_go]. intros verifier vh Hvh. wp_go.
  eapply wp_mono; [eapply wp_and; [by apply backend_AuthorizationURL|by apply wp_run; intros ? ? E; exact E]|].
  intros r v1 [[Hwf3 Hv3] E]. rewrite !ext_draw in Hv3. destruct r as [url|e]; wp_go; [|by rewrite Hv3].
  eapply wp_mono; [by apply (pending_Create_ok StateHash _ (store_ConsumeChallenge (store manager)) (wf := wf) (view := view))|]. rewrite ext_tick, Hv3, Ev. simpl.
  intros [[]|e] v2 [Hwf4 Hr]; wp_go; [|done..]. destruct Hr as [Hnone Hs]. split; [done|].
  destruct (HashToken_text _ _ Hn) as [Tn Nn]. destruct (HashToken_text _ _ Hvh) as [Tv Nv].
  eexists conn, (mkChallenge h _ _ _ _ _ _ nonce verifier _ _), _, _.
  split_and!; simpl; [done|exact Hnone|exact Hs|done|by apply challengeMatches_self|by eexists|done|done|by rewrite Tn|by rewrite Tv| |exact E].
  by rewrite !ext_draw.
Qed.

(** What [Complete] checked, from the reading [start] on, before it vouched for an
    identity. *)
Definition completed (input : CompleteInput) (start : nat) (id : Identity) (s s' : pending) : Prop :=
  exists n h c conn pi w1 w2,
    start <= n /\
    HashToken (TrimSpace (input_State input)) = Ok h /\ s !! h = Some c /\ s' = delete h s /\
    validChallenge c h (now manager n) = true /\ found start (ch_ConnectionID c) conn /\
    challengeMatchesConnection c conn = true /\ TrimSpace (input_Code input) <> "" /\
    wf (ext w1) /\ start <= ticks w1 /\
    protocol_Exchange (manager_protocol manager) conn (TrimSpace (input_Code input)) (CodeVerifier c) w1 = (Ok pi, w2) /\
    pi_Issuer pi = ch_Issuer c /\ pi_Nonce pi = ch_Nonce c /\
    id_ConnectionID id = ch_ConnectionID c /\ id_Issuer id = ch_Issuer c /\
    id_ProviderSubject id = TrimSpace (pi_ProviderSubject pi) /\ id_ProviderSubject id <> "" /\
    id_EmailVerified id = pi_EmailVerified pi /\
    (id_Email id = "" \/ Normalize (pi_Email pi) = Ok (id_Email id)) /\
    (ch_RequireVerifiedEmail c = true -> id_EmailVerified id = true /\ id_Email id <> "").

Lemma challengeMatches_true c conn : challengeMatchesConnection c conn = true ->
  ch_ConnectionID c = conn_ID conn /\ ch_Issuer c = conn_Issuer conn /\ ch_ClientID c = conn_ClientID conn /\
  ch_RedirectURL c = conn_RedirectURL conn /\ ch_RequireVerifiedEmail c = conn_RequireVerifiedEmail conn /\
  ch_Scopes c = conn_Scopes conn.
Proof.
  unfold challengeMatchesConnection. intros Hm. go_bool. split_and!; try done. by apply Bool.eqb_prop.
Qed.

(** What is made of the identity of the provider. *)
Lemma wp_acceptIdentity conn c pi source w :
  wf (ext w) ->
  wp (acceptIdentity manager conn c pi source) (fun res w' => wf (ext w') /\ abs w' = abs w /\
    forall id, res = Ok id ->
      pi_Issuer pi = conn_Issuer conn /\ pi_Nonce pi = ch_Nonce c /\
      id_ConnectionID id = conn_ID conn /\ id_Issuer id = conn_Issuer conn /\
      id_ProviderSubject id = TrimSpace (pi_ProviderSubject pi) /\ id_ProviderSubject id <> "" /\
      id_EmailVerified id = pi_EmailVerified pi /\
      (id_Email id = "" \/ Normalize (pi_Email pi) = Ok (id_Email id)) /\
      (conn_RequireVerifiedEmail conn = true -> id_EmailVerified id = true /\ id_Email id <> "")) w.
Proof.
  intros Hwf. unfold acceptIdentity. wp_go; try (by split_and!);
    (eapply wp_mono; [by apply wp_oidc_record|]; intros [] w1 [Hwf1 Hv1]; wp_go; split_and!; try done).
  intros id [= <-]. simpl. go_bool. split_and!; try done.
  - destruct (negb _); [by right|left; congruence].
  - intros Hreq. match goal with Hb : _ && _ = false |- _ => rewrite Hreq in Hb; apply orb_false_iff in Hb as [? ?] end. by go_bool.
Qed.

Lemma wp_refused source (Q : result Identity -> World S -> Prop) w :
  wf (ext w) -> (forall w', wf (ext w') -> abs w' = abs w -> Q (Err ErrInvalidState) w') ->
  wp (_ <- record manager EventAuthenticationFailed "" "" source ;; ret (Err ErrInvalidState)) Q w.
Proof. intros Hwf HQ. wp_go. eapply wp_mono; [by apply wp_oidc_record|]. intros [] w' [? ?]. wp_go. by apply HQ. Qed.

Lemma wp_oidc_Complete input w :
  wf (ext w) ->
  wp (Complete manager input) (fun res w' => wf (ext w') /\
    match res with
    | Ok id => completed input (ticks w) id (abs w) (abs w')
    | Err _ => abs w' = abs w \/ exists h, HashToken (TrimSpace (input_State input)) = Ok h /\ abs w' = delete h (abs w)
    end) w.
Proof.
  intros Hwf. unfold Complete. wp_go.
  eapply wp_mono; [by apply wp_oidc_checkAttempt|]. intros [[]|e] w1 [[Hwf1 Hv1] Ht1]; [|by wp_go; auto].
  rewrite <- Hv1. clear Hv1. cbv beta iota zeta.
  destruct (HashToken (TrimSpace (input_State input))) as [h|e] eqn:Hh; [|by apply wp_refused; auto].
  destruct (String.eqb (TrimSpace (input_Code input)) "") eqn:Hcode; [by apply wp_refused; auto|].
  wp_go. eapply wp_mono; [apply wp_forward; [apply backend_Consume_forward|];
    by apply (pending_Consume_ok StateHash (store_CreateChallenge (store manager)) _ (wf := wf) (view := view))|].
  rewrite ext_tick. intros [c|e] w2 [[Hwf2 Hr] Ht2]; cbv beta iota; cbn [ticks tick] in Ht2.
  2: { destruct (_ || _); [|wp_go; split; [done|]; destruct Hr; eauto].
       apply wp_refused; [done|]. intros w3 Hwf3 Hv3. rewrite Hv3. split; [done|]. destruct Hr; eauto. }
  destruct Hr as [Hc Hs]. wp_go; [by eauto|].
  eapply wp_mono; [by apply wp_findConnection|]. intros [conn|e] w3 ([Hwf3 Hv3] & Ht3 & Hconn); wp_go; try (rewrite Hv3; by eauto).
  specialize (Hconn conn eq_refl). apply (found_earlier _ (ticks w)) in Hconn; [|lia].
  eapply wp_mono; [eapply wp_and; [by apply backend_Exchange|by apply wp_run; intros ? ? E; exact E]|].
  intros r w4 [[Hwf4 Hv4] E]. destruct r as [pi|e]; wp_go; [|rewrite Hv4, Hv3; by eauto].
  eapply wp_mono; [by apply wp_acceptIdentity|]. intros [id|e] w5 (Hwf5 & Hv5 & Hid); rewrite Hv5, Hv4, Hv3; [|by eauto].
  destruct (Hid id eq_refl) as (Hi1 & Hi2 & Hi3 & Hi4 & Hi5 & Hi6 & Hi7 & Hi8 & Hi9).
  go_bool. match goal with Hm : challengeMatchesConnection c conn = true |- _ =>
    pose proof (challengeMatches_true _ _ Hm) as (Hid1 & Hid2 & _ & _ & Hid5 & _) end.
  split; [done|]. exists (ticks w1), h, c, conn, pi, w3, w4. rewrite Hid1, Hid2, Hid5. split_and!; try done; [|lia].
  by rewrite <- Hid1.
Qed.
End Refinement.

(** * A reference backend for OpenID Connect

    A store whose state has the challenges and the map of providers, libraries
    that vouch for alice, and a run: alice signs on. *)

#[export] Existing Instance GoogleOAuthSpec.demo_url.

(** The state, over the providers known by their issuer. *)
Record sso : Type := mkSso { sso_pending : gmap string Challenge; sso_known : gmap string (string * Endpoint) }.

Definition put_pending (p : gmap string Challenge) (s : sso) : sso := mkSso p (sso_known s).

Definition ref_oidc_store : Store sso :=
  {| store_CreateChallenge := ref_create StateHash ErrConflict sso_pending put_pending;
     store_ConsumeChallenge := ref_consume ExpiresAt ErrNotFound ErrInactiveState sso_pending put_pending |}.

(** A provider is an issuer; a code is the nonce of its request, and so are the
    tokens it is redeemed for. *)
#[export] Instance demo_oidc_libraries : OIDCLibraries sso := {|
  Provider := string;
  OAuthToken := string;
  IDToken := string * string;
  oidc_NewProvider issuer := ret (Ok issuer);
  provider_Endpoint p := mkEndpoint (p +:+ "/authorize") (p +:+ "/token") "";
  oauth2_AuthCodeURL c state nonce verifier := AuthURL (oauth_Endpoint c) +:+ "?state=" +:+ state +:+ "&nonce=" +:+ nonce;
  oauth2_Exchange c code verifier := ret (Ok code);
  token_id_token t := Some t;
  token_AccessToken t := t;
  oidc_Verify p client now raw := ret (Ok (p, raw));
  idtoken_Issuer t := fst t;
  idtoken_Subject t := " idp-alice ";
  idtoken_Nonce t := snd t;
  idtoken_AccessTokenHash t := "";
  idtoken_VerifyAccessToken t a := Ok tt;
  idtoken_Claims t := Ok ("Alice@Example.com", true, "Alice");
|}.

Definition to_known (d : discoveredProvider sso) : string * Endpoint := (discovered_provider d, discovered_endpoint d).
Definition of_known (x : string * Endpoint) : discoveredProvider sso := mkDiscovered (fst x : Provider) (snd x).

Definition demo_oidc_protocol : oidcProtocol sso :=
  newOIDCProtocol demo_clock (fun s => of_known <$> sso_known s) (fun ps s => mkSso (sso_pending s) (to_known <$> ps)).

#[export] Instance demo_libraries_contract : OIDCLibrariesContract demo_oidc_protocol (fun _ => True) sso_pending.
Proof.
  split; try (intros; by apply wp_ret); try (intros; apply forward_ret). intros ps s _. split_and!; try done. simpl. rewrite <- map_fmap_compose.
  rewrite <- (map_fmap_id ps) at 2. apply map_fmap_ext. by intros i [].
Qed.

Abbreviation demo_oidc_wf := (protocol_wf demo_oidc_protocol (fun _ => True)).

Definition demo_connection : Connection :=
  mkConnection "acme" "https://idp.acme.com" "client" "secret" "https://app.example.com/sso" ["email"; " openid"; "email"] true.

Definition demo_connections : ConnectionSource sso := fun id =>
  ret (if String.eqb id "acme" then Ok demo_connection else Err ErrNotFound).

Definition demo_oidc_config : Config sso := mkConfig _ (10 * Minute)%Z true None None (Some demo_clock).

Definition demo_oidc_manager : Manager sso :=
  mkManager _ ref_oidc_store demo_connections (asProtocol demo_oidc_protocol) (10 * Minute)%Z None None demo_clock.

Example demo_oidc_manager_made :
  NewManager (Some ref_oidc_store) (Some demo_connections) demo_oidc_config
    (get_providers demo_oidc_protocol) (set_providers demo_oidc_protocol) = Ok demo_oidc_manager.
Proof. reflexivity. Qed.

#[export] Instance demo_oidc_backend : OIDCBackend demo_oidc_manager demo_oidc_wf sso_pending.
Proof.
  split; try done.
  - by apply ref_pending_contract.
  - intros. apply forward_consume.
  - intros. apply forward_ret.
  - intros. by apply leaves_AuthorizationURL, demo_libraries_contract.
  - intros. by apply leaves_Exchange, demo_libraries_contract.
Defined.

(** The run: the provider's code is the nonce of the challenge. *)
Definition oidc_start : World sso := demo_world (mkSso ∅ ∅).
Definition alice_begins : result Started * World sso := Begin demo_oidc_manager (mkBeginInput " acme " "") oidc_start.
Definition alice_state : string := match fst alice_begins with Ok started => started_State started | Err _ => "" end.
Definition alice_nonce : string :=
  match HashToken alice_state with
  | Ok h => match sso_pending (ext (snd alice_begins)) !! h with Some c => ch_Nonce c | None => "" end
  | Err _ => ""
  end.
Definition alice_answer : CompleteInput := mkCompleteInput (alice_state +:+ " ") alice_nonce "".
Definition alice_signs_on : result Identity * World sso := Complete demo_oidc_manager alice_answer (snd alice_begins).

Example alice_signs_on_ok :
  fst alice_signs_on = Ok (mkIdentity "acme" "https://idp.acme.com" "idp-alice" "alice@example.com" true "Alice").
Proof. vm_compute. reflexivity. Qed.
