(* ===== verification/OidcProps.v ===== *)
(** * Properties of OpenID Connect sign-on

    An identity is vouched for by the connection that its request began with,
    every state is good for one answer, and a flow run to its end completes. *)
From S2P Require Import Prelude GoText GoUrl Base64 Sha256 Token EmailAddress SsoSpec Oidc OidcSpec.

(** ** Connections *)
Lemma existsb_eqb (x : string) l : existsb (String.eqb x) l = true <-> x ∈ l.
Proof.
  rewrite existsb_exists. setoid_rewrite String.eqb_eq. setoid_rewrite <- list_elem_of_In. naive_solver.
Qed.

(** The scopes of a connection: trimmed, without blanks or repetitions. *)
Lemma normalizeScopes_Some seen scopes r : normalizeScopes seen scopes = Some r ->
  NoDup r /\ (forall x, x ∈ r <-> x ∈ (TrimSpace <$> scopes) /\ x ∉ seen) /\ "" ∉ (TrimSpace <$> scopes).
Proof.
  revert seen r. induction scopes as [|x scopes IH]; intros seen r; cbn [normalizeScopes].
  - intros [= <-]. split_and!; [by apply NoDup_nil_2| |by apply not_elem_of_nil].
    intros y. split; [intros ?%not_elem_of_nil|intros [?%not_elem_of_nil _]]; done.
  - rewrite fmap_cons. destruct (String.eqb_spec (TrimSpace x) "") as [|Hne]; [done|].
    destruct (existsb _ seen) eqn:Hseen.
    + apply existsb_eqb in Hseen. intros Hr. destruct (IH _ _ Hr) as (Hnd & Hin & Hb). split_and!; [done| |].
      * intros y. rewrite Hin, elem_of_cons. split; [tauto|]. intros [[->|Hy] Hn]; [by destruct Hn|tauto].
      * rewrite not_elem_of_cons. split; congruence.
    + assert (Hnot : TrimSpace x ∉ seen) by (rewrite <- existsb_eqb; congruence).
      destruct (normalizeScopes _ scopes) as [rest|] eqn:Hr; [|done]. intros [= <-].
      destruct (IH _ _ Hr) as (Hnd & Hin & Hb). split_and!.
      * apply NoDup_cons_2; [|done]. rewrite Hin, elem_of_cons. tauto.
      * intros y. rewrite !elem_of_cons, Hin, elem_of_cons. split.
        -- intros [->|(Hy & Hn)]; [tauto|]. tauto.
        -- intros [[->|Hy] Hn]; [tauto|]. destruct (decide (y = TrimSpace x)); tauto.
      * rewrite not_elem_of_cons. split; congruence.
Qed.

Lemma normalizeScopes_id seen l :
  Forall (fun x => TrimSpace x = x /\ x <> "") l -> NoDup l -> (forall x, x ∈ l -> x ∉ seen) ->
  normalizeScopes seen l = Some l.
Proof.
  revert seen. induction l as [|x l IH]; intros seen; [done|]. cbn [normalizeScopes].
  intros [[Ht Hne] Hl]%Forall_cons_1 [Hx Hnd]%list.NoDup_cons Hseen. rewrite Ht.
  destruct (String.eqb_spec x "") as [|_]; [done|].
  destruct (existsb _ seen) eqn:He; [apply existsb_eqb in He; destruct (Hseen x); [by left|done]|].
  rewrite IH; [done..|]. intros y Hy. rewrite not_elem_of_cons. split; [by intros ->|]. apply Hseen. by right.
Qed.

Section Connections.
Context `{NetURL}.

Lemma normalizeConnection_fields raw c : normalizeConnection raw = Ok c ->
  conn_ID c = TrimSpace (conn_ID raw) /\ conn_Issuer c = TrimSpace (conn_Issuer raw) /\
  conn_ClientID c = TrimSpace (conn_ClientID raw) /\ conn_RedirectURL c = TrimSpace (conn_RedirectURL raw) /\
  conn_ID c <> "" /\ conn_ClientID c <> "".
Proof.
  unfold normalizeConnection. destruct (_ || _) eqn:Hb; [done|]. go_bool.
  destruct (_ =? 0); [by intros [= <-]|]. destruct (normalizeScopes _ _); [by intros [= <-]|done].
Qed.

(** A connection that is used is in normal form: its addresses were checked, it
    asks for [openid] first and for no scope twice, and normalizing it again
    changes nothing, so that a challenge made with it still matches it when it
    is looked up again. *)
Theorem normalizeConnection_canonical raw c :
  normalizeConnection raw = Ok c ->
  conn_ID c <> "" /\ conn_ClientID c <> "" /\ validIssuerURL (conn_Issuer c) = true /\
  validRedirectURL (conn_RedirectURL c) = true /\ hd_error (conn_Scopes c) = Some ScopeOpenID /\
  NoDup (conn_Scopes c) /\ (forall x, x ∈ (TrimSpace <$> conn_Scopes raw) -> x ∈ conn_Scopes c) /\
  normalizeConnection c = Ok c.
Proof.
  unfold normalizeConnection. destruct (_ || _) eqn:Hb; [done|]. intros Hn.
  assert (Hscopes : exists scopes, c = mkConnection (TrimSpace (conn_ID raw)) (TrimSpace (conn_Issuer raw))
      (TrimSpace (conn_ClientID raw)) (conn_ClientSecret raw) (TrimSpace (conn_RedirectURL raw)) scopes
      (conn_RequireVerifiedEmail raw) /\
    NoDup scopes /\ (forall x, x ∈ (TrimSpace <$> conn_Scopes raw) -> x ∈ scopes) /\
    Forall (fun x => TrimSpace x = x /\ x <> "") scopes /\ exists rest, scopes = ScopeOpenID :: rest).
  { destruct (length (conn_Scopes raw) =? 0) eqn:Hl.
    - injection Hn as <-. eexists. split; [done|]. apply Nat.eqb_eq, nil_length_inv in Hl. rewrite Hl.
      split_and!; [by apply (bool_decide_unpack _); vm_compute| |by repeat constructor|by eexists].
      by intros x ?%not_elem_of_nil.
    - destruct (normalizeScopes [] _) as [scopes|] eqn:Hs; [|done]. injection Hn as <-.
      exists scopes. destruct (normalizeScopes_Some _ _ _ Hs) as (Hnd & Hin & Hblank).
      split_and!; [done|done| | |].
      + intros x Hx. apply Hin. rewrite fmap_cons. split; [by right|by apply not_elem_of_nil].
      + apply Forall_forall. intros x [Hx _]%list_elem_of_In%Hin. split.
        * apply list_elem_of_fmap in Hx as (y & -> & _). apply TrimSpace_TrimSpace.
        * by intros ->.
      + cbn [normalizeScopes] in Hs. destruct (String.eqb_spec (TrimSpace ScopeOpenID) "") as [E|_]; [vm_compute in E; done|].
        cbn [existsb] in Hs. destruct (normalizeScopes _ _); [|done]. injection Hs as <-. by eexists. }
  destruct Hscopes as (scopes & -> & Hnd & Hin & Hall & rest & ->). cbn [conn_ID conn_Issuer conn_ClientID conn_RedirectURL conn_Scopes
    conn_RequireVerifiedEmail conn_ClientSecret]. rewrite !TrimSpace_TrimSpace, Hb.
  go_bool. split_and!; try done.
  assert (Hagain : normalizeScopes [] (ScopeOpenID :: ScopeOpenID :: rest) = Some (ScopeOpenID :: rest)); [|by rewrite Hagain].
  apply Forall_cons_1 in Hall as [_ Hrest]. apply list.NoDup_cons in Hnd as [Hx Hnd].
  cbn [normalizeScopes]. destruct (String.eqb_spec (TrimSpace ScopeOpenID) "") as [E|_]; [vm_compute in E; done|].
  change (existsb (String.eqb (TrimSpace ScopeOpenID)) []) with false. cbv iota.
  change (existsb (String.eqb (TrimSpace ScopeOpenID)) [TrimSpace ScopeOpenID]) with true. cbv iota.
  rewrite normalizeScopes_id; [done|done|done|]. intros y Hy. change (TrimSpace ScopeOpenID) with ScopeOpenID.
  intros ->%list_elem_of_singleton. done.
Qed.
End Connections.

Section Properties.
Context {S : Type} `{Env} `{GoTables} `{NetURL} (manager : Manager S).

Section Sound.
Context `{OIDCLibraries S} (oidc : oidcProtocol S) (wf0 : S -> Prop) (view : S -> pending).
Context `{!OIDCLibrariesContract oidc wf0 view} `{!OIDCBackend manager (protocol_wf oidc wf0) view}.

(** C30: An identity is vouched for only on a pending state that has not expired at a
    reading of the clock from the call on and that the answer uses up, by the
    connection its request began with, looked up again in the call and
    configured as it was then: in the call, the code was redeemed with the
    verifier of the request at an endpoint that was checked, the library verified
    the token for the client of the connection, and the token answers the request
    of the state: its issuer is the connection's and its nonce the challenge's. An
    email that has to be verified is. *)
Theorem sso_identity_vouched input id w w1 :
  protocol_wf oidc wf0 (ext w) -> manager_protocol manager = asProtocol oidc ->
  Complete manager input w = (Ok id, w1) ->
  exists h c conn pi n,
    HashToken (TrimSpace (input_State input)) = Ok h /\ view (ext w) !! h = Some c /\
    view (ext w1) = delete h (view (ext w)) /\ StateHash c = h /\
    ticks w <= n /\ (now manager n < ExpiresAt c)%Z /\
    found manager (protocol_wf oidc wf0) (ticks w) (ch_ConnectionID c) conn /\
    ch_Issuer c = conn_Issuer conn /\ ch_ClientID c = conn_ClientID conn /\ ch_RedirectURL c = conn_RedirectURL conn /\
    exchanged oidc (ticks w) conn (TrimSpace (input_Code input)) (CodeVerifier c) pi /\
    pi_Issuer pi = ch_Issuer c /\ pi_Nonce pi = ch_Nonce c /\
    id_ConnectionID id = ch_ConnectionID c /\ id_Issuer id = ch_Issuer c /\
    id_ProviderSubject id = TrimSpace (pi_ProviderSubject pi) /\ id_ProviderSubject id <> "" /\
    (ch_RequireVerifiedEmail c = true ->
       pi_EmailVerified pi = true /\ Normalize (pi_Email pi) = Ok (id_Email id) /\ id_Email id <> "").
Proof.
  intros Hwf Hp E. destruct (wp_elim _ _ _ _ _ (wp_oidc_Complete manager (protocol_wf oidc wf0) view input w Hwf) E)
    as (_ & n & h & c & conn & pi & w2 & w3 & Hn & Hh & Hc & Hs & Hvc & Hconn & Hm & _ & [Hwf2 Hps2] & Ht2 & Hex & Hiss & Hnonce & Hid).
  destruct Hid as (Hi1 & Hi2 & Hi3 & Hi4 & Hi5 & Hi6 & Hi7).
  rewrite Hp in Hex. destruct (wp_elim _ _ _ _ _ (wp_Exchange oidc wf0 view conn _ _ w2 Hwf2 Hps2) Hex) as (_ & _ & _ & Hpi).
  specialize (Hpi pi eq_refl). destruct (challengeMatches_true _ _ Hm) as (_ & Hm2 & Hm3 & Hm4 & _ & _).
  unfold validChallenge in Hvc. go_bool. exists h, c, conn, pi, n. split_and!; try done; [by eapply exchanged_earlier|].
  intros Hreq. destruct (Hi7 Hreq) as [Hver Hemail]. destruct Hi6 as [Hi6|Hi6]; [done|]. split_and!; try done. by rewrite <- Hi5.
Qed.
End Sound.

Section Use.
Context (wf : S -> Prop) (view : S -> pending) `{!OIDCBackend manager wf view}.

(** What answers do to the pending states. *)
Inductive answered : World S -> World S -> Prop :=
| answered_Complete input w : answered w (snd (Complete manager input w)).

Lemma answered_shrinks w w1 : answered w w1 -> wf (ext w) -> wf (ext w1) /\ view (ext w1) ⊆ view (ext w).
Proof.
  intros [input w2] Hwf. destruct (wp_oidc_Complete manager wf view input w2 Hwf) as [Hwf1 Hr]. split; [done|].
  destruct (fst _) as [id|e]; [destruct Hr as (n & h & c & conn & pi & w3 & w4 & _ & _ & _ & -> & _); apply delete_subseteq|].
  destruct Hr as [->|(h & _ & ->)]; [done|apply delete_subseteq].
Qed.

(** A state is good for one answer: once it has vouched for an identity, no later
    answer with it does, however many answers come between. *)
Theorem oidc_state_single_use input again id w w1 w2 :
  wf (ext w) -> Complete manager input w = (Ok id, w1) -> rtc answered w1 w2 ->
  TrimSpace (input_State again) = TrimSpace (input_State input) ->
  is_ok (fst (Complete manager again w2)) = false.
Proof.
  intros Hwf E Hcalls Hsame. destruct (wp_elim _ _ _ _ _ (wp_oidc_Complete manager wf view input w Hwf) E)
    as (Hwf1 & n & h & c & conn & pi & w3 & w4 & _ & Hh & Hc & Hs & _).
  destruct (used_up_stays wf view answered h w1 w2 answered_shrinks Hcalls Hwf1) as [Hwf2 Hgone];
    [by rewrite Hs, lookup_delete_eq|].
  destruct (wp_oidc_Complete manager wf view again w2 Hwf2) as [_ Hr].
  destruct (fst _) as [id2|e]; [|done]. destruct Hr as (n2 & h2 & c2 & conn2 & pi2 & w5 & w6 & _ & Hh2 & Hc2 & _).
  rewrite Hsame, Hh in Hh2. injection Hh2 as <-. congruence.
Qed.

(** A connection that stays as it was. *)
Lemma wp_findConnection_known raw conn id w :
  wf (ext w) -> (forall v, fst (connections manager id v) = Ok raw) -> normalizeConnection raw = Ok conn ->
  conn_ID conn = id -> wp (findConnection manager id) (fun r w' => wf (ext w') /\ r = Ok conn) w.
Proof.
  intros Hwf Hraw Hn Hid. unfold findConnection. wp_go.
  eapply wp_mono; [eapply wp_and; [by apply backend_connections|by apply (wp_fst _ (Ok raw))]|].
  intros r w1 [[Hwf1 _] ->]. rewrite Hn, Hid, String.eqb_refl. by wp_go.
Qed.

(** C40: A flow completes: what [Begin] stored answers for the provider's reply, as
    long as the store keeps it, the connection stays as it was and the challenge
    lasts. *)
Theorem Begin_then_Complete input started code pi email raw w w1 :
  (forall h c at_ v, wf (ext v) -> view (ext v) !! h = Some c -> (at_ < ExpiresAt c)%Z ->
     fst (store_ConsumeChallenge (store manager) h at_ v) = Ok c) ->
  (forall v, fst (connections manager (TrimSpace (begin_ConnectionID input)) v) = Ok raw) ->
  TrimSpace (conn_Issuer raw) <> "" -> TrimSpace (conn_RedirectURL raw) <> "" ->
  attemptGuard manager = None -> (0 < lifetime manager)%Z -> (forall n, 0 < now manager n)%Z ->
  (forall n, now manager n < started_ExpiresAt started)%Z ->
  wf (ext w) -> Begin manager input w = (Ok started, w1) -> TrimSpace code <> "" ->
  (forall h c conn v, HashToken (started_State started) = Ok h -> view (ext w1) !! h = Some c ->
     fst (protocol_Exchange (manager_protocol manager) conn (TrimSpace code) (CodeVerifier c) v) = Ok pi /\
     pi_Nonce pi = ch_Nonce c) ->
  pi_Issuer pi = TrimSpace (conn_Issuer raw) -> TrimSpace (pi_ProviderSubject pi) <> "" ->
  TrimSpace (pi_Email pi) <> "" -> Normalize (pi_Email pi) = Ok email -> email <> "" -> pi_EmailVerified pi = true ->
  fst (Complete manager (mkCompleteInput (started_State started) code "") w1) =
    Ok (mkIdentity (TrimSpace (begin_ConnectionID input)) (TrimSpace (conn_Issuer raw))
          (TrimSpace (pi_ProviderSubject pi)) email true (TrimSpace (pi_Name pi))).
Proof.
  intros Hstore Hconns Hiss Hred Hg Hlife Hnow Hlive Hwf E Hcode Hpi Hpiss Hsub Hem Hnorm Hne Hver.
  destruct (wp_elim _ _ _ _ _ (wp_oidc_Begin manager wf view input w Hwf) E)
    as (Hwf1 & conn & c & v1 & v2 & [Hid (raw' & u1 & u2 & _ & _ & Hfind & Hnc)] & _ & Hs & Hh & Hm & [n0 Hcr] & Hexp & Hsexp & Hnonce & Hverif & _ & _).
  assert (raw' = raw) as -> by (pose proof (Hconns u1) as Hr; rewrite Hfind in Hr; by injection Hr).
  assert (Hc : view (ext w1) !! StateHash c = Some c) by (rewrite Hs; apply lookup_insert_eq).
  destruct (normalizeConnection_fields _ _ Hnc) as (Hf1 & Hf2 & Hf3 & Hf4 & Hf5 & Hf6).
  destruct (challengeMatches_true _ _ Hm) as (Hm1 & Hm2 & Hm3 & Hm4 & Hm5 & Hm6).
  assert (Hvc : forall n, validChallenge c (StateHash c) (now manager n) = true).
  { intros n. unfold validChallenge. rewrite Hm1, Hm2, Hm3, Hm4, Hf1, Hf2, Hf3, Hf4, !TrimSpace_TrimSpace, String.eqb_refl.
    rewrite Hf1 in Hf5. rewrite Hf3 in Hf6. rewrite !(proj2 (String.eqb_neq _ _)) by done. simpl.
    rewrite <- Hsexp, (proj2 (Before_true _ _) (Hlive n)), Hsexp, Hexp, Hcr, (proj2 (After_true _ _));
      [|unfold Add; lia].
    destruct (IsZero _) eqn:Hz; [apply IsZero_true in Hz; specialize (Hnow n0); lia|done]. }
  match goal with |- fst (Complete _ ?i w1) = ?r => enough (wp (Complete manager i) (fun res _ => res = r) w1) by done end.
  destruct (HashToken_text _ _ Hh) as [Htext _].
  unfold Complete, checkAttempt. rewrite Hg. simpl input_State. simpl input_Code. simpl input_SourceKey. rewrite Htext, Hh.
  rewrite (proj2 (String.eqb_neq (TrimSpace code) "")) by done. wp_go.
  eapply wp_mono; [eapply wp_and; [by apply (pending_Consume_ok StateHash (store_CreateChallenge (store manager)) _ (wf := wf) (view := view))|]|].
  { apply (wp_fst _ (Ok c)), Hstore; [done..|]. rewrite <- Hsexp. apply Hlive. }
  intros r w2 [[Hwf2 _] ->]. rewrite Hvc. cbn [negb]. wp_go.
  eapply wp_mono; [by apply (wp_findConnection_known raw conn); rewrite ?Hm1, ?Hid|].
  intros r w3 [Hwf3 ->]. rewrite Hm. cbn [negb]. wp_go.
  destruct (Hpi _ _ conn w3 Hh Hc) as [Hex Hpn].
  eapply wp_mono; [by apply (wp_fst _ (Ok pi))|]. intros r w4 ->. wp_go.
  unfold acceptIdentity. rewrite Hpiss, <- Hf2, Hpn, !String.eqb_refl.
  rewrite (proj2 (String.eqb_neq (TrimSpace (pi_ProviderSubject pi)) "")) by done.
  rewrite (proj2 (String.eqb_neq (TrimSpace (pi_Email pi)) "")) by done.
  cbn [negb orb]. rewrite Hnorm. cbv beta iota zeta.
  rewrite (proj2 (String.eqb_neq email "")), Hver, andb_false_r by done. wp_go.
  eapply wp_mono; [by apply wp_run; intros ? ? E'; exact E'|]. intros [] w5 _. wp_go. by rewrite Hid.
Qed.
End Use.
End Properties.

(** ** Runs of the theorems *)
Ltac oidc_ok E := exfalso; vm_compute in E; discriminate E.

Lemma normalizeConnection_canonical_witness :
  exists c, normalizeConnection demo_connection = Ok c /\ conn_Scopes c = ["openid"; "email"] /\
    normalizeConnection c = Ok c.
Proof.
  destruct (normalizeConnection demo_connection) as [c|e] eqn:E; [|oidc_ok E].
  exists c. split; [reflexivity|].
  destruct (normalizeConnection_canonical demo_connection c E) as (_ & _ & _ & _ & _ & _ & _ & Hagain).
  split; [|exact Hagain]. vm_compute in E. injection E as <-. reflexivity.
Defined.

Lemma oidc_start_wf : demo_oidc_wf (ext oidc_start).
Proof. split; [done|]. intros i d Hd. done. Qed.

Lemma alice_begins_wf : demo_oidc_wf (ext (snd alice_begins)).
Proof.
  unfold alice_begins.
  by destruct (wp_oidc_Begin demo_oidc_manager demo_oidc_wf sso_pending (mkBeginInput " acme " "") oidc_start oidc_start_wf).
Qed.

Lemma sso_identity_vouched_witness :
  exists id w1 h c, Complete demo_oidc_manager alice_answer (snd alice_begins) = (Ok id, w1) /\
    HashToken (TrimSpace (input_State alice_answer)) = Ok h /\ sso_pending (ext (snd alice_begins)) !! h = Some c /\
    sso_pending (ext w1) = delete h (sso_pending (ext (snd alice_begins))) /\ id_Issuer id = ch_Issuer c.
Proof.
  destruct (Complete demo_oidc_manager alice_answer (snd alice_begins)) as [[id|e] w1] eqn:E; [|oidc_ok E].
  destruct (sso_identity_vouched demo_oidc_manager demo_oidc_protocol (fun _ => True) sso_pending alice_answer id
    (snd alice_begins) w1 alice_begins_wf eq_refl E)
    as (h & c & conn & pi & n & Hh & Hc & Hs & _ & _ & _ & _ & _ & _ & _ & _ & _ & _ & _ & Hiss & _).
  exists id, w1, h, c. exact (conj eq_refl (conj Hh (conj Hc (conj Hs Hiss)))).
Defined.

Lemma oidc_state_single_use_witness :
  is_ok (fst (Complete demo_oidc_manager alice_answer (snd alice_begins))) = true /\
  is_ok (fst (Complete demo_oidc_manager alice_answer
    (snd (Complete demo_oidc_manager alice_answer (snd (Complete demo_oidc_manager alice_answer (snd alice_begins))))))) = false.
Proof.
  destruct (Complete demo_oidc_manager alice_answer (snd alice_begins)) as [[id|e] w1] eqn:E; [|oidc_ok E].
  split; [reflexivity|].
  refine (oidc_state_single_use demo_oidc_manager demo_oidc_wf sso_pending alice_answer alice_answer id (snd alice_begins) w1 _
    alice_begins_wf E _ eq_refl).
  eapply rtc_l; [apply answered_Complete|apply rtc_refl].
Defined.

(** The manager with a clock that stands still. *)
Definition still_oidc_manager : Manager sso :=
  mkManager _ ref_oidc_store demo_connections (asProtocol demo_oidc_protocol) (10 * Minute)%Z None None (fun _ => demo_epoch).

Definition still_begins : result Started * World sso := Begin still_oidc_manager (mkBeginInput "acme" "") oidc_start.
Definition still_nonce : string :=
  match fst still_begins with
  | Ok started =>
      match HashToken (started_State started) with
      | Ok h => match sso_pending (ext (snd still_begins)) !! h with Some c => ch_Nonce c | None => "" end
      | Err _ => ""
      end
  | Err _ => ""
  end.

(** What the provider answers, whoever asks and however. *)
Definition still_protocol : protocol sso :=
  {| protocol_AuthorizationURL := AuthorizationURL demo_oidc_protocol;
     protocol_Exchange _ _ _ :=
       ret (Ok (mkProviderIdentity "https://idp.acme.com" "idp-alice" still_nonce "alice@example.com" true "Alice")) |}.

Definition answering_manager : Manager sso :=
  mkManager _ ref_oidc_store demo_connections still_protocol (10 * Minute)%Z None None (fun _ => demo_epoch).

#[export] Instance answering_backend : OIDCBackend answering_manager demo_oidc_wf sso_pending.
Proof.
  split; try done.
  - by apply ref_pending_contract.
  - intros. apply forward_consume.
  - intros. apply forward_ret.
  - intros. by apply leaves_AuthorizationURL, demo_libraries_contract.
Defined.

Definition answering_begins : result Started * World sso := Begin answering_manager (mkBeginInput "acme" "") oidc_start.

(** What [Begin] stored and returned. *)
Lemma answering_begun :
  match answering_begins with
  | (Ok started, w1) =>
      (demo_epoch <? started_ExpiresAt started)%Z &&
      match HashToken (started_State started) with
      | Ok h => match sso_pending (ext w1) !! h with Some c => String.eqb still_nonce (ch_Nonce c) | None => false end
      | Err _ => false
      end
  | _ => false
  end = true.
Proof. vm_compute. reflexivity. Qed.

Lemma Begin_then_Complete_witness :
  match answering_begins with
  | (Ok started, w1) =>
      fst (Complete answering_manager (mkCompleteInput (started_State started) "code" "") w1) =
        Ok (mkIdentity "acme" "https://idp.acme.com" "idp-alice" "alice@example.com" true "Alice")
  | _ => False
  end.
Proof.
  pose proof answering_begun as Hbegun. unfold answering_begins in *.
  destruct (Begin answering_manager (mkBeginInput "acme" "") oidc_start) as [[started|e] w1] eqn:E; [|discriminate Hbegun].
  apply andb_true_iff in Hbegun as [Hlive Hbegun]. apply Z.ltb_lt in Hlive.
  refine (Begin_then_Complete answering_manager demo_oidc_wf sso_pending (mkBeginInput "acme" "") started "code"
    (mkProviderIdentity "https://idp.acme.com" "idp-alice" still_nonce "alice@example.com" true "Alice")
    "alice@example.com" demo_connection oidc_start w1 _ _ _ _ _ _ _ _ oidc_start_wf E _ _ _ _ _ _ _ _);
    try done.
  - intros h c at_ v _ Hc Hlate. simpl. unfold ref_consume, lift_ext. simpl. rewrite Hc.
    by rewrite (proj2 (Before_true _ _)).
  - intros h c conn v Hh Hc. split; [reflexivity|]. rewrite Hh, Hc in Hbegun. by apply String.eqb_eq in Hbegun.
Defined.
