(* ===== verification/Saml.v ===== *)
(** * Package [saml] (saml/saml.go)

    Single sign-on with SAML, for service providers, over connections that the
    application configures. *)
From S2P Require Import Prelude GoText GoUrl Base64 GoJson Sha256 Token EmailAddress.

Definition requestAttempts : nat := 3.
Definition maxMetadataLength : Z := Z.shiftl 2 20.
Definition maxResponseLength : Z := Z.shiftl 2 20.

Definition ErrAttemptBlocked : error := New "saml.ErrAttemptBlocked".
Definition ErrConflict : error := New "saml.ErrConflict".
Definition ErrInactiveRequest : error := New "saml.ErrInactiveRequest".
Definition ErrInvalidConfig : error := New "saml.ErrInvalidConfig".
Definition ErrInvalidIdentity : error := New "saml.ErrInvalidIdentity".
Definition ErrInvalidInput : error := New "saml.ErrInvalidInput".
Definition ErrInvalidRecord : error := New "saml.ErrInvalidRecord".
Definition ErrInvalidResponse : error := New "saml.ErrInvalidResponse".
Definition ErrInvalidState : error := New "saml.ErrInvalidState".
Definition ErrNotFound : error := New "saml.ErrNotFound".

(** ** Data *)

(** A [crypto.Signer], by its dynamic type, its public key and what it keeps. *)
Inductive signer_type : Type := rsa_PrivateKey | ecdsa_PrivateKey | other_signer.
Record Signer : Type := mkSigner { dynamic_type : signer_type; signer_Public : string; signer_secret : string }.

(** An [x509.Certificate]: what the package reads of it. *)
Record X509Certificate : Type := mkCertificate {
  NotBefore : time;
  NotAfter : time;
  Raw : string;
  RawSubjectPublicKeyInfo : string;
}.

Record Connection : Type := mkConnection {
  conn_ID : string;
  EntityID : string;
  MetadataURL : string;
  ACSURL : string;
  IDPMetadata : string;
  PrivateKey : option Signer;
  Certificate : option X509Certificate;
  SubjectAttribute : string;
  EmailAttribute : string;
  NameAttribute : string;
  RequireEmail : bool;
  ForceAuthn : bool;
}.

(** The interface [ConnectionSource] has one method, [Find]. *)
Definition ConnectionSource (S : Type) : Type := string -> M S (result Connection).

Record Request : Type := mkRequest {
  StateHash : Hash;
  req_ConnectionID : string;
  ConnectionHash : string;
  RequestID : string;
  CreatedAt : time;
  ExpiresAt : time;
}.

Record Store (S : Type) : Type := mkStore {
  store_CreateRequest : Request -> M S (result unit);
  store_ConsumeRequest : Hash -> time -> M S (result Request);
}.
Arguments store_CreateRequest {S}. Arguments store_ConsumeRequest {S}.

Inductive Operation : Type := OperationBegin | OperationComplete.

Record Attempt : Type := mkAttempt {
  attempt_Operation : Operation;
  attempt_ConnectionID : string;
  attempt_SourceKey : string;
}.

Definition AttemptGuard (S : Type) : Type := Attempt -> M S (result unit).

Inductive EventType : Type := EventAuthenticationFailed | EventAuthenticationSucceeded.

Record SecurityEvent : Type := mkEvent {
  event_Type : EventType;
  event_ConnectionID : string;
  event_ProviderSubject : string;
  event_SourceKey : string;
  event_OccurredAt : time;
}.

Definition SecurityEventSink (S : Type) : Type := SecurityEvent -> M S unit.

Record BeginInput : Type := mkBeginInput { begin_ConnectionID : string; begin_SourceKey : string }.
Record Started : Type := mkStarted { started_AuthorizationURL : string; started_State : string; started_ExpiresAt : time }.
Record CompleteInput : Type := mkCompleteInput { input_State : string; input_SAMLResponse : string; input_SourceKey : string }.

Record Identity : Type := mkIdentity {
  id_ConnectionID : string;
  id_Issuer : string;
  id_ProviderSubject : string;
  id_SubjectFormat : string;
  id_Email : string;
  id_Name : string;
  id_SessionIndex : string;
}.

Record providerIdentity : Type := mkProviderIdentity {
  pi_Issuer : string;
  pi_ProviderSubject : string;
  pi_SubjectFormat : string;
  pi_Email : string;
  pi_Name : string;
  pi_SessionIndex : string;
}.

(** ** The interface [protocol] *)
Record protocol (S : Type) : Type := mkProtocol {
  (* connection, state; the authorization URL and the identifier of the request *)
  protocol_Begin : Connection -> string -> M S (result (string * string));
  (* connection, identifier of the request, response *)
  protocol_Complete : Connection -> string -> string -> M S (result providerIdentity);
  protocol_Metadata : Connection -> M S (result string);
}.
Arguments protocol_Begin {S}. Arguments protocol_Complete {S}. Arguments protocol_Metadata {S}.

(** ** Connections *)

(** [x509.MarshalPKIXPublicKey] *)
Class X509 := { MarshalPKIXPublicKey : string -> result string }.

Definition validHTTPSURL `{NetURL} (rawURL : string) : bool :=
  match url_Parse rawURL with
  | None => false
  | Some parsed =>
      String.eqb (Scheme parsed) "https" && negb (String.eqb (Host parsed) "") && negb (has_User parsed) &&
      String.eqb (Fragment parsed) ""
  end.

Definition keyMatchesCertificate `{X509} (key : Signer) (certificate : X509Certificate) : bool :=
  match MarshalPKIXPublicKey (signer_Public key) with
  | Ok keyBytes => String.eqb keyBytes (RawSubjectPublicKeyInfo certificate)
  | Err _ => false
  end.

Definition supportedKey (key : Signer) : bool :=
  match dynamic_type key with
  | rsa_PrivateKey | ecdsa_PrivateKey => true
  | other_signer => false
  end.

Definition byte_len (s : string) : Z := Z.of_nat (String.length s).

Definition normalizeConnection `{NetURL} `{X509} (connection : Connection) : result Connection :=
  let connection := mkConnection (TrimSpace (conn_ID connection)) (TrimSpace (EntityID connection))
    (TrimSpace (MetadataURL connection)) (TrimSpace (ACSURL connection)) (IDPMetadata connection)
    (PrivateKey connection) (Certificate connection) (TrimSpace (SubjectAttribute connection))
    (TrimSpace (EmailAttribute connection)) (TrimSpace (NameAttribute connection))
    (RequireEmail connection) (ForceAuthn connection) in
  if String.eqb (conn_ID connection) "" || String.eqb (EntityID connection) "" ||
     negb (validHTTPSURL (MetadataURL connection)) || negb (validHTTPSURL (ACSURL connection)) ||
     (byte_len (IDPMetadata connection) =? 0)%Z || (maxMetadataLength <? byte_len (IDPMetadata connection))%Z ||
     match PrivateKey connection with
     | None => true
     | Some key =>
         negb (supportedKey key) ||
         match Certificate connection with
         | None => true
         | Some certificate => negb (keyMatchesCertificate key certificate)
         end
     end
  then Err ErrInvalidConfig else Ok connection.

(** What is hashed of a connection: the struct [configuration] as JSON, of a
    connection that has a certificate. *)
Definition configuration (connection : Connection) (certificate : X509Certificate) : string :=
  json_Marshal_struct
    [("ID", JString (conn_ID connection)); ("EntityID", JString (EntityID connection));
     ("MetadataURL", JString (MetadataURL connection)); ("ACSURL", JString (ACSURL connection));
     ("IDPMetadata", JBytes (IDPMetadata connection)); ("Certificate", JBytes (Raw certificate));
     ("SubjectAttribute", JString (SubjectAttribute connection));
     ("EmailAttribute", JString (EmailAttribute connection)); ("NameAttribute", JString (NameAttribute connection));
     ("RequireEmail", JBool (RequireEmail connection)); ("ForceAuthn", JBool (ForceAuthn connection))].

(** The encoding has no errors. A connection is hashed when it was found, and so
    has a certificate: without one the code would panic. *)
Definition ErrNilCertificate : error := New "nil dereference".

Definition hashConnection (connection : Connection) : result string :=
  match Certificate connection with
  | None => Err ErrNilCertificate
  | Some certificate => Ok (Sum256 (configuration connection certificate))
  end.

Definition zero_hash : string := string_of_list (repeat (ascii_of_N 0) 32).

Definition validRequest (request : Request) (expectedHash : Hash) (now : time) : bool :=
  String.eqb (StateHash request) expectedHash &&
  negb (String.eqb (TrimSpace (req_ConnectionID request)) "") &&
  negb (String.eqb (ConnectionHash request) zero_hash) &&
  negb (String.eqb (TrimSpace (RequestID request)) "") &&
  negb (IsZero (CreatedAt request)) && After (ExpiresAt request) (CreatedAt request) &&
  Before now (ExpiresAt request).

(** ** The library github.com/crewjam/saml

    The parts of an assertion that the package reads. *)
Record NameID : Type := mkNameID { nameid_Format : string; nameid_Value : string }.
Record SubjectElement : Type := mkSubject { subject_NameID : option NameID }.
Record AttributeElement : Type := mkAttribute {
  attribute_FriendlyName : string;
  attribute_Name : string;
  (* the [Value] of each of the values *)
  attribute_Values : list string;
}.
Record Assertion : Type := mkAssertion {
  (* [Issuer.Value] *)
  assertion_Issuer : string;
  assertion_Subject : option SubjectElement;
  (* the [SessionIndex] of each statement *)
  assertion_AuthnStatements : list string;
  (* the [Attributes] of each statement *)
  assertion_AttributeStatements : list (list AttributeElement);
}.

(** The fields of [ServiceProvider] that the package sets; the others keep their
    zero values. *)
Record ServiceProvider (Metadata : Type) : Type := mkServiceProvider {
  sp_EntityID : string;
  sp_Key : option Signer;
  sp_Certificate : option X509Certificate;
  sp_MetadataURL : URL;
  sp_AcsURL : URL;
  sp_IDPMetadata : Metadata;
  sp_AuthnNameIDFormat : string;
  sp_ForceAuthn : option bool;
  sp_SignatureMethod : string;
  sp_AllowIDPInitiated : bool;
}.
Arguments mkServiceProvider {Metadata}. Arguments sp_EntityID {Metadata}. Arguments sp_Key {Metadata}.
Arguments sp_Certificate {Metadata}. Arguments sp_MetadataURL {Metadata}. Arguments sp_AcsURL {Metadata}.
Arguments sp_IDPMetadata {Metadata}. Arguments sp_AuthnNameIDFormat {Metadata}. Arguments sp_ForceAuthn {Metadata}.
Arguments sp_SignatureMethod {Metadata}. Arguments sp_AllowIDPInitiated {Metadata}.

Class SAMLLibraries (S : Type) := {
  EntityDescriptor : Type;
  AuthnRequest : Type;
  HTTPRedirectBinding : string;
  HTTPPostBinding : string;
  PersistentNameIDFormat : string;
  RSASHA256SignatureMethod : string;
  ECDSASHA256SignatureMethod : string;
  (* [samlsp.ParseMetadata] *)
  samlsp_ParseMetadata : string -> result EntityDescriptor;
  sp_GetSSOBindingLocation : ServiceProvider EntityDescriptor -> string -> string;
  (* [sp.MakeAuthenticationRequest(destination, binding, resultBinding)]: it reads the clock and random bytes *)
  sp_MakeAuthenticationRequest : ServiceProvider EntityDescriptor -> string -> string -> string -> M S (result AuthnRequest);
  authn_ID : AuthnRequest -> string;
  (* [request.Redirect(relayState, sp)]: it signs *)
  authn_Redirect : AuthnRequest -> string -> ServiceProvider EntityDescriptor -> M S (result URL);
  (* [sp.ParseResponse(request, possibleRequestIDs)]: the pointer may be nil *)
  sp_ParseResponse : ServiceProvider EntityDescriptor -> HTTPRequest -> list string -> M S (result (option Assertion));
  sp_Metadata : ServiceProvider EntityDescriptor -> M S EntityDescriptor;
  (* [xml.MarshalIndent(metadata, "", "  ")] *)
  xml_MarshalIndent : EntityDescriptor -> result string;
}.

Definition xml_quoted (s : string) : string := String quote_byte (s +:+ String quote_byte EmptyString).

(** [xml.Header] *)
Definition xml_Header : string :=
  "<?xml version=" +:+ xml_quoted "1.0" +:+ " encoding=" +:+ xml_quoted "UTF-8" +:+ "?>" +:+ String (ascii_of_N 10) "".

(** ** Assertions *)

(** The first value that is not blank. *)
Fixpoint first_value (values : list string) : option string :=
  match values with
  | [] => None
  | value :: values => if String.eqb (TrimSpace value) "" then first_value values else Some (TrimSpace value)
  end.

Fixpoint attribute_in (name : string) (candidates : list AttributeElement) : option string :=
  match candidates with
  | [] => None
  | candidate :: candidates =>
      if negb (String.eqb (attribute_Name candidate) name) && negb (String.eqb (attribute_FriendlyName candidate) name)
      then attribute_in name candidates else
      match first_value (attribute_Values candidate) with
      | Some value => Some value
      | None => attribute_in name candidates
      end
  end.

Fixpoint attribute_of (name : string) (statements : list (list AttributeElement)) : option string :=
  match statements with
  | [] => None
  | statement :: statements =>
      match attribute_in name statement with
      | Some value => Some value
      | None => attribute_of name statements
      end
  end.

Definition attribute (assertion : Assertion) (name : string) : string :=
  if String.eqb (TrimSpace name) "" then "" else
  default "" (attribute_of name (assertion_AttributeStatements assertion)).

Section Protocol.
Context {S : Type} `{NetURL} `{SAMLLibraries S}.

Definition signingMethod (key : option Signer) : string :=
  match key with
  | Some key =>
      match dynamic_type key with
      | rsa_PrivateKey => RSASHA256SignatureMethod
      | ecdsa_PrivateKey => ECDSASHA256SignatureMethod
      | other_signer => ""
      end
  | None => ""
  end.

Definition serviceProvider (connection : Connection) : result (ServiceProvider EntityDescriptor) :=
  match samlsp_ParseMetadata (IDPMetadata connection) with
  | Err err => Err err
  | Ok metadata =>
      match url_Parse (MetadataURL connection) with
      | None => Err ErrParse
      | Some metadataURL =>
          match url_Parse (ACSURL connection) with
          | None => Err ErrParse
          | Some acsURL =>
              Ok (mkServiceProvider (EntityID connection) (PrivateKey connection) (Certificate connection)
                    metadataURL acsURL metadata PersistentNameIDFormat (Some (ForceAuthn connection))
                    (signingMethod (PrivateKey connection)) false)
          end
      end
  end.

(** The subject and its format. *)
Definition subjectOf (connection : Connection) (assertion : Assertion) : result (string * string) :=
  if negb (String.eqb (SubjectAttribute connection) "")
  then Ok (attribute assertion (SubjectAttribute connection), "attribute:" +:+ SubjectAttribute connection)
  else
  match assertion_Subject assertion with
  | None => Err ErrInvalidIdentity
  | Some subject =>
      match subject_NameID subject with
      | None => Err ErrInvalidIdentity
      | Some nameID =>
          if negb (String.eqb (TrimSpace (nameid_Format nameID)) PersistentNameIDFormat)
          then Err ErrInvalidIdentity
          else Ok (TrimSpace (nameid_Value nameID), TrimSpace (nameid_Format nameID))
      end
  end.

Definition identityFromAssertion (connection : Connection) (assertion : option Assertion) : result providerIdentity :=
  match assertion with
  | None => Err ErrInvalidIdentity
  | Some assertion =>
      match subjectOf connection assertion with
      | Err err => Err err
      | Ok (subject, subjectFormat) =>
          if String.eqb subject "" then Err ErrInvalidIdentity else
          let sessionIndex := List.hd "" (assertion_AuthnStatements assertion) in
          Ok (mkProviderIdentity (TrimSpace (assertion_Issuer assertion)) subject subjectFormat
                (attribute assertion (EmailAttribute connection)) (attribute assertion (NameAttribute connection))
                sessionIndex)
      end
  end.

Definition samlProtocol_Begin (connection : Connection) (state : string) : M S (result (string * string)) :=
  serviceProvider <-? ret (serviceProvider connection) ;;
  let destination := sp_GetSSOBindingLocation serviceProvider HTTPRedirectBinding in
  if String.eqb (TrimSpace destination) "" then ret (Err ErrInvalidConfig) else
  request <-? sp_MakeAuthenticationRequest serviceProvider destination HTTPRedirectBinding HTTPPostBinding ;;
  redirect <-? authn_Redirect request state serviceProvider ;;
  ret (Ok (url_String redirect, authn_ID request)).

(** The form in which the response is handed to the library. *)
Definition response_form (response : string) : Values := {[ "SAMLResponse" := [response] ]}.

Definition samlProtocol_Complete (connection : Connection) (requestID response : string) : M S (result providerIdentity) :=
  serviceProvider <-? ret (serviceProvider connection) ;;
  request <-? ret (http_NewRequest (ACSURL connection) (Encode (response_form response))) ;;
  let request := set_ContentType form_type request in
  request <-? ret (ParseForm request) ;;
  assertion <-? sp_ParseResponse serviceProvider request [requestID] ;;
  ret (identityFromAssertion connection assertion).

Definition samlProtocol_Metadata (connection : Connection) : M S (result string) :=
  serviceProvider <-? ret (serviceProvider connection) ;;
  descriptor <- sp_Metadata serviceProvider ;;
  metadata <-? ret (xml_MarshalIndent descriptor) ;;
  ret (Ok (xml_Header +:+ metadata)).

Definition samlProtocol : protocol S :=
  {| protocol_Begin := samlProtocol_Begin;
     protocol_Complete := samlProtocol_Complete;
     protocol_Metadata := samlProtocol_Metadata |}.
End Protocol.

(** ** The manager *)
Record Config (S : Type) : Type := mkConfig {
  c_RequestLifetime : duration;
  c_AttemptGuard : option (AttemptGuard S);
  c_SecurityEvents : option (SecurityEventSink S);
  c_Now : option (nat -> time);
}.
Arguments c_RequestLifetime {S}. Arguments c_AttemptGuard {S}. Arguments c_SecurityEvents {S}. Arguments c_Now {S}.

Record Manager (S : Type) : Type := mkManager {
  store : Store S;
  connections : ConnectionSource S;
  manager_protocol : protocol S;
  lifetime : duration;
  attemptGuard : option (AttemptGuard S);
  securityEvents : option (SecurityEventSink S);
  now : nat -> time;
}.
Arguments store {S}. Arguments connections {S}. Arguments manager_protocol {S}. Arguments lifetime {S}.
Arguments attemptGuard {S}. Arguments securityEvents {S}. Arguments now {S}.

Section Operations.
Context {S : Type} `{Env} `{GoTables} `{NetURL} `{X509}.

Definition NewManager `{SAMLLibraries S} (store : option (Store S)) (connections : option (ConnectionSource S))
    (config : Config S) : result (Manager S) :=
  match store, connections with
  | Some store, Some connections =>
      if (c_RequestLifetime config <=? 0)%Z
      then Err (Errorf "%w: request lifetime must be positive" [ErrInvalidConfig]) else
      let now := default time_Now (c_Now config) in
      Ok (mkManager S store connections samlProtocol (c_RequestLifetime config)
            (c_AttemptGuard config) (c_SecurityEvents config) now)
  | _, _ => Err (Errorf "%w: store and connections are required" [ErrInvalidConfig])
  end.

(** The certificate is in force. *)
Definition in_force (certificate : option X509Certificate) (now : time) : bool :=
  match certificate with
  | None => false
  | Some certificate => negb (Before now (NotBefore certificate) || negb (Before now (NotAfter certificate)))
  end.

Definition findConnection (manager : Manager S) (connectionID : string) : M S (result Connection) :=
  if String.eqb connectionID "" then ret (Err ErrInvalidInput) else
  r <- connections manager connectionID ;;
  match r with
  | Err err =>
      if errors_Is err ErrNotFound then ret (Err ErrNotFound)
      else ret (Err (Errorf "find SAML connection: %w" [err]))
  | Ok connection =>
      match normalizeConnection connection with
      | Err _ => ret (Err ErrInvalidConfig)
      | Ok connection =>
          if negb (String.eqb (conn_ID connection) connectionID) then ret (Err ErrInvalidConfig) else
          now <- read_now (now manager) ;;
          if negb (in_force (Certificate connection) now) then ret (Err ErrInvalidConfig) else
          ret (Ok connection)
      end
  end.

Definition checkAttempt (manager : Manager S) (attempt : Attempt) : M S (result unit) :=
  match attemptGuard manager with
  | None => ret (Ok tt)
  | Some check => wrapped "check SAML attempt: %w" (check attempt)
  end.

Definition record (manager : Manager S) (eventType : EventType) (connectionID providerSubject sourceKey : string) :
    M S unit :=
  match securityEvents manager with
  | None => ret tt
  | Some sink =>
      at_ <- read_now (now manager) ;;
      sink (mkEvent eventType connectionID providerSubject sourceKey at_)
  end.

Definition Begin (manager : Manager S) (input : BeginInput) : M S (result Started) :=
  let connectionID := TrimSpace (begin_ConnectionID input) in
  if String.eqb connectionID "" then ret (Err ErrInvalidInput) else
  _ <-? checkAttempt manager (mkAttempt OperationBegin connectionID (begin_SourceKey input)) ;;
  connection <-? findConnection manager connectionID ;;
  match hashConnection connection with
  | Err _ => ret (Err ErrInvalidConfig)
  | Ok connectionHash =>
      for_range requestAttempts
        (r <- (generated <-? wrapped "generate SAML state: %w" Generate ;;
               let '(state, stateHash) := generated in
               began <-? wrapped "create SAML authentication request: %w"
                 (protocol_Begin (manager_protocol manager) connection state) ;;
               let '(authorizationURL, requestID) := began in
               if String.eqb (TrimSpace requestID) "" then ret (Err ErrInvalidRecord) else
               now <- read_now (now manager) ;;
               let request := mkRequest stateHash (conn_ID connection) connectionHash requestID now
                 (Add now (lifetime manager)) in
               ret (Ok (authorizationURL, state, request))) ;;
         match r with
         | Err err => ret (Return (Err err))
         | Ok (authorizationURL, state, request) =>
             r <- store_CreateRequest (store manager) request ;;
             match r with
             | Err err =>
                 if errors_Is err ErrConflict then ret (Next tt)
                 else ret (Return (Err (Errorf "store SAML request: %w" [err])))
             | Ok _ => ret (Return (Ok (mkStarted authorizationURL state (ExpiresAt request))))
             end
         end)
        (ret (Err (Errorf "create unique SAML state: %w" [ErrConflict])))
  end.

(** What [Complete] makes of the identity the provider gave. *)
Definition acceptIdentity (manager : Manager S) (connection : Connection) (identity : providerIdentity)
    (sourceKey : string) : M S (result Identity) :=
  let providerSubject := TrimSpace (pi_ProviderSubject identity) in
  if String.eqb providerSubject "" || String.eqb (TrimSpace (pi_Issuer identity)) ""
  then ret (Err ErrInvalidIdentity) else
  match (if negb (String.eqb (TrimSpace (pi_Email identity)) "") then Normalize (pi_Email identity) else Ok "") with
  | Err _ => ret (Err ErrInvalidIdentity)
  | Ok email =>
      if RequireEmail connection && String.eqb email "" then ret (Err ErrInvalidIdentity) else
      let identity := mkIdentity (conn_ID connection) (pi_Issuer identity) providerSubject
        (pi_SubjectFormat identity) email (TrimSpace (pi_Name identity)) (TrimSpace (pi_SessionIndex identity)) in
      _ <- record manager EventAuthenticationSucceeded (conn_ID connection) providerSubject sourceKey ;;
      ret (Ok identity)
  end.

Definition Complete (manager : Manager S) (input : CompleteInput) : M S (result Identity) :=
  _ <-? checkAttempt manager (mkAttempt OperationComplete "" (input_SourceKey input)) ;;
  let refused connectionID err :=
    (_ <- record manager EventAuthenticationFailed connectionID "" (input_SourceKey input) ;; ret (Err err)) in
  match HashToken (TrimSpace (input_State input)) with
  | Err _ => refused "" ErrInvalidState
  | Ok stateHash =>
      if String.eqb (TrimSpace (input_SAMLResponse input)) "" || (maxResponseLength <? byte_len (input_SAMLResponse input))%Z
      then refused "" ErrInvalidResponse else
      now <- read_now (now manager) ;;
      r <- store_ConsumeRequest (store manager) stateHash now ;;
      match r with
      | Err err =>
          if errors_Is err ErrNotFound || errors_Is err ErrInactiveRequest then refused "" ErrInvalidState
          else ret (Err (Errorf "consume SAML request: %w" [err]))
      | Ok request =>
          if negb (validRequest request stateHash now) then ret (Err ErrInvalidRecord) else
          r <- findConnection manager (req_ConnectionID request) ;;
          match r with
          | Err err =>
              if errors_Is err ErrNotFound || errors_Is err ErrInvalidConfig then ret (Err ErrInvalidState)
              else ret (Err err)
          | Ok connection =>
              if negb (match hashConnection connection with
                       | Ok connectionHash => String.eqb connectionHash (ConnectionHash request)
                       | Err _ => false
                       end) then ret (Err ErrInvalidState) else
              r <- protocol_Complete (manager_protocol manager) connection (RequestID request) (input_SAMLResponse input) ;;
              match r with
              | Err _ => refused (conn_ID connection) ErrInvalidResponse
              | Ok providerIdentity => acceptIdentity manager connection providerIdentity (input_SourceKey input)
              end
          end
      end
  end.

Definition Metadata (manager : Manager S) (connectionID : string) : M S (result string) :=
  connection <-? findConnection manager (TrimSpace connectionID) ;;
  wrapped "create SAML metadata: %w" (protocol_Metadata (manager_protocol manager) connection).
End Operations.
