(* ===== verification/SamlSpec.v ===== *)
(** * What SAML sign-on promises

    The pending requests behind package [saml], the contract of its store and of
    the libraries, and the effect of its operations. *)
From S2P Require Import Prelude GoText GoUrl Base64 GoJson Sha256 Token EmailAddress SsoSpec Saml.
From S2P Require GoogleOAuthSpec.

(** Pending requests by the hash of their state. *)
Abbreviation pending := (gmap string Request).

Section Contract.
Context {S : Type}.

Class SAMLBackend (manager : Manager S) (wf : S -> Prop) (view : S -> pending) : Prop := {
  backend_store :: PendingContract StateHash (store_CreateRequest (store manager)) (store_ConsumeRequest (store manager)) wf view;
  backend_Consume_forward h at_ : forward (store_ConsumeRequest (store manager) h at_);
  backend_connections id : leaves wf view (connections manager id);
  backend_connections_forward id : forward (connections manager id);
  backend_Begin c state : leaves wf view (protocol_Begin (manager_protocol manager) c state);
  backend_Complete c id response : leaves wf view (protocol_Complete (manager_protocol manager) c id response);
  backend_guard g a : attemptGuard manager = Some g -> leaves wf view (g a);
  backend_guard_forward g a : attemptGuard manager = Some g -> forward (g a);
  backend_events e a : securityEvents manager = Some e -> leaves wf view (e a);
}.
End Contract.

(** ** The protocol over the library *)
Section Protocol.
Context {S : Type} `{NetURL} `{SAMLLibraries S} (wf : S -> Prop) (view : S -> pending).

(** The library knows nothing of the requests. *)
Class SAMLLibrariesContract : Prop := {
  library_MakeAuthenticationRequest sp d b r : leaves wf view (sp_MakeAuthenticationRequest sp d b r);
  library_Redirect request state sp : leaves wf view (authn_Redirect request state sp);
  library_ParseResponse sp request ids : leaves wf view (sp_ParseResponse sp request ids);
}.

Context `{!SAMLLibrariesContract}.

Lemma leaves_samlProtocol_Begin c state : leaves wf view (samlProtocol_Begin c state).
Proof.
  intros w Hwf. unfold samlProtocol_Begin. destruct (serviceProvider c) as [sp|e]; wp_go; try done.
  eapply wp_mono; [by apply library_MakeAuthenticationRequest|]. intros [request|e] w1 [Hwf1 Hv1]; wp_go; [|done].
  eapply wp_mono; [by apply library_Redirect|]. intros [u|e] w2 [Hwf2 Hv2]; wp_go; by rewrite Hv2.
Qed.

(** The form of a response carries it unchanged. *)
Lemma ParseQuery_response response : ParseQuery (Encode (response_form response)) = response_form response.
Proof. apply ParseQuery_Encode. unfold response_form. by intros k vs [<- <-]%lookup_singleton_Some. Qed.

(** Where an identity comes from: from the reading [start] on, the library
    accepted the response, posted to the address of the connection, as the answer
    to the one request named. *)
Definition responded (start : nat) (c : Connection) (requestID response : string) (pi : providerIdentity) : Prop :=
  exists sp request assertion w1 w2,
    start <= ticks w1 /\ serviceProvider c = Ok sp /\ sp_AllowIDPInitiated sp = false /\
    sp_ParseResponse sp request [requestID] w1 = (Ok (Some assertion), w2) /\
    req_PostForm request = response_form response /\
    (exists acs, url_Parse (ACSURL c) = Some acs /\ req_URL request = set_Host (removeEmptyPort (Host acs)) acs) /\
    identityFromAssertion c (Some assertion) = Ok pi.

Lemma serviceProvider_solicited c sp : serviceProvider c = Ok sp -> sp_AllowIDPInitiated sp = false.
Proof.
  unfold serviceProvider. destruct (samlsp_ParseMetadata _); [|done].
  destruct (url_Parse _); [|done]. destruct (url_Parse _); [|done]. by intros [= <-].
Qed.

Lemma ParseForm_post r r' : ParseForm r = Ok r' -> req_ContentType r = form_type ->
  req_PostForm r' = ParseQuery (req_Body r) /\ req_URL r' = req_URL r.
Proof.
  unfold ParseForm. intros Hr Ht. rewrite Ht, String.eqb_refl in Hr. destruct (_ && _); [done|]. destruct (negb _); [done|].
  by injection Hr as <-.
Qed.

Lemma wp_samlProtocol_Complete c requestID response w :
  wf (ext w) ->
  wp (samlProtocol_Complete c requestID response) (fun res w' => wf (ext w') /\ view (ext w') = view (ext w) /\
    forall pi, res = Ok pi -> responded (ticks w) c requestID response pi) w.
Proof.
  intros Hwf. unfold samlProtocol_Complete. destruct (serviceProvider c) as [sp|e] eqn:Hsp; wp_go; [|done].
  destruct (http_NewRequest _ _) as [posted|e] eqn:Hr; wp_go; [|done].
  destruct (ParseForm _) as [request|e] eqn:Hf; wp_go; [|done].
  eapply wp_mono; [eapply wp_and; [by apply library_ParseResponse|by apply wp_run; intros ? ? E; exact E]|].
  intros [a|e] w1 [[Hwf1 Hv1] E]; wp_go; [|done]. split_and!; [done..|]. intros pi Hpi.
  destruct a as [a|]; [|done]. destruct (ParseForm_post _ _ Hf eq_refl) as [Hpost Hurl].
  unfold http_NewRequest in Hr. destruct (url_Parse (ACSURL c)) as [acs|] eqn:Hacs; [injection Hr as <-|done].
  exists sp, request, a, w, w1. do 2 (split; [done|]). split; [by eapply serviceProvider_solicited|]. split; [exact E|].
  split; [rewrite Hpost; apply ParseQuery_response|]. split; [|exact Hpi].
  exists acs. split; [exact Hacs|exact Hurl].
Qed.

Lemma leaves_samlProtocol_Complete c requestID response : leaves wf view (samlProtocol_Complete c requestID response).
Proof. intros w Hwf. eapply wp_mono; [by apply wp_samlProtocol_Complete|]. by intros r w' (? & ? & _). Qed.
End Protocol.

(** ** The effect of the operations *)
Section Refinement.
Context {S : Type} `{Env} `{GoTables} `{NetURL} `{X509} (manager : Manager S).
Context (wf : S -> Prop) (view : S -> pending) `{!SAMLBackend manager wf view}.

Abbreviation abs w := (view (ext w)).

Lemma wp_saml_record e connection subject source w :
  wf (ext w) -> wp (record manager e connection subject source) (fun _ w' => wf (ext w') /\ abs w' = abs w) w.
Proof.
  intros Hwf. unfold record. destruct (securityEvents manager) as [sink|] eqn:He; wp_go; [|done].
  eapply wp_mono; [by eapply backend_events|]. done.
Qed.

Lemma wp_saml_checkAttempt a w :
  wf (ext w) -> wp (checkAttempt manager a) (fun _ w' => (wf (ext w') /\ abs w' = abs w) /\ ticks w <= ticks w') w.
Proof.
  intros Hwf. unfold checkAttempt. destruct (attemptGuard manager) as [g|] eqn:Hg; wp_go; [|done].
  eapply wp_mono; [apply wp_forward; [by eapply backend_guard_forward|by eapply backend_guard]|]. done.
Qed.

(** A connection that was found, looked up from the reading [start] on: configured
    under the identifier, normalized, its certificate in force at a reading from
    [start] on. *)
Definition found (start : nat) (id : string) (c : Connection) : Prop :=
  conn_ID c = id /\ (exists n, start <= n /\ in_force (Certificate c) (now manager n) = true) /\
  exists raw w1 w2, wf (ext w1) /\ start <= ticks w1 /\
    connections manager id w1 = (Ok raw, w2) /\ normalizeConnection raw = Ok c.

Lemma saml_found_earlier start start' id c : found start id c -> start' <= start -> found start' id c.
Proof.
  intros (Hid & (n & Hn & Hf) & raw & w1 & w2 & Hwf & Hs & Hc) Hle. split; [done|]. split; [exists n; split; [lia|done]|].
  exists raw, w1, w2. split_and!; [done|lia|by apply Hc..].
Qed.

Lemma wp_saml_findConnection id w :
  wf (ext w) ->
  wp (findConnection manager id) (fun res w' => (wf (ext w') /\ abs w' = abs w) /\ ticks w <= ticks w' /\ forall c, res = Ok c -> found (ticks w) id c) w.
Proof.
  intros Hwf. unfold findConnection. wp_go; [by split_and!|].
  eapply wp_mono; [apply wp_forward; [apply backend_connections_forward|];
    eapply wp_and; [by apply backend_connections|by apply wp_run; intros ? ? E; exact E]|].
  intros r w1 [[[Hwf1 Hv1] E] Ht1]. wp_go; split_and!; try done; try (cbn [ticks tick]; lia). intros c [= <-]. go_bool. split; [done|].
  split; [by exists (ticks w1)|]. eexists _, w, w1. by split_and!.
Qed.

(** The request behind an authorization request. *)
Definition begun (start : nat) (id : string) (started : Started) (s s' : pending) : Prop :=
  exists conn r w1 w2,
    found start id conn /\ s !! StateHash r = None /\ s' = <[StateHash r := r]> s /\
    HashToken (started_State started) = Ok (StateHash r) /\ req_ConnectionID r = id /\
    hashConnection conn = Ok (ConnectionHash r) /\
    (exists n, CreatedAt r = now manager n) /\ ExpiresAt r = Add (CreatedAt r) (lifetime manager) /\
    started_ExpiresAt started = ExpiresAt r /\ TrimSpace (RequestID r) <> "" /\ wf (ext w1) /\
    protocol_Begin (manager_protocol manager) conn (started_State started) w1 =
      (Ok (started_AuthorizationURL started, RequestID r), w2).

Lemma wp_saml_Begin input w :
  wf (ext w) ->
  wp (Begin manager input) (fun res w' => wf (ext w') /\
    match res with
    | Ok started => begun (ticks w) (TrimSpace (begin_ConnectionID input)) started (abs w) (abs w')
    | Err _ => abs w' = abs w
    end) w.
Proof.
  intros Hwf. unfold Begin. wp_go; [done|].
  eapply wp_mono; [by apply wp_saml_checkAttempt|]. intros [[]|e] w1 [[Hwf1 Hv1] Ht1]; wp_go; [|done].
  eapply wp_mono; [by apply wp_saml_findConnection|]. intros [conn|e] w2 ([Hwf2 Hv2] & _ & Hc); wp_go; try by rewrite Hv2.
  specialize (Hc conn eq_refl). apply (saml_found_earlier _ (ticks w)) in Hc; [|done]. rewrite <- Hv1, <- Hv2.
  apply (wp_for_range _ _ _ _ (fun v => wf (ext v) /\ abs v = abs w2)); [done| |by intros v [? ?]; wp_go].
  intros v [Hv Ev]. wp_go. apply wp_Generate; [|by wp_go]. intros state h Hh. wp_go.
  eapply wp_mono; [eapply wp_and; [by apply backend_Begin|by apply wp_run; intros ? ? E; exact E]|].
  intros r v1 [[Hwf3 Hv3] E]. rewrite !ext_draw in Hv3. destruct r as [[url id]|e]; wp_go; try by rewrite Hv3.
  eapply wp_mono; [by apply (pending_Create_ok StateHash _ (store_ConsumeRequest (store manager)) (wf := wf) (view := view))|].
  rewrite ext_tick, Hv3, Ev. simpl.
  intros [[]|e] v2 [Hwf4 Hr]; wp_go; [|done..]. destruct Hr as [Hnone Hs]. split; [done|]. go_bool.
  eexists conn, (mkRequest h _ _ id _ _), _, _. destruct Hc as [Hid Hc].
  split_and!; simpl; [by split|exact Hnone|exact Hs|done|done|done|by eexists|done|done|done| |exact E].
  by rewrite !ext_draw.
Qed.

(** What [Complete] checked, from the reading [start] on, before it vouched for an
    identity. *)
Definition completed (input : CompleteInput) (start : nat) (id : Identity) (s s' : pending) : Prop :=
  exists n h r conn pi w1 w2,
    start <= n /\
    HashToken (TrimSpace (input_State input)) = Ok h /\ s !! h = Some r /\ s' = delete h s /\
    validRequest r h (now manager n) = true /\ found start (req_ConnectionID r) conn /\
    hashConnection conn = Ok (ConnectionHash r) /\
    TrimSpace (input_SAMLResponse input) <> "" /\ (byte_len (input_SAMLResponse input) <= maxResponseLength)%Z /\
    wf (ext w1) /\ start <= ticks w1 /\
    protocol_Complete (manager_protocol manager) conn (RequestID r) (input_SAMLResponse input) w1 = (Ok pi, w2) /\
    id_ConnectionID id = req_ConnectionID r /\ id_Issuer id = pi_Issuer pi /\ TrimSpace (pi_Issuer pi) <> "" /\
    id_ProviderSubject id = TrimSpace (pi_ProviderSubject pi) /\ id_ProviderSubject id <> "" /\
    id_SubjectFormat id = pi_SubjectFormat pi /\
    (id_Email id = "" \/ Normalize (pi_Email pi) = Ok (id_Email id)) /\
    (RequireEmail conn = true -> id_Email id <> "").

(** What is made of the identity of the provider. *)
Lemma wp_saml_acceptIdentity conn pi source w :
  wf (ext w) ->
  wp (acceptIdentity manager conn pi source) (fun res w' => wf (ext w') /\ abs w' = abs w /\
    forall id, res = Ok id ->
      id_ConnectionID id = conn_ID conn /\ id_Issuer id = pi_Issuer pi /\ TrimSpace (pi_Issuer pi) <> "" /\
      id_ProviderSubject id = TrimSpace (pi_ProviderSubject pi) /\ id_ProviderSubject id <> "" /\
      id_SubjectFormat id = pi_SubjectFormat pi /\
      (id_Email id = "" \/ Normalize (pi_Email pi) = Ok (id_Email id)) /\
      (RequireEmail conn = true -> id_Email id <> "")) w.
Proof.
  intros Hwf. unfold acceptIdentity. wp_go; try (by split_and!);
    (eapply wp_mono; [by apply wp_saml_record|]; intros [] w1 [Hwf1 Hv1]; wp_go; split_and!; try done).
  intros id [= <-]. simpl. go_bool. split_and!; try done.
  - destruct (negb _); [by right|left; congruence].
  - intros Hreq. match goal with Hb : _ && _ = false |- _ => rewrite Hreq in Hb; cbn [andb] in Hb end. by go_bool.
Qed.

Lemma wp_saml_refused connection source err (Q : result Identity -> World S -> Prop) w :
  wf (ext w) -> (forall w', wf (ext w') -> abs w' = abs w -> Q (Err err) w') ->
  wp (_ <- record manager EventAuthenticationFailed connection "" source ;; ret (Err err)) Q w.
Proof. intros Hwf HQ. wp_go. eapply wp_mono; [by apply wp_saml_record|]. intros [] w' [? ?]. wp_go. by apply HQ. Qed.

Lemma wp_saml_Complete input w :
  wf (ext w) ->
  wp (Complete manager input) (fun res w' => wf (ext w') /\
    match res with
    | Ok id => completed input (ticks w) id (abs w) (abs w')
    | Err _ => abs w' = abs w \/ exists h, HashToken (TrimSpace (input_State input)) = Ok h /\ abs w' = delete h (abs w)
    end) w.
Proof.
  intros Hwf. unfold Complete. wp_go.
  eapply wp_mono; [by apply wp_saml_checkAttempt|]. intros [[]|e] w1 [[Hwf1 Hv1] Ht1]; [|by wp_go; auto].
  rewrite <- Hv1. clear Hv1. cbv beta iota zeta.
  destruct (HashToken (TrimSpace (input_State input))) as [h|e] eqn:Hh; [|by apply wp_saml_refused; auto].
  destruct (_ || _) eqn:Hresponse; [by apply wp_saml_refused; auto|].
  wp_go. eapply wp_mono; [apply wp_forward; [apply backend_Consume_forward|];
    by apply (pending_Consume_ok StateHash (store_CreateRequest (store manager)) _ (wf := wf) (view := view))|].
  rewrite ext_tick. intros [r|e] w2 [[Hwf2 Hr] Ht2]; cbv beta iota; cbn [ticks tick] in Ht2.
  2: { destruct (errors_Is e ErrNotFound || errors_Is e ErrInactiveRequest); [|wp_go; split; [done|]; destruct Hr; eauto].
       apply wp_saml_refused; [done|]. intros w3 Hwf3 Hv3. rewrite Hv3. split; [done|]. destruct Hr; eauto. }
  destruct Hr as [Hr Hs]. destruct (negb (validRequest _ _ _)) eqn:Hvr; [wp_go; by eauto|].
  wp_go. eapply wp_mono; [by apply wp_saml_findConnection|].
  intros [conn|e] w3 ([Hwf3 Hv3] & Ht3 & Hconn); cbv beta iota; [|wp_go; rewrite Hv3; by eauto].
  specialize (Hconn conn eq_refl). apply (saml_found_earlier _ (ticks w)) in Hconn; [|lia]. destruct (hashConnection conn) as [x|e] eqn:Hhash; cbn [negb]; [|wp_go; rewrite Hv3; by eauto].
  destruct (String.eqb x (ConnectionHash r)) eqn:Hx; cbn [negb]; [|wp_go; rewrite Hv3; by eauto].
  wp_go. eapply wp_mono; [eapply wp_and; [by apply backend_Complete|by apply wp_run; intros ? ? E; exact E]|].
  intros res w4 [[Hwf4 Hv4] E]. destruct res as [pi|e]; cbv beta iota.
  2: { apply wp_saml_refused; [done|]. intros w5 Hwf5 Hv5. rewrite Hv5, Hv4, Hv3. eauto. }
  eapply wp_mono; [by apply wp_saml_acceptIdentity|]. intros [id|e] w5 (Hwf5 & Hv5 & Hid); rewrite Hv5, Hv4, Hv3; [|by eauto].
  destruct (Hid id eq_refl) as (Hi1 & Hi2 & Hi3 & Hi4 & Hi5 & Hi6 & Hi7 & Hi8).
  apply orb_false_iff in Hresponse as [Hresponse Hlen]. go_bool. split; [done|].
  exists (ticks w1), h, r, conn, pi, w3, w4.
  pose proof (proj1 Hconn) as Hcid. split_and!; done || lia || congruence.
Qed.
End Refinement.

(** * A reference backend for SAML

    A store whose state is the pending requests, a library that accepts the
    response that names the request, and a run: alice signs on. *)

#[export] Existing Instance GoogleOAuthSpec.demo_url.
#[export] Instance demo_x509 : X509 := {| MarshalPKIXPublicKey key := Ok ("pkix:" +:+ key) |}.

Definition ref_saml_store : Store pending :=
  {| store_CreateRequest := ref_create StateHash ErrConflict Datatypes.id (fun p _ => p);
     store_ConsumeRequest := ref_consume ExpiresAt ErrNotFound ErrInactiveRequest Datatypes.id (fun p _ => p) |}.

Definition demo_assertion (issuer : string) : Assertion :=
  mkAssertion issuer (Some (mkSubject (Some (mkNameID "persistent" " saml-alice ")))) ["session-1"]
    [[mkAttribute "mail" "urn:mail" [" "; "Alice@Example.com"]; mkAttribute "" "name" ["Alice"]]].

(** The metadata of a provider is its identifier; a response is the identifier
    of the request it answers. *)
#[export] Instance demo_saml_libraries : SAMLLibraries pending := {|
  EntityDescriptor := string;
  AuthnRequest := string;
  HTTPRedirectBinding := "HTTP-Redirect";
  HTTPPostBinding := "HTTP-POST";
  PersistentNameIDFormat := "persistent";
  RSASHA256SignatureMethod := "rsa-sha256";
  ECDSASHA256SignatureMethod := "ecdsa-sha256";
  samlsp_ParseMetadata metadata := Ok metadata;
  sp_GetSSOBindingLocation sp binding := sp_IDPMetadata sp +:+ "/sso";
  sp_MakeAuthenticationRequest sp destination binding result := ret (Ok "id-1");
  authn_ID request := request;
  authn_Redirect request state sp :=
    ret (Ok (mkURL "https" "idp.acme.com" false "" (Encode (Set_ "SAMLRequest" request (Set_ "RelayState" state ∅))) "/sso" ""));
  sp_ParseResponse sp request ids :=
    ret (if existsb (String.eqb (Get "SAMLResponse" (req_PostForm request))) ids
         then Ok (Some (demo_assertion (sp_IDPMetadata sp))) else Err (New "saml.InvalidResponseError"));
  sp_Metadata sp := ret (sp_EntityID sp);
  xml_MarshalIndent descriptor := Ok ("<EntityDescriptor>" +:+ descriptor +:+ "</EntityDescriptor>");
|}.

#[export] Instance demo_saml_contract : SAMLLibrariesContract (fun _ => True) (Datatypes.id : pending -> pending).
Proof. split; intros; intros w Hw; by apply wp_ret. Qed.

Definition demo_certificate : X509Certificate := mkCertificate 0 (demo_epoch + 1000 * Hour)%Z "DER" "pkix:key".

Definition demo_saml_connection : Connection :=
  mkConnection "acme" "https://app.example.com" " https://app.example.com/metadata" "https://app.example.com/acs"
    "https://idp.acme.com" (Some (mkSigner rsa_PrivateKey "key" "secret")) (Some demo_certificate) "" "mail" "name" true false.

Definition demo_saml_connections : ConnectionSource pending := fun id =>
  ret (if String.eqb id "acme" then Ok demo_saml_connection else Err ErrNotFound).

Definition demo_saml_manager : Manager pending :=
  mkManager _ ref_saml_store demo_saml_connections samlProtocol (10 * Minute)%Z None None demo_clock.

Example demo_saml_manager_made :
  NewManager (Some ref_saml_store) (Some demo_saml_connections) (mkConfig _ (10 * Minute)%Z None None (Some demo_clock)) =
  Ok demo_saml_manager.
Proof. reflexivity. Qed.

#[export] Instance demo_saml_backend : SAMLBackend demo_saml_manager (fun _ => True) Datatypes.id.
Proof.
  split; try done.
  - by apply ref_pending_contract.
  - intros. apply forward_consume.
  - intros. apply forward_ret.
  - intros. by apply leaves_samlProtocol_Begin, demo_saml_contract.
  - intros. by apply leaves_samlProtocol_Complete, demo_saml_contract.
Defined.

Definition saml_start : World pending := demo_world ∅.
Definition alice_begins_saml : result Started * World pending := Begin demo_saml_manager (mkBeginInput " acme " "") saml_start.
Definition alice_saml_state : string := match fst alice_begins_saml with Ok started => started_State started | Err _ => "" end.
Definition alice_response : CompleteInput := mkCompleteInput (alice_saml_state +:+ " ") "id-1" "".
Definition alice_signs_on_saml : result Identity * World pending :=
  Complete demo_saml_manager alice_response (snd alice_begins_saml).

Example alice_signs_on_saml_ok :
  fst alice_signs_on_saml =
  Ok (mkIdentity "acme" "https://idp.acme.com" "saml-alice" "persistent" "alice@example.com" "Alice" "session-1").
Proof. vm_compute. reflexivity. Qed.

Example alice_metadata :
  fst (Metadata demo_saml_manager "acme" saml_start) =
  Ok (xml_Header +:+ "<EntityDescriptor>https://app.example.com</EntityDescriptor>").
Proof. vm_compute. reflexivity. Qed.
