(* ===== verification/SamlProps.v ===== *)
(** * Properties of SAML sign-on

    An identity is vouched for by the connection its request was made with, as
    the answer to that request and no other; every state is good for one answer;
    the hash of a connection pins its configuration; and a flow run to its end
    completes. *)
From S2P Require Import Prelude GoText GoUrl Base64 GoJson Sha256 Token EmailAddress SsoSpec Saml SamlSpec.

(** ** What the hash of a connection pins *)
Definition texts (c : Connection) : list string :=
  [conn_ID c; EntityID c; MetadataURL c; ACSURL c; SubjectAttribute c; EmailAttribute c; NameAttribute c].

Definition utf8 (c : Connection) : Prop := Forall (fun s => ValidString s = true) (texts c).

Lemma configuration_inj c d cert cert' :
  utf8 c -> utf8 d -> configuration c cert = configuration d cert' ->
  texts c = texts d /\ IDPMetadata c = IDPMetadata d /\ Raw cert = Raw cert' /\
  RequireEmail c = RequireEmail d /\ ForceAuthn c = ForceAuthn d.
Proof.
  unfold utf8, texts. intros Hc Hd E.
  repeat match goal with Hf : Forall _ (_ :: _) |- _ => apply Forall_cons_1 in Hf as [? Hf] end.
  apply json_Marshal_struct_inj in E; [injection E as; split_and!; congruence|].
  by repeat constructor.
Qed.

(** The hash of a connection pins its configuration: two connections with the
    same hash agree on the identifier, the addresses, the provider's metadata,
    the certificate, the attributes and the options, unless their encodings are
    two different texts with one SHA-256 digest. *)
Theorem connection_hash_pins c d h :
  utf8 c -> utf8 d -> hashConnection c = Ok h -> hashConnection d = Ok h ->
  (texts c = texts d /\ IDPMetadata c = IDPMetadata d /\ (Raw <$> Certificate c) = (Raw <$> Certificate d) /\
   RequireEmail c = RequireEmail d /\ ForceAuthn c = ForceAuthn d) \/
  exists cert cert', Certificate c = Some cert /\ Certificate d = Some cert' /\
    configuration c cert <> configuration d cert' /\
    Sum256 (configuration c cert) = Sum256 (configuration d cert').
Proof.
  intros Hc Hd. unfold hashConnection.
  destruct (Certificate c) as [cert|] eqn:Ec, (Certificate d) as [cert'|] eqn:Ed; try done. intros [= <-] [= E].
  destruct (decide (configuration c cert = configuration d cert')) as [Heq|Hne]; [left|right; by exists cert, cert'].
  destruct (configuration_inj _ _ _ _ Hc Hd Heq) as (? & ? & HR & ? & ?). split_and!; try done. simpl. by rewrite HR.
Qed.

Section Properties.
Context {S : Type} `{Env} `{GoTables} `{NetURL} `{X509} (manager : Manager S).

Section Sound.
Context `{SAMLLibraries S} (wf : S -> Prop) (view : S -> pending).
Context `{!SAMLLibrariesContract wf view, !SAMLBackend manager wf view}.

(** The subject of an assertion: the attribute of the connection or, without
    one, a persistent name identifier. *)
Definition subject_of (c : Connection) (a : Assertion) (subject format : string) : Prop :=
  (SubjectAttribute c <> "" /\ subject = attribute a (SubjectAttribute c) /\ format = "attribute:" +:+ SubjectAttribute c) \/
  (SubjectAttribute c = "" /\ format = PersistentNameIDFormat /\ exists nameID, assertion_Subject a = Some (mkSubject (Some nameID)) /\
     TrimSpace (nameid_Format nameID) = format /\ subject = TrimSpace (nameid_Value nameID)).

Lemma identityFromAssertion_Ok c a pi : identityFromAssertion c (Some a) = Ok pi ->
  subject_of c a (pi_ProviderSubject pi) (pi_SubjectFormat pi) /\ pi_ProviderSubject pi <> "" /\
  pi_Issuer pi = TrimSpace (assertion_Issuer a) /\ pi_Email pi = attribute a (EmailAttribute c).
Proof.
  cbn [identityFromAssertion]. destruct (subjectOf c a) as [[subject format]|e] eqn:Hs; [|done].
  destruct (String.eqb_spec subject "") as [|Hne]; [done|]. intros [= <-]. cbn [pi_ProviderSubject pi_SubjectFormat pi_Issuer pi_Email].
  split_and!; try done. unfold subjectOf in Hs. unfold subject_of.
  destruct (String.eqb_spec (SubjectAttribute c) "") as [He|Hn]; cbn [negb] in Hs; [right|left; by injection Hs as <- <-].
  destruct (assertion_Subject a) as [[[nameID|]]|]; [|done..]. cbn [subject_NameID] in Hs.
  destruct (String.eqb_spec (TrimSpace (nameid_Format nameID)) PersistentNameIDFormat) as [Hf|]; [|done].
  injection Hs as <- <-. split_and!; [done..|]. by exists nameID.
Qed.

Lemma attribute_trimmed a name : TrimSpace (attribute a name) = attribute a name.
Proof.
  assert (Hv : forall vs v, first_value vs = Some v -> TrimSpace v = v).
  { induction vs as [|x vs IH]; intros v; [done|]. cbn [first_value]. destruct (String.eqb _ ""); [by apply IH|].
    intros [= <-]. apply TrimSpace_TrimSpace. }
  assert (Hi : forall cs v, attribute_in name cs = Some v -> TrimSpace v = v).
  { induction cs as [|x cs IH]; intros v; [done|]. cbn [attribute_in]. destruct (_ && _); [by apply IH|].
    destruct (first_value _) eqn:Hf; [|by apply IH]. intros [= <-]. by eapply Hv. }
  unfold attribute. destruct (String.eqb _ ""); [done|].
  induction (assertion_AttributeStatements a) as [|x l IH]; [done|]. cbn [attribute_of].
  destruct (attribute_in name x) eqn:Hx; [by eapply Hi|done].
Qed.

(** C29: An identity is vouched for only on a pending state that has not expired at a
    reading of the clock from the call on and that the answer uses up, by the
    connection its request was made with, looked up again in the call, with the
    configuration it had then, and a certificate in force at a reading from the
    call on: the library, asked in the call, accepted the response, carried
    unchanged in the form posted to the connection, for a service provider that
    takes no unsolicited responses, as the answer to that one request. The subject
    is the connection's attribute of the assertion or its persistent name, the
    issuer the assertion's. *)
Theorem saml_identity_vouched input id w w1 :
  wf (ext w) -> manager_protocol manager = samlProtocol ->
  Complete manager input w = (Ok id, w1) ->
  exists h r conn sp request a v1 v2,
    HashToken (TrimSpace (input_State input)) = Ok h /\ view (ext w) !! h = Some r /\
    view (ext w1) = delete h (view (ext w)) /\ StateHash r = h /\ (exists n, ticks w <= n /\ (now manager n < ExpiresAt r)%Z) /\
    found manager wf (ticks w) (req_ConnectionID r) conn /\ hashConnection conn = Ok (ConnectionHash r) /\
    serviceProvider conn = Ok sp /\ sp_AllowIDPInitiated sp = false /\
    ticks w <= ticks v1 /\ sp_ParseResponse sp request [RequestID r] v1 = (Ok (Some a), v2) /\
    req_PostForm request = response_form (input_SAMLResponse input) /\
    id_ConnectionID id = req_ConnectionID r /\ id_Issuer id = TrimSpace (assertion_Issuer a) /\ id_Issuer id <> "" /\
    subject_of conn a (id_ProviderSubject id) (id_SubjectFormat id) /\ id_ProviderSubject id <> "" /\
    (RequireEmail conn = true -> Normalize (attribute a (EmailAttribute conn)) = Ok (id_Email id) /\ id_Email id <> "").
Proof.
  intros Hwf Hp E. destruct (wp_elim _ _ _ _ _ (wp_saml_Complete manager wf view input w Hwf) E)
    as (_ & n & h & r & conn & pi & w2 & w3 & Hn & Hh & Hr & Hs & Hvr & Hconn & Hhash & _ & _ & Hwf2 & Ht2 & Hc & Hid).
  destruct Hid as (Hi1 & Hi2 & Hi3 & Hi4 & Hi5 & Hi6 & Hi7 & Hi8).
  rewrite Hp in Hc. destruct (wp_elim _ _ _ _ _ (wp_samlProtocol_Complete wf view conn _ _ w2 Hwf2) Hc) as (_ & _ & Hpi).
  destruct (Hpi pi eq_refl) as (sp & request & a & v1 & v2 & Ht & Hsp & Hidp & Hparse & Hpost & _ & Hident).
  destruct (identityFromAssertion_Ok _ _ _ Hident) as (Hsub & Hne & Hiss & Hemail).
  assert (Htrim : TrimSpace (pi_ProviderSubject pi) = pi_ProviderSubject pi).
  { destruct Hsub as [(_ & -> & _)|(_ & _ & x & _ & _ & ->)]; [apply attribute_trimmed|apply TrimSpace_TrimSpace]. }
  unfold validRequest in Hvr. go_bool. exists h, r, conn, sp, request, a, v1, v2.
  rewrite Hi4, Htrim, Hi6, Hi2, Hiss in *. rewrite <- Hemail.
  split_and!; try done; [by exists n|lia| |].
  - rewrite TrimSpace_TrimSpace in Hi3. done.
  - intros Hreq. specialize (Hi8 Hreq). destruct Hi7 as [Hi7|Hi7]; done.
Qed.
End Sound.

Section Use.
Context (wf : S -> Prop) (view : S -> pending) `{!SAMLBackend manager wf view}.

(** What responses do to the pending states. *)
Inductive answered : World S -> World S -> Prop :=
| answered_Complete input w : answered w (snd (Complete manager input w)).

Lemma saml_answered_shrinks w w1 : answered w w1 -> wf (ext w) -> wf (ext w1) /\ view (ext w1) ⊆ view (ext w).
Proof.
  intros [input w2] Hwf. destruct (wp_saml_Complete manager wf view input w2 Hwf) as [Hwf1 Hr]. split; [done|].
  destruct (fst _) as [id|e]; [destruct Hr as (n & h & r & conn & pi & w3 & w4 & _ & _ & _ & -> & _); apply delete_subseteq|].
  destruct Hr as [->|(h & _ & ->)]; [done|apply delete_subseteq].
Qed.

(** A request is answered once: a state that has vouched for an identity vouches
    for no other, whichever response comes with it and however many answers come
    between, so a captured response is of no use. *)
Theorem saml_state_single_use input again id w w1 w2 :
  wf (ext w) -> Complete manager input w = (Ok id, w1) -> rtc answered w1 w2 ->
  TrimSpace (input_State again) = TrimSpace (input_State input) ->
  is_ok (fst (Complete manager again w2)) = false.
Proof.
  intros Hwf E Hcalls Hsame. destruct (wp_elim _ _ _ _ _ (wp_saml_Complete manager wf view input w Hwf) E)
    as (Hwf1 & n & h & r & conn & pi & w3 & w4 & _ & Hh & Hr & Hs & _).
  destruct (used_up_stays wf view answered h w1 w2 saml_answered_shrinks Hcalls Hwf1) as [Hwf2 Hgone];
    [by rewrite Hs, lookup_delete_eq|].
  destruct (wp_saml_Complete manager wf view again w2 Hwf2) as [_ Hres].
  destruct (fst _) as [id2|e]; [|done]. destruct Hres as (n2 & h2 & r2 & conn2 & pi2 & w5 & w6 & _ & Hh2 & Hr2 & _).
  rewrite Hsame, Hh in Hh2. injection Hh2 as <-. congruence.
Qed.
(** The response reaches the library, and its assertion becomes the identity. *)
Lemma samlProtocol_Complete_ok `{SAMLLibraries S} conn acs sp id response a pi w :
  serviceProvider conn = Ok sp -> url_Parse (ACSURL conn) = Some acs -> query_ok (RawQuery acs) = true ->
  (byte_len response <= maxResponseLength)%Z ->
  (forall request v, req_PostForm request = response_form response -> fst (sp_ParseResponse sp request [id] v) = Ok (Some a)) ->
  identityFromAssertion conn (Some a) = Ok pi ->
  fst (samlProtocol_Complete conn id response w) = Ok pi.
Proof.
  intros Hsp Hacs Hq Hlen Hparse Hident. unfold samlProtocol_Complete, http_NewRequest. rewrite Hsp, Hacs.
  cbn -[ParseForm Encode maxResponseLength identityFromAssertion].
  destruct (ParseForm_single (set_Host (removeEmptyPort (Host acs)) acs) "SAMLResponse" response) as [form Hform].
  { done. }
  { unfold encode_pair. rewrite !length_app_string. cbn [fst snd]. pose proof (length_QueryEscape response) as Hr.
    change (String.length (QueryEscape "SAMLResponse")) with 12. change (String.length "=") with 1.
    unfold byte_len in Hlen. change maxResponseLength with 2097152%Z in Hlen. change maxFormSize with 10485760%Z. lia. }
  unfold set_ContentType. cbn [req_URL req_Body req_PostForm req_Form]. unfold response_form at 1.
  rewrite Hform. unfold bind_ok, bind, ret.
  destruct (sp_ParseResponse _ _ _ w) as [r w1] eqn:E. apply (f_equal fst) in E. rewrite Hparse in E by done.
  simpl in E. subst r. exact Hident.
Qed.

(** A connection that stays as it was, with its certificate in force. *)
Lemma wp_saml_findConnection_known raw conn id w :
  wf (ext w) -> (forall v, fst (connections manager id v) = Ok raw) -> normalizeConnection raw = Ok conn ->
  conn_ID conn = id -> id <> "" -> (forall n, in_force (Certificate conn) (now manager n) = true) ->
  wp (findConnection manager id) (fun r w' => wf (ext w') /\ r = Ok conn) w.
Proof.
  intros Hwf Hraw Hn Hid Hne Hforce. unfold findConnection. rewrite (proj2 (String.eqb_neq id "")) by done. wp_go.
  eapply wp_mono; [eapply wp_and; [by apply backend_connections|by apply (wp_fst _ (Ok raw))]|].
  intros r w1 [[Hwf1 _] ->]. rewrite Hn, Hid, String.eqb_refl. cbn [negb].
  apply wp_bind, wp_read_now. rewrite Hforce. cbn [negb]. by wp_go.
Qed.

Lemma saml_normalizeConnection_fields raw c : normalizeConnection raw = Ok c ->
  conn_ID c = TrimSpace (conn_ID raw) /\ conn_ID c <> "" /\ ACSURL c = TrimSpace (ACSURL raw) /\ Certificate c = Certificate raw.
Proof.
  unfold normalizeConnection. destruct (_ || _) eqn:Hb; [done|]. intros [= <-]. simpl in *. go_bool. by split_and!.
Qed.

Lemma samlProtocol_Begin_provider `{SAMLLibraries S} conn state w r w1 :
  samlProtocol_Begin conn state w = (Ok r, w1) -> exists sp, serviceProvider conn = Ok sp.
Proof. unfold samlProtocol_Begin. destruct (serviceProvider conn) as [sp|e]; [by exists sp|done]. Qed.

(** A flow completes: what [Begin] stored answers for a response the library
    accepts, as long as the store keeps it, the connection stays as it was with
    a certificate in force, and the request lasts. *)
Theorem saml_Begin_then_Complete `{SAMLLibraries S} input started response a pi email raw acs w w1 :
  (forall h c at_ v, wf (ext v) -> view (ext v) !! h = Some c -> (at_ < ExpiresAt c)%Z ->
     fst (store_ConsumeRequest (store manager) h at_ v) = Ok c) ->
  (forall v, fst (connections manager (TrimSpace (begin_ConnectionID input)) v) = Ok raw) ->
  (forall conn, normalizeConnection raw = Ok conn -> hashConnection conn <> Ok zero_hash) ->
  (forall n, in_force (Certificate raw) (now manager n) = true) ->
  url_Parse (TrimSpace (ACSURL raw)) = Some acs -> query_ok (RawQuery acs) = true ->
  manager_protocol manager = samlProtocol ->
  attemptGuard manager = None -> (0 < lifetime manager)%Z -> (forall n, 0 < now manager n)%Z ->
  (forall n, now manager n < started_ExpiresAt started)%Z ->
  wf (ext w) -> Begin manager input w = (Ok started, w1) ->
  TrimSpace response <> "" -> (byte_len response <= maxResponseLength)%Z ->
  (forall h r conn sp request v, HashToken (started_State started) = Ok h -> view (ext w1) !! h = Some r ->
     normalizeConnection raw = Ok conn -> serviceProvider conn = Ok sp ->
     req_PostForm request = response_form response -> fst (sp_ParseResponse sp request [RequestID r] v) = Ok (Some a)) ->
  (forall conn, normalizeConnection raw = Ok conn -> identityFromAssertion conn (Some a) = Ok pi) ->
  TrimSpace (pi_Issuer pi) <> "" -> TrimSpace (pi_ProviderSubject pi) <> "" ->
  TrimSpace (pi_Email pi) <> "" -> Normalize (pi_Email pi) = Ok email -> email <> "" ->
  fst (Complete manager (mkCompleteInput (started_State started) response "") w1) =
    Ok (mkIdentity (TrimSpace (begin_ConnectionID input)) (pi_Issuer pi) (TrimSpace (pi_ProviderSubject pi))
          (pi_SubjectFormat pi) email (TrimSpace (pi_Name pi)) (TrimSpace (pi_SessionIndex pi))).
Proof.
  intros Hstore Hconns Hzero Hforce Hacs Hq Hp Hg Hlife Hnow Hlive Hwf E Hresp Hlen Hparse Hident Hiss Hsub Hem Hnorm Hne.
  destruct (wp_elim _ _ _ _ _ (wp_saml_Begin manager wf view input w Hwf) E)
    as (Hwf1 & conn & r & v1 & v2 & (Hid & _ & raw' & u1 & u2 & _ & _ & Hfind & Hnc) & _ & Hs & Hh & Hrid & Hhash & [n0 Hcr] & Hexp & Hsexp & Hreq & _ & HB).
  assert (raw' = raw) as -> by (pose proof (Hconns u1) as Hr; rewrite Hfind in Hr; by injection Hr).
  assert (Hc : view (ext w1) !! StateHash r = Some r) by (rewrite Hs; apply lookup_insert_eq).
  rewrite Hp in HB. destruct (samlProtocol_Begin_provider _ _ _ _ _ HB) as [sp Hsp].
  destruct (saml_normalizeConnection_fields _ _ Hnc) as (Hf1 & Hf2 & Hf3 & Hf4).
  assert (Hvr : forall n, validRequest r (StateHash r) (now manager n) = true).
  { intros n. unfold validRequest. rewrite String.eqb_refl, Hrid, <- Hid, Hf1, TrimSpace_TrimSpace.
    rewrite Hf1 in Hf2. assert (Hh0 : ConnectionHash r <> zero_hash) by (intros Hz; rewrite Hz in Hhash; by apply (Hzero conn)).
    rewrite !(proj2 (String.eqb_neq _ _)) by done.
    rewrite <- Hsexp, (proj2 (Before_true _ _) (Hlive n)), Hsexp, Hexp, Hcr, (proj2 (After_true _ _)); [|unfold Add; lia].
    destruct (IsZero _) eqn:Hz; [apply IsZero_true in Hz; specialize (Hnow n0); lia|done]. }
  match goal with |- fst (Complete _ ?i w1) = ?r => enough (wp (Complete manager i) (fun res _ => res = r) w1) by done end.
  destruct (HashToken_text _ _ Hh) as [Htext _].
  unfold Complete, checkAttempt. rewrite Hg. simpl input_State. simpl input_SAMLResponse. simpl input_SourceKey.
  rewrite Htext, Hh, (proj2 (String.eqb_neq (TrimSpace response) "")), (proj2 (Z.ltb_ge _ _) Hlen) by done. cbn [orb]. wp_go.
  eapply wp_mono; [eapply wp_and; [by apply (pending_Consume_ok StateHash (store_CreateRequest (store manager)) _ (wf := wf) (view := view))|]|].
  { apply (wp_fst _ (Ok r)), Hstore; [done..|]. rewrite <- Hsexp. apply Hlive. }
  intros r' w2 [[Hwf2 _] ->]. rewrite Hvr. cbn [negb]. wp_go.
  rewrite Hrid, <- Hid. eapply wp_mono; [apply (wp_saml_findConnection_known raw conn); rewrite ?Hid, ?Hf4; try done|].
  { by rewrite <- Hid. }
  intros r' w3 [Hwf3 ->]. rewrite Hhash, String.eqb_refl. cbn [negb]. wp_go. rewrite Hp.
  eapply wp_mono; [apply (wp_fst _ (Ok pi)), (samlProtocol_Complete_ok conn acs sp _ response a pi); rewrite ?Hf3; try done|].
  { intros request v Hpost. by eapply Hparse. }
  { by apply Hident. }
  intros r' w4 ->. cbv beta iota. unfold acceptIdentity.
  rewrite !(proj2 (String.eqb_neq _ "")) by done. cbn [negb orb]. rewrite Hnorm. cbv beta iota zeta.
  rewrite (proj2 (String.eqb_neq email "")), andb_false_r by done. wp_go.
  eapply wp_mono; [by apply wp_run; intros ? ? E'; exact E'|]. intros [] w5 _. wp_go. by rewrite Hid.
Qed.
End Use.
End Properties.

(** ** Runs of the theorems *)
Ltac saml_ok E := exfalso; vm_compute in E; discriminate E.

Lemma connection_hash_pins_witness :
  exists h, hashConnection demo_saml_connection = Ok h /\ hashConnection demo_saml_connection = Ok h /\
    IDPMetadata demo_saml_connection = IDPMetadata demo_saml_connection.
Proof.
  destruct (hashConnection demo_saml_connection) as [h|e] eqn:E; [|saml_ok E]. exists h. do 2 (split; [reflexivity|]).
  assert (Hutf8 : utf8 demo_saml_connection)
    by (unfold utf8, texts; repeat (constructor; [vm_compute; reflexivity|]); constructor).
  destruct (connection_hash_pins demo_saml_connection demo_saml_connection h Hutf8 Hutf8 E E)
    as [(_ & Hm & _)|(cert & cert' & Hc & Hc' & Hne & _)]; [exact Hm|].
  exfalso. rewrite Hc in Hc'. injection Hc' as <-. exact (Hne eq_refl).
Defined.

Lemma saml_identity_vouched_witness :
  exists id w1 h r, Complete demo_saml_manager alice_response (snd alice_begins_saml) = (Ok id, w1) /\
    HashToken (TrimSpace (input_State alice_response)) = Ok h /\ ext (snd alice_begins_saml) !! h = Some r /\
    ext w1 = delete h (ext (snd alice_begins_saml)) /\ id_ConnectionID id = req_ConnectionID r.
Proof.
  destruct (Complete demo_saml_manager alice_response (snd alice_begins_saml)) as [[id|e] w1] eqn:E; [|saml_ok E].
  destruct (saml_identity_vouched demo_saml_manager (fun _ => True) Datatypes.id alice_response id
    (snd alice_begins_saml) w1 I eq_refl E)
    as (h & r & conn & sp & request & a & v1 & v2 & Hh & Hr & Hs & _ & _ & _ & _ & _ & _ & _ & _ & _ & Hid & _).
  exists id, w1, h, r. exact (conj eq_refl (conj Hh (conj Hr (conj Hs Hid)))).
Defined.

Lemma saml_state_single_use_witness :
  is_ok (fst (Complete demo_saml_manager alice_response (snd alice_begins_saml))) = true /\
  is_ok (fst (Complete demo_saml_manager alice_response
    (snd (Complete demo_saml_manager alice_response
      (snd (Complete demo_saml_manager alice_response (snd alice_begins_saml))))))) = false.
Proof.
  destruct (Complete demo_saml_manager alice_response (snd alice_begins_saml)) as [[id|e] w1] eqn:E; [|saml_ok E].
  split; [reflexivity|].
  refine (saml_state_single_use demo_saml_manager (fun _ => True) Datatypes.id alice_response alice_response id
    (snd alice_begins_saml) w1 _ I E _ eq_refl).
  eapply rtc_l; [apply answered_Complete|apply rtc_refl].
Defined.

(** The manager with a clock that stands still. *)
Definition still_saml_manager : Manager pending :=
  mkManager _ ref_saml_store demo_saml_connections samlProtocol (10 * Minute)%Z None None (fun _ => demo_epoch).

#[export] Instance still_saml_backend : SAMLBackend still_saml_manager (fun _ => True) Datatypes.id.
Proof.
  split; try done.
  - by apply ref_pending_contract.
  - intros. apply forward_consume.
  - intros. apply forward_ret.
  - intros. by apply leaves_samlProtocol_Begin, demo_saml_contract.
  - intros. by apply leaves_samlProtocol_Complete, demo_saml_contract.
Defined.

Definition still_saml_begins : result Started * World pending := Begin still_saml_manager (mkBeginInput "acme" "") saml_start.

(** What [Begin] stored and returned. *)
Lemma still_saml_begun :
  match still_saml_begins with
  | (Ok started, w1) =>
      (demo_epoch <? started_ExpiresAt started)%Z &&
      match HashToken (started_State started) with
      | Ok h => match ext w1 !! h with Some r => String.eqb (RequestID r) "id-1" | None => false end
      | Err _ => false
      end
  | _ => false
  end = true.
Proof. vm_compute. reflexivity. Qed.

Lemma saml_Begin_then_Complete_witness :
  match still_saml_begins with
  | (Ok started, w1) =>
      fst (Complete still_saml_manager (mkCompleteInput (started_State started) "id-1" "") w1) =
        Ok (mkIdentity "acme" "https://idp.acme.com" "saml-alice" "persistent" "alice@example.com" "Alice" "session-1")
  | _ => False
  end.
Proof.
  pose proof still_saml_begun as Hbegun. unfold still_saml_begins in *.
  destruct (Begin still_saml_manager (mkBeginInput "acme" "") saml_start) as [[started|e] w1] eqn:E; [|discriminate Hbegun].
  apply andb_true_iff in Hbegun as [Hlive Hbegun]. apply Z.ltb_lt in Hlive.
  refine (saml_Begin_then_Complete still_saml_manager (fun _ => True) Datatypes.id (mkBeginInput "acme" "") started "id-1"
    (demo_assertion "https://idp.acme.com")
    (mkProviderIdentity "https://idp.acme.com" "saml-alice" "persistent" "Alice@Example.com" "Alice" "session-1")
    "alice@example.com" demo_saml_connection (mkURL "https" "app.example.com" false "" "" "/acs" "") saml_start w1
    _ _ _ _ _ _ eq_refl eq_refl eq_refl _ _ I E _ _ _ _ _ _ _ _ _); try done.
  - intros h c at_ v _ Hc Hlate. simpl. unfold ref_consume, lift_ext. cbn [Datatypes.id] in *. rewrite Hc.
    by rewrite (proj2 (Before_true _ _)).
  - intros conn Hn Hz. vm_compute in Hn. injection Hn as <-. vm_compute in Hz. discriminate Hz.
  - intros h r conn sp request v Hh Hr Hn Hsp Hpost. rewrite Hh in Hbegun.
    unfold Datatypes.id in Hr. rewrite Hr in Hbegun. apply String.eqb_eq in Hbegun. rewrite Hbegun.
    vm_compute in Hn. injection Hn as <-. vm_compute in Hsp. injection Hsp as <-. simpl. by rewrite Hpost.
  - intros conn Hn. vm_compute in Hn. injection Hn as <-. reflexivity.
Defined.
