(* ===== verification/SessionToken.v ===== *)
(** * Package [sessiontoken] (sessiontoken/sessiontoken.go)

    Opaque server-side sessions: the record, the interfaces [Store] and [Cache],
    the manager and its operations. *)
From S2P Require Import Prelude GoText Base64 Sha256 Token.

Definition creationAttempts : nat := 3.

Definition ErrCacheMiss : error := New "sessiontoken.ErrCacheMiss".
Definition ErrCacheSync : error := New "sessiontoken.ErrCacheSync".
Definition ErrConflict : error := New "sessiontoken.ErrConflict".
Definition ErrInactive : error := New "sessiontoken.ErrInactive".
Definition ErrInvalidConfig : error := New "sessiontoken.ErrInvalidConfig".
Definition ErrInvalidRecord : error := New "sessiontoken.ErrInvalidRecord".
Definition ErrNotFound : error := New "sessiontoken.ErrNotFound".

(** ** Data *)

(** The Go type is called [Record]. *)
Record SessionRecord : Type := mkRecord {
  ID : string;
  SubjectID : string;
  TokenHash : Hash;
  CreatedAt : time;
  ExpiresAt : time;
  ExtendedAt : option time;
  RevokedAt : option time;
}.

#[export] Instance SessionRecord_eq_dec : EqDecision SessionRecord.
Proof. solve_decision. Defined.

Definition ActiveAt (record : SessionRecord) (at_ : time) : bool :=
  negb (bool_decide (is_Some (RevokedAt record))) && Before at_ (ExpiresAt record).

Record Issued : Type := mkIssued { issued_Token : string; issued_Record : SessionRecord }.

Record Store (S : Type) : Type := mkStore {
  store_Create : SessionRecord -> M S (result unit);
  store_FindByTokenHash : Hash -> M S (result SessionRecord);
  store_ListBySubject : string -> M S (result (list SessionRecord));
  store_Extend : Hash -> time -> time -> M S (result SessionRecord);
  store_Rotate : Hash -> SessionRecord -> time -> M S (result unit);
  store_Revoke : Hash -> time -> M S (result unit);
  store_RevokeAll : string -> time -> M S (result (list SessionRecord));
}.
Arguments store_Create {S}. Arguments store_FindByTokenHash {S}.
Arguments store_ListBySubject {S}. Arguments store_Extend {S}.
Arguments store_Rotate {S}. Arguments store_Revoke {S}. Arguments store_RevokeAll {S}.

Record Cache (S : Type) : Type := mkCache {
  cache_Get : Hash -> M S (result SessionRecord);
  cache_Set : SessionRecord -> duration -> M S (result unit);
  cache_Delete : Hash -> M S (result unit);
}.
Arguments cache_Get {S}. Arguments cache_Set {S}. Arguments cache_Delete {S}.

Record ExtensionConfig : Type := mkExtension {
  ExtendAfter : duration;
  AbsoluteLifetime : duration;
}.

Record Config : Type := mkConfig {
  Lifetime : duration;
  CacheTTL : duration;
  Extension : option ExtensionConfig;
  Now : option (nat -> time);
}.

Record Manager (S : Type) : Type := mkManager {
  store : Store S;
  cache : option (Cache S);
  lifetime : duration;
  cacheTTL : duration;
  extension : option ExtensionConfig;
  now : nat -> time;
}.
Arguments store {S}. Arguments cache {S}. Arguments lifetime {S}.
Arguments cacheTTL {S}. Arguments extension {S}. Arguments now {S}.

Definition invalid_config {A} (format : string) : result A :=
  Err (Errorf format [ErrInvalidConfig]).

(** ** Operations *)
Section Operations.
Context {S : Type} `{Env}.

Definition NewManager (store : option (Store S)) (cache : option (Cache S)) (config : Config) :
    result (Manager S) :=
  match store with
  | None => invalid_config "%w: store is required"
  | Some store =>
      if (Lifetime config <=? 0)%Z then invalid_config "%w: lifetime must be positive" else
      if bool_decide (is_Some cache) && (CacheTTL config <=? 0)%Z
      then invalid_config "%w: cache TTL must be positive when cache is configured" else
      if match Extension config with
         | None => false
         | Some e => (ExtendAfter e <=? 0)%Z || (Lifetime config <=? ExtendAfter e)%Z ||
                     (AbsoluteLifetime e <=? Lifetime config)%Z
         end
      then invalid_config "%w: invalid extension settings" else
      Ok (mkManager S store cache (Lifetime config) (CacheTTL config) (Extension config)
            (default time_Now (Now config)))
  end.

(** The session ID is drawn before the token. *)
Definition newIssued (manager : Manager S) (subjectID : string) : M S (result Issued) :=
  sessionID <-? wrapped "generate session ID: %w" new_uuid ;;
  generated <-? wrapped "generate session token: %w" Generate ;;
  now <- read_now (now manager) ;;
  let '(rawToken, tokenHash) := generated in
  ret (Ok (mkIssued rawToken
    (mkRecord sessionID subjectID tokenHash now (Add now (lifetime manager)) None None))).

Definition validRecord (record : SessionRecord) : bool :=
  negb (String.eqb (TrimSpace (ID record)) "" || String.eqb (TrimSpace (SubjectID record)) "" ||
        String.eqb (TokenHash record) zeroHash || IsZero (CreatedAt record) ||
        negb (After (ExpiresAt record) (CreatedAt record))) &&
  match RevokedAt record with
  | Some revokedAt => negb (Before revokedAt (CreatedAt record))
  | None => true
  end &&
  match ExtendedAt record with
  | Some extendedAt =>
      negb (Before extendedAt (CreatedAt record) || After extendedAt (ExpiresAt record))
  | None => true
  end.

Definition populateCache (manager : Manager S) (record : SessionRecord) : M S unit :=
  match cache manager with
  | None => ret tt
  | Some cache =>
      now <- read_now (now manager) ;;
      let remaining := Sub (ExpiresAt record) now in
      if (remaining <=? 0)%Z then ret tt else
      (_ <- cache_Set cache record (Z.min (cacheTTL manager) remaining) ;; ret tt)
  end.

Definition deleteCached (manager : Manager S) (tokenHash : Hash) : M S (result unit) :=
  match cache manager with
  | None => ret (Ok tt)
  | Some cache =>
      r <- cache_Delete cache tokenHash ;;
      match r with
      | Err err => ret (Err (Errorf "%w: %w" [ErrCacheSync; err]))
      | Ok _ => ret (Ok tt)
      end
  end.

Definition Create (manager : Manager S) (subjectID : string) : M S (result Issued) :=
  if String.eqb (TrimSpace subjectID) ""
  then ret (Err (Errorf "%w: subject ID is required" [ErrInvalidRecord])) else
  for_range creationAttempts
    (r <- newIssued manager subjectID ;;
     match r with
     | Err err => ret (Return (Err err))
     | Ok issued =>
         r <- store_Create (store manager) (issued_Record issued) ;;
         match r with
         | Err err =>
             if errors_Is err ErrConflict then ret (Next tt)
             else ret (Return (Err (Errorf "create durable session: %w" [err])))
         | Ok _ =>
             _ <- populateCache manager (issued_Record issued) ;;
             ret (Return (Ok issued))
         end
     end)
    (ret (Err (Errorf "create unique session: %w" [ErrConflict]))).

Definition extendIfDue (manager : Manager S) (record : SessionRecord) (now : time) :
    M S (result SessionRecord) :=
  match extension manager with
  | None => ret (Ok record)
  | Some extension =>
      let lastExtendedAt := default (CreatedAt record) (ExtendedAt record) in
      if Before now (Add lastExtendedAt (ExtendAfter extension)) then ret (Ok record) else
      let absoluteExpiry := Add (CreatedAt record) (AbsoluteLifetime extension) in
      let expiresAt :=
        if After (Add now (lifetime manager)) absoluteExpiry
        then absoluteExpiry else Add now (lifetime manager) in
      if negb (After expiresAt (ExpiresAt record)) then ret (Ok record) else
      r <- store_Extend (store manager) (TokenHash record) now expiresAt ;;
      match r with
      | Err err =>
          if errors_Is err ErrInactive || errors_Is err ErrNotFound then
            _ <- deleteCached manager (TokenHash record) ;;
            ret (Err err)
          else ret (Ok record)
      | Ok extended =>
          if negb (validRecord extended) ||
             negb (String.eqb (TokenHash extended) (TokenHash record)) ||
             negb (ActiveAt extended now)
          then ret (Err ErrInvalidRecord)
          else _ <- populateCache manager extended ;; ret (Ok extended)
      end
  end.

(** The durable half of [Resolve], reached when the cache did not answer. *)
Definition resolveDurable (manager : Manager S) (tokenHash : Hash) (now : time) :
    M S (result SessionRecord) :=
  record <-? wrapped "find durable session: %w"
               (store_FindByTokenHash (store manager) tokenHash) ;;
  if negb (validRecord record) || negb (String.eqb (TokenHash record) tokenHash)
  then ret (Err ErrInvalidRecord) else
  if negb (ActiveAt record now) then
    match cache manager with
    | Some cache => _ <- cache_Delete cache tokenHash ;; ret (Err ErrInactive)
    | None => ret (Err ErrInactive)
    end
  else
    record <-? extendIfDue manager record now ;;
    _ <- populateCache manager record ;;
    ret (Ok record).

Definition Resolve (manager : Manager S) (rawToken : string) : M S (result SessionRecord) :=
  match HashToken rawToken with
  | Err err => ret (Err err)
  | Ok tokenHash =>
      now <- read_now (now manager) ;;
      match cache manager with
      | None => resolveDurable manager tokenHash now
      | Some cache =>
          r <- cache_Get cache tokenHash ;;
          match r with
          | Err _ => resolveDurable manager tokenHash now
          | Ok cached =>
              if validRecord cached && String.eqb (TokenHash cached) tokenHash then
                if ActiveAt cached now then extendIfDue manager cached now
                else _ <- cache_Delete cache tokenHash ;; resolveDurable manager tokenHash now
              else resolveDurable manager tokenHash now
          end
      end
  end.

(** [Rotate] may return a usable [Issued] together with an error, so its
    success case carries an optional cache error. *)
Definition Rotate (manager : Manager S) (rawToken : string) :
    M S (result (Issued * option error)) :=
  match HashToken rawToken with
  | Err err => ret (Err err)
  | Ok current =>
      record <-? wrapped "find session to rotate: %w"
                   (store_FindByTokenHash (store manager) current) ;;
      if negb (validRecord record) || negb (String.eqb (TokenHash record) current)
      then ret (Err ErrInvalidRecord) else
      now <- read_now (now manager) ;;
      if negb (ActiveAt record now) then ret (Err ErrInactive) else
      for_range creationAttempts
        (r <- newIssued manager (SubjectID record) ;;
         match r with
         | Err err => ret (Return (Err err))
         | Ok replacement =>
             r <- store_Rotate (store manager) current (issued_Record replacement) now ;;
             match r with
             | Err err =>
                 if errors_Is err ErrConflict then ret (Next tt)
                 else ret (Return (Err (Errorf "rotate durable session: %w" [err])))
             | Ok _ =>
                 _ <- populateCache manager (issued_Record replacement) ;;
                 r <- deleteCached manager current ;;
                 match r with
                 | Err err => ret (Return (Ok (replacement, Some err)))
                 | Ok _ => ret (Return (Ok (replacement, None)))
                 end
             end
         end)
        (ret (Err (Errorf "create unique replacement session: %w" [ErrConflict])))
  end.

Definition Revoke (manager : Manager S) (rawToken : string) : M S (result unit) :=
  match HashToken rawToken with
  | Err err => ret (Err err)
  | Ok tokenHash =>
      now <- read_now (now manager) ;;
      _ <-? wrapped "revoke durable session: %w"
              (store_Revoke (store manager) tokenHash now) ;;
      deleteCached manager tokenHash
  end.

Definition List_ (manager : Manager S) (subjectID : string) : M S (result (list SessionRecord)) :=
  if String.eqb (TrimSpace subjectID) ""
  then ret (Err (Errorf "%w: subject ID is required" [ErrInvalidRecord])) else
  records <-? wrapped "list durable sessions: %w"
                (store_ListBySubject (store manager) subjectID) ;;
  for_each records tt
    (fun record _ =>
       if negb (validRecord record) || negb (String.eqb (SubjectID record) subjectID)
       then ret (Return (Err ErrInvalidRecord)) else ret (Next tt))
    (fun _ => ret (Ok records)).

Definition RevokeByID (manager : Manager S) (subjectID sessionID : string) : M S (result unit) :=
  if String.eqb (TrimSpace subjectID) "" || String.eqb (TrimSpace sessionID) ""
  then ret (Err ErrInvalidRecord) else
  records <-? List_ manager subjectID ;;
  for_each records tt
    (fun record _ =>
       if negb (String.eqb (ID record) sessionID) then ret (Next tt) else
       r <- (now <- read_now (now manager) ;;
             _ <-? wrapped "revoke durable session: %w"
                     (store_Revoke (store manager) (TokenHash record) now) ;;
             deleteCached manager (TokenHash record)) ;;
       ret (Return r))
    (fun _ => ret (Err ErrNotFound)).

Definition RevokeAll (manager : Manager S) (subjectID : string) : M S (result unit) :=
  if String.eqb (TrimSpace subjectID) ""
  then ret (Err (Errorf "%w: subject ID is required" [ErrInvalidRecord])) else
  now <- read_now (now manager) ;;
  records <-? wrapped "revoke durable sessions: %w"
                (store_RevokeAll (store manager) subjectID now) ;;
  for_each records None
    (fun record cacheErr =>
       if negb (validRecord record) || negb (String.eqb (SubjectID record) subjectID)
       then ret (Return (Err ErrInvalidRecord)) else
       r <- deleteCached manager (TokenHash record) ;;
       match r with
       | Err err => ret (Next (match cacheErr with None => Some err | Some _ => cacheErr end))
       | Ok _ => ret (Next cacheErr)
       end)
    (fun cacheErr =>
       match cacheErr with None => ret (Ok tt) | Some err => ret (Err err) end).
End Operations.

(** ** Facts *)
Lemma ActiveAt_true record at_ :
  ActiveAt record at_ = true <-> RevokedAt record = None /\ (at_ < ExpiresAt record)%Z.
Proof.
  unfold ActiveAt. rewrite andb_true_iff, Before_true, negb_true_iff, bool_decide_eq_false.
  by rewrite <- eq_None_not_Some.
Qed.

Lemma ActiveAt_revoked record at_ : RevokedAt record <> None -> ActiveAt record at_ = false.
Proof.
  intros H. apply not_true_iff_false. by rewrite ActiveAt_true; intros [? _].
Qed.
