(* ===== verification/SessionSpec.v ===== *)
(** * What sessions promise

    The contract between the session manager and its storage, which may keep less
    of a time than it is given, the abstract session machine, the refinement of
    every manager operation by that machine, and the session theorems. *)
From S2P Require Import Prelude GoText Base64 Sha256 Token SessionToken.

(** ** The abstract machine

    Durable sessions and cached copies, both by token hash. *)
Record sessions_state : Type := mkState {
  durable : gmap string SessionRecord;
  cached : gmap string SessionRecord;
}.

Definition revoke_record (at_ : time) (r : SessionRecord) : SessionRecord :=
  mkRecord (ID r) (SubjectID r) (TokenHash r) (CreatedAt r) (ExpiresAt r) (ExtendedAt r)
    (Some (default at_ (RevokedAt r))).

Definition extend_record (at_ expires : time) (r : SessionRecord) : SessionRecord :=
  mkRecord (ID r) (SubjectID r) (TokenHash r) (CreatedAt r) expires (Some at_) (RevokedAt r).

Definition revoke_subject (subject : string) (at_ : time) (r : SessionRecord) : SessionRecord :=
  if String.eqb (SubjectID r) subject then revoke_record at_ r else r.

(** The records that [RevokeAll] returns, when [rows] are those of the state. *)
Lemma revoked_records (rows : list SessionRecord) (σ : gmap string SessionRecord) subject at_ r :
  (forall a, a ∈ rows <-> σ !! TokenHash a = Some a) -> (forall k a, σ !! k = Some a -> TokenHash a = k) ->
  r ∈ revoke_record at_ <$> List.filter (fun a => bool_decide (SubjectID a = subject)) rows <->
    (revoke_subject subject at_ <$> σ) !! TokenHash r = Some r /\ SubjectID r = subject.
Proof.
  intros Hrows Hkeys. rewrite list_elem_of_fmap, lookup_fmap_Some. split.
  - intros (a & -> & Ha%list_elem_of_In). apply filter_In in Ha as [Ha%list_elem_of_In Hsub]. go_bool. split; [|done]. exists a.
    unfold revoke_subject. rewrite (proj2 (String.eqb_eq _ _) Hsub). split; [done|]. by apply (proj1 (Hrows a)).
  - intros [(a & <- & Ha) Hsub]. exists a. unfold revoke_subject in *.
    destruct (String.eqb_spec (SubjectID a) subject) as [E|E]; [|done]. split; [done|].
    apply list_elem_of_In, filter_In. rewrite bool_decide_eq_true. split; [|done]. apply list_elem_of_In, (proj2 (Hrows a)). by rewrite (Hkeys _ _ Ha).
Qed.

Section Machine.
Context {S : Type} (manager : Manager S).

(** One effect of the manager on the state. *)
Inductive session_step : sessions_state -> sessions_state -> Prop :=
| step_create σ κ r :
    σ !! TokenHash r = None ->
    ExpiresAt r = Add (CreatedAt r) (lifetime manager) ->
    ExtendedAt r = None -> RevokedAt r = None ->
    session_step (mkState σ κ) (mkState (<[TokenHash r := r]> σ) κ)
| step_extend σ κ h r e now expires :
    σ !! h = Some r ->
    extension manager = Some e ->
    RevokedAt r = None -> (now < ExpiresAt r < expires)%Z ->
    (expires <= Add (CreatedAt r) (AbsoluteLifetime e))%Z ->
    session_step (mkState σ κ) (mkState (<[h := extend_record now expires r]> σ) κ)
| step_rotate σ κ h r now replacement :
    σ !! h = Some r -> σ !! TokenHash replacement = None ->
    RevokedAt r = None -> (now < ExpiresAt r)%Z ->
    SubjectID replacement = SubjectID r ->
    ExpiresAt replacement = Add (CreatedAt replacement) (lifetime manager) ->
    ExtendedAt replacement = None -> RevokedAt replacement = None ->
    session_step (mkState σ κ)
      (mkState (<[TokenHash replacement := replacement]> (<[h := revoke_record now r]> σ)) κ)
| step_revoke σ κ h r now :
    σ !! h = Some r ->
    session_step (mkState σ κ) (mkState (<[h := revoke_record now r]> σ) κ)
| step_revoke_all σ κ subject now :
    session_step (mkState σ κ) (mkState (revoke_subject subject now <$> σ) κ)
| step_cache_fill σ κ h r :
    σ !! h = Some r -> RevokedAt r = None ->
    session_step (mkState σ κ) (mkState σ (<[h := r]> κ))
| step_cache_drop σ κ κ' :
    κ' ⊆ κ -> session_step (mkState σ κ) (mkState σ κ').

Definition session_steps : sessions_state -> sessions_state -> Prop := rtc session_step.
End Machine.

(** ** The contract of storage

    [view] reads the abstract state off the world's state and [wf] is the
    store's own invariant. A call that fails leaves the durable sessions as they
    were; a cache may lose entries at any time.

    A database keeps less of a time than the program has: [kept] is what it keeps
    of a time and [keep] of a record; [told] is the time of a revocation in the
    records [RevokeAll] answers with. A store keeps the contract itself when these
    are the times and records it is given. *)
Section Contract.
Context {S : Type}.

Definition durable_unchanged (s s' : sessions_state) : Prop :=
  durable s' = durable s /\ cached s' ⊆ cached s.

Class KeptStoreContract (keep : SessionRecord -> SessionRecord) (kept told : time -> time)
    (st : Store S) (wf : S -> Prop) (view : S -> sessions_state) : Prop := {
  store_keyed w h r : wf (ext w) -> durable (view (ext w)) !! h = Some r -> TokenHash r = h;
  store_Create_ok r w : wf (ext w) ->
    wp (store_Create st r) (fun res w' => wf (ext w') /\
      match res with
      | Ok _ => durable (view (ext w)) !! TokenHash r = None /\
                durable (view (ext w')) = <[TokenHash r := keep r]> (durable (view (ext w))) /\
                cached (view (ext w')) ⊆ cached (view (ext w))
      | Err _ => durable_unchanged (view (ext w)) (view (ext w'))
      end) w;
  store_Find_ok h w : wf (ext w) ->
    wp (store_FindByTokenHash st h) (fun res w' => wf (ext w') /\
      durable_unchanged (view (ext w)) (view (ext w')) /\
      forall r, res = Ok r -> durable (view (ext w)) !! h = Some r) w;
  store_List_ok subject w : wf (ext w) ->
    wp (store_ListBySubject st subject) (fun res w' => wf (ext w') /\
      durable_unchanged (view (ext w)) (view (ext w')) /\
      forall rs, res = Ok rs -> forall r,
        r ∈ rs <-> durable (view (ext w)) !! TokenHash r = Some r /\ SubjectID r = subject) w;
  store_Extend_ok h now expires w : wf (ext w) ->
    wp (store_Extend st h now expires) (fun res w' => wf (ext w') /\
      match res with
      | Ok r' => exists r, durable (view (ext w)) !! h = Some r /\ RevokedAt r = None /\
                  (kept now < ExpiresAt r < kept expires)%Z /\ r' = extend_record (kept now) (kept expires) r /\
                  durable (view (ext w')) = <[h := r']> (durable (view (ext w))) /\
                  cached (view (ext w')) ⊆ cached (view (ext w))
      | Err _ => durable_unchanged (view (ext w)) (view (ext w'))
      end) w;
  store_Rotate_ok h replacement now w : wf (ext w) ->
    wp (store_Rotate st h replacement now) (fun res w' => wf (ext w') /\
      match res with
      | Ok _ => exists r, durable (view (ext w)) !! h = Some r /\
                  durable (view (ext w)) !! TokenHash replacement = None /\
                  RevokedAt r = None /\ (now < ExpiresAt r)%Z /\
                  durable (view (ext w')) =
                    <[TokenHash replacement := keep replacement]>
                      (<[h := revoke_record (kept now) r]> (durable (view (ext w)))) /\
                  cached (view (ext w')) ⊆ cached (view (ext w))
      | Err _ => durable_unchanged (view (ext w)) (view (ext w'))
      end) w;
  store_Revoke_ok h now w : wf (ext w) ->
    wp (store_Revoke st h now) (fun res w' => wf (ext w') /\
      match res with
      | Ok _ => exists r, durable (view (ext w)) !! h = Some r /\
                  durable (view (ext w')) = <[h := revoke_record (kept now) r]> (durable (view (ext w))) /\
                  cached (view (ext w')) ⊆ cached (view (ext w))
      | Err _ => durable_unchanged (view (ext w)) (view (ext w'))
      end) w;
  store_RevokeAll_ok subject now w : wf (ext w) ->
    wp (store_RevokeAll st subject now) (fun res w' => wf (ext w') /\
      match res with
      | Ok rs => durable (view (ext w')) = revoke_subject subject (kept now) <$> durable (view (ext w)) /\
                  cached (view (ext w')) ⊆ cached (view (ext w)) /\
                  forall r, r ∈ rs <->
                    (revoke_subject subject (told now) <$> durable (view (ext w))) !! TokenHash r = Some r /\
                    SubjectID r = subject
      | Err _ => durable_unchanged (view (ext w)) (view (ext w'))
      end) w;
}.

End Contract.

(** What is given is kept. *)
Abbreviation StoreContract := (KeptStoreContract (fun r => r) (fun t => t) (fun t => t)).

Section Clients.
Context {S : Type}.

Class CacheContract (c : Cache S) (wf : S -> Prop) (view : S -> sessions_state) : Prop := {
  cache_Get_ok h w : wf (ext w) ->
    wp (cache_Get c h) (fun res w' => wf (ext w') /\
      durable_unchanged (view (ext w)) (view (ext w')) /\
      forall r, res = Ok r -> cached (view (ext w)) !! h = Some r) w;
  cache_Set_ok r ttl w : wf (ext w) ->
    wp (cache_Set c r ttl) (fun _ w' => wf (ext w') /\
      durable (view (ext w')) = durable (view (ext w)) /\
      (cached (view (ext w')) ⊆ <[TokenHash r := r]> (cached (view (ext w))) \/
       cached (view (ext w')) ⊆ cached (view (ext w)))) w;
  cache_Delete_ok h w : wf (ext w) ->
    wp (cache_Delete c h) (fun res w' => wf (ext w') /\
      durable_unchanged (view (ext w)) (view (ext w')) /\
      (res = Ok tt -> cached (view (ext w')) !! h = None)) w;
}.

(** A manager whose store and cache keep their contracts. *)
Class SessionBackend (manager : Manager S) (wf : S -> Prop) (view : S -> sessions_state) : Prop := {
  backend_store :: StoreContract (store manager) wf view;
  backend_cache c : cache manager = Some c -> CacheContract c wf view;
}.
End Clients.

Lemma durable_unchanged_refl s : durable_unchanged s s.
Proof. done. Qed.
#[export] Hint Resolve durable_unchanged_refl : core.

(** ** Invariants of the machine *)
Section Invariants.
Context {S : Type} (manager : Manager S).

(** A cached copy is a copy of a durable session: it may be stale in its
    expiry and revocation, never in its identity. *)
Definition coherent (s : sessions_state) : Prop :=
  forall h c, cached s !! h = Some c ->
    exists r, durable s !! h = Some r /\
      ID c = ID r /\ SubjectID c = SubjectID r /\ CreatedAt c = CreatedAt r.

Lemma coherent_step s s' : session_step manager s s' -> coherent s -> coherent s'.
Proof.
  intros Hstep Hco h c. destruct Hstep as
    [σ κ r Hn|σ κ h0 r e now0 ex Hr|σ κ h0 r now0 rep Hr Hn|σ κ h0 r now0 Hr
    |σ κ subj now0|σ κ h0 r Hr|σ κ κ' Hsub]; simpl; intros Hc.
  - destruct (Hco h c Hc) as (r0 & Hr0 & ?). simpl in *. exists r0.
    rewrite lookup_insert_ne; [done|]. congruence.
  - destruct (Hco h c Hc) as (r0 & Hr0 & ?). simpl in *.
    destruct (decide (h0 = h)) as [->|]; simplify_map_eq; eauto.
  - destruct (Hco h c Hc) as (r0 & Hr0 & ?). simpl in *.
    assert (TokenHash rep <> h) by congruence.
    destruct (decide (h0 = h)) as [->|]; simplify_map_eq; eauto.
  - destruct (Hco h c Hc) as (r0 & Hr0 & ?). simpl in *.
    destruct (decide (h0 = h)) as [->|]; simplify_map_eq; eauto.
  - destruct (Hco h c Hc) as (r0 & Hr0 & ?). simpl in *.
    exists (revoke_subject subj now0 r0). rewrite lookup_fmap, Hr0. simpl.
    unfold revoke_subject. by destruct (String.eqb _ _).
  - destruct (decide (h0 = h)) as [->|]; simplify_map_eq; [eauto|]. exact (Hco h c Hc).
  - apply (Hco h c). simpl. eapply lookup_weaken; eauto.
Qed.

Lemma coherent_steps s s' : session_steps manager s s' -> coherent s -> coherent s'.
Proof. induction 1; eauto using coherent_step. Qed.
End Invariants.

(** ** Refinement *)
Section Refinement.
Context {S : Type} `{Env} (manager : Manager S) (wf : S -> Prop) (view : S -> sessions_state).
Context `{!SessionBackend manager wf view}.

Abbreviation abs w := (view (ext w)).
Abbreviation steps := (session_steps manager).

#[local] Hint Resolve rtc_refl : core.

Lemma steps_trans s1 s2 s3 : steps s1 s2 -> steps s2 s3 -> steps s1 s3.
Proof. intros H1 H2. unfold session_steps in *. by etrans. Qed.

(** An effect on the durable sessions, then a loss of cached entries. *)
Lemma steps_effect s σ κ s' :
  session_step manager s (mkState σ κ) -> durable s' = σ -> cached s' ⊆ κ -> steps s s'.
Proof.
  intros Hs <- Hsub. eapply rtc_l; [exact Hs|]. apply rtc_once.
  destruct s' as [σ' κ']. by constructor.
Qed.

Lemma steps_unchanged s s' : durable_unchanged s s' -> steps s s'.
Proof.
  intros [Hd Hc]. destruct s as [σ κ], s' as [σ' κ']; simpl in *; subst.
  apply rtc_once. by constructor.
Qed.

Lemma durable_unchanged_trans s1 s2 s3 :
  durable_unchanged s1 s2 -> durable_unchanged s2 s3 -> durable_unchanged s1 s3.
Proof.
  intros [Hd1 Hc1] [Hd2 Hc2]. split; [congruence | by etrans].
Qed.

(** The cached copy of [h] is gone, or the error says it may not be. *)
Lemma wp_deleteCached h w :
  wf (ext w) ->
  wp (deleteCached manager h) (fun r w' => wf (ext w') /\
    durable_unchanged (abs w) (abs w') /\
    match r with
    | Ok _ => is_Some (cache manager) -> cached (abs w') !! h = None
    | Err e => errors_Is e ErrCacheSync = true
    end) w.
Proof.
  intros Hwf. unfold deleteCached. destruct (cache manager) as [c|] eqn:Hc; wp_go;
    [|split_and!; [done|done|by intros [? [=]]]].
  pose proof (backend_cache c Hc).
  eapply wp_mono; [by apply cache_Delete_ok|]. intros [[]|e] w' (? & ? & Hdel); wp_go; [|done].
  split_and!; [done|done|]. intros _. by apply Hdel.
Qed.

Lemma wp_populateCache r w :
  wf (ext w) -> durable (abs w) !! TokenHash r = Some r -> RevokedAt r = None ->
  wp (populateCache manager r) (fun _ w' => wf (ext w') /\
    durable (abs w') = durable (abs w) /\ steps (abs w) (abs w')) w.
Proof.
  intros Hwf Hr Hrev. unfold populateCache. destruct (cache manager) as [c|] eqn:Hc; wp_go;
    [by split_and! | | by split_and!].
  pose proof (backend_cache c Hc).
  eapply wp_mono; [by apply cache_Set_ok|]. intros _ w' (? & Hd & Hsub). wp_go.
  split_and!; [done|done|]. rewrite ext_tick in Hd, Hsub.
  destruct Hsub as [Hsub|Hsub]; [|by apply steps_unchanged].
  destruct (abs w) as [σ κ]; simpl in *.
  by eapply steps_effect; [apply (step_cache_fill _ σ κ (TokenHash r) r)|..].
Qed.

(** What an extension may change: nothing, or the expiry of the session. *)
Lemma wp_extendIfDue record now w :
  wf (ext w) -> coherent (abs w) ->
  (exists r, durable (abs w) !! TokenHash record = Some r /\ CreatedAt r = CreatedAt record) ->
  wp (extendIfDue manager record now) (fun res w' => wf (ext w') /\
    steps (abs w) (abs w') /\
    forall r', res = Ok r' ->
      (r' = record /\ durable (abs w') = durable (abs w)) \/
      (durable (abs w') !! TokenHash r' = Some r' /\ RevokedAt r' = None)) w.
Proof.
  intros Hwf Hco (r0 & Hr0 & Hcreated). unfold extendIfDue.
  destruct (extension manager) as [e|] eqn:He; wp_go;
    [by split_and!; [..|intros ? [= <-]; left]|
     by split_and!; [..|intros ? [= <-]; left]| |
     by split_and!; [..|intros ? [= <-]; left]].
  eapply wp_mono; [by apply store_Extend_ok|]. intros res w' [Hwf' Hres].
  destruct res as [extended|err].
  - destruct Hres as (r & Hr & Hrev & Hnow & -> & Hd & Hc).
    assert (r0 = r) as -> by congruence.
    wp_go.
    + split_and!; [done| |done].
      destruct (abs w) as [σ κ]; simpl in *.
      eapply steps_effect; [eapply step_extend; eauto|done..].
      rewrite Hcreated. go_bool. destruct (After _ _) eqn:?; go_bool; lia.
    + go_bool. set (extended := extend_record now _ r) in *.
      assert (Hstep : steps (abs w) (abs w')).
      { destruct (abs w) as [σ κ]; simpl in *.
        eapply steps_effect; [eapply step_extend; eauto|done..].
        rewrite Hcreated. destruct (After _ _) eqn:?; go_bool; lia. }
      eapply wp_mono; [apply (wp_populateCache extended); [done| |done]|].
      { by rewrite Hd, H2, lookup_insert_eq. }
      intros _ w'' (? & Hd' & ?). wp_go. split_and!; [done|by eapply steps_trans|].
      intros ? [= <-]. right. by rewrite Hd', Hd, H2, lookup_insert_eq.
  - wp_go.
    + eapply wp_mono; [by apply wp_deleteCached|]. intros _ w'' (? & Hu & _). wp_go.
      split_and!; [done| |done].
      by eapply steps_unchanged, durable_unchanged_trans.
    + split_and!; [done|by apply steps_unchanged|]. intros ? [= <-]. left. by destruct Hres.
Qed.

Lemma wp_newIssued subject w :
  wp (newIssued manager subject) (fun r w' => ext w' = ext w /\
    forall i, r = Ok i ->
      HashToken (issued_Token i) = Ok (TokenHash (issued_Record i)) /\
      SubjectID (issued_Record i) = subject /\
      ExpiresAt (issued_Record i) = Add (CreatedAt (issued_Record i)) (lifetime manager) /\
      ExtendedAt (issued_Record i) = None /\ RevokedAt (issued_Record i) = None) w.
Proof.
  unfold newIssued. wp_go; [|by split].
  apply wp_Generate; [|by split]. intros raw h Hh. wp_go. split; [done|].
  by intros ? [= <-].
Qed.

Lemma durable_known s h r : durable s !! h = Some r ->
  exists r', durable s !! h = Some r' /\ CreatedAt r' = CreatedAt r.
Proof. eauto. Qed.

Lemma wp_resolveDurable h now w :
  wf (ext w) -> coherent (abs w) ->
  wp (resolveDurable manager h now) (fun res w' => wf (ext w') /\ steps (abs w) (abs w')) w.
Proof.
  intros Hwf Hco. unfold resolveDurable. wp_go.
  eapply wp_mono; [by apply store_Find_ok|]. intros [r|e] w1 (Hwf1 & Hu1 & Hfound); wp_go;
    [| | | |by auto using steps_unchanged].
  - by auto using steps_unchanged.
  - pose proof (backend_cache _ Heqo).
    eapply wp_mono; [by apply cache_Delete_ok|]. intros _ w2 (? & Hu & _). wp_go.
    split; [done|]. by eapply steps_unchanged, durable_unchanged_trans.
  - by auto using steps_unchanged.
  - go_bool. specialize (Hfound r eq_refl). subst.
    assert (Hs1 : steps (abs w) (abs w1)) by by apply steps_unchanged.
    assert (Hr1 : durable (abs w1) !! TokenHash r = Some r) by by destruct Hu1 as [-> _].
    eapply wp_mono; [apply wp_extendIfDue; [done| |by eapply durable_known]|].
    { by eapply coherent_steps. }
    intros [r'|e] w2 (? & ? & Hres); [|by split; [|eapply steps_trans]].
    assert (durable (abs w2) !! TokenHash r' = Some r' /\ RevokedAt r' = None) as [Hr' Hrev'].
    { destruct (Hres r' eq_refl) as [[-> ->]|]; [|done]. split; [done|].
      by eapply ActiveAt_true. }
    apply wp_bind. eapply wp_mono; [by apply wp_populateCache|].
    intros _ w3 (? & ? & ?). wp_go. split; [done|]. by do 2 (eapply steps_trans; [done|]).
Qed.

(** Every operation is a sequence of steps of the machine. *)
Definition refined {A} (m : M S A) : Prop :=
  forall w, wf (ext w) -> coherent (abs w) ->
    wp m (fun _ w' => wf (ext w') /\ steps (abs w) (abs w')) w.

Lemma refined_Resolve raw : refined (Resolve manager raw).
Proof.
  intros w Hwf Hco. unfold Resolve. wp_go; [| |by auto].
  - pose proof (backend_cache _ Heqo).
    eapply wp_mono; [by apply cache_Get_ok|]. intros res w1 (Hwf1 & Hu1 & Hhit).
    rewrite ext_tick in *.
    assert (Hs1 : steps (abs w) (abs w1)) by by apply steps_unchanged.
    assert (Hco1 : coherent (abs w1)) by by eapply coherent_steps.
    assert (Hdur : forall w2, wf (ext w2) -> steps (abs w) (abs w2) ->
      wp (resolveDurable manager value (now manager (ticks w)))
        (fun _ w' => wf (ext w') /\ steps (abs w) (abs w')) w2).
    { intros w2 ? ?. eapply wp_mono; [apply wp_resolveDurable; [done|by eapply coherent_steps]|].
      intros _ w3 [? ?]. split; [done|by eapply steps_trans]. }
    wp_go; [| |by apply Hdur..].
    + go_bool. specialize (Hhit _ eq_refl). destruct (Hco _ _ Hhit) as (r & Hr & _ & _ & Hcr).
      eapply wp_mono; [apply wp_extendIfDue; [done..|]|].
      { subst. destruct Hu1 as [-> _]. eauto. }
      intros _ w2 (? & ? & _). split; [done|by eapply steps_trans].
    + eapply wp_mono; [by apply cache_Delete_ok|]. intros _ w2 (? & Hu & _).
      apply Hdur; [done|]. by eapply steps_unchanged, durable_unchanged_trans.
  - by apply (wp_resolveDurable _ _ (tick w)).
Qed.

(** A new credential names a fresh live session. *)
Definition live_session (i : Issued) (subject : string) (s : sessions_state) : Prop :=
  HashToken (issued_Token i) = Ok (TokenHash (issued_Record i)) /\
  durable s !! TokenHash (issued_Record i) = Some (issued_Record i) /\
  SubjectID (issued_Record i) = subject /\
  ExpiresAt (issued_Record i) = Add (CreatedAt (issued_Record i)) (lifetime manager) /\
  ExtendedAt (issued_Record i) = None /\ RevokedAt (issued_Record i) = None.

Lemma wp_Create subject w :
  wf (ext w) -> coherent (abs w) ->
  wp (Create manager subject) (fun res w' => wf (ext w') /\ steps (abs w) (abs w') /\
    forall i, res = Ok i -> live_session i subject (abs w') /\
      durable (abs w') = <[TokenHash (issued_Record i) := issued_Record i]> (durable (abs w)) /\
      durable (abs w) !! TokenHash (issued_Record i) = None) w.
Proof.
  intros Hwf Hco. unfold Create. wp_go; [by auto|].
  apply (wp_for_range _ _ _ _ (fun w' => wf (ext w') /\ durable_unchanged (abs w) (abs w')));
    [by auto| |intros w1 [? ?]; wp_go; by split_and!; [|apply steps_unchanged|]].
  intros w1 [Hwf1 Hu1]. wp_go. eapply wp_mono; [apply wp_newIssued|].
  intros [i|e] w2 [He Hi]; wp_go; [|by rewrite He; split_and!; [|apply steps_unchanged|]].
  destruct (Hi i eq_refl) as (Htok & Hsub & Hex & Hxt & Hrv). rewrite <- He in Hwf1, Hu1.
  eapply wp_mono; [by apply store_Create_ok|]. intros [[]|e] w3 [Hwf3 Hres]; wp_go;
    [|by split; [|eapply durable_unchanged_trans]
     |by split_and!; [|eapply steps_unchanged, durable_unchanged_trans|]].
  destruct Hres as (Hn & Hd & Hc).
  assert (Hs3 : steps (abs w2) (abs w3)).
  { destruct (abs w2) as [σ κ]; simpl in *.
    eapply steps_effect; [by eapply step_create|done..]. }
  eapply wp_mono; [apply (wp_populateCache (issued_Record i)); [done| |done]|].
  { by rewrite Hd, lookup_insert_eq. }
  intros _ w4 (? & Hd4 & ?). wp_go. split_and!; [done| |].
  - eapply steps_trans; [by apply steps_unchanged|]. by do 2 (eapply steps_trans; [done|]).
  - intros ? [= <-]. destruct Hu1 as [Hu1 _].
    unfold live_session. rewrite Hd4, Hd, Hu1, lookup_insert_eq. rewrite Hu1 in Hn.
    by split_and!.
Qed.

Lemma wp_Rotate raw w :
  wf (ext w) -> coherent (abs w) ->
  wp (Rotate manager raw) (fun res w' => wf (ext w') /\ steps (abs w) (abs w') /\
    forall i sync, res = Ok (i, sync) -> exists h r r',
      HashToken raw = Ok h /\ durable (abs w) !! h = Some r /\ RevokedAt r = None /\
      durable (abs w') !! h = Some r' /\ RevokedAt r' <> None /\
      TokenHash (issued_Record i) <> h /\ live_session i (SubjectID r) (abs w') /\
      match sync with
      | None => is_Some (cache manager) -> cached (abs w') !! h = None
      | Some e => errors_Is e ErrCacheSync = true
      end) w.
Proof.
  intros Hwf Hco. unfold Rotate. wp_go; [|by split_and!].
  eapply wp_mono; [by apply store_Find_ok|]. intros [r|e] w1 (Hwf1 & Hu1 & Hfound); wp_go;
    try (by split_and!; [|apply steps_unchanged|]).
  go_bool. specialize (Hfound r eq_refl). subst.
  apply (wp_for_range _ _ _ _ (fun w' => wf (ext w') /\ durable_unchanged (abs w) (abs w')));
    [by rewrite ext_tick| |intros w2 [? ?]; wp_go; by split_and!; [|apply steps_unchanged|]].
  intros w2 [Hwf2 Hu2]. wp_go. eapply wp_mono; [apply wp_newIssued|].
  intros [i|e] w3 [He Hi]; wp_go; [|rewrite He; by split_and!; [|apply steps_unchanged|]].
  destruct (Hi i eq_refl) as (Htok & Hsub & Hex & Hxt & Hrv). rewrite <- He in Hwf2, Hu2.
  eapply wp_mono; [by apply store_Rotate_ok|]. intros [[]|e] w4 [Hwf4 Hres]; wp_go;
    [|by split; [|eapply durable_unchanged_trans]
     |by split_and!; [|eapply steps_unchanged, durable_unchanged_trans|]].
  destruct Hres as (r' & Hr' & Hn & Hrev & Hlt & Hd & Hc).
  assert (r' = r) as -> by (destruct Hu2 as [Hu2 _]; congruence).
  assert (Hs4 : steps (abs w) (abs w4)).
  { eapply steps_trans; [by apply steps_unchanged|].
    destruct (abs w3) as [σ κ]; simpl in *.
    eapply steps_effect; [by eapply step_rotate|done..]. }
  assert (Hne : TokenHash (issued_Record i) <> TokenHash r) by congruence.
  eapply wp_mono; [apply (wp_populateCache (issued_Record i)); [done| |done]|].
  { by rewrite Hd, lookup_insert_eq. }
  intros _ w5 (? & Hd5 & ?). wp_go. eapply wp_mono; [by apply wp_deleteCached|].
  intros r5 w6 (? & Hu & Hdel).
  assert (Hs6 : steps (abs w) (abs w6))
    by (do 2 (eapply steps_trans; [done|]); by apply steps_unchanged).
  assert (Hd6 : durable (abs w6) = durable (abs w4)) by (destruct Hu; congruence).
  destruct r5 as [[]|e]; wp_go; (split_and!; [done..|]); intros ? ? [= <- <-];
    exists (TokenHash r), r, (revoke_record (now manager (ticks w1)) r);
    unfold live_session; rewrite Hd6, Hd, lookup_insert_eq, lookup_insert_ne, lookup_insert_eq by done;
    by split_and!.
Qed.

Lemma wp_revokeHash h w :
  wf (ext w) ->
  wp (_ <-? wrapped "revoke durable session: %w"
              (store_Revoke (store manager) h (now manager (ticks w))) ;; deleteCached manager h)
    (fun res w' => wf (ext w') /\ steps (abs w) (abs w') /\
       (res = Ok tt -> (exists r, durable (abs w') !! h = Some r /\ RevokedAt r <> None) /\
         (is_Some (cache manager) -> cached (abs w') !! h = None))) (tick w).
Proof.
  intros Hwf. wp_go.
  eapply wp_mono; [by apply store_Revoke_ok|]. intros [[]|e] w1 [Hwf1 Hres]; wp_go;
    [|by split_and!; [|apply steps_unchanged|]].
  rewrite ext_tick in Hres. destruct Hres as (r & Hr & Hd & Hc).
  assert (Hs : steps (abs w) (abs w1)).
  { destruct (abs w) as [σ κ]; simpl in *.
    eapply steps_effect; [by eapply step_revoke|done..]. }
  eapply wp_mono; [by apply wp_deleteCached|]. intros res w2 (? & [Hd2 Hc2] & Hdel).
  split_and!; [done|by eapply steps_trans, steps_unchanged|]. intros ->. split; [|by auto].
  exists (revoke_record (now manager (ticks w)) r). by rewrite Hd2, Hd, lookup_insert_eq.
Qed.

Lemma wp_Revoke raw w :
  wf (ext w) -> coherent (abs w) ->
  wp (Revoke manager raw) (fun res w' => wf (ext w') /\ steps (abs w) (abs w') /\
    (res = Ok tt -> exists h r, HashToken raw = Ok h /\
       durable (abs w') !! h = Some r /\ RevokedAt r <> None /\
       (is_Some (cache manager) -> cached (abs w') !! h = None))) w.
Proof.
  intros Hwf Hco. unfold Revoke. destruct (HashToken raw) as [h|e] eqn:Hh; [|by wp_go].
  apply wp_bind, wp_read_now. eapply wp_mono; [by apply wp_revokeHash|].
  intros res w' (? & ? & Hok). split_and!; [done|done|].
  intros ->. destruct (Hok eq_refl) as [(r & ? & ?) ?]. by exists h, r.
Qed.

Lemma wp_List_ subject w :
  wf (ext w) ->
  wp (List_ manager subject) (fun res w' => wf (ext w') /\
    durable_unchanged (abs w) (abs w') /\
    forall rs, res = Ok rs ->
      (forall r, r ∈ rs <-> durable (abs w) !! TokenHash r = Some r /\ SubjectID r = subject) /\
      Forall (fun r => validRecord r = true) rs) w.
Proof.
  intros Hwf. unfold List_. wp_go; [done|].
  eapply wp_mono; [by apply store_List_ok|]. intros [rs|e] w1 (Hwf1 & Hu & Hrs); wp_go; [|done].
  apply (wp_for_each _ _ _ _ _ (fun todo _ w' => w' = w1 /\
    exists done_, rs = done_ ++ todo /\ Forall (fun r => validRecord r = true) done_)).
  - split; [done|]. by exists [].
  - intros r l _ w2 [-> (done_ & -> & Hd)]. wp_go; [done|]. split; [done|].
    exists (done_ ++ [r]). go_bool. rewrite <- app_assoc. split; [done|].
    apply Forall_app. split; [done|]. by repeat constructor.
  - intros _ w2 [-> (done_ & -> & Hd)]. wp_go. split_and!; [done|done|].
    intros ? [= <-]. rewrite app_nil_r in *. auto.
Qed.

Lemma refined_List_ subject : refined (List_ manager subject).
Proof.
  intros w Hwf Hco. eapply wp_mono; [by apply wp_List_|].
  intros ? w' (? & ? & _). by auto using steps_unchanged.
Qed.

Lemma wp_RevokeByID subject id w :
  wf (ext w) -> coherent (abs w) ->
  wp (RevokeByID manager subject id) (fun res w' => wf (ext w') /\ steps (abs w) (abs w') /\
    (res = Ok tt -> exists h r r',
       durable (abs w) !! h = Some r /\ SubjectID r = subject /\ ID r = id /\
       durable (abs w') !! h = Some r' /\ RevokedAt r' <> None /\
       (is_Some (cache manager) -> cached (abs w') !! h = None))) w.
Proof.
  intros Hwf Hco. unfold RevokeByID. wp_go; [by auto|].
  eapply wp_mono; [by apply wp_List_|]. intros [rs|e] w1 (Hwf1 & Hu & Hrs); wp_go;
    [|by split_and!; [|apply steps_unchanged|]].
  destruct (Hrs rs eq_refl) as [Hin _].
  apply (wp_for_each _ _ _ _ _ (fun todo _ w' => w' = w1 /\ forall r, r ∈ todo -> r ∈ rs)).
  - by split.
  - intros r l _ w2 [-> Hsub]. wp_step; go_red.
    { wp_go. split; [done|]. intros r' ?. apply Hsub. by right. }
    go_bool. apply wp_bind, wp_bind, wp_read_now.
    eapply wp_mono; [by apply wp_revokeHash|]. intros res w2 (? & ? & Hok). wp_go.
    split_and!; [done|by eapply steps_trans; [by apply steps_unchanged|]|].
    intros ->. destruct (Hok eq_refl) as [(r' & ? & ?) ?].
    assert (Hr : r ∈ rs) by (apply Hsub; by left). apply Hin in Hr as [? ?].
    by exists (TokenHash r), r, r'.
  - intros _ w2 [-> _]. wp_go. by split_and!; [|apply steps_unchanged|].
Qed.

Lemma wp_RevokeAll subject w :
  wf (ext w) -> coherent (abs w) ->
  wp (RevokeAll manager subject) (fun res w' => wf (ext w') /\ steps (abs w) (abs w') /\
    (res = Ok tt -> forall h r, durable (abs w') !! h = Some r -> SubjectID r = subject ->
       RevokedAt r <> None /\ (is_Some (cache manager) -> cached (abs w') !! h = None))) w.
Proof.
  intros Hwf Hco. unfold RevokeAll. wp_go; [by auto|].
  eapply wp_mono; [by apply store_RevokeAll_ok|]. intros [rs|e] w1 [Hwf1 Hres]; wp_go;
    [|by split_and!; [|apply steps_unchanged|]].
  destruct Hres as (Hd & Hc & Htold). rewrite ext_tick in Hd, Hc.
  assert (Hin : forall r, r ∈ rs <-> durable (abs w1) !! TokenHash r = Some r /\ SubjectID r = subject)
    by (rewrite Hd; exact Htold).
  assert (Hs : steps (abs w) (abs w1)).
  { destruct (abs w) as [σ κ]; simpl in *.
    by eapply steps_effect; [apply step_revoke_all|..]. }
  (* [gone r]: the cached copy of [r] has been removed *)
  set (gone := fun w' r => is_Some (cache manager) -> cached (abs w') !! TokenHash r = None).
  apply (wp_for_each _ _ _ _ _ (fun todo err w' => wf (ext w') /\
    durable_unchanged (abs w1) (abs w') /\
    exists done_, rs = done_ ++ todo /\ (err = None -> Forall (gone w') done_))).
  - split_and!; [done|done|]. by exists [].
  - intros r l err w2 (Hwf2 & Hu2 & done_ & -> & Hd2). wp_go.
    { split_and!; [done|by eapply steps_trans, steps_unchanged|done]. }
    eapply wp_mono; [by apply wp_deleteCached|].
    intros [[]|e] w3 (? & Hu3 & Hdel); wp_go;
      (split_and!; [done|by eapply durable_unchanged_trans|]);
      exists (done_ ++ [r]); rewrite <- app_assoc; (split; [done|]).
    + intros Hnone. apply Forall_app. split.
      * eapply Forall_impl; [|by apply Hd2]. intros r' Hg Hsome. specialize (Hg Hsome).
        eapply lookup_weaken_None; [exact Hg|]. by destruct Hu3.
      * repeat constructor. intros ?. by apply Hdel.
    + by destruct err.
  - intros err w2 (Hwf2 & Hu2 & done_ & -> & Hd2).
    assert (Hs2 : steps (abs w) (abs w2)) by by eapply steps_trans, steps_unchanged.
    wp_go; [done|]. split_and!; [done|done|]. intros _ h r Hr Hsub.
    destruct Hu2 as [Hdu Hcu]. rewrite Hdu in Hr.
    assert (Hk : TokenHash r = h) by (eapply store_keyed; [exact Hwf1|done]).
    rewrite app_nil_r in Hin. split.
    + rewrite Hd, lookup_fmap in Hr. destruct (durable (abs w) !! h) as [r0|]; [|done].
      injection Hr as <-. unfold revoke_subject in *.
      destruct (String.eqb_spec (SubjectID r0) subject); [done|]. done.
    + intros Hsome. rewrite <- Hk.
      assert (r ∈ done_) as Hrin by (apply Hin; by rewrite Hk).
      apply list_elem_of_In in Hrin. exact (proj1 (Forall_forall _ _) (Hd2 eq_refl) r Hrin Hsome).
Qed.
End Refinement.
