(* ===== verification/SessionReference.v ===== *)
(** * A reference backend for sessions

    The simplest store and cache that keep the session contract: the state of
    the abstract machine itself, updated in one step per call. It shows that the
    contract can be met, and runs the concrete examples. *)
From S2P Require Import Prelude GoText Base64 Sha256 Token SessionToken SessionSpec.

Definition put_durable (h : string) (r : SessionRecord) (s : sessions_state) : sessions_state :=
  mkState (<[h := r]> (durable s)) (cached s).

Definition of_subject (subject : string) (s : sessions_state) : list SessionRecord :=
  List.filter (fun r => String.eqb (SubjectID r) subject) (map_to_list (durable s)).*2.

Definition ref_Create (r : SessionRecord) (s : sessions_state) : result unit * sessions_state :=
  if bool_decide (is_Some (durable s !! TokenHash r)) then (Err ErrConflict, s)
  else (Ok tt, put_durable (TokenHash r) r s).

Definition ref_Find (h : Hash) (s : sessions_state) : result SessionRecord * sessions_state :=
  (match durable s !! h with Some r => Ok r | None => Err ErrNotFound end, s).

Definition ref_Extend (h : Hash) (now expires : time) (s : sessions_state) :
    result SessionRecord * sessions_state :=
  match durable s !! h with
  | None => (Err ErrInactive, s)
  | Some r =>
      if bool_decide (RevokedAt r = None) && Before now (ExpiresAt r) && Before (ExpiresAt r) expires
      then (Ok (extend_record now expires r), put_durable h (extend_record now expires r) s)
      else (Err ErrInactive, s)
  end.

Definition ref_Rotate (h : Hash) (replacement : SessionRecord) (now : time) (s : sessions_state) :
    result unit * sessions_state :=
  match durable s !! h with
  | None => (Err ErrNotFound, s)
  | Some r =>
      if negb (ActiveAt r now) then (Err ErrInactive, s) else
      if bool_decide (is_Some (durable s !! TokenHash replacement)) then (Err ErrConflict, s)
      else (Ok tt, put_durable (TokenHash replacement) replacement
                     (put_durable h (revoke_record now r) s))
  end.

Definition ref_Revoke (h : Hash) (now : time) (s : sessions_state) : result unit * sessions_state :=
  match durable s !! h with
  | None => (Err ErrNotFound, s)
  | Some r => (Ok tt, put_durable h (revoke_record now r) s)
  end.

Definition ref_RevokeAll (subject : string) (now : time) (s : sessions_state) :
    result (list SessionRecord) * sessions_state :=
  let s' := mkState (revoke_subject subject now <$> durable s) (cached s) in
  (Ok (of_subject subject s'), s').

Definition ref_store : Store sessions_state :=
  {| store_Create r := lift_ext (ref_Create r);
     store_FindByTokenHash h := lift_ext (ref_Find h);
     store_ListBySubject subject := lift_ext (fun s => (Ok (of_subject subject s), s));
     store_Extend h now expires := lift_ext (ref_Extend h now expires);
     store_Rotate h r now := lift_ext (ref_Rotate h r now);
     store_Revoke h now := lift_ext (ref_Revoke h now);
     store_RevokeAll subject now := lift_ext (ref_RevokeAll subject now) |}.

Definition ref_cache : Cache sessions_state :=
  {| cache_Get h := lift_ext (fun s =>
       (match cached s !! h with Some r => Ok r | None => Err ErrCacheMiss end, s));
     cache_Set r _ := lift_ext (fun s => (Ok tt, mkState (durable s) (<[TokenHash r := r]> (cached s))));
     cache_Delete h := lift_ext (fun s => (Ok tt, mkState (durable s) (delete h (cached s)))) |}.

Definition keyed (s : sessions_state) : Prop :=
  map_Forall (fun h r => TokenHash r = h) (durable s).

Definition ref_manager {S} (st : Store S) (c : option (Cache S)) (e : option ExtensionConfig)
    (now : nat -> time) : Manager S :=
  mkManager S st c (Hour) (Minute) e now.

Lemma keyed_put h r s : TokenHash r = h -> keyed s -> keyed (put_durable h r s).
Proof. intros <- Hk. by apply map_Forall_insert_2. Qed.

Lemma keyed_revoke subject now s c :
  keyed s -> keyed (mkState (revoke_subject subject now <$> durable s) c).
Proof.
  intros Hk h r. simpl. rewrite lookup_fmap. destruct (durable s !! h) as [r0|] eqn:Hr; [|done].
  intros [= <-]. specialize (Hk h r0 Hr). unfold revoke_subject. by destruct (String.eqb _ _).
Qed.

Lemma elem_of_subject subject s r :
  keyed s -> r ∈ of_subject subject s <->
    durable s !! TokenHash r = Some r /\ SubjectID r = subject.
Proof.
  intros Hk. unfold of_subject. rewrite list_elem_of_In, filter_In, <- list_elem_of_In, String.eqb_eq.
  rewrite list_elem_of_fmap. split.
  - intros [([h r'] & -> & Hin) <-]. apply elem_of_map_to_list in Hin. simpl.
    by rewrite (Hk h r' Hin).
  - intros [Hr <-]. split; [|done]. exists (TokenHash r, r). by rewrite elem_of_map_to_list.
Qed.

#[export] Instance ref_store_contract : StoreContract ref_store keyed id.
Proof.
  split; intros; unfold id in *; simpl in *.
  - exact (H h r H0).
  - wp_go. unfold ref_Create. case_bool_decide as Hd; [done|].
    apply eq_None_not_Some in Hd. simpl. split_and!; [by apply keyed_put|done..].
  - wp_go. unfold ref_Find. destruct (durable (ext w) !! h) eqn:?; (split_and!; [done..|]);
      by intros ? [= <-].
  - wp_go. split_and!; [done..|]. intros ? [= <-] ?. by apply elem_of_subject.
  - wp_go. unfold ref_Extend. destruct (durable (ext w) !! h) as [r|] eqn:Hr; [|done].
    destruct (_ && _) eqn:?; [|done]. go_bool. simpl.
    split_and!; [apply keyed_put; [exact (H h r Hr)|done]|]. by exists r.
  - wp_go. unfold ref_Rotate. destruct (durable (ext w) !! h) as [r|] eqn:Hr; [|done].
    destruct (ActiveAt r now) eqn:Ha; [|done]. simpl.
    case_bool_decide as Hd; [done|]. apply eq_None_not_Some in Hd. apply ActiveAt_true in Ha as [??].
    simpl. split_and!; [apply keyed_put, keyed_put; [done|exact (H h r Hr)|done]|]. by exists r.
  - wp_go. unfold ref_Revoke. destruct (durable (ext w) !! h) as [r|] eqn:Hr; [|done]. simpl.
    split_and!; [apply keyed_put; [exact (H h r Hr)|done]|]. by exists r.
  - wp_go. unfold ref_RevokeAll. go_red. split_and!; [by apply keyed_revoke|done..|].
    intros r. apply elem_of_subject. by apply keyed_revoke.
Qed.

#[export] Instance ref_cache_contract : CacheContract ref_cache keyed id.
Proof.
  split; intros; unfold id in *; simpl in *; wp_go.
  - destruct (cached (ext w) !! h) eqn:?; (split_and!; [done..|]); by intros ? [= <-].
  - split_and!; [done|done|by left].
  - split_and!; [done|split; [done|apply delete_subseteq]|]. intros _. apply lookup_delete_eq.
Qed.

#[export] Instance ref_backend e now c :
  SessionBackend (ref_manager ref_store (if c : bool then Some ref_cache else None) e now) keyed id.
Proof.
  split; [apply _|]. intros c' Hc'. destruct c; simplify_eq/=. apply _.
Qed.

(** ** A run: alice signs in with a cached, extensible session *)
Definition demo_manager : Manager sessions_state :=
  ref_manager ref_store (Some ref_cache)
    (Some (mkExtension (2 * Second) (2 * Hour))) demo_clock.

Definition demo_start : World sessions_state := demo_world (mkState ∅ ∅).

Definition demo_login : result Issued * World sessions_state := Create demo_manager "alice" demo_start.
Definition demo_token : string :=
  match fst demo_login with Ok i => issued_Token i | Err _ => EmptyString end.
Definition demo_after : World sessions_state := snd demo_login.

#[export] Instance demo_backend : SessionBackend demo_manager keyed id.
Proof. exact (ref_backend _ _ true). Defined.

Lemma demo_start_ok : keyed (ext demo_start) /\ coherent (id (ext demo_start)).
Proof. by split; intros ? ?. Defined.

Lemma demo_after_ok : keyed (ext demo_after) /\ coherent (id (ext demo_after)).
Proof.
  destruct demo_start_ok as [Hk Hc].
  destruct (wp_Create demo_manager keyed id "alice" demo_start Hk Hc) as (? & ? & _).
  split; [done|by eapply coherent_steps].
Defined.
