(* ===== verification/SessionProps.v ===== *)
(** * Session theorems

    Histories of a session manager, their invariants, and the properties of the
    operations, each with a run on the reference backend. *)
From S2P Require Import Prelude GoText Base64 Sha256 Token SessionToken SessionSpec SessionReference.

(** ** Histories *)
Inductive call : Type :=
| CCreate (subject : string)
| CResolve (raw : string)
| CRotate (raw : string)
| CRevoke (raw : string)
| CRevokeByID (subject id : string)
| CList (subject : string)
| CRevokeAll (subject : string).

Section Histories.
Context {S : Type} `{Env} (manager : Manager S) (wf : S -> Prop) (view : S -> sessions_state).

Abbreviation abs w := (view (ext w)).

Definition run (c : call) (w : World S) : World S :=
  match c with
  | CCreate subject => snd (Create manager subject w)
  | CResolve raw => snd (Resolve manager raw w)
  | CRotate raw => snd (Rotate manager raw w)
  | CRevoke raw => snd (Revoke manager raw w)
  | CRevokeByID subject id => snd (RevokeByID manager subject id w)
  | CList subject => snd (List_ manager subject w)
  | CRevokeAll subject => snd (RevokeAll manager subject w)
  end.

(** Calls of this manager, in any order, mixed with steps of the same machine
    made by other servers that share the storage. *)
Inductive reachable (w : World S) : World S -> Prop :=
| reach_here : reachable w w
| reach_call w1 c : reachable w w1 -> reachable w (run c w1)
| reach_other w1 w2 :
    reachable w w1 -> wf (ext w2) -> session_steps manager (abs w1) (abs w2) -> reachable w w2.

Context `{!SessionBackend manager wf view}.

Lemma run_steps c w :
  wf (ext w) -> coherent (abs w) ->
  wf (ext (run c w)) /\ session_steps manager (abs w) (abs (run c w)).
Proof.
  intros Hwf Hco. destruct c; simpl.
  - destruct (wp_Create manager wf view subject w Hwf Hco) as (? & ? & _). done.
  - exact (refined_Resolve manager wf view raw w Hwf Hco).
  - destruct (wp_Rotate manager wf view raw w Hwf Hco) as (? & ? & _). done.
  - destruct (wp_Revoke manager wf view raw w Hwf Hco) as (? & ? & _). done.
  - destruct (wp_RevokeByID manager wf view subject id w Hwf Hco) as (? & ? & _). done.
  - exact (refined_List_ manager wf view subject w Hwf Hco).
  - destruct (wp_RevokeAll manager wf view subject w Hwf Hco) as (? & ? & _). done.
Qed.

Lemma reachable_steps w w' :
  wf (ext w) -> coherent (abs w) -> reachable w w' ->
  wf (ext w') /\ coherent (abs w') /\ session_steps manager (abs w) (abs w').
Proof.
  intros Hwf Hco Hr. induction Hr as [|w1 c _ (? & ? & ?)|w1 w2 _ (? & ? & ?) ? ?].
  - split_and!; [done|done|apply rtc_refl].
  - destruct (run_steps c w1) as [? ?]; [done..|]. split_and!; [done| |by eapply steps_trans].
    by eapply coherent_steps.
  - split_and!; [done|by eapply coherent_steps|by eapply steps_trans].
Qed.

(** An invariant of the machine's steps holds in every reachable state. *)
Lemma reachable_invariant (I : sessions_state -> Prop) w w' :
  (forall s s', session_step manager s s' -> I s -> I s') ->
  wf (ext w) -> coherent (abs w) -> reachable w w' -> I (abs w) -> I (abs w').
Proof.
  intros Hstep Hwf Hco Hr HI. destruct (reachable_steps w w') as (_ & _ & Hs); [done..|].
  revert Hs HI. generalize (abs w), (abs w'). clear -Hstep.
  intros s s' Hs. induction Hs; eauto.
Qed.
End Histories.

(** ** A session that is over *)
Section Dead.
Context {S : Type} `{Env} (manager : Manager S) (wf : S -> Prop) (view : S -> sessions_state).
Context `{!SessionBackend manager wf view}.

Abbreviation abs w := (view (ext w)).

(** Revoked durably, and no cached copy says otherwise. *)
Definition dead (h : string) (s : sessions_state) : Prop :=
  (exists r, durable s !! h = Some r /\ RevokedAt r <> None) /\
  (is_Some (cache manager) -> forall c, cached s !! h = Some c -> RevokedAt c <> None).

Lemma dead_step h s s' : session_step manager s s' -> dead h s -> dead h s'.
Proof.
  intros Hstep [(rd & Hd & Hrev) Hc]. destruct Hstep as
    [σ κ r Hn|σ κ h0 r e now0 ex Hr|σ κ h0 r now0 rep Hr Hn|σ κ h0 r now0 Hr
    |σ κ subj now0|σ κ h0 r Hr|σ κ κ' Hsub]; simpl in *; split; try done; simpl.
  - exists rd. rewrite lookup_insert_ne; [done|]. congruence.
  - destruct (decide (h0 = h)) as [->|]; simplify_map_eq. eauto.
  - destruct (decide (h0 = h)) as [->|]; simplify_map_eq; eauto.
  - destruct (decide (h0 = h)) as [->|]; simplify_map_eq; eauto.
  - exists (revoke_subject subj now0 rd). rewrite lookup_fmap, Hd. split; [done|].
    unfold revoke_subject. by destruct (String.eqb _ _).
  - eauto.
  - intros Hs c. destruct (decide (h0 = h)) as [->|]; simplify_map_eq. by apply Hc.
  - eauto.
  - intros Hs c Hl. eapply Hc; [done|]. by eapply lookup_weaken.
Qed.

Lemma dead_Resolve raw h w :
  wf (ext w) -> HashToken raw = Ok h -> dead h (abs w) ->
  exists e, fst (Resolve manager raw w) = Err e.
Proof.
  intros Hwf Hh Hdead.
  enough (wp (Resolve manager raw) (fun res _ => exists e, res = Err e) w) by done.
  assert (Hdur : forall now w, wf (ext w) -> dead h (abs w) ->
    wp (resolveDurable manager h now) (fun res _ => exists e, res = Err e) w).
  { clear -SessionBackend0. intros now w Hwf [(rd & Hd & Hrev) _]. unfold resolveDurable. wp_go.
    eapply wp_mono; [by apply store_Find_ok|]. intros [r|e] w1 (_ & _ & Hfound); [|by wp_go; eauto].
    specialize (Hfound r eq_refl). assert (r = rd) as -> by congruence.
    go_red. rewrite ActiveAt_revoked by done. change (negb false) with true.
    wp_go; [by eauto| |by eauto]. by apply wp_run; intros; wp_go; eauto. }
  unfold Resolve. rewrite Hh. wp_go; [|by apply (Hdur _ (tick w))].
  pose proof (backend_cache c Heqo).
  eapply wp_mono; [by apply cache_Get_ok|]. rewrite ext_tick.
  assert (Hdead' : forall w1, durable_unchanged (abs w) (abs w1) -> dead h (abs w1)).
  { intros w1 [Hd Hsub]. destruct Hdead as [Hd' Hc']. split; [by rewrite Hd|].
    intros Hs c' Hl. eapply Hc'; [done|]. by eapply lookup_weaken. }
  intros res w1 (? & ? & Hhit). wp_go; [| |by auto..].
  - specialize (Hhit _ eq_refl). destruct Hdead as [_ Hc'].
    apply ActiveAt_true in Heqb0 as [Hn _]. by destruct (Hc' (ex_intro _ _ Heqo) _ Hhit).
  - eapply wp_mono; [by apply cache_Delete_ok|]. intros _ w2 (? & ? & _).
    apply Hdur; [done|]. by eapply Hdead', durable_unchanged_trans.
Qed.

Lemma dead_forever raw h w w' :
  wf (ext w) -> coherent (abs w) -> HashToken raw = Ok h -> dead h (abs w) ->
  reachable manager wf view w w' -> exists e, fst (Resolve manager raw w') = Err e.
Proof.
  intros Hwf Hco Hh Hd Hr.
  destruct (reachable_steps manager wf view w w') as (? & _ & _); [done..|].
  eapply dead_Resolve; [done..|].
  apply (reachable_invariant manager wf view (dead h) w w'); [|done..].
  intros s s' ? ?. by eapply dead_step.
Qed.
End Dead.

(** ** Properties *)
Section Properties.
Context {S : Type} `{Env} (manager : Manager S).

(** What an extension returns is live and keeps the credential. *)
Lemma extendIfDue_sound record at_ w :
  validRecord record = true -> ActiveAt record at_ = true ->
  wp (extendIfDue manager record at_) (fun res _ => forall r, res = Ok r ->
    TokenHash r = TokenHash record /\ validRecord r = true /\ ActiveAt r at_ = true) w.
Proof.
  intros Hv Ha. unfold extendIfDue. wp_go; [by intros ? [= <-]|by intros ? [= <-]| |by intros ? [= <-]].
  apply wp_run; intros [r|err] w1 _; wp_go; [done| |by apply wp_run; intros; wp_go|by intros ? [= <-]].
  apply wp_run; intros [] w2 _; wp_go. intros ? [= <-]. go_bool. done.
Qed.

Lemma resolveDurable_sound h at_ w :
  wp (resolveDurable manager h at_) (fun res _ => forall r, res = Ok r ->
    TokenHash r = h /\ validRecord r = true /\ ActiveAt r at_ = true) w.
Proof.
  unfold resolveDurable. wp_go. apply wp_run; intros [r|err] w1 _; wp_go; [done| |done| |done].
  - by apply wp_run; intros; wp_go.
  - go_bool. eapply wp_mono; [by apply extendIfDue_sound|].
    intros [r'|err] w2 Hr; [|done]. destruct (Hr r' eq_refl) as (? & ? & ?).
    apply wp_bind. apply wp_run; intros [] w3 _. wp_go. intros ? [= <-].
    split_and!; [congruence|done..].
Qed.

(** C3: whatever the store and the cache answer, a session that [Resolve]
    returns carries the hash of the presented token, is well formed, and is
    neither revoked nor expired at the instant the call read from the clock. *)
Theorem Resolve_sound raw w r w' :
  Resolve manager raw w = (Ok r, w') ->
  HashToken raw = Ok (TokenHash r) /\ validRecord r = true /\
  ActiveAt r (now manager (ticks w)) = true.
Proof.
  revert r w'. enough (wp (Resolve manager raw) (fun res _ => forall r, res = Ok r ->
    HashToken raw = Ok (TokenHash r) /\ validRecord r = true /\
    ActiveAt r (now manager (ticks w)) = true) w) as Hwp.
  { intros r w' E. unfold wp in Hwp. rewrite E in Hwp. by apply Hwp. }
  unfold Resolve. destruct (HashToken raw) as [h|e] eqn:Hh; [|by wp_go].
  assert (Hdur : forall w1, wp (resolveDurable manager h (now manager (ticks w))) (fun res _ =>
    forall r, res = Ok r -> Ok h = Ok (TokenHash r) /\ validRecord r = true /\
      ActiveAt r (now manager (ticks w)) = true) w1).
  { intros w1. eapply wp_mono; [apply resolveDurable_sound|].
    intros res _ Hr r ->. destruct (Hr r eq_refl) as (-> & ? & ?). done. }
  wp_go; [|by apply Hdur]. apply wp_run; intros [hit|err] w1 _; wp_go; [| |by apply Hdur..].
  - go_bool. subst. eapply wp_mono; [by apply extendIfDue_sound|].
    intros res _ Hr r ->. destruct (Hr r eq_refl) as (-> & ? & ?). done.
  - by apply wp_run; intros; apply Hdur.
Qed.
End Properties.

Lemma Resolve_sound_witness :
  exists r w', Resolve demo_manager demo_token demo_after = (Ok r, w') /\
    HashToken demo_token = Ok (TokenHash r) /\ validRecord r = true /\
    ActiveAt r (now demo_manager (ticks demo_after)) = true.
Proof.
  destruct (Resolve demo_manager demo_token demo_after) as [[r|e] w'] eqn:E.
  - exists r, w'. split; [done|]. by apply (Resolve_sound demo_manager demo_token demo_after r w').
  - exfalso. vm_compute in E. discriminate.
Defined.

(** The longest a session may live from its creation. *)
Definition maximum_lifetime {S} (manager : Manager S) : duration :=
  match extension manager with Some e => AbsoluteLifetime e | None => lifetime manager end.

Definition lifetime_bounded {S} (manager : Manager S) (s : sessions_state) : Prop :=
  forall h r, durable s !! h = Some r ->
    (ExpiresAt r <= Add (CreatedAt r) (maximum_lifetime manager))%Z.

Lemma lifetime_bounded_step {S} (manager : Manager S) s s' :
  (lifetime manager <= maximum_lifetime manager)%Z ->
  session_step manager s s' -> lifetime_bounded manager s -> lifetime_bounded manager s'.
Proof.
  intros Hle Hstep Hb h r'. destruct Hstep as
    [σ κ r Hn Hex|σ κ h0 r e now0 ex Hr He Hrev Hlt Hmax|σ κ h0 r now0 rep Hr Hn _ _ _ Hex
    |σ κ h0 r now0 Hr|σ κ subj now0|σ κ h0 r Hr|σ κ κ' Hsub]; simpl.
  - intros [[<- <-]|[? Hl]]%lookup_insert_Some; [|exact (Hb h _ Hl)]. rewrite Hex. unfold Add. lia.
  - intros [[<- <-]|[? Hl]]%lookup_insert_Some; [|exact (Hb h _ Hl)].
    simpl. unfold maximum_lifetime. by rewrite He.
  - intros [[<- <-]|[? Hl]]%lookup_insert_Some; [rewrite Hex; unfold Add; lia|].
    apply lookup_insert_Some in Hl as [[<- <-]|[? Hl]]; [exact (Hb h0 _ Hr)|exact (Hb h _ Hl)].
  - intros [[<- <-]|[? Hl]]%lookup_insert_Some; [exact (Hb h0 _ Hr)|exact (Hb h _ Hl)].
  - rewrite lookup_fmap. destruct (σ !! h) as [r|] eqn:Hr; [|done]. intros [= <-].
    pose proof (Hb h r Hr). unfold revoke_subject. by destruct (String.eqb _ _).
  - apply (Hb h).
  - apply (Hb h).
Qed.

Section HistoryProperties.
Context {S : Type} `{Env} (manager : Manager S) (wf : S -> Prop) (view : S -> sessions_state).
Context `{!SessionBackend manager wf view}.

(** C1: the session manager refines the abstract session machine: on a backend
    that keeps the contract, every operation, whatever it returns, takes the
    storage through steps of the machine (create, extend up to the absolute
    lifetime, rotate, revoke, fill or drop a cached copy) and nothing else. *)
Theorem session_calls_refine_machine c w :
  wf (ext w) -> coherent (view (ext w)) ->
  wf (ext (run manager c w)) /\ coherent (view (ext (run manager c w))) /\
  session_steps manager (view (ext w)) (view (ext (run manager c w))).
Proof.
  intros Hwf Hco. destruct (run_steps manager wf view c w Hwf Hco) as [? Hs].
  split_and!; [done|by eapply coherent_steps|done].
Qed.

(** C33: a manager that [NewManager] accepts never lets a session outlive the
    configured maximum: in every history of calls, and whatever other servers
    do to the same storage, every stored session expires at most the absolute
    lifetime (or, without extension, the lifetime) after its creation. *)
Theorem session_lifetime_bounded st c config w w' :
  NewManager st c config = Ok manager ->
  wf (ext w) -> coherent (view (ext w)) -> lifetime_bounded manager (view (ext w)) ->
  reachable manager wf view w w' -> lifetime_bounded manager (view (ext w')).
Proof.
  intros Hnew Hwf Hco Hb Hr.
  assert (Hle : (lifetime manager <= maximum_lifetime manager)%Z).
  { unfold NewManager in Hnew. destruct st as [st|]; [|done].
    destruct (_ <=? 0)%Z; [done|]. destruct (_ && _); [done|].
    destruct (Extension config) as [e|] eqn:He.
    - destruct (_ || _) eqn:Hg; [done|]. injection Hnew as <-. go_bool.
      unfold maximum_lifetime. simpl. lia.
    - injection Hnew as <-. by unfold maximum_lifetime; simpl. }
  apply (reachable_invariant manager wf view (lifetime_bounded manager) w w'); [|done..].
  intros s s' Hs. by apply lifetime_bounded_step.
Qed.

(** C4: revocation is final: once [Revoke] has succeeded on a token, no
    sequence of later calls, on this server or on others, makes [Resolve]
    accept that token again, from the store or from the cache. *)
Theorem revoked_token_never_resolves raw w w1 w' :
  wf (ext w) -> coherent (view (ext w)) ->
  Revoke manager raw w = (Ok tt, w1) ->
  reachable manager wf view w1 w' ->
  exists err, fst (Resolve manager raw w') = Err err.
Proof.
  intros Hwf Hco E Hr.
  pose proof (wp_Revoke manager wf view raw w Hwf Hco) as Hwp. unfold wp in Hwp.
  rewrite E in Hwp. destruct Hwp as (? & ? & Hok).
  destruct (Hok eq_refl) as (h & r & Hh & Hd & Hrev & Hc).
  eapply (dead_forever manager wf view raw h w1 w'); [done|by eapply coherent_steps|done| |done].
  split; [eauto|]. intros Hs c Hl. simpl in *. rewrite (Hc Hs) in Hl. done.
Qed.

(** A successful [Rotate] replaces the credential: the new token is the
    one whose hash is stored, for the same subject, live and of full lifetime;
    the presented session is durably revoked. When no error accompanies the
    result the old token never resolves again; the only error that can
    accompany it is [ErrCacheSync]. *)
Theorem Rotate_replaces raw w issued sync w1 :
  wf (ext w) -> coherent (view (ext w)) ->
  Rotate manager raw w = (Ok (issued, sync), w1) ->
  exists h old revoked,
    HashToken raw = Ok h /\ durable (view (ext w)) !! h = Some old /\
    live_session manager issued (SubjectID old) (view (ext w1)) /\
    TokenHash (issued_Record issued) <> h /\
    durable (view (ext w1)) !! h = Some revoked /\ RevokedAt revoked <> None /\
    match sync with
    | Some err => errors_Is err ErrCacheSync = true
    | None => forall w', reachable manager wf view w1 w' ->
                exists err, fst (Resolve manager raw w') = Err err
    end.
Proof.
  intros Hwf Hco E.
  pose proof (wp_Rotate manager wf view raw w Hwf Hco) as Hwp. unfold wp in Hwp.
  rewrite E in Hwp. destruct Hwp as (? & ? & Hok).
  destruct (Hok issued sync eq_refl) as (h & r & r' & Hh & Hd & _ & Hd' & Hrev & Hne & Hlive & Hs).
  exists h, r, r'. split_and!; [done..|]. destruct sync as [err|]; [done|].
  intros w' Hr. eapply (dead_forever manager wf view raw h w1 w');
    [done|by eapply coherent_steps|done| |done].
  split; [eauto|]. intros Hc c Hl. simpl in *. rewrite (Hs Hc) in Hl. done.
Qed.

(** When [RevokeAll] succeeds, every session of the subject is durably
    revoked and, in every later history, no token of any of them resolves. *)
Theorem RevokeAll_ends_every_session subject w w1 :
  wf (ext w) -> coherent (view (ext w)) ->
  RevokeAll manager subject w = (Ok tt, w1) ->
  forall raw h r w', durable (view (ext w1)) !! h = Some r -> SubjectID r = subject ->
    RevokedAt r <> None /\
    (HashToken raw = Ok h -> reachable manager wf view w1 w' ->
     exists err, fst (Resolve manager raw w') = Err err).
Proof.
  intros Hwf Hco E raw h r w' Hd Hsub.
  pose proof (wp_RevokeAll manager wf view subject w Hwf Hco) as Hwp. unfold wp in Hwp.
  rewrite E in Hwp. destruct Hwp as (? & ? & Hok).
  destruct (Hok eq_refl h r Hd Hsub) as [Hrev Hc]. split; [done|]. intros Hh Hr.
  eapply (dead_forever manager wf view raw h w1 w'); [done|by eapply coherent_steps|done| |done].
  split; [eauto|]. intros Hs c Hl. simpl in *. rewrite (Hc Hs) in Hl. done.
Qed.

(** [RevokeByID] only ends a session of the given subject: when it
    succeeds, a session with that identifier and that subject was stored, and
    it is now durably revoked with no cached copy left. *)
Theorem RevokeByID_own_session subject id w w1 :
  wf (ext w) -> coherent (view (ext w)) ->
  RevokeByID manager subject id w = (Ok tt, w1) ->
  exists h r r', durable (view (ext w)) !! h = Some r /\ SubjectID r = subject /\ ID r = id /\
    durable (view (ext w1)) !! h = Some r' /\ RevokedAt r' <> None /\
    (is_Some (cache manager) -> cached (view (ext w1)) !! h = None).
Proof.
  intros Hwf Hco E.
  pose proof (wp_RevokeByID manager wf view subject id w Hwf Hco) as Hwp. unfold wp in Hwp.
  rewrite E in Hwp. destruct Hwp as (? & ? & Hok). by apply Hok.
Qed.

(** A successful [Create] adds exactly one session: the stored record is
    the one returned, under the hash of the returned token, for the given
    subject, with the configured lifetime, and no other session changes. *)
Theorem Create_adds_one_session subject w issued w1 :
  wf (ext w) -> coherent (view (ext w)) ->
  Create manager subject w = (Ok issued, w1) ->
  live_session manager issued subject (view (ext w1)) /\
  durable (view (ext w)) !! TokenHash (issued_Record issued) = None /\
  durable (view (ext w1)) =
    <[TokenHash (issued_Record issued) := issued_Record issued]> (durable (view (ext w))).
Proof.
  intros Hwf Hco E.
  pose proof (wp_Create manager wf view subject w Hwf Hco) as Hwp. unfold wp in Hwp.
  rewrite E in Hwp. destruct Hwp as (? & ? & Hok).
  destruct (Hok issued eq_refl) as (? & ? & ?). done.
Qed.
End HistoryProperties.

(** ** Runs of the theorems *)
Ltac run_ok E := exfalso; vm_compute in E; discriminate E.

Lemma session_calls_refine_machine_witness :
  session_steps demo_manager (id (ext demo_after))
    (id (ext (run demo_manager (CRotate demo_token) demo_after))).
Proof.
  destruct demo_after_ok as [Hk Hc].
  exact (proj2 (proj2 (session_calls_refine_machine demo_manager keyed id
    (CRotate demo_token) demo_after Hk Hc))).
Defined.

Lemma session_lifetime_bounded_witness :
  lifetime_bounded demo_manager (id (ext (run demo_manager (CResolve demo_token) demo_after))).
Proof.
  destruct demo_start_ok as [Hk Hc].
  apply (session_lifetime_bounded demo_manager keyed id (Some ref_store) (Some ref_cache)
    (mkConfig Hour Minute (Some (mkExtension (2 * Second) (2 * Hour))) (Some demo_clock)) demo_start).
  - reflexivity.
  - exact Hk.
  - exact Hc.
  - intros h r Hl. discriminate Hl.
  - apply reach_call. exact (reach_call demo_manager keyed id demo_start demo_start
      (CCreate "alice") (reach_here _ _ _ _)).
Defined.

Lemma revoked_token_never_resolves_witness :
  fst (Revoke demo_manager demo_token demo_after) = Ok tt /\
  exists err, fst (Resolve demo_manager demo_token
    (run demo_manager (CCreate "alice") (snd (Revoke demo_manager demo_token demo_after)))) = Err err.
Proof.
  destruct demo_after_ok as [Hk Hc].
  destruct (Revoke demo_manager demo_token demo_after) as [[[]|e] w1] eqn:E; [|run_ok E].
  split; [reflexivity|].
  apply (revoked_token_never_resolves demo_manager keyed id demo_token demo_after w1 _ Hk Hc E).
  apply reach_call, reach_here.
Defined.

Lemma Rotate_replaces_witness :
  exists issued w1, Rotate demo_manager demo_token demo_after = (Ok (issued, None), w1) /\
    live_session demo_manager issued "alice" (id (ext w1)).
Proof.
  destruct demo_after_ok as [Hk Hc].
  destruct (Rotate demo_manager demo_token demo_after) as [[[i [e|]]|e] w1] eqn:E;
    [run_ok E| |run_ok E].
  exists i, w1. split; [reflexivity|].
  destruct (Rotate_replaces demo_manager keyed id demo_token demo_after i None w1 Hk Hc E)
    as (h & old & revoked & Hh & Ho & Hl & _).
  assert (Hs : SubjectID old = "alice").
  { vm_compute in Hh. injection Hh as <-. vm_compute in Ho. injection Ho as <-. reflexivity. }
  rewrite Hs in Hl. exact Hl.
Defined.

Lemma RevokeAll_ends_every_session_witness :
  fst (RevokeAll demo_manager "alice" demo_after) = Ok tt /\
  exists err, fst (Resolve demo_manager demo_token
    (snd (RevokeAll demo_manager "alice" demo_after))) = Err err.
Proof.
  destruct demo_after_ok as [Hk Hc].
  destruct (RevokeAll demo_manager "alice" demo_after) as [[[]|e] w1] eqn:E; [|run_ok E].
  split; [reflexivity|].
  destruct (HashToken demo_token) as [h|e] eqn:Hh; [|run_ok Hh].
  destruct (durable (id (ext w1)) !! h) as [r|] eqn:Hr.
  - refine (proj2 (RevokeAll_ends_every_session demo_manager keyed id "alice" demo_after w1 Hk Hc E
      demo_token h r w1 Hr _) Hh (reach_here _ _ _ _)).
    vm_compute in E, Hh. injection E as <-. injection Hh as <-. vm_compute in Hr.
    injection Hr as <-. reflexivity.
  - exfalso. vm_compute in E, Hh. injection E as <-. injection Hh as <-. vm_compute in Hr. discriminate Hr.
Defined.

Lemma RevokeByID_own_session_witness :
  fst (RevokeByID demo_manager "alice" "A0190-7000" demo_after) = Ok tt /\
  exists h r, durable (id (ext demo_after)) !! h = Some r /\ SubjectID r = "alice" /\ ID r = "A0190-7000".
Proof.
  destruct demo_after_ok as [Hk Hc].
  destruct (RevokeByID demo_manager "alice" "A0190-7000" demo_after) as [[[]|e] w1] eqn:E; [|run_ok E].
  split; [reflexivity|].
  destruct (RevokeByID_own_session demo_manager keyed id "alice" "A0190-7000" demo_after w1 Hk Hc E)
    as (h & r & _ & ? & ? & ? & _).
  exists h, r. auto.
Defined.

Lemma Create_adds_one_session_witness :
  exists issued w1, Create demo_manager "alice" demo_start = (Ok issued, w1) /\
    durable (id (ext w1)) = {[TokenHash (issued_Record issued) := issued_Record issued]}.
Proof.
  destruct demo_start_ok as [Hk Hc].
  destruct (Create demo_manager "alice" demo_start) as [[i|e] w1] eqn:E; [|run_ok E].
  exists i, w1. split; [reflexivity|].
  exact (proj2 (proj2 (Create_adds_one_session demo_manager keyed id "alice" demo_start i w1 Hk Hc E))).
Defined.
