(* ===== verification/GoHttp.v ===== *)
(** * Go's [net/http] and [net/netip], as the handlers use them

    Requests, responses, cookies, the patterns of [http.ServeMux] and network
    addresses. *)
From S2P Require Import Prelude GoText GoUrl.

(** ** More of [strings] *)

(** [strings.HasSuffix]. *)
Definition HasSuffix (s p : string) : bool :=
  HasPrefix (string_of_list (rev (list_of_string s))) (string_of_list (rev (list_of_string p))).

Definition flush (word : list ascii) : list string :=
  match word with [] => [] | _ => [string_of_list word] end.

(** [strings.Fields]: [word] holds the bytes since the last white space. *)
Fixpoint fields_from (l word : list ascii) : list string :=
  match l with
  | [] => flush word
  | a :: l1 =>
      if space1 a then flush word ++ fields_from l1 [] else
      match l1 with
      | [] => flush (word ++ [a])
      | b :: l2 =>
          if space2 a b then flush word ++ fields_from l2 [] else
          match l2 with
          | [] => fields_from l1 (word ++ [a])
          | c :: l3 => if space3 a b c then flush word ++ fields_from l3 []
                       else fields_from l1 (word ++ [a])
          end
      end
  end.

Definition Fields (s : string) : list string := fields_from (list_of_string s) [].

(** [strings.EqualFold] with a second text in which no letter folds to a
    letter outside ASCII. *)
Definition EqualFold (s t : string) : bool :=
  bool_decide (lower_byte <$> list_of_string s = lower_byte <$> list_of_string t).

(** [URL.Hostname()]: the host without its port and its brackets. *)
Fixpoint CutLast (a : ascii) (s : string) : option (string * string) :=
  match s with
  | EmptyString => None
  | String b s' =>
      match CutLast a s' with
      | Some (before, after) => Some (String b before, after)
      | None => if Ascii.eqb a b then Some (EmptyString, s') else None
      end
  end.

Definition Hostname (u : URL) : string :=
  let host := match CutLast ":" (Host u) with
              | Some (host, port) => if forallb is_digit (list_of_string port) then host else Host u
              | None => Host u
              end in
  match CutPrefix host "[" with
  | Some inner =>
      match CutLast "]" inner with
      | Some (inside, EmptyString) => inside
      | _ => host
      end
  | None => host
  end.

(** ** Cookies *)

(** [http.SameSite]: default, lax, strict and none are 1 to 4. *)
Definition SameSiteLaxMode : Z := 2.
Definition SameSiteNoneMode : Z := 4.

Record Cookie : Type := mkCookie {
  ck_Name : string;
  ck_Value : string;
  ck_Domain : string;
  ck_Path : string;
  ck_Expires : time;
  ck_MaxAge : Z;
  ck_Secure : bool;
  ck_HttpOnly : bool;
  ck_SameSite : Z;
}.

Definition set_cookie_value (value : string) (expires : time) (c : Cookie) : Cookie :=
  mkCookie (ck_Name c) value (ck_Domain c) (ck_Path c) expires (ck_MaxAge c) (ck_Secure c)
    (ck_HttpOnly c) (ck_SameSite c).

Definition set_MaxAge (age : Z) (c : Cookie) : Cookie :=
  mkCookie (ck_Name c) (ck_Value c) (ck_Domain c) (ck_Path c) (ck_Expires c) age (ck_Secure c)
    (ck_HttpOnly c) (ck_SameSite c).

(** The bytes of a token of RFC 9110. *)
Definition token_byte (a : ascii) : bool :=
  byte_in 48 57 a || byte_in 65 90 a || byte_in 97 122 a ||
  existsb (Ascii.eqb a) (list_of_string "!#$%&'*+-.^_`|~").

Definition isToken (s : string) : bool :=
  negb (String.eqb s "") && forallb token_byte (list_of_string s).

Definition quote : ascii := ascii_of_N 34.

Definition validCookieValueByte (a : ascii) : bool :=
  byte_in 32 126 a && negb (existsb (Ascii.eqb a) [quote; ";"%char; ascii_of_N 92]).

(** [textproto.TrimString]: spaces, tabs and line ends of ASCII. *)
Definition ascii_space (a : ascii) : bool := byte_in 9 10 a || byte_in 13 13 a || byte_in 32 32 a.

Fixpoint drop_spaces (l : list ascii) : list ascii :=
  match l with
  | [] => []
  | a :: l' => if ascii_space a then drop_spaces l' else l
  end.

Definition TrimString (s : string) : string :=
  string_of_list (rev (drop_spaces (rev (drop_spaces (list_of_string s))))).

Definition unquoted (raw : string) : string :=
  match raw with
  | String a rest =>
      if Ascii.eqb a quote
      then match CutLast quote rest with Some (inside, EmptyString) => inside | _ => raw end
      else raw
  | EmptyString => raw
  end.

(** [parseCookieValue]: a pair of double quotes around the value is dropped. *)
Definition parseCookieValue (raw : string) : option string :=
  if forallb validCookieValueByte (list_of_string (unquoted raw)) then Some (unquoted raw) else None.

Definition cookie_part (name part : string) : option string :=
  let part := TrimString part in
  if String.eqb part "" then None else
  let '(key, value) := match Cut part "=" with Some kv => kv | None => (part, "") end in
  let key := TrimString key in
  if negb (isToken key) || negb (String.eqb key name) then None else parseCookieValue value.

(** The values that the lines of the header [Cookie] give a name. *)
Definition readCookies (lines : list string) (name : string) : list string :=
  List.flat_map (fun line => omap (cookie_part name) (Split (TrimString line) ";")) lines.

(** ** Requests *)
Record Request : Type := mkRequest {
  r_Method : string;
  (* [URL.Path], decoded, and [URL.EscapedPath()] *)
  r_Path : string;
  r_EscapedPath : string;
  r_RawQuery : string;
  (* keys in canonical form *)
  r_Header : Values;
  r_RemoteAddr : string;
  r_Body : string;
  r_ContentLength : Z;
}.

(** [request.Header.Get(key)] and [request.URL.Query()]. *)
Definition header (r : Request) (key : string) : string := Get key (r_Header r).
Definition query (r : Request) : Values := ParseQuery (r_RawQuery r).

Definition ErrNoCookie : error := New "http.ErrNoCookie".

(** [request.Cookie(name)]: the first cookie of that name. *)
Definition request_Cookie (r : Request) (name : string) : result string :=
  if String.eqb name "" then Err ErrNoCookie else
  match readCookies (default [] (r_Header r !! "Cookie")) name with
  | value :: _ => Ok value
  | [] => Err ErrNoCookie
  end.

(** [mime.ParseMediaType(value)], without the parameters. *)
Class MediaTypes := { ParseMediaType : string -> result string }.

(** [request.ParseForm()] on a POST whose body is read through
    [http.MaxBytesReader(limit)]: the field [Form]. *)
Definition ParseForm_limited `{MediaTypes} (limit : Z) (r : Request) : result Values :=
  let contentType := header r "Content-Type" in
  let post :=
    match ParseMediaType (if String.eqb contentType "" then "application/octet-stream" else contentType) with
    | Err err => Err err
    | Ok mediaType =>
        if String.eqb mediaType form_type
        then if (limit <? Z.of_nat (String.length (r_Body r)))%Z || negb (query_ok (r_Body r))
             then Err ErrForm else Ok (ParseQuery (r_Body r))
        else Ok ∅
    end in
  match post with
  | Err err => Err err
  | Ok post => if query_ok (r_RawQuery r) then Ok (copyValues post (query r)) else Err ErrForm
  end.

(** ** Responses

    [J] is the type of the values that are written as JSON. *)
Inductive content (J : Type) : Type :=
| JSON (value : J)
| Bytes (text : string)
(* the page of [http.Redirect] with a link to the address *)
| Link (address : string).
Arguments JSON {J} value. Arguments Bytes {J} text. Arguments Link {J} address.

(** A header: its fields and the cookies of its fields [Set-Cookie]. *)
Record Header : Type := mkHeader { fields : Values; set_cookies : list Cookie }.

(** The header in the making; the calls of [WriteHeader], each with the header
    of that moment, of which the first is sent; and what was written after it. *)
Record ResponseWriter (J : Type) : Type := mkResponse {
  live : Header;
  sent : list (Z * Header);
  body : list (content J);
}.
Arguments mkResponse {J} live sent body.
Arguments live {J} _. Arguments sent {J} _. Arguments body {J} _.

Definition fresh_response {J} : ResponseWriter J := mkResponse (mkHeader ∅ []) [] [].

Definition map_live {J} (f : Header -> Header) (w : ResponseWriter J) : ResponseWriter J :=
  mkResponse (f (live w)) (sent w) (body w).

Definition map_fields (f : Values -> Values) (h : Header) : Header := mkHeader (f (fields h)) (set_cookies h).

Definition write_header {J} (code : Z) (w : ResponseWriter J) : ResponseWriter J :=
  mkResponse (live w) (sent w ++ [(code, live w)]) (body w).

Definition write {J} (c : content J) (w : ResponseWriter J) : ResponseWriter J :=
  let w := match sent w with [] => write_header 200 w | _ => w end in
  mkResponse (live w) (sent w) (body w ++ [c]).

Section Response.
Context {S J : Type}.

Definition Header_Set (key value : string) : M (S * ResponseWriter J) unit :=
  assign (map_live (map_fields (Set_ key value))).

Definition Header_Add (key value : string) : M (S * ResponseWriter J) unit :=
  assign (map_live (map_fields (fun v => append_pair v (key, value)))).

Definition WriteHeader (code : Z) : M (S * ResponseWriter J) unit := assign (write_header code).

Definition Write (c : content J) : M (S * ResponseWriter J) unit := assign (write c).

(** [http.SetCookie]: a cookie whose name is not a token is dropped. *)
Definition SetCookie (cookie : Cookie) : M (S * ResponseWriter J) unit :=
  if isToken (ck_Name cookie)
  then assign (map_live (fun h => mkHeader (fields h) (set_cookies h ++ [cookie])))
  else ret tt.

Definition hexEscapeNonASCII (s : string) : string :=
  string_of_list (List.flat_map
    (fun a => if byte_in 0 127 a then [a]
              else ["%"%char; hex_digit (N_of_ascii a / 16); hex_digit (N_of_ascii a mod 16)])
    (list_of_string s)).

(** [http.Redirect] to an absolute URL. *)
Definition Redirect (request : Request) (url : string) (code : Z) : M (S * ResponseWriter J) unit :=
  hadCT <- (fun w => (bool_decide (is_Some (fields (live (snd (ext w))) !! "Content-Type")), w)) ;;
  Header_Set "Location" (hexEscapeNonASCII url) ;;;
  (if negb hadCT && (String.eqb (r_Method request) "GET" || String.eqb (r_Method request) "HEAD")
   then Header_Set "Content-Type" "text/html; charset=utf-8" else ret tt) ;;;
  WriteHeader code ;;;
  (if negb hadCT && String.eqb (r_Method request) "GET" then Write (Link url) else ret tt).
End Response.

(** [if !ok { return }] after a call that has answered the request itself. *)
Definition bind_some {S A} (m : M S (option A)) (k : A -> M S unit) : M S unit :=
  bind m (fun o => match o with Some a => k a | None => ret tt end).

(** The same in a function that itself returns a value and [ok]. *)
Definition bind_option {S A B} (m : M S (option A)) (k : A -> M S (option B)) : M S (option B) :=
  bind m (fun o => match o with Some a => k a | None => ret None end).

Notation "x <-! m ;; k" := (bind_some m (fun x => k))
  (at level 100, m at next level, right associativity) : go_scope.

(** ** The patterns of [http.ServeMux]

    A pattern is a method and a path. Literal paths only: the program's own
    patterns have no wildcards, and a base path with a brace is refused here
    where the mux would read a wildcard. *)
Definition path_segments (path : string) : list string := List.tl (Split path "/").

(** A path that [path.Clean] leaves alone. *)
Definition clean_path (path : string) : bool :=
  HasPrefix path "/" &&
  forallb (fun segment => negb (existsb (String.eqb segment) [""; "."; ".."])) (path_segments path).

Fixpoint PathUnescape (s : string) : option string :=
  match s with
  | EmptyString => Some EmptyString
  | String a s1 =>
      if Ascii.eqb a "%" then
        match s1 with
        | String b (String c s3) =>
            match unhex b, unhex c, PathUnescape s3 with
            | Some h, Some l, Some rest => Some (String (ascii_of_N (16 * h + l)) rest)
            | _, _, _ => None
            end
        | _ => None
        end
      else String a <$> PathUnescape s1
  end.

Definition unescape_segment (s : string) : string := default s (PathUnescape s).

Definition decoded_segments (path : string) : list string := unescape_segment <$> path_segments path.

Record route (H : Type) : Type := mkRoute { rt_Method : string; rt_Path : string; rt_Handler : H }.
Arguments mkRoute {H} rt_Method rt_Path rt_Handler.
Arguments rt_Method {H} _. Arguments rt_Path {H} _. Arguments rt_Handler {H} _.

(** [None]: [mux.HandleFunc] has panicked. *)
Abbreviation ServeMux := (fun H => option (list (route H))).

Definition valid_pattern {H} (r : route H) : bool :=
  clean_path (rt_Path r) && negb (byte_occurs "{" (rt_Path r)) && negb (byte_occurs "}" (rt_Path r)).

Definition conflicts {H} (r q : route H) : bool :=
  String.eqb (rt_Method r) (rt_Method q) &&
  bool_decide (decoded_segments (rt_Path r) = decoded_segments (rt_Path q)).

Definition HandleFunc {H} (method path : string) (handler : H) (mux : ServeMux H) : ServeMux H :=
  match mux with
  | None => None
  | Some routes =>
      let r := mkRoute method path handler in
      if valid_pattern r && negb (existsb (conflicts r) routes) then Some (routes ++ [r]) else None
  end.

(** A pattern for GET also matches HEAD. *)
Definition route_matches {H} (request : Request) (r : route H) : bool :=
  (String.eqb (rt_Method r) (r_Method request) ||
   (String.eqb (rt_Method r) "GET" && String.eqb (r_Method request) "HEAD")) &&
  bool_decide (decoded_segments (rt_Path r) = decoded_segments (r_EscapedPath request)).

(** The handler of a request; [None]: the mux redirects the request to a clean
    path or answers 404 or 405. *)
Definition mux_handler {H} (routes : list (route H)) (request : Request) : option H :=
  if clean_path (r_EscapedPath request)
  then rt_Handler <$> List.find (route_matches request) routes else None.

(** ** Network addresses *)
Inductive Addr : Type :=
| V4 (bits : N)
| V6 (bits : N) (zone : string).

#[export] Instance Addr_eq_dec : EqDecision Addr.
Proof. solve_decision. Defined.

Definition BitLen (a : Addr) : N := match a with V4 _ => 32 | V6 _ _ => 128 end.
Definition addr_bits (a : Addr) : N := match a with V4 bits | V6 bits _ => bits end.

(** An IPv4 address mapped into IPv6 is that IPv4 address. *)
Definition Unmap (a : Addr) : Addr :=
  match a with
  | V4 _ => a
  | V6 bits _ => if (N.shiftr bits 32 =? 65535)%N then V4 (bits mod 2 ^ 32)%N else a
  end.

Record Prefix : Type := mkPrefix { p_Addr : Addr; p_Bits : N }.

(** [netip.PrefixFrom(addr, bits)] for a number of bits in range. *)
Definition PrefixFrom (a : Addr) (bits : N) : Prefix :=
  mkPrefix (match a with V4 b => V4 b | V6 b _ => V6 b "" end) bits.

Definition clear_low (n : N) (bits : N) : N := N.shiftl (N.shiftr bits n) n.

Definition Masked (p : Prefix) : Prefix :=
  let low := (BitLen (p_Addr p) - p_Bits p)%N in
  mkPrefix (match p_Addr p with V4 b => V4 (clear_low low b) | V6 b _ => V6 (clear_low low b) "" end) (p_Bits p).

Definition Prefix_Contains (p : Prefix) (a : Addr) : bool :=
  match p_Addr p, a with
  | V4 q, V4 b => (N.shiftr (N.lxor b q) (32 - p_Bits p) =? 0)%N
  | V6 q _, V6 b zone => String.eqb zone "" && (N.shiftr (N.lxor b q) (128 - p_Bits p) =? 0)%N
  | _, _ => false
  end.

Class NetIP := {
  ParseAddr : string -> option Addr;
  (* the address of an address and port *)
  ParseAddrPort : string -> option Addr;
  ParsePrefix : string -> result Prefix;
  Addr_String : Addr -> string;
}.

Example Fields_example : Fields " Bearer   abc " = ["Bearer"; "abc"] /\ EqualFold "bEARER" "Bearer" = true.
Proof. split; reflexivity. Qed.

Example readCookies_example :
  readCookies ["a=1; authlier_session = x; authlier_session=tok-1"] "authlier_session" = [" x"; "tok-1"].
Proof. reflexivity. Qed.

Example Hostname_example :
  Hostname (mkURL "https" "app.example.com:8443" false "" "" "" "") = "app.example.com" /\
  Hostname (mkURL "https" "[::1]:8443" false "" "" "" "") = "::1".
Proof. split; reflexivity. Qed.

Example Contains_example :
  Prefix_Contains (Masked (PrefixFrom (V4 3232235777) 16)) (V4 3232236000) = true /\
  Prefix_Contains (Masked (PrefixFrom (V4 3232235777) 16)) (V4 168430090) = false.
Proof. split; reflexivity. Qed.
