(* ===== verification/Config.v ===== *)
(** * The configuration and the stores (config.go, storage.go)

    What an application configures and what its database provides. A pointer,
    a function or an interface value that may be nil is an [option]. *)
From S2P Require Import Prelude GoText GoUrl GoHttp.
From S2P Require Password EmailPassword EmailVerification PasswordReset SessionToken RefreshToken BearerSession Totp Passkey GoogleOAuth Oidc Saml.

(** ** Sessions *)
Definition SessionMode : Type := string.
Definition SessionModeCookie : SessionMode := "cookie".
Definition SessionModeBearer : SessionMode := "bearer".

Record CookieConfig : Type := mkCookieConfig {
  cc_Name : string;
  cc_Domain : string;
  cc_Path : string;
  cc_SameSite : Z;
}.

Section Config.
Context {S : Type}.

Record EmailAndPasswordConfig : Type := mkEmailAndPasswordConfig {
  ep_Enabled : bool;
  ep_RequireEmailVerification : bool;
  ep_PasswordHashAlgorithm : Password.Algorithm;
  ep_ValidatePassword : option EmailPassword.PasswordValidator;
  ep_AttemptGuard : option (EmailPassword.AttemptGuard S);
  ep_SecurityEvents : option (EmailPassword.SecurityEventSink S);
}.

Record EmailVerificationConfig : Type := mkEmailVerificationConfig {
  ev_Enabled : bool;
  ev_Delivery : EmailVerification.DeliveryMethod;
  ev_OTPSecret : string;
  ev_Lifetime : duration;
  ev_VerificationURL : string;
  ev_Sender : option (EmailVerification.Sender S);
  ev_SendOnSignUp : bool;
  ev_SendOnSignIn : bool;
  ev_AutoSignInAfterVerification : bool;
  ev_AttemptGuard : option (EmailVerification.AttemptGuard S);
  ev_SecurityEvents : option (EmailVerification.SecurityEventSink S);
}.

Record PasswordResetConfig : Type := mkPasswordResetConfig {
  pr_Enabled : bool;
  pr_Lifetime : duration;
  pr_ResetURL : string;
  pr_Sender : option (PasswordReset.Sender S);
  pr_KeepSessionsAfterReset : bool;
  pr_AttemptGuard : option (PasswordReset.AttemptGuard S);
  pr_SecurityEvents : option (PasswordReset.SecurityEventSink S);
}.

Record SessionConfig : Type := mkSessionConfig {
  sc_Mode : SessionMode;
  sc_Lifetime : duration;
  sc_FreshAge : duration;
  sc_Cache : option (SessionToken.Cache S);
  sc_CacheTTL : duration;
  sc_Extension : option SessionToken.ExtensionConfig;
  sc_Cookie : CookieConfig;
  sc_Bearer : BearerSession.BearerSessionConfig;
}.

Record TOTPConfig : Type := mkTOTPConfig {
  tc_Enabled : bool;
  tc_EnrollmentLifetime : duration;
  tc_ChallengeLifetime : duration;
  tc_RecoveryCodeCount : Z;
  tc_AttemptGuard : option (Totp.AttemptGuard S);
  tc_SecurityEvents : option (Totp.SecurityEventSink S);
}.

Record PasskeyConfig : Type := mkPasskeyConfig {
  pk_Enabled : bool;
  pk_RelyingPartyID : string;
  pk_RelyingPartyName : string;
  pk_Origins : list string;
  pk_CeremonyLifetime : duration;
  pk_AttemptGuard : option (Passkey.AttemptGuard S);
  pk_SecurityEvents : option (Passkey.SecurityEventSink S);
}.

(** HTTP clients are part of the libraries' calls. *)
Record GoogleConfig : Type := mkGoogleConfig {
  gc_Enabled : bool;
  gc_ClientID : string;
  gc_ClientSecret : string;
  gc_RedirectURL : string;
  gc_SuccessRedirectURL : string;
  gc_StateLifetime : duration;
  gc_Provider : option (GoogleOAuth.Provider S);
  gc_SecurityEvents : option (GoogleOAuth.SecurityEventSink S);
}.

Definition OIDCIdentityResolver : Type := Oidc.Identity -> M S (result string).

Record OIDCConfig : Type := mkOIDCConfig {
  oc_Enabled : bool;
  oc_Connections : option (Oidc.ConnectionSource S);
  oc_ResolveIdentity : option OIDCIdentityResolver;
  oc_StateLifetime : duration;
  oc_SuccessRedirectURL : string;
  oc_AttemptGuard : option (Oidc.AttemptGuard S);
  oc_SecurityEvents : option (Oidc.SecurityEventSink S);
}.

Definition SAMLIdentityResolver : Type := Saml.Identity -> M S (result string).

Record SAMLConfig : Type := mkSAMLConfig {
  sm_Enabled : bool;
  sm_Connections : option (Saml.ConnectionSource S);
  sm_ResolveIdentity : option SAMLIdentityResolver;
  sm_RequestLifetime : duration;
  sm_SuccessRedirectURL : string;
  sm_AttemptGuard : option (Saml.AttemptGuard S);
  sm_SecurityEvents : option (Saml.SecurityEventSink S);
}.

(** ** Stores *)
Record EmailPasswordStore : Type := mkEmailPasswordStore {
  eps_Store : EmailPassword.Store S;
  eps_CredentialStore : EmailPassword.CredentialStore S;
}.

Record GoogleStore : Type := mkGoogleStore {
  gs_Store : GoogleOAuth.Store S;
  gs_IdentityStore : GoogleOAuth.IdentityStore S;
}.

Record Stores : Type := mkStores {
  st_EmailPassword : option EmailPasswordStore;
  st_EmailVerification : option (EmailVerification.Store S);
  st_Google : option GoogleStore;
  st_OIDC : option (Oidc.Store S);
  st_Passkeys : option (Passkey.Store S);
  st_PasswordReset : option (PasswordReset.Store S);
  st_RefreshTokens : option (RefreshToken.Store S);
  st_SAML : option (Saml.Store S);
  st_Sessions : option (SessionToken.Store S);
  st_TOTP : option (Totp.Store S);
  st_AccessSessions : option (BearerSession.AccessSessionStore S);
}.

(** The interface [Database]. *)
Record Database : Type := mkDatabase {
  db_Migrate : M S (result unit);
  db_Stores : Stores;
}.

Record Config : Type := mkConfig {
  AppName : string;
  BaseURL : string;
  BasePath : string;
  AccountBasePath : string;
  c_Database : option Database;
  TrustedOrigins : list string;
  TrustedProxies : list string;
  c_EmailAndPassword : EmailAndPasswordConfig;
  c_EmailVerification : EmailVerificationConfig;
  c_PasswordReset : PasswordResetConfig;
  c_Session : SessionConfig;
  c_TOTP : TOTPConfig;
  c_Passkeys : PasskeyConfig;
  c_Google : GoogleConfig;
  c_OIDC : OIDCConfig;
  c_SAML : SAMLConfig;
}.
End Config.
Arguments EmailAndPasswordConfig S : clear implicits.
Arguments EmailVerificationConfig S : clear implicits.
Arguments PasswordResetConfig S : clear implicits.
Arguments SessionConfig S : clear implicits.
Arguments TOTPConfig S : clear implicits.
Arguments PasskeyConfig S : clear implicits.
Arguments GoogleConfig S : clear implicits.
Arguments OIDCIdentityResolver S : clear implicits.
Arguments OIDCConfig S : clear implicits.
Arguments SAMLIdentityResolver S : clear implicits.
Arguments SAMLConfig S : clear implicits.
Arguments EmailPasswordStore S : clear implicits.
Arguments GoogleStore S : clear implicits.
Arguments Stores S : clear implicits.
Arguments Database S : clear implicits.
Arguments Config S : clear implicits.

(** * Links in messages (delivery.go)

    The senders of verification and reset messages, wrapped so that a message
    carries a link with its token. *)


(** The schemes of addresses the configuration accepts. *)
Definition web_scheme (u : URL) : bool :=
  String.eqb (Scheme u) "https" || String.eqb (Scheme u) "http".

Definition parseActionURL `{NetURL} (rawURL : string) : result URL :=
  match url_Parse (TrimSpace rawURL) with
  | None => Err BearerSession.ErrInvalidConfig
  | Some parsed =>
      if String.eqb (Host parsed) "" || has_User parsed || negb (web_scheme parsed)
      then Err BearerSession.ErrInvalidConfig else Ok parsed
  end.

(** The token replaces whatever the query of [base] says of it. *)
Definition actionURL `{NetURL} (base : URL) (token : string) : string :=
  let query := Set_ "token" token (ParseQuery (RawQuery base)) in
  url_String (set_RawQuery (Encode query) base).

Section Senders.
Context {S : Type} `{NetURL}.

Record verificationURLSender : Type := mkVerificationURLSender {
  vs_sender : EmailVerification.Sender S;
  vs_url : URL;
}.

Record resetURLSender : Type := mkResetURLSender {
  rs_sender : PasswordReset.Sender S;
  rs_url : URL;
}.

Definition SendVerification (sender : verificationURLSender) : EmailVerification.Sender S := fun message =>
  let url := actionURL (vs_url sender) (EmailVerification.Token_ message) in
  vs_sender sender (EmailVerification.mkMessage (EmailVerification.UserID message) (EmailVerification.Email message)
    (EmailVerification.Token_ message) (EmailVerification.Code message) url (EmailVerification.ExpiresAt message)).

Definition newVerificationURLSender (sender : option (EmailVerification.Sender S)) (rawURL : string) :
    result (EmailVerification.Sender S) :=
  match sender with
  | None => Err BearerSession.ErrInvalidConfig
  | Some sender =>
      match parseActionURL rawURL with
      | Err err => Err err
      | Ok parsed => Ok (SendVerification (mkVerificationURLSender sender parsed))
      end
  end.

Definition SendPasswordReset (sender : resetURLSender) : PasswordReset.Sender S := fun message =>
  let url := actionURL (rs_url sender) (PasswordReset.Token_ message) in
  rs_sender sender (PasswordReset.mkMessage (PasswordReset.UserID message) (PasswordReset.Email message)
    (PasswordReset.Token_ message) url (PasswordReset.ExpiresAt message)).

Definition newResetURLSender (sender : option (PasswordReset.Sender S)) (rawURL : string) :
    result (PasswordReset.Sender S) :=
  match sender with
  | None => Err BearerSession.ErrInvalidConfig
  | Some sender =>
      match parseActionURL rawURL with
      | Err err => Err err
      | Ok parsed => Ok (SendPasswordReset (mkResetURLSender sender parsed))
      end
  end.
End Senders.
Arguments verificationURLSender S : clear implicits.
Arguments resetURLSender S : clear implicits.
