(* ===== verification/Replies.v ===== *)
(** * The JSON bodies of requests and responses

    The request and response types of the handler files, and [reply], the
    values that [writeJSON] is given. *)
From S2P Require Import Prelude GoText GoUrl GoHttp.
From S2P Require Passkey BearerSession.

(** ** Requests *)

(** A strict [json.Decoder] on a value of type [T]: the first value of a text
    decoded without unknown fields, and the text after it. *)
Class StrictDecoder (T : Type) := { json_Decode : string -> option (T * string) }.

Record credentialsRequest : Type := mkCredentialsRequest { cred_Email : string; cred_Password : string }.

Record changePasswordRequest : Type := mkChangePasswordRequest {
  CurrentPassword : string;
  NewPassword : string;
  RevokeOtherSessions : bool;
}.

Record setPasswordRequest : Type := mkSetPasswordRequest { set_Password : string }.

Record removePasswordRequest : Type := mkRemovePasswordRequest { remove_CurrentPassword : string }.

Record emailRequest : Type := mkEmailRequest { request_Email : string }.

Record verifyEmailOTPRequest : Type := mkVerifyEmailOTPRequest { otp_Email : string; otp_Code : string }.

Record resetPasswordRequest : Type := mkResetPasswordRequest { reset_Token : string; reset_NewPassword : string }.

(** [Response] is raw JSON. *)
Record passkeyCompletionRequest : Type := mkPasskeyCompletionRequest {
  completion_CeremonyToken : string;
  completion_Response : string;
}.

Record passkeyRemovalRequest : Type := mkPasskeyRemovalRequest { removal_CredentialID : string }.

Record revokeSessionRequest : Type := mkRevokeSessionRequest { revoke_SessionID : string }.

Record ssoSignInRequest : Type := mkSsoSignInRequest { sso_ConnectionID : string }.

Record refreshTokenRequest : Type := mkRefreshTokenRequest { refresh_RefreshToken : string }.

Record totpEnrollmentRequest : Type := mkTotpEnrollmentRequest { AccountName : string }.

Record totpCodeRequest : Type := mkTotpCodeRequest { totp_Code : string }.

Record twoFactorRequest : Type := mkTwoFactorRequest { factor_ChallengeToken : string; factor_Code : string }.

(** The decoders of all requests. *)
Class RequestDecoders := {
  decode_credentials :: StrictDecoder credentialsRequest;
  decode_changePassword :: StrictDecoder changePasswordRequest;
  decode_setPassword :: StrictDecoder setPasswordRequest;
  decode_removePassword :: StrictDecoder removePasswordRequest;
  decode_email :: StrictDecoder emailRequest;
  decode_verifyEmailOTP :: StrictDecoder verifyEmailOTPRequest;
  decode_resetPassword :: StrictDecoder resetPasswordRequest;
  decode_passkeyCompletion :: StrictDecoder passkeyCompletionRequest;
  decode_passkeyRemoval :: StrictDecoder passkeyRemovalRequest;
  decode_revokeSession :: StrictDecoder revokeSessionRequest;
  decode_ssoSignIn :: StrictDecoder ssoSignInRequest;
  decode_refreshToken :: StrictDecoder refreshTokenRequest;
  decode_totpEnrollment :: StrictDecoder totpEnrollmentRequest;
  decode_totpCode :: StrictDecoder totpCodeRequest;
  decode_twoFactor :: StrictDecoder twoFactorRequest;
}.

(** ** Responses *)
Record errorDetails : Type := mkErrorDetails { Code : string }.
Record errorResponse : Type := mkErrorResponse { Error : errorDetails }.

Record userDetails : Type := mkUserDetails { user_ID : string; user_Email : string }.

Record sessionDetails : Type := mkSessionDetails {
  details_ID : string;
  details_SubjectID : string;
  details_CreatedAt : time;
  details_ExpiresAt : time;
}.

Record tokenDetails : Type := mkTokenDetails {
  AccessToken : string;
  AccessTokenExpiresAt : time;
  RefreshToken : string;
  RefreshTokenExpiresAt : time;
}.

Record userResponse : Type := mkUserResponse {
  ur_User : userDetails;
  ur_Session : option sessionDetails;
  ur_Tokens : option tokenDetails;
}.

Record sessionResponse : Type := mkSessionResponse {
  sr_Session : sessionDetails;
  sr_Tokens : option tokenDetails;
}.

Record authorizationURLResponse : Type := mkAuthorizationURLResponse { response_URL : string }.

Record passkeyResponse : Type := mkPasskeyResponse { CredentialID : string }.
Record passkeysResponse : Type := mkPasskeysResponse { Passkeys : list passkeyResponse }.

Record listedSessionDetails : Type := mkListedSessionDetails { listed : sessionDetails; Current : bool }.
Record sessionsResponse : Type := mkSessionsResponse { Sessions : list listedSessionDetails }.

Record totpEnrollmentResponse : Type := mkTotpEnrollmentResponse {
  enrollment_Secret : string;
  enrollment_URI : string;
  enrollment_ExpiresAt : time;
}.

Record recoveryCodesResponse : Type := mkRecoveryCodesResponse { RecoveryCodes : list string }.

Record twoFactorRequiredResponse : Type := mkTwoFactorRequiredResponse {
  TwoFactorRequired : bool;
  required_ChallengeToken : string;
  required_ExpiresAt : time;
}.

Section Replies.
Context `{Passkey.WebAuthnLibrary}.

Record passkeyRegistrationOptionsResponse : Type := mkPasskeyRegistrationOptionsResponse {
  registration_CeremonyToken : string;
  registration_Options : Passkey.CredentialCreation;
  registration_ExpiresAt : time;
}.

Record passkeySignInOptionsResponse : Type := mkPasskeySignInOptionsResponse {
  signIn_CeremonyToken : string;
  signIn_Options : Passkey.CredentialAssertion;
  signIn_ExpiresAt : time;
}.

Inductive reply : Type :=
| reply_error (r : errorResponse)
| reply_user (r : userResponse)
| reply_session (r : sessionResponse)
| reply_sessions (r : sessionsResponse)
| reply_twoFactor (r : twoFactorRequiredResponse)
| reply_totpEnrollment (r : totpEnrollmentResponse)
| reply_recoveryCodes (r : recoveryCodesResponse)
| reply_authorizationURL (r : authorizationURLResponse)
| reply_registrationOptions (r : passkeyRegistrationOptionsResponse)
| reply_signInOptions (r : passkeySignInOptionsResponse)
| reply_passkey (r : passkeyResponse)
| reply_passkeys (r : passkeysResponse).
End Replies.

Definition newUserResponse (id email : string) : userResponse :=
  mkUserResponse (mkUserDetails id email) None None.

Definition newSessionDetails (record : BearerSession.Session) : sessionDetails :=
  mkSessionDetails (BearerSession.ID record) (BearerSession.SubjectID record)
    (BearerSession.CreatedAt record) (BearerSession.ExpiresAt record).

Definition newTokenDetails (issued : BearerSession.bearerSessionIssued) : option tokenDetails :=
  Some (mkTokenDetails (BearerSession.AccessToken_ issued) (BearerSession.AccessTokenExpiresAt issued)
          (BearerSession.RefreshToken_ issued) (BearerSession.RefreshTokenExpiresAt issued)).

(** * The assembled authentication (authlier.go)

    The type [Auth] and the resolution of a request's session. Its handler is a
    value of its own ([Handler.v]). *)
From S2P Require Import Base64 EmailAddress Config.
From S2P Require Token Password EmailPassword EmailVerification PasswordReset SessionToken AccessToken BearerSession Totp Passkey GoogleOAuth Oidc Saml.

(** A pointer that is nil is [None]; a call through it panics. [New] leaves no
    such call in a registered handler. *)
Definition nil_dereference : error := New "nil pointer dereference".

Definition with_manager {S T A} (manager : option T) (k : T -> M S (result A)) : M S (result A) :=
  match manager with Some manager => k manager | None => ret (Err nil_dereference) end.

Record Auth {S : Type} `{Passkey.WebAuthnLibrary} : Type := mkAuth {
  password : option (EmailPassword.Manager S);
  emailVerification : option (EmailVerification.Manager S);
  passwordReset : option (PasswordReset.Manager S);
  passkeys : option (Passkey.Manager S);
  google : option (GoogleOAuth.Manager S);
  oidc : option (Oidc.Manager S);
  saml : option (Saml.Manager S);
  sessions : option (SessionToken.Manager S);
  bearerSessions : option (BearerSession.bearerSessionManager S);
  auth_sessionMode : SessionMode;
  totp : option (Totp.Manager S);
  sessionFreshAge : duration;
  requireEmailVerification : bool;
  sendVerificationOnSignUp : bool;
  sendVerificationOnSignIn : bool;
  autoSignInAfterVerification : bool;
  emailVerificationDelivery : EmailVerification.DeliveryMethod;
  revokeSessionsOnPasswordReset : bool;
  googleSuccessRedirectURL : string;
  oidcSuccessRedirectURL : string;
  samlSuccessRedirectURL : string;
  resolveOIDCIdentity : option (OIDCIdentityResolver S);
  resolveSAMLIdentity : option (SAMLIdentityResolver S);
  cookieName : string;
}.
Arguments Auth S {_}.

(** The durable session a cookie stands for, as a [Session]. *)
Definition session_of_record (record : SessionToken.SessionRecord) : BearerSession.Session :=
  BearerSession.mkSession (SessionToken.ID record) (SessionToken.SubjectID record)
    (SessionToken.CreatedAt record) (SessionToken.ExpiresAt record).

Definition bearerToken (authorization : string) : result string :=
  match Fields authorization with
  | [scheme; token] =>
      if negb (EqualFold scheme "Bearer") || String.eqb token ""
      then Err AccessToken.ErrInvalidToken else Ok token
  | _ => Err AccessToken.ErrInvalidToken
  end.

Section Resolve.
Context {S : Type} `{Env} `{AccessToken.JWT} `{Passkey.WebAuthnLibrary}.

Definition ResolveSession (auth : Auth S) (r : Request) : M S (result BearerSession.Session) :=
  if String.eqb (auth_sessionMode auth) SessionModeBearer then
    match bearerToken (header r "Authorization") with
    | Err err => ret (Err err)
    | Ok token => with_manager (bearerSessions auth) (fun manager => BearerSession.Resolve manager token)
    end
  else
    match request_Cookie r (cookieName auth) with
    | Err _ => ret (Err Token.ErrInvalidToken)
    | Ok value =>
        with_manager (sessions auth) (fun manager =>
          record <-? SessionToken.Resolve manager value ;;
          ret (Ok (session_of_record record)))
    end.
End Resolve.
