(* ===== verification/Handler.v ===== *)
(** * The HTTP handler: what all routes share (handler.go)

    A handler method reads a request, calls the managers and writes its answer
    to a [ResponseWriter], which is part of the state while it runs. *)
From S2P Require Import Prelude GoText Base64 EmailAddress GoUrl GoHttp Config Replies.
From S2P Require Token Password EmailPassword SessionToken AccessToken BearerSession Passkey.

(** [maximumRequestBody] is 1 << 20 bytes. *)
Definition maximumRequestBody : Z := Z.shiftl 1 20.

(** The handler methods that are registered as routes. *)
Inductive endpoint : Type :=
| signUp | signIn | signOut | session
| changePassword | setPassword | removePassword
| listSessions | revokeSession | revokeOtherSessions | revokeSessions
| refreshAccessToken
| resendVerification | verifyEmailOTP | verifyEmailLink
| forgotPassword | resetPassword
| enableTOTP | confirmTOTP | verifyTOTP | recoverTOTP | disableTOTP
| passkeyRegistrationOptions | verifyPasskeyRegistration | passkeySignInOptions
| verifyPasskeySignIn | listPasskeys | removePasskey
| signInWithGoogle | completeGoogleSignIn | linkGoogle | unlinkGoogle
| beginOIDC | completeOIDC | beginSAML | completeSAML | samlMetadata.

#[export] Instance endpoint_eq_dec : EqDecision endpoint.
Proof. solve_decision. Defined.

Record httpHandler {S : Type} `{Passkey.WebAuthnLibrary} : Type := mkHttpHandler {
  auth : Auth S;
  allowedOrigins : list string;
  trustedProxies : list Prefix;
  crossSitePOSTs : gset string;
  cookie : Cookie;
  cookieLifetime : duration;
  sessionMode : SessionMode;
  mux : list (route endpoint);
}.
Arguments httpHandler S {_}.

(** ** Source keys *)
Section Source.
Context {S : Type} `{Passkey.WebAuthnLibrary} `{NetIP}.

Definition remoteAddress (value : string) : option Addr :=
  match ParseAddrPort value with
  | Some address => Some address
  | None => ParseAddr value
  end.

Definition trustedProxy (handler : httpHandler S) (address : Addr) : bool :=
  existsb (fun prefix => Prefix_Contains prefix address) (trustedProxies handler).

(** The loop over the forwarded addresses, the last one first. *)
Fixpoint forwardedSource (handler : httpHandler S) (peer candidate : Addr) (forwarded : list string) : Addr :=
  match forwarded with
  | [] => candidate
  | text :: forwarded =>
      match ParseAddr (TrimSpace text) with
      | None => peer
      | Some address =>
          let candidate := Unmap address in
          if negb (trustedProxy handler candidate) then candidate
          else forwardedSource handler peer candidate forwarded
      end
  end.

Definition sourceKey (handler : httpHandler S) (request : Request) : string :=
  match remoteAddress (r_RemoteAddr request) with
  | None => r_RemoteAddr request
  | Some peer =>
      let peer := Unmap peer in
      if negb (trustedProxy handler peer) then Addr_String peer else
      let forwarded := Split (header request "X-Forwarded-For") "," in
      Addr_String (forwardedSource handler peer peer (rev forwarded))
  end.

Fixpoint parseTrustedProxies (values : list string) : result (list Prefix) :=
  match values with
  | [] => Ok []
  | value :: values =>
      let value := TrimSpace value in
      let prefix :=
        match ParsePrefix value with
        | Ok prefix => Ok prefix
        | Err err =>
            match ParseAddr value with
            | None => Err err
            | Some address => Ok (PrefixFrom address (BitLen address))
            end
        end in
      match prefix with
      | Err err => Err err
      | Ok prefix =>
          match parseTrustedProxies values with
          | Err err => Err err
          | Ok prefixes => Ok (Masked prefix :: prefixes)
          end
      end
  end.
End Source.

(** ** Answers *)
Section Answers.
Context {S : Type} `{Passkey.WebAuthnLibrary}.

Definition writeJSON (status : Z) (value : reply) : M (S * ResponseWriter reply) unit :=
  Header_Set "Content-Type" "application/json" ;;;
  WriteHeader status ;;;
  Write (JSON value).

Definition writeError (status : Z) (code : string) : M (S * ResponseWriter reply) unit :=
  writeJSON status (reply_error (mkErrorResponse (mkErrorDetails code))).

Definition json_space (a : ascii) : bool := byte_in 9 10 a || byte_in 13 13 a || byte_in 32 32 a.

(** One value of the type of [destination] and nothing but white space after
    it, within the limit. *)
Definition readJSON {T} `{StrictDecoder T} (request : Request) : M (S * ResponseWriter reply) (option T) :=
  match json_Decode (r_Body request) with
  | None => writeError 400 "invalid_request" ;;; ret None
  | Some (input, rest) =>
      if forallb json_space (list_of_string rest) &&
         (Z.of_nat (String.length (r_Body request)) <=? maximumRequestBody)%Z
      then ret (Some input)
      else writeError 400 "invalid_request" ;;; ret None
  end.

Definition readCredentials `{RequestDecoders} (request : Request) :
    M (S * ResponseWriter reply) (option credentialsRequest) :=
  readJSON request.

Definition writeAuthenticationError (err : error) : M (S * ResponseWriter reply) unit :=
  if errors_Is err EmailPassword.ErrInvalidInput || errors_Is err EmailPassword.ErrInvalidPassword
  then writeError 400 "invalid_request" else
  if errors_Is err EmailPassword.ErrInvalidCredentials
  then writeError 401 "invalid_credentials" else
  if errors_Is err EmailPassword.ErrRegistrationUnavailable || errors_Is err EmailPassword.ErrConflict
  then writeError 409 "registration_unavailable" else
  if errors_Is err EmailPassword.ErrAttemptBlocked
  then writeError 429 "too_many_attempts" else
  writeError 500 "authentication_failed".

(** ** Sessions *)
Definition setSession (handler : httpHandler S) (token : string) (createdAt expiresAt : time) :
    M (S * ResponseWriter reply) unit :=
  let expires := if (0 <? cookieLifetime handler)%Z then Add createdAt (cookieLifetime handler) else expiresAt in
  SetCookie (set_cookie_value token expires (cookie handler)).

(** [time.Unix(1, 0)]. *)
Definition epoch_plus_one : time := ((unixEpochSeconds + 1) * Second)%Z.

Definition clearSession (handler : httpHandler S) : M (S * ResponseWriter reply) unit :=
  if negb (String.eqb (sessionMode handler) SessionModeCookie) then ret tt else
  SetCookie (set_MaxAge (-1) (set_cookie_value "" epoch_plus_one (cookie handler))).

Definition validOrigin (handler : httpHandler S) (origin : string) : bool :=
  negb (String.eqb origin "") && existsb (String.eqb origin) (allowedOrigins handler).
End Answers.

Section Sessions.
Context {S : Type} `{Env} `{AccessToken.JWT} `{Passkey.WebAuthnLibrary}.

Definition issueSession (handler : httpHandler S) (subjectID : string) :
    M (S * ResponseWriter reply) (option (sessionDetails * option tokenDetails)) :=
  if String.eqb (sessionMode handler) SessionModeBearer then
    r <- outer (with_manager (bearerSessions (auth handler)) (fun m => BearerSession.Create m subjectID)) ;;
    match r with
    | Err _ => writeError 500 "session_failed" ;;; ret None
    | Ok issued => ret (Some (newSessionDetails (BearerSession.issued_Session issued), newTokenDetails issued))
    end
  else
    r <- outer (with_manager (sessions (auth handler)) (fun m => SessionToken.Create m subjectID)) ;;
    match r with
    | Err _ => writeError 500 "session_failed" ;;; ret None
    | Ok issued =>
        let record := SessionToken.issued_Record issued in
        setSession handler (SessionToken.issued_Token issued) (SessionToken.CreatedAt record)
          (SessionToken.ExpiresAt record) ;;;
        ret (Some (newSessionDetails (session_of_record record), None))
    end.

Definition completeProviderAuthentication (handler : httpHandler S) (request : Request)
    (subjectID redirectURL : string) : M (S * ResponseWriter reply) unit :=
  if negb (String.eqb redirectURL "") && String.eqb (sessionMode handler) SessionModeBearer
  then writeError 400 "token_redirect_not_supported" else
  issued <-! issueSession handler subjectID ;;
  if negb (String.eqb redirectURL "") then Redirect request redirectURL 303 else
  writeJSON 200 (reply_session (mkSessionResponse (fst issued) (snd issued))).

Definition createAuthenticatedSession (handler : httpHandler S) (subjectID : string) :
    M (S * ResponseWriter reply) unit :=
  issued <-! issueSession handler subjectID ;;
  writeJSON 200 (reply_session (mkSessionResponse (fst issued) (snd issued))).

(** The session of a request; for a sensitive operation, a fresh one. *)
Definition requireSession (handler : httpHandler S) (request : Request) (fresh : bool) :
    M (S * ResponseWriter reply) (option BearerSession.Session) :=
  r <- outer (ResolveSession (auth handler) request) ;;
  match r with
  | Err _ => writeError 401 "not_authenticated" ;;; ret None
  | Ok record =>
      if fresh then
        now <- outer (read_now time_Now) ;;
        if After now (Add (BearerSession.CreatedAt record) (sessionFreshAge (auth handler)))
        then writeError 403 "recent_authentication_required" ;;; ret None
        else ret (Some record)
      else ret (Some record)
  end.

Definition sessionHandler (handler : httpHandler S) (request : Request) : M (S * ResponseWriter reply) unit :=
  r <- outer (ResolveSession (auth handler) request) ;;
  match r with
  | Err _ => writeError 401 "not_authenticated"
  | Ok record => writeJSON 200 (reply_session (mkSessionResponse (newSessionDetails record) None))
  end.
End Sessions.
