(* ===== verification/HandlerMethods.v ===== *)
(** * Sign-up, sign-in, sign-out and token refresh (handler.go, handler_token.go) *)
From S2P Require Import Prelude GoText Base64 EmailAddress GoUrl GoHttp Config Replies Handler.
From S2P Require Token Password EmailPassword EmailVerification SessionToken RefreshToken AccessToken BearerSession Totp Passkey PasswordReset GoogleOAuth Oidc Saml.

Section Errors.
Context {S : Type} `{Passkey.WebAuthnLibrary}.

(** This one is of handler_email.go. *)
Definition writeEmailVerificationError (err : error) : M (S * ResponseWriter reply) unit :=
  if errors_Is err Token.ErrInvalidToken then writeError 400 "invalid_token" else
  if errors_Is err EmailVerification.ErrAttemptBlocked then writeError 429 "too_many_attempts" else
  writeError 500 "email_verification_failed".

Definition invalidRefreshTokenError (err : error) : bool :=
  errors_Is err RefreshToken.ErrInactive || errors_Is err RefreshToken.ErrInvalidRecord ||
  errors_Is err RefreshToken.ErrNotFound || errors_Is err RefreshToken.ErrReuseDetected ||
  errors_Is err Token.ErrInvalidToken || errors_Is err AccessToken.ErrInactiveSession.
End Errors.

Section SignIn.
Context {S : Type} `{Env} `{GoTables} `{Password.PasswordHashes} `{AccessToken.JWT} `{Passkey.WebAuthnLibrary} `{NetIP}
  `{RequestDecoders}.

Definition requestVerification (handler : httpHandler S) (request : Request) (email : string) : M S (result unit) :=
  with_manager (emailVerification (auth handler)) (fun m =>
    EmailVerification.Request m (EmailVerification.mkRequestInput email (sourceKey handler request))).

Definition signUpHandler (handler : httpHandler S) (request : Request) : M (S * ResponseWriter reply) unit :=
  input <-! readCredentials request ;;
  r <- outer (with_manager (password (auth handler)) (fun m =>
         EmailPassword.Register m
           (EmailPassword.mkRegisterInput (cred_Email input) (cred_Password input) (sourceKey handler request)))) ;;
  match r with
  | Err err => writeAuthenticationError err
  | Ok user =>
      asked <- (if bool_decide (is_Some (emailVerification (auth handler))) &&
                   (sendVerificationOnSignUp (auth handler) || requireEmailVerification (auth handler))
                then outer (requestVerification handler request (EmailPassword.Email user))
                else ret (Ok tt)) ;;
      match asked with
      | Err err => writeEmailVerificationError err
      | Ok _ =>
          if requireEmailVerification (auth handler)
          then writeJSON 201 (reply_user (newUserResponse (EmailPassword.ID user) (EmailPassword.Email user))) else
          issued <-! issueSession handler (EmailPassword.ID user) ;;
          writeJSON 201 (reply_user (mkUserResponse (mkUserDetails (EmailPassword.ID user) (EmailPassword.Email user))
                                       (Some (fst issued)) (snd issued)))
      end
  end.

(** The check of the address at sign-in: [Some tt] lets the sign-in go on. *)
Definition requireVerified (handler : httpHandler S) (request : Request) (email : string) :
    M (S * ResponseWriter reply) (option unit) :=
  if negb (requireEmailVerification (auth handler)) then ret (Some tt) else
  r <- outer (with_manager (emailVerification (auth handler)) (fun m => EmailVerification.IsVerified m email)) ;;
  match r with
  | Err _ => writeError 500 "authentication_failed" ;;; ret None
  | Ok true => ret (Some tt)
  | Ok false =>
      if sendVerificationOnSignIn (auth handler) then
        r <- outer (requestVerification handler request email) ;;
        match r with
        | Err err => writeEmailVerificationError err ;;; ret None
        | Ok _ => writeError 403 "email_not_verified" ;;; ret None
        end
      else writeError 403 "email_not_verified" ;;; ret None
  end.

(** The check for a second factor: a challenge is the answer when there is one. *)
Definition requireNoSecondFactor (handler : httpHandler S) (subjectID : string) :
    M (S * ResponseWriter reply) (option unit) :=
  match totp (auth handler) with
  | None => ret (Some tt)
  | Some manager =>
      r <- outer (Totp.IsEnabled manager subjectID) ;;
      match r with
      | Err _ => writeError 500 "authentication_failed" ;;; ret None
      | Ok false => ret (Some tt)
      | Ok true =>
          r <- outer (Totp.BeginChallenge manager subjectID) ;;
          match r with
          | Err _ => writeError 500 "authentication_failed" ;;; ret None
          | Ok challenge =>
              writeJSON 200 (reply_twoFactor (mkTwoFactorRequiredResponse true
                (Totp.challenge_Token challenge) (Totp.challenge_ExpiresAt challenge))) ;;; ret None
          end
      end
  end.

Definition signInHandler (handler : httpHandler S) (request : Request) : M (S * ResponseWriter reply) unit :=
  input <-! readCredentials request ;;
  r <- outer (with_manager (password (auth handler)) (fun m =>
         EmailPassword.Login m
           (EmailPassword.mkLoginInput (cred_Email input) (cred_Password input) (sourceKey handler request)))) ;;
  match r with
  | Err err => writeAuthenticationError err
  | Ok login =>
      let user := EmailPassword.login_User login in
      _ <-! requireVerified handler request (EmailPassword.Email user) ;;
      _ <-! requireNoSecondFactor handler (EmailPassword.ID user) ;;
      issued <-! issueSession handler (EmailPassword.ID user) ;;
      writeJSON 200 (reply_user (mkUserResponse (mkUserDetails (EmailPassword.ID user) (EmailPassword.Email user))
                                   (Some (fst issued)) (snd issued)))
  end.

(** Without a session of its own, the refresh token in the body names one. *)
Definition signOutBearer (handler : httpHandler S) (request : Request) : M (S * ResponseWriter reply) unit :=
  r <- outer (ResolveSession (auth handler) request) ;;
  match r with
  | Ok current =>
      r <- outer (with_manager (bearerSessions (auth handler)) (fun m => BearerSession.Revoke m (BearerSession.ID current))) ;;
      match r with
      | Err _ => writeError 500 "sign_out_failed"
      | Ok _ => WriteHeader 204
      end
  | Err _ =>
      if negb (r_ContentLength request =? 0)%Z then
        input <-! readJSON (T := refreshTokenRequest) request ;;
        r <- outer (with_manager (bearerSessions (auth handler)) (fun m =>
               BearerSession.RevokeByRefreshToken m (refresh_RefreshToken input))) ;;
        match r with
        | Err err => if negb (invalidRefreshTokenError err) then writeError 500 "sign_out_failed" else WriteHeader 204
        | Ok _ => WriteHeader 204
        end
      else WriteHeader 204
  end.

Definition signOutHandler (handler : httpHandler S) (request : Request) : M (S * ResponseWriter reply) unit :=
  if String.eqb (sessionMode handler) SessionModeBearer then signOutBearer handler request else
  match request_Cookie request (ck_Name (cookie handler)) with
  | Err _ => clearSession handler ;;; WriteHeader 204
  | Ok value =>
      r <- outer (with_manager (sessions (auth handler)) (fun m => SessionToken.Revoke m value)) ;;
      match r with
      | Err err =>
          if negb (errors_Is err SessionToken.ErrNotFound) && negb (errors_Is err Token.ErrInvalidToken)
          then writeError 500 "sign_out_failed" else clearSession handler ;;; WriteHeader 204
      | Ok _ => clearSession handler ;;; WriteHeader 204
      end
  end.

Definition refreshAccessTokenHandler (handler : httpHandler S) (request : Request) :
    M (S * ResponseWriter reply) unit :=
  input <-! readJSON (T := refreshTokenRequest) request ;;
  r <- outer (with_manager (bearerSessions (auth handler)) (fun m =>
         BearerSession.Refresh m (refresh_RefreshToken input))) ;;
  match r with
  | Err err =>
      if invalidRefreshTokenError err then writeError 401 "invalid_refresh_token"
      else writeError 500 "token_refresh_failed"
  | Ok issued =>
      writeJSON 200 (reply_session (mkSessionResponse
        (newSessionDetails (BearerSession.issued_Session issued)) (newTokenDetails issued)))
  end.
End SignIn.

(** * Passwords and sessions of an account (handler_account.go, handler_session.go) *)

Section Errors.
Context {S : Type} `{Passkey.WebAuthnLibrary}.

Definition writeCredentialError (err : error) : M (S * ResponseWriter reply) unit :=
  if errors_Is err EmailPassword.ErrInvalidInput || errors_Is err EmailPassword.ErrInvalidPassword
  then writeError 400 "invalid_password" else
  if errors_Is err EmailPassword.ErrInvalidCredentials then writeError 401 "invalid_credentials" else
  if errors_Is err EmailPassword.ErrPasswordUnchanged then writeError 409 "password_unchanged" else
  if errors_Is err EmailPassword.ErrLastCredential then writeError 409 "last_sign_in_method" else
  if errors_Is err EmailPassword.ErrConflict then writeError 409 "password_already_set" else
  if errors_Is err EmailPassword.ErrAttemptBlocked then writeError 429 "too_many_attempts" else
  writeError 500 "credential_update_failed".

Definition writeSessionError (err : error) : M (S * ResponseWriter reply) unit :=
  if errors_Is err SessionToken.ErrNotFound || errors_Is err RefreshToken.ErrNotFound
  then writeError 404 "session_not_found" else
  writeError 500 "session_update_failed".
End Errors.

Section Account.
Context {S : Type} `{Env} `{GoTables} `{Password.PasswordHashes} `{AccessToken.JWT} `{Passkey.WebAuthnLibrary} `{NetIP}
  `{RequestDecoders}.

(** ** Sessions of a subject *)
Definition listActiveSessions (handler : httpHandler S) (subjectID : string) :
    M S (result (list BearerSession.Session)) :=
  if String.eqb (sessionMode handler) SessionModeBearer
  then with_manager (bearerSessions (auth handler)) (fun m => BearerSession.List_ m subjectID)
  else
    records <-? with_manager (sessions (auth handler)) (fun m => SessionToken.List_ m subjectID) ;;
    now <- read_now time_Now ;;
    ret (Ok (session_of_record <$> List.filter (fun record => SessionToken.ActiveAt record now) records)).

Definition revokeAllSessions (handler : httpHandler S) (subjectID : string) : M S (result unit) :=
  if String.eqb (sessionMode handler) SessionModeBearer
  then with_manager (bearerSessions (auth handler)) (fun m => BearerSession.RevokeAll m subjectID)
  else with_manager (sessions (auth handler)) (fun m => SessionToken.RevokeAll m subjectID).

Definition listSessionsHandler (handler : httpHandler S) (request : Request) : M (S * ResponseWriter reply) unit :=
  current <-! requireSession handler request false ;;
  r <- outer (listActiveSessions handler (BearerSession.SubjectID current)) ;;
  match r with
  | Err err => writeSessionError err
  | Ok records =>
      let sessions := (fun record => mkListedSessionDetails (newSessionDetails record)
        (String.eqb (BearerSession.ID record) (BearerSession.ID current))) <$> records in
      writeJSON 200 (reply_sessions (mkSessionsResponse sessions))
  end.

Definition revokeByID (handler : httpHandler S) (subjectID sessionID : string) : M S (result unit) :=
  if String.eqb (sessionMode handler) SessionModeBearer
  then with_manager (bearerSessions (auth handler)) (fun m => BearerSession.RevokeByID m subjectID sessionID)
  else with_manager (sessions (auth handler)) (fun m => SessionToken.RevokeByID m subjectID sessionID).

Definition revokeSessionHandler (handler : httpHandler S) (request : Request) : M (S * ResponseWriter reply) unit :=
  current <-! requireSession handler request false ;;
  input <-! readJSON (T := revokeSessionRequest) request ;;
  r <- outer (revokeByID handler (BearerSession.SubjectID current) (revoke_SessionID input)) ;;
  match r with
  | Err err => writeSessionError err
  | Ok _ =>
      (if String.eqb (revoke_SessionID input) (BearerSession.ID current) then clearSession handler else ret tt) ;;;
      WriteHeader 204
  end.

Definition revokeOtherSessionsHandler (handler : httpHandler S) (request : Request) :
    M (S * ResponseWriter reply) unit :=
  current <-! requireSession handler request false ;;
  r <- outer (revokeAllSessions handler (BearerSession.SubjectID current)) ;;
  match r with
  | Err err => writeSessionError err
  | Ok _ =>
      clearSession handler ;;;
      createAuthenticatedSession handler (BearerSession.SubjectID current)
  end.

Definition revokeSessionsHandler (handler : httpHandler S) (request : Request) : M (S * ResponseWriter reply) unit :=
  current <-! requireSession handler request false ;;
  r <- outer (revokeAllSessions handler (BearerSession.SubjectID current)) ;;
  match r with
  | Err err => writeSessionError err
  | Ok _ => clearSession handler ;;; WriteHeader 204
  end.

(** ** Passwords *)
Definition changePasswordHandler (handler : httpHandler S) (request : Request) :
    M (S * ResponseWriter reply) unit :=
  session <-! requireSession handler request false ;;
  input <-! readJSON (T := changePasswordRequest) request ;;
  r <- outer (with_manager (password (auth handler)) (fun m =>
         EmailPassword.ChangePassword m (EmailPassword.mkChangeInput (BearerSession.SubjectID session)
           (CurrentPassword input) (NewPassword input) (sourceKey handler request)))) ;;
  match r with
  | Err err => writeCredentialError err
  | Ok user =>
      if RevokeOtherSessions input then
        r <- outer (revokeAllSessions handler (BearerSession.SubjectID session)) ;;
        match r with
        | Err _ => writeError 500 "session_revocation_failed"
        | Ok _ => createAuthenticatedSession handler (BearerSession.SubjectID session)
        end
      else writeJSON 200 (reply_user (newUserResponse (EmailPassword.ID user) (EmailPassword.Email user)))
  end.

Definition setPasswordHandler (handler : httpHandler S) (request : Request) : M (S * ResponseWriter reply) unit :=
  session <-! requireSession handler request true ;;
  input <-! readJSON (T := setPasswordRequest) request ;;
  r <- outer (with_manager (password (auth handler)) (fun m =>
         EmailPassword.AddPassword m (EmailPassword.mkAddInput (BearerSession.SubjectID session)
           (set_Password input) (sourceKey handler request)))) ;;
  match r with
  | Err err => writeCredentialError err
  | Ok user => writeJSON 200 (reply_user (newUserResponse (EmailPassword.ID user) (EmailPassword.Email user)))
  end.

Definition removePasswordHandler (handler : httpHandler S) (request : Request) :
    M (S * ResponseWriter reply) unit :=
  session <-! requireSession handler request false ;;
  input <-! readJSON (T := removePasswordRequest) request ;;
  r <- outer (with_manager (password (auth handler)) (fun m =>
         EmailPassword.RemovePassword m (EmailPassword.mkRemoveInput (BearerSession.SubjectID session)
           (remove_CurrentPassword input) (sourceKey handler request)))) ;;
  match r with
  | Err err => writeCredentialError err
  | Ok _ => WriteHeader 204
  end.
End Account.

(** * Email verification and password reset over HTTP (handler_email.go) *)

Section Email.
Context {S : Type} `{Env} `{GoTables} `{Password.PasswordHashes} `{AccessToken.JWT} `{Passkey.WebAuthnLibrary} `{NetIP}
  `{RequestDecoders}.

Definition writePasswordResetError (err : error) : M (S * ResponseWriter reply) unit :=
  if errors_Is err Token.ErrInvalidToken then writeError 400 "invalid_token" else
  if errors_Is err PasswordReset.ErrInvalidPassword then writeError 400 "invalid_password" else
  if errors_Is err PasswordReset.ErrAttemptBlocked then writeError 429 "too_many_attempts" else
  writeError 500 "password_reset_failed".

Definition resendVerificationHandler (handler : httpHandler S) (request : Request) :
    M (S * ResponseWriter reply) unit :=
  input <-! readJSON (T := emailRequest) request ;;
  r <- outer (requestVerification handler request (request_Email input)) ;;
  match r with
  | Err err => writeEmailVerificationError err
  | Ok _ => WriteHeader 202
  end.

Definition completeEmailVerification (handler : httpHandler S) (request : Request)
    (input : EmailVerification.VerifyInput) : M (S * ResponseWriter reply) unit :=
  r <- outer (with_manager (emailVerification (auth handler)) (fun m => EmailVerification.Verify m input)) ;;
  match r with
  | Err err => writeEmailVerificationError err
  | Ok user =>
      let id := EmailVerification.user_ID user in
      let email := EmailVerification.user_Email user in
      if autoSignInAfterVerification (auth handler) then
        issued <-! issueSession handler id ;;
        writeJSON 200 (reply_user (mkUserResponse (mkUserDetails id email) (Some (fst issued)) (snd issued)))
      else writeJSON 200 (reply_user (newUserResponse id email))
  end.

Definition verifyEmailLinkHandler (handler : httpHandler S) (request : Request) :
    M (S * ResponseWriter reply) unit :=
  let token := Get "token" (query request) in
  if String.eqb token "" then writeError 400 "invalid_request" else
  completeEmailVerification handler request
    (EmailVerification.mkVerifyInput token "" "" (sourceKey handler request)).

Definition verifyEmailOTPHandler (handler : httpHandler S) (request : Request) :
    M (S * ResponseWriter reply) unit :=
  input <-! readJSON (T := verifyEmailOTPRequest) request ;;
  completeEmailVerification handler request
    (EmailVerification.mkVerifyInput "" (otp_Email input) (otp_Code input) (sourceKey handler request)).

Definition forgotPasswordHandler (handler : httpHandler S) (request : Request) :
    M (S * ResponseWriter reply) unit :=
  input <-! readJSON (T := emailRequest) request ;;
  r <- outer (with_manager (passwordReset (auth handler)) (fun m =>
         PasswordReset.Request m (PasswordReset.mkRequestInput (request_Email input) (sourceKey handler request)))) ;;
  match r with
  | Err err => writePasswordResetError err
  | Ok _ => WriteHeader 202
  end.

Definition resetPasswordHandler (handler : httpHandler S) (request : Request) :
    M (S * ResponseWriter reply) unit :=
  input <-! readJSON (T := resetPasswordRequest) request ;;
  r <- outer (with_manager (passwordReset (auth handler)) (fun m =>
         PasswordReset.Reset m (PasswordReset.mkResetInput (reset_Token input) (reset_NewPassword input)
           (sourceKey handler request)))) ;;
  match r with
  | Err err => writePasswordResetError err
  | Ok user =>
      let id := PasswordReset.user_ID user in
      let email := PasswordReset.user_Email user in
      if revokeSessionsOnPasswordReset (auth handler) then
        r <- outer (revokeAllSessions handler id) ;;
        match r with
        | Err _ => writeError 500 "session_revocation_failed"
        | Ok _ => clearSession handler ;;; writeJSON 200 (reply_user (newUserResponse id email))
        end
      else writeJSON 200 (reply_user (newUserResponse id email))
  end.
End Email.

(** * Second factors and passkeys over HTTP (handler_totp.go, handler_passkey.go) *)

Section Factors.
Context {S : Type} `{Env} `{AccessToken.JWT} `{Totp.OtpLibrary} `{Passkey.WebAuthnLibrary} `{NetIP} `{RequestDecoders}.

(** ** Second factors *)
Definition writeTOTPError (err : error) : M (S * ResponseWriter reply) unit :=
  if errors_Is err Totp.ErrInvalidCode || errors_Is err Totp.ErrInvalidChallenge || errors_Is err Totp.ErrInvalidInput
  then writeError 400 "invalid_two_factor_input" else
  if errors_Is err Totp.ErrAttemptBlocked then writeError 429 "too_many_attempts" else
  if errors_Is err Totp.ErrAlreadyEnabled then writeError 409 "two_factor_already_enabled" else
  if errors_Is err Totp.ErrNotFound then writeError 404 "two_factor_not_found" else
  writeError 500 "two_factor_failed".

Definition enableTOTPHandler (handler : httpHandler S) (request : Request) : M (S * ResponseWriter reply) unit :=
  current <-! requireSession handler request true ;;
  input <-! readJSON (T := totpEnrollmentRequest) request ;;
  r <- outer (with_manager (totp (auth handler)) (fun m =>
         Totp.BeginEnrollment m (BearerSession.SubjectID current) (AccountName input))) ;;
  match r with
  | Err err => writeTOTPError err
  | Ok enrollment =>
      writeJSON 200 (reply_totpEnrollment (mkTotpEnrollmentResponse (Totp.started_Secret enrollment)
        (Totp.started_URI enrollment) (Totp.started_ExpiresAt enrollment)))
  end.

(** [fuel] bounds the draws of recovery codes; without an answer it was too
    little. *)
Definition confirmTOTPHandler (fuel : nat) (handler : httpHandler S) (request : Request) :
    M (S * ResponseWriter reply) unit :=
  current <-! requireSession handler request true ;;
  input <-! readJSON (T := totpCodeRequest) request ;;
  r <- outer (match totp (auth handler) with
              | Some m => Totp.ConfirmEnrollment fuel m (BearerSession.SubjectID current) (totp_Code input)
                            (sourceKey handler request)
              | None => ret (Some (Err nil_dereference))
              end) ;;
  match r with
  | None => ret tt
  | Some (Err err) => writeTOTPError err
  | Some (Ok confirmed) =>
      writeJSON 200 (reply_recoveryCodes (mkRecoveryCodesResponse (Totp.RecoveryCodes confirmed)))
  end.

Definition verifyTOTPHandler (handler : httpHandler S) (request : Request) : M (S * ResponseWriter reply) unit :=
  input <-! readJSON (T := twoFactorRequest) request ;;
  r <- outer (with_manager (totp (auth handler)) (fun m =>
         Totp.Verify m (Totp.mkVerifyInput (factor_ChallengeToken input) (factor_Code input) (sourceKey handler request)))) ;;
  match r with
  | Err err => writeTOTPError err
  | Ok authentication => createAuthenticatedSession handler (Totp.auth_SubjectID authentication)
  end.

Definition recoverTOTPHandler (handler : httpHandler S) (request : Request) : M (S * ResponseWriter reply) unit :=
  input <-! readJSON (T := twoFactorRequest) request ;;
  r <- outer (with_manager (totp (auth handler)) (fun m =>
         Totp.Recover m (Totp.mkVerifyInput (factor_ChallengeToken input) (factor_Code input) (sourceKey handler request)))) ;;
  match r with
  | Err err => writeTOTPError err
  | Ok authentication => createAuthenticatedSession handler (Totp.auth_SubjectID authentication)
  end.

Definition disableTOTPHandler (handler : httpHandler S) (request : Request) : M (S * ResponseWriter reply) unit :=
  current <-! requireSession handler request true ;;
  r <- outer (with_manager (totp (auth handler)) (fun m =>
         Totp.Disable m (BearerSession.SubjectID current) (sourceKey handler request))) ;;
  match r with
  | Err err => writeTOTPError err
  | Ok _ => WriteHeader 204
  end.

(** ** Passkeys *)
Definition writePasskeyError (err : error) : M (S * ResponseWriter reply) unit :=
  if errors_Is err Passkey.ErrInvalidCeremony || errors_Is err Passkey.ErrInvalidInput ||
     errors_Is err Passkey.ErrVerification
  then writeError 400 "passkey_verification_failed" else
  if errors_Is err Passkey.ErrAttemptBlocked then writeError 429 "too_many_attempts" else
  if errors_Is err Passkey.ErrLastCredential then writeError 409 "last_sign_in_method" else
  if errors_Is err Passkey.ErrNotFound then writeError 404 "passkey_not_found" else
  writeError 500 "passkey_failed".

(** A credential's identifier in the unpadded base64 of URLs. *)
Definition passkey_response (credential : Passkey.Credential) : passkeyResponse :=
  mkPasskeyResponse (EncodeToString URLAlphabet (Passkey.cred_ID credential)).

Definition listPasskeysHandler (handler : httpHandler S) (request : Request) : M (S * ResponseWriter reply) unit :=
  current <-! requireSession handler request false ;;
  r <- outer (with_manager (passkeys (auth handler)) (fun m => Passkey.List m (BearerSession.SubjectID current))) ;;
  match r with
  | Err err => writePasskeyError err
  | Ok credentials => writeJSON 200 (reply_passkeys (mkPasskeysResponse (passkey_response <$> credentials)))
  end.

Definition passkeyRegistrationOptionsHandler (handler : httpHandler S) (request : Request) :
    M (S * ResponseWriter reply) unit :=
  current <-! requireSession handler request true ;;
  r <- outer (with_manager (passkeys (auth handler)) (fun m =>
         Passkey.BeginRegistration m (BearerSession.SubjectID current))) ;;
  match r with
  | Err err => writePasskeyError err
  | Ok started =>
      writeJSON 200 (reply_registrationOptions (mkPasskeyRegistrationOptionsResponse (Passkey.reg_Token started)
        (Passkey.reg_Options started) (Passkey.reg_ExpiresAt started)))
  end.

Definition verifyPasskeyRegistrationHandler (handler : httpHandler S) (request : Request) :
    M (S * ResponseWriter reply) unit :=
  current <-! requireSession handler request true ;;
  input <-! readJSON (T := passkeyCompletionRequest) request ;;
  r <- outer (with_manager (passkeys (auth handler)) (fun m =>
         Passkey.CompleteRegistration m (Passkey.mkCompleteInput (completion_CeremonyToken input)
           (BearerSession.SubjectID current) (completion_Response input) (sourceKey handler request)))) ;;
  match r with
  | Err err => writePasskeyError err
  | Ok credential => writeJSON 201 (reply_passkey (passkey_response credential))
  end.

Definition passkeySignInOptionsHandler (handler : httpHandler S) (request : Request) :
    M (S * ResponseWriter reply) unit :=
  r <- outer (with_manager (passkeys (auth handler)) Passkey.BeginAuthentication) ;;
  match r with
  | Err err => writePasskeyError err
  | Ok started =>
      writeJSON 200 (reply_signInOptions (mkPasskeySignInOptionsResponse (Passkey.auth_Token started)
        (Passkey.auth_Options started) (Passkey.auth_ExpiresAt started)))
  end.

Definition verifyPasskeySignInHandler (handler : httpHandler S) (request : Request) :
    M (S * ResponseWriter reply) unit :=
  input <-! readJSON (T := passkeyCompletionRequest) request ;;
  r <- outer (with_manager (passkeys (auth handler)) (fun m =>
         Passkey.CompleteAuthentication m (Passkey.mkCompleteInput (completion_CeremonyToken input) ""
           (completion_Response input) (sourceKey handler request)))) ;;
  match r with
  | Err err => writePasskeyError err
  | Ok authentication => createAuthenticatedSession handler (Passkey.authenticated authentication)
  end.

Definition removePasskeyHandler (handler : httpHandler S) (request : Request) :
    M (S * ResponseWriter reply) unit :=
  current <-! requireSession handler request true ;;
  input <-! readJSON (T := passkeyRemovalRequest) request ;;
  match DecodeStringLax URLAlphabet (removal_CredentialID input) with
  | None => writeError 400 "invalid_request"
  | Some credentialID =>
      r <- outer (with_manager (passkeys (auth handler)) (fun m =>
             Passkey.Remove m (BearerSession.SubjectID current) credentialID (sourceKey handler request))) ;;
      match r with
      | Err err => writePasskeyError err
      | Ok _ => WriteHeader 204
      end
  end.
End Factors.

(** * Google, OIDC and SAML over HTTP (handler_google.go, handler_sso.go) *)

Section Providers.
Context {S : Type} `{Env} `{GoTables} `{NetURL} `{AccessToken.JWT} `{Passkey.WebAuthnLibrary} `{Saml.X509} `{NetIP}
  `{MediaTypes} `{RequestDecoders}.

(** ** Google *)
Definition writeGoogleError (err : error) : M (S * ResponseWriter reply) unit :=
  if errors_Is err GoogleOAuth.ErrInvalidInput || errors_Is err GoogleOAuth.ErrInvalidState ||
     errors_Is err GoogleOAuth.ErrUnverified
  then writeError 400 "google_authentication_failed" else
  if errors_Is err GoogleOAuth.ErrLinkRequired then writeError 409 "account_linking_required" else
  if errors_Is err GoogleOAuth.ErrConflict then writeError 409 "google_account_already_linked" else
  if errors_Is err GoogleOAuth.ErrLastCredential then writeError 409 "last_sign_in_method" else
  if errors_Is err GoogleOAuth.ErrNotFound then writeError 404 "google_account_not_found" else
  writeError 500 "google_authentication_failed".

(** The address to send the browser to, for a sign-in or for a link to [subjectID]. *)
Definition beginGoogle (handler : httpHandler S) (subjectID : string) : M (S * ResponseWriter reply) unit :=
  r <- outer (with_manager (google (auth handler)) (fun m => GoogleOAuth.Begin m subjectID)) ;;
  match r with
  | Err err => writeGoogleError err
  | Ok started =>
      writeJSON 200 (reply_authorizationURL (mkAuthorizationURLResponse (GoogleOAuth.AuthorizationURL started)))
  end.

Definition signInWithGoogleHandler (handler : httpHandler S) (request : Request) :
    M (S * ResponseWriter reply) unit :=
  beginGoogle handler "".

Definition linkGoogleHandler (handler : httpHandler S) (request : Request) : M (S * ResponseWriter reply) unit :=
  current <-! requireSession handler request true ;;
  beginGoogle handler (BearerSession.SubjectID current).

Definition completeGoogleSignInHandler (handler : httpHandler S) (request : Request) :
    M (S * ResponseWriter reply) unit :=
  r <- outer (with_manager (google (auth handler)) (fun m =>
         GoogleOAuth.Complete m (Get "state" (query request)) (Get "code" (query request)))) ;;
  match r with
  | Err err => writeGoogleError err
  | Ok user =>
      completeProviderAuthentication handler request (GoogleOAuth.ID user) (googleSuccessRedirectURL (auth handler))
  end.

Definition unlinkGoogleHandler (handler : httpHandler S) (request : Request) :
    M (S * ResponseWriter reply) unit :=
  current <-! requireSession handler request true ;;
  r <- outer (with_manager (google (auth handler)) (fun m =>
         GoogleOAuth.Unlink m (BearerSession.SubjectID current) (sourceKey handler request))) ;;
  match r with
  | Err err => writeGoogleError err
  | Ok _ => WriteHeader 204
  end.

(** ** Single sign-on *)
Definition writeOIDCError (err : error) : M (S * ResponseWriter reply) unit :=
  if errors_Is err Oidc.ErrInvalidInput || errors_Is err Oidc.ErrInvalidState ||
     errors_Is err Oidc.ErrInvalidIdentity || errors_Is err Oidc.ErrUnverifiedEmail
  then writeError 400 "oidc_authentication_failed" else
  if errors_Is err Oidc.ErrAttemptBlocked then writeError 429 "too_many_attempts" else
  if errors_Is err Oidc.ErrNotFound then writeError 404 "sso_connection_not_found" else
  writeError 500 "oidc_authentication_failed".

Definition writeSAMLError (err : error) : M (S * ResponseWriter reply) unit :=
  if errors_Is err Saml.ErrInvalidInput || errors_Is err Saml.ErrInvalidState ||
     errors_Is err Saml.ErrInvalidIdentity || errors_Is err Saml.ErrInvalidResponse
  then writeError 400 "saml_authentication_failed" else
  if errors_Is err Saml.ErrAttemptBlocked then writeError 429 "too_many_attempts" else
  if errors_Is err Saml.ErrNotFound then writeError 404 "sso_connection_not_found" else
  writeError 500 "saml_authentication_failed".

Definition beginOIDCHandler (handler : httpHandler S) (request : Request) : M (S * ResponseWriter reply) unit :=
  input <-! readJSON (T := ssoSignInRequest) request ;;
  r <- outer (with_manager (oidc (auth handler)) (fun m =>
         Oidc.Begin m (Oidc.mkBeginInput (sso_ConnectionID input) (sourceKey handler request)))) ;;
  match r with
  | Err err => writeOIDCError err
  | Ok started =>
      writeJSON 200 (reply_authorizationURL (mkAuthorizationURLResponse (Oidc.started_AuthorizationURL started)))
  end.

(** The subject that the application resolves an identity to signs in. *)
Definition completeResolved {I} (handler : httpHandler S) (request : Request) (resolve : option (I -> M S (result string)))
    (identity : I) (redirectURL : string) : M (S * ResponseWriter reply) unit :=
  r <- outer (with_manager resolve (fun resolve => resolve identity)) ;;
  match r with
  | Err _ => writeError 403 "sso_identity_not_resolved"
  | Ok subjectID =>
      if String.eqb (TrimSpace subjectID) "" then writeError 403 "sso_identity_not_resolved" else
      completeProviderAuthentication handler request subjectID redirectURL
  end.

Definition completeOIDCHandler (handler : httpHandler S) (request : Request) :
    M (S * ResponseWriter reply) unit :=
  r <- outer (with_manager (oidc (auth handler)) (fun m =>
         Oidc.Complete m (Oidc.mkCompleteInput (Get "state" (query request)) (Get "code" (query request))
           (sourceKey handler request)))) ;;
  match r with
  | Err err => writeOIDCError err
  | Ok identity =>
      completeResolved handler request (resolveOIDCIdentity (auth handler)) identity
        (oidcSuccessRedirectURL (auth handler))
  end.

Definition beginSAMLHandler (handler : httpHandler S) (request : Request) : M (S * ResponseWriter reply) unit :=
  input <-! readJSON (T := ssoSignInRequest) request ;;
  r <- outer (with_manager (saml (auth handler)) (fun m =>
         Saml.Begin m (Saml.mkBeginInput (sso_ConnectionID input) (sourceKey handler request)))) ;;
  match r with
  | Err err => writeSAMLError err
  | Ok started =>
      writeJSON 200 (reply_authorizationURL (mkAuthorizationURLResponse (Saml.started_AuthorizationURL started)))
  end.

Definition completeSAMLHandler (handler : httpHandler S) (request : Request) :
    M (S * ResponseWriter reply) unit :=
  match ParseForm_limited maximumRequestBody request with
  | Err _ => writeError 400 "invalid_request"
  | Ok form =>
      r <- outer (with_manager (saml (auth handler)) (fun m =>
             Saml.Complete m (Saml.mkCompleteInput (Get "RelayState" form) (Get "SAMLResponse" form)
               (sourceKey handler request)))) ;;
      match r with
      | Err err => writeSAMLError err
      | Ok identity =>
          completeResolved handler request (resolveSAMLIdentity (auth handler)) identity
            (samlSuccessRedirectURL (auth handler))
      end
  end.

Definition samlMetadataHandler (handler : httpHandler S) (request : Request) :
    M (S * ResponseWriter reply) unit :=
  r <- outer (with_manager (saml (auth handler)) (fun m => Saml.Metadata m (Get "connectionId" (query request)))) ;;
  match r with
  | Err err => writeSAMLError err
  | Ok metadata =>
      Header_Set "Content-Type" "application/samlmetadata+xml" ;;;
      WriteHeader 200 ;;;
      Write (Bytes metadata)
  end.
End Providers.
