(* ===== verification/Router.v ===== *)
(** * Routes and the checks before them (handler.go, and the registrations of the handler files) *)
From S2P Require Import Prelude GoText Base64 EmailAddress GoUrl GoHttp Config Replies Handler HandlerMethods.
From S2P Require Password EmailVerification AccessToken BearerSession Totp Passkey Saml SessionToken.

(** ** Registration *)
Definition registerAccountRoutes (basePath : string) (mux : ServeMux endpoint) : ServeMux endpoint :=
  HandleFunc "POST" (basePath +:+ "/remove-password") removePassword
  (HandleFunc "POST" (basePath +:+ "/set-password") setPassword
  (HandleFunc "POST" (basePath +:+ "/change-password") changePassword mux)).

Definition registerSessionRoutes (basePath : string) (mux : ServeMux endpoint) : ServeMux endpoint :=
  HandleFunc "POST" (basePath +:+ "/revoke-sessions") revokeSessions
  (HandleFunc "POST" (basePath +:+ "/revoke-other-sessions") revokeOtherSessions
  (HandleFunc "POST" (basePath +:+ "/revoke-session") revokeSession
  (HandleFunc "GET" (basePath +:+ "/list-sessions") listSessions mux))).

Definition registerTokenRoutes (basePath : string) (mux : ServeMux endpoint) : ServeMux endpoint :=
  HandleFunc "POST" (basePath +:+ "/token/refresh") refreshAccessToken mux.

Definition registerEmailVerificationRoutes (delivery : EmailVerification.DeliveryMethod) (basePath : string)
    (mux : ServeMux endpoint) : ServeMux endpoint :=
  let mux := HandleFunc "POST" (basePath +:+ "/resend-verification") resendVerification mux in
  if String.eqb delivery EmailVerification.DeliveryMethodOTP
  then HandleFunc "POST" (basePath +:+ "/verify-email") verifyEmailOTP mux
  else HandleFunc "GET" (basePath +:+ "/verify-email") verifyEmailLink mux.

Definition registerPasswordResetRoutes (basePath : string) (mux : ServeMux endpoint) : ServeMux endpoint :=
  HandleFunc "POST" (basePath +:+ "/reset-password") resetPassword
  (HandleFunc "POST" (basePath +:+ "/forgot-password") forgotPassword mux).

Definition registerTOTPRoutes (basePath : string) (mux : ServeMux endpoint) : ServeMux endpoint :=
  HandleFunc "POST" (basePath +:+ "/two-factor/disable") disableTOTP
  (HandleFunc "POST" (basePath +:+ "/two-factor/recover") recoverTOTP
  (HandleFunc "POST" (basePath +:+ "/two-factor/verify") verifyTOTP
  (HandleFunc "POST" (basePath +:+ "/two-factor/totp/confirm") confirmTOTP
  (HandleFunc "POST" (basePath +:+ "/two-factor/totp/enable") enableTOTP mux)))).

Definition registerPasskeyRoutes (basePath : string) (mux : ServeMux endpoint) : ServeMux endpoint :=
  HandleFunc "POST" (basePath +:+ "/passkey/remove") removePasskey
  (HandleFunc "GET" (basePath +:+ "/passkey/list") listPasskeys
  (HandleFunc "POST" (basePath +:+ "/passkey/sign-in/verify") verifyPasskeySignIn
  (HandleFunc "POST" (basePath +:+ "/passkey/sign-in/options") passkeySignInOptions
  (HandleFunc "POST" (basePath +:+ "/passkey/register/verify") verifyPasskeyRegistration
  (HandleFunc "POST" (basePath +:+ "/passkey/register/options") passkeyRegistrationOptions mux))))).

Definition registerGoogleRoutes (basePath accountBasePath : string) (mux : ServeMux endpoint) : ServeMux endpoint :=
  HandleFunc "DELETE" (accountBasePath +:+ "/google") unlinkGoogle
  (HandleFunc "POST" (accountBasePath +:+ "/google") linkGoogle
  (HandleFunc "GET" (basePath +:+ "/google/callback") completeGoogleSignIn
  (HandleFunc "POST" (basePath +:+ "/google") signInWithGoogle mux))).

Definition registerOIDCRoutes (basePath : string) (mux : ServeMux endpoint) : ServeMux endpoint :=
  HandleFunc "GET" (basePath +:+ "/sso/oidc/callback") completeOIDC
  (HandleFunc "POST" (basePath +:+ "/sso/oidc/sign-in") beginOIDC mux).

Definition samlCallback (basePath : string) : string := basePath +:+ "/sso/saml/callback".

Definition registerSAMLRoutes (basePath : string) (mux : ServeMux endpoint) : ServeMux endpoint :=
  HandleFunc "GET" (basePath +:+ "/sso/saml/metadata") samlMetadata
  (HandleFunc "POST" (samlCallback basePath) completeSAML
  (HandleFunc "POST" (basePath +:+ "/sso/saml/sign-in") beginSAML mux)).

Definition when {A} (b : bool) (f : A -> A) (x : A) : A := if b then f x else x.
Definition present {A} (o : option A) : bool := match o with Some _ => true | None => false end.

Section Router.
Context {S : Type} `{Passkey.WebAuthnLibrary}.

(** [registerSSORoutes]: the routes, and the paths that other sites may post to. *)
Definition registerSSORoutes (auth : Auth S) (basePath : string) (registered : ServeMux endpoint * gset string) :
    ServeMux endpoint * gset string :=
  let '(mux, crossSite) := registered in
  let mux := when (present (oidc auth)) (registerOIDCRoutes basePath) mux in
  if present (saml auth)
  then (registerSAMLRoutes basePath mux, {[samlCallback basePath]} ∪ crossSite)
  else (mux, crossSite).

Definition registerSignInRoutes (basePath : string) (mux : ServeMux endpoint) : ServeMux endpoint :=
  registerAccountRoutes basePath
    (HandleFunc "POST" (basePath +:+ "/sign-in") signIn
    (HandleFunc "POST" (basePath +:+ "/sign-up") signUp mux)).

(** The registrations of [newHandler], in its order. *)
Definition registered (auth : Auth S) (basePath accountBasePath : string) : ServeMux endpoint * gset string :=
  let mux := when (present (password auth)) (registerSignInRoutes basePath) (Some []) in
  let mux := HandleFunc "POST" (basePath +:+ "/sign-out") signOut mux in
  let mux := HandleFunc "GET" (basePath +:+ "/session") session mux in
  let mux := registerSessionRoutes basePath mux in
  let mux := when (present (bearerSessions auth)) (registerTokenRoutes basePath) mux in
  let mux := when (present (emailVerification auth))
               (registerEmailVerificationRoutes (emailVerificationDelivery auth) basePath) mux in
  let mux := when (present (passwordReset auth)) (registerPasswordResetRoutes basePath) mux in
  let mux := when (present (totp auth)) (registerTOTPRoutes basePath) mux in
  let mux := when (present (passkeys auth)) (registerPasskeyRoutes basePath) mux in
  let mux := when (present (google auth)) (registerGoogleRoutes basePath accountBasePath) mux in
  when (present (oidc auth) || present (saml auth)) (registerSSORoutes auth basePath) (mux, ∅).

Definition set_cookieName (name : string) (a : Auth S) : Auth S :=
  mkAuth _ _ (password a) (emailVerification a) (passwordReset a) (passkeys a) (google a) (oidc a) (saml a)
    (sessions a) (bearerSessions a) (auth_sessionMode a) (totp a) (sessionFreshAge a) (requireEmailVerification a)
    (sendVerificationOnSignUp a) (sendVerificationOnSignIn a) (autoSignInAfterVerification a)
    (emailVerificationDelivery a) (revokeSessionsOnPasswordReset a) (googleSuccessRedirectURL a)
    (oidcSuccessRedirectURL a) (samlSuccessRedirectURL a) (resolveOIDCIdentity a) (resolveSAMLIdentity a) name.

Definition config_invalid {A} (format : string) : result A := Err (Errorf format [BearerSession.ErrInvalidConfig]).

(** [mux.HandleFunc] panics on a pattern it cannot register. *)
Definition mux_panic : error := New "panic: http.ServeMux.HandleFunc".

Definition origin_of (u : URL) : string := Scheme u +:+ "://" +:+ Host u.

(** The loop over [config.TrustedOrigins]. *)
Fixpoint parseOrigins `{NetURL} (rawOrigins : list string) : result (list string) :=
  match rawOrigins with
  | [] => Ok []
  | rawOrigin :: rawOrigins =>
      match url_Parse (TrimSpace rawOrigin) with
      | None => config_invalid "%w: invalid trusted origin"
      | Some origin =>
          if negb (web_scheme origin) || String.eqb (Host origin) "" || has_User origin ||
             negb (String.eqb (url_Path origin) "") || negb (String.eqb (RawQuery origin) "") ||
             negb (String.eqb (Fragment origin) "")
          then config_invalid "%w: invalid trusted origin" else
          match parseOrigins rawOrigins with
          | Err err => Err err
          | Ok origins => Ok (origin_of origin :: origins)
          end
      end
  end.

(** The cookie of a session, without its value. *)
Definition sessionCookie (config : CookieConfig) (baseURL : URL) : Cookie :=
  let name := if String.eqb (TrimSpace (cc_Name config)) "" then "authlier_session" else cc_Name config in
  let path := if String.eqb (cc_Path config) "" then "/" else cc_Path config in
  let sameSite := if (cc_SameSite config =? 0)%Z then SameSiteLaxMode else cc_SameSite config in
  mkCookie name "" (cc_Domain config) path 0 0 (String.eqb (Scheme baseURL) "https") true sameSite.

Definition newHandler `{NetURL} `{NetIP} (auth : Auth S) (config : Config S) (baseURL : URL)
    (basePath accountBasePath : string) : result (httpHandler S) :=
  let mode := if String.eqb (sc_Mode (c_Session config)) "" then SessionModeCookie else sc_Mode (c_Session config) in
  match parseOrigins (TrustedOrigins config) with
  | Err err => Err err
  | Ok trusted =>
      match parseTrustedProxies (TrustedProxies config) with
      | Err _ => config_invalid "%w: invalid trusted proxy"
      | Ok proxies =>
          let cookie := sessionCookie (sc_Cookie (c_Session config)) baseURL in
          if String.eqb mode SessionModeCookie && (ck_SameSite cookie =? SameSiteNoneMode)%Z &&
             negb (String.eqb (Scheme baseURL) "https")
          then config_invalid "%w: SameSite=None requires HTTPS" else
          let auth := set_cookieName (ck_Name cookie) auth in
          let lifetime := match sc_Extension (c_Session config) with
                          | Some extension => SessionToken.AbsoluteLifetime extension
                          | None => 0%Z
                          end in
          match registered auth basePath accountBasePath with
          | (None, _) => Err mux_panic
          | (Some routes, crossSite) =>
              Ok (mkHttpHandler _ _ auth (origin_of baseURL :: trusted) proxies crossSite cookie lifetime mode routes)
          end
      end
  end.
End Router.

(** ** Requests *)

(** What the mux itself answers to a request without a handler: a status, header
    fields and a text. *)
Class MuxFallback := { mux_unmatched : list (string * string) -> Request -> Z * list (string * string) * string }.

Section Serve.
Context {S : Type} `{Env} `{GoTables} `{NetURL} `{Password.PasswordHashes} `{AccessToken.JWT} `{Totp.OtpLibrary}
  `{Passkey.WebAuthnLibrary} `{Saml.X509} `{NetIP} `{MediaTypes} `{RequestDecoders} `{MuxFallback}.

(** The method value that an endpoint stands for. *)
Definition endpoint_handler (fuel : nat) (handler : httpHandler S) (e : endpoint) (request : Request) :
    M (S * ResponseWriter reply) unit :=
  match e with
  | signUp => signUpHandler handler request
  | signIn => signInHandler handler request
  | signOut => signOutHandler handler request
  | session => sessionHandler handler request
  | changePassword => changePasswordHandler handler request
  | setPassword => setPasswordHandler handler request
  | removePassword => removePasswordHandler handler request
  | listSessions => listSessionsHandler handler request
  | revokeSession => revokeSessionHandler handler request
  | revokeOtherSessions => revokeOtherSessionsHandler handler request
  | revokeSessions => revokeSessionsHandler handler request
  | refreshAccessToken => refreshAccessTokenHandler handler request
  | resendVerification => resendVerificationHandler handler request
  | verifyEmailOTP => verifyEmailOTPHandler handler request
  | verifyEmailLink => verifyEmailLinkHandler handler request
  | forgotPassword => forgotPasswordHandler handler request
  | resetPassword => resetPasswordHandler handler request
  | enableTOTP => enableTOTPHandler handler request
  | confirmTOTP => confirmTOTPHandler fuel handler request
  | verifyTOTP => verifyTOTPHandler handler request
  | recoverTOTP => recoverTOTPHandler handler request
  | disableTOTP => disableTOTPHandler handler request
  | passkeyRegistrationOptions => passkeyRegistrationOptionsHandler handler request
  | verifyPasskeyRegistration => verifyPasskeyRegistrationHandler handler request
  | passkeySignInOptions => passkeySignInOptionsHandler handler request
  | verifyPasskeySignIn => verifyPasskeySignInHandler handler request
  | listPasskeys => listPasskeysHandler handler request
  | removePasskey => removePasskeyHandler handler request
  | signInWithGoogle => signInWithGoogleHandler handler request
  | completeGoogleSignIn => completeGoogleSignInHandler handler request
  | linkGoogle => linkGoogleHandler handler request
  | unlinkGoogle => unlinkGoogleHandler handler request
  | beginOIDC => beginOIDCHandler handler request
  | completeOIDC => completeOIDCHandler handler request
  | beginSAML => beginSAMLHandler handler request
  | completeSAML => completeSAMLHandler handler request
  | samlMetadata => samlMetadataHandler handler request
  end.

(** [handler.mux.ServeHTTP(response, request)]. *)
Definition mux_ServeHTTP (fuel : nat) (handler : httpHandler S) (request : Request) :
    M (S * ResponseWriter reply) unit :=
  match mux_handler (mux handler) request with
  | Some e => endpoint_handler fuel handler e request
  | None =>
      let '(status, added, text) :=
        mux_unmatched ((fun r => (rt_Method r, rt_Path r)) <$> mux handler) request in
      assign (map_live (map_fields (fun v => foldl append_pair v added))) ;;;
      WriteHeader status ;;;
      Write (Bytes text)
  end.

(** The header fields that let an allowed origin read the answer. *)
Definition allowOrigin (handler : httpHandler S) (origin : string) : M (S * ResponseWriter reply) unit :=
  if negb (String.eqb origin "") && validOrigin handler origin then
    Header_Set "Access-Control-Allow-Origin" origin ;;;
    (if String.eqb (sessionMode handler) SessionModeCookie
     then Header_Set "Access-Control-Allow-Credentials" "true" else ret tt) ;;;
    Header_Add "Vary" "Origin"
  else ret tt.

(** The answer to a preflight request. *)
Definition preflight (handler : httpHandler S) (origin : string) : M (S * ResponseWriter reply) unit :=
  if negb (validOrigin handler origin) then writeError 403 "origin_not_allowed" else
  let allowedHeaders := "Content-Type" +:+
    (if String.eqb (sessionMode handler) SessionModeBearer then ", Authorization" else "") in
  Header_Set "Access-Control-Allow-Headers" allowedHeaders ;;;
  Header_Set "Access-Control-Allow-Methods" "GET, POST, DELETE, OPTIONS" ;;;
  WriteHeader 204.

(** A request other than GET comes from an allowed origin, unless its path is
    one that other sites may post to. *)
Definition originAllowed (handler : httpHandler S) (request : Request) : bool :=
  let origin := header request "Origin" in
  String.eqb (r_Method request) "GET" || bool_decide (r_Path request ∈ crossSitePOSTs handler) ||
  (if String.eqb origin "" then String.eqb (sessionMode handler) SessionModeBearer
   else validOrigin handler origin).

Definition ServeHTTP (fuel : nat) (handler : httpHandler S) (request : Request) :
    M (S * ResponseWriter reply) unit :=
  let origin := header request "Origin" in
  allowOrigin handler origin ;;;
  if String.eqb (r_Method request) "OPTIONS" then preflight handler origin else
  if negb (originAllowed handler request) then writeError 403 "origin_not_allowed" else
  mux_ServeHTTP fuel handler request.

(** The answer to a request. *)
Definition serve (fuel : nat) (handler : httpHandler S) (request : Request) : M S (ResponseWriter reply) :=
  r <- scope fresh_response (ServeHTTP fuel handler request) ;;
  ret (snd r).
End Serve.
