(* ===== verification/Authlier.v ===== *)
(** * The root configuration (authlier.go)

    [New] checks a configuration, builds the managers of the enabled features
    on the stores of the database, and the handler over them. *)
From S2P Require Import Prelude GoText Base64 EmailAddress GoUrl GoHttp Config Replies Handler Router.
From S2P Require Password EmailPassword EmailVerification PasswordReset SessionToken RefreshToken AccessToken BearerSession Totp Passkey GoogleOAuth Oidc Saml.

Definition defaultSessionLifetime : duration := (7 * 24 * Hour)%Z.
Definition defaultFreshAge : duration := (15 * Minute)%Z.
Definition defaultAccessTokenLifetime : duration := (15 * Minute)%Z.
Definition defaultRefreshTokenLifetime : duration := (30 * 24 * Hour)%Z.
Definition defaultEmailTokenLifetime : duration := Hour.
Definition defaultEmailOTPLifetime : duration := (10 * Minute)%Z.
Definition defaultTOTPEnrollment : duration := (10 * Minute)%Z.
Definition defaultTOTPChallenge : duration := (5 * Minute)%Z.
Definition defaultTOTPRecoveryCodes : Z := 10.
Definition defaultPasskeyCeremony : duration := (5 * Minute)%Z.
Definition defaultProviderState : duration := (10 * Minute)%Z.
Definition defaultSAMLRequestLifetime : duration := (5 * Minute)%Z.

(** ** Defaults: a zero value is replaced *)
Definition or_default (n d : Z) : Z := if (n =? 0)%Z then d else n.
Definition or_text (s d : string) : string := if String.eqb s "" then d else s.

Section Defaults.
Context {S : Type}.

Definition default_EmailAndPassword (c : EmailAndPasswordConfig S) : EmailAndPasswordConfig S :=
  mkEmailAndPasswordConfig (ep_Enabled c) (ep_RequireEmailVerification c)
    (or_text (ep_PasswordHashAlgorithm c) Password.DefaultAlgorithm) (ep_ValidatePassword c)
    (ep_AttemptGuard c) (ep_SecurityEvents c).

Definition default_Bearer (c : BearerSession.BearerSessionConfig) : BearerSession.BearerSessionConfig :=
  BearerSession.mkBearerConfig (BearerSession.Issuer c) (BearerSession.Audience c)
    (or_default (BearerSession.AccessTokenLifetime c) defaultAccessTokenLifetime)
    (or_default (BearerSession.RefreshTokenLifetime c) defaultRefreshTokenLifetime)
    (BearerSession.KeyID c) (BearerSession.PrivateKey c) (BearerSession.PublicKeys c) (BearerSession.Leeway c).

Definition default_Session (c : SessionConfig S) : SessionConfig S :=
  mkSessionConfig (or_text (sc_Mode c) SessionModeCookie) (or_default (sc_Lifetime c) defaultSessionLifetime)
    (or_default (sc_FreshAge c) defaultFreshAge) (sc_Cache c) (sc_CacheTTL c) (sc_Extension c) (sc_Cookie c)
    (default_Bearer (sc_Bearer c)).

Definition default_EmailVerification (c : EmailVerificationConfig S) : EmailVerificationConfig S :=
  let delivery := or_text (ev_Delivery c) EmailVerification.DeliveryMethodLink in
  mkEmailVerificationConfig (ev_Enabled c) delivery (ev_OTPSecret c)
    (or_default (ev_Lifetime c)
       (if String.eqb delivery EmailVerification.DeliveryMethodOTP then defaultEmailOTPLifetime
        else defaultEmailTokenLifetime))
    (ev_VerificationURL c) (ev_Sender c) (ev_SendOnSignUp c) (ev_SendOnSignIn c)
    (ev_AutoSignInAfterVerification c) (ev_AttemptGuard c) (ev_SecurityEvents c).

Definition default_PasswordReset (c : PasswordResetConfig S) : PasswordResetConfig S :=
  mkPasswordResetConfig (pr_Enabled c) (or_default (pr_Lifetime c) defaultEmailTokenLifetime) (pr_ResetURL c)
    (pr_Sender c) (pr_KeepSessionsAfterReset c) (pr_AttemptGuard c) (pr_SecurityEvents c).

Definition default_TOTP (c : TOTPConfig S) : TOTPConfig S :=
  mkTOTPConfig (tc_Enabled c) (or_default (tc_EnrollmentLifetime c) defaultTOTPEnrollment)
    (or_default (tc_ChallengeLifetime c) defaultTOTPChallenge)
    (or_default (tc_RecoveryCodeCount c) defaultTOTPRecoveryCodes) (tc_AttemptGuard c) (tc_SecurityEvents c).

Definition default_Passkeys (c : PasskeyConfig S) : PasskeyConfig S :=
  mkPasskeyConfig (pk_Enabled c) (pk_RelyingPartyID c) (pk_RelyingPartyName c) (pk_Origins c)
    (or_default (pk_CeremonyLifetime c) defaultPasskeyCeremony) (pk_AttemptGuard c) (pk_SecurityEvents c).

Definition default_Google (c : GoogleConfig S) : GoogleConfig S :=
  mkGoogleConfig (gc_Enabled c) (gc_ClientID c) (gc_ClientSecret c) (gc_RedirectURL c) (gc_SuccessRedirectURL c)
    (or_default (gc_StateLifetime c) defaultProviderState) (gc_Provider c) (gc_SecurityEvents c).

Definition default_OIDC (c : OIDCConfig S) : OIDCConfig S :=
  mkOIDCConfig (oc_Enabled c) (oc_Connections c) (oc_ResolveIdentity c)
    (or_default (oc_StateLifetime c) defaultProviderState) (oc_SuccessRedirectURL c) (oc_AttemptGuard c)
    (oc_SecurityEvents c).

Definition default_SAML (c : SAMLConfig S) : SAMLConfig S :=
  mkSAMLConfig (sm_Enabled c) (sm_Connections c) (sm_ResolveIdentity c)
    (or_default (sm_RequestLifetime c) defaultSAMLRequestLifetime) (sm_SuccessRedirectURL c) (sm_AttemptGuard c)
    (sm_SecurityEvents c).

Definition applyConfigDefaults (c : Config S) : Config S :=
  mkConfig (AppName c) (BaseURL c) (BasePath c) (AccountBasePath c) (c_Database c) (TrustedOrigins c)
    (TrustedProxies c) (default_EmailAndPassword (c_EmailAndPassword c))
    (default_EmailVerification (c_EmailVerification c)) (default_PasswordReset (c_PasswordReset c))
    (default_Session (c_Session c)) (default_TOTP (c_TOTP c)) (default_Passkeys (c_Passkeys c))
    (default_Google (c_Google c)) (default_OIDC (c_OIDC c)) (default_SAML (c_SAML c)).
End Defaults.

(** ** Passwords *)
Definition configuredPasswordValidator {S} (config : EmailAndPasswordConfig S) :
    option EmailPassword.PasswordValidator :=
  if negb (String.eqb (ep_PasswordHashAlgorithm config) Password.Bcrypt) then ep_ValidatePassword config else
  Some (fun plainPassword =>
    if (Password.BcryptMaximumPasswordLength <? String.length plainPassword)%nat
    then Some Password.ErrPasswordTooLong
    else match ep_ValidatePassword config with
         | Some validate => validate plainPassword
         | None => None
         end).

(** The type [configuredPasswords] with its two methods. *)
Definition configuredPasswords {S} `{Env} `{Password.PasswordHashes} (algorithm : Password.Algorithm) :
    EmailPassword.Passwords S :=
  {| EmailPassword.pw_Hash := fun plainPassword => Password.HashWithAlgorithm plainPassword algorithm;
     EmailPassword.pw_Verify := fun plainPassword encodedHash =>
       Password.VerifyWithAlgorithm plainPassword encodedHash algorithm |}.

(** ** Addresses and paths *)
Definition validBasePath (path : string) : bool := HasPrefix path "/" && negb (HasSuffix path "/").

(** The empty text when no address is configured. *)
Definition parseSuccessRedirectURL `{NetURL} (rawURL : string) : result string :=
  let rawURL := TrimSpace rawURL in
  if String.eqb rawURL "" then Ok "" else
  match url_Parse rawURL with
  | None => Err BearerSession.ErrInvalidConfig
  | Some parsed =>
      if String.eqb (Host parsed) "" || negb (web_scheme parsed) || has_User parsed
      then Err BearerSession.ErrInvalidConfig else Ok (url_String parsed)
  end.

(** ** Checks of the configuration as a whole

    The base URL and the two base paths, after the defaults. *)
Definition bad_base_URL (u : URL) : bool :=
  String.eqb (Host u) "" || negb (web_scheme u) || has_User u || negb (String.eqb (url_Path u) "") ||
  negb (String.eqb (RawQuery u) "") || negb (String.eqb (Fragment u) "").

Definition checkConfig {S} `{NetURL} (config : Config S) : result (URL * string * string) :=
  if String.eqb (TrimSpace (AppName config)) "" || negb (present (c_Database config))
  then config_invalid "%w: app name and database are required" else
  match url_Parse (TrimSpace (BaseURL config)) with
  | None => config_invalid "%w: valid base URL is required"
  | Some baseURL =>
      if bad_base_URL baseURL then config_invalid "%w: valid base URL is required" else
      if negb (ep_Enabled (c_EmailAndPassword config)) && negb (gc_Enabled (c_Google config)) &&
         negb (pk_Enabled (c_Passkeys config)) && negb (oc_Enabled (c_OIDC config)) && negb (sm_Enabled (c_SAML config))
      then config_invalid "%w: enable at least one sign-in method" else
      if ep_RequireEmailVerification (c_EmailAndPassword config) && negb (ev_Enabled (c_EmailVerification config))
      then config_invalid "%w: required email verification must be enabled" else
      if pr_Enabled (c_PasswordReset config) && negb (ep_Enabled (c_EmailAndPassword config))
      then config_invalid "%w: password reset requires email and password authentication" else
      let algorithm := ep_PasswordHashAlgorithm (c_EmailAndPassword config) in
      if negb (String.eqb algorithm Password.Argon2id) && negb (String.eqb algorithm Password.Bcrypt)
      then config_invalid "%w: password hash algorithm must be argon2id or bcrypt" else
      let basePath := or_text (TrimSpace (BasePath config)) "/api/auth" in
      if negb (validBasePath basePath)
      then config_invalid "%w: base path must start but not end with a slash" else
      let accountBasePath := or_text (TrimSpace (AccountBasePath config)) "/api/account" in
      if negb (validBasePath accountBasePath)
      then config_invalid "%w: account base path must start but not end with a slash" else
      if gc_Enabled (c_Google config) && String.eqb accountBasePath basePath
      then config_invalid "%w: account base path must differ from base path" else
      if (sc_FreshAge (c_Session config) <=? 0)%Z
      then config_invalid "%w: session fresh age must be positive" else
      let mode := sc_Mode (c_Session config) in
      if negb (String.eqb mode SessionModeCookie) && negb (String.eqb mode SessionModeBearer)
      then config_invalid "%w: session mode must be cookie or bearer" else
      if String.eqb mode SessionModeBearer &&
         (gc_Enabled (c_Google config) || oc_Enabled (c_OIDC config) || sm_Enabled (c_SAML config))
      then config_invalid "%w: Google, OIDC, and SAML require cookie sessions" else
      Ok (baseURL, basePath, accountBasePath)
  end.

(** ** Managers *)

(** Where the providers keep what they discover: the field [discovery] of
    [googleProvider] and the map of [oidcProtocol]. *)
Record ProviderMemory (S : Type) `{GoogleOAuth.GoogleLibraries S} `{Oidc.OIDCLibraries S} : Type := mkProviderMemory {
  google_get : S -> option GoogleOAuth.Discovery;
  google_set : GoogleOAuth.Discovery -> S -> S;
  oidc_get : S -> gmap string (Oidc.discoveredProvider S);
  oidc_set : gmap string (Oidc.discoveredProvider S) -> S -> S;
}.
Arguments google_get {S _ _}. Arguments google_set {S _ _}. Arguments oidc_get {S _ _}. Arguments oidc_set {S _ _}.

(** A feature that is not enabled has no manager. *)
Definition enabled {S A} (on : bool) (m : M S (result A)) : M S (result (option A)) :=
  if on then a <-? m ;; ret (Ok (Some a)) else ret (Ok None).

Definition required {S A B} (o : option A) (format : string) (k : A -> M S (result B)) : M S (result B) :=
  match o with Some a => k a | None => ret (config_invalid format) end.

(** An error of the call becomes an error of the configuration. *)
Definition as_config_error {A} (format : string) (r : result A) : result A :=
  match r with Ok a => Ok a | Err _ => config_invalid format end.

Section Managers.
Context {S : Type} `{Env} `{GoTables} `{NetURL} `{Password.PasswordHashes} `{AccessToken.JWT} `{Totp.OtpLibrary}
  `{Passkey.WebAuthnLibrary} `{Saml.X509} `{GoogleOAuth.GoogleLibraries S} `{Oidc.OIDCLibraries S} `{Saml.SAMLLibraries S}.

Definition newPasswords (config : EmailAndPasswordConfig S) (stores : Stores S) :
    M S (result (EmailPassword.Manager S)) :=
  required (st_EmailPassword stores) "%w: database does not provide password storage" (fun store =>
    EmailPassword.NewManager (Some (eps_Store store)) (Some (eps_CredentialStore store))
      (EmailPassword.mkConfig S (Some (configuredPasswords (ep_PasswordHashAlgorithm config)))
         (Some (eps_CredentialStore store)) (configuredPasswordValidator config) (ep_AttemptGuard config)
         (ep_SecurityEvents config) None None)).

Definition newCookieSessions (config : SessionConfig S) (stores : Stores S) : M S (result (SessionToken.Manager S)) :=
  required (st_Sessions stores) "%w: database does not provide cookie session storage" (fun store =>
    ret (SessionToken.NewManager (Some store) (sc_Cache config)
           (SessionToken.mkConfig (sc_Lifetime config) (sc_CacheTTL config) (sc_Extension config) None))).

(** The issuer is the base URL when none is configured. *)
Definition bearer_issuer (config : BearerSession.BearerSessionConfig) (baseURL : URL) :
    BearerSession.BearerSessionConfig :=
  BearerSession.mkBearerConfig
    (if String.eqb (TrimSpace (BearerSession.Issuer config)) "" then origin_of baseURL else BearerSession.Issuer config)
    (BearerSession.Audience config) (BearerSession.AccessTokenLifetime config)
    (BearerSession.RefreshTokenLifetime config) (BearerSession.KeyID config) (BearerSession.PrivateKey config)
    (BearerSession.PublicKeys config) (BearerSession.Leeway config).

Definition newBearerSessions (config : SessionConfig S) (baseURL : URL) (stores : Stores S) :
    M S (result (BearerSession.bearerSessionManager S)) :=
  required (st_AccessSessions stores) "%w: database does not provide bearer session storage" (fun accessStore =>
  required (st_RefreshTokens stores) "%w: database does not provide bearer session storage" (fun refreshStore =>
    if present (sc_Cache config) || present (sc_Extension config)
    then ret (config_invalid "%w: cache and extension apply only to cookie sessions") else
    ret (BearerSession.newBearerSessionManager (Some accessStore) (Some refreshStore)
           (bearer_issuer (sc_Bearer config) baseURL)))).

Definition newTOTP (appName : string) (config : TOTPConfig S) (stores : Stores S) : M S (result (Totp.Manager S)) :=
  required (st_TOTP stores) "%w: database does not provide TOTP storage" (fun store =>
    ret (Totp.NewManager (Some store)
           (Totp.mkConfig S appName (tc_EnrollmentLifetime config) (tc_ChallengeLifetime config)
              (tc_RecoveryCodeCount config) (tc_AttemptGuard config) (tc_SecurityEvents config) None))).

Definition newPasskeys (config : Config S) (baseURL : URL) (stores : Stores S) : M S (result (Passkey.Manager S)) :=
  let passkeys := c_Passkeys config in
  required (st_Passkeys stores) "%w: database does not provide passkey storage" (fun store =>
    let relyingPartyID := or_text (TrimSpace (pk_RelyingPartyID passkeys)) (Hostname baseURL) in
    let relyingPartyName := or_text (TrimSpace (pk_RelyingPartyName passkeys)) (AppName config) in
    let origins := match pk_Origins passkeys with
                   | [] => origin_of baseURL :: TrustedOrigins config
                   | origins => origins
                   end in
    ret (Passkey.NewManager (Some store)
           (Passkey.mkConfig S relyingPartyID relyingPartyName origins (pk_CeremonyLifetime passkeys)
              (pk_AttemptGuard passkeys) (pk_SecurityEvents passkeys) None))).

(** The manager and the address a browser is sent to in the end. *)
Definition newGoogle (config : GoogleConfig S) (memory : ProviderMemory S) (baseURL : URL) (basePath : string)
    (stores : Stores S) : M S (result (GoogleOAuth.Manager S * string)) :=
  required (st_Google stores) "%w: database does not provide Google OAuth storage" (fun store =>
    provider <-? ret (match gc_Provider config with
      | Some provider => Ok provider
      | None =>
          match GoogleOAuth.NewGoogleProvider
                  (GoogleOAuth.mkGoogleProviderConfig (gc_ClientID config) (gc_ClientSecret config))
                  (google_get memory) (google_set memory) with
          | Err err => Err err
          | Ok provider => Ok (GoogleOAuth.Exchange provider)
          end
      end) ;;
    let redirectURL := or_text (TrimSpace (gc_RedirectURL config))
                         (origin_of baseURL +:+ basePath +:+ "/google/callback") in
    manager <-? ret (GoogleOAuth.NewManager (Some (gs_Store store)) (Some (gs_IdentityStore store)) (Some provider)
      (GoogleOAuth.mkConfig S (gc_ClientID config) GoogleOAuth.AuthorizationEndpoint redirectURL
         (gc_StateLifetime config) (Some (gs_IdentityStore store)) (gc_SecurityEvents config) None)) ;;
    success <-? ret (as_config_error "%w: invalid Google success redirect URL"
                       (parseSuccessRedirectURL (gc_SuccessRedirectURL config))) ;;
    ret (Ok (manager, success))).

Definition newOIDC (config : OIDCConfig S) (memory : ProviderMemory S) (stores : Stores S) :
    M S (result (Oidc.Manager S * string)) :=
  let format := "%w: OIDC storage, connections, and identity resolver are required" in
  required (st_OIDC stores) format (fun store =>
  required (oc_Connections config) format (fun connections =>
  required (oc_ResolveIdentity config) format (fun _ =>
    (* there is always an HTTP client: [http.DefaultClient] when none is configured *)
    manager <-? ret (Oidc.NewManager (Some store) (Some connections)
      (Oidc.mkConfig S (oc_StateLifetime config) true (oc_AttemptGuard config) (oc_SecurityEvents config) None)
      (oidc_get memory) (oidc_set memory)) ;;
    success <-? ret (as_config_error "%w: invalid OIDC success redirect URL"
                       (parseSuccessRedirectURL (oc_SuccessRedirectURL config))) ;;
    ret (Ok (manager, success))))).

Definition newSAML (config : SAMLConfig S) (stores : Stores S) : M S (result (Saml.Manager S * string)) :=
  let format := "%w: SAML storage, connections, and identity resolver are required" in
  required (st_SAML stores) format (fun store =>
  required (sm_Connections config) format (fun connections =>
  required (sm_ResolveIdentity config) format (fun _ =>
    manager <-? ret (Saml.NewManager (Some store) (Some connections)
      (Saml.mkConfig S (sm_RequestLifetime config) (sm_AttemptGuard config) (sm_SecurityEvents config) None)) ;;
    success <-? ret (as_config_error "%w: invalid SAML success redirect URL"
                       (parseSuccessRedirectURL (sm_SuccessRedirectURL config))) ;;
    ret (Ok (manager, success))))).

Definition newEmailVerification (config : EmailVerificationConfig S) (baseURL : URL) (basePath : string)
    (stores : Stores S) : M S (result (EmailVerification.Manager S)) :=
  required (st_EmailVerification stores) "%w: database does not provide email verification storage" (fun store =>
  required (ev_Sender config) "%w: email verification sender is required" (fun sender =>
    verificationSender <-? ret (
      if String.eqb (ev_Delivery config) EmailVerification.DeliveryMethodLink then
        let verificationURL :=
          if String.eqb (TrimSpace (ev_VerificationURL config)) ""
          then origin_of baseURL +:+ basePath +:+ "/verify-email" else ev_VerificationURL config in
        as_config_error "%w: invalid email verification URL" (newVerificationURLSender (Some sender) verificationURL)
      else Ok sender) ;;
    ret (EmailVerification.NewManager (Some store)
           (EmailVerification.mkConfig S (ev_Delivery config) (ev_OTPSecret config) (ev_Lifetime config)
              (Some verificationSender) (ev_AttemptGuard config) (ev_SecurityEvents config) None None)))).

Definition newPasswordReset (config : Config S) (baseURL : URL) (stores : Stores S) :
    M S (result (PasswordReset.Manager S)) :=
  let reset := c_PasswordReset config in
  required (st_PasswordReset stores) "%w: database does not provide password reset storage" (fun store =>
  required (pr_Sender reset) "%w: password reset sender is required" (fun sender =>
    let resetURL := if String.eqb (TrimSpace (pr_ResetURL reset)) ""
                    then origin_of baseURL +:+ "/reset-password" else pr_ResetURL reset in
    resetSender <-? ret (as_config_error "%w: invalid password reset URL" (newResetURLSender (Some sender) resetURL)) ;;
    ret (PasswordReset.NewManager (Some store)
           (PasswordReset.mkConfig S (pr_Lifetime reset) (Some resetSender)
              (Some (EmailPassword.pw_Hash (configuredPasswords (ep_PasswordHashAlgorithm (c_EmailAndPassword config)))))
              (configuredPasswordValidator (c_EmailAndPassword config)) (pr_AttemptGuard reset)
              (pr_SecurityEvents reset) None None)))).

(** ** [New] *)
Definition New_ `{NetIP} (config : Config S) (memory : ProviderMemory S) : M S (result (httpHandler S)) :=
  let config := applyConfigDefaults config in
  checked <-? ret (checkConfig config) ;;
  let '(baseURL, basePath, accountBasePath) := checked in
  required (c_Database config) "%w: app name and database are required" (fun database =>
  let stores := db_Stores database in
  let cookieMode := String.eqb (sc_Mode (c_Session config)) SessionModeCookie in
  password <-? enabled (ep_Enabled (c_EmailAndPassword config)) (newPasswords (c_EmailAndPassword config) stores) ;;
  sessions <-? enabled cookieMode (newCookieSessions (c_Session config) stores) ;;
  bearerSessions <-? enabled (negb cookieMode) (newBearerSessions (c_Session config) baseURL stores) ;;
  totp <-? enabled (tc_Enabled (c_TOTP config)) (newTOTP (AppName config) (c_TOTP config) stores) ;;
  passkeys <-? enabled (pk_Enabled (c_Passkeys config)) (newPasskeys config baseURL stores) ;;
  google <-? enabled (gc_Enabled (c_Google config)) (newGoogle (c_Google config) memory baseURL basePath stores) ;;
  oidc <-? enabled (oc_Enabled (c_OIDC config)) (newOIDC (c_OIDC config) memory stores) ;;
  saml <-? enabled (sm_Enabled (c_SAML config)) (newSAML (c_SAML config) stores) ;;
  emailVerification <-? enabled (ev_Enabled (c_EmailVerification config))
                          (newEmailVerification (c_EmailVerification config) baseURL basePath stores) ;;
  passwordReset <-? enabled (pr_Enabled (c_PasswordReset config)) (newPasswordReset config baseURL stores) ;;
  let auth := {|
    Replies.password := password;
    Replies.emailVerification := emailVerification;
    Replies.passwordReset := passwordReset;
    Replies.passkeys := passkeys;
    Replies.google := fst <$> google;
    Replies.oidc := fst <$> oidc;
    Replies.saml := fst <$> saml;
    Replies.sessions := sessions;
    Replies.bearerSessions := bearerSessions;
    Replies.auth_sessionMode := sc_Mode (c_Session config);
    Replies.totp := totp;
    Replies.sessionFreshAge := sc_FreshAge (c_Session config);
    Replies.requireEmailVerification := ep_RequireEmailVerification (c_EmailAndPassword config);
    Replies.sendVerificationOnSignUp := ev_SendOnSignUp (c_EmailVerification config);
    Replies.sendVerificationOnSignIn := ev_SendOnSignIn (c_EmailVerification config);
    Replies.autoSignInAfterVerification := ev_AutoSignInAfterVerification (c_EmailVerification config);
    Replies.emailVerificationDelivery := ev_Delivery (c_EmailVerification config);
    Replies.revokeSessionsOnPasswordReset := negb (pr_KeepSessionsAfterReset (c_PasswordReset config));
    Replies.googleSuccessRedirectURL := default "" (snd <$> google);
    Replies.oidcSuccessRedirectURL := default "" (snd <$> oidc);
    Replies.samlSuccessRedirectURL := default "" (snd <$> saml);
    Replies.resolveOIDCIdentity := if oc_Enabled (c_OIDC config) then oc_ResolveIdentity (c_OIDC config) else None;
    Replies.resolveSAMLIdentity := if sm_Enabled (c_SAML config) then sm_ResolveIdentity (c_SAML config) else None;
    Replies.cookieName := "";
  |} in
  ret (newHandler auth config baseURL basePath accountBasePath)).
End Managers.
