(* ===== verification/SignInSpec.v ===== *)
(** * What signing in with a password promises

    The components behind the sign-in route, each known by its contract, and
    that the answer of the route grants a session only after all of them agree. *)
From S2P Require Import Prelude GoText Base64 EmailAddress GoUrl GoHttp Config Replies Handler HandlerMethods.
From S2P Require Import AccountSpec.
From S2P Require Token Password EmailPassword EmailPasswordSpec EmailVerification EmailVerificationSpec SessionToken RefreshToken AccessToken BearerSession Totp TotpSpec Passkey.

Section Contract.
Context {S : Type} `{Env} `{GoTables} `{Password.PasswordHashes} `{Passkey.WebAuthnLibrary}.

(** The managers of a handler share one state: accounts and second factors are
    parts of it, and the managers of accounts leave the factors alone. *)
Class SignInBackend (handler : httpHandler S) (wf : S -> Prop) (acct : S -> accounts) (fac : S -> TotpSpec.factors) : Prop := {
  backend_accounts s : wf s -> accounts_inv (acct s);
  backend_password m F : password (auth handler) = Some m ->
    EmailPasswordSpec.EmailPasswordBackend m (fun s => wf s /\ fac s = F) acct;
  backend_verification m : emailVerification (auth handler) = Some m ->
    exists outbox, forall F, EmailVerificationSpec.VerificationBackend m (fun s => wf s /\ fac s = F) acct outbox;
  (* an address normalised for the password manager is normalised *)
  backend_normalized p m raw email : password (auth handler) = Some p -> emailVerification (auth handler) = Some m ->
    EmailPassword.normalizeAndValidateEmail p raw = Ok email -> EmailVerification.normalizedOrEmpty m email = email;
  backend_totp m : totp (auth handler) = Some m -> TotpSpec.FactorBackend m wf fac;
}.
End Contract.

(** ** Answers that grant nothing *)
Section Grants.
Context {S : Type} `{Passkey.WebAuthnLibrary}.

(** A session in the body. *)
Definition carries_session (r : reply) : bool :=
  match r with
  | reply_user u => bool_decide (is_Some (ur_Session u))
  | reply_session _ => true
  | _ => false
  end.

(** A session in the body or a cookie in the header. *)
Definition grants (rw : ResponseWriter reply) : Prop :=
  (exists r, In (JSON r) (body rw) /\ carries_session r = true) \/
  (exists code h, In (code, h) (sent rw) /\ set_cookies h <> []).

Definition blank (rw : ResponseWriter reply) : Prop := sent rw = [] /\ body rw = [] /\ set_cookies (live rw) = [].


Definition answer_of (status : Z) (value : reply) (rw : ResponseWriter reply) : ResponseWriter reply :=
  let h := map_fields (Set_ "Content-Type" "application/json") (live rw) in
  mkResponse h [(status, h)] [JSON value].

Lemma wp_writeJSON status value (Q : unit -> World (S * ResponseWriter reply) -> Prop) w : blank (snd (ext w)) ->
  Q tt (set_ext (fst (ext w), answer_of status value (snd (ext w))) w) -> wp (writeJSON status value) Q w.
Proof.
  intros (Hs & Hb & Hc) HQ. destruct w as [t d u [s [l se bo]]]. simpl in *. subst. exact HQ.
Qed.

Lemma answer_grants status value rw : blank rw -> grants (answer_of status value rw) -> carries_session value = true.
Proof.
  intros (Hs & Hb & Hc) [(r & [[= <-]|[]] & Hr)|(code & h & [[= <- <-]|[]] & Hh)]; [done|].
  unfold answer_of in Hh. simpl in Hh. by rewrite Hc in Hh.
Qed.

Lemma wp_refuse status value w : carries_session value = false -> blank (snd (ext w)) ->
  wp (writeJSON status value) (fun _ (w' : World (S * ResponseWriter reply)) => ~ grants (snd (ext w'))) w.
Proof.
  intros Hv Hb. apply wp_writeJSON; [done|]. simpl. intros Hg%answer_grants; [congruence|done].
Qed.

Lemma wp_refuse_error status code w : blank (snd (ext w)) ->
  wp (writeError status code) (fun _ (w' : World (S * ResponseWriter reply)) => ~ grants (snd (ext w'))) w.
Proof. by apply wp_refuse. Qed.
End Grants.

(** An error answer grants nothing. *)
Ltac refuse := first [apply wp_refuse_error; done | apply wp_refuse; done].

Ltac refuse_error :=
  match goal with |- wp (if ?b then _ else _) _ _ => destruct b | _ => refuse end.

Section Answers.
Context {S : Type} `{Passkey.WebAuthnLibrary}.
Abbreviation nothing := (fun _ (w' : World (S * ResponseWriter reply)) => ~ grants (snd (ext w'))).

Lemma wp_refuse_authentication err w : blank (snd (ext w)) -> wp (writeAuthenticationError err) nothing w.
Proof. intros Hb. unfold writeAuthenticationError. repeat refuse_error. Qed.

Lemma wp_refuse_verification err w : blank (snd (ext w)) -> wp (writeEmailVerificationError err) nothing w.
Proof. intros Hb. unfold writeEmailVerificationError. repeat refuse_error. Qed.

(** Refusing is the end of a handler. *)
Lemma wp_end {A} (m : M (S * ResponseWriter reply) unit) (Q : option A -> World (S * ResponseWriter reply) -> Prop) w :
  wp m nothing w -> (forall w', ~ grants (snd (ext w')) -> Q None w') -> wp (m ;;; ret None) Q w.
Proof. intros Hm HQ. apply wp_bind. eapply wp_mono; [exact Hm|]. intros [] w' Hw'. by apply wp_ret, HQ. Qed.
End Answers.

(** ** The steps of the sign-in route *)
Section Steps.
Context {S : Type} `{Env} `{GoTables} `{Password.PasswordHashes} `{AccessToken.JWT} `{Passkey.WebAuthnLibrary} `{NetIP}
  `{RequestDecoders} (handler : httpHandler S).
Context (wf : S -> Prop) (acct : S -> accounts) (fac : S -> TotpSpec.factors).
Context `{!SignInBackend handler wf acct fac}.

Abbreviation rw_of w := (snd (ext w)).
Abbreviation state_of w := (fst (ext w)).

(** Nothing is granted yet, and the state is that of a value [s]. *)
Definition at_state (s : S) (w : World (S * ResponseWriter reply)) : Prop :=
  blank (rw_of w) /\ wf (state_of w) /\ acct (state_of w) = acct s /\ fac (state_of w) = fac s.

Definition verified (email : string) (s : accounts) : Prop :=
  exists id a, users s !! id = Some a /\ acc_Email a = email /\ acc_Verified a = true.

Lemma wp_IsVerified m email w : emailVerification (auth handler) = Some m ->
  EmailVerification.normalizedOrEmpty m email = email -> wf (ext w) ->
  wp (EmailVerification.IsVerified m email) (fun r w' => wf (ext w') /\ acct (ext w') = acct (ext w) /\
    fac (ext w') = fac (ext w) /\ (r = Ok true -> verified email (acct (ext w)))) w.
Proof.
  intros Hm Hn Hwf. destruct (backend_verification m Hm) as [outbox Hb]. unfold EmailVerification.IsVerified. rewrite Hn.
  destruct (String.eqb email ""); [by apply wp_ret|]. apply wp_bind.
  eapply wp_mono; [eapply (EmailVerificationSpec.verification_Find_ok (view := acct) (outbox := outbox)
    (KeptVerificationStoreContract := EmailVerificationSpec.backend_store (VerificationBackend := Hb (fac (ext w))))); by split|].
  intros [u|e] w' ([Hwf' HF] & Ha & _ & Hu); cbn beta iota.
  - destruct (negb _) eqn:Hvalid; apply wp_ret; split_and!; try done. intros [= Hv].
    destruct (Hu u eq_refl) as (a & Ha' & He & Hu'). exists (EmailVerification.user_ID u), a.
    split_and!; [done|done|]. by rewrite Hu' in Hv.
  - destruct (errors_Is _ _); apply wp_ret; by split_and!.
Qed.

(** A request for a verification message ends in a refusal, whatever it did. *)
Lemma wp_requireVerified p raw request email w : password (auth handler) = Some p ->
  EmailPassword.normalizeAndValidateEmail p raw = Ok email ->
  blank (rw_of w) -> wf (state_of w) ->
  wp (requireVerified handler request email) (fun o w' =>
    match o with
    | Some _ => at_state (state_of w) w' /\
        (requireEmailVerification (auth handler) = true -> verified email (acct (state_of w)))
    | None => ~ grants (rw_of w')
    end) w.
Proof.
  intros Hp Hn Hb Hwf. unfold requireVerified. destruct (requireEmailVerification (auth handler)); [|by apply wp_ret].
  cbn [negb]. apply wp_bind, wp_outer. unfold with_manager.
  destruct (emailVerification (auth handler)) as [m|] eqn:Hm; cbn beta iota.
  - eapply wp_mono; [eapply (wp_IsVerified m); [done|by eapply backend_normalized|done]|].
    intros r w' (Hwf' & Ha & Hf & Hv). cbn beta. destruct r as [[]|e].
    + apply wp_ret. split; [by split_and!|]. intros _. by apply Hv.
    + destruct (sendVerificationOnSignIn (auth handler)); [|apply wp_end; [by apply wp_refuse_error|done]].
      apply wp_bind, wp_outer, wp_run. intros [r|e] w2 _; (apply wp_end; [|done]);
        [by apply wp_refuse_error|by apply wp_refuse_verification].
    + apply wp_end; [by apply wp_refuse_error|done].
  - apply wp_ret. apply wp_end; [by apply wp_refuse_error|done].
Qed.

Lemma wp_IsEnabled m subject w : totp (auth handler) = Some m -> wf (ext w) ->
  wp (Totp.IsEnabled m subject) (fun r w' => wf (ext w') /\ fac (ext w') = fac (ext w) /\
    (r = Ok false -> TotpSpec.enabled (fac (ext w)) !! TrimSpace subject = None)) w.
Proof.
  intros Hm Hwf. destruct (backend_totp m Hm) as [Hst _ _ _ _]. unfold Totp.IsEnabled.
  destruct (String.eqb _ ""); [by apply wp_ret|]. apply wp_wrapped. eapply wp_mono; [by apply TotpSpec.factor_IsEnabled_ok|].
  intros [b|e] w' (? & Hf & Hr); (split_and!; [done|done|]); simpl; [|done]. intros [= ->].
  specialize (Hr false eq_refl). symmetry in Hr. apply bool_decide_eq_false in Hr. by apply eq_None_not_Some.
Qed.

Lemma wp_requireNoSecondFactor subject w : blank (rw_of w) -> wf (state_of w) ->
  wp (requireNoSecondFactor handler subject) (fun o w' =>
    match o with
    | Some _ => blank (rw_of w') /\
        (totp (auth handler) <> None -> TotpSpec.enabled (fac (state_of w)) !! TrimSpace subject = None)
    | None => ~ grants (rw_of w')
    end) w.
Proof.
  intros Hb Hwf. unfold requireNoSecondFactor. destruct (totp (auth handler)) as [m|] eqn:Hm; [|by apply wp_ret].
  apply wp_bind, wp_outer. eapply wp_mono; [by apply (wp_IsEnabled m)|]. intros r w' (Hwf' & Hf & Hr). cbn beta.
  destruct r as [[]|e].
  - apply wp_bind, wp_outer, wp_run. intros [challenge|e] w2 _; (apply wp_end; [|done]); [by apply wp_refuse|by apply wp_refuse_error].
  - apply wp_ret. split; [done|]. intros _. by apply Hr.
  - apply wp_end; [by apply wp_refuse_error|done].
Qed.
End Steps.

(** ** The session that is issued is the user's *)
Section Issue.
Context {S : Type} `{Env} `{AccessToken.JWT} `{Passkey.WebAuthnLibrary} (handler : httpHandler S).

Lemma wp_bearer_subject (m : BearerSession.bearerSessionManager S) subject w :
  wp (BearerSession.Create m subject) (fun r _ => forall i, r = Ok i ->
    BearerSession.SubjectID (BearerSession.issued_Session i) = subject) w.
Proof.
  unfold BearerSession.Create. destruct (String.eqb _ ""); [by apply wp_ret|].
  apply wp_bind_ok, wp_run. intros [id|e] w1 _; [|done]. apply wp_bind, wp_run. intros now w2 _. cbv zeta.
  do 3 (apply wp_bind_ok, wp_run; intros [?|e] ? _; [|done]). apply wp_ret. by intros i [= <-].
Qed.

Lemma wp_cookie_subject (m : SessionToken.Manager S) subject w :
  wp (SessionToken.Create m subject) (fun r _ => forall i, r = Ok i ->
    SessionToken.SubjectID (SessionToken.issued_Record i) = subject) w.
Proof.
  unfold SessionToken.Create. destruct (String.eqb _ ""); [by apply wp_ret|].
  apply (wp_for_range _ _ _ _ (fun _ => True)); [done| |by intros; apply wp_ret].
  intros v _. apply wp_bind. unfold SessionToken.newIssued.
  apply wp_bind_ok, wp_run. intros [id|e] w1 _; [|by apply wp_ret].
  apply wp_bind_ok, wp_run. intros [g|e] w2 _; [|by apply wp_ret].
  apply wp_bind, wp_run. intros now w3 _. destruct g as [raw hash]. apply wp_ret. cbn beta iota.
  apply wp_bind, wp_run. intros [[]|e] w4 _; [|by destruct (errors_Is _ _); apply wp_ret].
  apply wp_bind, wp_run. intros [] w5 _. apply wp_ret. by intros i [= <-].
Qed.

(** The response is still open, and the details are those of the session. *)
Lemma wp_issueSession subject (w : World (S * ResponseWriter reply)) : blank (snd (ext w)) ->
  wp (issueSession handler subject) (fun o w' =>
    match o with
    | Some (details, _) => details_SubjectID details = subject /\ sent (snd (ext w')) = [] /\ body (snd (ext w')) = []
    | None => ~ grants (snd (ext w'))
    end) w.
Proof.
  intros (Hs & Hb & Hc). unfold issueSession, with_manager. destruct (String.eqb _ SessionModeBearer).
  - apply wp_bind, wp_outer. destruct (bearerSessions (auth handler)) as [m|];
      [|apply wp_ret, wp_end; [by apply wp_refuse_error|done]].
    eapply wp_mono; [apply wp_bearer_subject|]. intros [i|e] w' Hi; [|apply wp_end; [by apply wp_refuse_error|done]].
    apply wp_ret. split; [|done]. exact (Hi i eq_refl).
  - apply wp_bind, wp_outer. destruct (sessions (auth handler)) as [m|];
      [|apply wp_ret, wp_end; [by apply wp_refuse_error|done]].
    eapply wp_mono; [apply wp_cookie_subject|]. intros [i|e] w' Hi; [|apply wp_end; [by apply wp_refuse_error|done]].
    apply wp_bind. unfold setSession, SetCookie. destruct (isToken _); [apply wp_assign|apply wp_ret]; apply wp_ret;
      (split; [exact (Hi i eq_refl)|by split]).
Qed.
End Issue.
