(* ===== verification/SystemReference.v ===== *)
(** * A reference system behind the handler

    The reference stores of accounts, second factors and sessions, each on its
    part of one state, and the application they make. *)
From S2P Require Import Prelude GoText Base64 EmailAddress GoUrl GoHttp Config Replies Handler HandlerMethods Router SignInSpec.
From S2P Require Import AccountSpec.
From S2P Require Password EmailPassword EmailPasswordSpec AccountReference EmailVerification SessionToken SessionSpec SessionReference AccessToken BearerReference BearerSession Totp TotpSpec Passkey PasskeySpec GoogleOAuth GoogleOAuthSpec Oidc Saml SamlSpec.

#[export] Existing Instance Password.reference_hashes.
#[export] Existing Instance Password.reference_hash_laws.
#[export] Existing Instance AccountReference.default_passwords_contract.
#[export] Existing Instance BearerReference.reference_jwt.
#[export] Existing Instance TotpSpec.demo_otp.
#[export] Existing Instance EmailAddress.ascii_tables.
#[export] Existing Instance GoogleOAuthSpec.demo_url.
#[export] Existing Instance SamlSpec.demo_x509.

(** The WebAuthn library on a clock that stands still at its start: the runs of
    the system use no passkeys. *)
#[export] Instance sys_webauthn : Passkey.WebAuthnLibrary := PasskeySpec.webauthn_at (fun _ => 0%Z).

(** ** A component on its part of the state *)
Section Zoom.
Context {S T : Type} (get : S -> T) (put : T -> S -> S).

Definition inside (w : World S) : World T := mkWorld (ticks w) (draws w) (uuids w) (get (ext w)).
Definition outside (w : World S) (v : World T) : World S := mkWorld (ticks v) (draws v) (uuids v) (put (ext v) (ext w)).

Definition zoom {A} (m : M T A) : M S A := fun w => let '(a, v) := m (inside w) in (a, outside w v).

Lemma wp_on_part {A} (m : M T A) (Q : A -> World S -> Prop) w :
  wp m (fun a v => Q a (outside w v)) (inside w) -> wp (zoom m) Q w.
Proof. unfold wp, zoom. by destruct (m (inside w)). Qed.

Definition zoom_email (st : EmailPassword.Store T) : EmailPassword.Store S :=
  {| EmailPassword.store_Register reg := zoom (EmailPassword.store_Register st reg);
     EmailPassword.store_FindByEmail email := zoom (EmailPassword.store_FindByEmail st email);
     EmailPassword.store_ReplacePasswordHash id current replacement at_ :=
       zoom (EmailPassword.store_ReplacePasswordHash st id current replacement at_) |}.

Definition zoom_credentials (st : EmailPassword.CredentialStore T) : EmailPassword.CredentialStore S :=
  {| EmailPassword.cred_FindBySubject id := zoom (EmailPassword.cred_FindBySubject st id);
     EmailPassword.cred_AddPassword id hash at_ := zoom (EmailPassword.cred_AddPassword st id hash at_);
     EmailPassword.cred_ReplacePasswordHash id current replacement at_ :=
       zoom (EmailPassword.cred_ReplacePasswordHash st id current replacement at_);
     EmailPassword.cred_RemovePassword id current at_ := zoom (EmailPassword.cred_RemovePassword st id current at_) |}.

Definition zoom_factors (st : Totp.Store T) : Totp.Store S :=
  {| Totp.store_IsEnabled id := zoom (Totp.store_IsEnabled st id);
     Totp.store_BeginEnrollment e := zoom (Totp.store_BeginEnrollment st e);
     Totp.store_FindEnrollment id := zoom (Totp.store_FindEnrollment st id);
     Totp.store_Enable id counter codes at_ := zoom (Totp.store_Enable st id counter codes at_);
     Totp.store_Disable id at_ := zoom (Totp.store_Disable st id at_);
     Totp.store_CreateChallenge c := zoom (Totp.store_CreateChallenge st c);
     Totp.store_FindChallenge h := zoom (Totp.store_FindChallenge st h);
     Totp.store_CompleteCode h counter at_ := zoom (Totp.store_CompleteCode st h counter at_);
     Totp.store_CompleteRecovery h code at_ := zoom (Totp.store_CompleteRecovery st h code at_) |}.

Definition zoom_sessions (st : SessionToken.Store T) : SessionToken.Store S :=
  {| SessionToken.store_Create r := zoom (SessionToken.store_Create st r);
     SessionToken.store_FindByTokenHash h := zoom (SessionToken.store_FindByTokenHash st h);
     SessionToken.store_ListBySubject subject := zoom (SessionToken.store_ListBySubject st subject);
     SessionToken.store_Extend h now expires := zoom (SessionToken.store_Extend st h now expires);
     SessionToken.store_Rotate h r now := zoom (SessionToken.store_Rotate st h r now);
     SessionToken.store_Revoke h now := zoom (SessionToken.store_Revoke st h now);
     SessionToken.store_RevokeAll subject now := zoom (SessionToken.store_RevokeAll st subject now) |}.

(** A contract of the part is one of the whole: the part decides whether the
    state is well formed, the rest of it stays. *)
Context {wf : T -> Prop} {wfS : S -> Prop}.
Context (Hwf : forall s, wfS s -> wf (get s)) (Hput : forall t s, wfS s -> wf t -> wfS (put t s))
  (Hget : forall t s, get (put t s) = t).

Ltac zoomed lem :=
  intros; simpl; apply wp_on_part; eapply wp_mono; [apply lem; by apply Hwf|];
  intros res v; simpl; rewrite ?Hget; destruct res; naive_solver.

Lemma zoom_email_contract st view : EmailPasswordSpec.EmailStoreContract st wf view ->
  EmailPasswordSpec.EmailStoreContract (zoom_email st) wfS (fun s => view (get s)).
Proof.
  intros Hc. split; [zoomed EmailPasswordSpec.email_Register_ok|zoomed EmailPasswordSpec.email_Find_ok|
    zoomed EmailPasswordSpec.email_Replace_ok].
Qed.

Lemma zoom_credential_contract st view : EmailPasswordSpec.CredentialStoreContract st wf view ->
  EmailPasswordSpec.CredentialStoreContract (zoom_credentials st) wfS (fun s => view (get s)).
Proof.
  intros Hc. split; [zoomed EmailPasswordSpec.cred_Find_ok|zoomed EmailPasswordSpec.cred_Add_ok|
    zoomed EmailPasswordSpec.cred_Replace_ok|zoomed EmailPasswordSpec.cred_Remove_ok].
Qed.

Lemma zoom_factor_contract st view : TotpSpec.FactorStoreContract st wf view ->
  TotpSpec.FactorStoreContract (zoom_factors st) wfS (fun s => view (get s)).
Proof.
  intros Hc. split; [zoomed TotpSpec.factor_IsEnabled_ok|zoomed TotpSpec.factor_Begin_ok|
    zoomed TotpSpec.factor_FindEnrollment_ok|zoomed TotpSpec.factor_Enable_ok|zoomed TotpSpec.factor_Disable_ok|
    zoomed TotpSpec.factor_Create_ok|zoomed TotpSpec.factor_FindChallenge_ok|zoomed TotpSpec.factor_CompleteCode_ok|
    zoomed TotpSpec.factor_CompleteRecovery_ok].
Qed.

Lemma zoom_session_contract st view : SessionSpec.StoreContract st wf view ->
  SessionSpec.StoreContract (zoom_sessions st) wfS (fun s => view (get s)).
Proof.
  intros Hc. split; [|zoomed SessionSpec.store_Create_ok|zoomed SessionSpec.store_Find_ok|
    zoomed SessionSpec.store_List_ok|zoomed SessionSpec.store_Extend_ok|zoomed SessionSpec.store_Rotate_ok|
    zoomed SessionSpec.store_Revoke_ok|zoomed SessionSpec.store_RevokeAll_ok].
  intros w h r Hs Hl. exact (SessionSpec.store_keyed (inside w) h r (Hwf _ Hs) Hl).
Qed.
End Zoom.

(** ** The state *)
Record system : Type := mkSystem {
  sys_accounts : accounts;
  sys_factors : TotpSpec.factors;
  sys_sessions : SessionSpec.sessions_state;
}.

Definition put_accounts (a : accounts) (s : system) : system := mkSystem a (sys_factors s) (sys_sessions s).
Definition put_factors (f : TotpSpec.factors) (s : system) : system := mkSystem (sys_accounts s) f (sys_sessions s).
Definition put_sessions (x : SessionSpec.sessions_state) (s : system) : system := mkSystem (sys_accounts s) (sys_factors s) x.

Definition system_wf (s : system) : Prop := accounts_inv (sys_accounts s) /\ SessionReference.keyed (sys_sessions s).

Definition sys_email_store : EmailPassword.Store system := zoom_email sys_accounts put_accounts AccountReference.ref_email_store.
Definition sys_credential_store : EmailPassword.CredentialStore system :=
  zoom_credentials sys_accounts put_accounts AccountReference.ref_credential_store.
Definition sys_factor_store : Totp.Store system := zoom_factors sys_factors put_factors TotpSpec.ref_factor_store.
Definition sys_session_store : SessionToken.Store system := zoom_sessions sys_sessions put_sessions SessionReference.ref_store.

#[export] Instance sys_email_contract F :
  EmailPasswordSpec.EmailStoreContract sys_email_store (fun s => system_wf s /\ sys_factors s = F) sys_accounts.
Proof.
  apply (zoom_email_contract sys_accounts put_accounts (wf := accounts_inv)) with (view := Datatypes.id);
    [by intros s [[? ?] ?]|by intros t s [[? ?] ?] ?; split; [split|]|done|apply AccountReference.ref_email_contract].
Qed.

#[export] Instance sys_credential_contract F :
  EmailPasswordSpec.CredentialStoreContract sys_credential_store (fun s => system_wf s /\ sys_factors s = F) sys_accounts.
Proof.
  apply (zoom_credential_contract sys_accounts put_accounts (wf := accounts_inv)) with (view := Datatypes.id);
    [by intros s [[? ?] ?]|by intros t s [[? ?] ?] ?; split; [split|]|done|apply AccountReference.ref_credential_contract].
Qed.

#[export] Instance sys_factor_contract : TotpSpec.FactorStoreContract sys_factor_store system_wf sys_factors.
Proof.
  apply (zoom_factor_contract sys_factors put_factors (wf := TotpSpec.factors_wf)) with (view := Datatypes.id);
    [done|by intros t s [? ?] ?|done|apply TotpSpec.ref_factor_contract].
Qed.

#[export] Instance sys_session_contract : SessionSpec.StoreContract sys_session_store system_wf sys_sessions.
Proof.
  apply (zoom_session_contract sys_sessions put_sessions (wf := SessionReference.keyed)) with (view := Datatypes.id);
    [by intros s [? ?]|by intros t s [? ?] ?|done|apply SessionReference.ref_store_contract].
Qed.

(** ** Libraries of the handler *)
Definition parse_octets (s : string) : option N :=
  match (fun o => ParseUint o 8) <$> Split s "." with
  | [Some a; Some b; Some c; Some d] => Some (((a * 256 + b) * 256 + c) * 256 + d)%N
  | _ => None
  end.

#[export] Instance demo_netip : NetIP := {|
  ParseAddr s := V4 <$> parse_octets s;
  ParseAddrPort s := match Cut s ":" with Some (host, port) => V4 <$> parse_octets host | None => None end;
  ParsePrefix s :=
    match Cut s "/" with
    | Some (host, bits) =>
        match parse_octets host, ParseUint bits 8 with
        | Some a, Some n => if (n <=? 32)%N then Ok (mkPrefix (V4 a) n) else Err ErrParse
        | _, _ => Err ErrParse
        end
    | None => Err ErrParse
    end;
  Addr_String a := format_uint (addr_bits a);
|}.

#[export] Instance demo_media : MediaTypes := {| ParseMediaType s := Ok (match Cut s ";" with Some (t, _) => t | None => s end) |}.

#[export] Instance demo_fallback : MuxFallback := {| mux_unmatched routes request := (404%Z, [], "404 page not found") |}.

(** Bodies of the examples: the fields of a request, separated by bars. *)
Definition field (i : nat) (s : string) : string := nth i (Split s "|") "".
Definition bars {T} (n : nat) (make : string -> T) : StrictDecoder T :=
  {| json_Decode s := if (length (Split s "|") =? n)%nat then Some (make s, "") else None |}.

#[export] Instance demo_decoders : RequestDecoders := {|
  decode_credentials := bars 2 (fun s => mkCredentialsRequest (field 0 s) (field 1 s));
  decode_changePassword := bars 3 (fun s => mkChangePasswordRequest (field 0 s) (field 1 s) (String.eqb (field 2 s) "true"));
  decode_setPassword := bars 1 (fun s => mkSetPasswordRequest (field 0 s));
  decode_removePassword := bars 1 (fun s => mkRemovePasswordRequest (field 0 s));
  decode_email := bars 1 (fun s => mkEmailRequest (field 0 s));
  decode_verifyEmailOTP := bars 2 (fun s => mkVerifyEmailOTPRequest (field 0 s) (field 1 s));
  decode_resetPassword := bars 2 (fun s => mkResetPasswordRequest (field 0 s) (field 1 s));
  decode_passkeyCompletion := bars 2 (fun s => mkPasskeyCompletionRequest (field 0 s) (field 1 s));
  decode_passkeyRemoval := bars 1 (fun s => mkPasskeyRemovalRequest (field 0 s));
  decode_revokeSession := bars 1 (fun s => mkRevokeSessionRequest (field 0 s));
  decode_ssoSignIn := bars 1 (fun s => mkSsoSignInRequest (field 0 s));
  decode_refreshToken := bars 1 (fun s => mkRefreshTokenRequest (field 0 s));
  decode_totpEnrollment := bars 1 (fun s => mkTotpEnrollmentRequest (field 0 s));
  decode_totpCode := bars 1 (fun s => mkTotpCodeRequest (field 0 s));
  decode_twoFactor := bars 2 (fun s => mkTwoFactorRequest (field 0 s) (field 1 s));
|}.

(** ** The application: passwords, a second factor and cookie sessions *)
Definition sys_password_manager : EmailPassword.Manager system :=
  EmailPassword.mkManager system sys_email_store (Some sys_credential_store) EmailPassword.defaultPasswords None None None
    Normalize Password.demo_hash demo_clock.

Definition sys_totp_manager : Totp.Manager system :=
  Totp.mkManager _ sys_factor_store "Example" (10 * Minute)%Z (5 * Minute)%Z 3 None None TotpSpec.factor_clock.

Definition sys_session_manager : SessionToken.Manager system :=
  SessionReference.ref_manager sys_session_store None None demo_clock.

Definition sys_auth : Auth system := {|
  password := Some sys_password_manager; emailVerification := None; passwordReset := None; passkeys := None;
  google := None; oidc := None; saml := None; sessions := Some sys_session_manager; bearerSessions := None;
  auth_sessionMode := SessionModeCookie; totp := Some sys_totp_manager; sessionFreshAge := (15 * Minute)%Z;
  requireEmailVerification := false; sendVerificationOnSignUp := false; sendVerificationOnSignIn := false;
  autoSignInAfterVerification := false; emailVerificationDelivery := EmailVerification.DeliveryMethodLink;
  revokeSessionsOnPasswordReset := true; googleSuccessRedirectURL := ""; oidcSuccessRedirectURL := "";
  samlSuccessRedirectURL := ""; resolveOIDCIdentity := None; resolveSAMLIdentity := None;
  cookieName := "authlier_session";
|}.

Definition sys_cookie : Cookie :=
  mkCookie "authlier_session" "" "" "/" 0 0 true true SameSiteLaxMode.

Definition sys_handler : httpHandler system := {|
  auth := sys_auth; allowedOrigins := ["https://app.example.com"];
  trustedProxies := [mkPrefix (V4 (10 * 2 ^ 24)) 8]; crossSitePOSTs := ∅; cookie := sys_cookie; cookieLifetime := 0;
  sessionMode := SessionModeCookie;
  mux := default [] (fst (registered sys_auth "/api/auth" "/api/account"));
|}.

#[export] Instance sys_factor_backend : TotpSpec.FactorBackend sys_totp_manager system_wf sys_factors.
Proof.
  split; [apply _|done|done| |]; intros x w; simpl; unfold zoom, lift_ext; simpl; lia.
Qed.

#[export] Instance sys_password_backend F :
  EmailPasswordSpec.EmailPasswordBackend sys_password_manager (fun s => system_wf s /\ sys_factors s = F) sys_accounts.
Proof. split; [apply _|by intros c [= <-]; apply _|apply _|done|done]. Qed.

#[export] Instance sys_sign_in_backend : SignInBackend sys_handler system_wf sys_accounts sys_factors.
Proof.
  split; [by intros s [? ?]|by intros m F [= <-]; apply _|done|done|by intros m [= <-]; apply _].
Qed.

#[export] Instance sys_session_backend : SessionSpec.SessionBackend sys_session_manager system_wf sys_sessions.
Proof. split; [apply _|done]. Qed.

(** ** Requests *)
Definition empty_system : system :=
  mkSystem (mkAccounts ∅ ∅ ∅ ∅ ∅) (TotpSpec.mkFactors ∅ ∅ ∅ ∅) (SessionSpec.mkState ∅ ∅).

Lemma empty_system_wf : system_wf empty_system.
Proof. split; [by split; [intros ? ? ? (? & ? & ?)|intros ? ?]|by intros ? ?]. Defined.

Definition post (path body cookies : string) : Request :=
  mkRequest "POST" path path ""
    (<["Origin" := ["https://app.example.com"]]> (<["Cookie" := [cookies]]> ∅)) "192.0.2.7:4711" body
    (Z.of_nat (String.length body)).

Definition alice_credentials : string := "alice@example.com|" +:+ Password.demo_password.

(** Alice signs up, and signs in again. *)
Definition sys_signed_up : ResponseWriter reply * World system :=
  serve 0 sys_handler (post "/api/auth/sign-up" alice_credentials "") (demo_world empty_system).
Definition sys_signed_in : ResponseWriter reply * World system :=
  serve 0 sys_handler (post "/api/auth/sign-in" alice_credentials "") (snd sys_signed_up).

Definition status (rw : ResponseWriter reply) : Z := match sent rw with (code, _) :: _ => code | [] => 0 end.
Definition cookie_of (rw : ResponseWriter reply) : option string :=
  match sent rw with (_, h) :: _ => ck_Value <$> head (set_cookies h) | [] => None end.

Example sys_runs :
  status (fst sys_signed_up) = 201%Z /\ status (fst sys_signed_in) = 200%Z /\
  bool_decide (is_Some (cookie_of (fst sys_signed_in))) = true.
Proof. vm_compute. repeat split. Qed.

#[export] Instance account_eq_dec : EqDecision account.
Proof. solve_decision. Defined.

(** Alice is the one user, and sessions are kept under their hashes. *)
Definition alice_only (s : system) : bool :=
  bool_decide (users (sys_accounts s) = {["A0190-7000" := mkAccount "alice@example.com" false]}) &&
  bool_decide (dom (hashes (sys_accounts s)) = ({["A0190-7000"]} : gset string)) &&
  bool_decide (map_Forall (fun h r => SessionToken.TokenHash r = h) (SessionSpec.durable (sys_sessions s))) &&
  bool_decide (SessionSpec.cached (sys_sessions s) = ∅).

Lemma alice_only_wf s : alice_only s = true -> system_wf s /\ SessionSpec.coherent (sys_sessions s).
Proof.
  unfold alice_only. intros [[[Hu Hh]%andb_true_iff Hs]%andb_true_iff Hc]%andb_true_iff.
  apply bool_decide_eq_true in Hu, Hh, Hs, Hc. split; [split; [split|exact Hs]|].
  - intros i j email (a & Hi & _) (b & Hj & _). rewrite Hu in Hi, Hj.
    by apply lookup_singleton_Some in Hi as [<- _], Hj as [<- _].
  - intros id h Hl. apply elem_of_dom_2 in Hl. rewrite Hh in Hl. apply elem_of_singleton in Hl as ->.
    rewrite Hu, lookup_singleton_eq. by eexists.
  - intros h c. by rewrite Hc, lookup_empty.
Qed.

Lemma alice_wf : system_wf (ext (snd sys_signed_up)) /\ SessionSpec.coherent (sys_sessions (ext (snd sys_signed_up))).
Proof. apply alice_only_wf. vm_compute. reflexivity. Qed.

Lemma alice_wf_twice : system_wf (ext (snd sys_signed_in)) /\ SessionSpec.coherent (sys_sessions (ext (snd sys_signed_in))).
Proof. apply alice_only_wf. vm_compute. reflexivity. Qed.
