(* ===== verification/HandlerProps.v ===== *)
(** * What a handler does to its response

    A handler that is given an unanswered response answers it exactly once, and
    sets no cookie but the session cookie of its configuration. The lemmas of
    the hint database [answers] follow a handler's text; calls of managers
    cannot touch the response. *)
From S2P Require Import Prelude GoText Base64 EmailAddress GoUrl GoHttp Config Replies Handler HandlerMethods Router SystemReference.
From S2P Require Password EmailVerification AccessToken BearerSession Totp Passkey Saml SessionToken EmailPassword.

Create HintDb answers discriminated.
#[export] Hint Constants Opaque : answers.

(** The cookie of a configuration, with some value and some expiry. *)
Definition session_cookie (c0 c : Cookie) : Prop :=
  ck_Name c = ck_Name c0 /\ ck_Domain c = ck_Domain c0 /\ ck_Path c = ck_Path c0 /\
  ck_Secure c = ck_Secure c0 /\ ck_HttpOnly c = ck_HttpOnly c0 /\ ck_SameSite c = ck_SameSite c0.

Section Answers.
Context {S : Type} `{Passkey.WebAuthnLibrary} (handler : httpHandler S).

Definition cookies_ok (h : Header) : Prop :=
  Forall (session_cookie (cookie handler)) (set_cookies h) /\
  (sessionMode handler = SessionModeBearer -> set_cookies h = []).

Definition unanswered (rw : ResponseWriter reply) : Prop :=
  sent rw = [] /\ body rw = [] /\ cookies_ok (live rw).

(** One status, with one body at most. *)
Definition answered (rw : ResponseWriter reply) : Prop :=
  exists code h, sent rw = [(code, h)] /\ cookies_ok h /\ length (body rw) <= 1.

Abbreviation response w := (snd (ext w)).

Definition answers (m : M (S * ResponseWriter reply) unit) : Prop :=
  forall w, unanswered (response w) -> wp m (fun _ w' => answered (response w')) w.

Definition keeps {A} (m : M (S * ResponseWriter reply) A) : Prop :=
  forall w, unanswered (response w) -> wp m (fun _ w' => unanswered (response w')) w.

(** [None]: the call has answered the request. *)
Definition asks {A} (m : M (S * ResponseWriter reply) (option A)) : Prop :=
  forall w, unanswered (response w) ->
    wp m (fun o w' => match o with Some _ => unanswered (response w') | None => answered (response w') end) w.

(** ** Sequencing *)
Lemma keeps_ret {A} (a : A) : keeps (ret a).
Proof. intros w Hw. by apply wp_ret. Qed.

Lemma keeps_outer {A} (m : M S A) : keeps (outer m).
Proof. intros w Hw. apply wp_outer. by apply wp_run. Qed.

Lemma keeps_then {A B} (m : M _ A) (k : A -> M _ B) : keeps m -> (forall a, keeps (k a)) -> keeps (bind m k).
Proof. intros Hm Hk w Hw. apply wp_bind. eapply wp_mono; [by apply Hm|]. intros a w'. apply Hk. Qed.

Lemma answers_bind {A} (m : M _ A) k : keeps m -> (forall a, answers (k a)) -> answers (bind m k).
Proof. intros Hm Hk w Hw. apply wp_bind. eapply wp_mono; [by apply Hm|]. intros a w'. apply Hk. Qed.

Lemma answers_bind_some {A} (m : M _ (option A)) k : asks m -> (forall a, answers (k a)) -> answers (bind_some m k).
Proof.
  intros Hm Hk w Hw. apply wp_bind. eapply wp_mono; [by apply Hm|]. intros [a|] w' Hw'; [by apply Hk|by apply wp_ret].
Qed.

Lemma asks_bind {A B} (m : M _ A) (k : A -> M _ (option B)) : keeps m -> (forall a, asks (k a)) -> asks (bind m k).
Proof. intros Hm Hk w Hw. apply wp_bind. eapply wp_mono; [by apply Hm|]. intros a w'. apply Hk. Qed.

Lemma asks_Some {A} (a : A) : asks (ret (Some a)).
Proof. intros w Hw. by apply wp_ret. Qed.

Lemma asks_None {A} (m : M _ unit) : answers m -> asks (m ;;; ret (@None A)).
Proof. intros Hm w Hw. apply wp_bind. eapply wp_mono; [by apply Hm|]. intros [] w' ?. by apply wp_ret. Qed.

(** ** The writer *)
Lemma keeps_fields f : keeps (assign (map_live (map_fields f))).
Proof. intros w (Hs & Hb & Hc). apply wp_assign. done. Qed.

Lemma keeps_Header_Set key value : keeps (Header_Set key value).
Proof. apply keeps_fields. Qed.

Lemma keeps_Header_Add key value : keeps (Header_Add key value).
Proof. apply keeps_fields. Qed.

Lemma keeps_SetCookie c : session_cookie (cookie handler) c -> sessionMode handler <> SessionModeBearer ->
  keeps (SetCookie c).
Proof.
  intros Hc Hm w (Hs & Hb & Hl & _). unfold SetCookie. destruct (isToken _); [|by apply wp_ret; split_and!].
  apply wp_assign. split_and!; [done|done|split; [|done]]. simpl. apply Forall_app. by split; [|apply Forall_singleton].
Qed.

Lemma answers_WriteHeader code : answers (WriteHeader code).
Proof.
  intros w (Hs & Hb & Hc). apply wp_assign. exists code, (live (response w)). simpl. rewrite Hs, Hb.
  split_and!; [done|done|simpl; lia].
Qed.

Lemma answers_write code c : answers (WriteHeader code ;;; Write c).
Proof.
  intros w (Hs & Hb & Hc). apply wp_bind, wp_assign, wp_assign. exists code, (live (response w)).
  simpl. rewrite Hs. simpl. rewrite Hb, ?Hs. split_and!; [done|done|simpl; lia].
Qed.

Lemma answers_writeJSON status value : answers (writeJSON status value).
Proof. apply answers_bind; [apply keeps_fields|]. intros _. apply answers_write. Qed.

Lemma answers_writeError status code : answers (writeError status code).
Proof. apply answers_writeJSON. Qed.

Lemma answers_Redirect request url code : answers (Redirect request url code).
Proof.
  unfold Redirect. apply answers_bind; [by intros w Hw|]. intros hadCT.
  apply answers_bind; [apply keeps_fields|]. intros _.
  apply answers_bind; [destruct (_ && _); [apply keeps_fields|apply keeps_ret]|]. intros _.
  destruct (_ && _); [apply answers_write|]. intros w Hw. apply wp_bind.
  eapply wp_mono; [by apply answers_WriteHeader|]. intros [] w' ?. by apply wp_ret.
Qed.
End Answers.

#[export] Hint Resolve keeps_ret keeps_outer keeps_fields keeps_Header_Set keeps_Header_Add asks_Some : answers.
#[export] Hint Resolve answers_WriteHeader answers_write answers_writeJSON answers_writeError answers_Redirect : answers.

(** Follow the text of a handler; what is left are the calls of other handlers. *)
Ltac answers_case :=
  match goal with
  | |- answers _ (match ?x with _ => _ end) => destruct x
  | |- asks _ (match ?x with _ => _ end) => destruct x
  | |- keeps _ (match ?x with _ => _ end) => destruct x
  end.

Ltac answers_step :=
  match goal with
  | |- answers _ (bind_some _ _) => apply answers_bind_some; [|intros ?]
  | |- asks _ (bind ?m (fun _ => ret None)) => apply asks_None
  | |- answers _ (WriteHeader _ ;;; Write _) => apply answers_write
  | |- answers _ (bind _ _) => apply answers_bind; [|intros ?]
  | |- asks _ (bind _ _) => apply asks_bind; [|intros ?]
  | |- keeps _ (bind _ _) => apply keeps_then; [|intros ?]
  end.

Ltac answers_go := repeat first [answers_case | solve [auto with answers nocore] | answers_step].

Section Shared.
Context {S : Type} `{Env} `{AccessToken.JWT} `{Passkey.WebAuthnLibrary} `{RequestDecoders} (handler : httpHandler S).

Lemma asks_readJSON {T} `{StrictDecoder T} request : asks handler (readJSON (T := T) request).
Proof. unfold readJSON. answers_go. Qed.

Lemma keeps_clearSession : keeps handler (clearSession handler).
Proof.
  unfold clearSession. destruct (String.eqb_spec (sessionMode handler) SessionModeCookie) as [Hm|]; cbn [negb];
    [|apply keeps_ret].
  apply keeps_SetCookie; [done|by rewrite Hm].
Qed.

Lemma keeps_setSession token createdAt expiresAt : sessionMode handler <> SessionModeBearer ->
  keeps handler (setSession handler token createdAt expiresAt).
Proof. intros Hm. by apply keeps_SetCookie. Qed.

Lemma asks_issueSession subjectID : asks handler (issueSession handler subjectID).
Proof.
  unfold issueSession. destruct (String.eqb_spec (sessionMode handler) SessionModeBearer) as [|Hm]; answers_go.
  by apply keeps_setSession.
Qed.

Lemma asks_requireSession request fresh : asks handler (requireSession handler request fresh).
Proof. unfold requireSession. answers_go. Qed.
End Shared.
#[export] Hint Resolve asks_readJSON keeps_clearSession asks_issueSession asks_requireSession : answers.

Section Completions.
Context {S : Type} `{Env} `{AccessToken.JWT} `{Passkey.WebAuthnLibrary} (handler : httpHandler S).

Lemma answers_completeProviderAuthentication request subjectID redirectURL :
  answers handler (completeProviderAuthentication handler request subjectID redirectURL).
Proof. unfold completeProviderAuthentication. answers_go. Qed.

Lemma answers_createAuthenticatedSession subjectID : answers handler (createAuthenticatedSession handler subjectID).
Proof. unfold createAuthenticatedSession. answers_go. Qed.

(** The answers to errors, one per group of routes. *)
Lemma answers_AuthenticationError err : answers handler (writeAuthenticationError err).
Proof. unfold writeAuthenticationError. answers_go. Qed.

Lemma answers_EmailVerificationError err : answers handler (writeEmailVerificationError err).
Proof. unfold writeEmailVerificationError. answers_go. Qed.

Lemma answers_CredentialError err : answers handler (writeCredentialError err).
Proof. unfold writeCredentialError. answers_go. Qed.

Lemma answers_SessionError err : answers handler (writeSessionError err).
Proof. unfold writeSessionError. answers_go. Qed.

Lemma answers_PasswordResetError err : answers handler (writePasswordResetError err).
Proof. unfold writePasswordResetError. answers_go. Qed.

Lemma answers_TOTPError err : answers handler (writeTOTPError err).
Proof. unfold writeTOTPError. answers_go. Qed.

Lemma answers_PasskeyError err : answers handler (writePasskeyError err).
Proof. unfold writePasskeyError. answers_go. Qed.

Lemma answers_GoogleError err : answers handler (writeGoogleError err).
Proof. unfold writeGoogleError. answers_go. Qed.

Lemma answers_OIDCError err : answers handler (writeOIDCError err).
Proof. unfold writeOIDCError. answers_go. Qed.

Lemma answers_SAMLError err : answers handler (writeSAMLError err).
Proof. unfold writeSAMLError. answers_go. Qed.

End Completions.

#[export] Hint Resolve answers_completeProviderAuthentication answers_createAuthenticatedSession : answers.
#[export] Hint Resolve answers_AuthenticationError answers_EmailVerificationError answers_CredentialError answers_SessionError answers_PasswordResetError
  answers_TOTPError answers_PasskeyError answers_GoogleError answers_OIDCError answers_SAMLError : answers.

(** * Theorems on the HTTP handler *)

(** Unfold the method that a goal is about. *)
Ltac head_of t := match t with ?f _ => head_of f | _ => t end.
Ltac unfold_handler :=
  match goal with |- answers _ ?t => let h := head_of t in unfold h end.

(** ** Running a handler *)
Section Runs.
Context {S : Type} `{Env} `{AccessToken.JWT} `{Passkey.WebAuthnLibrary} (handler : httpHandler S).

Lemma run_outer {A} (m : M S A) (w : World (S * ResponseWriter reply)) a w1 :
  m (drop_local w) = (a, w1) -> outer m w = (a, with_local (snd (ext w)) w1).
Proof. intros E. unfold outer. by rewrite E. Qed.

Lemma run_bind_None {A} (m : M (S * ResponseWriter reply) (option A)) k w w1 :
  m w = (None, w1) -> bind_some m k w = (tt, w1).
Proof. intros E. unfold bind_some, bind. by rewrite E. Qed.

(** The session of a request is refused. *)
Definition refusal (r : result BearerSession.Session) (now : time) : option (Z * string) :=
  match r with
  | Err _ => Some (401, "not_authenticated")%Z
  | Ok record =>
      if After now (Add (BearerSession.CreatedAt record) (sessionFreshAge (auth handler)))
      then Some (403, "recent_authentication_required")%Z else None
  end.

Definition error_answer (status : Z) (code : string) (rw : ResponseWriter reply) : Prop :=
  exists h, sent rw = [(status, h)] /\ body rw = [JSON (reply_error (mkErrorResponse (mkErrorDetails code)))].

Lemma run_writeError status code (w : World (S * ResponseWriter reply)) :
  sent (snd (ext w)) = [] -> body (snd (ext w)) = [] ->
  exists rw, writeError status code w = (tt, mkWorld (ticks w) (draws w) (uuids w) (fst (ext w), rw)) /\
    error_answer status code rw.
Proof.
  intros Hs Hb. unfold writeError, writeJSON, Header_Set, WriteHeader, Write, assign, bind, set_ext. simpl.
  eexists. split; [reflexivity|]. unfold error_answer, write, write_header, map_live. simpl. rewrite Hs. simpl.
  rewrite Hb, ?Hs. eexists. by split.
Qed.

(** A refused request has done no more than resolve its session. *)
Lemma run_requireSession_refused request w r w1 status code :
  ResolveSession (auth handler) request (drop_local w) = (r, w1) ->
  sent (snd (ext w)) = [] -> body (snd (ext w)) = [] ->
  refusal r (time_Now (ticks w1)) = Some (status, code) ->
  exists w2, requireSession handler request true w = (None, w2) /\
    fst (ext w2) = ext w1 /\ draws w2 = draws w1 /\ uuids w2 = uuids w1 /\ error_answer status code (snd (ext w2)).
Proof.
  intros E Hs Hb Hr. unfold requireSession, bind at 1. rewrite (run_outer _ _ _ _ E).
  destruct r as [record|e]; simpl in Hr.
  - unfold bind at 1. rewrite (run_outer (read_now time_Now) _ (time_Now (ticks w1)) (tick w1)) by (by destruct w1).
    destruct (After _ _); [|done]. injection Hr as <- <-.
    destruct (run_writeError 403 "recent_authentication_required" (with_local (snd (ext w)) (tick w1)))
      as (rw & Ew & Ha); [done..|].
    simpl. simpl in Ew. unfold bind. rewrite Ew. eexists. by split.
  - injection Hr as <- <-.
    destruct (run_writeError 401 "not_authenticated" (with_local (snd (ext w)) w1)) as (rw & Ew & Ha); [done..|].
    unfold bind. rewrite Ew. eexists. by split.
Qed.
End Runs.

(** The operations that ask for a recent authentication. *)
Definition sensitive : list endpoint :=
  [setPassword; enableTOTP; confirmTOTP; disableTOTP; passkeyRegistrationOptions; verifyPasskeyRegistration;
   removePasskey; linkGoogle; unlinkGoogle].

Section Serve.
Context {S : Type} `{Env} `{GoTables} `{NetURL} `{Password.PasswordHashes} `{AccessToken.JWT} `{Totp.OtpLibrary}
  `{Passkey.WebAuthnLibrary} `{Saml.X509} `{NetIP} `{MediaTypes} `{RequestDecoders} `{MuxFallback}.
Context (handler : httpHandler S).

(** C6: a sensitive operation (setting a password, enrolling and removing a
    second factor, registering and removing a passkey, linking and unlinking
    Google) does nothing but resolve the session of the request when there is
    none or it is older than the configured age: the stores are as resolving
    left them and the answer is the error 401 or 403. *)
Theorem sensitive_operations_need_fresh_session e fuel request w r w1 status code :
  In e sensitive -> ResolveSession (auth handler) request w = (r, w1) ->
  refusal handler r (time_Now (ticks w1)) = Some (status, code) ->
  exists rw w2, scope fresh_response (endpoint_handler fuel handler e request) w = ((tt, rw), w2) /\
    ext w2 = ext w1 /\ draws w2 = draws w1 /\ uuids w2 = uuids w1 /\ error_answer status code rw.
Proof.
  intros He E Hr.
  assert (Hd : drop_local (with_local (@fresh_response reply) w) = w) by by destruct w.
  destruct (run_requireSession_refused handler request (with_local fresh_response w) r w1 status code)
    as (w2 & E2 & Hx & Hdr & Hu & Ha); [by rewrite Hd|done..|].
  exists (snd (ext w2)), (drop_local w2).
  assert (Hrun : endpoint_handler fuel handler e request (with_local fresh_response w) = (tt, w2)).
  { simpl in He. repeat destruct He as [<-|He]; try done; by apply run_bind_None. }
  unfold scope. rewrite Hrun. by split_and!.
Qed.

(** ** Every request is answered once *)
Lemma asks_readCredentials request : asks handler (readCredentials request).
Proof. apply asks_readJSON. Qed.

Lemma asks_requireVerified request email : asks handler (requireVerified handler request email).
Proof. unfold requireVerified. answers_go. Qed.

Lemma asks_requireNoSecondFactor subjectID : asks handler (requireNoSecondFactor handler subjectID).
Proof. unfold requireNoSecondFactor. answers_go. Qed.

Lemma answers_completeEmailVerification request input : answers handler (completeEmailVerification handler request input).
Proof. unfold completeEmailVerification. answers_go. Qed.

Lemma answers_beginGoogle subjectID : answers handler (beginGoogle handler subjectID).
Proof. unfold beginGoogle. answers_go. Qed.

Lemma answers_completeResolved {I} request (resolve : option (I -> M S (result string))) identity redirectURL :
  answers handler (completeResolved handler request resolve identity redirectURL).
Proof. unfold completeResolved. answers_go. Qed.

Lemma answers_signOutBearer request : answers handler (signOutBearer handler request).
Proof. unfold signOutBearer. answers_go. Qed.

Local Hint Resolve asks_readCredentials asks_requireVerified asks_requireNoSecondFactor
  answers_completeEmailVerification answers_beginGoogle answers_completeResolved answers_signOutBearer : answers.

Definition enough_fuel (fuel : nat) : Prop :=
  forall manager subjectID code sourceKey w, totp (auth handler) = Some manager ->
    fst (Totp.ConfirmEnrollment fuel manager subjectID code sourceKey w) <> None.

Lemma answers_confirmTOTP fuel request : enough_fuel fuel -> answers handler (confirmTOTPHandler fuel handler request).
Proof.
  intros Hf. unfold confirmTOTPHandler. do 2 (apply answers_bind_some; [auto with answers|intros ?]).
  intros w Hw. apply wp_bind, wp_outer.
  destruct (totp (auth handler)) as [m|] eqn:Hm.
  - apply wp_run. intros r v E. destruct r as [[c|e]|]; [by apply answers_writeJSON|by apply answers_TOTPError|].
    exfalso. eapply (Hf m); [done|]. by rewrite E.
  - apply wp_ret. by apply answers_TOTPError.
Qed.

Lemma answers_endpoint e fuel request :
  (e = confirmTOTP -> enough_fuel fuel) -> answers handler (endpoint_handler fuel handler e request).
Proof.
  intros Hf. destruct e; cbn [endpoint_handler];
    try (by apply answers_confirmTOTP, Hf);
    unfold_handler; cbv zeta; answers_go.
Qed.

Lemma keeps_allowOrigin origin : keeps handler (allowOrigin handler origin).
Proof. unfold allowOrigin. answers_go. Qed.

(** C26: every request is answered exactly once, with one status and at most one
    body, whatever its route, its contents and the answers of the managers; the
    only cookies set are the session cookie of the configuration (its name,
    domain, path and its Secure, HttpOnly and SameSite attributes), and none in
    bearer mode. *)
Theorem every_request_answered_once fuel request w :
  (mux_handler (mux handler) request = Some confirmTOTP -> enough_fuel fuel) ->
  wp (serve fuel handler request) (fun rw _ => answered handler rw) w.
Proof.
  intros Hf. unfold serve. apply wp_bind, wp_scope.
  assert (Ha : answers handler (ServeHTTP fuel handler request)).
  { unfold ServeHTTP. apply answers_bind; [apply keeps_allowOrigin|intros _].
    destruct (String.eqb _ _); [unfold preflight; answers_go|].
    destruct (negb (originAllowed _ _)); [answers_go|]. unfold mux_ServeHTTP.
    destruct (mux_handler _ _) as [e|] eqn:He; [|answers_go].
    apply answers_endpoint. intros ->. by apply Hf. }
  eapply wp_mono; [apply Ha; by split_and!|]. intros [] v Hv. by apply wp_ret.
Qed.

(** ** Origins *)

(** C8: in cookie mode a request other than GET from no allowed origin, with a
    foreign [Origin] or with none at all, runs no handler: the world is
    unchanged and the answer is the error 403 without the header field that
    would let the other site read it. The paths that other sites may post to
    are the exception. *)
Theorem foreign_requests_run_nothing fuel request w :
  sessionMode handler = SessionModeCookie -> r_Method request <> "GET" ->
  r_Path request ∉ crossSitePOSTs handler -> validOrigin handler (header request "Origin") = false ->
  exists h, fst (serve fuel handler request w) =
    mkResponse h [(403%Z, h)] [JSON (reply_error (mkErrorResponse (mkErrorDetails "origin_not_allowed")))] /\
    fields h !! "Access-Control-Allow-Origin" = None /\ snd (serve fuel handler request w) = w.
Proof.
  intros Hm Hg Hp Hv. assert (Ho : originAllowed handler request = false).
  { unfold originAllowed. rewrite (proj2 (String.eqb_neq _ _) Hg), bool_decide_eq_false_2, Hm by done. simpl.
    by destruct (String.eqb _ ""). }
  assert (Ha : allowOrigin handler (header request "Origin") = ret tt) by (unfold allowOrigin; by rewrite Hv, andb_false_r).
  assert (Hrun : ServeHTTP fuel handler request = (ret tt ;;; writeError 403 "origin_not_allowed")).
  { unfold ServeHTTP. rewrite Ha, Ho. destruct (String.eqb _ _); [|done]. unfold preflight. by rewrite Hv. }
  unfold serve. rewrite Hrun. destruct w. eexists. split_and!; [reflexivity| |reflexivity]. by vm_compute.
Qed.

(** ** Source keys *)

(** The addresses a request has passed through, the nearest first: its peer, and
    what [X-Forwarded-For] says, from right to left. [None]: not an address. *)
Definition hops (request : Request) (peer : Addr) : list (option Addr) :=
  Some peer :: ((fun text => Unmap <$> ParseAddr (TrimSpace text)) <$>
                  rev (Split (header request "X-Forwarded-For") ",")).

Definition is_trusted (hop : option Addr) : bool :=
  match hop with Some address => trustedProxy handler address | None => false end.

(** The first hop that is no trusted proxy; the last hop when all are trusted. *)
Definition first_untrusted (l : list (option Addr)) : option Addr :=
  match List.find (fun hop => negb (is_trusted hop)) l with
  | Some hop => hop
  | None => List.last l None
  end.

Lemma forwardedSource_find peer candidate texts :
  Some (forwardedSource handler peer candidate texts) =
    (let l := (fun text => Unmap <$> ParseAddr (TrimSpace text)) <$> texts in
     match List.find (fun hop => negb (is_trusted hop)) l with
     | Some (Some address) => Some address
     | Some None => Some peer
     | None => List.last (Some candidate :: l) None
     end).
Proof.
  revert candidate. induction texts as [|text texts IH]; intros candidate; [done|].
  cbn [forwardedSource]. rewrite fmap_cons. simpl. destruct (ParseAddr _) as [address|]; simpl; [|done].
  destruct (trustedProxy handler (Unmap address)); simpl; [|done]. rewrite IH. simpl. by destruct texts.
Qed.

Lemma sourceKey_reference request :
  sourceKey handler request =
    match Unmap <$> remoteAddress (r_RemoteAddr request) with
    | None => r_RemoteAddr request
    | Some peer => Addr_String (default peer (first_untrusted (hops request peer)))
    end.
Proof.
  unfold sourceKey, first_untrusted, hops. destruct (remoteAddress _) as [peer|]; simpl; [|done].
  destruct (trustedProxy handler (Unmap peer)) eqn:Ht; simpl; [|done]. f_equal.
  pose proof (forwardedSource_find (Unmap peer) (Unmap peer) (rev (Split (header request "X-Forwarded-For") ","))) as Hf.
  apply (f_equal (default (Unmap peer))) in Hf. simpl in Hf.
  destruct (List.find _ _) as [[address|]|]; exact Hf.
Qed.

(** The key that attempt guards and security events get for a request is
    its first hop that is not a trusted proxy, reading from the connection
    backwards; the peer when an entry before it is no address, the farthest hop
    when all are trusted, and the raw remote address when that is no address. *)
Theorem sourceKey_first_untrusted request :
  sourceKey handler request =
    match Unmap <$> remoteAddress (r_RemoteAddr request) with
    | None => r_RemoteAddr request
    | Some peer => Addr_String (default peer (first_untrusted (hops request peer)))
    end.
Proof. apply sourceKey_reference. Qed.

Lemma find_app {A} (f : A -> bool) l k :
  List.find f (l ++ k) = match List.find f l with Some x => Some x | None => List.find f k end.
Proof. induction l as [|x l IH]; simpl; [done|]. by destruct (f x). Qed.

Lemma sourceKey_hops request request' :
  r_RemoteAddr request' = r_RemoteAddr request ->
  (forall peer, first_untrusted (hops request' peer) = first_untrusted (hops request peer)) ->
  sourceKey handler request' = sourceKey handler request.
Proof. intros Hr Hh. rewrite !sourceKey_reference, Hr. destruct (_ <$> _); [|done]. by rewrite Hh. Qed.

(** A client behind trusted proxies cannot choose its key: once the part of
    [X-Forwarded-For] that the proxies wrote names a hop that is not one of
    them, nothing written in front of it changes the key. *)
Theorem forged_hops_do_not_matter request request' forged :
  r_RemoteAddr request' = r_RemoteAddr request ->
  header request' "X-Forwarded-For" = forged +:+ "," +:+ header request "X-Forwarded-For" ->
  existsb (fun hop => negb (is_trusted hop)) (List.tl (hops request (V4 0))) = true ->
  sourceKey handler request' = sourceKey handler request.
Proof.
  intros Hr Hx Hu. apply sourceKey_hops; [done|]. intros peer. unfold hops. rewrite Hx.
  change ("," +:+ ?x) with (String "," x). rewrite Split_app_sep, rev_app_distr, fmap_app. unfold first_untrusted. unfold hops in Hu. simpl in Hu.
  set (l := _ <$> rev (Split (header request _) ",")) in *. clearbody l.
  cbn [List.find]. destruct (negb (is_trusted (Some peer))); [done|]. simpl.
  rewrite find_app. destruct (List.find _ l) eqn:Hf; [done|].
  apply existsb_exists in Hu as (x & Hin & Hx'). by rewrite (find_none _ _ Hf x Hin) in Hx'.
Qed.
End Serve.

(** ** Runs of the theorems *)
Definition with_cookie (path cookies : string) : Request := post path "" cookies.

(** Alice's session, half an hour old. *)
Definition alice_cookie : string := "authlier_session=" +:+ default "" (cookie_of (fst sys_signed_in)).
Definition half_an_hour_later : World system :=
  let w := snd sys_signed_in in mkWorld (ticks w + 1800) (draws w) (uuids w) (ext w).
Definition stale_request : Request := with_cookie "/api/auth/two-factor/totp/enable" alice_cookie.

Lemma stale_refused :
  refusal sys_handler (fst (ResolveSession (auth sys_handler) stale_request half_an_hour_later))
    (time_Now (ticks (snd (ResolveSession (auth sys_handler) stale_request half_an_hour_later)))) =
  Some (403%Z, "recent_authentication_required").
Proof. vm_compute. reflexivity. Qed.

Lemma sensitive_operations_need_fresh_session_witness :
  exists rw w2, scope fresh_response (endpoint_handler 0 sys_handler enableTOTP stale_request) half_an_hour_later = ((tt, rw), w2) /\
    ext w2 = ext (snd (ResolveSession (auth sys_handler) stale_request half_an_hour_later)) /\
    error_answer 403 "recent_authentication_required" rw.
Proof.
  destruct (sensitive_operations_need_fresh_session sys_handler enableTOTP 0 stale_request half_an_hour_later
    (fst (ResolveSession (auth sys_handler) stale_request half_an_hour_later))
    (snd (ResolveSession (auth sys_handler) stale_request half_an_hour_later)) 403 "recent_authentication_required")
    as (rw & w2 & E & Hext & _ & _ & Ha).
  - right. left. reflexivity.
  - apply surjective_pairing.
  - exact stale_refused.
  - exists rw, w2. split; [exact E|split; [exact Hext|exact Ha]].
Defined.

Lemma every_request_answered_once_witness :
  answered sys_handler (fst (serve 0 sys_handler (with_cookie "/api/auth/session" alice_cookie) half_an_hour_later)).
Proof.
  apply (every_request_answered_once sys_handler 0 (with_cookie "/api/auth/session" alice_cookie) half_an_hour_later).
  intros E. vm_compute in E. discriminate E.
Defined.

Definition foreign_request : Request :=
  mkRequest "POST" "/api/auth/sign-out" "/api/auth/sign-out" ""
    (<["Origin" := ["https://evil.example"]]> (<["Cookie" := [alice_cookie]]> ∅)) "192.0.2.7:4711" "" 0.

Lemma foreign_requests_run_nothing_witness :
  snd (serve 0 sys_handler foreign_request (snd sys_signed_in)) = snd sys_signed_in.
Proof.
  destruct (foreign_requests_run_nothing sys_handler 0 foreign_request (snd sys_signed_in)) as (h & _ & _ & Hw).
  - reflexivity.
  - discriminate.
  - set_solver.
  - reflexivity.
  - exact Hw.
Defined.

(** Behind the proxy 10.0.0.1, with what it wrote and with a forged entry. *)
Definition proxied (forwarded : string) : Request :=
  mkRequest "GET" "/" "/" "" (<["X-Forwarded-For" := [forwarded]]> ∅) "10.0.0.1:80" "" 0.

Lemma forged_hops_do_not_matter_witness :
  sourceKey sys_handler (proxied "198.51.100.1,203.0.113.9") = sourceKey sys_handler (proxied "203.0.113.9") /\
  sourceKey sys_handler (proxied "203.0.113.9") = format_uint 3405803785.
Proof.
  split; [|vm_compute; reflexivity].
  apply (forged_hops_do_not_matter sys_handler (proxied "203.0.113.9") (proxied "198.51.100.1,203.0.113.9") "198.51.100.1");
    vm_compute; reflexivity.
Defined.

(** * Sessions over HTTP, on the contract of the session manager

    What the routes that revoke sessions leave behind in cookie mode. *)
From S2P Require Import SignInSpec SessionToken SessionSpec SessionProps.
From S2P Require AccessToken BearerSession Passkey RefreshToken.

Section Sessions.
Context {S : Type} `{Env} `{AccessToken.JWT} `{Passkey.WebAuthnLibrary} (handler : httpHandler S) (m : Manager S).
Context (wf : S -> Prop) (view : S -> sessions_state) `{!SessionBackend m wf view}.
Context (Hmode : sessionMode handler = SessionModeCookie) (Hmode' : auth_sessionMode (auth handler) = SessionModeCookie)
  (Hsessions : sessions (auth handler) = Some m).

Abbreviation state_of w := (fst (ext w)).
Abbreviation rw_of w := (snd (ext w)).

Definition good (s : S) : Prop := wf s /\ coherent (view s).

(** The calls of the manager keep the state good. *)
Lemma wp_good c w : good (ext w) -> good (ext (run m c w)).
Proof.
  intros [Hwf Hco]. destruct (run_steps m wf view c w Hwf Hco) as [? Hs]. split; [done|by eapply coherent_steps].
Qed.

Lemma wp_ResolveSession request w : good (ext w) ->
  wp (ResolveSession (auth handler) request) (fun _ w' => good (ext w')) w.
Proof.
  intros Hg. unfold ResolveSession. rewrite Hmode'. change (String.eqb SessionModeCookie SessionModeBearer) with false.
  cbn beta iota. destruct (request_Cookie _ _) as [value|]; [|by apply wp_ret]. rewrite Hsessions. simpl.
  apply wp_bind_ok. pose proof (wp_good (CResolve value) w Hg) as Hr. unfold wp. simpl in Hr.
  by destruct (Resolve m value w) as [[r|e] w1].
Qed.

Lemma wp_requireSession request (w : World (S * ResponseWriter reply)) : good (state_of w) ->
  wp (requireSession handler request false) (fun _ w' => good (state_of w')) w.
Proof.
  intros Hg. unfold requireSession. apply wp_bind, wp_outer. eapply wp_mono; [by apply wp_ResolveSession|].
  intros [record|e] w1 Hg1; cbn beta iota; [by apply wp_ret|]. apply wp_bind, wp_run. intros [] w2 E. apply wp_ret.
  unfold writeError, writeJSON, Header_Set, WriteHeader, Write, assign, bind in E. simpl in E. by injection E as <-.
Qed.

(** Only one session of the subject is live, and the answer describes it. *)
Definition only_session (details : sessionDetails) (s : sessions_state) : Prop :=
  exists i, live_session m i (details_SubjectID details) s /\
    details = newSessionDetails (session_of_record (issued_Record i)) /\
    forall h r, durable s !! h = Some r -> SubjectID r = details_SubjectID details -> RevokedAt r = None ->
      r = issued_Record i.

Lemma wp_revokeAllSessions subject w : good (ext w) ->
  wp (revokeAllSessions handler subject) (fun r w' => good (ext w') /\
    (r = Ok tt -> forall h r, durable (view (ext w')) !! h = Some r -> SubjectID r = subject -> RevokedAt r <> None)) w.
Proof.
  intros [Hwf Hco]. unfold revokeAllSessions. rewrite Hmode, Hsessions.
  change (String.eqb SessionModeCookie SessionModeBearer) with false. simpl.
  eapply wp_mono; [by apply (wp_RevokeAll m wf view)|]. intros r w' (Hwf' & Hs & Hr).
  split; [split; [done|by eapply coherent_steps]|]. intros E h x Hx Hsub. by apply (Hr E h x Hx Hsub).
Qed.

Lemma wp_createAuthenticatedSession subject (w : World (S * ResponseWriter reply)) :
  good (state_of w) -> body (rw_of w) = [] ->
  (forall h r, durable (view (state_of w)) !! h = Some r -> SubjectID r = subject -> RevokedAt r <> None) ->
  wp (createAuthenticatedSession handler subject) (fun _ w' => forall r,
    body (rw_of w') = [JSON (reply_session r)] -> details_SubjectID (sr_Session r) = subject /\
      only_session (sr_Session r) (view (state_of w'))) w.
Proof.
  intros [Hwf Hco] Hb Hall. unfold createAuthenticatedSession. apply wp_bind. unfold issueSession. rewrite Hmode.
  change (String.eqb SessionModeCookie SessionModeBearer) with false. cbn beta iota. rewrite Hsessions.
  apply wp_bind, wp_outer. eapply wp_mono; [by apply (wp_Create m wf view)|]. intros r w' (Hwf' & Hs & Hi).
  destruct r as [i|e]; cbn beta iota.
  - destruct (Hi i eq_refl) as (Hlive & Hd & Hnone). apply wp_bind, wp_run. intros [] w1 E1.
    assert (Hw1 : body (rw_of w1) = [] /\ state_of w1 = ext w').
    { unfold setSession, SetCookie in E1. destruct (isToken _); by injection E1 as <-. }
    clear E1. apply wp_ret. cbn beta iota. destruct w1 as [t d u [s [l se bo]]]. simpl in Hw1. destruct Hw1 as [-> ->].
    unfold wp. simpl. destruct se as [|x se]; simpl; intros r [= <-].
    all: split; [exact (proj1 (proj2 (proj2 Hlive)))|]; exists i.
    all: pose proof (proj1 (proj2 (proj2 Hlive))) as Hsub; cbn [sr_Session fst].
    all: split_and!; [by rewrite <- Hsub in Hlive|done|]; intros h r Hr Hrs Hrev; rewrite Hd in Hr.
    all: apply lookup_insert_Some in Hr as [[_ <-]|[_ Hr]]; [done|].
    all: exfalso; by eapply Hall; [exact Hr|rewrite <- Hsub|].
  - apply wp_bind, wp_run. intros [] w1 E. unfold writeError, writeJSON, Header_Set, WriteHeader, Write, assign, bind in E.
    destruct w as [t d u [s [l se bo]]]. simpl in E, Hb. subst bo. injection E as <-.
    apply wp_ret. cbn beta iota. apply wp_ret. simpl. destruct se; simpl; discriminate.
Qed.

(** Revoking the other sessions leaves one: when the route answers with a
    session, every session of that subject that was stored is durably revoked,
    the one that asked included, and the only live one is the session of the
    answer, with the token that the new cookie carries. *)
Theorem revoke_other_sessions_leaves_one request w :
  good (ext w) ->
  wp (scope fresh_response (revokeOtherSessionsHandler handler request)) (fun r w' => forall answer,
    body (snd r) = [JSON (reply_session answer)] -> only_session (sr_Session answer) (view (ext w'))) w.
Proof.
  intros Hg. apply wp_scope. unfold revokeOtherSessionsHandler. apply wp_bind.
  assert (Hreq : wp (requireSession handler request false) (fun o w' => good (state_of w') /\
    match o with Some _ => body (rw_of w') = [] | None => exists r, body (rw_of w') = [JSON (reply_error r)] end)
    (with_local fresh_response w)).
  { eapply wp_and; [by apply wp_requireSession|]. unfold requireSession. apply wp_bind, wp_outer, wp_run.
    intros [record|e] w1 _; cbn beta iota; [by apply wp_ret|]. apply wp_bind, wp_run. intros [] w2 E. apply wp_ret.
    injection E as <-. by eexists. }
  eapply wp_mono; [exact Hreq|]. intros [current|] w1 [Hg1 Hb]; cbn beta iota;
    [|apply wp_ret; intros answer Ha; destruct Hb as [r Hb]; simpl in Ha; congruence]. apply wp_bind, wp_outer.
  eapply wp_mono; [by apply wp_revokeAllSessions|]. intros [[]|e] w2 [Hg2 Hall]; cbn beta iota.
  - apply wp_bind, wp_run. intros [] w3 E3.
    assert (Hw3 : body (rw_of w3) = [] /\ state_of w3 = ext w2).
    { unfold clearSession, SetCookie in E3. destruct (negb _); [by injection E3 as <-|]. destruct (isToken _); by injection E3 as <-. }
    destruct Hw3 as [Hb3 Hs3]. eapply wp_mono; [apply wp_createAuthenticatedSession;
      [by rewrite Hs3|done|rewrite Hs3; by apply Hall]|]. intros [] w4 Hr answer Ha. by apply Hr.
  - apply wp_run. intros [] w3 E answer Ha. exfalso. unfold writeSessionError in E.
    destruct w1 as [t d u [s [l se bo]]]. simpl in Hb. subst bo.
    destruct (_ || _); injection E as <-; simpl in Ha; destruct se; simpl in Ha; discriminate Ha.
Qed.
End Sessions.

(** ** A run: alice, signed in twice, revokes the other session *)
Definition alice_revokes : Request :=
  post "/api/auth/revoke-other-sessions" "" ("authlier_session=" +:+ default "" (cookie_of (fst sys_signed_in))).

Definition revoked_run : unit * ResponseWriter reply * World system :=
  scope fresh_response (revokeOtherSessionsHandler sys_handler alice_revokes) (snd sys_signed_in).

Definition answered_session (rw : ResponseWriter reply) : option sessionResponse :=
  match body rw with [JSON (reply_session r)] => Some r | _ => None end.

Lemma revoked_answer : bool_decide (is_Some (answered_session (snd (fst revoked_run)))) = true.
Proof. vm_compute. reflexivity. Qed.

Lemma revoke_other_sessions_leaves_one_witness :
  exists answer, answered_session (snd (fst revoked_run)) = Some answer /\
    only_session sys_session_manager (sr_Session answer) (sys_sessions (ext (snd revoked_run))).
Proof.
  pose proof revoked_answer as Ha. apply bool_decide_eq_true in Ha as [answer Ha]. exists answer. split; [exact Ha|].
  apply (revoke_other_sessions_leaves_one sys_handler sys_session_manager system_wf sys_sessions eq_refl eq_refl eq_refl
    alice_revokes (snd sys_signed_in) alice_wf_twice answer).
  revert Ha. unfold answered_session. change (fst (scope fresh_response _ _)) with (fst revoked_run).
  destruct (body (snd (fst revoked_run))) as [|[[]| |] []]; intros Ha; inversion Ha; reflexivity.
Defined.
