(* ===== verification/RouterProps.v ===== *)
(** * The routes an application has

    The table of the documented routes, and that the mux of a handler is that
    table restricted to the features that are enabled. *)
From S2P Require Import Prelude GoText Base64 EmailAddress GoUrl GoHttp Config Replies Handler HandlerMethods Router SignInSpec SystemReference.
From S2P Require EmailVerification Passkey Password EmailPassword PasswordReset SessionToken AccessToken BearerSession Totp Saml SamlSpec.

(** ** The table *)
Inductive feature : Type :=
| FPassword | FSessions | FBearer | FVerification | FVerificationOTP | FVerificationLink | FReset | FTotp | FPasskeys
| FGoogle | FOIDC | FSAML.

(** Method, whether below the account base path, the path below it, handler. *)
Definition row : Type := string * bool * string * endpoint.

Definition password_rows : list row :=
  [("POST", false, "sign-up", signUp); ("POST", false, "sign-in", signIn);
   ("POST", false, "change-password", changePassword); ("POST", false, "set-password", setPassword);
   ("POST", false, "remove-password", removePassword)].

Definition session_rows : list row :=
  [("POST", false, "sign-out", signOut); ("GET", false, "session", session);
   ("GET", false, "list-sessions", listSessions); ("POST", false, "revoke-session", revokeSession);
   ("POST", false, "revoke-other-sessions", revokeOtherSessions);
   ("POST", false, "revoke-sessions", revokeSessions)].

Definition bearer_rows : list row :=
  [("POST", false, "token/refresh", refreshAccessToken)].

Definition verification_rows : list row :=
  [("POST", false, "resend-verification", resendVerification)].

Definition otp_rows : list row :=
  [("POST", false, "verify-email", verifyEmailOTP)].

Definition link_rows : list row :=
  [("GET", false, "verify-email", verifyEmailLink)].

Definition reset_rows : list row :=
  [("POST", false, "forgot-password", forgotPassword); ("POST", false, "reset-password", resetPassword)].

Definition totp_rows : list row :=
  [("POST", false, "two-factor/totp/enable", enableTOTP); ("POST", false, "two-factor/totp/confirm", confirmTOTP);
   ("POST", false, "two-factor/verify", verifyTOTP); ("POST", false, "two-factor/recover", recoverTOTP);
   ("POST", false, "two-factor/disable", disableTOTP)].

Definition passkey_rows : list row :=
  [("POST", false, "passkey/register/options", passkeyRegistrationOptions);
   ("POST", false, "passkey/register/verify", verifyPasskeyRegistration);
   ("POST", false, "passkey/sign-in/options", passkeySignInOptions);
   ("POST", false, "passkey/sign-in/verify", verifyPasskeySignIn);
   ("GET", false, "passkey/list", listPasskeys); ("POST", false, "passkey/remove", removePasskey)].

Definition google_rows : list row :=
  [("POST", false, "google", signInWithGoogle); ("GET", false, "google/callback", completeGoogleSignIn);
   ("POST", true, "google", linkGoogle); ("DELETE", true, "google", unlinkGoogle)].

Definition oidc_rows : list row :=
  [("POST", false, "sso/oidc/sign-in", beginOIDC); ("GET", false, "sso/oidc/callback", completeOIDC)].

Definition saml_rows : list row :=
  [("POST", false, "sso/saml/sign-in", beginSAML); ("POST", false, "sso/saml/callback", completeSAML);
   ("GET", false, "sso/saml/metadata", samlMetadata)].

Definition route_table : list (feature * list row) :=
  [(FPassword, password_rows); (FSessions, session_rows); (FBearer, bearer_rows); (FVerification, verification_rows);
   (FVerificationOTP, otp_rows); (FVerificationLink, link_rows);
   (FReset, reset_rows); (FTotp, totp_rows); (FPasskeys, passkey_rows); (FGoogle, google_rows); (FOIDC, oidc_rows); (FSAML, saml_rows)].

Section Routes.
Context {S : Type} `{Passkey.WebAuthnLibrary}.

Definition has_feature (auth : Auth S) (f : feature) : bool :=
  match f with
  | FPassword => present (password auth)
  | FSessions => true
  | FBearer => present (bearerSessions auth)
  | FVerification => present (emailVerification auth)
  | FVerificationOTP => present (emailVerification auth) &&
      String.eqb (emailVerificationDelivery auth) EmailVerification.DeliveryMethodOTP
  | FVerificationLink => present (emailVerification auth) &&
      negb (String.eqb (emailVerificationDelivery auth) EmailVerification.DeliveryMethodOTP)
  | FReset => present (passwordReset auth)
  | FTotp => present (totp auth)
  | FPasskeys => present (passkeys auth)
  | FGoogle => present (google auth)
  | FOIDC => present (oidc auth)
  | FSAML => present (saml auth)
  end.

Definition row_handler (r : row) : endpoint := snd r.
Definition row_key (r : row) : string * bool * string := fst r.

Definition route_of (basePath accountBasePath : string) (r : row) : route endpoint :=
  let '(m, account, path, e) := r in
  mkRoute m ((if account then accountBasePath else basePath) +:+ String "/" path) e.

Definition enabled_rows (auth : Auth S) : list row :=
  List.flat_map (fun p => if has_feature auth (fst p) then snd p else []) route_table.

Definition enabled_routes (auth : Auth S) (basePath accountBasePath : string) : list (route endpoint) :=
  route_of basePath accountBasePath <$> enabled_rows auth.

(** ** Registration, one route after the other *)
Definition HandleAll (l : list (route endpoint)) (mux : ServeMux endpoint) : ServeMux endpoint :=
  foldl (fun mux r => HandleFunc (rt_Method r) (rt_Path r) (rt_Handler r) mux) mux l.

Lemma HandleAll_app l k mux : HandleAll (l ++ k) mux = HandleAll k (HandleAll l mux).
Proof. apply foldl_app. Qed.

Lemma when_HandleAll b f l mux : (forall mux, f mux = HandleAll l mux) ->
  when b f mux = HandleAll (if b then l else []) mux.
Proof. intros Hf. destruct b; [apply Hf|done]. Qed.

Lemma fmap_if {A B} (f : A -> B) (b : bool) l : f <$> (if b then l else []) = if b then f <$> l else [].
Proof. by destruct b. Qed.

Lemma registered_HandleAll (auth : Auth S) basePath accountBasePath :
  registered auth basePath accountBasePath =
    (HandleAll (enabled_routes auth basePath accountBasePath) (Some []),
     if present (saml auth) then {[samlCallback basePath]} else ∅).
Proof.
  unfold registered. cbv zeta.
  rewrite (when_HandleAll (present (password auth)) _ (route_of basePath accountBasePath <$> password_rows)) by done.
  set (m1 := HandleAll _ (Some [])).
  change (registerSessionRoutes _ _) with (HandleAll (route_of basePath accountBasePath <$> session_rows) m1).
  rewrite (when_HandleAll (present (bearerSessions auth)) _ (route_of basePath accountBasePath <$> bearer_rows)) by done.
  rewrite (when_HandleAll (present (emailVerification auth)) _
    (route_of basePath accountBasePath <$> verification_rows ++
       (if String.eqb (emailVerificationDelivery auth) EmailVerification.DeliveryMethodOTP then otp_rows else link_rows)))
    by (intros mux; unfold registerEmailVerificationRoutes; by destruct (String.eqb _ _)).
  rewrite (when_HandleAll (present (passwordReset auth)) _ (route_of basePath accountBasePath <$> reset_rows)) by done.
  rewrite (when_HandleAll (present (totp auth)) _ (route_of basePath accountBasePath <$> totp_rows)) by done.
  rewrite (when_HandleAll (present (passkeys auth)) _ (route_of basePath accountBasePath <$> passkey_rows)) by done.
  rewrite (when_HandleAll (present (google auth)) _ (route_of basePath accountBasePath <$> google_rows)) by done.
  unfold m1. rewrite <- !HandleAll_app. set (l := _ ++ _).
  assert (Hsso : forall mux, when (present (oidc auth) || present (saml auth)) (registerSSORoutes auth basePath) (mux, ∅) =
    (HandleAll ((if present (oidc auth) then route_of basePath accountBasePath <$> oidc_rows else []) ++
                (if present (saml auth) then route_of basePath accountBasePath <$> saml_rows else [])) mux,
     if present (saml auth) then {[samlCallback basePath]} else ∅)).
  { intros mux. unfold registerSSORoutes. destruct (present (oidc auth)), (present (saml auth)); simpl;
      [|done|..]; by rewrite ?union_empty_r_L. }
  rewrite Hsso, <- HandleAll_app. f_equal. f_equal. unfold l, enabled_routes, enabled_rows.
  cbn [List.flat_map route_table fst snd has_feature]. rewrite !fmap_app, !fmap_if.
  destruct (present (emailVerification auth)), (String.eqb _ _); cbn [andb negb]; rewrite ?fmap_app, <- ?app_assoc;
    by rewrite ?app_nil_r.
Qed.
End Routes.

(** ** Patterns *)

(** A base path that the mux takes literally. *)
Definition plain_base (path : string) : bool :=
  clean_path path && negb (byte_occurs "{" path) && negb (byte_occurs "}" path).

Lemma path_segments_app p s : path_segments (p +:+ String "/" s) = path_segments p ++ Split s "/".
Proof.
  unfold path_segments. rewrite Split_app_sep. destruct (Split p "/") eqn:Hp; [|done].
  by apply split_from_nonempty in Hp.
Qed.

Lemma HasPrefix_app_l s t p : HasPrefix s p = true -> HasPrefix (s +:+ t) p = true.
Proof.
  revert s. induction p as [|a p IH]; intros [|b s]; simpl; try done; [by destruct t|].
  intros [-> Hp]%andb_true_iff. simpl. by apply IH.
Qed.

Lemma clean_path_app p s :
  clean_path p = true -> forallb (fun segment => negb (existsb (String.eqb segment) [""; "."; ".."])) (Split s "/") = true ->
  clean_path (p +:+ String "/" s) = true.
Proof.
  unfold clean_path. intros [Hp Hc]%andb_true_iff Hs. by rewrite HasPrefix_app_l, path_segments_app, forallb_app, Hc, Hs.
Qed.

Section Table.
Context (basePath accountBasePath : string).

Definition row_segments (r : row) : list string := Split (snd (row_key r)) "/".

(** What the table says of its own paths. *)
Definition sound_row (r : row) : bool :=
  let path := snd (row_key r) in
  forallb (fun segment => negb (existsb (String.eqb segment) [""; "."; ".."])) (row_segments r) &&
  negb (byte_occurs "{" path) && negb (byte_occurs "}" path) &&
  bool_decide (unescape_segment <$> row_segments r = row_segments r) &&
  existsb (String.eqb (fst (fst (row_key r)))) ["GET"; "POST"; "DELETE"].

Definition all_rows : list row := List.flat_map snd route_table.

Lemma all_rows_sound : forallb sound_row all_rows = true.
Proof. reflexivity. Qed.

Lemma all_rows_distinct : NoDup (row_key <$> all_rows).
Proof. apply (bool_decide_unpack _). vm_compute. exact I. Qed.

(** Two rows on one side with the same segments have the same path; two rows on
    different sides with one method end alike only when their paths are the same. *)
Definition apart (r q : row) : bool :=
  let '(m, side, path) := row_key r in
  let '(m', side', path') := row_key q in
  negb (String.eqb m m') ||
  if Bool.eqb side side' then negb (bool_decide (row_segments r = row_segments q)) || String.eqb path path'
  else bool_decide (row_segments r = row_segments q) ||
       negb (bool_decide (List.last (row_segments r) "" = List.last (row_segments q) "")).

Lemma all_rows_apart : forallb (fun r => forallb (apart r) all_rows) all_rows = true.
Proof. vm_compute. reflexivity. Qed.

Lemma in_all_rows {S} `{Passkey.WebAuthnLibrary} (auth : Auth S) : enabled_rows auth `sublist_of` all_rows.
Proof.
  unfold enabled_rows, all_rows. induction route_table as [|[f rows] l IH]; simpl; [done|].
  apply sublist_app; [|done]. destruct (has_feature auth f); [done|apply sublist_nil_l].
Qed.


Definition route_key (r : route endpoint) : string * list string := (rt_Method r, decoded_segments (rt_Path r)).

Definition row_base (r : row) : string := if snd (fst (row_key r)) then accountBasePath else basePath.

Lemma sound_in r : r ∈ all_rows -> sound_row r = true.
Proof. intros Hr%list_elem_of_In. exact (proj1 (forallb_forall _ _) all_rows_sound r Hr). Qed.

Lemma apart_in r q : r ∈ all_rows -> q ∈ all_rows -> apart r q = true.
Proof.
  intros Hr%list_elem_of_In Hq%list_elem_of_In.
  exact (proj1 (forallb_forall _ _) (proj1 (forallb_forall _ _) all_rows_apart r Hr) q Hq).
Qed.

Lemma route_key_of r : r ∈ all_rows ->
  route_key (route_of basePath accountBasePath r) =
    (fst (fst (row_key r)), decoded_segments (row_base r) ++ row_segments r).
Proof.
  intros Hr. pose proof (sound_in r Hr) as Hs. destruct r as [[[m account] path] e].
  unfold sound_row, row_segments, row_base, row_key in *. simpl in *. go_bool.
  unfold route_key, decoded_segments. cbn [rt_Method rt_Path route_of]. rewrite path_segments_app, fmap_app.
  by f_equal; f_equal.
Qed.

Hypothesis Hdifferent : decoded_segments basePath <> decoded_segments accountBasePath.

Lemma route_key_inj r q : r ∈ all_rows -> q ∈ all_rows ->
  route_key (route_of basePath accountBasePath r) = route_key (route_of basePath accountBasePath q) ->
  row_key r = row_key q.
Proof.
  intros Hr Hq. rewrite !route_key_of by done. intros [= Hm Hseg]. pose proof (apart_in r q Hr Hq) as Ha.
  destruct r as [[[m a] p] e], q as [[[m' a'] p'] e']. unfold apart, row_base, row_key in *. cbn [fst snd] in *.
  subst m'. rewrite String.eqb_refl in Ha. cbn [negb orb] in Ha.
  destruct (Bool.eqb_spec a a') as [<-|Hne].
  - apply app_inv_head in Hseg. rewrite bool_decide_eq_true_2 in Ha by done. simpl in Ha. by go_bool; subst.
  - exfalso. apply orb_true_iff in Ha as [Ha|Ha]; go_bool.
    + rewrite Ha in Hseg. apply app_inv_tail in Hseg. destruct a, a'; congruence.
    + apply Ha. apply (f_equal (fun l => List.last l "")) in Hseg.
      assert (Hl : forall (l k : list string), k <> [] -> List.last (l ++ k) "" = List.last k "").
      { intros l k Hk. induction l as [|x l IH]; [done|]. simpl. rewrite IH. destruct l; [by destruct k|done]. }
      rewrite !Hl in Hseg by apply split_from_nonempty. done.
Qed.
End Table.

(** ** Registration succeeds *)
Lemma conflicts_key (r q : route endpoint) : conflicts r q = true <-> route_key r = route_key q.
Proof.
  unfold conflicts, route_key. rewrite andb_true_iff, String.eqb_eq, bool_decide_eq_true. by split; [intros [-> ->]|intros [=]].
Qed.

Lemma HandleFunc_ok r (routes : list (route endpoint)) :
  valid_pattern r = true -> route_key r ∉ (route_key <$> routes) ->
  HandleFunc (rt_Method r) (rt_Path r) (rt_Handler r) (Some routes) = Some (routes ++ [r]).
Proof.
  intros Hv Hr. unfold HandleFunc. destruct r as [m p e]; cbn [rt_Method rt_Path rt_Handler].
  rewrite Hv. destruct (existsb _ _) eqn:He; [|done]. exfalso.
  apply existsb_exists in He as (q & Hq & Hc). apply conflicts_key in Hc.
  apply Hr. rewrite Hc. apply list_elem_of_fmap. exists q. split; [done|]. by apply list_elem_of_In.
Qed.

Lemma HandleAll_ok l (routes : list (route endpoint)) :
  Forall (fun r => valid_pattern r = true) l -> NoDup (route_key <$> routes ++ l) ->
  HandleAll l (Some routes) = Some (routes ++ l).
Proof.
  revert routes. induction l as [|r l IH]; intros routes Hv Hd; [by rewrite app_nil_r|].
  inversion Hv; subst. unfold HandleAll. cbn [foldl]. fold (HandleAll l).
  rewrite HandleFunc_ok; [|done|].
  - unfold HandleAll in IH. rewrite IH; rewrite <- ?app_assoc; done.
  - rewrite fmap_app in Hd. apply list.NoDup_app in Hd as (_ & Hd & _). intros Hin.
    apply (Hd _ Hin). by left.
Qed.

(** ** The mux is the table *)
Section Mux.
Context {S : Type} `{Passkey.WebAuthnLibrary} (auth : Auth S) (basePath accountBasePath : string).
Context (Hbase : plain_base basePath = true) (Haccount : plain_base accountBasePath = true).
Context (Hdifferent : decoded_segments basePath <> decoded_segments accountBasePath).

Abbreviation routes := (enabled_routes auth basePath accountBasePath).
Abbreviation at_base := (route_of basePath accountBasePath).

Lemma enabled_in r : r ∈ enabled_rows auth -> r ∈ all_rows.
Proof. intros Hr. eapply elem_of_sublist; [exact Hr|apply in_all_rows]. Qed.

Lemma enabled_distinct : NoDup (row_key <$> enabled_rows auth).
Proof. eapply sublist_NoDup; [apply all_rows_distinct|apply fmap_sublist, in_all_rows]. Qed.

Lemma enabled_keys : NoDup (route_key <$> routes).
Proof.
  unfold enabled_routes. rewrite <- list_fmap_compose.
  assert (Hk : forall l, (forall r, r ∈ l -> r ∈ all_rows) -> NoDup (row_key <$> l) -> NoDup (route_key ∘ at_base <$> l)).
  { induction l as [|r l IH]; intros Hin Hd; [constructor|]. rewrite fmap_cons in *. inversion Hd; subst.
    constructor; [|apply IH; [|done]; intros q Hq; apply Hin; by right].
    intros (q & Hq & Hql)%list_elem_of_fmap. apply H2. apply list_elem_of_fmap. exists q. split; [|done].
    eapply route_key_inj; [done|apply Hin; by left|apply Hin; by right|exact Hq]. }
  apply Hk; [apply enabled_in|apply enabled_distinct].
Qed.

Lemma enabled_valid : Forall (fun r => valid_pattern r = true) routes.
Proof.
  apply Forall_forall. intros q (r & -> & Hr)%list_elem_of_In%list_elem_of_fmap. apply enabled_in in Hr.
  pose proof (sound_in r Hr) as Hs. destruct r as [[[m account] path] e].
  unfold sound_row, row_segments, row_key, plain_base in *. simpl in *.
  apply andb_true_iff in Hs as [Hs _]. apply andb_true_iff in Hs as [Hs _]. apply andb_true_iff in Hs as [Hs Hp2].
  apply andb_true_iff in Hs as [Hs Hp1].
  apply andb_true_iff in Hbase as [Hb Hb2], Haccount as [Ha Ha2]. apply andb_true_iff in Hb as [Hb Hb1], Ha as [Ha Ha1].
  apply negb_true_iff in Hp1, Hp2, Hb1, Hb2, Ha1, Ha2.
  unfold valid_pattern. cbn [rt_Path]. rewrite !byte_occurs_app. simpl.
  destruct account; rewrite clean_path_app by done; by rewrite ?Hp1, ?Hp2, ?Ha1, ?Ha2, ?Hb1, ?Hb2.
Qed.

Lemma registered_routes :
  registered auth basePath accountBasePath =
    (Some routes, if present (saml auth) then {[samlCallback basePath]} else ∅).
Proof. rewrite registered_HandleAll, (HandleAll_ok _ []); [done|apply enabled_valid|apply enabled_keys]. Qed.

(** A row answers a method: its own, and HEAD when it is a row for GET. *)
Definition row_serves (r : row) (method : string) : bool :=
  String.eqb (fst (fst (row_key r))) method || (String.eqb (fst (fst (row_key r))) "GET" && String.eqb method "HEAD").

Definition row_matches (request : Request) (r : row) : Prop :=
  row_serves r (r_Method request) = true /\
  decoded_segments (r_EscapedPath request) =
    decoded_segments (row_base basePath accountBasePath r) ++ row_segments r.

Lemma route_matches_row request r : r ∈ all_rows ->
  route_matches request (at_base r) = true <-> row_matches request r.
Proof.
  intros Hr. pose proof (route_key_of basePath accountBasePath r Hr) as Hk. unfold route_key in Hk.
  injection Hk as Hm Hs. unfold route_matches, row_matches, row_serves.
  rewrite andb_true_iff, bool_decide_eq_true, Hm, Hs. split; intros [? E]; (split; [done|]); congruence.
Qed.

Lemma row_serves_inj r q method : r ∈ all_rows -> q ∈ all_rows ->
  row_serves r method = true -> row_serves q method = true -> fst (fst (row_key r)) = fst (fst (row_key q)).
Proof.
  intros Hr%sound_in Hq%sound_in. unfold sound_row, row_serves in *.
  apply andb_true_iff in Hr as [_ Hr], Hq as [_ Hq].
  rewrite !orb_true_iff, !andb_true_iff, !String.eqb_eq. intros [<-|[E ->]] [F|[F ?]]; [done|..].
  - subst. rewrite H0 in Hr. simpl in Hr. discriminate.
  - rewrite F in Hq. discriminate.
  - congruence.
Qed.

Lemma row_matches_unique request r q : r ∈ all_rows -> q ∈ all_rows ->
  row_matches request r -> row_matches request q -> row_key r = row_key q.
Proof.
  intros Hr Hq [Hm Hs] [Hm' Hs']. eapply (route_key_inj basePath accountBasePath); [done..|].
  rewrite !route_key_of by done. f_equal; [by eapply row_serves_inj|]. congruence.
Qed.

Lemma enabled_row_key r q : r ∈ enabled_rows auth -> q ∈ enabled_rows auth -> row_key r = row_key q -> r = q.
Proof.
  pose proof enabled_distinct as Hd. revert Hd. induction (enabled_rows auth) as [|x l IH]; [intros _ Hr; inversion Hr|].
  rewrite fmap_cons. intros [Hx Hd]%list.NoDup_cons [->|Hr]%elem_of_cons [->|Hq]%elem_of_cons E; [done|..].
  - exfalso. apply Hx. rewrite E. by apply list_elem_of_fmap_2.
  - exfalso. apply Hx. rewrite <- E. by apply list_elem_of_fmap_2.
  - by apply IH.
Qed.

Lemma mux_handler_table request e :
  mux_handler routes request = Some e <->
    clean_path (r_EscapedPath request) = true /\
    exists r, r ∈ enabled_rows auth /\ row_matches request r /\ row_handler r = e.
Proof.
  unfold mux_handler. destruct (clean_path _); [|by split; [|intros [? _]]]. split.
  - intros E. split; [done|]. destruct (List.find _ routes) as [q|] eqn:Hf; [|done]. injection E as <-.
    apply find_some in Hf as [Hin Hm]. apply list_elem_of_In in Hin.
    apply list_elem_of_fmap in Hin as (r & -> & Hr). exists r. split_and!; [done| |by destruct r as [[[? ?] ?] ?]].
    apply route_matches_row; [by apply enabled_in|done].
  - intros (_ & r & Hr & Hm & <-). destruct (List.find _ routes) as [q|] eqn:Hf.
    + apply find_some in Hf as [Hin Hq]. apply list_elem_of_In in Hin.
      apply list_elem_of_fmap in Hin as (r' & -> & Hr'). apply route_matches_row in Hq; [|by apply enabled_in].
      rewrite (enabled_row_key r r'); [by destruct r' as [[[? ?] ?] ?]|done|done|].
      eapply row_matches_unique; by eauto using enabled_in.
    + pose proof (find_none _ _ Hf (at_base r)) as Hn. rewrite (proj2 (route_matches_row request r (enabled_in r Hr)) Hm) in Hn.
      discriminate Hn. apply list_elem_of_In, list_elem_of_fmap_2, Hr.
Qed.
End Mux.

(** * Theorems on the routes

    The mux is the table of the documented routes, and what a request from
    another site can reach. *)

(** ** Paths and their segments *)

(** The path that has some segments. *)
Definition rebuild (segments : list string) : string :=
  foldr (fun segment rest => String "/" (segment +:+ rest)) "" segments.

Lemma string_app_assoc (s t u : string) : s +:+ (t +:+ u) = (s +:+ t) +:+ u.
Proof. induction s as [|a s IH]; [done|]. exact (f_equal (String a) IH). Qed.

Lemma string_app_nil (s : string) : s +:+ "" = s.
Proof. induction s as [|a s IH]; [done|]. exact (f_equal (String a) IH). Qed.

Lemma rebuild_app l k : rebuild (l ++ k) = rebuild l +:+ rebuild k.
Proof. induction l as [|s l IH]; simpl; [done|]. by rewrite IH, string_app_assoc. Qed.

Lemma split_first_slash s :
  byte_occurs "/" s = false \/ exists p q, s = p +:+ String "/" q /\ byte_occurs "/" p = false.
Proof.
  induction s as [|a s [IH|(p & q & -> & Hp)]]; [by left|..]; destruct (Ascii.eqb_spec "/" a) as [<-|Ha].
  - right. by exists "", s.
  - left. cbn [byte_occurs]. by rewrite (proj2 (Ascii.eqb_neq _ _) Ha).
  - right. by exists "", (p +:+ String "/" q).
  - right. exists (String a p), q. split; [done|]. cbn [byte_occurs]. by rewrite (proj2 (Ascii.eqb_neq _ _) Ha).
Qed.

(** A path is built of its pieces; so is what its escapes stand for. *)
Lemma PathUnescape_app_sep p q d : PathUnescape (p +:+ String "/" q) = Some d ->
  exists e f, PathUnescape p = Some e /\ PathUnescape q = Some f /\ d = e +:+ String "/" f.
Proof.
  remember (String.length p) as n eqn:Hn. revert p Hn d. induction n as [n IH] using lt_wf_ind. intros p -> d.
  destruct p as [|a p]; simpl.
  - destruct (PathUnescape q) as [f|] eqn:Hq; [|done]. intros [= <-]. by exists "", f.
  - change (String.append p) with (String.app p). destruct (Ascii.eqb a "%").
    + destruct p as [|b [|c p]]; simpl.
      * destruct q as [|c q]; [done|]. by destruct (unhex "/").
      * destruct (unhex b); [|done]. change (unhex "/") with (@None N). done.
      * change (String.append p) with (String.app p). destruct (unhex b) as [h|], (unhex c) as [l|]; try done.
        destruct (PathUnescape (p +:+ _)) as [r|] eqn:Hr; [|done]. intros [= <-].
        destruct (IH (String.length p) ltac:(simpl; lia) p eq_refl _ Hr) as (e & f & -> & -> & ->).
        eexists _, f. split_and!; reflexivity.
    + destruct (PathUnescape (p +:+ _)) as [r|] eqn:Hr; [|done]. intros [= <-].
      destruct (IH (String.length p) ltac:(simpl; lia) p eq_refl _ Hr) as (e & f & -> & -> & ->).
      eexists _, f. split_and!; reflexivity.
Qed.

Lemma rebuild_unescaped s d : PathUnescape s = Some d -> rebuild (unescape_segment <$> Split s "/") = String "/" d.
Proof.
  remember (String.length s) as n eqn:Hn. revert s Hn d. induction n as [n IH] using lt_wf_ind. intros s -> d Hd.
  destruct (split_first_slash s) as [Ho|(p & q & -> & Hp)].
  - rewrite Split_last by done. simpl. unfold unescape_segment. rewrite Hd. simpl. by rewrite string_app_nil.
  - rewrite Split_cons by done. apply PathUnescape_app_sep in Hd as (e & f & He & Hf & ->). rewrite fmap_cons.
    change (rebuild (?x :: ?l)) with (String "/" (x +:+ rebuild l)).
    rewrite (IH (String.length q)) with (d := f); [|rewrite length_app_string; simpl; lia|done|done].
    unfold unescape_segment. by rewrite He.
Qed.

Lemma rebuild_decoded path d : HasPrefix path "/" = true \/ path = "" -> PathUnescape path = Some d ->
  rebuild (decoded_segments path) = d.
Proof.
  intros [Hp| ->]; [|by intros [= <-]]. destruct path as [|a path]; [done|]. cbn [HasPrefix] in Hp.
  apply andb_true_iff in Hp as [<-%Ascii.eqb_eq _]. unfold decoded_segments, path_segments.
  change (String "/" path) with ("" +:+ String "/" path). rewrite Split_cons by done. simpl. destruct (PathUnescape path) as [e|] eqn:He; [|done].
  intros [= <-]. by apply rebuild_unescaped.
Qed.

Lemma rebuild_segments r : r ∈ all_rows -> rebuild (row_segments r) = String "/" (snd (row_key r)).
Proof.
  intros Hr%list_elem_of_In.
  assert (Hall : forallb (fun r => String.eqb (rebuild (row_segments r)) (String "/" (snd (row_key r)))) all_rows = true)
    by (vm_compute; reflexivity).
  apply String.eqb_eq. exact (proj1 (forallb_forall _ _) Hall r Hr).
Qed.

Section Props.
Context {S : Type} `{Passkey.WebAuthnLibrary} (auth : Auth S) (basePath accountBasePath : string).

(** C7: the handler of a request is the documented one. For base paths that the
    mux takes literally and that decode differently, every registration
    succeeds, and a request reaches a handler exactly when its path is clean and
    is, segment by segment after decoding, the path of a row of the table of
    routes whose feature is enabled and whose method is the request's (or GET
    for HEAD); the handler is the one of that row. *)
Theorem mux_is_route_table :
  plain_base basePath = true -> plain_base accountBasePath = true ->
  decoded_segments basePath <> decoded_segments accountBasePath ->
  exists routes crossSite, registered auth basePath accountBasePath = (Some routes, crossSite) /\
    forall request e,
      mux_handler routes request = Some e <->
        clean_path (r_EscapedPath request) = true /\
        exists r, r ∈ enabled_rows auth /\ row_matches basePath accountBasePath request r /\ row_handler r = e.
Proof.
  intros Hb Ha Hd. eexists _, _. split; [by apply registered_routes|]. intros request e. by apply mux_handler_table.
Qed.

(** ** What another site can reach *)
Lemma HandleAll_Some l (mux : ServeMux endpoint) routes : HandleAll l mux = Some routes ->
  exists m, mux = Some m /\ routes = m ++ l /\ Forall (fun r => valid_pattern r = true) l.
Proof.
  revert mux. induction l as [|r l IH]; intros mux; [intros Hm; exists routes; by rewrite app_nil_r|].
  intros (m & Hm & -> & Hl)%IH. unfold HandleFunc in Hm. destruct mux as [m0|]; [|done].
  destruct r as [method path e]. cbn [rt_Method rt_Path rt_Handler] in Hm.
  destruct (valid_pattern _) eqn:Hv; [|done]. destruct (negb _); [|done]. injection Hm as <-.
  exists m0. rewrite <- app_assoc. by repeat constructor.
Qed.

Lemma registered_inv routes crossSite :
  registered auth basePath accountBasePath = (Some routes, crossSite) ->
  routes = enabled_routes auth basePath accountBasePath /\
  crossSite = (if present (saml auth) then {[samlCallback basePath]} else ∅) /\
  Forall (fun r => valid_pattern r = true) routes.
Proof.
  rewrite registered_HandleAll. intros [= Hl <-]. apply HandleAll_Some in Hl as (m & [= <-] & -> & Hv). done.
Qed.

Lemma callback_row r : r ∈ all_rows -> snd (row_key r) = "sso/saml/callback" -> row_handler r = completeSAML.
Proof.
  intros Hr%list_elem_of_In Hp.
  assert (Hall : forallb (fun r => negb (String.eqb (snd (row_key r)) "sso/saml/callback") ||
                                   bool_decide (row_handler r = completeSAML)) all_rows = true) by (vm_compute; reflexivity).
  pose proof (proj1 (forallb_forall _ _) Hall r Hr) as Hh. cbv beta in Hh. rewrite Hp in Hh. by apply bool_decide_eq_true in Hh.
Qed.

(** The rows below the account base path end in another letter. *)
Lemma account_row_ends r : r ∈ all_rows -> snd (fst (row_key r)) = true -> snd (row_key r) = "google".
Proof.
  intros Hr%list_elem_of_In Hp.
  assert (Hall : forallb (fun r => negb (snd (fst (row_key r))) || String.eqb (snd (row_key r)) "google") all_rows = true)
    by (vm_compute; reflexivity).
  pose proof (proj1 (forallb_forall _ _) Hall r Hr) as Hh. cbv beta in Hh. rewrite Hp in Hh. by apply String.eqb_eq.
Qed.

Lemma last_byte_app s t : t <> "" -> List.last (list_of_string (s +:+ t)) "000"%char = List.last (list_of_string t) "000"%char.
Proof.
  intros Ht. induction s as [|a s IH]; [done|]. rewrite <- IH. change (list_of_string (String a s +:+ t)) with (a :: list_of_string (s +:+ t)).
  destruct (list_of_string (s +:+ t)) eqn:E; [|done]. exfalso. destruct s; [|discriminate E]. destruct t; [done|discriminate E].
Qed.

Lemma string_app_inv_head s t u : s +:+ t = s +:+ u -> t = u.
Proof. induction s as [|a s IH]; [done|]. intros Hs. apply IH. by injection Hs. Qed.

Lemma base_rooted l : Forall (fun r => valid_pattern r = true) (route_of basePath accountBasePath <$> l) ->
  forall r, r ∈ l -> HasPrefix (row_base basePath accountBasePath r) "/" = true \/ row_base basePath accountBasePath r = "".
Proof.
  intros Hl r Hr. assert (Hv : valid_pattern (route_of basePath accountBasePath r) = true).
  { exact (proj1 (Forall_forall _ _) Hl _ (proj1 (list_elem_of_In _ _) (list_elem_of_fmap_2 _ _ _ Hr))). }
  destruct r as [[[m account] path] e]. unfold valid_pattern, route_of, clean_path in Hv. cbn [rt_Path] in Hv.
  unfold row_base, row_key. cbn [fst snd]. set (b := if account then _ else _) in *. clearbody b.
  destruct b as [|a b]; [by right|left]. do 3 apply andb_true_iff in Hv as [Hv _].
  change (Ascii.eqb "/" a && HasPrefix (b +:+ String "/" path) "" = true) in Hv.
  change (Ascii.eqb "/" a && HasPrefix b "" = true). destruct (Ascii.eqb "/" a); [by destruct b|discriminate Hv].
Qed.

Lemma callback_path_reaches r request :
  Forall (fun r => valid_pattern r = true) (enabled_routes auth basePath accountBasePath) ->
  PathUnescape basePath = Some basePath -> PathUnescape accountBasePath = Some accountBasePath ->
  r ∈ enabled_rows auth -> row_matches basePath accountBasePath request r ->
  HasPrefix (r_EscapedPath request) "/" = true ->
  PathUnescape (r_EscapedPath request) = Some (samlCallback basePath) -> row_handler r = completeSAML.
Proof.
  intros Hv Hb Ha Hr [_ Hs] Hp Hd. pose proof (enabled_in _ _ Hr) as Hall. apply callback_row; [done|].
  apply (f_equal rebuild) in Hs. rewrite rebuild_app, rebuild_segments in Hs by done.
  erewrite rebuild_decoded in Hs; [|by left|exact Hd].
  pose proof (base_rooted _ Hv r Hr) as Hroot. destruct (snd (fst (row_key r))) eqn:Hside; unfold row_base in *; rewrite Hside in *.
  - exfalso. erewrite rebuild_decoded in Hs; [|exact Hroot|exact Ha]. rewrite (account_row_ends r Hall Hside) in Hs.
    apply (f_equal (fun s => List.last (list_of_string s) "000"%char)) in Hs. unfold samlCallback in Hs.
    rewrite !last_byte_app in Hs by done. discriminate Hs.
  - erewrite rebuild_decoded in Hs; [|exact Hroot|exact Hb]. apply string_app_inv_head in Hs. by injection Hs.
Qed.

(** C25: in cookie mode, when [newHandler] succeeds, a request other than GET
    that does not come from an allowed origin passes the check of origins only
    to reach the SAML callback or no handler at all: the exception for posts of
    other sites lets no other route through, however the path is escaped. *)
Theorem cross_site_posts_reach_saml_callback_only `{NetURL} `{NetIP} config baseURL handler request e :
  newHandler auth config baseURL basePath accountBasePath = Ok handler ->
  sessionMode handler = SessionModeCookie ->
  PathUnescape basePath = Some basePath -> PathUnescape accountBasePath = Some accountBasePath ->
  r_Method request <> "GET" -> validOrigin handler (header request "Origin") = false ->
  PathUnescape (r_EscapedPath request) = Some (r_Path request) ->
  originAllowed handler request = true -> mux_handler (mux handler) request = Some e -> e = completeSAML.
Proof.
  intros Hn Hm Hb Ha Hg Ho Hp Hallowed Hmux. unfold newHandler in Hn.
  destruct (parseOrigins _) as [trusted|]; [|done]. destruct (parseTrustedProxies _) as [proxies|]; [|done].
  destruct (_ && _ && _); [done|].
  destruct (registered _ basePath accountBasePath) as [[routes|] crossSite] eqn:Hr; [|done].
  injection Hn as <-. cbn [mux sessionMode crossSitePOSTs] in *.
  apply registered_inv in Hr as (-> & -> & Hv).
  unfold originAllowed in Hallowed. rewrite Ho, (proj2 (String.eqb_neq _ _) Hg) in Hallowed. cbn [crossSitePOSTs sessionMode orb] in Hallowed.
  rewrite Hm in Hallowed. apply orb_true_iff in Hallowed as [Hc|Hc];
    [|destruct (String.eqb (header request "Origin") ""); discriminate Hc].
  apply bool_decide_eq_true in Hc. destruct (present _); [|set_solver]. apply elem_of_singleton in Hc.
  unfold mux_handler in Hmux. destruct (clean_path (r_EscapedPath request)) eqn:Hclean; [|done].
  destruct (List.find _ _) as [q|] eqn:Hf; [|done]. injection Hmux as <-.
  apply find_some in Hf as [Hin Hq]. apply list_elem_of_In in Hin.
  apply list_elem_of_fmap in Hin as (r & -> & Hin). change (r ∈ enabled_rows auth) in Hin.
  apply route_matches_row in Hq; [|by eapply enabled_in].
  replace (rt_Handler (route_of basePath accountBasePath r)) with (row_handler r) by by destruct r as [[[? ?] ?] ?].
  apply (callback_path_reaches r request Hv Hb Ha Hin Hq); [|by rewrite Hp, Hc]. by apply andb_true_iff in Hclean as [? _].
Qed.
End Props.

(** ** Runs of the theorems *)

(** A configuration with passwords and a second factor in cookie mode. *)
Definition plain_config {S} (database : option (Database S)) : Config S :=
  mkConfig "Example" "https://app.example.com" "" "" database ["https://www.example.com"] ["10.0.0.0/8"]
    (mkEmailAndPasswordConfig true false "" None None None)
    (mkEmailVerificationConfig false "" "" 0 "" None false false false None None)
    (mkPasswordResetConfig false 0 "" None false None None)
    (mkSessionConfig "" 0 0 None 0 None (mkCookieConfig "" "" "" 0)
       (BearerSession.mkBearerConfig "" "" 0 0 "" "" ∅ 0))
    (mkTOTPConfig true 0 0 0 None None)
    (mkPasskeyConfig false "" "" [] 0 None None)
    (mkGoogleConfig false "" "" "" "" 0 None None)
    (mkOIDCConfig false None None 0 "" None None)
    (mkSAMLConfig false None None 0 "" None None).

Lemma mux_is_route_table_witness :
  exists routes crossSite, registered sys_auth "/api/auth" "/api/account" = (Some routes, crossSite) /\
    mux_handler routes (post "/api/auth/sign-in" "" "") = Some signIn.
Proof.
  destruct (mux_is_route_table sys_auth "/api/auth" "/api/account") as (routes & crossSite & E & Hm);
    [reflexivity|reflexivity|discriminate|].
  exists routes, crossSite. split; [exact E|]. apply Hm. split; [reflexivity|].
  exists ("POST", false, "sign-in", signIn). split; [|split; [split; reflexivity|reflexivity]].
  apply list_elem_of_In. simpl. tauto.
Defined.

(** An application with SAML, and the post of an identity provider. *)
Definition saml_auth : Auth SamlSpec.pending := {|
  password := None; emailVerification := None; passwordReset := None; passkeys := None;
  google := None; oidc := None; saml := Some SamlSpec.demo_saml_manager; sessions := None; bearerSessions := None;
  auth_sessionMode := SessionModeCookie; totp := None; sessionFreshAge := (15 * Minute)%Z;
  requireEmailVerification := false; sendVerificationOnSignUp := false; sendVerificationOnSignIn := false;
  autoSignInAfterVerification := false; emailVerificationDelivery := EmailVerification.DeliveryMethodLink;
  revokeSessionsOnPasswordReset := true; googleSuccessRedirectURL := ""; oidcSuccessRedirectURL := "";
  samlSuccessRedirectURL := ""; resolveOIDCIdentity := None;
  resolveSAMLIdentity := Some (fun _ => ret (Ok "alice")); cookieName := "";
|}.

Definition identity_provider_posts : Request :=
  mkRequest "POST" "/api/auth/sso/saml/callback" "/api/auth/sso/sa%6Dl/callback" ""
    (<["Origin" := ["https://idp.example.com"]]> ∅) "192.0.2.7:4711" "" 0.

Definition saml_handler : result (httpHandler SamlSpec.pending) :=
  newHandler saml_auth (plain_config None) (mkURL "https" "app.example.com" false "" "" "" "") "/api/auth" "/api/account".

Lemma saml_handler_facts :
  match saml_handler with
  | Ok h => String.eqb (sessionMode h) SessionModeCookie && negb (validOrigin h (header identity_provider_posts "Origin")) &&
            originAllowed h identity_provider_posts && bool_decide (is_Some (mux_handler (mux h) identity_provider_posts))
  | Err _ => false
  end = true.
Proof. vm_compute. reflexivity. Qed.

Lemma cross_site_posts_reach_saml_callback_only_witness :
  exists handler, saml_handler = Ok handler /\ mux_handler (mux handler) identity_provider_posts = Some completeSAML.
Proof.
  pose proof saml_handler_facts as Hf. destruct saml_handler as [handler|err] eqn:E; [|discriminate Hf].
  apply andb_true_iff in Hf as [Hf Hm]. apply andb_true_iff in Hf as [Hf Ho]. apply andb_true_iff in Hf as [Hc Hv].
  apply String.eqb_eq in Hc. apply negb_true_iff in Hv. apply bool_decide_eq_true in Hm as [e Hm].
  exists handler. split; [reflexivity|]. rewrite Hm. f_equal.
  exact (cross_site_posts_reach_saml_callback_only saml_auth "/api/auth" "/api/account" (plain_config None)
    (mkURL "https" "app.example.com" false "" "" "" "") handler identity_provider_posts e E Hc eq_refl eq_refl
    ltac:(discriminate) Hv eq_refl Ho Hm).
Defined.
