(* ===== verification/AuthlierProps.v ===== *)
(** * What [New] guarantees of a handler

    A handler that [New] returns is well formed: each route it registers has
    the managers that its method calls, the session manager is the one of the
    session mode, and the options that the handlers rely on are consistent. *)
From S2P Require Import Prelude GoText Base64 EmailAddress GoUrl GoHttp Config Replies Handler Router Authlier RouterProps SignInSpec SystemReference.
From S2P Require Password EmailPassword EmailVerification PasswordReset SessionToken RefreshToken AccessToken BearerSession Totp Passkey GoogleOAuth Oidc Saml.

Section WellFormed.
Context {S : Type} `{Passkey.WebAuthnLibrary}.

(** The managers that the method of an endpoint calls without looking whether
    they are there. *)
Definition has_managers (auth : Auth S) (e : endpoint) : bool :=
  match e with
  | signUp | signIn | changePassword | setPassword | removePassword => present (password auth)
  | signOut | session | listSessions | revokeSession | revokeOtherSessions | revokeSessions => true
  | refreshAccessToken => present (bearerSessions auth)
  | resendVerification | verifyEmailOTP | verifyEmailLink => present (emailVerification auth)
  | forgotPassword | resetPassword => present (passwordReset auth)
  | enableTOTP | confirmTOTP | verifyTOTP | recoverTOTP | disableTOTP => present (totp auth)
  | passkeyRegistrationOptions | verifyPasskeyRegistration | passkeySignInOptions
  | verifyPasskeySignIn | listPasskeys | removePasskey => present (passkeys auth)
  | signInWithGoogle | completeGoogleSignIn | linkGoogle | unlinkGoogle => present (google auth)
  | beginOIDC | completeOIDC => present (oidc auth) && present (resolveOIDCIdentity auth)
  | beginSAML | completeSAML | samlMetadata => present (saml auth) && present (resolveSAMLIdentity auth)
  end.

(** Exactly one session manager, that of the mode; and providers that answer
    with a redirect only where sessions are cookies. *)
Definition mode_ok (auth : Auth S) : Prop :=
  (auth_sessionMode auth = SessionModeCookie /\ present (sessions auth) = true /\ present (bearerSessions auth) = false) \/
  (auth_sessionMode auth = SessionModeBearer /\ present (sessions auth) = false /\ present (bearerSessions auth) = true /\
   google auth = None /\ oidc auth = None /\ saml auth = None).

Record auth_ok (auth : Auth S) : Prop := {
  ok_mode : mode_ok auth;
  ok_fresh : (0 < sessionFreshAge auth)%Z;
  ok_verification : requireEmailVerification auth = true -> present (emailVerification auth) = true;
  ok_reset : present (passwordReset auth) = true -> present (password auth) = true;
  ok_signs_in : present (password auth) || present (google auth) || present (passkeys auth) ||
                present (oidc auth) || present (saml auth) = true;
  ok_oidc : present (oidc auth) = true -> present (resolveOIDCIdentity auth) = true;
  ok_saml : present (saml auth) = true -> present (resolveSAMLIdentity auth) = true;
}.

(** The attributes of the session cookie; the handler and [Resolve] agree on its name. *)
Definition cookie_ok (h : httpHandler S) : Prop :=
  ck_HttpOnly (cookie h) = true /\ cookieName (auth h) = ck_Name (cookie h) /\ ck_Name (cookie h) <> "" /\
  (sessionMode h = SessionModeCookie -> ck_SameSite (cookie h) = SameSiteNoneMode -> ck_Secure (cookie h) = true).

Record handler_ok (h : httpHandler S) : Prop := {
  ok_auth : auth_ok (auth h);
  ok_same_mode : sessionMode h = auth_sessionMode (auth h);
  ok_routes : Forall (fun r => has_managers (auth h) (rt_Handler r) = true) (mux h);
  ok_cookie : cookie_ok h;
}.

Lemma feature_managers (a : Auth S) (f : feature) rows r : auth_ok a -> In (f, rows) route_table -> In r rows ->
  has_feature a f = true -> has_managers a (row_handler r) = true.
Proof.
  intros Ha Hin Hr Hf. pose proof (ok_oidc _ Ha) as Ho. pose proof (ok_saml _ Ha) as Hs.
  unfold has_feature in Hf. simpl in Hin.
  repeat (destruct Hin as [Hin|Hin]; [injection Hin as <- <-; simpl in Hr, Hf;
    repeat (destruct Hr as [<-|Hr]; [simpl; rewrite ?andb_true_iff in *; tauto|]); destruct Hr|]). destruct Hin.
Qed.

Lemma enabled_managers (a : Auth S) r : auth_ok a -> r ∈ enabled_rows a -> has_managers a (row_handler r) = true.
Proof.
  intros Ha Hr%list_elem_of_In. unfold enabled_rows in Hr. apply in_flat_map in Hr as ([f rows] & Hin & Hr).
  cbn [fst snd] in Hr. destruct (has_feature a f) eqn:Hf; [by eapply feature_managers|done].
Qed.

Lemma registered_managers (a : Auth S) basePath accountBasePath routes crossSite : auth_ok a ->
  registered a basePath accountBasePath = (Some routes, crossSite) ->
  Forall (fun r => has_managers a (rt_Handler r) = true) routes.
Proof.
  intros Ha (-> & _ & _)%registered_inv. apply Forall_forall. intros q Hq%list_elem_of_In.
  apply list_elem_of_fmap in Hq as (r & -> & Hr). pose proof (enabled_managers a r Ha Hr) as Hm.
  by destruct r as [[[? ?] ?] ?].
Qed.

Lemma or_text_nonempty s d : d <> "" -> (if String.eqb (TrimSpace s) "" then d else s) <> "".
Proof. intros Hd. destruct (String.eqb_spec (TrimSpace s) ""); [done|]. by intros ->. Qed.

Lemma newHandler_ok `{NetURL} `{NetIP} (a : Auth S) config baseURL basePath accountBasePath h :
  auth_ok a -> auth_sessionMode a = sc_Mode (c_Session config) ->
  newHandler a config baseURL basePath accountBasePath = Ok h ->
  handler_ok h /\ head (allowedOrigins h) = Some (origin_of baseURL) /\
  ck_Secure (cookie h) = String.eqb (Scheme baseURL) "https".
Proof.
  intros Ha Hmode Hn. unfold newHandler in Hn.
  destruct (parseOrigins _) as [trusted|]; [|done]. destruct (parseTrustedProxies _) as [proxies|]; [|done].
  assert (Hsame : (if String.eqb (sc_Mode (c_Session config)) "" then SessionModeCookie else sc_Mode (c_Session config)) =
                  auth_sessionMode a).
  { rewrite <- Hmode. by destruct (ok_mode _ Ha) as [(-> & _)|(-> & _)]. }
  rewrite Hsame in Hn. destruct (_ && _ && _) eqn:Hsecure; [done|].
  destruct (registered _ basePath accountBasePath) as [[routes|] crossSite] eqn:Hr; [|done].
  injection Hn as <-. split; [|done]. constructor; cbn [auth sessionMode mux cookie allowedOrigins].
  - destruct Ha. by constructor.
  - done.
  - eapply registered_managers; [|exact Hr]. destruct Ha. by constructor.
  - unfold cookie_ok. cbn [auth sessionMode cookie sessionCookie ck_HttpOnly ck_Name ck_SameSite ck_Secure].
    split_and!; [done|done|by apply or_text_nonempty|]. intros Hm Hn. unfold sessionCookie in Hsecure.
    cbn [ck_SameSite] in Hsecure. rewrite Hm, Hn in Hsecure. by destruct (String.eqb (Scheme baseURL) "https").
Qed.
End WellFormed.

(** ** The checks of a configuration *)
Ltac next_check name :=
  match goal with |- (if ?check then _ else _) = Ok _ -> _ => destruct check eqn:name; [done|] end.

Section New.
Context {S : Type} `{Env} `{GoTables} `{NetURL} `{Password.PasswordHashes} `{AccessToken.JWT} `{Totp.OtpLibrary}
  `{Passkey.WebAuthnLibrary} `{Saml.X509} `{GoogleOAuth.GoogleLibraries S} `{Oidc.OIDCLibraries S} `{Saml.SAMLLibraries S}.

(** What a configuration that passes says of its features. *)
Record config_ok (config : Config S) (baseURL : URL) : Prop := {
  conf_base : url_Parse (TrimSpace (BaseURL config)) = Some baseURL;
  conf_signs_in : ep_Enabled (c_EmailAndPassword config) || gc_Enabled (c_Google config) ||
    pk_Enabled (c_Passkeys config) || oc_Enabled (c_OIDC config) || sm_Enabled (c_SAML config) = true;
  conf_verification : ep_RequireEmailVerification (c_EmailAndPassword config) = true -> ev_Enabled (c_EmailVerification config) = true;
  conf_reset : pr_Enabled (c_PasswordReset config) = true -> ep_Enabled (c_EmailAndPassword config) = true;
  conf_fresh : (0 < sc_FreshAge (c_Session config))%Z;
  conf_mode : sc_Mode (c_Session config) = SessionModeCookie \/
    (sc_Mode (c_Session config) = SessionModeBearer /\ gc_Enabled (c_Google config) = false /\
     oc_Enabled (c_OIDC config) = false /\ sm_Enabled (c_SAML config) = false);
}.

Lemma checkConfig_ok (config : Config S) baseURL basePath accountBasePath :
  checkConfig config = Ok (baseURL, basePath, accountBasePath) -> config_ok config baseURL.
Proof.
  unfold checkConfig. cbv zeta. destruct (_ || negb (present _)); [done|]. destruct (url_Parse _) as [u|] eqn:Hu; [|done].
  next_check Hurl. next_check Hsign. next_check Hverify. next_check Hreset. next_check Halgorithm. next_check Hpath.
  next_check Hpath'. next_check Hdiffer. next_check Hfresh. next_check Hmode. next_check Hredirect. apply Z.leb_gt in Hfresh.
  intros [= <- _ _].
  constructor; [done| | | |done|].
  - by destruct (ep_Enabled _), (gc_Enabled _), (pk_Enabled _), (oc_Enabled _), (sm_Enabled _).
  - intros E. rewrite E in Hverify. by destruct (ev_Enabled _).
  - intros E. rewrite E in Hreset. by destruct (ep_Enabled _).
  - destruct (String.eqb_spec (sc_Mode (c_Session config)) SessionModeCookie) as [|_]; [by left|].
    destruct (String.eqb_spec (sc_Mode (c_Session config)) SessionModeBearer) as [|_]; [|done]. right.
    by destruct (gc_Enabled _), (oc_Enabled _), (sm_Enabled _).
Qed.

Lemma wp_enabled {A} on (m : M S (result A)) (Q : result (option A) -> World S -> Prop) w :
  (forall o w', present o = on -> Q (Ok o) w') -> (forall err w', Q (Err err) w') -> wp (enabled on m) Q w.
Proof.
  intros Ho He. unfold enabled. destruct on; [|by apply wp_ret, Ho].
  apply wp_bind_ok, wp_run. intros [a|e] w' _; [by apply wp_ret, Ho|apply He].
Qed.

Lemma present_fmap {A B} (f : A -> B) (o : option A) : present (f <$> o) = present o.
Proof. by destruct o. Qed.

(** The identity resolvers are asked for with their managers. *)
Lemma newOIDC_resolver (config : OIDCConfig S) memory stores w manager w' :
  newOIDC config memory stores w = (Ok manager, w') -> present (oc_ResolveIdentity config) = true.
Proof.
  unfold newOIDC, required. destruct (st_OIDC stores), (oc_Connections config), (oc_ResolveIdentity config); done.
Qed.

Lemma newSAML_resolver (config : SAMLConfig S) stores w manager w' :
  newSAML config stores w = (Ok manager, w') -> present (sm_ResolveIdentity config) = true.
Proof.
  unfold newSAML, required. destruct (st_SAML stores), (sm_Connections config), (sm_ResolveIdentity config); done.
Qed.

Lemma wp_enabled_run {A} on (m : M S (result A)) (Q : result (option A) -> World S -> Prop) w :
  (forall o w', present o = on -> (on = true -> exists a v v', m v = (Ok a, v')) -> Q (Ok o) w') ->
  (forall err w', Q (Err err) w') -> wp (enabled on m) Q w.
Proof.
  intros Ho He. unfold enabled. destruct on; [|by apply wp_ret, Ho].
  apply wp_bind_ok, wp_run. intros [a|e] w' E; [apply wp_ret, Ho; [done|by exists a, w, w']|apply He].
Qed.

(** C5: a handler that [New] returns is well formed, whatever the configuration,
    the stores and the libraries: every registered route has the managers its
    method uses; exactly the session manager of the mode is there, and bearer
    sessions come without the providers that answer with a redirect; required
    verification has its manager, password reset has passwords, at least one
    way to sign in is enabled, and sensitive operations have a positive age; the
    cookie is HttpOnly, Secure exactly when the base URL is HTTPS and always
    with SameSite=None, has a name, the one [Resolve] reads; and the origin of
    the base URL is allowed. *)
Theorem New_returns_well_formed_handler `{NetIP} config (memory : ProviderMemory S) w :
  wp (New_ config memory) (fun r _ => forall h, r = Ok h ->
    handler_ok h /\ exists baseURL, url_Parse (TrimSpace (BaseURL config)) = Some baseURL /\
      head (allowedOrigins h) = Some (origin_of baseURL) /\
      ck_Secure (cookie h) = String.eqb (Scheme baseURL) "https") w.
Proof.
  unfold New_. set (c := applyConfigDefaults config). apply wp_bind_ok, wp_ret.
  destruct (checkConfig c) as [[[baseURL basePath] accountBasePath]|e] eqn:Hc; [|done].
  apply checkConfig_ok in Hc as [Hbase Hsign Hverify Hreset Hfresh Hmode]. change (BaseURL c) with (BaseURL config) in Hbase.
  cbv beta zeta iota. unfold required at 1. destruct (c_Database c) as [database|]; [|by apply wp_ret].
  set (mode := String.eqb (sc_Mode (c_Session c)) SessionModeCookie).
  apply wp_bind_ok, wp_enabled; [intros password ? Hpassword|done].
  apply wp_bind_ok, wp_enabled; [intros sessions ? Hsessions|done].
  apply wp_bind_ok, wp_enabled; [intros bearerSessions ? Hbearer|done].
  apply wp_bind_ok, wp_enabled; [intros totp ? _|done].
  apply wp_bind_ok, wp_enabled; [intros passkeys ? Hpasskeys|done].
  apply wp_bind_ok, wp_enabled; [intros google ? Hgoogle|done].
  apply wp_bind_ok, wp_enabled_run; [intros oidc ? Hoidc Hresolve|done].
  apply wp_bind_ok, wp_enabled_run; [intros saml ? Hsaml Hresolve'|done].
  apply wp_bind_ok, wp_enabled; [intros emailVerification ? Hverification|done].
  apply wp_bind_ok, wp_enabled; [intros passwordReset ? Hpr|done].
  apply wp_ret. intros h Hh. apply newHandler_ok in Hh as (Hok & Ho & Hs); [by split; [|exists baseURL]|..|done].
  clearbody c. unfold mode in *. constructor; cbn; rewrite ?present_fmap, ?Hoidc, ?Hsaml, ?Hpr, ?Hpassword, ?Hverification;
    [|done|done|done| | |].
  - destruct Hmode as [E|(E & Eg & Eo & Es)]; rewrite E in *; [by left|right].
    rewrite Eg, Eo, Es in *. by destruct google, oidc, saml.
  - by rewrite Hgoogle, Hpasskeys.
  - intros E. rewrite E. destruct (Hresolve E) as (a & v & v' & Ha). by apply newOIDC_resolver in Ha.
  - intros E. rewrite E. destruct (Hresolve' E) as (a & v & v' & Ha). by apply newSAML_resolver in Ha.
Qed.
End New.

(** ** A run: the application of the reference system *)

(** Libraries of features that are off in it. *)
#[local] Instance no_google : GoogleOAuth.GoogleLibraries system := {|
  GoogleOAuth.Discovery := unit; GoogleOAuth.OAuthToken := unit; GoogleOAuth.IDToken := unit;
  GoogleOAuth.oidc_NewProvider _ := ret (Err ErrParse); GoogleOAuth.oauth2_Exchange _ _ _ _ _ _ _ := ret (Err ErrParse);
  GoogleOAuth.token_id_token _ := None; GoogleOAuth.oidc_Verify _ _ _ := ret (Err ErrParse);
  GoogleOAuth.oidc_Claims _ := Err ErrParse;
|}.

#[local] Instance no_oidc : Oidc.OIDCLibraries system := {|
  Oidc.Provider := unit; Oidc.OAuthToken := unit; Oidc.IDToken := unit; Oidc.oidc_NewProvider _ := ret (Err ErrParse);
  Oidc.provider_Endpoint _ := Oidc.mkEndpoint "" "" ""; Oidc.oauth2_AuthCodeURL _ _ _ _ := "";
  Oidc.oauth2_Exchange _ _ _ := ret (Err ErrParse); Oidc.token_id_token _ := None; Oidc.token_AccessToken _ := "";
  Oidc.oidc_Verify _ _ _ _ := ret (Err ErrParse); Oidc.idtoken_Issuer _ := ""; Oidc.idtoken_Subject _ := "";
  Oidc.idtoken_Nonce _ := ""; Oidc.idtoken_AccessTokenHash _ := ""; Oidc.idtoken_VerifyAccessToken _ _ := Err ErrParse;
  Oidc.idtoken_Claims _ := Err ErrParse;
|}.

#[local] Instance no_saml : Saml.SAMLLibraries system := {|
  Saml.EntityDescriptor := unit; Saml.AuthnRequest := unit; Saml.HTTPRedirectBinding := ""; Saml.HTTPPostBinding := "";
  Saml.PersistentNameIDFormat := ""; Saml.RSASHA256SignatureMethod := ""; Saml.ECDSASHA256SignatureMethod := "";
  Saml.samlsp_ParseMetadata _ := Err ErrParse; Saml.sp_GetSSOBindingLocation _ _ := "";
  Saml.sp_MakeAuthenticationRequest _ _ _ _ := ret (Err ErrParse); Saml.authn_ID _ := "";
  Saml.authn_Redirect _ _ _ := ret (Err ErrParse); Saml.sp_ParseResponse _ _ _ := ret (Err ErrParse);
  Saml.sp_Metadata _ := ret tt; Saml.xml_MarshalIndent _ := Err ErrParse;
|}.

Definition no_memory : ProviderMemory system := {|
  google_get _ := None; google_set _ s := s; oidc_get _ := ∅; oidc_set _ s := s;
|}.

Definition system_database : Database system :=
  mkDatabase (ret (Ok tt))
    (mkStores (Some (mkEmailPasswordStore sys_email_store sys_credential_store)) None None None None None None None
       (Some sys_session_store) (Some sys_factor_store) None).

Definition configured : result (httpHandler system) :=
  fst (New_ (plain_config (Some system_database)) no_memory (demo_world empty_system)).

(** [New] accepts the configuration, and its handler signs alice up and in. *)
Example configured_signs_in :
  match configured with
  | Ok h =>
      let up := serve 0 h (post "/api/auth/sign-up" alice_credentials "") (demo_world empty_system) in
      let again := serve 0 h (post "/api/auth/sign-in" alice_credentials "") (snd up) in
      (status (fst up), status (fst again), length (mux h)) = (201%Z, 200%Z, 16)
  | Err _ => False
  end.
Proof. vm_compute. reflexivity. Qed.

(** Without a database, [New] refuses. *)
Example unconfigured_refused :
  is_ok (fst (New_ (plain_config None) no_memory (demo_world empty_system))) = false.
Proof. vm_compute. reflexivity. Qed.
