(* ===== verification/SignInProps.v ===== *)
(** * The theorem on signing in with a password *)
From S2P Require Import Prelude GoText Base64 EmailAddress GoUrl GoHttp Config Replies Handler HandlerMethods SignInSpec SystemReference AccountSpec.
From S2P Require Password EmailPassword EmailPasswordSpec EmailVerification SessionToken AccessToken BearerSession Totp TotpSpec Passkey Token.

Section SignIn.
Context {S : Type} `{Env} `{GoTables} `{Password.PasswordHashes} `{AccessToken.JWT} `{Passkey.WebAuthnLibrary} `{NetIP}
  `{RequestDecoders} (handler : httpHandler S).
Context (wf : S -> Prop) (acct : S -> accounts) (fac : S -> TotpSpec.factors).
Context `{!SignInBackend handler wf acct fac}.

(** The request proves what the configuration asks for: the password of the
    user with its address, that this address is verified where that is
    required, and that no second factor is enabled. *)
Definition sign_in_allowed (request : Request) (s : S) (subject : string) : Prop :=
  exists input rest m email h v,
    json_Decode (r_Body request) = Some (input, rest) /\ password (auth handler) = Some m /\
    EmailPassword.normalizeAndValidateEmail m (cred_Email input) = Ok email /\ has_email subject email (acct s) /\
    hashes (acct s) !! subject = Some h /\
    EmailPassword.pw_Verify (EmailPassword.passwords m) (cred_Password input) h = Ok v /\ Password.Matches v = true /\
    (requireEmailVerification (auth handler) = true ->
       exists a, users (acct s) !! subject = Some a /\ acc_Verified a = true) /\
    (totp (auth handler) <> None -> TotpSpec.enabled (fac s) !! TrimSpace subject = None).

(** The answer names the user and the session, which is that user's. *)
Definition answers_session (rw : ResponseWriter reply) (subject : string) : Prop :=
  exists email details tokens,
    body rw = [JSON (reply_user (mkUserResponse (mkUserDetails subject email) (Some details) tokens))] /\
    details_SubjectID details = subject.

Lemma signed_in_users (m : EmailPassword.Manager S) input r s s' : EmailPasswordSpec.signed_in m input r s s' -> users s' = users s.
Proof.
  intros (email & h & v & _ & _ & _ & _ & _ & _ & _ & Hs). destruct (Password.NeedsRehash v); [|by subst].
  by destruct Hs as (h' & _ & ->).
Qed.

Lemma verified_user email subject s : accounts_inv s -> has_email subject email s -> verified email s ->
  exists a, users s !! subject = Some a /\ acc_Verified a = true.
Proof.
  intros Hinv Hhas (id & a & Ha & He & Hv). assert (id = subject) as -> by (eapply inv_unique; [done|by exists a|done]). eauto.
Qed.

Lemma wp_readCredentials request (Q : option credentialsRequest -> World (S * ResponseWriter reply) -> Prop) w :
  blank (snd (ext w)) ->
  (forall input rest, json_Decode (r_Body request) = Some (input, rest) -> Q (Some input) w) ->
  (forall w', ~ grants (snd (ext w')) -> Q None w') -> wp (readCredentials request) Q w.
Proof.
  intros Hb Hok Hno. unfold readCredentials, readJSON. destruct (json_Decode _) as [[input rest]|] eqn:Hd;
    [|by apply wp_end; [apply wp_refuse_error|]].
  destruct (_ && _); [by eapply wp_ret, Hok|by apply wp_end; [apply wp_refuse_error|]].
Qed.

(** C2: the sign-in route grants a session, in its body or as a cookie, only to
    a request with the password of the account, which the stored hash verifies,
    whose address is verified when that is required and for whom no second
    factor is enabled; the session granted is that user's. Attempt guards,
    event sinks and mail senders have no say in it, and neither has the
    replacement of an outdated hash on the way. *)
Theorem sign_in_needs_every_proof request w :
  wf (ext w) ->
  wp (scope fresh_response (signInHandler handler request)) (fun r _ =>
    grants (snd r) -> exists subject, answers_session (snd r) subject /\ sign_in_allowed request (ext w) subject) w.
Proof.
  intros Hwf. apply wp_scope. unfold signInHandler. apply wp_bind, wp_readCredentials; [done| |by intros; apply wp_ret].
  intros input rest Hd. cbn beta iota. apply wp_bind, wp_outer. unfold with_manager at 1.
  destruct (password (auth handler)) as [m|] eqn:Hm;
    [|apply wp_ret; eapply wp_mono; [by apply wp_refuse_authentication|]; by intros].
  pose proof (backend_password m (fac (ext w)) Hm) as Hb.
  eapply wp_mono; [by apply (EmailPasswordSpec.wp_Login m _ acct (EmailPasswordBackend0 := Hb))|].
  intros [login|e] w1 [[Hwf1 Hf1] Hlogin];
    [|eapply wp_mono; [by apply wp_refuse_authentication|]; by intros].
  cbn in Hwf1, Hf1, Hlogin. pose proof (signed_in_users _ _ _ _ _ Hlogin) as Hu1.
  destruct Hlogin as (email & h & v & Hn & He & Hhas & Hh & Hv & Hmatch & _). cbn in Hn, Hv.
  apply wp_bind. rewrite He. eapply wp_mono; [by eapply wp_requireVerified|].
  intros [[]|] w2; [|by intros Hg; apply wp_ret]. intros [(Hb2 & Hwf2 & Ha2 & Hf2) Hver]. cbn beta iota.
  apply wp_bind. eapply wp_mono; [by eapply wp_requireNoSecondFactor|].
  intros [[]|] w3; [|by intros Hg; apply wp_ret]. intros [Hb3 Hfac]. cbn beta iota.
  apply wp_bind. eapply wp_mono; [by apply wp_issueSession|].
  intros [[details tokens]|] w4; [|by intros Hg; apply wp_ret]. intros (Hsub & Hs & Hbody).
  destruct w4 as [t d u [s [l se bo]]]. simpl in Hs, Hbody. subst se bo. unfold wp. cbn. intros _.
  exists (EmailPassword.ID (EmailPassword.login_User login)). split; [by repeat eexists|].
  exists input, rest, m, email, h, v. split_and!; try done.
  - intros Hr. specialize (Hver Hr). cbn in Hver. eapply verified_user; [by apply backend_accounts|done|].
    destruct Hver as (id & a & Ha & Hver). exists id, a. by rewrite <- Hu1.
  - intros Ht. specialize (Hfac Ht). rewrite Hf2 in Hfac. cbn in Hfac. by rewrite <- Hf1.
Qed.
End SignIn.

Lemma sign_in_needs_every_proof_witness :
  let request := post "/api/auth/sign-in" alice_credentials "" in
  exists subject, sign_in_allowed sys_handler sys_accounts sys_factors request (ext (snd sys_signed_up)) subject.
Proof.
  intros request.
  pose proof (sign_in_needs_every_proof sys_handler system_wf sys_accounts sys_factors request (snd sys_signed_up) (proj1 alice_wf)) as Ht.
  destruct Ht as (subject & _ & Ha).
  - right. destruct (fst (scope fresh_response (signInHandler sys_handler request) (snd sys_signed_up))) as [[] rw] eqn:E.
    assert (Hs : bool_decide (Exists (fun p => set_cookies (snd p) <> [])
      (sent (snd (fst (scope fresh_response (signInHandler sys_handler request) (snd sys_signed_up)))))) = true).
    { vm_compute. reflexivity. }
    apply bool_decide_eq_true, Exists_exists in Hs as ([code h] & Hin & Hh). exists code, h. rewrite E in Hin. split; assumption.
  - exists subject. exact Ha.
Defined.

(** * The session cookie comes back

    What a browser sends in its [Cookie] header, and that the cookie set for a
    session is the one that the next request is resolved by. *)

(** ** The header of a browser *)
Definition cookie_pair (p : string * string) : string := fst p +:+ String "=" (snd p).

(** The pairs, with ["; "] between them. *)
Fixpoint cookie_header (pairs : list (string * string)) : string :=
  match pairs with
  | [] => ""
  | [p] => cookie_pair p
  | p :: pairs => cookie_pair p +:+ String ";" (String " " (cookie_header pairs))
  end.

(** The bytes that a cookie value may have without quotes. *)
Definition cookie_octet (a : ascii) : bool :=
  byte_in 33 126 a && negb (existsb (Ascii.eqb a) [quote; ";"%char; ascii_of_N 92]).

Definition sendable (p : string * string) : Prop :=
  isToken (fst p) = true /\ forallb cookie_octet (list_of_string (snd p)) = true.

(** ** Bytes *)
Lemma token_byte_octet a : token_byte a = true ->
  ascii_space a = false /\ Ascii.eqb ";" a = false /\ Ascii.eqb "=" a = false.
Proof. by destruct a as [[] [] [] [] [] [] [] []]. Qed.

Lemma cookie_octet_value a : cookie_octet a = true ->
  ascii_space a = false /\ Ascii.eqb ";" a = false /\ validCookieValueByte a = true /\ Ascii.eqb a quote = false.
Proof. by destruct a as [[] [] [] [] [] [] [] []]. Qed.

Lemma token_bytes_octets b : forallb token_byte (list_of_string b) = true ->
  byte_occurs ";" b = false /\ byte_occurs "=" b = false.
Proof.
  induction b as [|a b IH]; [done|]. cbn [list_of_string forallb byte_occurs].
  intros [Ha Hb]%andb_true_iff. destruct (token_byte_octet a Ha) as (_ & -> & ->). by apply IH.
Qed.

Lemma octets_no_semicolon b : forallb cookie_octet (list_of_string b) = true -> byte_occurs ";" b = false.
Proof.
  induction b as [|a b IH]; [done|]. cbn [list_of_string forallb byte_occurs].
  intros [Ha Hb]%andb_true_iff. destruct (cookie_octet_value a Ha) as (_ & -> & _). by apply IH.
Qed.

(** ** Trimming *)
Definition starts (l : list ascii) : Prop := exists a m, l = a :: m /\ ascii_space a = false.

Lemma starts_app l k : starts l -> starts (l ++ k).
Proof. intros (a & m & -> & Ha). by exists a, (m ++ k). Qed.

Lemma drop_spaces_starts l : starts l -> drop_spaces l = l.
Proof. intros (a & m & -> & Ha). simpl. by rewrite Ha. Qed.

(** A text without space at either end. *)
Definition tight (s : string) : Prop := starts (list_of_string s) /\ starts (rev (list_of_string s)).

Lemma TrimString_tight s : tight s -> TrimString s = s.
Proof.
  intros [Hs He]. unfold TrimString. rewrite (drop_spaces_starts (list_of_string s)) by done.
  rewrite drop_spaces_starts by done. by rewrite rev_involutive, string_of_list_of_string.
Qed.

Lemma bytes_of_app s t : list_of_string (s +:+ t) = list_of_string s ++ list_of_string t.
Proof. induction s as [|a s IH]; [done|]. exact (f_equal (cons a) IH). Qed.

Lemma tight_app s t : tight s -> tight t -> tight (s +:+ t).
Proof.
  intros [Hs _] [_ Ht]. split; rewrite bytes_of_app; [by apply starts_app|].
  rewrite rev_app_distr. by apply starts_app.
Qed.

Lemma tight_token s : isToken s = true -> tight s.
Proof.
  unfold isToken. intros [Hne Hs]%andb_true_iff.
  assert (Hall : Forall (fun a => ascii_space a = false) (list_of_string s)).
  { apply Forall_forall. intros a Ha. apply token_byte_octet. exact (proj1 (forallb_forall _ _) Hs a Ha). }
  assert (Hd : forall l, Forall (fun a => ascii_space a = false) l -> l <> [] -> starts l).
  { intros [|a l] Hl Hn; [done|]. exists a, l. by inversion Hl. }
  split; apply Hd; [done|by destruct s|by apply Forall_rev|].
  intros Hr. apply (f_equal (@rev _)) in Hr. rewrite rev_involutive in Hr. by destruct s.
Qed.

Lemma tight_pair p : sendable p -> tight (cookie_pair p).
Proof.
  destruct p as [n v]. intros [Hn Hv]. unfold cookie_pair. simpl in *. apply tight_token in Hn as [Hn _].
  split; rewrite bytes_of_app; [by apply starts_app|]. rewrite rev_app_distr. apply starts_app. simpl.
  destruct (rev (list_of_string v)) as [|a m] eqn:Hr; [by exists "="%char, []|]. exists a, (m ++ ["="%char]).
  split; [done|]. apply cookie_octet_value. apply (proj1 (forallb_forall _ _) Hv), in_rev. rewrite Hr. by left.
Qed.

Lemma tight_header p pairs : Forall sendable (p :: pairs) -> tight (cookie_header (p :: pairs)).
Proof.
  revert p. induction pairs as [|q pairs IH]; intros p Hp; inversion Hp; subst; [by apply tight_pair|].
  change (cookie_header _) with (cookie_pair p +:+ String ";" (String " " (cookie_header (q :: pairs)))).
  destruct (tight_pair p) as [Hs _]; [done|]. destruct (IH q) as [_ He]; [done|].
  split; rewrite bytes_of_app; [by apply starts_app|]. rewrite rev_app_distr. apply starts_app.
  cbn [list_of_string rev]. rewrite <- app_assoc. by apply starts_app.
Qed.

(** ** Parsing what was sent *)
Lemma unquoted_octets v : forallb cookie_octet (list_of_string v) = true -> unquoted v = v.
Proof.
  destruct v as [|a v]; [done|]. cbn [list_of_string forallb unquoted]. intros [Ha _]%andb_true_iff.
  by destruct (cookie_octet_value a Ha) as (_ & _ & _ & ->).
Qed.

Lemma parseCookieValue_octets v : forallb cookie_octet (list_of_string v) = true -> parseCookieValue v = Some v.
Proof.
  intros Hv. unfold parseCookieValue. rewrite unquoted_octets by done.
  replace (forallb validCookieValueByte (list_of_string v)) with true; [done|]. symmetry.
  apply forallb_forall. intros a Ha. apply cookie_octet_value. exact (proj1 (forallb_forall _ _) Hv a Ha).
Qed.

Lemma cookie_part_pair name p part : sendable p -> TrimString part = cookie_pair p ->
  cookie_part name part = if String.eqb (fst p) name then Some (snd p) else None.
Proof.
  destruct p as [n v]. intros [Hn Hv] Hpart. unfold cookie_part. rewrite Hpart. unfold cookie_pair. cbn [fst snd] in *.
  assert (Htok : isToken n = true) by done. unfold isToken in Hn. apply andb_true_iff in Hn as [Hne Hb].
  destruct (String.eqb_spec (n +:+ String "=" v) "") as [He|_]; [by destruct n|].
  rewrite Cut_app by by apply token_bytes_octets. cbv zeta beta iota. rewrite TrimString_tight by by apply tight_token.
  rewrite Htok. cbn [negb orb]. destruct (String.eqb n name); [|done]. by apply parseCookieValue_octets.
Qed.

Lemma pair_no_semicolon p : sendable p -> byte_occurs ";" (cookie_pair p) = false.
Proof.
  destruct p as [n v]. intros [Hn Hv]. unfold cookie_pair. simpl in *. rewrite byte_occurs_app.
  apply andb_true_iff in Hn as [_ Hn]. rewrite (proj1 (token_bytes_octets n Hn)). simpl. by apply octets_no_semicolon.
Qed.

Lemma Split_blank s : Split (String " " s) ";" = match Split s ";" with q :: l => String " " q :: l | [] => [] end.
Proof.
  unfold Split. cbn [split_from]. change (HasPrefix (String " " s) ";") with false. cbn beta iota.
  destruct (split_from s ";" 0) eqn:E; [|done]. by apply split_from_nonempty in E.
Qed.

Lemma cookie_part_blank name part : cookie_part name (String " " part) = cookie_part name part.
Proof. done. Qed.

(** The values under a name, in order. *)
Definition sent_values (name : string) (pairs : list (string * string)) : list string :=
  omap (fun p => if String.eqb (fst p) name then Some (snd p) else None) pairs.

Lemma omap_cons_eq {A B} (f : A -> option B) x l : omap f (x :: l) = match f x with Some y => y :: omap f l | None => omap f l end.
Proof. done. Qed.

Lemma Split_header name p pairs : Forall sendable (p :: pairs) ->
  omap (cookie_part name) (Split (cookie_header (p :: pairs)) ";") = sent_values name (p :: pairs).
Proof.
  revert p. induction pairs as [|q pairs IH]; intros p Hp; inversion Hp as [|? ? Hsend Hrest]; subst.
  - cbn [cookie_header]. rewrite Split_last by by apply pair_no_semicolon. unfold sent_values. rewrite !omap_cons_eq.
    by rewrite (cookie_part_pair name p) by (try done; by apply TrimString_tight, tight_pair).
  - change (cookie_header _) with (cookie_pair p +:+ String ";" (String " " (cookie_header (q :: pairs)))).
    rewrite Split_cons by by apply pair_no_semicolon. unfold sent_values. rewrite !(omap_cons_eq _ p), omap_cons_eq.
    rewrite (cookie_part_pair name p) by (try done; by apply TrimString_tight, tight_pair).
    fold (sent_values name (q :: pairs)). rewrite <- (IH q Hrest), Split_blank.
    by destruct (Split (cookie_header (q :: pairs)) ";").
Qed.

Lemma request_Cookie_sent request name pairs :
  Forall sendable pairs -> pairs <> [] -> name <> "" -> r_Header request !! "Cookie" = Some [cookie_header pairs] ->
  request_Cookie request name = match sent_values name pairs with value :: _ => Ok value | [] => Err ErrNoCookie end.
Proof.
  intros Hp Hne Hn Hh. unfold request_Cookie. destruct (String.eqb_spec name ""); [done|]. rewrite Hh.
  destruct pairs as [|p pairs]; [done|]. unfold readCookies. cbn [default from_option Datatypes.id List.flat_map].
  rewrite app_nil_r, TrimString_tight by by apply tight_header. by rewrite Split_header.
Qed.

(** The [Cookie] header is parsed back: of the pairs that a browser sends,
    names that are tokens with values of cookie bytes, [request.Cookie] finds
    the first one under a name, and none where there is none. *)
Theorem request_Cookie_parses_header request name pairs :
  Forall sendable pairs -> pairs <> [] -> name <> "" -> r_Header request !! "Cookie" = Some [cookie_header pairs] ->
  request_Cookie request name = match sent_values name pairs with value :: _ => Ok value | [] => Err ErrNoCookie end.
Proof. apply request_Cookie_sent. Qed.

(** ** Session tokens *)
Lemma encode_sextet_octet enc s : cookie_octet (encode_sextet enc s) = true.
Proof. by destruct enc, s as [[[[[[] []] []] []] []] []]. Qed.

Lemma EncodeToString_octets enc s : forallb cookie_octet (list_of_string (EncodeToString enc s)) = true.
Proof.
  unfold EncodeToString. rewrite list_of_string_of_list, encode_bytes_sextets.
  induction (sextets_of (list_of_string s)) as [|x l IH]; [done|]. rewrite fmap_cons. cbn [forallb].
  by rewrite encode_sextet_octet, IH.
Qed.

Section RoundTrip.
Context {S : Type} `{Env} `{AccessToken.JWT} `{Passkey.WebAuthnLibrary} (handler : httpHandler S) (m : SessionToken.Manager S).

Lemma wp_Create_token subject w :
  wp (SessionToken.Create m subject) (fun r _ => forall i, r = Ok i ->
    forallb cookie_octet (list_of_string (SessionToken.issued_Token i)) = true) w.
Proof.
  unfold SessionToken.Create. destruct (String.eqb _ ""); [by apply wp_ret|].
  apply (wp_for_range _ _ _ _ (fun _ => True)); [done| |by intros; apply wp_ret].
  intros v _. apply wp_bind. unfold SessionToken.newIssued.
  apply wp_bind_ok, wp_run. intros [id|e] w1 _; [|by apply wp_ret].
  apply wp_bind_ok, wp_wrapped. unfold Token.Generate. apply wp_bind_ok, wp_run. intros [random|e] w2 _; [|by apply wp_ret].
  apply wp_ret. cbn [wrapf]. apply wp_bind, wp_run. intros now w3 _. apply wp_ret. cbn beta iota.
  apply wp_bind, wp_run. intros [[]|e] w4 _; [|by destruct (errors_Is _ _); apply wp_ret].
  apply wp_bind, wp_run. intros [] w5 _. apply wp_ret. intros i [= <-]. apply EncodeToString_octets.
Qed.

Lemma sent_values_first name value before after :
  ~ In name (fst <$> before) -> sent_values name (before ++ (name, value) :: after) = value :: sent_values name after.
Proof.
  unfold sent_values. induction before as [|[n v] before IH]; intros Hn.
  - cbn [app]. rewrite omap_cons_eq. cbn [fst snd]. by rewrite String.eqb_refl.
  - cbn [app]. rewrite omap_cons_eq. cbn [fst snd]. destruct (String.eqb_spec n name) as [->|_]; [by destruct Hn; left|].
    apply IH. intros Hin. apply Hn. by right.
Qed.

(** C24: a session cookie comes back. In cookie mode, when the handler issues a
    session, the header gets one cookie more, that of the configuration with the
    session's token as its value; and a request of a browser that sends this
    cookie, among any others but before any other of that name, is resolved by
    that token: its session is what the session manager says of it. *)
Theorem issued_cookie_resolves subject details tokens w w' :
  sessionMode handler = SessionModeCookie -> auth_sessionMode (auth handler) = SessionModeCookie ->
  sessions (auth handler) = Some m -> cookieName (auth handler) = ck_Name (cookie handler) ->
  isToken (ck_Name (cookie handler)) = true ->
  issueSession handler subject w = (Some (details, tokens), w') ->
  exists issued expires,
    details = newSessionDetails (session_of_record (SessionToken.issued_Record issued)) /\ tokens = None /\
    let c := set_cookie_value (SessionToken.issued_Token issued) expires (cookie handler) in
    set_cookies (live (snd (ext w'))) = set_cookies (live (snd (ext w))) ++ [c] /\
    forall request before after,
      Forall sendable before -> Forall sendable after -> ~ In (ck_Name c) (fst <$> before) ->
      r_Header request !! "Cookie" = Some [cookie_header (before ++ (ck_Name c, ck_Value c) :: after)] ->
      ResolveSession (auth handler) request =
        (record <-? SessionToken.Resolve m (SessionToken.issued_Token issued) ;; ret (Ok (session_of_record record))).
Proof.
  intros Hm Hm' Hs Hname Htok E. unfold issueSession in E. rewrite Hm in E. change (String.eqb SessionModeCookie SessionModeBearer) with false in E.
  cbn beta iota in E. rewrite Hs in E. unfold with_manager, bind at 1, outer in E.
  destruct (SessionToken.Create m subject (drop_local w)) as [[issued|e] v] eqn:Ec; [|by injection E].
  pose proof (wp_elim _ _ _ _ _ (wp_Create_token subject (drop_local w)) Ec issued eq_refl) as Ht.
  unfold setSession, SetCookie in E. change (ck_Name (set_cookie_value ?a ?b ?c)) with (ck_Name c) in E. rewrite Htok in E.
  injection E as <- <- <-. eexists issued, _. split_and!; [done|done|]. cbv zeta. split; [done|].
  intros request before after Hb Ha Hn Hh. unfold ResolveSession. rewrite Hm'.
  change (String.eqb SessionModeCookie SessionModeBearer) with false. cbn beta iota. rewrite Hname.
  cbn [set_cookie_value ck_Name ck_Value] in *. assert (Hne : ck_Name (cookie handler) <> "") by (intros He; by rewrite He in Htok).
  rewrite (request_Cookie_sent request (ck_Name (cookie handler))
             (before ++ (ck_Name (cookie handler), SessionToken.issued_Token issued) :: after));
    [|apply Forall_app; split; [done|by constructor]|by destruct before|done|done].
  rewrite sent_values_first by done. by rewrite Hs.
Qed.
End RoundTrip.

(** ** Runs of the theorems *)
Definition browser_pairs : list (string * string) :=
  [("theme", "dark"); ("authlier_session", "tok-1"); ("authlier_session", "tok-2")].

Lemma request_Cookie_parses_header_witness :
  request_Cookie (post "/" "" (cookie_header browser_pairs)) "authlier_session" = Ok "tok-1".
Proof.
  apply (request_Cookie_parses_header _ "authlier_session" browser_pairs); [|discriminate|discriminate|reflexivity].
  repeat constructor.
Defined.

Definition issued_run : option (sessionDetails * option tokenDetails) * World (system * ResponseWriter reply) :=
  issueSession sys_handler "alice" (with_local fresh_response (demo_world empty_system)).

Lemma issued_cookie_resolves_witness :
  exists c m token, set_cookies (live (snd (ext (snd issued_run)))) = [c] /\
    ResolveSession (auth sys_handler) (post "/" "" (cookie_header [("theme", "dark"); (ck_Name c, ck_Value c)])) =
      (record <-? SessionToken.Resolve m token ;; ret (Ok (session_of_record record))).
Proof.
  destruct issued_run as [[[details tokens]|] w'] eqn:E; [|exfalso; vm_compute in E; discriminate E].
  destruct (issued_cookie_resolves sys_handler sys_session_manager "alice" details tokens
    (with_local fresh_response (demo_world empty_system)) w') as (issued & expires & _ & _ & Hc & Hr);
    [reflexivity|reflexivity|reflexivity|reflexivity|reflexivity|exact E|].
  eexists _, sys_session_manager, (SessionToken.issued_Token issued). split; [exact Hc|].
  apply (Hr _ [("theme", "dark")] []); [repeat constructor|constructor|intros [Hin|[]]; discriminate Hin|reflexivity].
Defined.
