(* ===== verification/Redis.v ===== *)
(** * The Redis adapter (storage/redis/redis.go)

    The commands the adapter sends, its transactions, its keys, and the session
    cache. *)
From S2P Require Import Prelude GoText Base64 Sha256 Token SessionToken.
From S2P Require Export GoJson.

Definition ErrInvalidConfig : error := New "redis.ErrInvalidConfig".
Definition ErrTransactionConflict : error := New "redis.ErrTransactionConflict".

(** ** The library github.com/redis/go-redis/v9

    Commands of its interface [Cmdable], with their replies. [HSet], [HDel],
    [SAdd], [SRem] and [Del] are sent in pipelines, [HSet] by itself as well. *)
Definition Nil : error := New "redislibrary.Nil".
Definition TxFailedErr : error := New "redislibrary.TxFailedErr".

Inductive write : Type :=
| HSet (key : string) (values : list (string * string))
| HDel (key : string) (fields : list string)
| SAdd (key : string) (members : list string)
| SRem (key : string) (members : list string)
| Del (key : string).

(** A value of the Go type [any]. *)
Inductive any : Type :=
| any_nil
| any_string (s : string)
| any_bytes (s : string)
| any_other.

Inductive command : Type -> Type :=
| HGet (key field : string) : command (result string)
| HExists (key field : string) : command (result bool)
| HMGet (key : string) (fields : list string) : command (result (list any))
| HSetNX (key field value : string) : command (result bool)
| SMembers (key : string) : command (result (list string))
| SCard (key : string) : command (result nat)
| Ping : command (result unit)
| Send (w : write) : command (result unit)
| TxPipelined (ws : list write) : command (result unit).

(** The commands of the session cache: [Get], [Set] and [Del]. *)
Inductive key_command : Type -> Type :=
| GetKey (key : string) : key_command (result string)
| SetKey (key value : string) (ttl : duration) : key_command (result unit)
| DelKey (key : string) : key_command (result unit).

(** What a function of the adapter does with a [Cmdable], which is the client
    or a transaction: commands, one after the other, and system calls. *)
Inductive syscall : Type -> Type :=
| sys_Now : syscall time
| sys_NewV7 : syscall (result string)
| sys_Rand (n : nat) : syscall (result string).

Inductive prog (A : Type) : Type :=
| Done (a : A)
| Do (X : Type) (c : command X) (k : X -> prog A)
| Call (X : Type) (c : syscall X) (k : X -> prog A).
Arguments Done {A} a.
Arguments Do {A X} c k.
Arguments Call {A X} c k.

Definition cmd {X} (c : command X) : prog X := Do c Done.
Definition sys {X} (c : syscall X) : prog X := Call c Done.

Fixpoint pbind {A B} (p : prog A) (f : A -> prog B) : prog B :=
  match p with
  | Done a => f a
  | Do c k => Do c (fun x => pbind (k x) f)
  | Call c k => Call c (fun x => pbind (k x) f)
  end.

Definition pbind_ok {A B} (p : prog (result A)) (f : A -> prog (result B)) : prog (result B) :=
  pbind p (fun r => match r with Ok a => f a | Err e => Done (Err e) end).

Notation "x <~ p ;; k" := (pbind p (fun x => k)) (at level 100, p at next level, right associativity) : go_scope.
Notation "x <~? p ;; k" := (pbind_ok p (fun x => k)) (at level 100, p at next level, right associativity) : go_scope.

(** The client: how it answers the commands, and [Watch], which runs a function
    of a transaction on the keys it watches. The function may assign variables
    of its caller, of type [L]. *)
Record UniversalClient (S : Type) : Type := mkClient {
  client_Do : forall X : Type, command X -> M S X;
  client_Key : forall X : Type, key_command X -> M S X;
  client_Watch : forall L : Type, list string -> L -> M S (L * result unit) -> M S (L * result unit);
}.
Arguments client_Do {S} _ {X}. Arguments client_Key {S} _ {X}. Arguments client_Watch {S} _ {L}. Arguments mkClient {S}.

Definition system {S} `{Env} {X} (c : syscall X) : M S X :=
  match c with
  | sys_Now => read_now time_Now
  | sys_NewV7 => new_uuid
  | sys_Rand n => rand_Read n
  end.

Fixpoint run {S A} `{Env} (client : UniversalClient S) (p : prog A) : M S A :=
  match p with
  | Done a => ret a
  | Do c k => x <- client_Do client c ;; run client (k x)
  | Call c k => x <- system c ;; run client (k x)
  end.

(** ** The adapter *)
Record SecretCodec (S : Type) : Type := mkSecretCodec {
  Encrypt : string -> M S (result string);
  Decrypt : string -> M S (result string);
}.
Arguments Encrypt {S}. Arguments Decrypt {S}.

Record Config (S : Type) : Type := mkConfig { KeyPrefix : string; Secrets : option (SecretCodec S) }.
Arguments KeyPrefix {S}. Arguments Secrets {S}.

Record Adapter (S : Type) : Type := mkAdapter {
  client : UniversalClient S;
  prefix : string;
  secrets : option (SecretCodec S);
}.
Arguments client {S}. Arguments prefix {S}. Arguments secrets {S}. Arguments mkAdapter {S}.

Definition hashKey (value : string) : string := hex_encode value.

Definition readJSON {A} `{JSON A} (key field : string) : prog (result A) :=
  encoded <~? cmd (HGet key field) ;; Done (json_Unmarshal encoded).

Definition encodeJSON {A} `{JSON A} (value : A) : string := json_Marshal value.

(** The idiom [if err := readJSON(...); errors.Is(err, redis.Nil) { return
    absent } else if err != nil { return err }]. *)
Definition present {A} (absent : error) (r : result A) : result A :=
  match r with
  | Err err => if errors_Is err Nil then Err absent else Err err
  | Ok a => Ok a
  end.

Definition readJSON_or {A} `{JSON A} (absent : error) (key field : string) : prog (result A) :=
  r <~ readJSON key field ;; Done (present absent r).

Section Adapter.
Context {S : Type} `{Env}.

Definition New_ (client : option (UniversalClient S)) (config : Config S) : result (Adapter S) :=
  match client with
  | None => Err (Errorf "%w: client is required" [ErrInvalidConfig])
  | Some client =>
      let prefix := TrimSpace (KeyPrefix config) in
      let prefix := if String.eqb prefix "" then "authlier" else prefix in
      Ok (mkAdapter client ("{" +:+ prefix +:+ "}:") (Secrets config))
  end.

Definition Migrate (adapter : Adapter S) : M S (result unit) := run (client adapter) (cmd Ping).

Definition key (adapter : Adapter S) (name : string) : string := prefix adapter +:+ name.

(** A transaction that another client's write aborts is tried again, sixteen
    times in all. *)
Definition watch {L} (adapter : Adapter S) (keys : list string) (operation : L -> prog (L * result unit)) (l : L) :
    M S (L * result unit) :=
  for_each (seq 0 16) l
    (fun _ l =>
       r <- client_Watch (client adapter) keys l (run (client adapter) (operation l)) ;;
       let '(l, res) := r in
       match res with
       | Err err => if errors_Is err TxFailedErr then ret (Next l) else ret (Return (l, Err err))
       | Ok _ => ret (Return (l, Ok tt))
       end)
    (fun l => ret (l, Err ErrTransactionConflict)).

(** A transaction that assigns no variables of its caller. *)
Definition watch_ (adapter : Adapter S) (keys : list string) (operation : prog (result unit)) : M S (result unit) :=
  r <- watch adapter keys (fun _ : unit => res <~ operation ;; Done (tt, res)) tt ;; ret (snd r).

(** ** The session cache *)
Record SessionCache : Type := mkSessionCache { cache_client : UniversalClient S; cache_prefix : string }.

Definition NewSessionCache (client : option (UniversalClient S)) (keyPrefix : string) : result SessionCache :=
  match client with
  | None => Err (Errorf "%w: client is required" [ErrInvalidConfig])
  | Some client =>
      let keyPrefix := TrimSpace keyPrefix in
      let keyPrefix := if String.eqb keyPrefix "" then "authlier" else keyPrefix in
      Ok (mkSessionCache client (keyPrefix +:+ ":session:"))
  end.

Definition cache_key (cache : SessionCache) (tokenHash : Hash) : string :=
  cache_prefix cache +:+ hex_encode tokenHash.

Definition SessionCache_Get `{JSON SessionRecord} (cache : SessionCache) (tokenHash : Hash) : M S (result SessionRecord) :=
  encoded <- client_Key (cache_client cache) (GetKey (cache_key cache tokenHash)) ;;
  match encoded with
  | Err err => if errors_Is err Nil then ret (Err ErrCacheMiss) else ret (Err err)
  | Ok encoded => ret (json_Unmarshal encoded)
  end.

Definition SessionCache_Set `{JSON SessionRecord} (cache : SessionCache) (record : SessionRecord) (ttl : duration) :
    M S (result unit) :=
  if (ttl <=? 0)%Z then ret (Err (Errorf "%w: TTL must be positive" [ErrInvalidConfig])) else
  client_Key (cache_client cache) (SetKey (cache_key cache (TokenHash record)) (json_Marshal record) ttl).

Definition SessionCache_Delete (cache : SessionCache) (tokenHash : Hash) : M S (result unit) :=
  client_Key (cache_client cache) (DelKey (cache_key cache tokenHash)).

Definition sessionCache `{JSON SessionRecord} (cache : SessionCache) : Cache S :=
  {| cache_Get := SessionCache_Get cache;
     cache_Set := SessionCache_Set cache;
     cache_Delete := SessionCache_Delete cache |}.
End Adapter.
Arguments SessionCache : clear implicits.
