(* ===== verification/RedisSpec.v ===== *)
(** * What Redis promises

    The keyspace, the laws of the client, and two rules for transactions: alone,
    a transaction runs as it is written; among other clients, what it writes it
    writes at one instant, as if it had run there by itself. *)
From S2P Require Import Prelude Redis.

(** ** The keyspace

    Hashes and sets by key; a key that is not there is empty. *)
Record keyspace : Type := mkKeyspace {
  hashes : gmap string (gmap string string);
  sets : gmap string (gset string);
}.

Definition hash_at (k : keyspace) (key : string) : gmap string string := default ∅ (hashes k !! key).
Definition set_at (k : keyspace) (key : string) : gset string := default ∅ (sets k !! key).

Definition put_hash (key : string) (h : gmap string string) (k : keyspace) : keyspace :=
  mkKeyspace (<[key := h]> (hashes k)) (sets k).
Definition put_set (key : string) (s : gset string) (k : keyspace) : keyspace :=
  mkKeyspace (hashes k) (<[key := s]> (sets k)).

Fixpoint hset (values : list (string * string)) (h : gmap string string) : gmap string string :=
  match values with
  | [] => h
  | (field, value) :: values => hset values (<[field := value]> h)
  end.

Fixpoint hdel (fields : list string) (h : gmap string string) : gmap string string :=
  match fields with
  | [] => h
  | field :: fields => hdel fields (delete field h)
  end.

Definition apply_write (k : keyspace) (w : write) : keyspace :=
  match w with
  | HSet key values => put_hash key (hset values (hash_at k key)) k
  | HDel key fields => put_hash key (hdel fields (hash_at k key)) k
  | SAdd key members => put_set key (set_at k key ∪ list_to_set members) k
  | SRem key members => put_set key (set_at k key ∖ list_to_set members) k
  | Del key => put_set key ∅ (put_hash key ∅ k)
  end.

Definition apply_writes (ws : list write) (k : keyspace) : keyspace := fold_left apply_write ws k.

(** The answer to a command at an instant, and the keyspace after it. A command
    that fails changes nothing. *)
Definition answer {X} (k : keyspace) (right_ : X -> Prop) (absent : Prop) (r : result X) : Prop :=
  match r with
  | Ok x => right_ x
  | Err e => errors_Is e TxFailedErr = false /\ (errors_Is e Nil = true -> absent)
  end.

Definition does {X} (c : command X) (k : keyspace) : X -> keyspace -> Prop :=
  match c in command Y return Y -> keyspace -> Prop with
  | HGet key field => fun r k' => k' = k /\
      answer k (fun v => hash_at k key !! field = Some v) (hash_at k key !! field = None) r
  | HExists key field => fun r k' => k' = k /\
      answer k (fun b => b = bool_decide (is_Some (hash_at k key !! field))) False r
  | HMGet key fields => fun r k' => k' = k /\
      answer k (fun values => values = (fun field =>
        match hash_at k key !! field with Some v => any_string v | None => any_nil end) <$> fields) False r
  | HSetNX key field value => fun r k' =>
      match r with
      | Ok true => hash_at k key !! field = None /\ k' = apply_write k (HSet key [(field, value)])
      | Ok false => is_Some (hash_at k key !! field) /\ k' = k
      | Err e => errors_Is e TxFailedErr = false /\ k' = k
      end
  | SMembers key => fun r k' => k' = k /\
      answer k (fun l => NoDup l /\ forall x, x ∈ l <-> x ∈ set_at k key) False r
  | SCard key => fun r k' => k' = k /\ answer k (fun n => n = size (set_at k key)) False r
  | Ping => fun r k' => k' = k /\ answer k (fun _ => True) False r
  | Send w => fun r k' =>
      match r with
      | Ok _ => k' = apply_write k w
      | Err e => errors_Is e TxFailedErr = false /\ k' = k
      end
  | TxPipelined ws => fun r k' =>
      match r with
      | Ok _ => k' = apply_writes ws k
      | Err e => errors_Is e TxFailedErr = false /\ k' = k
      end
  end.

(** The keys a command reads, and whether it writes nothing. *)
Definition read_key {X} (c : command X) : option string :=
  match c with
  | HGet key _ | HExists key _ | HMGet key _ | SMembers key | SCard key => Some key
  | _ => None
  end.

(** ** The run of a program with no other client *)
Fixpoint runs {A} (p : prog A) (k : keyspace) (a : A) (k' : keyspace) : Prop :=
  match p with
  | Done b => a = b /\ k' = k
  | Do c q => exists x k1, does c k x k1 /\ runs (q x) k1 a k'
  | Call _ q => exists x, runs (q x) k a k'
  end.

Lemma runs_bind {A B} (p : prog A) (f : A -> prog B) k b k' :
  runs (pbind p f) k b k' <-> exists a k1, runs p k a k1 /\ runs (f a) k1 b k'.
Proof.
  revert k. induction p as [a|X c q IH|X c q IH]; simpl; intros k.
  - split; [intros Hr; by exists a, k|by intros (? & ? & [-> ->] & ?)].
  - split.
    + intros (x & k1 & Hc & (a & k2 & Hp & Hf)%IH). eauto 8.
    + intros (a & k2 & (x & k1 & Hc & Hp) & Hf). exists x, k1. split; [done|]. apply IH. eauto.
  - split.
    + intros (x & (a & k2 & Hp & Hf)%IH). eauto 8.
    + intros (a & k2 & (x & Hp) & Hf). exists x. apply IH. eauto.
Qed.

Lemma runs_bind_ok {A B} (p : prog (result A)) (f : A -> prog (result B)) k b k' :
  runs (pbind_ok p f) k b k' <->
    (exists a k1, runs p k (Ok a) k1 /\ runs (f a) k1 b k') \/ (exists e, runs p k (Err e) k' /\ b = Err e).
Proof.
  unfold pbind_ok. rewrite runs_bind. split.
  - intros ([a|e] & k1 & Hp & Hf); [left; eauto|right]. simpl in Hf. destruct Hf as [-> ->]. eauto.
  - intros [(a & k1 & Hp & Hf)|(e & Hp & ->)]; [by exists (Ok a), k1|]. by exists (Err e), k'.
Qed.

Lemma runs_cmd {X} (c : command X) k x k' : runs (cmd c) k x k' <-> does c k x k'.
Proof. simpl. split; [intros (? & ? & ? & -> & ->)|intros ?; exists x, k']; done. Qed.

(** Calls that do the same from a world. *)
Lemma wp_same {S A} (m m' : M S A) Q w : m w = m' w -> wp m' Q w -> wp m Q w.
Proof. unfold wp. by intros ->. Qed.

(** ** The laws of the client

    [keys] and [cache] are the hashes and sets, and the string keys, that the
    server holds; [others] is what the other clients do between two commands.
    [watching] are the keys a transaction watches, with the keyspace when it
    began, and [touched] says that one of them was written since. String keys
    may expire at any time. [alone] says that there is no other client. *)
Definition agree (ks : list string) (k k' : keyspace) : Prop :=
  forall key, key ∈ ks -> hash_at k key = hash_at k' key /\ set_at k key = set_at k' key.

(** A transaction that was given up because a watched key was written, and one
    whose writes were made. *)
Definition aborted {X} (c : command X) : X -> Prop :=
  match c in command Y return Y -> Prop with
  | TxPipelined _ => fun r => exists e, r = Err e /\ errors_Is e TxFailedErr = true
  | _ => fun _ => False
  end.
Definition committed {X} (c : command X) : X -> Prop :=
  match c in command Y return Y -> Prop with
  | TxPipelined ws => fun r => ws <> [] /\ is_ok r = true
  | _ => fun _ => False
  end.

Lemma read_not_committed {X} (c : command X) key x : read_key c = Some key -> ~ committed c x.
Proof. destruct c; simpl; intros E Hc; done. Qed.

Class RedisLaws {S : Type} (client : UniversalClient S) (keys : S -> keyspace) (cache : S -> gmap string string)
    (others : keyspace -> keyspace -> Prop) (alone : Prop) := {
  others_refl k : others k k;
  others_trans k1 k2 k3 : others k1 k2 -> others k2 k3 -> others k1 k3;
  watching : S -> option (list string * keyspace);
  touched : S -> bool;
  watch_Begin : list string -> M S (result unit);
  watch_End : M S unit;
  client_Do_law X (c : command X) w :
    wp (client_Do client c) (fun x w' => exists k, others (keys (ext w)) k /\
      (does c k x (keys (ext w')) \/ aborted c x /\ keys (ext w') = k /\ ~ alone) /\
      (read_key c <> None -> watching (ext w') = watching (ext w)) /\
      (touched (ext w') = false \/ committed c x -> touched (ext w) = false /\
         forall ks k0, watching (ext w) = Some (ks, k0) -> agree ks k0 k)) w;
  client_Watch_law L ks (l : L) op w :
    client_Watch client ks l op w =
      (began <- watch_Begin ks ;;
       match began with
       | Err e => ret (l, Err e)
       | Ok _ => r <- op ;; _ <- watch_End ;; ret r
       end) w;
  watch_Begin_law ks w :
    wp (watch_Begin ks) (fun r w' => others (keys (ext w)) (keys (ext w')) /\
      match r with
      | Ok _ => watching (ext w') = Some (ks, keys (ext w'))
      | Err e => errors_Is e TxFailedErr = false
      end) w;
  watch_End_law w : wp watch_End (fun _ w' => others (keys (ext w)) (keys (ext w'))) w;
  (* other commands and clients leave the cache to this client; its keys expire *)
  cache_Do_law X (c : command X) w : wp (client_Do client c) (fun _ w' => cache (ext w') ⊆ cache (ext w)) w;
  cache_Begin_law ks w : wp (watch_Begin ks) (fun _ w' => cache (ext w') ⊆ cache (ext w)) w;
  cache_End_law w : wp watch_End (fun _ w' => cache (ext w') ⊆ cache (ext w)) w;
  client_Get_law key w :
    wp (client_Key client (GetKey key)) (fun r w' => others (keys (ext w)) (keys (ext w')) /\
      cache (ext w') ⊆ cache (ext w) /\ forall v, r = Ok v -> cache (ext w) !! key = Some v) w;
  client_Set_law key value ttl w :
    wp (client_Key client (SetKey key value ttl)) (fun r w' => others (keys (ext w)) (keys (ext w')) /\
      (cache (ext w') ⊆ <[key := value]> (cache (ext w)) \/ cache (ext w') ⊆ cache (ext w))) w;
  client_Del_law key w :
    wp (client_Key client (DelKey key)) (fun r w' => others (keys (ext w)) (keys (ext w')) /\
      cache (ext w') ⊆ cache (ext w) /\ (is_ok r = true -> cache (ext w') !! key = None)) w;
  alone_others k k' : alone -> others k k' -> k' = k;
}.

Lemma agree_refl ks k : agree ks k k.
Proof. done. Qed.
Lemma agree_sym ks k k' : agree ks k k' -> agree ks k' k.
Proof. intros Ha key Hk. destruct (Ha key Hk). by split. Qed.
Lemma agree_trans ks k1 k2 k3 : agree ks k1 k2 -> agree ks k2 k3 -> agree ks k1 k3.
Proof. intros H1 H2 key Hk. destruct (H1 key Hk), (H2 key Hk). split; by etrans. Qed.

(** What a command reads it reads alike where its key is alike. *)
Lemma does_agree {X} (c : command X) key k1 k2 x k' :
  read_key c = Some key -> agree [key] k1 k2 -> does c k1 x k' -> k' = k1 /\ does c k2 x k2.
Proof.
  intros Hr Ha Hd. assert (Hk : hash_at k1 key = hash_at k2 key /\ set_at k1 key = set_at k2 key)
    by (apply Ha; by left).
  destruct Hk as [Hh Hs]. destruct c; simpl in *; try discriminate Hr; injection Hr as ->; destruct Hd as [-> Hd];
    rewrite ?Hh, ?Hs in Hd; done.
Qed.

(** ** Programs of a transaction

    They read what they watch, or what changes only together with it, and end
    after their writes. *)
Section Transactions.
Context (others : keyspace -> keyspace -> Prop).

Definition covered (ks : list string) (key : string) : Prop :=
  forall k k', others k k' -> agree ks k k' -> agree [key] k k'.

Fixpoint transaction {A} (ks : list string) (p : prog A) : Prop :=
  match p with
  | Done _ => True
  | Call _ q => forall x, transaction ks (q x)
  | Do c q =>
      match c with
      | TxPipelined _ => forall x, exists a, q x = Done a
      | _ => exists key, read_key c = Some key /\ covered ks key /\ forall x, transaction ks (q x)
      end
  end.

(** A run that writes nothing, its commands answered at later and later
    instants, from [k] to [k']. *)
Fixpoint idle {A} (p : prog A) (k : keyspace) (a : A) (k' : keyspace) : Prop :=
  match p with
  | Done b => a = b /\ others k k'
  | Call _ q => exists x, idle (q x) k a k'
  | Do c q => exists x k1, others k k1 /\ ~ committed c x /\ (does c k1 x k1 \/ aborted c x) /\ idle (q x) k1 a k'
  end.

Lemma idle_bind {A B} (p : prog A) (f : A -> prog B) k b k' :
  (forall k, others k k) -> idle (pbind p f) k b k' ->
  exists a k1, idle p k a k1 /\ idle (f a) k1 b k'.
Proof.
  intros Hrefl. revert k. induction p as [a|X c q IH|X c q IH]; simpl; intros k.
  - intros Hf. by exists a, k.
  - intros (x & k1 & Ho & Hn & Hd & (a & k2 & Hq & Hf)%IH). exists a, k2. split; [by exists x, k1|done].
  - intros (x & (a & k2 & Hq & Hf)%IH). exists a, k2. split; [by exists x|done].
Qed.

Lemma idle_bind_Done {A B} (p : prog A) (f : A -> B) k b k' :
  idle (pbind p (fun a => Done (f a))) k b k' -> exists a, b = f a /\ idle p k a k'.
Proof.
  revert k. induction p as [a|X c q IH|X c q IH]; simpl; intros k.
  - intros [-> Ho]. by exists a.
  - intros (x & k1 & Ho & Hn & Hd & (a & -> & Hq)%IH). exists a. split; [done|by exists x, k1].
  - intros (x & (a & -> & Hq)%IH). exists a. split; [done|by exists x].
Qed.

Lemma transaction_bind_Done {A B} ks (p : prog A) (f : A -> prog B) :
  transaction ks p -> (forall a, exists b, f a = Done b) -> transaction ks (pbind p f).
Proof.
  intros Hp Hf. induction p as [a|X c q IH|X c q IH]; simpl in *.
  - by destruct (Hf a) as [b ->].
  - destruct c; try (destruct Hp as (key0 & Hk & Hcov & Hq); exists key0; split_and!; [done|done|]; intros x; by apply IH).
    intros x. destruct (Hp x) as [a Ha]. rewrite Ha. simpl. apply Hf.
  - intros x. by apply IH.
Qed.

(** Programs that only read. *)
Fixpoint reading {A} (ks : list string) (p : prog A) : Prop :=
  match p with
  | Done _ => True
  | Call _ q => forall x, reading ks (q x)
  | Do c q => exists key, read_key c = Some key /\ covered ks key /\ forall x, reading ks (q x)
  end.

Lemma reading_bind {A B} ks (p : prog A) (f : A -> prog B) :
  reading ks p -> (forall a, reading ks (f a)) -> reading ks (pbind p f).
Proof.
  intros Hp Hf. induction p as [a|X c q IH|X c q IH]; simpl in *; [done| |by intros x; apply IH].
  destruct Hp as (key0 & Hk & Hcov & Hq). exists key0. split_and!; [done|done|]. intros x. by apply IH.
Qed.

Lemma transaction_bind {A B} ks (p : prog A) (f : A -> prog B) :
  reading ks p -> (forall a, transaction ks (f a)) -> transaction ks (pbind p f).
Proof.
  intros Hp Hf. induction p as [a|X c q IH|X c q IH]; simpl in *; [done| |by intros x; apply IH].
  destruct Hp as (key0 & Hk & Hcov & Hq).
  destruct c; try discriminate Hk; exists key0; (split_and!; [done|done|]); intros x; by apply IH.
Qed.

Lemma transaction_bind_ok {A B} ks (p : prog (result A)) (f : A -> prog (result B)) :
  reading ks p -> (forall a, transaction ks (f a)) -> transaction ks (pbind_ok p f).
Proof. intros Hp Hf. apply transaction_bind; [done|]. by intros [a|e]. Qed.

Lemma reading_readJSON {A} `{JSON A} ks key field : covered ks key -> reading ks (readJSON key field).
Proof. intros Hk. exists key. split_and!; [done|done|]. by intros [v|e]. Qed.

Lemma reading_readJSON_or {A} `{JSON A} absent ks key field :
  covered ks key -> reading ks (readJSON_or absent key field).
Proof. intros Hk. apply reading_bind; [by apply reading_readJSON|done]. Qed.

Lemma reading_cmd {X} (c : command X) ks key : read_key c = Some key -> covered ks key -> reading ks (cmd c).
Proof. intros Hr Hk. by exists key. Qed.

Lemma transaction_exec ks ws : transaction ks (cmd (TxPipelined ws)).
Proof. intros x. by exists x. Qed.

Lemma covered_watched ks key : key ∈ ks -> covered ks key.
Proof. intros Hk k k' _ Ha x Hx. apply list_elem_of_singleton in Hx as ->. by apply Ha. Qed.
End Transactions.

Section Rules.
Context {S : Type} `{Env} (adapter : Adapter S) (keys : S -> keyspace) (cache : S -> gmap string string).
Context (others : keyspace -> keyspace -> Prop) (alone : Prop).
Context `{!RedisLaws (client adapter) keys cache others alone}.

#[local] Hint Extern 0 (others _ _) => apply others_refl : core.

Lemma wp_system {X} (c : syscall X) (Q : X -> World S -> Prop) w :
  (forall x w', ext w' = ext w -> Q x w') -> wp (system c) Q w.
Proof. intros HQ. destruct c; simpl; [by apply HQ|apply wp_new_uuid|apply wp_rand_Read]; intros; by apply HQ. Qed.

(** ** The cache *)
Lemma wp_run_cache {A} (p : prog A) w :
  wp (run (client adapter) p) (fun _ w' => cache (ext w') ⊆ cache (ext w)) w.
Proof.
  revert w. induction p as [a|X c q IH|X c q IH]; intros w; simpl.
  - by apply wp_ret.
  - apply wp_bind. eapply wp_mono; [by apply (cache_Do_law X c)|]. intros x w1 H1. simpl.
    eapply wp_mono; [by apply IH|]. intros a w2 H2. simpl in *. by etrans.
  - apply wp_bind, wp_system. intros x w1 H1. rewrite <- H1. by apply IH.
Qed.

Lemma wp_Watch_cache {L} ks (l : L) p w :
  wp (client_Watch (client adapter) ks l (run (client adapter) p)) (fun _ w' => cache (ext w') ⊆ cache (ext w)) w.
Proof.
  eapply wp_same; [by apply client_Watch_law|].
  wp_go. eapply wp_mono; [by apply cache_Begin_law|]. intros r w1 H1. wp_go; [|done].
  eapply wp_mono; [by apply wp_run_cache|]. intros a w2 H2. wp_go.
  eapply wp_mono; [by apply cache_End_law|]. intros [] w3 H3. wp_go. simpl in *. by do 2 (etrans; [done|]).
Qed.

Lemma wp_watch_cache {L} ks op (l : L) w :
  wp (watch adapter ks op l) (fun _ w' => cache (ext w') ⊆ cache (ext w)) w.
Proof.
  unfold watch. apply (wp_for_each _ _ _ _ _ (fun _ _ v => cache (ext v) ⊆ cache (ext w))); [done| |by intros; apply wp_ret].
  intros _ _ l' v Hv. wp_go. eapply wp_mono; [by apply wp_Watch_cache|]. intros [l2 r] w2 H2.
  assert (cache (ext w2) ⊆ cache (ext w)) by (simpl in *; by etrans). by wp_go.
Qed.

Lemma wp_watch__cache ks op w :
  wp (watch_ adapter ks op) (fun _ w' => cache (ext w') ⊆ cache (ext w)) w.
Proof. unfold watch_. wp_go. eapply wp_mono; [by apply wp_watch_cache|]. intros [l r] w1 H1. by wp_go. Qed.

(** ** Alone *)
Section Alone.
Hypothesis Halone : alone.

Lemma wp_run_alone {A} (p : prog A) w :
  wp (run (client adapter) p) (fun a w' => runs p (keys (ext w)) a (keys (ext w'))) w.
Proof.
  revert w. induction p as [a|X c q IH|X c q IH]; intros w; simpl.
  - by apply wp_ret.
  - apply wp_bind. eapply wp_mono; [by apply (client_Do_law X c)|].
    intros x w1 (k & Ho & [Hd|(_ & _ & Hna)] & _); [|by destruct Hna].
    apply alone_others in Ho as ->; [|done].
    eapply wp_mono; [by apply IH|]. intros a w2 Hq. by exists x, (keys (ext w1)).
  - apply wp_bind, wp_system. intros x w1 H1. rewrite <- H1. eapply wp_mono; [by apply IH|].
    intros a w2 Hq. by exists x.
Qed.

Lemma wp_Watch_alone {L} ks (l : L) p w :
  wp (client_Watch (client adapter) ks l (run (client adapter) p)) (fun r w' =>
    runs p (keys (ext w)) r (keys (ext w')) \/
    keys (ext w') = keys (ext w) /\ exists e, r = (l, Err e) /\ errors_Is e TxFailedErr = false) w.
Proof.
  eapply wp_same; [by apply client_Watch_law|].
  wp_go. eapply wp_mono; [by apply watch_Begin_law|]. intros r w1 [Ho Hr]. apply alone_others in Ho; [|done].
  wp_go; [|by eauto]. rewrite <- Ho. eapply wp_mono; [by apply wp_run_alone|]. intros a w2 H2. wp_go.
  eapply wp_mono; [by apply watch_End_law|]. intros [] w3 Ho3. apply alone_others in Ho3; [|done]. wp_go.
  left. by rewrite Ho3.
Qed.

(** A transaction that is tried again only when it changed nothing. [I] holds of
    the variables whenever it is tried again, [E] of the keys when it fails. *)
Lemma wp_watch_alone_err {L} ks op (l : L) (I : L -> Prop) (Q : L -> keyspace -> Prop) (E : keyspace -> Prop) w :
  I l -> E (keys (ext w)) ->
  (forall l r l' k', I l -> runs (op l) (keys (ext w)) (l', r) k' ->
     match r with
     | Ok _ => Q l' k'
     | Err e => E k' /\ (errors_Is e TxFailedErr = true -> k' = keys (ext w) /\ I l')
     end) ->
  wp (watch adapter ks op l) (fun res w' =>
    match snd res with Ok _ => Q (fst res) (keys (ext w')) | Err _ => E (keys (ext w')) end) w.
Proof.
  intros Hl HE Hop. unfold watch.
  apply (wp_for_each _ _ _ _ _ (fun _ l v => I l /\ keys (ext v) = keys (ext w)));
    [done| |by intros l1 v [_ Hv]; apply wp_ret; simpl; rewrite Hv].
  intros _ _ l1 v [Hl1 Hv]. wp_go. eapply wp_mono; [by apply wp_Watch_alone|].
  intros [l2 r] w2 Hr. rewrite Hv in Hr. destruct Hr as [Hr|(Hk & e & [= -> ->] & He)]; wp_go; try congruence.
  - simpl. by apply Hop in Hr.
  - apply Hop in Hr as [_ Hi]; [|done]. by destruct Hi.
  - simpl. by apply Hop in Hr as [Hk Hi].
Qed.

(** A transaction whose failures change nothing. *)
Lemma wp_watch_alone {L} ks op (l : L) (I : L -> Prop) (Q : L -> keyspace -> Prop) w :
  I l ->
  (forall l r l' k', I l -> runs (op l) (keys (ext w)) (l', r) k' ->
     match r with
     | Ok _ => Q l' k'
     | Err e => k' = keys (ext w) /\ (errors_Is e TxFailedErr = true -> I l')
     end) ->
  wp (watch adapter ks op l) (fun res w' =>
    match snd res with Ok _ => Q (fst res) (keys (ext w')) | Err _ => keys (ext w') = keys (ext w) end) w.
Proof.
  intros Hl Hop. apply (wp_watch_alone_err ks op l I Q (fun k => k = keys (ext w))); [done|done|].
  intros l1 r l' k' Hl1 Hr. apply Hop in Hr; [|done]. destruct r; naive_solver.
Qed.

Lemma wp_watch__alone ks op (Q : keyspace -> Prop) w :
  (forall r k', runs op (keys (ext w)) r k' ->
     match r with Ok _ => Q k' | Err _ => k' = keys (ext w) end) ->
  wp (watch_ adapter ks op) (fun r w' =>
    match r with Ok _ => Q (keys (ext w')) | Err _ => keys (ext w') = keys (ext w) end) w.
Proof.
  intros Hop. unfold watch_. wp_go.
  eapply wp_mono; [apply (wp_watch_alone _ _ _ (fun _ => True) (fun _ => Q))|]; [done| |].
  - intros [] r [] k' _ (r' & k1 & Hr & [= <-] & ->)%runs_bind. specialize (Hop _ _ Hr). by destruct r.
  - intros [[] r] w' Hr. by wp_go.
Qed.
End Alone.

(** ** Among others

    The writes of a transaction happen at one instant [k], when the keys it read
    are as it read them: it is as if it had run there by itself. *)
Definition written {A} ks k0 (p : prog A) (w : World S) (a : A) (w' : World S) : Prop :=
  touched (ext w) = false /\ exists k k', others (keys (ext w)) k /\ agree ks k0 k /\
    runs p k a k' /\ others k' (keys (ext w')).

Lemma wp_run_others {A} ks k0 (p : prog A) w :
  transaction others ks p -> watching (ext w) = Some (ks, k0) -> others k0 (keys (ext w)) ->
  wp (run (client adapter) p) (fun a w' =>
    idle others p (keys (ext w)) a (keys (ext w')) \/ written ks k0 p w a w') w.
Proof.
  revert w. induction p as [a|X c q IH|X c q IH]; intros w Hp Hw Hk0; simpl.
  - apply wp_ret. left. split; [done|by apply others_refl].
  - assert (Hread : (exists key, read_key c = Some key /\ covered others ks key /\ forall x, transaction others ks (q x)) ->
      wp (client_Do (client adapter) c) (fun x => wp (run (client adapter) (q x)) (fun a w' =>
        idle others (Do c q) (keys (ext w)) a (keys (ext w')) \/ written ks k0 (Do c q) w a w')) w).
    { intros (key & Hkey & Hcov & Hq). eapply wp_mono; [by apply (client_Do_law X c)|].
      intros x w1 (k & Ho & Hd & Hw1 & Ht).
      assert (Hd1 : does c k x k /\ keys (ext w1) = k).
      { destruct Hd as [Hd|(Hab & _)]; [|by destruct c].
        by destruct (does_agree c key k k x _ Hkey (agree_refl _ _) Hd). }
      destruct Hd1 as [Hd1 Hk1]. eapply wp_mono; [apply (IH x w1); [done|rewrite Hw1; [done|by rewrite Hkey]|]|].
      { rewrite Hk1. by eapply others_trans. }
      intros a w2. unfold written. rewrite Hk1. intros [Hidle|(Ht1 & k2 & k3 & Ho2 & Ha & Hr & Ho3)].
      - left. exists x, k. split_and!; [done|by eapply read_not_committed|by left|done].
      - right. destruct (Ht (or_introl Ht1)) as [Ht0 Hag]. split; [done|]. exists k2, k3.
        split_and!; [by eapply others_trans|done| |done]. exists x, k2. split; [|done].
        eapply (does_agree c key k k2); [done| |done].
        apply (agree_trans _ _ k0); [apply agree_sym|]; apply Hcov; try done; [by eapply others_trans|by apply Hag|].
        by do 2 (eapply others_trans; [done|]). }
    apply wp_bind. simpl in Hp. destruct c as [| | | | | | | |ws]; try (by apply Hread). clear Hread.
    eapply wp_mono; [by apply (client_Do_law _ (TxPipelined ws))|]. intros x w1 (k & Ho & Hd & _ & Ht).
    destruct (Hp x) as [a Ha]. rewrite Ha. apply wp_ret.
    assert (Hquiet : keys (ext w1) = k -> ~ committed (TxPipelined ws) x -> does (TxPipelined ws) k x k \/ aborted (TxPipelined ws) x ->
      idle others (Do (TxPipelined ws) q) (keys (ext w)) a (keys (ext w1))).
    { intros Hk Hn Hans. rewrite Hk. exists x, k. split_and!; [done..|]. rewrite Ha. split; [done|by apply others_refl]. }
    destruct Hd as [Hd|(Hab & Hk & _)].
    + destruct x as [[]|e]; [|left; simpl in Hd; destruct Hd as [He Hk]; apply Hquiet; [done|by intros [_ ?]|by left]].
      destruct ws as [|w0 ws]; [left; simpl in Hd; apply Hquiet; [done|by intros [? _]|by left]|].
      right. destruct Ht as [Ht0 Hag]; [by right|].
      split; [done|]. exists k, (keys (ext w1)). split_and!; [done|by apply Hag| |by apply others_refl].
      exists (Ok tt), (keys (ext w1)). split; [done|]. by rewrite Ha.
    + left. apply Hquiet; [done| |by right]. destruct Hab as (e & -> & _). by intros [_ ?].
  - apply wp_bind, wp_system. intros x w1 H1. unfold written. rewrite <- H1. eapply wp_mono; [apply IH; [by apply Hp|by rewrite H1..]|].
    intros a w2 [Hidle|(Ht & k & k' & Ho & Hag & Hr & Ho')]; [left; by exists x|right]. split; [done|].
    exists k, k'. split_and!; [done|done|by exists x|done].
Qed.

(** A call that works at one instant: others before it, others after it. *)
Definition at_once {A} (spec : keyspace -> A -> keyspace -> Prop) (m : M S A) : Prop :=
  forall w, wp m (fun a w' => exists k k', others (keys (ext w)) k /\ spec k a k' /\ others k' (keys (ext w'))) w.

(** A transaction writes at one instant, or writes nothing. *)
Definition transacts {A} (p : prog A) (k : keyspace) (a : A) (k' : keyspace) : Prop :=
  runs p k a k' \/ idle others p k a k'.

Definition not_begun {L} (k : keyspace) (r : L * result unit) (k' : keyspace) : Prop :=
  is_ok (snd r) = false /\ others k k'.

Lemma Watch_at_once {L} ks (l : L) p :
  transaction others ks p ->
  at_once (fun k r k' => transacts p k r k' \/ not_begun k r k')
    (client_Watch (client adapter) ks l (run (client adapter) p)).
Proof.
  intros Hp w. eapply wp_same; [by apply client_Watch_law|]. wp_go.
  eapply wp_mono; [by apply watch_Begin_law|]. intros r w1 [Ho1 Hr]. wp_go.
  2: { exists (keys (ext w)), (keys (ext w1)). split_and!; [by apply others_refl|by right|by apply others_refl]. }
  eapply wp_mono; [by apply (wp_run_others ks (keys (ext w1)))|]. intros a w2 Heff. wp_go.
  eapply wp_mono; [by apply watch_End_law|]. intros [] w3 Ho3. wp_go.
  destruct Heff as [Hidle|(_ & k & k' & Hok & _ & Hruns & Ho2)].
  - exists (keys (ext w1)), (keys (ext w2)). split_and!; [done|by left; right|done].
  - exists k, k'. split_and!; [by eapply others_trans|by left; left|by eapply others_trans].
Qed.

Lemma idle_others {A} (p : prog A) k a k' : idle others p k a k' -> others k k'.
Proof.
  revert k. induction p as [b|X c q IH|X c q IH]; simpl; intros k.
  - by intros [_ ?].
  - intros (x & k1 & Ho & _ & _ & Hq). eapply others_trans; [done|by eapply IH].
  - intros (x & Hq). by eapply IH.
Qed.

Lemma watch_at_once {L} ks (op : L -> prog (L * result unit)) l :
  (forall l, transaction others ks (op l)) ->
  (forall l k l' e k', runs (op l) k (l', Err e) k' -> errors_Is e TxFailedErr = true -> k' = k) ->
  at_once (fun k r k' => (exists l0, transacts (op l0) k r k') \/ not_begun k r k') (watch adapter ks op l).
Proof.
  intros Hop Hfail w. unfold watch.
  apply (wp_for_each _ _ _ _ _ (fun _ _ v => others (keys (ext w)) (keys (ext v)))); [by apply others_refl| |].
  - intros _ _ l1 v Hv. wp_go. eapply wp_mono; [by apply (Watch_at_once ks l1 (op l1) (Hop l1) v)|].
    intros [l2 r] w2 (k & k' & Ho & Heff & Ho').
    assert (Hres : exists k k', others (keys (ext w)) k /\
      ((exists l0, transacts (op l0) k (l2, r) k') \/ not_begun k (l2, r) k') /\ others k' (keys (ext w2))).
    { exists k, k'. split_and!; [by eapply others_trans| |done]. destruct Heff; [left; by exists l1|by right]. }
    wp_go; [by destruct value| |done].
    enough (others k k') by (by do 3 (eapply others_trans; [done|])).
    destruct Heff as [[Hr|Hi]|[_ Hn]]; [|by eapply idle_others|done].
    rewrite (Hfail _ _ _ _ _ Hr) by done. by apply others_refl.
  - intros l1 v Hv. wp_go. exists (keys (ext w)), (keys (ext v)).
    split_and!; [by apply others_refl|by right|by apply others_refl].
Qed.

Lemma watch__at_once ks (op : prog (result unit)) :
  transaction others ks op -> (forall k e k', runs op k (Err e) k' -> k' = k) ->
  at_once (fun k r k' => transacts op k r k' \/ is_ok r = false /\ others k k') (watch_ adapter ks op).
Proof.
  intros Hop Hfail w. unfold watch_. wp_go.
  eapply wp_mono; [apply (watch_at_once ks (fun _ : unit => res <~ op ;; Done (tt, res)))|].
  - intros _. by apply transaction_bind_Done; eauto.
  - intros _ k l' e k' (r & k1 & Hr & [= _ <-] & ->)%runs_bind _. by eapply Hfail.
  - intros [[] r] w1 (k & k' & Hk & Hq & Ho). wp_go. exists k, k'. split_and!; [done| |done].
    destruct Hq as [[_ [Hr|Hr]]|Hq]; [left; left|left; right|by right].
    + apply runs_bind in Hr as (r' & k1 & Hr & [= ->] & ->). done.
    + apply (idle_bind_Done others op (fun res => (tt, res))) in Hr as (r' & [= ->] & Hr). done.
Qed.
(** ** What all clients keep

    [keeps I p Q]: whatever the other clients do between the commands of [p], as
    long as they keep [I], the commands keep it too, and [p] ends in [Q]. *)
Fixpoint keeps {A} (I : keyspace -> Prop) (p : prog A) (Q : A -> Prop) : Prop :=
  match p with
  | Done a => Q a
  | Do c q => forall k x k', I k -> does c k x k' \/ aborted c x /\ k' = k -> I k' /\ keeps I (q x) Q
  | Call _ q => forall x, keeps I (q x) Q
  end.

Lemma keeps_mono {A} I (p : prog A) (Q Q' : A -> Prop) : keeps I p Q -> (forall a, Q a -> Q' a) -> keeps I p Q'.
Proof.
  intros Hp HQ. induction p as [a|X c q IH|X c q IH]; simpl in *; [by apply HQ| |by eauto].
  intros k x k' Hk Hd. destruct (Hp k x k' Hk Hd). auto.
Qed.

Lemma keeps_bind {A B} I (p : prog A) (f : A -> prog B) Q :
  keeps I p (fun a => keeps I (f a) Q) -> keeps I (pbind p f) Q.
Proof.
  induction p as [a|X c q IH|X c q IH]; simpl; [done| |by eauto].
  intros Hp k x k' Hk Hd. destruct (Hp k x k' Hk Hd). auto.
Qed.

Section Keeps.
Context (I : keyspace -> Prop) (Hothers : forall k k', others k k' -> I k -> I k').

Lemma wp_run_keeps {A} (p : prog A) (Q : A -> Prop) w :
  keeps I p Q -> I (keys (ext w)) -> wp (run (client adapter) p) (fun a w' => I (keys (ext w')) /\ Q a) w.
Proof.
  revert w. induction p as [a|X c q IH|X c q IH]; intros w Hp Hw; simpl.
  - by apply wp_ret.
  - apply wp_bind. eapply wp_mono; [by apply (client_Do_law X c)|]. intros x w1 (k & Ho & Hd & _).
    destruct (Hp k x (keys (ext w1))) as [Hw1 Hq]; [by eapply Hothers|by intuition|]. by apply IH.
  - apply wp_bind, wp_system. intros x w1 H1. apply IH; [by apply Hp|by rewrite H1].
Qed.

Lemma wp_Watch_keeps {L} ks (l : L) p (Q : L * result unit -> Prop) w :
  keeps I p Q -> (forall e, errors_Is e TxFailedErr = false -> Q (l, Err e)) -> I (keys (ext w)) ->
  wp (client_Watch (client adapter) ks l (run (client adapter) p)) (fun r w' => I (keys (ext w')) /\ Q r) w.
Proof.
  intros Hp He Hw. eapply wp_same; [by apply client_Watch_law|]. wp_go.
  eapply wp_mono; [by apply watch_Begin_law|]. intros r w1 [Ho Hr]. assert (I (keys (ext w1))) by by eapply Hothers.
  wp_go; [|by auto]. eapply wp_mono; [by apply (wp_run_keeps p Q)|]. intros a w2 [H2 Ha]. wp_go.
  eapply wp_mono; [by apply watch_End_law|]. intros [] w3 Ho3. wp_go. split; [by eapply Hothers|done].
Qed.

Lemma wp_watch_keeps {L} ks op (l : L) (Q : L -> Prop) w :
  (forall l, keeps I (op l) (fun r => is_ok (snd r) = true -> Q (fst r))) -> I (keys (ext w)) ->
  wp (watch adapter ks op l) (fun r w' => I (keys (ext w')) /\ (is_ok (snd r) = true -> Q (fst r))) w.
Proof.
  intros Hop Hw. unfold watch.
  apply (wp_for_each _ _ _ _ _ (fun _ _ v => I (keys (ext v)))); [done| |by intros ? ? ?; apply wp_ret].
  intros _ _ l1 v Hv. wp_go. eapply wp_mono; [by apply (wp_Watch_keeps ks l1 _ _ v (Hop l1))|].
  intros [l2 [[]|e]] w2 [H2 HQ]; wp_go; auto.
Qed.

Lemma wp_watch__keeps ks (op : prog (result unit)) (Q : Prop) w :
  keeps I op (fun r => is_ok r = true -> Q) -> I (keys (ext w)) ->
  wp (watch_ adapter ks op) (fun r w' => I (keys (ext w')) /\ (is_ok r = true -> Q)) w.
Proof.
  intros Hop Hw. unfold watch_. wp_go. eapply wp_mono; [apply (wp_watch_keeps _ _ _ (fun _ => Q))|]; [|done|].
  - intros []. apply keeps_bind. eapply keeps_mono; [exact Hop|]. by intros r Hr.
  - intros [[] r] w1 [H1 Hr]. by wp_go.
Qed.
End Keeps.
End Rules.

(** * Tables in Redis hashes

    A table of records is a hash from the key of a record to its JSON. Names of
    keys and fields are injective, and what a transaction reads and writes is
    worked out by rewriting. *)
From S2P Require Import GoText.

(** ** Names *)
#[export] Instance hashKey_inj : Inj (=) (=) hashKey.
Proof. intros s t. apply hex_encode_inj. Qed.

#[export] Instance key_inj {S} (adapter : Adapter S) : Inj (=) (=) (key adapter).
Proof. intros a b. unfold key. apply (inj (String.append _)). Qed.

(** ** Hashes and sets after writes *)
Lemma hash_at_put_hash name h k name' :
  hash_at (put_hash name h k) name' = if decide (name = name') then h else hash_at k name'.
Proof. unfold hash_at. simpl. destruct (decide _) as [->|]; [by rewrite lookup_insert_eq|by rewrite lookup_insert_ne]. Qed.
Lemma hash_at_put_set name s k name' : hash_at (put_set name s k) name' = hash_at k name'.
Proof. done. Qed.
Lemma set_at_put_set name s k name' :
  set_at (put_set name s k) name' = if decide (name = name') then s else set_at k name'.
Proof. unfold set_at. simpl. destruct (decide _) as [->|]; [by rewrite lookup_insert_eq|by rewrite lookup_insert_ne]. Qed.
Lemma set_at_put_hash name h k name' : set_at (put_hash name h k) name' = set_at k name'.
Proof. done. Qed.

Create Rewrite HintDb redis.
#[export] Hint Rewrite hash_at_put_hash hash_at_put_set set_at_put_set set_at_put_hash : redis.

(** ** Tables *)
Section Table.
Context {A : Type} `{JSON A} (id : A -> string) (field : string -> string) `{!Inj (=) (=) field}.

Definition table_ok (h : gmap string string) : Prop :=
  forall f v, h !! f = Some v -> exists a, json_Unmarshal v = Ok a /\ f = field (id a).

Definition decoded (v : string) : option A := match json_Unmarshal v with Ok a => Some a | Err _ => None end.

Definition table (h : gmap string string) : gmap string A :=
  list_to_map ((fun a => (id a, a)) <$> omap decoded (map_to_list h).*2).

Lemma decoded_Some v a : decoded v = Some a <-> json_Unmarshal v = Ok a.
Proof. unfold decoded. destruct (json_Unmarshal v); naive_solver. Qed.

Lemma elem_of_rows (h : gmap string string) a :
  a ∈ omap decoded (map_to_list h).*2 <-> exists f v, h !! f = Some v /\ json_Unmarshal v = Ok a.
Proof.
  rewrite list_elem_of_omap. split.
  - intros (v & Hv & Ha). apply list_elem_of_fmap in Hv as ([f v'] & -> & Hf).
    apply elem_of_map_to_list in Hf. exists f, v'. by rewrite <- decoded_Some.
  - intros (f & v & Hf & Ha). exists v. rewrite decoded_Some. split; [|done].
    apply list_elem_of_fmap. exists (f, v). split; [done|]. by apply elem_of_map_to_list.
Qed.

Lemma table_lookup h x a : table_ok h ->
  table h !! x = Some a <-> exists v, h !! field x = Some v /\ json_Unmarshal v = Ok a.
Proof.
  intros Hok. unfold table. split.
  - intros Hx. apply elem_of_list_to_map_2 in Hx. apply list_elem_of_fmap in Hx as (a' & [= -> ->] & Ha').
    apply elem_of_rows in Ha' as (f & v & Hf & Hv). destruct (Hok f v Hf) as (b & Hb & ->).
    rewrite Hv in Hb. injection Hb as <-. by exists v.
  - intros (v & Hf & Hv). destruct (Hok _ _ Hf) as (b & Hb & Hx). rewrite Hv in Hb. injection Hb as <-.
    apply (inj field) in Hx as ->. apply elem_of_list_to_map_1'.
    + intros b Hb. apply list_elem_of_fmap in Hb as (b' & [= E ->] & Hb').
      apply elem_of_rows in Hb' as (f & v' & Hf' & Hv'). destruct (Hok f v' Hf') as (c & Hc & ->).
      rewrite Hv' in Hc. injection Hc as <-. rewrite E in Hf. congruence.
    + apply list_elem_of_fmap. exists a. split; [done|]. apply elem_of_rows. by exists (field (id a)), v.
Qed.

Lemma table_id h x a : table_ok h -> table h !! x = Some a -> id a = x.
Proof.
  intros Hok (v & Hf & Hv)%table_lookup; [|done]. destruct (Hok _ _ Hf) as (b & Hb & Hx).
  rewrite Hv in Hb. injection Hb as <-. by apply (inj field) in Hx.
Qed.

Lemma table_None h x : table_ok h -> table h !! x = None <-> h !! field x = None.
Proof.
  intros Hok. rewrite !eq_None_not_Some. f_equiv. split.
  - intros [a (v & Hv & _)%table_lookup]; [|done]. by exists v.
  - intros [v Hv]. destruct (Hok _ _ Hv) as (a & Ha & _). exists a. apply table_lookup; [done|]. by exists v.
Qed.

Lemma table_ok_insert h a : table_ok h -> table_ok (<[field (id a) := json_Marshal a]> h).
Proof.
  intros Hok f v [[<- <-]|[_ Hf]]%lookup_insert_Some; [|by apply Hok].
  exists a. by rewrite json_Unmarshal_Marshal.
Qed.

Lemma table_insert h a : table_ok h -> table (<[field (id a) := json_Marshal a]> h) = <[id a := a]> (table h).
Proof.
  intros Hok. apply map_eq. intros x. apply option_eq. intros b.
  rewrite table_lookup by by apply table_ok_insert. destruct (decide (x = id a)) as [->|Hne].
  - rewrite !lookup_insert_eq. split; [intros (v & [= <-] & Hv); rewrite json_Unmarshal_Marshal in Hv; congruence|].
    intros [= <-]. eexists. split; [done|by apply json_Unmarshal_Marshal].
  - rewrite !lookup_insert_ne by (try done; intros E; by apply (inj field) in E). by rewrite table_lookup.
Qed.

Lemma table_ok_subseteq (h h' : gmap string string) : h' ⊆ h -> table_ok h -> table_ok h'.
Proof. intros Hsub Hok f v Hf. apply Hok. by eapply lookup_weaken. Qed.

Lemma table_subseteq (h h' : gmap string string) : h' ⊆ h -> table_ok h -> table h' ⊆ table h.
Proof.
  intros Hsub Hok. apply map_subseteq_spec. intros x a. rewrite !table_lookup by eauto using table_ok_subseteq.
  intros (v & Hv & Ha). exists v. split; [by eapply lookup_weaken|done].
Qed.

(** Many rows at once. *)
Lemma table_hset rows h : table_ok h ->
  table_ok (hset ((fun a => (field (id a), json_Marshal a)) <$> rows) h) /\
  table (hset ((fun a => (field (id a), json_Marshal a)) <$> rows) h) =
    fold_left (fun t a => <[id a := a]> t) rows (table h).
Proof.
  revert h. induction rows as [|a rows IH]; intros h Hok; [done|]. rewrite fmap_cons. cbn [hset fold_left].
  destruct (IH _ (table_ok_insert h a Hok)) as [Hok' Ht]. split; [done|]. by rewrite Ht, table_insert.
Qed.

Lemma fold_insert_lookup (rows : list A) (t : gmap string A) x a :
  NoDup (id <$> rows) ->
  fold_left (fun t a => <[id a := a]> t) rows t !! x = Some a <->
    a ∈ rows /\ id a = x \/ x ∉ (id <$> rows) /\ t !! x = Some a.
Proof.
  revert t. induction rows as [|b rows IH]; intros t; cbn [fold_left].
  - intros _. split; [right; split; [by apply not_elem_of_nil|done]|].
    by intros [[?%not_elem_of_nil _]|[_ ?]].
  - rewrite fmap_cons, list.NoDup_cons, elem_of_cons, not_elem_of_cons. intros [Hb Hnd]. rewrite IH by done. split.
    + intros [[Ha Hx]|[Hx [[<- <-]|[Hne Ht]]%lookup_insert_Some]]; [left; auto|left; auto|right; auto].
    + intros [[[->|Ha] <-]|[[Hne Hx] Ht]].
      * right. by rewrite lookup_insert_eq.
      * by left.
      * right. by rewrite lookup_insert_ne.
Qed.
End Table.

(** ** Reading *)
Lemma runs_readJSON {A} `{JSON A} name field k (r : result A) k' :
  runs (readJSON name field) k r k' ->
  k' = k /\
  match r with
  | Ok a => exists v, hash_at k name !! field = Some v /\ json_Unmarshal v = Ok a
  | Err e => (errors_Is e Nil = true -> hash_at k name !! field = None) \/
      exists v, hash_at k name !! field = Some v /\ json_Unmarshal v = Err e
  end.
Proof.
  unfold readJSON. intros [(v & k1 & Hv & [-> ->])|(e & Hv & ->)]%runs_bind_ok; apply runs_cmd in Hv as [-> Hv].
  - split; [done|]. simpl in Hv. destruct (json_Unmarshal v) eqn:?; [|right]; by exists v.
  - split; [done|]. left. apply Hv.
Qed.

Lemma runs_readJSON_or {A} `{JSON A} absent name field k (r : result A) k' :
  runs (readJSON_or absent name field) k r k' ->
  k' = k /\ forall a, r = Ok a -> exists v, hash_at k name !! field = Some v /\ json_Unmarshal v = Ok a.
Proof.
  unfold readJSON_or. intros (r1 & k1 & [-> Hr]%runs_readJSON & [-> ->])%runs_bind. split; [done|].
  intros a. destruct r1 as [b|e]; simpl; [intros [= <-]; done|]. by destruct (errors_Is e Nil).
Qed.

Lemma not_present {A} (o : option A) : false = bool_decide (is_Some o) -> o = None.
Proof. intros Hb. symmetry in Hb. go_bool. by apply eq_None_not_Some. Qed.

#[global] Arguments runs : simpl never.
#[global] Arguments cmd : simpl never.
#[global] Arguments sys : simpl never.

(** A run is taken apart: binds, commands, branches. *)
Ltac runs_step :=
  match goal with
  | H : runs (pbind_ok _ _) _ _ _ |- _ => apply runs_bind_ok in H as [(? & ? & ? & H)|(? & H & ?)]
  | H : runs (pbind _ _) _ _ _ |- _ => apply runs_bind in H as (? & ? & ? & H)
  | H : runs (Done _) _ _ _ |- _ => destruct H as [? ?]
  | H : runs (readJSON_or _ _ _) _ _ _ |- _ => apply runs_readJSON_or in H as [? ?]
  | H : runs (cmd _) _ _ _ |- _ => apply runs_cmd in H
  | H : runs (if ?b then _ else _) _ _ _ |- _ => destruct b eqn:?
  | H : runs (match ?r with _ => _ end) _ _ _ |- _ => destruct r eqn:?
  | H : does _ _ _ _ |- _ => progress simpl in H
  | H : @eq keyspace _ _ /\ _ |- _ => destruct H as [? ?]
  | H : match ?r with Ok _ => _ | Err _ => _ end |- _ => destruct r eqn:?
  | H : errors_Is _ TxFailedErr = false /\ _ |- _ => destruct H as [? ?]
  | H : answer _ _ _ (Ok _) |- _ => simpl in H
  | H : answer _ _ _ (Err _) |- _ => clear H
  | H : Ok _ = Ok _ |- _ => injection H as ?
  | H : Err _ = Ok _ |- _ => discriminate H
  | H : Ok _ = Err _ |- _ => discriminate H
  end; subst; cbn beta iota in *.
Ltac runs_go := repeat runs_step.

(** Which of two keys of the adapter. *)
Ltac key_cases :=
  repeat match goal with
  | |- context [decide (key ?adapter ?a = key ?adapter ?b)] =>
      let E := fresh in
      destruct (decide (key adapter a = key adapter b)) as [E|E];
      [try (apply (inj (key adapter)) in E; discriminate E) | try (by destruct E)]; clear E
  end.

(** Transactions that write whenever they succeed. *)
Section Idle.
Context (others : keyspace -> keyspace -> Prop) (Hrefl : forall k, others k k).

Definition fails_idle {A} (p : prog (result A)) : Prop := forall k a k', idle others p k a k' -> is_ok a = false.

Lemma fails_idle_Err {A} e : fails_idle (Done (@Err A e)).
Proof. by intros k a k' [-> _]. Qed.

Lemma fails_idle_exec w ws : fails_idle (cmd (TxPipelined (w :: ws))).
Proof.
  intros k a k' (x & k1 & _ & Hn & _ & [-> _]). destruct x; [|done]. destruct Hn. by split.
Qed.

Lemma fails_idle_bind {A B} (p : prog A) (f : A -> prog (result B)) :
  (forall a, fails_idle (f a)) -> fails_idle (pbind p f).
Proof. intros Hf k b k' (a & k1 & _ & Hi)%idle_bind; [by eapply Hf|done]. Qed.

Lemma fails_idle_bind_ok {A B} (p : prog (result A)) (f : A -> prog (result B)) :
  (forall a, fails_idle (f a)) -> fails_idle (pbind_ok p f).
Proof. intros Hf. apply fails_idle_bind. intros [a|e]; [apply Hf|apply fails_idle_Err]. Qed.

Lemma idle_readJSON {A} `{JSON A} name field k (r : result A) k' :
  idle others (readJSON name field) k r k' ->
  exists k1, others k k1 /\ others k1 k' /\ runs (readJSON name field) k1 r k1.
Proof.
  intros (x & k1 & Ho & _ & [Hd|[]] & Hi). destruct x as [v|e]; destruct Hi as [-> Ho'];
    (exists k1; split_and!; [done|done|]); eexists _, k1; (split; [exact Hd|done]).
Qed.

Lemma idle_readJSON_or {A} `{JSON A} absent name field k (a : A) k' :
  idle others (readJSON_or absent name field) k (Ok a) k' ->
  exists k1, others k k1 /\ others k1 k' /\ exists v, hash_at k1 name !! field = Some v /\ json_Unmarshal v = Ok a.
Proof.
  unfold readJSON_or. intros (r & E & (k1 & Ho & Ho' & [_ Hr]%runs_readJSON)%idle_readJSON)%idle_bind_Done.
  exists k1. split_and!; [done|done|]. destruct r as [b|e]; simpl in E; [injection E as <-; done|].
  by destruct (errors_Is e Nil).
Qed.
End Idle.

(** A program is a transaction: it reads what it watches and then writes. *)
Ltac transaction_step :=
  match goal with
  | |- transaction _ _ (if ?b then _ else _) => destruct b
  | |- transaction _ _ (match ?r with _ => _ end) => destruct r
  | |- transaction _ _ (Done _) => exact I
  | |- transaction _ _ (cmd (TxPipelined _)) => apply transaction_exec
  | |- transaction _ _ (pbind (cmd (TxPipelined _)) _) => apply transaction_bind_Done; [apply transaction_exec|by eexists]
  | |- transaction _ _ (pbind_ok _ _) => apply transaction_bind_ok; [|intros ?]
  | |- transaction _ _ (pbind _ _) => apply transaction_bind; [|intros ?]
  | |- reading _ _ (cmd _) => eapply reading_cmd; [reflexivity|]
  | |- reading _ _ (readJSON_or _ _ _) => apply reading_readJSON_or
  | |- reading _ _ (readJSON _ _) => apply reading_readJSON
  | |- covered _ _ _ => apply covered_watched; rewrite !elem_of_cons; tauto
  end; cbv beta iota zeta.
Ltac transaction_go := repeat transaction_step.

Ltac fails_idle_step :=
  match goal with
  | |- fails_idle _ (if ?b then _ else _) => destruct b
  | |- fails_idle _ (match ?r with _ => _ end) => destruct r
  | |- fails_idle _ (Done (Err _)) => apply fails_idle_Err
  | |- fails_idle _ (cmd (TxPipelined _)) => apply fails_idle_exec
  | |- fails_idle _ (pbind_ok _ _) => apply fails_idle_bind_ok; [done|intros ?]
  | |- fails_idle _ (pbind _ _) => apply fails_idle_bind; [done|intros ?]
  end; cbv beta iota zeta.
Ltac fails_idle_go := repeat fails_idle_step.

(** Reads of a program that all clients leave an invariant of. *)
Lemma keeps_read {X} I (c : command X) Q :
  read_key c <> None -> (forall k x, I k -> does c k x k -> Q x) -> keeps I (cmd c) Q.
Proof.
  intros Hr HQ k x k' Hk [Hd|[Ha _]]; [|by destruct c].
  destruct (read_key c) as [key|] eqn:E; [|done].
  destruct (does_agree c key k k x k' E (agree_refl _ _) Hd) as [-> Hd']. split; [done|]. by apply (HQ k).
Qed.

Lemma keeps_readJSON {A} `{JSON A} I name field (Q : result A -> Prop) :
  (forall k v a, I k -> hash_at k name !! field = Some v -> json_Unmarshal v = Ok a -> Q (Ok a)) ->
  (forall e, Q (Err e)) -> keeps I (readJSON name field) Q.
Proof.
  intros HQ He. unfold readJSON, pbind_ok. apply keeps_bind, keeps_read; [done|]. intros k [v|e] Hk [_ Hv]; simpl; [|by apply He].
  destruct (json_Unmarshal v) as [a|e] eqn:E; [by eapply HQ|by apply He].
Qed.

Lemma keeps_readJSON_or {A} `{JSON A} I absent name field (Q : result A -> Prop) :
  (forall k v a, I k -> hash_at k name !! field = Some v -> json_Unmarshal v = Ok a -> Q (Ok a)) ->
  (forall e, Q (Err e)) -> keeps I (readJSON_or absent name field) Q.
Proof.
  intros HQ He. unfold readJSON_or. apply keeps_bind, keeps_readJSON; simpl; [done|].
  intros e. destruct (errors_Is e Nil); by apply He.
Qed.

Lemma keeps_bind_ok {A B} I (p : prog (result A)) (f : A -> prog (result B)) Q :
  keeps I p (fun r => match r with Ok a => keeps I (f a) Q | Err e => Q (Err e) end) -> keeps I (pbind_ok p f) Q.
Proof. intros Hp. unfold pbind_ok. apply keeps_bind. eapply keeps_mono; [exact Hp|]. by intros [a|e]. Qed.

Lemma keeps_exec I ws Q :
  (forall k, I k -> I (apply_writes ws k)) -> (forall r, Q r) -> keeps I (cmd (TxPipelined ws)) Q.
Proof.
  intros Hws HQ k x k' Hk [Hd|[_ ->]]; (split; [|by apply HQ]); [|done].
  cbn [does] in Hd. destruct x; [rewrite Hd; by apply Hws|by destruct Hd as [_ ->]].
Qed.
