(* ===== verification/RedisSessions.v ===== *)
(** * Sessions and refresh tokens in Redis (storage/redis/sessions.go) *)
From S2P Require Import Prelude GoText Base64 Sha256 Token Redis.
From S2P Require SessionToken RefreshToken AccessToken BearerSession.
From stdpp Require Import sorting.

(** [decodeRedisValue] *)
Definition decodeRedisValue {A} `{JSON A} (value : any) : result A :=
  match value with
  | any_string encoded => json_Unmarshal encoded
  | any_bytes encoded => json_Unmarshal encoded
  | _ => Err (Errorf "decode Redis value: unexpected %T" [])
  end.

(** The loop of the lists: values that are nil are left out. *)
Fixpoint decodeRedisValues {A} `{JSON A} (values : list any) : result (list A) :=
  match values with
  | [] => Ok []
  | any_nil :: values => decodeRedisValues values
  | value :: values =>
      match decodeRedisValue value with
      | Err err => Err err
      | Ok record =>
          match decodeRedisValues values with
          | Err err => Err err
          | Ok records => Ok (record :: records)
          end
      end
  end.

(** The loops that collect the records to revoke: those that are gone are
    skipped. *)
Fixpoint readAll {A} `{JSON A} (key : string) (fields : list string) : prog (result (list (string * A))) :=
  match fields with
  | [] => Done (Ok [])
  | field :: fields =>
      r <~ readJSON key field ;;
      match r with
      | Err err => if errors_Is err Nil then readAll key fields else Done (Err err)
      | Ok record =>
          records <~? readAll key fields ;;
          Done (Ok ((field, record) :: records))
      end
  end.

Section Sessions.
Import SessionToken.
Context {S : Type} `{Env} `{JSON SessionRecord} (adapter : Adapter S).

(** [slices.SortFunc] with the latest session first. *)
Definition later (left right : SessionRecord) : Prop := (CreatedAt right <= CreatedAt left)%Z.
#[local] Instance later_dec : RelDecision later.
Proof. intros left right. apply Z_le_dec. Defined.
Definition sortSessions (records : list SessionRecord) : list SessionRecord := merge_sort later records.

Definition subjectSet (subjectID : string) : string := key adapter ("sessions:subject:" +:+ subjectID).

(** The transactions of the operations are named after them. *)
Definition create_transaction (record : SessionRecord) : prog (result unit) :=
  let sessions := key adapter "sessions" in
  let sessionIDs := key adapter "session-ids" in
  let subject := subjectSet (SubjectID record) in
  let field := hashKey (TokenHash record) in
  let encoded := encodeJSON record in
  exists_ <~? cmd (HExists sessions field) ;;
  if exists_ : bool then Done (Err ErrConflict) else
  exists_ <~? cmd (HExists sessionIDs (ID record)) ;;
  if exists_ : bool then Done (Err ErrConflict) else
  cmd (TxPipelined [HSet sessions [(field, encoded)]; HSet sessionIDs [(ID record, field)]; SAdd subject [field]]).

Definition SessionStore_Create (record : SessionRecord) : M S (result unit) :=
  watch_ adapter [key adapter "sessions"; key adapter "session-ids"; subjectSet (SubjectID record)]
    (create_transaction record).

Definition SessionStore_FindByTokenHash (tokenHash : Hash) : M S (result SessionRecord) :=
  run (client adapter) (readJSON_or ErrNotFound (key adapter "sessions") (hashKey tokenHash)).

Definition list_commands (subjectID : string) : prog (result (list SessionRecord)) :=
  fields <~? cmd (SMembers (subjectSet subjectID)) ;;
  if (length fields =? 0)%nat then Done (Ok []) else
  values <~? cmd (HMGet (key adapter "sessions") fields) ;;
  match decodeRedisValues values with
  | Err err => Done (Err err)
  | Ok records => Done (Ok (sortSessions records))
  end.

Definition SessionStore_ListBySubject (subjectID : string) : M S (result (list SessionRecord)) :=
  run (client adapter) (list_commands subjectID).

(** The variables of [Extend] that its transaction shares: the parameter
    [extendedAt], and [result], whose pointer [ExtendedAt] may be [&extendedAt]. *)
Record extension : Type := mkExtensionVars {
  extendedAt : time;
  result_ : SessionRecord;
  aliased : bool;
}.

Definition set_ExtendedAt (t : option time) (r : SessionRecord) : SessionRecord :=
  mkRecord (ID r) (SubjectID r) (TokenHash r) (CreatedAt r) (ExpiresAt r) t (RevokedAt r).

(** What [result] holds, its pointer followed. *)
Definition result_of (l : extension) : SessionRecord :=
  if aliased l then set_ExtendedAt (Some (extendedAt l)) (result_ l) else result_ l.

(** [json.Unmarshal(encoded, &result)]: a time goes where the pointer points to,
    if it points somewhere, and null makes the pointer nil. *)
Definition unmarshal_into (l : extension) (decoded : SessionRecord) : extension :=
  match ExtendedAt decoded with
  | Some t => if aliased l then mkExtensionVars t decoded true else mkExtensionVars (extendedAt l) decoded false
  | None => mkExtensionVars (extendedAt l) decoded false
  end.

(** [result.ExtendedAt, result.ExpiresAt = &extendedAt, expiresAt] *)
Definition assign_extension (expiresAt : time) (l : extension) : extension :=
  let r := result_ l in
  mkExtensionVars (extendedAt l)
    (mkRecord (ID r) (SubjectID r) (TokenHash r) (CreatedAt r) expiresAt (ExtendedAt r) (RevokedAt r)) true.

Definition zeroRecord : SessionRecord := mkRecord "" "" zeroHash 0 0 None None.

Definition extend_transaction (sessions field : string) (expiresAt : time) (l : extension) :
    prog (extension * result unit) :=
  r <~ readJSON_or ErrInactive sessions field ;;
  match r with
  | Err err => Done (l, Err err)
  | Ok decoded =>
      let l := unmarshal_into l decoded in
      let record := result_of l in
      if negb (bool_decide (RevokedAt record = None)) || negb (Before (extendedAt l) (ExpiresAt record)) ||
         negb (Before (ExpiresAt record) expiresAt)
      then Done (l, Err ErrInactive) else
      let l := assign_extension expiresAt l in
      r <~ cmd (TxPipelined [HSet sessions [(field, encodeJSON (result_of l))]]) ;;
      Done (l, r)
  end.

Definition SessionStore_Extend (tokenHash : Hash) (extendedAt expiresAt : time) : M S (result SessionRecord) :=
  let sessions := key adapter "sessions" in
  let field := hashKey tokenHash in
  r <- watch adapter [sessions] (extend_transaction sessions field expiresAt)
         (mkExtensionVars extendedAt zeroRecord false) ;;
  let '(l, err) := r in
  match err with
  | Err err => ret (Err err)
  | Ok _ => ret (Ok (result_of l))
  end.

(** [record.RevokedAt = &at] *)
Definition set_RevokedAt (t : time) (r : SessionRecord) : SessionRecord :=
  mkRecord (ID r) (SubjectID r) (TokenHash r) (CreatedAt r) (ExpiresAt r) (ExtendedAt r) (Some t).

Definition rotate_session_transaction (current : Hash) (replacement : SessionRecord) (rotatedAt : time) :
    prog (result unit) :=
  let sessions := key adapter "sessions" in
  let sessionIDs := key adapter "session-ids" in
  let currentField := hashKey current in
  let replacementField := hashKey (TokenHash replacement) in
  let replacementSet := subjectSet (SubjectID replacement) in
  record <~? readJSON_or ErrNotFound sessions currentField ;;
  if negb (bool_decide (RevokedAt record = None)) || negb (Before rotatedAt (ExpiresAt record))
  then Done (Err ErrInactive) else
  exists_ <~? cmd (HExists sessions replacementField) ;;
  if exists_ : bool then Done (Err ErrConflict) else
  exists_ <~? cmd (HExists sessionIDs (ID replacement)) ;;
  if exists_ : bool then Done (Err ErrConflict) else
  let currentSet := subjectSet (SubjectID record) in
  cmd (TxPipelined
    [HSet sessions [(currentField, encodeJSON (set_RevokedAt rotatedAt record)); (replacementField, encodeJSON replacement)];
     HSet sessionIDs [(ID replacement, replacementField)];
     SAdd currentSet [currentField];
     SAdd replacementSet [replacementField]]).

Definition SessionStore_Rotate (current : Hash) (replacement : SessionRecord) (rotatedAt : time) : M S (result unit) :=
  watch_ adapter [key adapter "sessions"; key adapter "session-ids"; subjectSet (SubjectID replacement)]
    (rotate_session_transaction current replacement rotatedAt).

Definition revoke_transaction (tokenHash : Hash) (revokedAt : time) : prog (result unit) :=
  let sessions := key adapter "sessions" in
  let field := hashKey tokenHash in
  record <~? readJSON_or ErrNotFound sessions field ;;
  if negb (bool_decide (RevokedAt record = None)) then Done (Ok tt) else
  cmd (TxPipelined [HSet sessions [(field, encodeJSON (set_RevokedAt revokedAt record))]]).

Definition SessionStore_Revoke (tokenHash : Hash) (revokedAt : time) : M S (result unit) :=
  watch_ adapter [key adapter "sessions"] (revoke_transaction tokenHash revokedAt).

Definition revoke_unless (revokedAt : time) (record : SessionRecord) : SessionRecord :=
  if bool_decide (RevokedAt record = None) then set_RevokedAt revokedAt record else record.

(** It assigns the variable [records]. *)
Definition revokeAll_transaction (subjectID : string) (revokedAt : time) (records : list SessionRecord) :
    prog (list SessionRecord * result unit) :=
  let sessions := key adapter "sessions" in
  r <~ cmd (SMembers (subjectSet subjectID)) ;;
  match r with
  | Err err => Done (records, Err err)
  | Ok fields =>
      r <~ readAll sessions fields ;;
      match r with
      | Err err => Done ([], Err err)
      | Ok found =>
          let updates := prod_map id (revoke_unless revokedAt) <$> found in
          let records := snd <$> updates in
          if (length updates =? 0)%nat then Done (records, Ok tt) else
          r <~ cmd (TxPipelined [HSet sessions (prod_map id encodeJSON <$> updates)]) ;;
          Done (records, r)
      end
  end.

Definition SessionStore_RevokeAll (subjectID : string) (revokedAt : time) : M S (result (list SessionRecord)) :=
  r <- watch adapter [key adapter "sessions"; subjectSet subjectID] (revokeAll_transaction subjectID revokedAt) [] ;;
  let '(records, err) := r in
  match err with
  | Err err => ret (Err err)
  | Ok _ => ret (Ok records)
  end.

Definition SessionStore : Store S :=
  {| store_Create := SessionStore_Create;
     store_FindByTokenHash := SessionStore_FindByTokenHash;
     store_ListBySubject := SessionStore_ListBySubject;
     store_Extend := SessionStore_Extend;
     store_Rotate := SessionStore_Rotate;
     store_Revoke := SessionStore_Revoke;
     store_RevokeAll := SessionStore_RevokeAll |}.
End Sessions.

(** ** Refresh tokens and the sessions they renew *)
Section Bearer.
Import RefreshToken.
Context {S : Type} `{Env} `{JSON RefreshRecord} `{JSON BearerSession.AccessSession} (adapter : Adapter S).
Abbreviation AccessSession := BearerSession.AccessSession.

Definition sessionSet (sessionID : string) : string := key adapter ("refresh:session:" +:+ sessionID).

(** [record.RotatedAt = &at], [record.RevokedAt = &at], [session.RevokedAt = &at] *)
Definition set_RotatedAt (t : time) (r : RefreshRecord) : RefreshRecord :=
  mkRefresh (SessionID r) (TokenHash r) (CreatedAt r) (ExpiresAt r) (Some t) (RevokedAt r).
Definition set_TokenRevokedAt (t : time) (r : RefreshRecord) : RefreshRecord :=
  mkRefresh (SessionID r) (TokenHash r) (CreatedAt r) (ExpiresAt r) (RotatedAt r) (Some t).
Definition set_SessionRevokedAt (t : time) (a : AccessSession) : AccessSession :=
  BearerSession.mkAccess (BearerSession.as_ID a) (BearerSession.as_SubjectID a) (BearerSession.as_CreatedAt a)
    (BearerSession.as_ExpiresAt a) (Some t).

Definition RefreshTokenStore_Create (record : RefreshRecord) : M S (result unit) :=
  let refresh := key adapter "refresh-tokens" in
  let bySession := sessionSet (SessionID record) in
  let field := hashKey (TokenHash record) in
  let encoded := encodeJSON record in
  watch_ adapter [refresh; bySession]
    (exists_ <~? cmd (HExists refresh field) ;;
     if exists_ : bool then Done (Err ErrConflict) else
     cmd (TxPipelined [HSet refresh [(field, encoded)]; SAdd bySession [field]])).

Definition RefreshTokenStore_FindByTokenHash (tokenHash : Hash) : M S (result RefreshRecord) :=
  run (client adapter) (readJSON_or ErrNotFound (key adapter "refresh-tokens") (hashKey tokenHash)).

Definition revokeSessionInTransaction (sessionID : string) (revokedAt : time) : prog (result unit) :=
  let refresh := key adapter "refresh-tokens" in
  let access := key adapter "access-sessions" in
  fields <~? cmd (SMembers (sessionSet sessionID)) ;;
  found <~? readAll refresh fields ;;
  let updates := prod_map id (fun record =>
    encodeJSON (if bool_decide (RevokedAt record = None) then set_TokenRevokedAt revokedAt record else record)) <$> found in
  session <~ readJSON access sessionID ;;
  let revoked :=
    match session with
    | Ok session =>
        if bool_decide (BearerSession.as_RevokedAt session = None)
        then [HSet access [(sessionID, encodeJSON (set_SessionRevokedAt revokedAt session))]] else []
    | Err _ => []
    end in
  match session with
  | Err sessionErr =>
      if negb (errors_Is sessionErr Nil) then Done (Err sessionErr) else
      cmd (TxPipelined ((if (0 <? length updates)%nat then [HSet refresh updates] else []) ++ revoked))
  | Ok _ =>
      cmd (TxPipelined ((if (0 <? length updates)%nat then [HSet refresh updates] else []) ++ revoked))
  end.

(** [Rotate] shares the variable [reused] with its transaction. *)
Definition rotate_transaction (current : Hash) (replacement : RefreshRecord) (rotatedAt : time) (reused : bool) :
    prog (bool * result unit) :=
  let refresh := key adapter "refresh-tokens" in
  let currentField := hashKey current in
  let replacementField := hashKey (TokenHash replacement) in
  r <~ readJSON_or ErrNotFound refresh currentField ;;
  match r with
  | Err err => Done (reused, Err err)
  | Ok record =>
      if negb (bool_decide (RotatedAt record = None)) || negb (bool_decide (RevokedAt record = None)) ||
         negb (Before rotatedAt (ExpiresAt record))
      then
        r <~ revokeSessionInTransaction (SessionID record) rotatedAt ;;
        Done (true, r)
      else
      r <~ cmd (HExists refresh replacementField) ;;
      match r with
      | Err err => Done (reused, Err err)
      | Ok true => Done (reused, Err ErrConflict)
      | Ok false =>
          r <~ cmd (TxPipelined
            [HSet refresh [(currentField, encodeJSON (set_RotatedAt rotatedAt record)); (replacementField, encodeJSON replacement)];
             SAdd (sessionSet (SessionID replacement)) [replacementField]]) ;;
          Done (reused, r)
      end
  end.

Definition RefreshTokenStore_Rotate (current : Hash) (replacement : RefreshRecord) (rotatedAt : time) : M S (result unit) :=
  r <- watch adapter [key adapter "refresh-tokens"; key adapter "access-sessions"]
         (rotate_transaction current replacement rotatedAt) false ;;
  let '(reused, err) := r in
  match err with
  | Ok _ => if reused then ret (Err ErrReuseDetected) else ret (Ok tt)
  | Err err => ret (Err err)
  end.

Definition RefreshTokenStore_RevokeSession (sessionID : string) (revokedAt : time) : M S (result unit) :=
  watch_ adapter [key adapter "refresh-tokens"; key adapter "access-sessions"; sessionSet sessionID]
    (revokeSessionInTransaction sessionID revokedAt).

Definition RefreshTokenStore : Store S :=
  {| store_Create := RefreshTokenStore_Create;
     store_FindByTokenHash := RefreshTokenStore_FindByTokenHash;
     store_Rotate := RefreshTokenStore_Rotate;
     store_RevokeSession := RefreshTokenStore_RevokeSession |}.

Definition accessSet (subjectID : string) : string := key adapter ("access:subject:" +:+ subjectID).

Definition AccessSessionStore_CreateSession (session : AccessSession) (refreshToken : RefreshRecord) : M S (result unit) :=
  let access := key adapter "access-sessions" in
  let refresh := key adapter "refresh-tokens" in
  let subject := accessSet (BearerSession.as_SubjectID session) in
  let bySession := sessionSet (BearerSession.as_ID session) in
  let refreshField := hashKey (TokenHash refreshToken) in
  watch_ adapter [access; refresh; subject; bySession]
    (accessExists <~? cmd (HExists access (BearerSession.as_ID session)) ;;
     refreshExists <~? cmd (HExists refresh refreshField) ;;
     if accessExists || refreshExists then Done (Err ErrTransactionConflict) else
     cmd (TxPipelined
       [HSet access [(BearerSession.as_ID session, encodeJSON session)]; HSet refresh [(refreshField, encodeJSON refreshToken)];
        SAdd subject [BearerSession.as_ID session]; SAdd bySession [refreshField]])).

Definition AccessSessionStore_ResolveSession (sessionID : string) : M S (result AccessToken.Session) :=
  session <- run (client adapter) (readJSON (key adapter "access-sessions") sessionID) ;;
  match session with
  | Err err => if errors_Is err Nil then ret (Err Nil) else ret (Err err)
  | Ok session =>
      if negb (bool_decide (BearerSession.as_RevokedAt session = None)) then ret (Err AccessToken.ErrInactiveSession) else
      now <- read_now time_Now ;;
      if negb (Before now (BearerSession.as_ExpiresAt session)) then ret (Err AccessToken.ErrInactiveSession) else
      ret (Ok (AccessToken.mkSession (BearerSession.as_ID session) (BearerSession.as_SubjectID session)
                 (BearerSession.as_CreatedAt session) (BearerSession.as_ExpiresAt session)))
  end.

Definition later_access (left right : AccessSession) : Prop :=
  (BearerSession.as_CreatedAt right <= BearerSession.as_CreatedAt left)%Z.
#[local] Instance later_access_dec : RelDecision later_access.
Proof. intros left right. apply Z_le_dec. Defined.

Definition AccessSessionStore_ListBySubject (subjectID : string) : M S (result (list AccessSession)) :=
  run (client adapter)
    (ids <~? cmd (SMembers (accessSet subjectID)) ;;
     if (length ids =? 0)%nat then Done (Ok []) else
     values <~? cmd (HMGet (key adapter "access-sessions") ids) ;;
     match decodeRedisValues values with
     | Err err => Done (Err err)
     | Ok records => Done (Ok (merge_sort later_access records))
     end).

Definition AccessSessionStore_Revoke (sessionID : string) (revokedAt : time) : M S (result unit) :=
  watch_ adapter [key adapter "refresh-tokens"; key adapter "access-sessions"; sessionSet sessionID]
    (revokeSessionInTransaction sessionID revokedAt).

(** The loop of [RevokeAll]: what it writes to the sessions and to the tokens. *)
Fixpoint revokeSessions (ids : list string) (revokedAt : time) :
    prog (result (list (string * string) * list (string * string))) :=
  match ids with
  | [] => Done (Ok ([], []))
  | sessionID :: ids =>
      r <~ readJSON (key adapter "access-sessions") sessionID ;;
      match r with
      | Err err => if errors_Is err Nil then revokeSessions ids revokedAt else Done (Err err)
      | Ok session =>
          let accessUpdate :=
            if bool_decide (BearerSession.as_RevokedAt session = None)
            then [(sessionID, encodeJSON (set_SessionRevokedAt revokedAt session))] else [] in
          fields <~? cmd (SMembers (sessionSet sessionID)) ;;
          found <~? readAll (key adapter "refresh-tokens") fields ;;
          let refreshUpdate := prod_map id (fun record => encodeJSON (set_TokenRevokedAt revokedAt record)) <$>
            List.filter (fun fr => bool_decide (RevokedAt (snd fr) = None)) found in
          updates <~? revokeSessions ids revokedAt ;;
          Done (Ok (accessUpdate ++ fst updates, refreshUpdate ++ snd updates))
      end
  end.

Definition AccessSessionStore_RevokeAll (subjectID : string) (revokedAt : time) : M S (result unit) :=
  let access := key adapter "access-sessions" in
  let refresh := key adapter "refresh-tokens" in
  let subject := accessSet subjectID in
  watch_ adapter [access; refresh; subject]
    (ids <~? cmd (SMembers subject) ;;
     updates <~? revokeSessions ids revokedAt ;;
     let '(accessUpdates, refreshUpdates) := updates in
     cmd (TxPipelined
       ((if (0 <? length accessUpdates)%nat then [HSet access accessUpdates] else []) ++
        (if (0 <? length refreshUpdates)%nat then [HSet refresh refreshUpdates] else [])))).

Definition AccessSessionStore : BearerSession.AccessSessionStore S :=
  {| BearerSession.access_ResolveSession := AccessSessionStore_ResolveSession;
     BearerSession.access_CreateSession := AccessSessionStore_CreateSession;
     BearerSession.access_ListBySubject := AccessSessionStore_ListBySubject;
     BearerSession.access_Revoke := AccessSessionStore_Revoke;
     BearerSession.access_RevokeAll := AccessSessionStore_RevokeAll |}.
End Bearer.
