(* ===== verification/RedisSessionsSpec.v ===== *)
(** * Sessions in Redis keep the session contract

    What the transactions of the session store do to the table of sessions, the
    contract of SessionSpec for a client that is alone, and, among other
    clients, that each call changes the sessions at one instant or not at all. *)
From S2P Require Import Prelude GoText Token SessionToken SessionSpec Redis RedisSpec RedisSessions.
From stdpp Require Import sorting.

Section Rows.
Context {A : Type} `{JSON A} (id : A -> string) (field : string -> string) `{!Inj (=) (=) field}.

(** Reading many rows: those of the fields that are there. *)
Lemma runs_readAll name fields k (r : result (list (string * A))) k' :
  table_ok id field (hash_at k name) -> runs (readAll name fields) k r k' ->
  k' = k /\ forall rows, r = Ok rows ->
    (NoDup fields -> NoDup rows.*1) /\
    forall f a, (f, a) ∈ rows <-> f ∈ fields /\ exists v, hash_at k name !! f = Some v /\ json_Unmarshal v = Ok a.
Proof.
  intros Hok. revert r k'. induction fields as [|f fields IH]; cbn [readAll]; intros r k' Hr.
  - runs_go. split; [done|]. intros rows [= <-]. split; [intros _; apply NoDup_nil_2|].
    intros g a. split; [intros ?%not_elem_of_nil|intros [?%not_elem_of_nil _]]; done.
  - apply runs_bind in Hr as (x & k1 & [-> Hx]%runs_readJSON & Hr). destruct x as [a|e].
    + destruct Hx as (v & Hv & Ha). runs_go.
      * match goal with H : runs _ _ (Ok ?rest) _ |- _ => rename rest into rows; destruct (IH _ _ H) as [-> Hrows] end.
        split; [done|]. intros ? [= <-]. destruct (Hrows rows eq_refl) as [Hnd Hin]. split.
        -- intros [Hf Hfs]%list.NoDup_cons. apply NoDup_cons_2; [|by apply Hnd].
           intros ([g b] & E & Hb)%list_elem_of_fmap. simpl in E. subst g. by apply Hin in Hb as [? _].
        -- intros g b. rewrite !elem_of_cons, Hin. split.
           ++ intros [[= -> ->]|[Hg Hb]]; [split; [by left|by exists v]|split; [by right|done]].
           ++ intros [[->|Hg] (u & Hu & Hb)]; [left|right; split; [done|by exists u]].
              rewrite Hv in Hu. injection Hu as <-. congruence.
      * match goal with H : runs _ _ (Err _) _ |- _ => by destruct (IH _ _ H) as [-> _] end.
    + assert (Hgone : errors_Is e Nil = true -> hash_at k name !! f = None).
      { destruct Hx as [Hx|(v & Hv & He)]; [done|]. destruct (Hok _ _ Hv) as (a & Ha & _). congruence. }
      runs_go; [|done]. destruct (IH _ _ Hr) as [-> Hrows]. split; [done|]. intros rows ->.
      destruct (Hrows rows eq_refl) as [Hnd Hin]. split; [intros [_ ?]%list.NoDup_cons; by apply Hnd|].
      intros g b. rewrite elem_of_cons, Hin. split; [intros [Hg Hb]; split; [by right|done]|].
      intros [[->|Hg] (u & Hu & Hb)]; [|split; [done|by exists u]]. rewrite Hgone in Hu by done. done.
Qed.
End Rows.

Section Sessions.
Context {S : Type} `{Env} `{JSON SessionRecord} (adapter : Adapter S).

(** The sessions by token hash, and the invariant of the store: every row is
    filed under its hash, and the set of a subject has the rows of its sessions. *)
Definition sessions_of (k : keyspace) : gmap string SessionRecord :=
  table TokenHash (hash_at k (key adapter "sessions")).

Record sessions_ok (k : keyspace) : Prop := {
  ok_rows : table_ok TokenHash hashKey (hash_at k (key adapter "sessions"));
  ok_index subject f : f ∈ set_at k (subjectSet adapter subject) <->
    exists r, sessions_of k !! TokenHash r = Some r /\ f = hashKey (TokenHash r) /\ SubjectID r = subject;
}.

Lemma subjectSet_inj s s' : subjectSet adapter s = subjectSet adapter s' -> s = s'.
Proof. intros E%(inj (key adapter)). by injection E. Qed.

Lemma lookup_session k h r : sessions_ok k ->
  sessions_of k !! h = Some r <->
    exists v, hash_at k (key adapter "sessions") !! hashKey h = Some v /\ json_Unmarshal v = Ok r.
Proof. intros Hok. apply (table_lookup _ hashKey), Hok. Qed.

Lemma session_key k h r : sessions_ok k -> sessions_of k !! h = Some r -> TokenHash r = h.
Proof. intros Hok. apply (table_id _ hashKey), Hok. Qed.

(** A row is put in place, and its subject's set has it. *)
Lemma put_session r k k' :
  sessions_ok k ->
  hash_at k' (key adapter "sessions") =
    <[hashKey (TokenHash r) := json_Marshal r]> (hash_at k (key adapter "sessions")) ->
  (forall s f, f ∈ set_at k' (subjectSet adapter s) <->
     f ∈ set_at k (subjectSet adapter s) \/ s = SubjectID r /\ f = hashKey (TokenHash r)) ->
  (forall old, sessions_of k !! TokenHash r = Some old -> SubjectID old = SubjectID r) ->
  sessions_ok k' /\ sessions_of k' = <[TokenHash r := r]> (sessions_of k).
Proof.
  intros [Hrows Hindex] Hh Hs Hold.
  assert (Hsess : sessions_of k' = <[TokenHash r := r]> (sessions_of k)).
  { unfold sessions_of. rewrite Hh. by apply (table_insert _ hashKey). }
  split; [|done]. split; [rewrite Hh; by apply table_ok_insert|].
  intros s f. rewrite Hs, Hindex, Hsess. split.
  - intros [(x & Hx & -> & Hsub)|[-> ->]].
    + destruct (decide (TokenHash x = TokenHash r)) as [E|Hne].
      * exists r. rewrite lookup_insert_eq, E. split_and!; [done|done|]. rewrite E in Hx.
        rewrite <- (Hold x Hx). done.
      * exists x. by rewrite lookup_insert_ne by congruence.
    + exists r. by rewrite lookup_insert_eq.
  - intros (x & Hx & -> & Hsub). apply lookup_insert_Some in Hx as [[E <-]|[Hne Hx]]; [by right|left; by exists x].
Qed.

(** The row of a session that is there already. *)
Lemma replace_session old r k k' :
  sessions_ok k -> sessions_of k !! TokenHash r = Some old -> SubjectID old = SubjectID r ->
  hash_at k' (key adapter "sessions") =
    <[hashKey (TokenHash r) := json_Marshal r]> (hash_at k (key adapter "sessions")) ->
  (forall s, set_at k' (subjectSet adapter s) = set_at k (subjectSet adapter s)) ->
  sessions_ok k' /\ sessions_of k' = <[TokenHash r := r]> (sessions_of k).
Proof.
  intros Hok Hold Hsub Hh Hs. apply put_session; [done|done| |intros x Hx; congruence].
  intros s f. rewrite Hs. split; [by left|]. intros [Hf|[-> ->]]; [done|]. apply (ok_index k Hok).
  pose proof (session_key _ _ _ Hok Hold) as Hkey. exists old. rewrite Hkey. done.
Qed.

Lemma create_runs record k r k' :
  sessions_ok k -> runs (create_transaction adapter record) k r k' ->
  match r with
  | Ok _ => sessions_of k !! TokenHash record = None /\ sessions_ok k' /\
      sessions_of k' = <[TokenHash record := record]> (sessions_of k)
  | Err _ => k' = k
  end.
Proof.
  intros Hok Hr. unfold create_transaction in Hr. runs_go; try done.
  assert (Hnone : sessions_of k !! TokenHash record = None).
  { apply (table_None _ hashKey); [apply Hok|]. by apply not_present. }
  split; [done|]. apply put_session; [done|..].
  - autorewrite with redis. by key_cases.
  - intros s f. autorewrite with redis. case_decide as Hs; [apply subjectSet_inj in Hs as <-; set_solver|].
    split; [by left|]. intros [?|[-> _]]; [done|by destruct Hs].
  - intros old Hold. congruence.
Qed.

(** The session a transaction has read. *)
Lemma found_session k h x :
  sessions_ok k ->
  (forall a, Ok x = Ok a -> exists v, hash_at k (key adapter "sessions") !! hashKey h = Some v /\ json_Unmarshal v = Ok a) ->
  sessions_of k !! h = Some x /\ TokenHash x = h.
Proof.
  intros Hok Hx. assert (Hs : sessions_of k !! h = Some x) by (apply lookup_session; [done|by apply Hx]).
  split; [done|]. by eapply session_key.
Qed.

Lemma set_RevokedAt_record at_ x : RevokedAt x = None -> set_RevokedAt at_ x = revoke_record at_ x.
Proof. unfold set_RevokedAt, revoke_record. by intros ->. Qed.

Lemma revoke_record_revoked at_ x : RevokedAt x <> None -> revoke_record at_ x = x.
Proof. destruct x as [i s h c e x [t|]]; [done|]. intros Hne. by destruct Hne. Qed.

Lemma revoke_unless_record at_ x : revoke_unless at_ x = revoke_record at_ x.
Proof.
  unfold revoke_unless. case_bool_decide; [by apply set_RevokedAt_record|by rewrite revoke_record_revoked].
Qed.

Lemma revoke_runs h at_ k r k' :
  sessions_ok k -> runs (revoke_transaction adapter h at_) k r k' ->
  match r with
  | Ok _ => exists x, sessions_of k !! h = Some x /\ sessions_ok k' /\
      sessions_of k' = <[h := revoke_record at_ x]> (sessions_of k)
  | Err _ => k' = k
  end.
Proof.
  intros Hok Hr. unfold revoke_transaction in Hr. runs_go; try done;
    destruct (found_session _ _ _ Hok ltac:(eassumption)) as [Hx Hkey]; exists x; (split; [done|]); go_bool.
  - split; [done|]. rewrite revoke_record_revoked by done. by rewrite insert_id.
  - rewrite set_RevokedAt_record by done. rewrite <- Hkey.
    apply (replace_session x (revoke_record at_ x)); try done; [by rewrite <- Hkey in Hx|].
    autorewrite with redis. by key_cases.
Qed.

Lemma rotate_runs h replacement at_ k r k' :
  sessions_ok k -> runs (rotate_session_transaction adapter h replacement at_) k r k' ->
  match r with
  | Ok _ => exists x, sessions_of k !! h = Some x /\ sessions_of k !! TokenHash replacement = None /\
      RevokedAt x = None /\ (at_ < ExpiresAt x)%Z /\ sessions_ok k' /\
      sessions_of k' = <[TokenHash replacement := replacement]> (<[h := revoke_record at_ x]> (sessions_of k))
  | Err _ => k' = k
  end.
Proof.
  intros Hok Hr. unfold rotate_session_transaction in Hr. runs_go; try done.
  destruct (found_session _ _ _ Hok ltac:(eassumption)) as [Hx Hkey]. go_bool.
  assert (Hnone : sessions_of k !! TokenHash replacement = None).
  { apply (table_None _ hashKey); [apply Hok|]. by apply not_present. }
  assert (Hne : h <> TokenHash replacement) by congruence.
  exists x. do 4 (split; [done|]). rewrite set_RevokedAt_record by done.
  set (k1 := put_hash (key adapter "sessions")
    (<[hashKey h := json_Marshal (revoke_record at_ x)]> (hash_at k (key adapter "sessions"))) k).
  destruct (replace_session x (revoke_record at_ x) k k1) as [Hok1 Hs1]; try done; [by rewrite <- Hkey in Hx| |].
  { unfold k1. autorewrite with redis. key_cases. by rewrite <- Hkey. }
  assert (Hkey' : TokenHash (revoke_record at_ x) = h) by done. rewrite Hkey' in Hs1. rewrite <- Hs1.
  apply put_session; [done|..].
  - unfold k1. autorewrite with redis. by key_cases.
  - intros s f. autorewrite with redis. unfold k1. autorewrite with redis.
    assert (Hin : hashKey h ∈ set_at k (subjectSet adapter (SubjectID x)))
      by (apply (ok_index k Hok); exists x; by rewrite Hkey).
    clear Hs1 Hok1 Hnone H3 H4 H2 Hkey'. clearbody k1.
    repeat case_decide; repeat match goal with E : subjectSet _ _ = subjectSet _ _ |- _ => apply subjectSet_inj in E end;
      rewrite ?elem_of_union, ?elem_of_singleton, ?elem_of_empty; subst; intuition congruence.
  - intros old. rewrite Hs1, lookup_insert_ne by done. congruence.
Qed.

(** [Extend], from variables that no failed attempt has left a pointer in. *)
Lemma extend_runs h at_ expires r0 k l r k' :
  sessions_ok k ->
  runs (extend_transaction (key adapter "sessions") (hashKey h) expires (mkExtensionVars at_ r0 false)) k (l, r) k' ->
  match r with
  | Ok _ => exists x, sessions_of k !! h = Some x /\ RevokedAt x = None /\ (at_ < ExpiresAt x < expires)%Z /\
      result_of l = extend_record at_ expires x /\ sessions_ok k' /\
      sessions_of k' = <[h := result_of l]> (sessions_of k)
  | Err e => k' = k /\ (errors_Is e TxFailedErr = true -> extendedAt l = at_ /\ aliased l = false)
  end.
Proof.
  intros Hok Hr. unfold extend_transaction in Hr. apply runs_bind in Hr as (rd & k1 & [-> Hrd]%runs_readJSON_or & Hr).
  destruct rd as [x|e]; [|by destruct Hr as [[= -> ->] ->]].
  destruct (found_session _ _ _ Hok Hrd) as [Hx Hkey].
  assert (Hun : unmarshal_into (mkExtensionVars at_ r0 false) x = mkExtensionVars at_ x false).
  { unfold unmarshal_into. by destruct (ExtendedAt x). }
  rewrite Hun in Hr. cbn [result_of aliased result_ extendedAt] in Hr.
  destruct (negb _ || _ || _) eqn:Hb; [by destruct Hr as [[= -> ->] ->]|]. go_bool.
  set (x' := extend_record at_ expires x).
  assert (Hassign : result_of (assign_extension expires (mkExtensionVars at_ x false)) = x') by done.
  rewrite Hassign in Hr. apply runs_bind in Hr as (rt & k2 & Ht & [[= -> ->] ->]).
  apply runs_cmd in Ht. simpl in Ht. destruct rt as [[]|e]; [|destruct Ht as [He ->]; split; [done|congruence]].
  exists x. subst k2. rewrite Hassign. do 4 (split; [done|]). rewrite <- Hkey.
  apply (replace_session x x'); try done; [by rewrite <- Hkey in Hx|]. autorewrite with redis. by key_cases.
Qed.

Lemma revoke_subject_lookup subject at_ (σ : gmap string SessionRecord) h r :
  (revoke_subject subject at_ <$> σ) !! h = Some r <->
    exists x, σ !! h = Some x /\ r = revoke_subject subject at_ x.
Proof. rewrite lookup_fmap. destruct (σ !! h); simpl; naive_solver. Qed.

(** The rows of a subject, revoked. *)
Lemma revoke_rows subject at_ (rows : list SessionRecord) k k' :
  sessions_ok k -> NoDup (TokenHash <$> rows) ->
  (forall a, a ∈ rows <-> sessions_of k !! TokenHash a = Some a /\ SubjectID a = subject) ->
  hash_at k' (key adapter "sessions") =
    hset ((fun a => (hashKey (TokenHash a), json_Marshal a)) <$> (revoke_record at_ <$> rows))
      (hash_at k (key adapter "sessions")) ->
  (forall s, set_at k' (subjectSet adapter s) = set_at k (subjectSet adapter s)) ->
  sessions_ok k' /\ sessions_of k' = revoke_subject subject at_ <$> sessions_of k /\
  forall x, x ∈ (revoke_record at_ <$> rows) <-> sessions_of k' !! TokenHash x = Some x /\ SubjectID x = subject.
Proof.
  intros Hok Hnd Hrows Hh Hs.
  destruct (table_hset TokenHash hashKey (revoke_record at_ <$> rows) _ (ok_rows k Hok)) as [Hrk Ht].
  rewrite <- Hh in Hrk, Ht. change (table TokenHash (hash_at k' (key adapter "sessions"))) with (sessions_of k') in Ht.
  change (table TokenHash (hash_at k (key adapter "sessions"))) with (sessions_of k) in Ht.
  assert (Hids : TokenHash <$> (revoke_record at_ <$> rows) = TokenHash <$> rows) by by rewrite <- list_fmap_compose.
  assert (Hsess : sessions_of k' = revoke_subject subject at_ <$> sessions_of k).
  { apply map_eq. intros h. apply option_eq. intros r.
    rewrite Ht, revoke_subject_lookup, (fold_insert_lookup TokenHash hashKey); [|by rewrite Hids]. rewrite Hids. split.
    - intros [[Hr Hk]|[Hn Hr]].
      + apply list_elem_of_fmap in Hr as (x & -> & [Hx Hsub]%Hrows). exists x. simpl in Hk. rewrite <- Hk. split; [done|].
        unfold revoke_subject. by rewrite Hsub, String.eqb_refl.
      + exists r. split; [done|]. unfold revoke_subject. destruct (String.eqb_spec (SubjectID r) subject) as [E|]; [|done].
        destruct Hn. apply list_elem_of_fmap. exists r. pose proof (session_key _ _ _ Hok Hr) as Hkey.
        split; [done|]. apply Hrows. by rewrite Hkey.
    - intros (x & Hx & ->). pose proof (session_key _ _ _ Hok Hx) as Hkey. unfold revoke_subject.
      destruct (String.eqb_spec (SubjectID x) subject) as [E|Hne].
      + left. split; [|done]. apply list_elem_of_fmap. exists x. split; [done|]. apply Hrows. by rewrite Hkey.
      + right. split; [|done]. intros (y & Ey & [Hy Hsub]%Hrows)%list_elem_of_fmap. rewrite <- Ey in Hy. congruence. }
  assert (Hmem : forall x, x ∈ (revoke_record at_ <$> rows) <-> sessions_of k' !! TokenHash x = Some x /\ SubjectID x = subject).
  { intros x. rewrite Hsess, revoke_subject_lookup, list_elem_of_fmap. split.
    - intros (y & -> & [Hy Hsub]%Hrows). split; [|done]. exists y. split; [done|].
      unfold revoke_subject. by rewrite Hsub, String.eqb_refl.
    - intros [(y & Hy & E) Hsub]. exists y. unfold revoke_subject in E.
      destruct (String.eqb_spec (SubjectID y) subject) as [Ey|Hne]; [|congruence]. split; [done|].
      apply Hrows. split; [|done]. by rewrite (session_key _ _ _ Hok Hy). }
  split; [|done]. split; [done|]. intros s f. rewrite Hs, (ok_index k Hok), Hsess. split.
  - intros (x & Hx & -> & Hsub). exists (revoke_subject subject at_ x).
    assert (Hsame : TokenHash (revoke_subject subject at_ x) = TokenHash x /\ SubjectID (revoke_subject subject at_ x) = SubjectID x)
      by (unfold revoke_subject; by destruct (String.eqb _ _)).
    destruct Hsame as [-> ->]. split; [|done]. apply revoke_subject_lookup. by exists x.
  - intros (x & Hx & -> & Hsub). apply revoke_subject_lookup in Hx as (y & Hy & ->). exists y.
    assert (Hsame : TokenHash (revoke_subject subject at_ y) = TokenHash y /\ SubjectID (revoke_subject subject at_ y) = SubjectID y)
      by (unfold revoke_subject; by destruct (String.eqb _ _)).
    destruct Hsame as [E1 E2]. rewrite E1, E2 in *. done.
Qed.

Lemma revokeAll_runs subject at_ records k l r k' :
  sessions_ok k -> runs (revokeAll_transaction adapter subject at_ records) k (l, r) k' ->
  match r with
  | Ok _ => sessions_ok k' /\ sessions_of k' = revoke_subject subject at_ <$> sessions_of k /\
      forall x, x ∈ l <-> sessions_of k' !! TokenHash x = Some x /\ SubjectID x = subject
  | Err _ => k' = k
  end.
Proof.
  intros Hok Hr. unfold revokeAll_transaction in Hr.
  apply runs_bind in Hr as (rf & k1 & Hf & Hr). apply runs_cmd in Hf as [-> Hf].
  destruct rf as [fields|e]; [|by destruct Hr as [[= -> ->] ->]]. destruct Hf as [Hnd Hfields].
  apply runs_bind in Hr as (rr & k1 & Hrows & Hr).
  apply (runs_readAll TokenHash hashKey) in Hrows as [-> Hrows]; [|by apply Hok].
  destruct rr as [found|e]; [|by destruct Hr as [[= -> ->] ->]].
  destruct (Hrows found eq_refl) as [Hndf Hin]. specialize (Hndf Hnd).
  assert (Hfound : forall f a, (f, a) ∈ found <->
    f = hashKey (TokenHash a) /\ sessions_of k !! TokenHash a = Some a /\ SubjectID a = subject).
  { intros f a. rewrite Hin, Hfields, (ok_index k Hok). split.
    - intros [(x & Hx & -> & Hsub) Ha]. apply lookup_session in Ha; [|done].
      rewrite Ha in Hx. injection Hx as ->. done.
    - intros (-> & Ha & Hsub). split; [by exists a|]. by apply lookup_session in Ha. }
  assert (Hshape : found = (fun a => (hashKey (TokenHash a), a)) <$> found.*2).
  { rewrite <- list_fmap_compose. transitivity (Datatypes.id <$> found); [by rewrite list_fmap_id|]. apply list_fmap_ext. intros i [f a] Hi.
    apply list_elem_of_lookup_2, Hfound in Hi as [-> _]. done. }
  assert (Hndr : NoDup (TokenHash <$> found.*2)).
  { apply (NoDup_fmap_1 hashKey). rewrite Hshape, <- list_fmap_compose in Hndf. by rewrite <- list_fmap_compose. }
  assert (Hmem : forall a, a ∈ found.*2 <-> sessions_of k !! TokenHash a = Some a /\ SubjectID a = subject).
  { intros a. rewrite list_elem_of_fmap. split.
    - intros ([f b] & -> & [_ Hb]%Hfound). done.
    - intros Ha. exists (hashKey (TokenHash a), a). split; [done|]. by apply Hfound. }
  assert (Hrec : (prod_map id (revoke_unless at_) <$> found).*2 = revoke_record at_ <$> found.*2).
  { rewrite <- !list_fmap_compose. apply list_fmap_ext. intros i [f a] _. simpl. apply revoke_unless_record. }
  assert (Hup : prod_map id encodeJSON <$> (prod_map id (revoke_unless at_) <$> found) =
    (fun a => (hashKey (TokenHash a), json_Marshal a)) <$> (revoke_record at_ <$> found.*2)).
  { rewrite Hshape at 1. rewrite <- !list_fmap_compose. apply list_fmap_ext. intros i [f a] _. simpl.
    by rewrite revoke_unless_record. }
  rewrite Hrec, Hup in Hr. destruct (length _ =? 0) eqn:Hlen.
  - destruct Hr as [[= -> ->] ->]. apply Nat.eqb_eq in Hlen. rewrite length_fmap in Hlen.
    destruct found; [|done]. by apply (revoke_rows subject at_ []).
  - apply runs_bind in Hr as (rt & k2 & Ht & [[= -> ->] ->]). apply runs_cmd in Ht. simpl in Ht.
    destruct rt as [[]|e]; [|by destruct Ht as [_ ->]]. subst k2.
    apply (revoke_rows subject at_ found.*2 k); try done. autorewrite with redis. by key_cases.
Qed.

(** ** Listing *)
Lemma decode_present {A} `{JSON A} (h : gmap string string) (fields : list string) (rows : list A) :
  decodeRedisValues ((fun f => match h !! f with Some v => any_string v | None => any_nil end) <$> fields) = Ok rows ->
  forall a, a ∈ rows <-> exists f v, f ∈ fields /\ h !! f = Some v /\ json_Unmarshal v = Ok a.
Proof.
  revert rows. induction fields as [|f fields IH]; simpl; intros rows.
  - intros [= <-] a. split; [intros ?%not_elem_of_nil|intros (f & v & ?%not_elem_of_nil & _)]; done.
  - intros Hd a. destruct (h !! f) as [v|] eqn:Hf; simpl in Hd.
    + destruct (json_Unmarshal v) as [b|] eqn:Hv; [|done]. destruct (decodeRedisValues _) as [rest|]; [|done].
      injection Hd as <-. rewrite elem_of_cons, (IH rest eq_refl). split.
      * intros [->|(g & u & Hg & Hu & Ha)]; [exists f, v|exists g, u]; rewrite elem_of_cons; auto.
      * intros (g & u & [->|Hg]%elem_of_cons & Hu & Ha); [left; congruence|right; by exists g, u].
    + rewrite (IH rows Hd). split.
      * intros (g & u & Hg & Hu & Ha). exists g, u. rewrite elem_of_cons. auto.
      * intros (g & u & [->|Hg]%elem_of_cons & Hu & Ha); [congruence|by exists g, u].
Qed.

Lemma list_runs subject k r k' :
  sessions_ok k -> runs (list_commands adapter subject) k r k' ->
  k' = k /\ forall rs, r = Ok rs -> forall x, x ∈ rs <-> sessions_of k !! TokenHash x = Some x /\ SubjectID x = subject.
Proof.
  intros Hok Hr. unfold list_commands in Hr. apply runs_bind_ok in Hr as [(fields & k1 & Hf & Hr)|(e & Hf & ->)];
    apply runs_cmd in Hf as [-> Hf]; [|done]. simpl in Hf. destruct Hf as [_ Hf].
  assert (Hin : forall y, (exists f v, f ∈ fields /\ hash_at k (key adapter "sessions") !! f = Some v /\ json_Unmarshal v = Ok y) <->
    sessions_of k !! TokenHash y = Some y /\ SubjectID y = subject).
  { intros y. split.
    - intros (f & v & Hfs & Hv & Hy). apply Hf, (ok_index k Hok) in Hfs as (z & Hz & -> & Hsub).
      pose proof Hz as (u & Hu & Hz')%lookup_session; [|done]. rewrite Hv in Hu. injection Hu as <-.
      rewrite Hy in Hz'. injection Hz' as ->. done.
    - intros [Hy Hsub]. pose proof Hy as (v & Hv & Hy')%lookup_session; [|done].
      exists (hashKey (TokenHash y)), v. split; [|done]. apply Hf, (ok_index k Hok). by exists y. }
  destruct (length fields =? 0) eqn:Hl.
  - destruct Hr as [-> ->]. split; [done|]. intros rs [= <-] y. rewrite <- Hin. apply Nat.eqb_eq in Hl.
    destruct fields; [|done]. split; [intros ?%not_elem_of_nil|intros (f & v & ?%not_elem_of_nil & _)]; done.
  - apply runs_bind_ok in Hr as [(values & k1 & Hv & Hr)|(e & Hv & ->)]; apply runs_cmd in Hv as [-> Hv]; [|done].
    simpl in Hv. subst values. destruct (decodeRedisValues _) as [rows|e] eqn:Hd; destruct Hr as [-> ->]; (split; [done|]);
      intros rs [= <-] y. rewrite <- Hin. unfold sortSessions. rewrite merge_sort_Permutation. by apply decode_present.
Qed.

(** ** The contract, for a client that is alone *)
Section Contract.
Context (keys : S -> keyspace) (cache : S -> gmap string string) (others : keyspace -> keyspace -> Prop) (alone : Prop).
Context `{!RedisLaws (client adapter) keys cache others alone} (Halone : alone).
Context (c : SessionCache S) (Hc : cache_client c = client adapter).

#[local] Instance cache_key_inj : Inj (=) (=) (cache_key c).
Proof. intros a b E. unfold cache_key in E. apply (inj (String.append _)) in E. by apply (inj hashKey). Qed.

Definition redis_wf (s : S) : Prop := sessions_ok (keys s) /\ table_ok TokenHash (cache_key c) (cache s).
Definition redis_view (s : S) : sessions_state := mkState (sessions_of (keys s)) (table TokenHash (cache s)).

(** A call that leaves the cache to expire. *)
Lemma cache_expires s s' :
  redis_wf s -> sessions_ok (keys s') -> cache s' ⊆ cache s ->
  redis_wf s' /\ cached (redis_view s') ⊆ cached (redis_view s).
Proof.
  intros [Hok Hcache] Hok' Hsub. split; [split; [done|by eapply table_ok_subseteq]|]. simpl.
  by apply (table_subseteq _ (cache_key c)).
Qed.

Lemma keys_unchanged s s' :
  redis_wf s -> keys s' = keys s -> cache s' ⊆ cache s -> redis_wf s' /\ durable_unchanged (redis_view s) (redis_view s').
Proof.
  intros Hwf Hk Hsub. destruct (cache_expires s s' Hwf) as [Hwf' Hc']; [rewrite Hk; apply Hwf|done|].
  split; [done|]. split; [simpl; by rewrite Hk|done].
Qed.

(** A transaction that succeeds by [Q], or fails and changes nothing. *)
Lemma wp_watch_contract ks op (Q : keyspace -> keyspace -> Prop) w :
  redis_wf (ext w) ->
  (forall k r k', sessions_ok k -> runs op k r k' ->
     match r with Ok _ => sessions_ok k' /\ Q k k' | Err _ => k' = k end) ->
  wp (watch_ adapter ks op) (fun r w' => redis_wf (ext w') /\
    match r with
    | Ok _ => Q (keys (ext w)) (keys (ext w')) /\ cached (redis_view (ext w')) ⊆ cached (redis_view (ext w))
    | Err _ => durable_unchanged (redis_view (ext w)) (redis_view (ext w'))
    end) w.
Proof.
  intros Hwf Hop. eapply wp_mono.
  - apply wp_and; [by apply (wp_watch__cache adapter keys cache others alone)|].
    apply (wp_watch__alone adapter keys cache others alone Halone ks op
      (fun k' => sessions_ok k' /\ Q (keys (ext w)) k')). intros r k' Hr. apply Hop in Hr; [done|apply Hwf].
  - intros [[]|e] w' [Hsub Hr].
    + destruct Hr as [Hok HQ]. by destruct (cache_expires (ext w) (ext w') Hwf Hok Hsub).
    + by apply keys_unchanged.
Qed.

(** A program of commands that write nothing. *)
Lemma wp_read_contract {A} (p : prog (result A)) (Q : keyspace -> result A -> Prop) w :
  redis_wf (ext w) ->
  (forall k r k', sessions_ok k -> runs p k r k' -> k' = k /\ Q k r) ->
  wp (run (client adapter) p) (fun r w' => redis_wf (ext w') /\
    durable_unchanged (redis_view (ext w)) (redis_view (ext w')) /\ Q (keys (ext w)) r) w.
Proof.
  intros Hwf Hp. eapply wp_mono.
  - apply wp_and; [by apply (wp_run_cache adapter keys cache others alone p)|].
    by apply (wp_run_alone adapter keys cache others alone).
  - intros r w' [Hsub Hr]. apply Hp in Hr as [Hk HQ]; [|apply Hwf]. by destruct (keys_unchanged (ext w) (ext w') Hwf Hk Hsub).
Qed.

#[export] Instance redis_store_contract : StoreContract (SessionStore adapter) redis_wf redis_view.
Proof.
  split; simpl.
  - intros w h r [Hok _] Hr. by eapply session_key.
  - intros r w Hwf. eapply wp_mono.
    { apply (wp_watch_contract _ _ (fun k k' => sessions_of k !! TokenHash r = None /\
        sessions_of k' = <[TokenHash r := r]> (sessions_of k)) w Hwf).
      intros k res k' Hok Hr. apply create_runs in Hr; [|done]. destruct res; [naive_solver|done]. }
    intros [[]|e] w' [Hwf' Hr]; [|done]. destruct Hr as [[Hn Hs] Hsub]. done.
  - intros h w Hwf. eapply wp_mono.
    { apply (wp_read_contract _ (fun k res => forall r, res = Ok r -> sessions_of k !! h = Some r) w Hwf).
      intros k res k' Hok [-> Hr]%runs_readJSON_or. split; [done|]. intros r E. apply lookup_session; auto. }
    done.
  - intros subject w Hwf. eapply wp_mono.
    { apply (wp_read_contract _ (fun k res => forall rs, res = Ok rs -> forall r,
        r ∈ rs <-> sessions_of k !! TokenHash r = Some r /\ SubjectID r = subject) w Hwf).
      intros k res k' Hok Hr. by apply list_runs in Hr. }
    done.
  - intros h at_ expires w Hwf. unfold SessionStore_Extend. wp_go. eapply wp_mono.
    { apply wp_and; [by apply (wp_watch_cache adapter keys cache others alone)|].
      apply (wp_watch_alone adapter keys cache others alone Halone [key adapter "sessions"]
        (extend_transaction (key adapter "sessions") (hashKey h) expires) (mkExtensionVars at_ zeroRecord false)
        (fun l => extendedAt l = at_ /\ aliased l = false)
        (fun l k' => exists x, sessions_of (keys (ext w)) !! h = Some x /\ RevokedAt x = None /\
           (at_ < ExpiresAt x < expires)%Z /\ result_of l = extend_record at_ expires x /\ sessions_ok k' /\
           sessions_of k' = <[h := result_of l]> (sessions_of (keys (ext w))))); [done|].
      intros [e0 r0 a0] r l' k' [Hl1 Hl2] Hr. simpl in Hl1, Hl2. subst. apply extend_runs in Hr; [by destruct r|apply Hwf]. }
    intros [l [[]|e]] w' [Hsub Hr]; simpl in Hr; wp_go; [|by apply keys_unchanged].
    destruct Hr as (x & Hx & Hrev & Hlt & Hres & Hok' & Hs').
    destruct (cache_expires (ext w) (ext w') Hwf Hok' Hsub) as [Hwf' Hc']. split; [done|].
    exists x. split_and!; try done; lia.
  - intros h r at_ w Hwf. eapply wp_mono.
    { apply (wp_watch_contract _ _ (fun k k' => exists x, sessions_of k !! h = Some x /\
        sessions_of k !! TokenHash r = None /\ RevokedAt x = None /\ (at_ < ExpiresAt x)%Z /\
        sessions_of k' = <[TokenHash r := r]> (<[h := revoke_record at_ x]> (sessions_of k))) w Hwf).
      intros k res k' Hok Hr. apply rotate_runs in Hr; [|done]. destruct res; [naive_solver|done]. }
    intros [[]|e] w' [Hwf' Hr]; [|done]. destruct Hr as [(x & Hx & Hn & Hrev & Hlt & Hs) Hsub]. split; [done|]. by exists x.
  - intros h at_ w Hwf. eapply wp_mono.
    { apply (wp_watch_contract _ _ (fun k k' => exists x, sessions_of k !! h = Some x /\
        sessions_of k' = <[h := revoke_record at_ x]> (sessions_of k)) w Hwf).
      intros k res k' Hok Hr. apply revoke_runs in Hr; [|done]. destruct res; [naive_solver|done]. }
    intros [[]|e] w' [Hwf' Hr]; [|done]. destruct Hr as [(x & Hx & Hs) Hsub]. split; [done|]. by exists x.
  - intros subject at_ w Hwf. unfold SessionStore_RevokeAll. wp_go. eapply wp_mono.
    { apply wp_and; [by apply (wp_watch_cache adapter keys cache others alone)|].
      apply (wp_watch_alone adapter keys cache others alone Halone _ _ _ (fun _ => True)
        (fun l k' => sessions_ok k' /\ sessions_of k' = revoke_subject subject at_ <$> sessions_of (keys (ext w)) /\
           forall x, x ∈ l <-> sessions_of k' !! TokenHash x = Some x /\ SubjectID x = subject)); [done|].
      intros l0 r l' k' _ Hr. apply revokeAll_runs in Hr; [by destruct r|apply Hwf]. }
    intros [l [[]|e]] w' [Hsub Hr]; simpl in Hr; wp_go; [|by apply keys_unchanged].
    destruct Hr as (Hok' & Hs' & Hl). rewrite Hs' in Hl.
    by destruct (cache_expires (ext w) (ext w') Hwf Hok' Hsub) as [Hwf' Hc'].
Qed.

#[export] Instance redis_cache_contract : CacheContract (sessionCache c) redis_wf redis_view.
Proof.
  assert (Hkeep : forall s s', redis_wf s -> others (keys s) (keys s') -> cache s' ⊆ cache s ->
    redis_wf s' /\ durable_unchanged (redis_view s) (redis_view s')).
  { intros s s' Hwf Ho Hsub. apply keys_unchanged; [done| |done]. by eapply alone_others. }
  split; simpl.
  - intros h w Hwf. unfold SessionCache_Get. rewrite Hc. wp_go. eapply wp_mono; [by apply client_Get_law|].
    intros r w1 (Ho & Hsub & Hr). destruct (Hkeep _ _ Hwf Ho Hsub) as [Hwf1 Hd]. wp_go; try done.
    do 2 (split; [done|]). intros x Hj. apply (table_lookup _ (cache_key c)); [apply Hwf|].
    eexists. split; [by apply Hr|done].
  - intros r ttl w Hwf. unfold SessionCache_Set. wp_go; [by auto|]. rewrite Hc.
    eapply wp_mono; [by apply client_Set_law|]. intros res w1 [Ho Hsub]. apply alone_others in Ho; [|done].
    destruct Hwf as [Hok Hcache]. simpl. rewrite Ho. destruct Hsub as [Hsub|Hsub].
    + split; [split; [by rewrite Ho|eapply table_ok_subseteq; [done|by apply table_ok_insert]]|]. split; [done|left].
      rewrite <- (table_insert TokenHash (cache_key c)) by done.
      apply (table_subseteq _ (cache_key c)); [done|by apply table_ok_insert].
    + split; [split; [by rewrite Ho|by eapply table_ok_subseteq]|]. split; [done|right].
      by apply (table_subseteq _ (cache_key c)).
  - intros h w Hwf. unfold SessionCache_Delete. rewrite Hc. eapply wp_mono; [by apply client_Del_law|].
    intros r w1 (Ho & Hsub & Hr). destruct (Hkeep _ _ Hwf Ho Hsub) as [Hwf1 Hd]. do 2 (split; [done|]).
    intros ->. apply (table_None _ (cache_key c)); [apply Hwf1|]. by apply Hr.
Qed.
End Contract.

(** ** Among other clients *)
Section Others.
Context (others : keyspace -> keyspace -> Prop).

Lemma reading_readAll {A} `{JSON A} ks name fields :
  covered others ks name -> reading others ks (readAll (A := A) name fields).
Proof.
  intros Hc. induction fields as [|f fields IH]; [done|]. cbn [readAll]. apply reading_bind; [by apply reading_readJSON|].
  intros [a|e]; [apply reading_bind; [done|]; by intros [rows|e]|]. by destruct (errors_Is e Nil).
Qed.

Lemma create_transacts record :
  transaction others [key adapter "sessions"; key adapter "session-ids"; subjectSet adapter (SubjectID record)]
    (create_transaction adapter record).
Proof. unfold create_transaction. transaction_go. Qed.

Lemma rotate_transacts h replacement at_ :
  transaction others [key adapter "sessions"; key adapter "session-ids"; subjectSet adapter (SubjectID replacement)]
    (rotate_session_transaction adapter h replacement at_).
Proof. unfold rotate_session_transaction. transaction_go. Qed.

Lemma revoke_transacts h at_ : transaction others [key adapter "sessions"] (revoke_transaction adapter h at_).
Proof. unfold revoke_transaction. transaction_go. Qed.

Lemma extend_transacts h expires l :
  transaction others [key adapter "sessions"] (extend_transaction (key adapter "sessions") (hashKey h) expires l).
Proof. unfold extend_transaction. transaction_go. Qed.

Lemma revokeAll_transacts subject at_ records :
  transaction others [key adapter "sessions"; subjectSet adapter subject] (revokeAll_transaction adapter subject at_ records).
Proof. unfold revokeAll_transaction. transaction_go. apply reading_readAll. transaction_go. Qed.

(** The other clients keep the invariant, and no client removes a session. *)
Context (keys : S -> keyspace) (cache : S -> gmap string string) (alone : Prop).
Context `{!RedisLaws (client adapter) keys cache others alone}.
Hypothesis others_ok : forall k k', others k k' -> sessions_ok k -> sessions_ok k'.
Hypothesis others_keep : forall k k' h, others k k' -> is_Some (sessions_of k !! h) -> is_Some (sessions_of k' !! h).

Abbreviation here w := (keys (ext w)).

(** The sessions change by [Q] at one instant. *)
Definition changed (Q : gmap string SessionRecord -> gmap string SessionRecord -> Prop) (k k' : keyspace) : Prop :=
  exists k1 k2, others k k1 /\ sessions_ok k1 /\ Q (sessions_of k1) (sessions_of k2) /\ others k2 k'.

Lemma changed_trans Q k1 k2 k3 k4 : others k1 k2 -> changed Q k2 k3 -> others k3 k4 -> changed Q k1 k4.
Proof.
  intros H1 (k & k' & Ho & Hok & HQ & Ho') H4. exists k, k'. split_and!; try done; by eapply others_trans.
Qed.

Lemma wp_watch_changed ks op Q w :
  sessions_ok (here w) -> transaction others ks op -> (forall k e k', runs op k (Err e) k' -> k' = k) ->
  (forall k k', sessions_ok k -> runs op k (Ok tt) k' -> Q (sessions_of k) (sessions_of k')) ->
  (forall k k', sessions_ok k -> idle others op k (Ok tt) k' -> changed Q k k') ->
  wp (watch_ adapter ks op) (fun res w' =>
    match res with Ok _ => changed Q (here w) (here w') | Err _ => others (here w) (here w') end) w.
Proof.
  intros Hok Htx Hfail Hruns Hidle. eapply wp_mono; [by apply (watch__at_once adapter keys cache others alone)|].
  intros r w' (k & k' & Ho & Heff & Ho'). pose proof (others_ok _ _ Ho Hok) as Hk.
  assert (Hsub : others k k' -> others (here w) (here w')) by (intros Hkk; by do 2 (eapply others_trans; [done|])).
  destruct r as [[]|e].
  - eapply changed_trans; [done| |done]. destruct Heff as [[Hr|Hi]|[? _]]; [|by apply Hidle|done].
    exists k, k'. split_and!; [by apply others_refl|done|by apply Hruns|by apply others_refl].
  - apply Hsub. destruct Heff as [[Hr|Hi]|[_ Hn]]; [|by eapply idle_others|done].
    rewrite (Hfail _ _ _ Hr). by apply others_refl.
Qed.

Lemma fails_idle_changed Q op k k' :
  fails_idle others op -> idle others op k (Ok tt) k' -> changed Q k k'.
Proof. intros Hf Hi. by apply Hf in Hi. Qed.

Lemma wp_Create_others r w : sessions_ok (here w) ->
  wp (SessionStore_Create adapter r) (fun res w' =>
    match res with
    | Ok _ => changed (fun σ σ' => σ !! TokenHash r = None /\ σ' = <[TokenHash r := r]> σ) (here w) (here w')
    | Err _ => others (here w) (here w')
    end) w.
Proof.
  intros Hok. apply wp_watch_changed; [done|apply create_transacts|..].
  - intros k e k' Hr. unfold create_transaction in Hr. by runs_go.
  - intros k k' Hk Hr. by apply create_runs in Hr as (Hn & _ & Hs).
  - intros k k' _. apply fails_idle_changed. unfold create_transaction.
    pose proof (others_refl (client := client adapter) (alone := alone)). fails_idle_go.
Qed.

Lemma wp_Rotate_others h r at_ w : sessions_ok (here w) ->
  wp (SessionStore_Rotate adapter h r at_) (fun res w' =>
    match res with
    | Ok _ => changed (fun σ σ' => exists x, σ !! h = Some x /\ σ !! TokenHash r = None /\ RevokedAt x = None /\
        (at_ < ExpiresAt x)%Z /\ σ' = <[TokenHash r := r]> (<[h := revoke_record at_ x]> σ)) (here w) (here w')
    | Err _ => others (here w) (here w')
    end) w.
Proof.
  intros Hok. apply wp_watch_changed; [done|apply rotate_transacts|..].
  - intros k e k' Hr. unfold rotate_session_transaction in Hr. by runs_go.
  - intros k k' Hk Hr. apply rotate_runs in Hr as (x & Hx & Hn & Hrev & Hlt & _ & Hs); [|done]. by exists x.
  - intros k k' _. apply fails_idle_changed. unfold rotate_session_transaction.
    pose proof (others_refl (client := client adapter) (alone := alone)). fails_idle_go.
Qed.

Lemma wp_Revoke_others h at_ w : sessions_ok (here w) ->
  wp (SessionStore_Revoke adapter h at_) (fun res w' =>
    match res with
    | Ok _ => changed (fun σ σ' => exists x, σ !! h = Some x /\ σ' = <[h := revoke_record at_ x]> σ) (here w) (here w')
    | Err _ => others (here w) (here w')
    end) w.
Proof.
  intros Hok. apply wp_watch_changed; [done|apply revoke_transacts|..].
  - intros k e k' Hr. unfold revoke_transaction in Hr. by runs_go.
  - intros k k' Hk Hr. apply revoke_runs in Hr as (x & Hx & _ & Hs); [|done]. by exists x.
  - intros k k' Hk Hi. unfold revoke_transaction, pbind_ok in Hi.
    apply idle_bind in Hi as ([x|e] & k1 & Hx & Hi); [| |by apply (others_refl (client := client adapter))]; [|by destruct Hi].
    apply idle_readJSON_or in Hx as (k0 & Ho & Ho1 & v & Hv & Hxv).
    case_bool_decide; simpl in Hi; [by apply fails_idle_exec in Hi|]. destruct Hi as [_ Ho2].
    pose proof (others_ok _ _ Ho Hk) as Hk0. exists k0, k0. split_and!; [done|done| |by eapply others_trans].
    exists x. split; [apply lookup_session; [done|by exists v]|].
    rewrite revoke_record_revoked, insert_id; [done| |done]. apply lookup_session; [done|by exists v].
Qed.

(** [Extend] of an attempt after others: [extendedAt] is the parameter, or what
    [json.Unmarshal] wrote over it through the pointer, the time of the last
    extension. *)
Lemma extend_any_runs h expires l0 l k k' :
  sessions_ok k -> runs (extend_transaction (key adapter "sessions") (hashKey h) expires l0) k (l, Ok tt) k' ->
  exists x t, sessions_of k !! h = Some x /\ (t = extendedAt l0 \/ aliased l0 = true /\ Some t = ExtendedAt x) /\
    RevokedAt x = None /\ (t < ExpiresAt x < expires)%Z /\ result_of l = extend_record t expires x /\
    sessions_of k' = <[h := extend_record t expires x]> (sessions_of k).
Proof.
  intros Hok Hr. unfold extend_transaction in Hr. apply runs_bind in Hr as (rd & k1 & [-> Hrd]%runs_readJSON_or & Hr).
  destruct rd as [x|e]; [|by destruct Hr as [[=] _]].
  destruct (found_session _ _ _ Hok Hrd) as [Hx Hkey]. set (l1 := unmarshal_into l0 x) in *.
  assert (Hl1 : result_of l1 = x /\ (extendedAt l1 = extendedAt l0 \/ aliased l0 = true /\ Some (extendedAt l1) = ExtendedAt x)).
  { unfold l1, unmarshal_into, result_of. destruct x as [i s hh c e [t|] rv]; simpl; [|by auto].
    destruct (aliased l0); simpl; auto. }
  destruct Hl1 as [Hres Ht]. rewrite Hres in Hr.
  destruct (negb _ || _ || _) eqn:Hb; [by destruct Hr as [[=] _]|]. go_bool.
  assert (Hassign : result_of (assign_extension expires l1) = extend_record (extendedAt l1) expires x).
  { unfold assign_extension, result_of, extend_record. simpl. rewrite <- Hres. unfold result_of. by destruct (aliased l1). }
  rewrite Hassign in Hr. apply runs_bind in Hr as (rt & k2 & Ht2 & [[= -> E] ->]).
  subst rt. apply runs_cmd in Ht2. simpl in Ht2. subst k2. exists x, (extendedAt l1). rewrite Hassign. split_and!; try done.
  rewrite <- Hkey. apply (replace_session x (extend_record (extendedAt l1) expires x)); try done; [by rewrite <- Hkey in Hx|].
  autorewrite with redis. by key_cases.
Qed.
End Others.
End Sessions.
