(* ===== verification/RedisReference.v ===== *)
(** * A Redis server for the examples

    A client whose server is a state: what other clients do between its commands
    is a function of how many commands it has sent, and may be nothing. It keeps
    the laws of RedisSpec. *)
From S2P Require Import Prelude GoText Token SessionToken Redis RedisSpec.
From stdpp Require Import countable.

(** ** JSON, by counting *)
Fixpoint string_of_bits (p : positive) : string :=
  match p with xH => "" | xO p => String "0" (string_of_bits p) | xI p => String "1" (string_of_bits p) end.

Fixpoint bits_of_string (s : string) : positive :=
  match s with EmptyString => xH | String "0" s => xO (bits_of_string s) | String _ s => xI (bits_of_string s) end.

Lemma bits_of_string_of_bits p : bits_of_string (string_of_bits p) = p.
Proof. induction p as [p IH|p IH|]; simpl; by rewrite ?IH. Qed.

Section Json.
Context {A B : Type} `{Countable B} (f : A -> B) (g : B -> A) (Hgf : forall a, g (f a) = a).

#[local] Program Instance json_of_countable : JSON A := {|
  json_Marshal a := string_of_bits (encode (f a));
  json_Unmarshal s := match decode (bits_of_string s) with Some b => Ok (g b) | None => Err (New "json") end;
|}.
Next Obligation. intros a. simpl. by rewrite bits_of_string_of_bits, decode_encode, Hgf. Qed.
End Json.

Definition session_fields (r : SessionRecord) : string * string * string * Z * Z * option Z * option Z :=
  (ID r, SubjectID r, TokenHash r, CreatedAt r, ExpiresAt r, ExtendedAt r, RevokedAt r).
Definition session_of_fields (x : string * string * string * Z * Z * option Z * option Z) : SessionRecord :=
  let '(i, s, h, c, e, t, v) := x in mkRecord i s h c e t v.

#[export] Instance demo_session_json : JSON SessionRecord :=
  json_of_countable session_fields session_of_fields (fun r => match r with mkRecord _ _ _ _ _ _ _ => eq_refl end).

(** What a call returned, when it returned something. *)
Definition ok_value {A} (r : result A) : option A := match r with Ok a => Some a | Err _ => None end.

(** ** The server *)
Record server : Type := mkServer {
  srv_keys : keyspace;
  srv_cache : gmap string string;
  srv_commands : nat;
  srv_watched : option (list string * keyspace);
  srv_touched : bool;
}.

Section Server.
Context (busy : bool) (interfere : nat -> keyspace -> keyspace).

(** Other clients take steps of [interfere] when the server is busy. *)
Definition demo_others : keyspace -> keyspace -> Prop := rtc (fun k k' => busy = true /\ exists n, k' = interfere n k).

(** The keyspace when the next command arrives. *)
Definition arrived (s : server) : keyspace := if busy then interfere (srv_commands s) (srv_keys s) else srv_keys s.

Lemma arrived_others s : demo_others (srv_keys s) (arrived s).
Proof.
  unfold arrived, demo_others. destruct busy; [|apply rtc_refl]. apply rtc_once. split; [done|by eexists].
Qed.

Definition agree_on (ks : list string) (k k' : keyspace) : bool :=
  forallb (fun key => bool_decide (hash_at k key = hash_at k' key) && bool_decide (set_at k key = set_at k' key)) ks.

Lemma agree_on_true ks k k' : agree_on ks k k' = true -> agree ks k k'.
Proof.
  intros Ha key Hk. apply forallb_forall with (x := key) in Ha; [|by apply list_elem_of_In]. go_bool. by split.
Qed.

Definition now_touched (s : server) : bool :=
  busy && (srv_touched s || match srv_watched s with
                            | Some (ks, k0) => negb (agree_on ks k0 (arrived s))
                            | None => false
                            end).

(** The answers. *)
Definition perform {X} (c : command X) (touched : bool) (k : keyspace) : X * keyspace :=
  match c in command Y return Y * keyspace with
  | HGet key field => (match hash_at k key !! field with Some v => Ok v | None => Err Nil end, k)
  | HExists key field => (Ok (bool_decide (is_Some (hash_at k key !! field))), k)
  | HMGet key fields =>
      (Ok ((fun f => match hash_at k key !! f with Some v => any_string v | None => any_nil end) <$> fields), k)
  | HSetNX key field value =>
      match hash_at k key !! field with
      | None => (Ok true, apply_write k (HSet key [(field, value)]))
      | Some _ => (Ok false, k)
      end
  | SMembers key => (Ok (elements (set_at k key)), k)
  | SCard key => (Ok (size (set_at k key)), k)
  | Ping => (Ok tt, k)
  | Send w => (Ok tt, apply_write k w)
  | TxPipelined ws => if touched then (Err TxFailedErr, k) else (Ok tt, apply_writes ws k)
  end.

Definition srv_Do (X : Type) (c : command X) : M server X :=
  lift_ext (fun s =>
    let '(x, k') := perform c (now_touched s) (arrived s) in
    (x, mkServer k' (srv_cache s) (S (srv_commands s)) (srv_watched s) (srv_touched s || now_touched s))).

Definition srv_Key (X : Type) (c : key_command X) : M server X :=
  match c in key_command Y return M server Y with
  | GetKey key => lift_ext (fun s => (match srv_cache s !! key with Some v => Ok v | None => Err Nil end, s))
  | SetKey key value _ => lift_ext (fun s =>
      (Ok tt, mkServer (srv_keys s) (<[key := value]> (srv_cache s)) (srv_commands s) (srv_watched s) (srv_touched s)))
  | DelKey key => lift_ext (fun s =>
      (Ok tt, mkServer (srv_keys s) (delete key (srv_cache s)) (srv_commands s) (srv_watched s) (srv_touched s)))
  end.

Definition srv_Begin (ks : list string) : M server (result unit) :=
  lift_ext (fun s => (Ok tt, mkServer (srv_keys s) (srv_cache s) (srv_commands s) (Some (ks, srv_keys s)) false)).
Definition srv_End : M server unit :=
  lift_ext (fun s => (tt, mkServer (srv_keys s) (srv_cache s) (srv_commands s) None false)).

Definition demo_client : UniversalClient server := {|
  client_Do := srv_Do;
  client_Key := srv_Key;
  client_Watch L ks l op :=
    (began <- srv_Begin ks ;;
     match began with
     | Err e => ret (l, Err e)
     | Ok _ => r <- op ;; _ <- srv_End ;; ret r
     end);
|}.

(** While nobody else writes, the keys are as they were when the watch began. *)
Definition srv_watching (s : server) : option (list string * keyspace) :=
  if busy then srv_watched s else (fun ks => (fst ks, srv_keys s)) <$> srv_watched s.

Lemma perform_does {X} (c : command X) touched k :
  does c k (fst (perform c touched k)) (snd (perform c touched k)) \/
  aborted c (fst (perform c touched k)) /\ snd (perform c touched k) = k /\ touched = true.
Proof.
  destruct c as [key field|key field|key fields|key field value|key|key| |w|ws]; simpl; try (left; split; [done|]).
  - by destruct (hash_at k key !! field).
  - done.
  - done.
  - left. destruct (hash_at k key !! field) eqn:?; simpl; [split; [by eexists|done]|done].
  - split; [apply NoDup_elements|]. intros x. apply elem_of_elements.
  - done.
  - done.
  - by left.
  - destruct touched; [right|by left]. split; [by exists TxFailedErr|done].
Qed.

Lemma perform_reads {X} (c : command X) touched k : read_key c <> None -> snd (perform c touched k) = k.
Proof. by destruct c. Qed.

Lemma perform_committed {X} (c : command X) touched k : committed c (fst (perform c touched k)) -> touched = false.
Proof. destruct c; simpl; try done. destruct touched; [|done]. by intros [_ ?]. Qed.

Lemma untouched_agrees s : now_touched s = false ->
  busy && srv_touched s = false /\ forall ks k0, srv_watching s = Some (ks, k0) -> agree ks k0 (arrived s).
Proof.
  unfold now_touched, srv_watching, arrived. destruct busy; simpl.
  - intros [Ht Hw]%orb_false_iff. split; [done|]. intros ks k0 Hs. rewrite Hs in Hw. go_bool. by apply agree_on_true.
  - intros _. split; [done|]. intros ks k0. destruct (srv_watched s) as [[ks' k']|]; [|done]. by intros [= <- <-].
Qed.

#[export] Instance demo_laws : RedisLaws demo_client srv_keys srv_cache demo_others (busy = false).
Proof.
  refine {| watching := srv_watching; touched s := busy && srv_touched s; watch_Begin := srv_Begin; watch_End := srv_End |}.
  - intros k. apply rtc_refl.
  - intros k1 k2 k3 H1 H2. unfold demo_others in *. by etrans.
  - intros X c w. apply wp_lift_ext. exists (arrived (ext w)).
    pose proof (perform_does c (now_touched (ext w)) (arrived (ext w))) as Hd.
    pose proof (perform_reads c (now_touched (ext w)) (arrived (ext w))) as Hr.
    pose proof (perform_committed c (now_touched (ext w)) (arrived (ext w))) as Hcm.
    destruct (perform _ _ _) as [x k'] eqn:E. simpl in *. split; [apply arrived_others|].
    split_and!.
    + destruct Hd as [Hd|(Hab & Hk & Ht)]; [by left|right]. split_and!; [done|done|].
      intros Hb. unfold now_touched in Ht. by rewrite Hb in Ht.
    + intros Hread. apply Hr in Hread. subst. unfold srv_watching, arrived. simpl. by destruct busy.
    + intros Ht. apply untouched_agrees. destruct Ht as [Ht|Ht]; [|by apply Hcm].
      destruct busy eqn:Hb; simpl in Ht; [by apply orb_false_iff in Ht as [_ ?]|]. unfold now_touched. by rewrite Hb.
  - done.
  - intros ks w. apply wp_lift_ext. simpl. split; [apply rtc_refl|]. unfold srv_watching. simpl. by destruct busy.
  - intros w. apply wp_lift_ext. simpl. apply rtc_refl.
  - intros X c w. apply wp_lift_ext. by destruct (perform _ _ _).
  - intros ks w. by apply wp_lift_ext.
  - intros w. by apply wp_lift_ext.
  - intros key w. apply wp_lift_ext. simpl. split_and!; [apply rtc_refl|done|].
    destruct (srv_cache (ext w) !! key); [by intros v [= <-]|done].
  - intros key value ttl w. apply wp_lift_ext. simpl. split; [apply rtc_refl|by left].
  - intros key w. apply wp_lift_ext. simpl. split_and!; [apply rtc_refl|apply delete_subseteq|]. intros _. apply lookup_delete_eq.
  - intros k k' Hb Ho. destruct Ho as [|k k1 k2 [Hbusy _] _]; [done|]. congruence.
Defined.
End Server.

(** ** Adapters of the examples *)
Definition quiet_adapter : Adapter server := mkAdapter (demo_client false (fun _ k => k)) "{authlier}:" None.

Definition empty_server : server := mkServer (mkKeyspace ∅ ∅) ∅ 0 None false.
