(* ===== verification/RedisStores.v ===== *)
(** * Accounts in Redis (storage/redis/accounts.go) *)
From S2P Require Import Prelude GoText Token Redis Base64 Sha256 Totp.
From S2P Require EmailPassword EmailVerification PasswordReset GoogleOAuth.

(** ** Records *)
Record userRecord : Type := mkUserRecord {
  ur_ID : string;
  ur_Email : string;
  ur_EmailVerified : bool;
  ur_WebAuthnHandle : string;
  ur_CreatedAt : time;
}.

Record passwordRecord : Type := mkPasswordRecord {
  pr_UserID : string;
  pr_PasswordHash : string;
  pr_UpdatedAt : time;
}.

Record oneTimeTokenRecord : Type := mkOneTimeToken {
  ot_UserID : string;
  ot_Email : string;
  ot_TokenHash : string;
  ot_CreatedAt : time;
  ot_ExpiresAt : time;
}.

Record googleIdentityRecord : Type := mkGoogleIdentity {
  gi_ProviderSubject : string;
  gi_UserID : string;
  gi_Email : string;
  gi_LinkedAt : time;
}.

Definition zeroUser : userRecord := mkUserRecord "" "" false "" 0.

(** [fmt.Errorf(format, err)] around the error of a step. *)
Definition wrapping {A} (format : string) (p : prog (result A)) : prog (result A) :=
  r <~ p ;;
  Done (match r with Ok a => Ok a | Err err => Err (Errorf format [err]) end).

Definition newUserRecord (email : string) (verified : bool) (createdAt : time) : prog (result userRecord) :=
  id <~? wrapping "generate user ID: %w" (sys sys_NewV7) ;;
  handle <~? wrapping "generate WebAuthn handle: %w" (sys (sys_Rand 64)) ;;
  Done (Ok (mkUserRecord id email verified handle createdAt)).

(** The idiom [if err = readJSON(...); err != nil { return absent }]. *)
Definition read_or_absent {A} `{JSON A} (absent : error) (key field : string) : prog (result A) :=
  r <~ readJSON key field ;;
  Done (match r with Ok a => Ok a | Err _ => Err absent end).

(** The idiom [if exists, err := tx.HExists(...); err != nil { return err } else
    if !exists { return absent }]. *)
Definition exists_or (absent : error) (key field : string) : prog (result unit) :=
  exists_ <~? cmd (HExists key field) ;;
  Done (if exists_ : bool then Ok tt else Err absent).

(** [tx.HGet(...)], with [absent] for a field that is not there. *)
Definition hget_or (absent : error) (key field : string) : prog (result string) :=
  r <~ cmd (HGet key field) ;; Done (present absent r).

(** A read that may find nothing: [redis.Nil] is not an error. *)
Definition optional {A} (p : prog (result A)) : prog (result (option A)) :=
  r <~ p ;;
  Done (match r with
        | Ok a => Ok (Some a)
        | Err err => if errors_Is err Nil then Ok None else Err err
        end).

Section Accounts.
Context {S : Type} `{Env} `{JSON userRecord} `{JSON passwordRecord} `{JSON oneTimeTokenRecord}.
Context `{JSON googleIdentityRecord} `{JSON GoogleOAuth.Challenge} (adapter : Adapter S).

(** ** Passwords *)

(** The transactions of the operations are named after them. *)
Definition register_transaction (registration : EmailPassword.Registration) (user : userRecord) : prog (result unit) :=
  let userJSON := encodeJSON user in
  let passwordJSON := encodeJSON (mkPasswordRecord (ur_ID user) (EmailPassword.reg_PasswordHash registration)
                                    (EmailPassword.reg_CreatedAt registration)) in
  let handle := hashKey (ur_WebAuthnHandle user) in
  emailExists <~? cmd (HExists (key adapter "users:email") (EmailPassword.reg_Email registration)) ;;
  handleExists <~? cmd (HExists (key adapter "users:handle") handle) ;;
  if (emailExists || handleExists)%bool then Done (Err EmailPassword.ErrConflict) else
  cmd (TxPipelined
    [HSet (key adapter "users") [(ur_ID user, userJSON)];
     HSet (key adapter "users:email") [(ur_Email user, ur_ID user)];
     HSet (key adapter "users:handle") [(handle, ur_ID user)];
     HSet (key adapter "passwords") [(ur_ID user, passwordJSON)]]).

Definition EmailPasswordStore_Register (registration : EmailPassword.Registration) : M S (result EmailPassword.User) :=
  user <-? run (client adapter) (newUserRecord (EmailPassword.reg_Email registration) false
                                   (EmailPassword.reg_CreatedAt registration)) ;;
  _ <-? watch_ adapter [key adapter "users"; key adapter "users:email"; key adapter "users:handle"; key adapter "passwords"]
          (register_transaction registration user) ;;
  ret (Ok (EmailPassword.mkUser (ur_ID user) (ur_Email user))).

Definition findBySubject_commands (subjectID : string) :
    prog (result (EmailPassword.User * EmailPassword.PasswordCredential)) :=
  user <~? readJSON_or EmailPassword.ErrNotFound (key adapter "users") subjectID ;;
  password <~? readJSON_or EmailPassword.ErrNotFound (key adapter "passwords") subjectID ;;
  Done (Ok (EmailPassword.mkUser (ur_ID user) (ur_Email user),
            EmailPassword.mkCredential (ur_ID user) (pr_PasswordHash password))).

Definition EmailPasswordStore_FindByEmail (email : string) :
    M S (result (EmailPassword.User * EmailPassword.PasswordCredential)) :=
  run (client adapter)
    (userID <~? hget_or EmailPassword.ErrNotFound (key adapter "users:email") email ;;
     findBySubject_commands userID).

Definition EmailPasswordStore_FindBySubject (subjectID : string) :
    M S (result (EmailPassword.User * EmailPassword.PasswordCredential)) :=
  run (client adapter) (findBySubject_commands subjectID).

(** It assigns the variable [result]. *)
Definition addPassword_transaction (subjectID passwordHash : string) (addedAt : time) (l : EmailPassword.User) :
    prog (EmailPassword.User * result unit) :=
  let users := key adapter "users" in
  let passwords := key adapter "passwords" in
  r <~ readJSON_or EmailPassword.ErrNotFound users subjectID ;;
  match r with
  | Err err => Done (l, Err err)
  | Ok user =>
      r <~ cmd (HExists passwords subjectID) ;;
      match r with
      | Err err => Done (l, Err err)
      | Ok true => Done (l, Err EmailPassword.ErrConflict)
      | Ok false =>
          r <~ cmd (TxPipelined [HSet passwords [(subjectID, encodeJSON (mkPasswordRecord subjectID passwordHash addedAt))]]) ;;
          Done (EmailPassword.mkUser (ur_ID user) (ur_Email user), r)
      end
  end.

(** [return result, err] *)
Definition returning {L} (r : L * result unit) : result L :=
  match snd r with Ok _ => Ok (fst r) | Err err => Err err end.

Definition EmailPasswordStore_AddPassword (subjectID passwordHash : string) (addedAt : time) :
    M S (result EmailPassword.User) :=
  r <- watch adapter [key adapter "users"; key adapter "passwords"]
         (addPassword_transaction subjectID passwordHash addedAt) (EmailPassword.mkUser "" "") ;;
  ret (returning r).

Definition replacePassword_transaction (userID currentHash replacementHash : string) (updatedAt : time) :
    prog (result unit) :=
  let passwords := key adapter "passwords" in
  record <~? readJSON_or EmailPassword.ErrConflict passwords userID ;;
  if negb (String.eqb (pr_PasswordHash record) currentHash) then Done (Err EmailPassword.ErrConflict) else
  cmd (TxPipelined [HSet passwords [(userID, encodeJSON (mkPasswordRecord (pr_UserID record) replacementHash updatedAt))]]).

Definition EmailPasswordStore_ReplacePasswordHash (userID currentHash replacementHash : string) (updatedAt : time) :
    M S (result unit) :=
  watch_ adapter [key adapter "passwords"] (replacePassword_transaction userID currentHash replacementHash updatedAt).

Definition removePassword_transaction (subjectID currentHash : string) : prog (result unit) :=
  let users := key adapter "users" in
  let passwords := key adapter "passwords" in
  _ <~? exists_or EmailPassword.ErrNotFound users subjectID ;;
  password <~? readJSON_or EmailPassword.ErrNotFound passwords subjectID ;;
  if negb (String.eqb (pr_PasswordHash password) currentHash) then Done (Err EmailPassword.ErrConflict) else
  passkeyCount <~? cmd (SCard (key adapter ("passkeys:subject:" +:+ subjectID))) ;;
  googleCount <~? cmd (SCard (key adapter ("google:subject:" +:+ subjectID))) ;;
  if (passkeyCount + googleCount =? 0)%nat then Done (Err EmailPassword.ErrLastCredential) else
  cmd (TxPipelined [HDel passwords [subjectID]]).

Definition EmailPasswordStore_RemovePassword (subjectID currentHash : string) (_ : time) : M S (result unit) :=
  watch_ adapter [key adapter "users"; key adapter "passwords"; key adapter ("passkeys:subject:" +:+ subjectID);
                  key adapter ("google:subject:" +:+ subjectID)]
    (removePassword_transaction subjectID currentHash).

(** ** One-time tokens *)
Definition findUserByEmail (email : string) : prog (result userRecord) :=
  userID <~ cmd (HGet (key adapter "users:email") email) ;;
  match userID with
  | Err err => Done (present EmailVerification.ErrNotFound (Err err))
  | Ok userID => readJSON_or EmailVerification.ErrNotFound (key adapter "users") userID
  end.

(** The order is that of the source: the error of the first read stops the
    transaction, one that says the token is taken comes before the others. *)
Definition issue_transaction (record : oneTimeTokenRecord) (recordName tokenName : string) (conflict : error) :
    prog (result unit) :=
  let records := key adapter recordName in
  let tokens := key adapter tokenName in
  let field := hashKey (ot_TokenHash record) in
  previous <~? optional (readJSON (A := oneTimeTokenRecord) records (ot_UserID record)) ;;
  owner <~? optional (cmd (HGet tokens field)) ;;
  if match owner with Some owner => negb (String.eqb owner (ot_UserID record)) | None => false end
  then Done (Err conflict) else
  cmd (TxPipelined
    (match previous with Some previous => [HDel tokens [hashKey (ot_TokenHash previous)]] | None => [] end ++
     [HSet records [(ot_UserID record, encodeJSON record)]; HSet tokens [(field, ot_UserID record)]])).

Definition issue (record : oneTimeTokenRecord) (recordName tokenName : string) (conflict : error) : M S (result unit) :=
  watch_ adapter [key adapter recordName; key adapter tokenName] (issue_transaction record recordName tokenName conflict).

Definition EmailVerificationStore_FindUserByEmail (email : string) : M S (result EmailVerification.User) :=
  user <-? run (client adapter) (findUserByEmail email) ;;
  ret (Ok (EmailVerification.mkUser (ur_ID user) (ur_Email user) (ur_EmailVerified user))).

Definition EmailVerificationStore_Issue (record : EmailVerification.VerificationRecord) : M S (result unit) :=
  issue (mkOneTimeToken (EmailVerification.rec_UserID record) (EmailVerification.rec_Email record)
           (EmailVerification.rec_TokenHash record) (EmailVerification.rec_CreatedAt record)
           (EmailVerification.rec_ExpiresAt record))
    "email-verifications" "email-verification-tokens" EmailVerification.ErrConflict.

(** It assigns the variable [result]. *)
Definition verify_transaction (tokenHash : Hash) (verifiedAt : time) (l : EmailVerification.User) :
    prog (EmailVerification.User * result unit) :=
  let records := key adapter "email-verifications" in
  let tokens := key adapter "email-verification-tokens" in
  let users := key adapter "users" in
  r <~ (userID <~? hget_or EmailVerification.ErrNotFound tokens (hashKey tokenHash) ;;
        token <~? read_or_absent (A := oneTimeTokenRecord) EmailVerification.ErrNotFound records userID ;;
        user <~? read_or_absent (A := userRecord) EmailVerification.ErrNotFound users userID ;;
        Done (Ok (userID, token, user))) ;;
  match r with
  | Err err => Done (l, Err err)
  | Ok (userID, token, user) =>
      let l := EmailVerification.mkUser (ur_ID user) (ur_Email user) (ur_EmailVerified user) in
      if ur_EmailVerified user || negb (Before verifiedAt (ot_ExpiresAt token))
      then Done (l, Err EmailVerification.ErrInactiveToken) else
      let verified := mkUserRecord (ur_ID user) (ur_Email user) true (ur_WebAuthnHandle user) (ur_CreatedAt user) in
      r <~ cmd (TxPipelined
        [HSet users [(userID, encodeJSON verified)]; HDel records [userID]; HDel tokens [hashKey (ot_TokenHash token)]]) ;;
      Done (EmailVerification.mkUser (ur_ID user) (ur_Email user) true, r)
  end.

Definition EmailVerificationStore_Verify (tokenHash : Hash) (verifiedAt : time) : M S (result EmailVerification.User) :=
  r <- watch adapter [key adapter "email-verifications"; key adapter "email-verification-tokens"; key adapter "users"]
         (verify_transaction tokenHash verifiedAt) (EmailVerification.mkUser "" "" false) ;;
  ret (returning r).

Definition PasswordResetStore_FindUserByEmail (email : string) : M S (result PasswordReset.User) :=
  r <- run (client adapter) (findUserByEmail email) ;;
  match r with
  | Err err =>
      if errors_Is err EmailVerification.ErrNotFound then ret (Err PasswordReset.ErrNotFound) else ret (Err err)
  | Ok user => ret (Ok (PasswordReset.mkUser (ur_ID user) (ur_Email user)))
  end.

Definition PasswordResetStore_Issue (record : PasswordReset.ResetRecord) : M S (result unit) :=
  issue (mkOneTimeToken (PasswordReset.rec_UserID record) (PasswordReset.rec_Email record)
           (PasswordReset.rec_TokenHash record) (PasswordReset.rec_CreatedAt record)
           (PasswordReset.rec_ExpiresAt record))
    "password-resets" "password-reset-tokens" PasswordReset.ErrConflict.

(** It assigns the variable [result]. *)
Definition resetPassword_transaction (tokenHash : Hash) (passwordHash : string) (resetAt : time) (l : PasswordReset.User) :
    prog (PasswordReset.User * result unit) :=
  let records := key adapter "password-resets" in
  let tokens := key adapter "password-reset-tokens" in
  let users := key adapter "users" in
  let passwords := key adapter "passwords" in
  r <~ (userID <~? hget_or PasswordReset.ErrNotFound tokens (hashKey tokenHash) ;;
        token <~? read_or_absent (A := oneTimeTokenRecord) PasswordReset.ErrNotFound records userID ;;
        if negb (Before resetAt (ot_ExpiresAt token)) then Done (Err PasswordReset.ErrInactiveToken) else
        user <~? read_or_absent (A := userRecord) PasswordReset.ErrNotFound users userID ;;
        Done (Ok (userID, token, user))) ;;
  match r with
  | Err err => Done (l, Err err)
  | Ok (userID, token, user) =>
      r <~ cmd (TxPipelined
        [HSet passwords [(userID, encodeJSON (mkPasswordRecord userID passwordHash resetAt))]; HDel records [userID];
         HDel tokens [hashKey (ot_TokenHash token)]]) ;;
      Done (PasswordReset.mkUser (ur_ID user) (ur_Email user), r)
  end.

Definition PasswordResetStore_ResetPassword (tokenHash : Hash) (passwordHash : string) (resetAt : time) :
    M S (result PasswordReset.User) :=
  r <- watch adapter [key adapter "password-resets"; key adapter "password-reset-tokens"; key adapter "users";
                      key adapter "passwords"]
         (resetPassword_transaction tokenHash passwordHash resetAt) (PasswordReset.mkUser "" "") ;;
  ret (returning r).

(** ** Google *)
Definition GoogleStore_CreateChallenge (challenge : GoogleOAuth.Challenge) : M S (result unit) :=
  run (client adapter)
    (created <~? cmd (HSetNX (key adapter "google-challenges") (hashKey (GoogleOAuth.StateHash challenge))
                        (encodeJSON challenge)) ;;
     Done (if created : bool then Ok tt else Err GoogleOAuth.ErrConflict)).

(** It assigns the variable [result]. *)
Definition consumeChallenge_transaction (stateHash : string) (consumedAt : time) (l : GoogleOAuth.Challenge) :
    prog (GoogleOAuth.Challenge * result unit) :=
  let name := key adapter "google-challenges" in
  let field := hashKey stateHash in
  r <~ readJSON_or GoogleOAuth.ErrNotFound name field ;;
  match r with
  | Err err => Done (l, Err err)
  | Ok challenge =>
      r <~ cmd (TxPipelined [HDel name [field]]) ;;
      match r with
      | Err err => Done (challenge, Err err)
      | Ok _ =>
          if negb (Before consumedAt (GoogleOAuth.ExpiresAt challenge))
          then Done (challenge, Err GoogleOAuth.ErrInvalidState) else Done (challenge, Ok tt)
      end
  end.

Definition zeroChallenge : GoogleOAuth.Challenge := GoogleOAuth.mkChallenge (zeroHash) "" "" "" 0 0.

Definition GoogleStore_ConsumeChallenge (stateHash : string) (consumedAt : time) : M S (result GoogleOAuth.Challenge) :=
  r <- watch adapter [key adapter "google-challenges"] (consumeChallenge_transaction stateHash consumedAt) zeroChallenge ;;
  ret (returning r).

Definition googleSet (subjectID : string) : string := key adapter ("google:subject:" +:+ subjectID).

(** The user of an identity that is not linked yet: the one to link, or a new one
    with the email. *)
Definition resolve_user (resolution : GoogleOAuth.IdentityResolution) : prog (result userRecord) :=
  if negb (String.eqb (GoogleOAuth.SubjectID resolution) "") then
    user <~? readJSON_or GoogleOAuth.ErrNotFound (key adapter "users") (GoogleOAuth.SubjectID resolution) ;;
    linkedCount <~? cmd (SCard (googleSet (GoogleOAuth.SubjectID resolution))) ;;
    if negb (linkedCount =? 0)%nat then Done (Err GoogleOAuth.ErrConflict) else
    Done (Ok user)
  else
    exists_ <~? cmd (HExists (key adapter "users:email") (GoogleOAuth.Email resolution)) ;;
    if exists_ : bool then Done (Err GoogleOAuth.ErrLinkRequired) else
    now <~ sys sys_Now ;;
    newUserRecord (GoogleOAuth.Email resolution) true now.

(** It assigns [result.ID]. *)
Definition resolve_transaction (resolution : GoogleOAuth.IdentityResolution) (l : GoogleOAuth.User) :
    prog (GoogleOAuth.User * result unit) :=
  let identities := key adapter "google-identities" in
  let subject := GoogleOAuth.ProviderSubject resolution in
  identity <~ readJSON (A := googleIdentityRecord) identities subject ;;
  match identity with
  | Ok identity =>
      if negb (String.eqb (GoogleOAuth.SubjectID resolution) "") &&
         negb (String.eqb (gi_UserID identity) (GoogleOAuth.SubjectID resolution))
      then Done (l, Err GoogleOAuth.ErrConflict) else
      let identity := mkGoogleIdentity (gi_ProviderSubject identity) (gi_UserID identity) (GoogleOAuth.Email resolution)
                        (gi_LinkedAt identity) in
      r <~ cmd (TxPipelined [HSet identities [(subject, encodeJSON identity)]]) ;;
      Done (GoogleOAuth.mkUser (gi_UserID identity), r)
  | Err err =>
      if negb (errors_Is err Nil) then Done (l, Err err) else
      r <~ resolve_user resolution ;;
      match r with
      | Err err => Done (l, Err err)
      | Ok user =>
          let isNew := String.eqb (GoogleOAuth.SubjectID resolution) "" in
          let userID := if isNew then ur_ID user else GoogleOAuth.SubjectID resolution in
          now <~ sys sys_Now ;;
          let identity := mkGoogleIdentity subject userID (GoogleOAuth.Email resolution) now in
          r <~ cmd (TxPipelined
            ((if isNew
              then [HSet (key adapter "users") [(ur_ID user, encodeJSON user)];
                    HSet (key adapter "users:email") [(ur_Email user, ur_ID user)];
                    HSet (key adapter "users:handle") [(hashKey (ur_WebAuthnHandle user), ur_ID user)]]
              else []) ++
             [HSet identities [(subject, encodeJSON identity)]; SAdd (googleSet userID) [subject]])) ;;
          Done (GoogleOAuth.mkUser userID, r)
      end
  end.

Definition GoogleStore_ResolveIdentity (resolution : GoogleOAuth.IdentityResolution) : M S (result GoogleOAuth.User) :=
  r <- watch adapter
         ([key adapter "google-identities"; key adapter "users"; key adapter "users:email"; key adapter "users:handle"] ++
          (if negb (String.eqb (GoogleOAuth.SubjectID resolution) "")
           then [googleSet (GoogleOAuth.SubjectID resolution)] else []))
         (resolve_transaction resolution) (GoogleOAuth.mkUser "") ;;
  ret (returning r).

Definition unlink_transaction (subjectID : string) : prog (result unit) :=
  let identities := key adapter "google-identities" in
  _ <~? exists_or GoogleOAuth.ErrNotFound (key adapter "users") subjectID ;;
  providerSubjects <~? cmd (SMembers (googleSet subjectID)) ;;
  match providerSubjects with
  | [] => Done (Err GoogleOAuth.ErrNotFound)
  | [providerSubject] =>
      identity <~? readJSON_or GoogleOAuth.ErrNotFound identities providerSubject ;;
      if negb (String.eqb (gi_UserID identity) subjectID) then Done (Err GoogleOAuth.ErrNotFound) else
      passwordCount <~? cmd (HExists (key adapter "passwords") subjectID) ;;
      passkeyCount <~? cmd (SCard (key adapter ("passkeys:subject:" +:+ subjectID))) ;;
      if negb passwordCount && (passkeyCount =? 0)%nat then Done (Err GoogleOAuth.ErrLastCredential) else
      cmd (TxPipelined [HDel identities [providerSubject]; SRem (googleSet subjectID) [providerSubject]])
  | _ => Done (Err GoogleOAuth.ErrConflict)
  end.

Definition GoogleStore_UnlinkIdentity (subjectID : string) (_ : time) : M S (result unit) :=
  watch_ adapter [key adapter "users"; key adapter "google-identities"; googleSet subjectID; key adapter "passwords";
                  key adapter ("passkeys:subject:" +:+ subjectID)]
    (unlink_transaction subjectID).

(** ** The stores *)
Definition EmailPasswordStore : EmailPassword.Store S :=
  {| EmailPassword.store_Register := EmailPasswordStore_Register;
     EmailPassword.store_FindByEmail := EmailPasswordStore_FindByEmail;
     EmailPassword.store_ReplacePasswordHash := EmailPasswordStore_ReplacePasswordHash |}.
Definition EmailPasswordCredentialStore : EmailPassword.CredentialStore S :=
  {| EmailPassword.cred_FindBySubject := EmailPasswordStore_FindBySubject;
     EmailPassword.cred_AddPassword := EmailPasswordStore_AddPassword;
     EmailPassword.cred_ReplacePasswordHash := EmailPasswordStore_ReplacePasswordHash;
     EmailPassword.cred_RemovePassword := EmailPasswordStore_RemovePassword |}.
Definition EmailVerificationStore : EmailVerification.Store S :=
  {| EmailVerification.store_FindUserByEmail := EmailVerificationStore_FindUserByEmail;
     EmailVerification.store_Issue := EmailVerificationStore_Issue;
     EmailVerification.store_Verify := EmailVerificationStore_Verify |}.
Definition PasswordResetStore : PasswordReset.Store S :=
  {| PasswordReset.store_FindUserByEmail := PasswordResetStore_FindUserByEmail;
     PasswordReset.store_Issue := PasswordResetStore_Issue;
     PasswordReset.store_ResetPassword := PasswordResetStore_ResetPassword |}.
Definition GoogleStore : GoogleOAuth.Store S :=
  {| GoogleOAuth.store_CreateChallenge := GoogleStore_CreateChallenge;
     GoogleOAuth.store_ConsumeChallenge := GoogleStore_ConsumeChallenge;
     GoogleOAuth.store_ResolveIdentity := GoogleStore_ResolveIdentity |}.
End Accounts.

(** * The second factor in Redis (storage/redis/totp.go) *)

Record storedEnrollment : Type := mkStoredEnrollment {
  se_SubjectID : string;
  se_Secret : string;
  se_CreatedAt : time;
  se_ExpiresAt : time;
}.

Record storedTOTPCredential : Type := mkStoredCredential {
  sc_SubjectID : string;
  sc_Secret : string;
  sc_EnabledAt : time;
  sc_LastUsedCounter : Z;
  sc_HasLastUsedCounter : bool;
  sc_DisabledAt : option time;
}.

Record storedTOTPChallenge : Type := mkStoredChallenge {
  sh_SubjectID : string;
  sh_TokenHash : ChallengeHash;
  sh_CreatedAt : time;
  sh_ExpiresAt : time;
}.

(** [time.Format(time.RFC3339Nano)] writes a time; the code reads it back never. *)
Class TimeFormat := { Format_RFC3339Nano : time -> string }.

Section Totp.
Context {S : Type} `{Env} `{TimeFormat} `{JSON storedEnrollment} `{JSON storedTOTPCredential} `{JSON storedTOTPChallenge}.
Context (adapter : Adapter S).

Definition recoverySet (subjectID : string) : string := key adapter ("totp:recovery:" +:+ subjectID).

Definition recoveryField (subjectID : string) (code : RecoveryCodeHash) : string :=
  subjectID +:+ ":" +:+ hashKey code.

Definition encrypt (secret : string) : M S (result string) :=
  match secrets adapter with
  | None => ret (Err (Errorf "%w: secret codec is required for TOTP" [Redis.ErrInvalidConfig]))
  | Some codec => Encrypt codec secret
  end.

Definition decrypt (secret : string) : M S (result string) :=
  match secrets adapter with
  | None => ret (Err (Errorf "%w: secret codec is required for TOTP" [Redis.ErrInvalidConfig]))
  | Some codec => Decrypt codec secret
  end.

Definition TOTPStore_IsEnabled (subjectID : string) : M S (result bool) :=
  run (client adapter)
    (credential <~? optional (readJSON (A := storedTOTPCredential) (key adapter "totp-credentials") subjectID) ;;
     Done (Ok match credential with
              | None => false
              | Some credential => bool_decide (sc_DisabledAt credential = None)
              end)).

Definition TOTPStore_BeginEnrollment (enrollment : Enrollment) : M S (result unit) :=
  secret <-? encrypt (enr_Secret enrollment) ;;
  let encoded := encodeJSON (mkStoredEnrollment (enr_SubjectID enrollment) secret (enr_CreatedAt enrollment)
                               (enr_ExpiresAt enrollment)) in
  run (client adapter) (cmd (Send (HSet (key adapter "totp-enrollments") [(enr_SubjectID enrollment, encoded)]))).

Definition TOTPStore_FindEnrollment (subjectID : string) : M S (result Enrollment) :=
  stored <-? run (client adapter)
               (readJSON_or (A := storedEnrollment) ErrNotFound (key adapter "totp-enrollments") subjectID) ;;
  secret <-? decrypt (se_Secret stored) ;;
  ret (Ok (mkEnrollment (se_SubjectID stored) secret (se_CreatedAt stored) (se_ExpiresAt stored))).

(** What [Enable] pipelines for each recovery code. *)
Definition store_recovery_code (subjectID : string) (code : RecoveryCodeHash) : list write :=
  let field := recoveryField subjectID code in
  [HSet (key adapter "totp-recovery-codes") [(field, "unused")]; SAdd (recoverySet subjectID) [field]].

(** The recovery codes of a user that [Enable] and [Disable] remove. *)
Definition drop_recovery_codes (subjectID : string) (fields : list string) : list write :=
  (if (0 <? length fields)%nat then [HDel (key adapter "totp-recovery-codes") fields] else []) ++
  [Del (recoverySet subjectID)].

(** The transactions of the operations are named after them. *)
Definition enable_transaction (subjectID : string) (confirmedCounter : Z) (recoveryCodes : list RecoveryCodeHash)
    (enabledAt : time) : prog (result unit) :=
  let enrollments := key adapter "totp-enrollments" in
  let credentials := key adapter "totp-credentials" in
  enrollment <~? readJSON_or (A := storedEnrollment) ErrNotFound enrollments subjectID ;;
  if negb (Before enabledAt (se_ExpiresAt enrollment)) then Done (Err ErrInactiveEnrollment) else
  oldFields <~? cmd (SMembers (recoverySet subjectID)) ;;
  let credentialJSON := encodeJSON (mkStoredCredential subjectID (se_Secret enrollment) enabledAt confirmedCounter true None) in
  cmd (TxPipelined
    ([HSet credentials [(subjectID, credentialJSON)]; HDel enrollments [subjectID]] ++
     drop_recovery_codes subjectID oldFields ++ flat_map (store_recovery_code subjectID) recoveryCodes)).

Definition TOTPStore_Enable (subjectID : string) (confirmedCounter : Z) (recoveryCodes : list RecoveryCodeHash)
    (enabledAt : time) : M S (result unit) :=
  watch_ adapter [key adapter "totp-enrollments"; key adapter "totp-credentials"; key adapter "totp-recovery-codes";
                  recoverySet subjectID]
    (enable_transaction subjectID confirmedCounter recoveryCodes enabledAt).

Definition disable_transaction (subjectID : string) (disabledAt : time) : prog (result unit) :=
  let credentials := key adapter "totp-credentials" in
  credential <~? readJSON_or (A := storedTOTPCredential) ErrNotFound credentials subjectID ;;
  let disabled := mkStoredCredential (sc_SubjectID credential) (sc_Secret credential) (sc_EnabledAt credential)
                    (sc_LastUsedCounter credential) (sc_HasLastUsedCounter credential)
                    (Some (default disabledAt (sc_DisabledAt credential))) in
  fields <~? cmd (SMembers (recoverySet subjectID)) ;;
  cmd (TxPipelined ([HSet credentials [(subjectID, encodeJSON disabled)]] ++ drop_recovery_codes subjectID fields)).

Definition TOTPStore_Disable (subjectID : string) (disabledAt : time) : M S (result unit) :=
  watch_ adapter [key adapter "totp-credentials"; key adapter "totp-recovery-codes"; recoverySet subjectID]
    (disable_transaction subjectID disabledAt).

Definition TOTPStore_CreateChallenge (challenge : Challenge) : M S (result unit) :=
  run (client adapter)
    (created <~? cmd (HSetNX (key adapter "totp-challenges") (hashKey (ch_TokenHash challenge))
                        (encodeJSON (mkStoredChallenge (ch_SubjectID challenge) (ch_TokenHash challenge)
                                       (ch_CreatedAt challenge) (ch_ExpiresAt challenge)))) ;;
     Done (if created : bool then Ok tt else Err ErrConflict)).

Definition findChallenge_commands (challengeHash : ChallengeHash) : prog (result (storedTOTPChallenge * storedTOTPCredential)) :=
  challenge <~? readJSON_or (A := storedTOTPChallenge) ErrNotFound (key adapter "totp-challenges") (hashKey challengeHash) ;;
  credential <~? readJSON_or (A := storedTOTPCredential) ErrNotFound (key adapter "totp-credentials") (sh_SubjectID challenge) ;;
  if negb (bool_decide (sc_DisabledAt credential = None)) then Done (Err ErrNotFound) else
  Done (Ok (challenge, credential)).

Definition TOTPStore_FindChallenge (challengeHash : ChallengeHash) : M S (result (Challenge * Credential)) :=
  found <-? run (client adapter) (findChallenge_commands challengeHash) ;;
  let '(challenge, credential) := found in
  secret <-? decrypt (sc_Secret credential) ;;
  ret (Ok (mkChallenge (sh_SubjectID challenge) (sh_TokenHash challenge) (sh_CreatedAt challenge) (sh_ExpiresAt challenge),
           mkCredential (sc_SubjectID credential) secret (sc_EnabledAt credential) (sc_LastUsedCounter credential)
             (sc_HasLastUsedCounter credential))).

(** The challenge to complete. One that cannot be read is the zero value, which
    has expired unless the clock is before the year 1. *)
Definition zeroStoredChallenge : storedTOTPChallenge := mkStoredChallenge "" zeroHash 0 0.
Definition read_challenge (challengeHash : ChallengeHash) (completedAt : time) : prog (result storedTOTPChallenge) :=
  r <~ readJSON (key adapter "totp-challenges") (hashKey challengeHash) ;;
  Done match r with
       | Err err =>
           if errors_Is err Nil || negb (Before completedAt (sh_ExpiresAt zeroStoredChallenge))
           then Err ErrInactiveChallenge else Err err
       | Ok challenge =>
           if negb (Before completedAt (sh_ExpiresAt challenge)) then Err ErrInactiveChallenge else Ok challenge
       end.

(** It assigns the variable [subjectID]. *)
Definition completeCode_transaction (challengeHash : ChallengeHash) (counter : Z) (completedAt : time) (l : string) :
    prog (string * result unit) :=
  let challenges := key adapter "totp-challenges" in
  let credentials := key adapter "totp-credentials" in
  r <~ (challenge <~? read_challenge challengeHash completedAt ;;
        credential <~? readJSON_or (A := storedTOTPCredential) ErrInvalidCode credentials (sh_SubjectID challenge) ;;
        if negb (bool_decide (sc_DisabledAt credential = None)) then Done (Err ErrInvalidCode) else
        if sc_HasLastUsedCounter credential && (counter <=? sc_LastUsedCounter credential)%Z
        then Done (Err ErrInvalidCode) else
        Done (Ok (challenge, credential))) ;;
  match r with
  | Err err => Done (l, Err err)
  | Ok (challenge, credential) =>
      let used := mkStoredCredential (sc_SubjectID credential) (sc_Secret credential) (sc_EnabledAt credential)
                    counter true (sc_DisabledAt credential) in
      r <~ cmd (TxPipelined [HDel challenges [hashKey challengeHash];
                             HSet credentials [(sh_SubjectID challenge, encodeJSON used)]]) ;;
      Done (sh_SubjectID challenge, r)
  end.

Definition TOTPStore_CompleteCode (challengeHash : ChallengeHash) (counter : Z) (completedAt : time) : M S (result string) :=
  r <- watch adapter [key adapter "totp-challenges"; key adapter "totp-credentials"]
         (completeCode_transaction challengeHash counter completedAt) "" ;;
  ret (returning r).

Definition completeRecovery_transaction (challengeHash : ChallengeHash) (recoveryCode : RecoveryCodeHash)
    (completedAt : time) (l : string) : prog (string * result unit) :=
  let challenges := key adapter "totp-challenges" in
  let recovery := key adapter "totp-recovery-codes" in
  r <~ (challenge <~? read_challenge challengeHash completedAt ;;
        status <~? hget_or ErrInvalidCode recovery (recoveryField (sh_SubjectID challenge) recoveryCode) ;;
        if negb (String.eqb status "unused") then Done (Err ErrInvalidCode) else
        Done (Ok challenge)) ;;
  match r with
  | Err err => Done (l, Err err)
  | Ok challenge =>
      r <~ cmd (TxPipelined
        [HDel challenges [hashKey challengeHash];
         HSet recovery [(recoveryField (sh_SubjectID challenge) recoveryCode, Format_RFC3339Nano completedAt)]]) ;;
      Done (sh_SubjectID challenge, r)
  end.

Definition TOTPStore_CompleteRecovery (challengeHash : ChallengeHash) (recoveryCode : RecoveryCodeHash) (completedAt : time) :
    M S (result string) :=
  r <- watch adapter [key adapter "totp-challenges"; key adapter "totp-recovery-codes"]
         (completeRecovery_transaction challengeHash recoveryCode completedAt) "" ;;
  ret (returning r).

Definition TOTPStore : Store S :=
  {| store_IsEnabled := TOTPStore_IsEnabled;
     store_BeginEnrollment := TOTPStore_BeginEnrollment;
     store_FindEnrollment := TOTPStore_FindEnrollment;
     store_Enable := TOTPStore_Enable;
     store_Disable := TOTPStore_Disable;
     store_CreateChallenge := TOTPStore_CreateChallenge;
     store_FindChallenge := TOTPStore_FindChallenge;
     store_CompleteCode := TOTPStore_CompleteCode;
     store_CompleteRecovery := TOTPStore_CompleteRecovery |}.
End Totp.

(** * Single sign-on in Redis (storage/redis/sso.go)

    The stores of the packages [oidc] and [saml]. *)
From S2P Require Oidc Saml.

Definition zeroOIDCChallenge : Oidc.Challenge := Oidc.mkChallenge zeroHash "" "" "" "" [] false "" "" 0 0.
Definition zeroSAMLRequest : Saml.Request := Saml.mkRequest zeroHash "" Saml.zero_hash "" 0 0.

Section Stores.
Context {S : Type} `{Env} `{JSON Oidc.Challenge} `{JSON Saml.Request} (adapter : Adapter S).

(** ** OpenID Connect *)
Definition OIDCStore_CreateChallenge (challenge : Oidc.Challenge) : M S (result unit) :=
  run (client adapter)
    (created <~? cmd (HSetNX (key adapter "oidc-challenges") (hashKey (Oidc.StateHash challenge)) (encodeJSON challenge)) ;;
     Done (if created : bool then Ok tt else Err Oidc.ErrConflict)).

(** It assigns the variable [result]. *)
Definition consumeOIDC_transaction (stateHash : Hash) (consumedAt : time) (l : Oidc.Challenge) :
    prog (Oidc.Challenge * result unit) :=
  let name := key adapter "oidc-challenges" in
  let field := hashKey stateHash in
  r <~ readJSON_or Oidc.ErrNotFound name field ;;
  match r with
  | Err err => Done (l, Err err)
  | Ok challenge =>
      r <~ cmd (TxPipelined [HDel name [field]]) ;;
      match r with
      | Err err => Done (challenge, Err err)
      | Ok _ =>
          if negb (Before consumedAt (Oidc.ExpiresAt challenge))
          then Done (challenge, Err Oidc.ErrInactiveState) else Done (challenge, Ok tt)
      end
  end.

Definition OIDCStore_ConsumeChallenge (stateHash : Hash) (consumedAt : time) : M S (result Oidc.Challenge) :=
  r <- watch adapter [key adapter "oidc-challenges"] (consumeOIDC_transaction stateHash consumedAt) zeroOIDCChallenge ;;
  ret (returning r).

Definition OIDCStore : Oidc.Store S :=
  {| Oidc.store_CreateChallenge := OIDCStore_CreateChallenge;
     Oidc.store_ConsumeChallenge := OIDCStore_ConsumeChallenge |}.

(** ** SAML *)
Definition SAMLStore_CreateRequest (request : Saml.Request) : M S (result unit) :=
  run (client adapter)
    (created <~? cmd (HSetNX (key adapter "saml-requests") (hashKey (Saml.StateHash request)) (encodeJSON request)) ;;
     Done (if created : bool then Ok tt else Err Saml.ErrConflict)).

Definition consumeSAML_transaction (stateHash : Hash) (consumedAt : time) (l : Saml.Request) :
    prog (Saml.Request * result unit) :=
  let name := key adapter "saml-requests" in
  let field := hashKey stateHash in
  r <~ readJSON_or Saml.ErrNotFound name field ;;
  match r with
  | Err err => Done (l, Err err)
  | Ok request =>
      r <~ cmd (TxPipelined [HDel name [field]]) ;;
      match r with
      | Err err => Done (request, Err err)
      | Ok _ =>
          if negb (Before consumedAt (Saml.ExpiresAt request))
          then Done (request, Err Saml.ErrInactiveRequest) else Done (request, Ok tt)
      end
  end.

Definition SAMLStore_ConsumeRequest (stateHash : Hash) (consumedAt : time) : M S (result Saml.Request) :=
  r <- watch adapter [key adapter "saml-requests"] (consumeSAML_transaction stateHash consumedAt) zeroSAMLRequest ;;
  ret (returning r).

Definition SAMLStore : Saml.Store S :=
  {| Saml.store_CreateRequest := SAMLStore_CreateRequest;
     Saml.store_ConsumeRequest := SAMLStore_ConsumeRequest |}.
End Stores.

(** * Passkeys in Redis (storage/redis/passkeys.go) *)
From S2P Require Import Passkey RedisSessions.

Record storedPasskey : Type := mkStoredPasskey {
  sp_CredentialID : string;
  sp_SubjectID : string;
  sp_Credential : string;
  sp_CreatedAt : time;
  sp_UpdatedAt : time;
}.

(** The loop over the values: those that are nil are left out. *)
Fixpoint decodeCredentials `{JSON storedPasskey} `{JSON Credential} (values : list any) : result (list Credential) :=
  match values with
  | [] => Ok []
  | any_nil :: values => decodeCredentials values
  | value :: values =>
      match decodeRedisValue value with
      | Err err => Err err
      | Ok stored =>
          match json_Unmarshal (sp_Credential stored) with
          | Err err => Err err
          | Ok credential =>
              match decodeCredentials values with
              | Err err => Err err
              | Ok credentials => Ok (credential :: credentials)
              end
          end
      end
  end.

Section Passkeys.
Context {S : Type} `{Env} `{JSON userRecord} `{JSON storedPasskey} `{JSON Credential} `{JSON Ceremony}.
Context (adapter : Adapter S).

Definition passkeySet (subjectID : string) : string := key adapter ("passkeys:subject:" +:+ subjectID).

(** The manager's library never asks for a user with a handle that is nil. *)
Definition findUser (subjectID : string) (expectedHandle : option string) : prog (result User) :=
  stored <~? readJSON_or (A := userRecord) ErrNotFound (key adapter "users") subjectID ;;
  if match expectedHandle with
     | Some handle => negb (String.eqb (ur_WebAuthnHandle stored) handle)
     | None => false
     end
  then Done (Err ErrNotFound) else
  let user := mkUser (ur_ID stored) (ur_WebAuthnHandle stored) (ur_Email stored) (ur_Email stored) in
  fields <~? cmd (SMembers (passkeySet subjectID)) ;;
  if (length fields =? 0)%nat then Done (Ok (user [])) else
  values <~? cmd (HMGet (key adapter "passkeys") fields) ;;
  match decodeCredentials values with
  | Err err => Done (Err err)
  | Ok credentials => Done (Ok (user credentials))
  end.

Definition PasskeyStore_FindUserBySubject (subjectID : string) : M S (result User) :=
  run (client adapter) (findUser subjectID None).

Definition PasskeyStore_FindUserByCredential (credentialID userHandle : string) : M S (result User) :=
  run (client adapter)
    (credential <~? readJSON_or (A := storedPasskey) ErrNotFound (key adapter "passkeys") (hashKey credentialID) ;;
     findUser (sp_SubjectID credential) (Some userHandle)).

Definition PasskeyStore_CreateCeremony (ceremony : Ceremony) : M S (result unit) :=
  run (client adapter)
    (created <~? cmd (HSetNX (key adapter "passkey-ceremonies") (hashKey (cer_TokenHash ceremony)) (encodeJSON ceremony)) ;;
     Done (if created : bool then Ok tt else Err ErrConflict)).

Definition PasskeyStore_FindCeremony (ceremonyHash : CeremonyHash) : M S (result Ceremony) :=
  run (client adapter) (readJSON_or ErrNotFound (key adapter "passkey-ceremonies") (hashKey ceremonyHash)).

Definition validatePasskeyCeremony (name field subjectID : string) (ceremonyType : CeremonyType) (at_ : time) :
    prog (result unit) :=
  ceremony <~? readJSON_or ErrInactiveCeremony name field ;;
  if negb (bool_decide (cer_Type ceremony = ceremonyType)) || negb (String.eqb (cer_SubjectID ceremony) subjectID) ||
     negb (Before at_ (cer_ExpiresAt ceremony))
  then Done (Err ErrInactiveCeremony) else
  Done (Ok tt).

(** The transactions of the operations are named after them. *)
Definition completeRegistration_transaction (ceremonyHash : CeremonyHash) (subjectID : string) (credential : Credential)
    (completedAt : time) : prog (result unit) :=
  let ceremonies := key adapter "passkey-ceremonies" in
  let credentials := key adapter "passkeys" in
  let ceremonyField := hashKey ceremonyHash in
  let credentialField := hashKey (cred_ID credential) in
  _ <~? validatePasskeyCeremony ceremonies ceremonyField subjectID CeremonyRegistration completedAt ;;
  _ <~? exists_or ErrNotFound (key adapter "users") subjectID ;;
  exists_ <~? cmd (HExists credentials credentialField) ;;
  if exists_ : bool then Done (Err ErrConflict) else
  let storedJSON := encodeJSON (mkStoredPasskey (cred_ID credential) subjectID (json_Marshal credential) completedAt completedAt) in
  cmd (TxPipelined
    [HDel ceremonies [ceremonyField]; HSet credentials [(credentialField, storedJSON)];
     SAdd (passkeySet subjectID) [credentialField]]).

Definition PasskeyStore_CompleteRegistration (ceremonyHash : CeremonyHash) (subjectID : string) (credential : Credential)
    (completedAt : time) : M S (result unit) :=
  watch_ adapter [key adapter "passkey-ceremonies"; key adapter "passkeys"; key adapter "users"; passkeySet subjectID]
    (completeRegistration_transaction ceremonyHash subjectID credential completedAt).

Definition completeAuthentication_transaction (ceremonyHash : CeremonyHash) (subjectID : string)
    (previous updated : Credential) (completedAt : time) : prog (result unit) :=
  let ceremonies := key adapter "passkey-ceremonies" in
  let credentials := key adapter "passkeys" in
  let ceremonyField := hashKey ceremonyHash in
  let credentialField := hashKey (cred_ID previous) in
  _ <~? validatePasskeyCeremony ceremonies ceremonyField subjectID CeremonyAuthentication completedAt ;;
  stored <~? readJSON_or (A := storedPasskey) ErrConflict credentials credentialField ;;
  if negb (String.eqb (sp_SubjectID stored) subjectID) || negb (String.eqb (sp_Credential stored) (json_Marshal previous))
  then Done (Err ErrConflict) else
  let stored := mkStoredPasskey (sp_CredentialID stored) (sp_SubjectID stored) (json_Marshal updated)
                  (sp_CreatedAt stored) completedAt in
  cmd (TxPipelined [HDel ceremonies [ceremonyField]; HSet credentials [(credentialField, encodeJSON stored)]]).

Definition PasskeyStore_CompleteAuthentication (ceremonyHash : CeremonyHash) (subjectID : string)
    (previous updated : Credential) (completedAt : time) : M S (result unit) :=
  watch_ adapter [key adapter "passkey-ceremonies"; key adapter "passkeys"]
    (completeAuthentication_transaction ceremonyHash subjectID previous updated completedAt).

Definition deleteCredential_transaction (subjectID credentialID : string) : prog (result unit) :=
  let credentials := key adapter "passkeys" in
  let field := hashKey credentialID in
  _ <~? exists_or ErrNotFound (key adapter "users") subjectID ;;
  credential <~? readJSON_or (A := storedPasskey) ErrNotFound credentials field ;;
  if negb (String.eqb (sp_SubjectID credential) subjectID) then Done (Err ErrNotFound) else
  passkeyCount <~? cmd (SCard (passkeySet subjectID)) ;;
  passwordExists <~? cmd (HExists (key adapter "passwords") subjectID) ;;
  googleCount <~? cmd (SCard (key adapter ("google:subject:" +:+ subjectID))) ;;
  if (passkeyCount =? 1)%nat && negb passwordExists && (googleCount =? 0)%nat then Done (Err ErrLastCredential) else
  cmd (TxPipelined [HDel credentials [field]; SRem (passkeySet subjectID) [field]]).

Definition PasskeyStore_DeleteCredential (subjectID credentialID : string) (_ : time) : M S (result unit) :=
  watch_ adapter [key adapter "passkeys"; passkeySet subjectID; key adapter "users"; key adapter "passwords";
                  key adapter ("google:subject:" +:+ subjectID)]
    (deleteCredential_transaction subjectID credentialID).

Definition PasskeyStore : Store S :=
  {| store_FindUserBySubject := PasskeyStore_FindUserBySubject;
     store_FindUserByCredential := PasskeyStore_FindUserByCredential;
     store_CreateCeremony := PasskeyStore_CreateCeremony;
     store_FindCeremony := PasskeyStore_FindCeremony;
     store_CompleteRegistration := PasskeyStore_CompleteRegistration;
     store_CompleteAuthentication := PasskeyStore_CompleteAuthentication;
     store_DeleteCredential := PasskeyStore_DeleteCredential |}.
End Passkeys.
