(* ===== verification/RedisPasskeysProps.v ===== *)
(** * What passkeys in Redis keep

    The contract of PasskeySpec, for a client that is alone, and what keeps every
    sign-in with a passkey from completing. *)
From S2P Require Import Prelude GoText Base64 Sha256 Token Passkey PasskeySpec PasskeyProps Redis RedisSpec RedisSessions RedisStores RedisReference.

(** ** Ceremonies of sign-ins have no subject *)

(** A call keeps an invariant of the state outside. *)
Definition preserves {S A} (J : S -> Prop) (m : M S A) : Prop :=
  forall w, J (ext w) -> wp m (fun _ w' => J (ext w')) w.

(** A store that keeps an invariant as long as the ceremonies it is given have a
    subject only if they are registrations, and that completes no sign-in of a
    subject. *)
Record refuses_sign_ins {S} (st : Store S) (J : S -> Prop) : Prop := {
  refuses_FindUserBySubject id : preserves J (store_FindUserBySubject st id);
  refuses_FindUserByCredential id handle : preserves J (store_FindUserByCredential st id handle);
  refuses_CreateCeremony c : (cer_Type c = CeremonyAuthentication -> cer_SubjectID c = "") ->
    preserves J (store_CreateCeremony st c);
  refuses_FindCeremony h : preserves J (store_FindCeremony st h);
  refuses_CompleteRegistration h id c at_ : preserves J (store_CompleteRegistration st h id c at_);
  refuses_CompleteAuthentication h id previous updated at_ w : J (ext w) -> id <> "" ->
    wp (store_CompleteAuthentication st h id previous updated at_) (fun r w' => J (ext w') /\ is_ok r = false) w;
  refuses_DeleteCredential id c at_ : preserves J (store_DeleteCredential st id c at_);
}.

Section Refused.
Context {S : Type} `{DiscoverableLogin} (manager : Manager S) (webAuthn : WebAuthn) (J : S -> Prop).
Context (Hst : refuses_sign_ins (store manager) J) (Hproto : protocol manager = webAuthnProtocol webAuthn).
Context (Hguard : forall g a, attemptGuard manager = Some g -> preserves J (g a)).
Context (Hevents : forall e a, securityEvents manager = Some e -> preserves J (e a)).

Lemma preserves_record e subject source : preserves J (record manager e subject source).
Proof.
  intros w Hw. unfold record. destruct (securityEvents manager) as [sink|] eqn:He; wp_go; [|done].
  by apply Hevents.
Qed.

Lemma preserves_checkAttempt op subject source : preserves J (checkAttempt manager op subject source).
Proof.
  intros w Hw. unfold checkAttempt. destruct (attemptGuard manager) as [g|] eqn:Hg; wp_go; [|done].
  eapply wp_mono; [by eapply Hguard|]. done.
Qed.

Lemma preserves_storeCeremony kind subject session :
  (kind = CeremonyAuthentication -> subject = "") -> preserves J (storeCeremony manager kind subject session).
Proof.
  intros Hkind w Hw. unfold storeCeremony.
  apply (wp_for_range _ _ _ _ (fun v => J (ext v))); [done| |by intros v Hv; wp_go].
  intros v Hv. wp_go. apply wp_Generate; [|by wp_go]. intros raw h Hh. wp_go.
  eapply wp_mono; [by apply (refuses_CreateCeremony _ _ Hst)|]. intros [[]|e] v' Hv'; by wp_go.
Qed.

Lemma preserves_findCeremony token kind : preserves J (findCeremony manager token kind).
Proof.
  intros w Hw. unfold findCeremony. destruct (HashToken token) as [h|e]; wp_go; [|done].
  eapply wp_mono; [by apply (refuses_FindCeremony _ _ Hst)|]. intros [c|e] v Hv; by wp_go.
Qed.

(** The handler of a sign-in, and the users it lets through. *)
Lemma preserves_FinishAuthentication source session response v :
  J (fst (ext v)) ->
  wp (engine_FinishAuthentication webAuthn (S * locals) session response (lookup manager source))
    (fun _ v' => J (fst (ext v'))) v.
Proof.
  intros Hv. unfold engine_FinishAuthentication.
  destruct (protocol_ParseAssertion response) as [parsed|e]; wp_go; [|done].
  unfold wp at 1. rewrite ValidatePasskeyLogin_law.
  destruct (discover webAuthn session parsed _) as [[id handle]|e]; [|by simpl; wp_go].
  assert (Hh : wp (engine_handler (lookup manager source) id handle) (fun _ v' => J (fst (fst (ext v'))))
                 (tick (with_local noUser v))).
  { unfold engine_handler, lookup. wp_go.
    eapply wp_mono; [by apply (refuses_FindUserByCredential _ _ Hst)|]. simpl. intros [u|e] w1 Hw1; wp_go; try done.
    eapply wp_mono; [by apply preserves_checkAttempt|]. simpl. intros [[]|e] w2 Hw2; by wp_go. }
  unfold wp in Hh. destruct (engine_handler _ _ _ _) as [r v1]. simpl in *.
  destruct r as [u|e]; [|by simpl; wp_go]. simpl. destruct (validate webAuthn u session parsed _); by wp_go.
Qed.

Lemma validUser_subject u : validUser u = true -> SubjectID u <> "".
Proof. unfold validUser. intros Hv. go_bool. intros E. rewrite E in *. done. Qed.

Lemma refused_CompleteAuthentication input w :
  J (ext w) -> wp (CompleteAuthentication manager input) (fun r w' => J (ext w') /\ is_ok r = false) w.
Proof.
  intros Hw. unfold CompleteAuthentication. rewrite Hproto. wp_go.
  eapply wp_mono; [by apply preserves_findCeremony|]. intros [[c h]|e] w1 Hw1; wp_go; try done.
  simpl protocol_FinishAuthentication. cbv beta.
  eapply wp_mono; [by apply preserves_FinishAuthentication|]. simpl. intros r v2 Hv2.
  assert (Hd2 : J (ext (drop_local v2))) by exact Hv2. wp_go; try done.
  - eapply wp_mono; [apply (refuses_CompleteAuthentication _ _ Hst); [exact Hd2|]|].
    { go_bool. by apply validUser_subject. }
    intros [[]|e] w3 [Hw3 Hr]; [done|]. by wp_go.
  - eapply wp_mono; [by apply preserves_record|]. intros [] w3 Hw3. by wp_go.
Qed.

Lemma refused_call w w1 : passkey_call manager w w1 -> J (ext w) -> J (ext w1).
Proof.
  intros Hcall Hw. destruct Hcall as [subject w|input w|w|input w|subject id source w|subject w].
  - assert (Hr : wp (BeginRegistration manager subject) (fun _ w' => J (ext w')) w); [|exact Hr].
    unfold BeginRegistration. rewrite Hproto. wp_go; [done|].
    eapply wp_mono; [by apply (refuses_FindUserBySubject _ _ Hst)|]. intros [u|e] w1 Hw1; wp_go; try done.
    unfold webAuthnProtocol, protocol_BeginRegistration, engine_BeginRegistration. unfold wp at 1. simpl.
    destruct (webauthn_BeginRegistration _ _ _ _) as [[options session]|e]; wp_go; [|done].
    eapply wp_mono; [by apply preserves_storeCeremony|]. intros [[token expires]|e] w2 Hw2; by wp_go.
  - assert (Hr : wp (CompleteRegistration manager input) (fun _ w' => J (ext w')) w); [|exact Hr].
    unfold CompleteRegistration. rewrite Hproto. wp_go.
    eapply wp_mono; [by apply preserves_findCeremony|]. intros [[c h]|e] w1 Hw1; wp_go; try done.
    eapply wp_mono; [by apply preserves_checkAttempt|]. intros [[]|e] w2 Hw2; wp_go; try done.
    eapply wp_mono; [by apply (refuses_FindUserBySubject _ _ Hst)|]. intros [u|e] w3 Hw3; wp_go; try done.
    simpl protocol_FinishRegistration. unfold engine_FinishRegistration. wp_go; try done.
    2-3: eapply wp_mono; [by apply preserves_record|]; intros [] w4 Hw4; by wp_go.
    eapply wp_mono; [by apply (refuses_CompleteRegistration _ _ Hst)|]. intros [[]|e] w4 Hw4; wp_go; [|done].
    eapply wp_mono; [by apply preserves_record|]. intros [] w5 Hw5. by wp_go.
  - assert (Hr : wp (BeginAuthentication manager) (fun _ w' => J (ext w')) w); [|exact Hr].
    unfold BeginAuthentication. rewrite Hproto. wp_go.
    unfold webAuthnProtocol, protocol_BeginAuthentication, engine_BeginAuthentication. unfold wp at 1. simpl.
    destruct (webauthn_BeginDiscoverableLogin _ _) as [[options session]|e]; wp_go; [|done].
    eapply wp_mono; [by apply preserves_storeCeremony|]. intros [[token expires]|e] w2 Hw2; by wp_go.
  - by apply (refused_CompleteAuthentication input w).
  - assert (Hr : wp (Remove manager subject id source) (fun _ w' => J (ext w')) w); [|exact Hr].
    unfold Remove. wp_go; [done|]. eapply wp_mono; [by apply (refuses_DeleteCredential _ _ Hst)|].
    intros [[]|e] w1 Hw1; wp_go; try done. eapply wp_mono; [by apply preserves_record|]. intros [] w2 Hw2. by wp_go.
  - assert (Hr : wp (List manager subject) (fun _ w' => J (ext w')) w); [|exact Hr].
    unfold List. wp_go; [done|]. eapply wp_mono; [by apply (refuses_FindUserBySubject _ _ Hst)|].
    intros [u|e] w1 Hw1; by wp_go.
Qed.
End Refused.

Section Redis.
Context {S : Type} `{Env} `{JSON userRecord} `{JSON storedPasskey} `{JSON Credential} `{JSON Ceremony}.
Context (adapter : Adapter S).

(** The ceremonies in Redis that are sign-ins have no subject. *)
Definition subjectless (k : keyspace) : Prop :=
  forall field v c, hash_at k (key adapter "passkey-ceremonies") !! field = Some v -> json_Unmarshal v = Ok c ->
    cer_Type c = CeremonyAuthentication -> cer_SubjectID c = "".

Lemma subjectless_subseteq k k' :
  hash_at k' (key adapter "passkey-ceremonies") ⊆ hash_at k (key adapter "passkey-ceremonies") ->
  subjectless k -> subjectless k'.
Proof. intros Hsub Hk field v c Hv. apply (Hk field v c). by eapply lookup_weaken. Qed.

Lemma hdel_subseteq fields (h : gmap string string) : hdel fields h ⊆ h.
Proof. revert h. induction fields as [|f fields IH]; intros h; simpl; [done|]. etrans; [apply IH|apply delete_subseteq]. Qed.

Section Others.
Context (keys : S -> keyspace) (cache : S -> gmap string string) (others : keyspace -> keyspace -> Prop) (alone : Prop).
Context `{!RedisLaws (client adapter) keys cache others alone}.
Context (Hothers : forall k k', others k k' -> subjectless k -> subjectless k').

Lemma preserves_run {A} (p : prog A) : keeps subjectless p (fun _ => True) ->
  preserves (fun s => subjectless (keys s)) (run (client adapter) p).
Proof.
  intros Hp w Hw. eapply wp_mono; [by apply (wp_run_keeps adapter keys cache others alone subjectless Hothers p (fun _ => True))|].
  by intros a w' [? _].
Qed.

Lemma preserves_watch ks (op : prog (result unit)) : keeps subjectless op (fun _ => True) ->
  preserves (fun s => subjectless (keys s)) (watch_ adapter ks op).
Proof.
  intros Hop w Hw.
  eapply wp_mono; [apply (wp_watch__keeps adapter keys cache others alone subjectless Hothers ks op True); [|done]|].
  - by eapply keeps_mono.
  - by intros a w' [? _].
Qed.

Ltac keeps_go := repeat match goal with
  | |- keeps _ (pbind_ok _ _) _ => apply keeps_bind_ok
  | |- keeps _ (pbind _ _) _ => apply keeps_bind
  | |- keeps _ (readJSON_or _ _ _) _ => apply keeps_readJSON_or; [intros ? ? ? ? ? ?|intros ?]
  | |- keeps _ (readJSON _ _) _ => apply keeps_readJSON; [intros ? ? ? ? ? ?|intros ?]
  | |- keeps _ (cmd (TxPipelined _)) _ => apply keeps_exec; [|by intros ?]
  | |- keeps _ (cmd _) _ => apply keeps_read; [done|intros ? ? ? ?]
  | |- keeps _ (if ?b then _ else _) _ => destruct b eqn:?
  | |- keeps _ (match ?r with _ => _ end) _ => destruct r eqn:?
  | |- keeps _ (Done _) _ => cbn [keeps]
  | |- match ?r with _ => _ end => destruct r eqn:?
  | |- True => exact I
  end; cbv beta iota zeta.

Lemma keeps_findUser subject handle : keeps subjectless (findUser adapter subject handle) (fun _ => True).
Proof. unfold findUser. keeps_go. Qed.

Lemma keeps_validate field subject type at_ :
  keeps subjectless (validatePasskeyCeremony (key adapter "passkey-ceremonies") field subject type at_)
    (fun r => is_ok r = true -> type = CeremonyAuthentication -> subject = "").
Proof.
  unfold validatePasskeyCeremony. keeps_go; simpl; try done.
  intros _ Ht. go_bool. subst. match goal with Hk : subjectless _ |- _ => by eapply Hk end.
Qed.

Lemma keeps_CreateCeremony c :
  (cer_Type c = CeremonyAuthentication -> cer_SubjectID c = "") ->
  keeps subjectless (cmd (HSetNX (key adapter "passkey-ceremonies") (hashKey (cer_TokenHash c)) (encodeJSON c))) (fun _ => True).
Proof.
  intros Hc k x k' Hk [Hd|[Ha ->]]; [|done]. split; [|done]. cbn [does] in Hd.
  destruct x as [[]|e]; destruct Hd as [_ ->]; try done. intros field v d. simpl. autorewrite with redis.
  rewrite decide_True by done. simpl. intros [[<- <-]|[_ Hv]]%lookup_insert_Some Hd; [|by apply (Hk field v d)].
  unfold encodeJSON in Hd. rewrite json_Unmarshal_Marshal in Hd. by injection Hd as <-.
Qed.

(** A transaction that at most uses a ceremony up. *)
Lemma keeps_ending ws :
  (forall k, hash_at (apply_writes ws k) (key adapter "passkey-ceremonies") ⊆ hash_at k (key adapter "passkey-ceremonies")) ->
  forall k, subjectless k -> subjectless (apply_writes ws k).
Proof. intros Hws k. apply subjectless_subseteq, Hws. Qed.

Ltac ending := apply keeps_ending; intros ?; simpl; autorewrite with redis; key_cases; simpl; autorewrite with redis;
  rewrite ?decide_True by done; simpl; try apply delete_subseteq; done.

Lemma redis_refuses : refuses_sign_ins (PasskeyStore adapter) (fun s => subjectless (keys s)).
Proof.
  split; simpl.
  - intros id. apply preserves_run, keeps_findUser.
  - intros id handle. apply preserves_run. keeps_go. apply keeps_findUser.
  - intros c Hc. apply preserves_run, keeps_bind_ok. eapply keeps_mono; [by apply keeps_CreateCeremony|]. by intros [[]|].
  - intros h. apply preserves_run. keeps_go.
  - intros h id c at_. apply preserves_watch. unfold completeRegistration_transaction, exists_or. apply keeps_bind_ok.
    eapply keeps_mono; [apply keeps_validate|]. intros [[]|e] _; keeps_go. ending.
  - intros h id previous updated at_ w Hw Hid.
    eapply wp_mono; [apply (wp_watch__keeps adapter keys cache others alone subjectless Hothers _ _ False); [|done]|].
    + unfold completeAuthentication_transaction. apply keeps_bind_ok. eapply keeps_mono; [apply keeps_validate|].
      intros [[]|e] Hv; [|done]. by destruct (Hid (Hv eq_refl eq_refl)).
    + intros [[]|e] w' [Hw' Hr]; [by destruct Hr|done].
  - intros id c at_. apply preserves_watch. unfold deleteCredential_transaction, exists_or. keeps_go. ending.
Qed.
End Others.
End Redis.

(** * Properties of passkeys in Redis

    A defect: over the Redis store no one ever signs in with a passkey. *)

(** [BeginAuthentication] stores ceremonies without a subject, and the store
    completes a sign-in only of a ceremony with the subject that signs in: along
    every history of calls, among other clients that do no better, every
    [CompleteAuthentication] fails, whatever the response. *)
Theorem redis_passkeys_never_sign_in {S : Type} `{DiscoverableLogin} `{JSON userRecord} `{JSON storedPasskey}
    `{JSON Credential} `{JSON Ceremony} (adapter : Adapter S) (keys : S -> keyspace) (cache : S -> gmap string string)
    (others : keyspace -> keyspace -> Prop) (alone : Prop) `{!RedisLaws (client adapter) keys cache others alone}
    (manager : Manager S) (webAuthn : WebAuthn) w w1 input :
  (forall k k', others k k' -> subjectless adapter k -> subjectless adapter k') ->
  store manager = PasskeyStore adapter -> protocol manager = webAuthnProtocol webAuthn ->
  (forall g a, attemptGuard manager = Some g -> preserves (fun s => subjectless adapter (keys s)) (g a)) ->
  (forall e a, securityEvents manager = Some e -> preserves (fun s => subjectless adapter (keys s)) (e a)) ->
  subjectless adapter (keys (ext w)) -> rtc (passkey_call manager) w w1 ->
  is_ok (fst (CompleteAuthentication manager input w1)) = false.
Proof.
  intros Hothers Hst Hp Hg He Hw Hcalls.
  assert (Href : refuses_sign_ins (store manager) (fun s => subjectless adapter (keys s))).
  { rewrite Hst. by apply (redis_refuses adapter keys cache others alone). }
  assert (Hw1 : subjectless adapter (keys (ext w1))).
  { clear input. induction Hcalls as [w|w w2 w1 Hcall _ IH]; [done|]. apply IH.
    by apply (refused_call manager webAuthn (fun s => subjectless adapter (keys s)) Href Hp Hg He w w2). }
  by destruct (refused_CompleteAuthentication manager webAuthn _ Href Hp Hg He input w1 Hw1).
Qed.

(** ** A run

    Alice registers a passkey in Redis, and its sign-in is refused; the reference
    store signs the same response in ([alice_signs_in_ok]). *)
#[export] Instance demo_user_json : JSON userRecord :=
  json_of_countable (fun u => (ur_ID u, ur_Email u, ur_EmailVerified u, ur_WebAuthnHandle u, ur_CreatedAt u))
    (fun '(i, e, v, h, c) => mkUserRecord i e v h c) (fun u => match u with mkUserRecord _ _ _ _ _ => eq_refl end).

#[export] Instance demo_passkey_json : JSON storedPasskey :=
  json_of_countable (fun p => (sp_CredentialID p, sp_SubjectID p, sp_Credential p, sp_CreatedAt p, sp_UpdatedAt p))
    (fun '(i, s, c, t, u) => mkStoredPasskey i s c t u) (fun p => match p with mkStoredPasskey _ _ _ _ _ => eq_refl end).

#[export] Instance demo_credential_json : JSON Credential :=
  json_of_countable (fun c => (cred_ID c, PublicKey c, CloneWarning c, cred_rest c))
    (fun '(i, p, w, r) => mkCredential i p w r) (fun c => match c with mkCredential _ _ _ _ => eq_refl end).

Definition ceremony_fields (c : Ceremony) : bool * string * string * (string * string * Z * string) * Z * Z :=
  (bool_decide (cer_Type c = CeremonyRegistration), cer_TokenHash c, cer_SubjectID c,
   (ses_Challenge (Session c), ses_UserID (Session c), ses_Expires (Session c), ses_rest (Session c)),
   cer_CreatedAt c, cer_ExpiresAt c).
Definition ceremony_of_fields (x : bool * string * string * (string * string * Z * string) * Z * Z) : Ceremony :=
  let '(t, h, s, (c, u, e, r), ca, ea) := x in
  mkCeremony (if t : bool then CeremonyRegistration else CeremonyAuthentication) h s (mkSessionData c u e r) ca ea.

#[export] Instance demo_ceremony_json : JSON Ceremony.
Proof. refine (json_of_countable ceremony_fields ceremony_of_fields _). by intros [[] ? ? [] ? ?]. Defined.

Definition alice_row : userRecord := mkUserRecord "alice" "alice@example.com" true "handle-a" demo_epoch.
Definition redis_with_alice : World server :=
  demo_world (mkServer (apply_write (mkKeyspace ∅ ∅) (HSet "{authlier}:users" [("alice", json_Marshal alice_row)])) ∅ 0 None false).

Definition redis_passkeys : Manager server :=
  mkManager _ (PasskeyStore quiet_adapter) (webAuthnProtocol "app.example.com") (10 * Minute)%Z None None demo_clock.

Definition redis_begun := BeginRegistration redis_passkeys "alice" redis_with_alice.
Definition redis_registered :=
  CompleteRegistration redis_passkeys (mkCompleteInput (token_of (fst redis_begun)) "alice" "cred-1" "") (snd redis_begun).
Definition redis_returns := BeginAuthentication redis_passkeys (snd redis_registered).
Definition redis_response := mkCompleteInput (signin_token_of (fst redis_returns)) "" "cred-1/handle-a" "".

Lemma redis_passkeys_never_sign_in_witness :
  cred_ID <$> ok_value (fst redis_registered) = Some "cred-1" /\ is_ok (fst redis_returns) = true /\
  is_ok (fst (CompleteAuthentication redis_passkeys redis_response (snd redis_returns))) = false.
Proof.
  split_and!; [vm_compute; reflexivity..|].
  refine (redis_passkeys_never_sign_in quiet_adapter srv_keys srv_cache (demo_others false (fun _ k => k)) (false = false)
    redis_passkeys "app.example.com" redis_with_alice (snd redis_returns) redis_response _ eq_refl eq_refl _ _ _ _).
  - intros k k' Ho. by rewrite (alone_others k k' eq_refl Ho).
  - done.
  - done.
  - intros field v c Hv. exfalso. vm_compute in Hv. done.
  - eapply rtc_l; [apply (call_BeginRegistration redis_passkeys "alice" redis_with_alice)|].
    eapply rtc_l; [apply call_CompleteRegistration|]. eapply rtc_l; [apply call_BeginAuthentication|]. apply rtc_refl.
Defined.
