(* ===== verification/RedisSsoProps.v ===== *)
(** * What is pending, in Redis

    The stores of [oidc], [saml] and [googleoauth] have one shape: what is
    pending is a table, a row is created where there is none, and consuming it
    deletes it in a transaction. The rules are stated once for that shape. *)
From S2P Require Import Prelude Token SsoSpec Redis RedisSpec RedisStores RedisReference.
From S2P Require Oidc Saml GoogleOAuth.

Section Shape.
Context {S : Type} `{Env} (adapter : Adapter S) (keys : S -> keyspace) (cache : S -> gmap string string).
Context (others : keyspace -> keyspace -> Prop) (alone : Prop).
Context `{!RedisLaws (client adapter) keys cache others alone}.
Context {A : Type} `{JSON A} (hash_of : A -> string) (expires : A -> time) (name : string).
Context (conflict absent inactive : error).

(** The shape of the three stores. *)
Definition create_pending (a : A) : prog (result unit) :=
  created <~? cmd (HSetNX (key adapter name) (hashKey (hash_of a)) (encodeJSON a)) ;;
  Done (if created : bool then Ok tt else Err conflict).

Definition consume_pending (h : string) (at_ : time) (l : A) : prog (A * result unit) :=
  r <~ readJSON_or absent (key adapter name) (hashKey h) ;;
  match r with
  | Err err => Done (l, Err err)
  | Ok a =>
      r <~ cmd (TxPipelined [HDel (key adapter name) [hashKey h]]) ;;
      match r with
      | Err err => Done (a, Err err)
      | Ok _ => if negb (Before at_ (expires a)) then Done (a, Err inactive) else Done (a, Ok tt)
      end
  end.

Definition consume_call (zero : A) (h : string) (at_ : time) : M S (result A) :=
  r <- watch adapter [key adapter name] (consume_pending h at_) zero ;; ret (returning r).

Definition pending_ok (k : keyspace) : Prop := table_ok hash_of hashKey (hash_at k (key adapter name)).
Definition pending_of (k : keyspace) : gmap string A := table hash_of (hash_at k (key adapter name)).

Lemma table_ok_delete (h : gmap string string) f : table_ok hash_of hashKey h -> table_ok hash_of hashKey (delete f h).
Proof. apply table_ok_subseteq, delete_subseteq. Qed.

Lemma table_delete (h : gmap string string) x :
  table_ok hash_of hashKey h -> table hash_of (delete (hashKey x) h) = delete x (table hash_of h).
Proof.
  intros Hok. apply map_eq. intros y. apply option_eq. intros a.
  rewrite (table_lookup _ hashKey) by by apply table_ok_delete. destruct (decide (y = x)) as [->|Hne].
  - rewrite !lookup_delete_eq. naive_solver.
  - rewrite !lookup_delete_ne by (try done; intros E; by apply (inj hashKey) in E). by rewrite (table_lookup _ hashKey).
Qed.

(** Deleting the row of a hash. *)
Lemma delete_pending k h : pending_ok k ->
  let k' := apply_write k (HDel (key adapter name) [hashKey h]) in
  pending_ok k' /\ pending_of k' = delete h (pending_of k).
Proof.
  intros Hok. simpl. unfold pending_ok, pending_of in *. autorewrite with redis. rewrite decide_True by done.
  split; [by apply table_ok_delete|by apply table_delete].
Qed.

Lemma create_pending_runs a k r k' :
  pending_ok k -> runs (create_pending a) k r k' ->
  match r with
  | Ok _ => pending_of k !! hash_of a = None /\ pending_ok k' /\ pending_of k' = <[hash_of a := a]> (pending_of k)
  | Err _ => k' = k
  end.
Proof.
  intros Hok. unfold create_pending, pending_ok, pending_of in *. intros Hr. apply runs_bind_ok in Hr as [([] & k1 & Hr & [-> ->])|(e & Hr & ->)];
    apply runs_cmd in Hr; simpl in Hr; destruct Hr as [Hr ->].
  - split; [by apply (table_None _ hashKey)|]. autorewrite with redis. rewrite decide_True by done.
    split; [by apply table_ok_insert|by apply (table_insert _ hashKey)].
  - done.
  - done.
Qed.

Hypothesis (Hinactive : errors_Is inactive TxFailedErr = false).

Lemma consume_pending_runs h at_ l k l' r k' :
  pending_ok k -> runs (consume_pending h at_ l) k (l', r) k' ->
  (is_ok r = true -> pending_of k !! h = Some l' /\ (at_ < expires l')%Z) /\
  pending_ok k' /\
  match r with
  | Ok _ => pending_of k' = delete h (pending_of k)
  | Err e => k' = k \/ errors_Is e TxFailedErr = false /\ pending_of k' = delete h (pending_of k)
  end.
Proof.
  intros Hok. unfold consume_pending. intros (r1 & k1 & [-> Hr1]%runs_readJSON_or & Hr)%runs_bind.
  destruct r1 as [a|e]; [|destruct Hr as [[= -> ->] ->]; naive_solver].
  apply runs_bind in Hr as (r2 & k2 & Hx & Hr). apply runs_cmd in Hx. simpl in Hx.
  destruct r2 as [[]|e]; [|destruct Hr as [[= -> ->] ->], Hx as [_ ->]; naive_solver].
  destruct (Hr1 a eq_refl) as (v & Hv & Ha).
  assert (Hrow : pending_of k !! h = Some a) by (apply (table_lookup _ hashKey); [done|by exists v]).
  destruct (delete_pending k h Hok) as [Hok' Hd]. change (apply_writes _ k) with (apply_write k (HDel (key adapter name) [hashKey h])) in Hx.
  subst k2. destruct (Before at_ (expires a)) eqn:Hlive; destruct Hr as [[= -> ->] ->]; go_bool; naive_solver.
Qed.

(** ** Alone *)
Theorem pending_alone zero : alone ->
  PendingContract hash_of (fun a => run (client adapter) (create_pending a)) (consume_call zero)
    (fun s => pending_ok (keys s)) (fun s => pending_of (keys s)).
Proof.
  intros Halone. split.
  - intros a w Hok. eapply wp_mono; [by apply (wp_run_alone adapter keys cache others alone)|].
    intros r w' Hr%create_pending_runs; [|done]. destruct r as [[]|e]; [naive_solver|by rewrite Hr].
  - intros h at_ w Hok. unfold consume_call. wp_go.
    eapply wp_mono; [apply (wp_watch_alone_err adapter keys cache others alone Halone _ _ _ (fun _ => True)
      (fun a k' => pending_ok k' /\ pending_of (keys (ext w)) !! h = Some a /\ pending_of k' = delete h (pending_of (keys (ext w))))
      (fun k' => pending_ok k' /\ (pending_of k' = pending_of (keys (ext w)) \/ pending_of k' = delete h (pending_of (keys (ext w))))))|].
    + done.
    + by auto.
    + intros l r l' k' _ Hr%consume_pending_runs; [|done]. destruct Hr as (Hrow & Hok' & Hr).
      destruct r as [[]|e]; [by destruct Hrow|]. destruct Hr as [->|[He Hd]]; [by auto|]. split; [by auto|]. by rewrite He.
    + intros [a [[]|e]] w' Hr; apply wp_ret; simpl in *; naive_solver.
Qed.

(** ** Among others *)

(** [Q] happens to what is pending at one instant. *)
Definition pending_changed (Q : gmap string A -> gmap string A -> Prop) (k k' : keyspace) : Prop :=
  exists k1 k2, others k k1 /\ pending_ok k1 /\ pending_ok k2 /\ Q (pending_of k1) (pending_of k2) /\ others k2 k'.

Context (Hkeep : forall k k', others k k' -> pending_ok k -> pending_ok k').

Lemma wp_create_others a w : pending_ok (keys (ext w)) ->
  wp (run (client adapter) (create_pending a)) (fun r w' =>
    is_ok r = true -> pending_changed (fun p p' => p !! hash_of a = None /\ p' = <[hash_of a := a]> p)
      (keys (ext w)) (keys (ext w'))) w.
Proof.
  intros Hok. unfold create_pending, pbind_ok, cmd. cbn [pbind run]. wp_go.
  eapply wp_mono; [by apply client_Do_law|]. intros r w' (k & Ho & Hd & _).
  assert (Hk : pending_ok k) by by eapply Hkeep.
  destruct Hd as [Hd|[[] _]].
  destruct r as [[]|e]; cbn [run]; apply wp_ret; try done. intros _.
  destruct (create_pending_runs a k (Ok tt) (keys (ext w')) Hk) as (Hn & Hok' & Hp).
  { exists (Ok true), (keys (ext w')). by split. }
  exists k, (keys (ext w')). split_and!; try done. by apply others_refl.
Qed.

Lemma consume_transacts h at_ l : transaction others [key adapter name] (consume_pending h at_ l).
Proof.
  unfold consume_pending. apply transaction_bind; [apply reading_readJSON_or, covered_watched; by left|].
  intros [a|e]; [|done]. apply transaction_bind_Done; [apply transaction_exec|].
  intros [[]|e]; [|by eexists]. destruct (negb _); by eexists.
Qed.

(** A run that writes nothing does not succeed. *)
Lemma consume_idle h at_ l k l' r k' : idle others (consume_pending h at_ l) k (l', r) k' -> is_ok r = false.
Proof.
  unfold consume_pending. intros (r1 & k1 & _ & Hi)%idle_bind; [|apply others_refl].
  destruct r1 as [a|e]; [|destruct Hi as [[= -> ->] _]; done].
  destruct Hi as (x & k2 & _ & Hn & _ & Hi). destruct x as [[]|e]; [destruct Hn; by split|].
  simpl in Hi. by destruct Hi as [[= -> ->] _].
Qed.

Lemma wp_consume_others zero h at_ w : pending_ok (keys (ext w)) ->
  wp (consume_call zero h at_) (fun r w' => forall a, r = Ok a ->
    (at_ < expires a)%Z /\ pending_changed (fun p p' => p !! h = Some a /\ p' = delete h p) (keys (ext w)) (keys (ext w'))) w.
Proof.
  intros Hok. unfold consume_call. wp_go. eapply wp_mono; [apply (watch_at_once adapter keys cache others alone)|].
  - intros l. apply consume_transacts.
  - intros l k l' e k' Hr He. unfold consume_pending in Hr.
    apply runs_bind in Hr as (r1 & k1 & [-> _]%runs_readJSON_or & Hr).
    destruct r1 as [a|e1]; [|by destruct Hr as [_ ->]].
    apply runs_bind in Hr as (r2 & k2 & Hx & Hr). apply runs_cmd in Hx. simpl in Hx.
    destruct r2 as [[]|e2]; [|destruct Hx as [_ ->]; by destruct Hr as [_ ->]].
    destruct (negb _); destruct Hr as [[= -> ->] _]. congruence.
  - intros [l r] w' (k & k' & Ho & Heff & Ho'). apply wp_ret. intros a Hr.
    destruct r as [[]|e]; [|done]. simpl in Hr. injection Hr as <-.
    destruct Heff as [[l0 [Hr|Hi]]|[Hn _]]; [|by apply consume_idle in Hi|done].
    assert (Hk : pending_ok k) by by eapply Hkeep.
    apply consume_pending_runs in Hr as (Hrow & Hok' & Hp); [|done]. destruct (Hrow eq_refl) as [Hin Hlive].
    split; [done|]. by exists k, k'.
Qed.
End Shape.

(** * Properties of pending sign-ons in Redis

    The stores keep the contract of single sign-on, and a pending row is used up
    at one instant, whatever other clients do. *)

Section Stores.
Context {S : Type} `{Env} `{JSON Oidc.Challenge} `{JSON Saml.Request} `{JSON GoogleOAuth.Challenge}.
Context (adapter : Adapter S) (keys : S -> keyspace) (cache : S -> gmap string string).
Context (others : keyspace -> keyspace -> Prop) (alone : Prop).
Context `{!RedisLaws (client adapter) keys cache others alone}.

Abbreviation oidc_rows k := (pending_of adapter Oidc.StateHash "oidc-challenges" k).
Abbreviation saml_rows k := (pending_of adapter Saml.StateHash "saml-requests" k).
Abbreviation google_rows k := (pending_of adapter GoogleOAuth.StateHash "google-challenges" k).

(** The rows of the three tables are filed under their hashes, and other clients
    keep them so. *)
Definition others_keep_rows : Prop :=
  (forall k k', others k k' -> pending_ok adapter Oidc.StateHash "oidc-challenges" k ->
     pending_ok adapter Oidc.StateHash "oidc-challenges" k') /\
  (forall k k', others k k' -> pending_ok adapter Saml.StateHash "saml-requests" k ->
     pending_ok adapter Saml.StateHash "saml-requests" k') /\
  (forall k k', others k k' -> pending_ok adapter GoogleOAuth.StateHash "google-challenges" k ->
     pending_ok adapter GoogleOAuth.StateHash "google-challenges" k').

Definition rows_filed (k : keyspace) : Prop :=
  pending_ok adapter Oidc.StateHash "oidc-challenges" k /\ pending_ok adapter Saml.StateHash "saml-requests" k /\
  pending_ok adapter GoogleOAuth.StateHash "google-challenges" k.

(** With no other client, the Redis stores of OpenID Connect and SAML keep the
    contract of single sign-on: a row is created where there is none, and
    consuming it returns the row that was there and deletes it. *)
Theorem redis_sso_backend :
  alone ->
  PendingContract Oidc.StateHash (Oidc.store_CreateChallenge (OIDCStore adapter))
    (Oidc.store_ConsumeChallenge (OIDCStore adapter))
    (fun s => pending_ok adapter Oidc.StateHash "oidc-challenges" (keys s)) (fun s => oidc_rows (keys s)) /\
  PendingContract Saml.StateHash (Saml.store_CreateRequest (SAMLStore adapter))
    (Saml.store_ConsumeRequest (SAMLStore adapter))
    (fun s => pending_ok adapter Saml.StateHash "saml-requests" (keys s)) (fun s => saml_rows (keys s)).
Proof.
  intros Halone. split.
  - exact (pending_alone adapter keys cache others alone Oidc.StateHash Oidc.ExpiresAt "oidc-challenges"
      Oidc.ErrConflict Oidc.ErrNotFound Oidc.ErrInactiveState eq_refl zeroOIDCChallenge Halone).
  - exact (pending_alone adapter keys cache others alone Saml.StateHash Saml.ExpiresAt "saml-requests"
      Saml.ErrConflict Saml.ErrNotFound Saml.ErrInactiveRequest eq_refl zeroSAMLRequest Halone).
Qed.

Lemma used_up {A} `{JSON A} (hash_of : A -> string) (expires : A -> time) name h at_ (w : World S) (r : result A) w' :
  (forall a, r = Ok a -> (at_ < expires a)%Z /\
     pending_changed adapter others hash_of name (fun p p' => p !! h = Some a /\ p' = delete h p) (keys (ext w)) (keys (ext w'))) ->
  forall a, r = Ok a -> (at_ < expires a)%Z /\
    exists k k', others (keys (ext w)) k /\ pending_of adapter hash_of name k !! h = Some a /\
      pending_of adapter hash_of name k' = delete h (pending_of adapter hash_of name k) /\ others k' (keys (ext w')).
Proof.
  intros Hr a E. destruct (Hr a E) as (Hlive & k & k' & Ho & _ & _ & [Hin Hd] & Ho'). split; [done|]. by exists k, k'.
Qed.

(** C17: Among other clients that keep the rows filed, a pending sign-on, of OpenID
    Connect, SAML or Google, is used up at one instant between the call and its
    return: there it was pending, it is gone after, and it had not expired when
    the call was made. Of two calls with one state at most one returns it. *)
Theorem redis_pending_used_up_once h at_ w :
  others_keep_rows -> rows_filed (keys (ext w)) ->
  wp (OIDCStore_ConsumeChallenge adapter h at_) (fun r w' => forall c, r = Ok c -> (at_ < Oidc.ExpiresAt c)%Z /\
    exists k k', others (keys (ext w)) k /\ oidc_rows k !! h = Some c /\ oidc_rows k' = delete h (oidc_rows k) /\
      others k' (keys (ext w'))) w /\
  wp (SAMLStore_ConsumeRequest adapter h at_) (fun r w' => forall c, r = Ok c -> (at_ < Saml.ExpiresAt c)%Z /\
    exists k k', others (keys (ext w)) k /\ saml_rows k !! h = Some c /\ saml_rows k' = delete h (saml_rows k) /\
      others k' (keys (ext w'))) w /\
  wp (GoogleStore_ConsumeChallenge adapter h at_) (fun r w' => forall c, r = Ok c -> (at_ < GoogleOAuth.ExpiresAt c)%Z /\
    exists k k', others (keys (ext w)) k /\ google_rows k !! h = Some c /\ google_rows k' = delete h (google_rows k) /\
      others k' (keys (ext w'))) w.
Proof.
  intros (Hk1 & Hk2 & Hk3) (Ho1 & Ho2 & Ho3). split_and!.
  - eapply wp_mono; [exact (wp_consume_others adapter keys cache others alone Oidc.StateHash Oidc.ExpiresAt "oidc-challenges"
      Oidc.ErrNotFound Oidc.ErrInactiveState eq_refl Hk1 zeroOIDCChallenge h at_ w Ho1)|]. apply used_up.
  - eapply wp_mono; [exact (wp_consume_others adapter keys cache others alone Saml.StateHash Saml.ExpiresAt "saml-requests"
      Saml.ErrNotFound Saml.ErrInactiveRequest eq_refl Hk2 zeroSAMLRequest h at_ w Ho2)|]. apply used_up.
  - eapply wp_mono; [exact (wp_consume_others adapter keys cache others alone GoogleOAuth.StateHash GoogleOAuth.ExpiresAt
      "google-challenges" GoogleOAuth.ErrNotFound GoogleOAuth.ErrInvalidState eq_refl Hk3 zeroChallenge h at_ w Ho3)|]. apply used_up.
Qed.
End Stores.

(** ** Runs *)
Abbreviation oidc_fields_type := (string * string * string * string * string * list string * (bool * string * string * Z * Z))%type.
Definition oidc_fields (c : Oidc.Challenge) : oidc_fields_type :=
  (Oidc.StateHash c, Oidc.ch_ConnectionID c, Oidc.ch_Issuer c, Oidc.ch_ClientID c, Oidc.ch_RedirectURL c, Oidc.ch_Scopes c,
   (Oidc.ch_RequireVerifiedEmail c, Oidc.ch_Nonce c, Oidc.CodeVerifier c, Oidc.CreatedAt c, Oidc.ExpiresAt c)).
Definition oidc_of_fields (x : oidc_fields_type) : Oidc.Challenge :=
  let '(h, i, s, c, u, l, (v, n, k, ca, ea)) := x in Oidc.mkChallenge h i s c u l v n k ca ea.

#[export] Instance demo_oidc_json : JSON Oidc.Challenge :=
  json_of_countable oidc_fields oidc_of_fields (fun c => match c with Oidc.mkChallenge _ _ _ _ _ _ _ _ _ _ _ => eq_refl end).

#[export] Instance demo_saml_json : JSON Saml.Request :=
  json_of_countable
    (fun r => (Saml.StateHash r, Saml.req_ConnectionID r, Saml.ConnectionHash r, Saml.RequestID r, Saml.CreatedAt r, Saml.ExpiresAt r))
    (fun '(h, c, x, i, ca, ea) => Saml.mkRequest h c x i ca ea) (fun r => match r with Saml.mkRequest _ _ _ _ _ _ => eq_refl end).

#[export] Instance demo_google_json : JSON GoogleOAuth.Challenge.
Proof.
  refine (json_of_countable
    (fun c => (GoogleOAuth.StateHash c, GoogleOAuth.ch_Nonce c, GoogleOAuth.CodeVerifier c, GoogleOAuth.ch_SubjectID c,
               GoogleOAuth.CreatedAt c, GoogleOAuth.ExpiresAt c))
    (fun '(h, n, v, l, ca, ea) => GoogleOAuth.mkChallenge h n v l ca ea) _).
  by intros [].
Defined.

(** Another client that takes the request "taken" before the second command. *)
Definition take_theirs (n : nat) (k : keyspace) : keyspace :=
  if (n =? 1)%nat then apply_write k (HDel "{authlier}:saml-requests" [hashKey "taken"]) else k.
Definition taking_adapter : Adapter server := mkAdapter (demo_client true take_theirs) "{authlier}:" None.

Definition saml_row (h : string) : Saml.Request := Saml.mkRequest h "acme" "hash" "id-1" demo_epoch (demo_epoch + Minute)%Z.
Definition saml_server : server :=
  mkServer (srv_keys (ext (snd ((_ <- SAMLStore_CreateRequest quiet_adapter (saml_row "taken") ;;
                                 SAMLStore_CreateRequest quiet_adapter (saml_row "mine")) (demo_world empty_server)))))
    ∅ 0 None false.

Definition saml_world : World server := demo_world saml_server.

Lemma redis_sso_backend_witness :
  PendingContract Saml.StateHash (Saml.store_CreateRequest (SAMLStore quiet_adapter))
    (Saml.store_ConsumeRequest (SAMLStore quiet_adapter))
    (fun s => pending_ok quiet_adapter Saml.StateHash "saml-requests" (srv_keys s))
    (fun s => pending_of quiet_adapter Saml.StateHash "saml-requests" (srv_keys s)) /\
  Saml.RequestID <$> ok_value (fst (SAMLStore_ConsumeRequest quiet_adapter "mine" demo_epoch saml_world)) = Some "id-1".
Proof.
  split; [exact (proj2 (redis_sso_backend quiet_adapter srv_keys srv_cache _ (false = false) eq_refl))|].
  vm_compute. reflexivity.
Defined.

(** Deleting rows keeps the rest filed. *)
Lemma take_theirs_ok {A} `{JSON A} (hash_of : A -> string) name k k' :
  demo_others true take_theirs k k' -> pending_ok taking_adapter hash_of name k -> pending_ok taking_adapter hash_of name k'.
Proof.
  induction 1 as [|k k1 k2 [_ [n ->]] _ IH]; [done|]. intros Hok. apply IH. unfold take_theirs.
  destruct (n =? 1)%nat; [|done]. unfold pending_ok in *. simpl. autorewrite with redis.
  case_decide as E; [|done]. rewrite E. eapply table_ok_subseteq; [|exact Hok]. apply delete_subseteq.
Qed.

Lemma saml_world_filed : rows_filed taking_adapter (srv_keys (ext saml_world)).
Proof.
  split_and!.
  - intros f v Hf. vm_compute in Hf. discriminate Hf.
  - unfold pending_ok. replace (hash_at _ _) with
      (<[hashKey (Saml.StateHash (saml_row "mine")) := json_Marshal (saml_row "mine")]>
        (<[hashKey (Saml.StateHash (saml_row "taken")) := json_Marshal (saml_row "taken")]> (∅ : gmap string string)))
      by (vm_compute; reflexivity).
    by apply table_ok_insert, table_ok_insert.
  - intros f v Hf. vm_compute in Hf. discriminate Hf.
Qed.

(** The request that the other client takes is not returned; the other one is. *)
Lemma redis_pending_used_up_once_witness :
  is_ok (fst (SAMLStore_ConsumeRequest taking_adapter "taken" demo_epoch saml_world)) = false /\
  exists c w', SAMLStore_ConsumeRequest taking_adapter "mine" demo_epoch saml_world = (Ok c, w') /\
    (demo_epoch < Saml.ExpiresAt c)%Z /\ exists k k',
    demo_others true take_theirs saml_server.(srv_keys) k /\
    pending_of taking_adapter Saml.StateHash "saml-requests" k !! "mine" = Some c /\
    pending_of taking_adapter Saml.StateHash "saml-requests" k' =
      delete "mine" (pending_of taking_adapter Saml.StateHash "saml-requests" k) /\
    demo_others true take_theirs k' (srv_keys (ext w')).
Proof.
  split; [vm_compute; reflexivity|].
  destruct (SAMLStore_ConsumeRequest taking_adapter "mine" demo_epoch saml_world) as [[c|e] w'] eqn:E;
    [|exfalso; vm_compute in E; discriminate E].
  exists c, w'. split; [reflexivity|].
  destruct (redis_pending_used_up_once taking_adapter srv_keys srv_cache (demo_others true take_theirs) (true = false)
    "mine" demo_epoch saml_world
    (conj (take_theirs_ok _ _) (conj (take_theirs_ok _ _) (take_theirs_ok _ _))) saml_world_filed) as (_ & Hsaml & _).
  unfold wp in Hsaml. rewrite E in Hsaml. exact (Hsaml c eq_refl).
Defined.
