(* ===== verification/RedisProps.v ===== *)
(** * Properties of the Redis adapter

    Sessions in Redis are the sessions of the abstract machine; among other
    clients each call takes effect at one instant; and two defects. *)
From S2P Require Import Prelude GoText Token SessionToken SessionSpec Redis RedisSpec RedisSessions.
From S2P Require Import RedisSessionsSpec RedisReference.

(** C13: as long as no other client acts between the commands of a call ([alone]),
    the session manager has a backend in the Redis store and cache: every store and
    cache call answers and changes the sessions as the contract of the abstract
    machine says, failures change nothing, and the rows stay filed under their
    hashes and in the sets of their subjects. Among other clients [Extend] does
    not keep the contract: when its transaction is tried again it records the old
    time ([Extend_tried_again_records_the_old_time]). *)
Theorem redis_session_backend {S : Type} `{Env} `{JSON SessionRecord} (adapter : Adapter S)
    (keys : S -> keyspace) (cache : S -> gmap string string) (others : keyspace -> keyspace -> Prop) (alone : Prop)
    `{!RedisLaws (client adapter) keys cache others alone} (c : SessionCache S) (manager : Manager S) :
  alone -> cache_client c = client adapter ->
  store manager = SessionStore adapter -> SessionToken.cache manager = Some (sessionCache c) ->
  SessionBackend manager (redis_wf adapter keys cache c) (redis_view adapter keys cache).
Proof.
  intros Halone Hc Hs Hcache. split.
  - rewrite Hs. by apply (redis_store_contract adapter keys cache others alone Halone c).
  - intros c' Hc'. rewrite Hcache in Hc'. injection Hc' as <-.
    by apply (redis_cache_contract adapter keys cache others alone Halone c Hc).
Qed.

(** C16: among other clients that keep the rows filed and remove none, [Create],
    [Rotate] and [Revoke] change the sessions at one instant between their call
    and their return, with what they checked still true at that instant, or they
    fail and change nothing: no interleaving loses a revocation or stores two
    sessions under one hash. *)
Theorem redis_calls_at_once {S : Type} `{Env} `{JSON SessionRecord} (adapter : Adapter S)
    (keys : S -> keyspace) (cache : S -> gmap string string) (others : keyspace -> keyspace -> Prop) (alone : Prop)
    `{!RedisLaws (client adapter) keys cache others alone} w :
  (forall k k', others k k' -> sessions_ok adapter k -> sessions_ok adapter k') -> sessions_ok adapter (keys (ext w)) ->
  (forall r, wp (SessionStore_Create adapter r) (fun res w' =>
     match res with
     | Ok _ => changed adapter others (fun σ σ' => σ !! TokenHash r = None /\ σ' = <[TokenHash r := r]> σ)
                 (keys (ext w)) (keys (ext w'))
     | Err _ => others (keys (ext w)) (keys (ext w'))
     end) w) /\
  (forall h r at_, wp (SessionStore_Rotate adapter h r at_) (fun res w' =>
     match res with
     | Ok _ => changed adapter others (fun σ σ' => exists x, σ !! h = Some x /\ σ !! TokenHash r = None /\
                 RevokedAt x = None /\ (at_ < ExpiresAt x)%Z /\
                 σ' = <[TokenHash r := r]> (<[h := revoke_record at_ x]> σ)) (keys (ext w)) (keys (ext w'))
     | Err _ => others (keys (ext w)) (keys (ext w'))
     end) w) /\
  (forall h at_, wp (SessionStore_Revoke adapter h at_) (fun res w' =>
     match res with
     | Ok _ => changed adapter others (fun σ σ' => exists x, σ !! h = Some x /\ σ' = <[h := revoke_record at_ x]> σ)
                 (keys (ext w)) (keys (ext w'))
     | Err _ => others (keys (ext w)) (keys (ext w'))
     end) w).
Proof.
  intros Hothers Hok. split_and!; intros.
  - by apply (wp_Create_others adapter others keys cache alone).
  - by apply (wp_Rotate_others adapter others keys cache alone).
  - by apply (wp_Revoke_others adapter others keys cache alone).
Qed.

(** ** Runs *)
Definition keys_of (w : World server) : keyspace := srv_keys (ext w).

Definition demo_cache : SessionCache server := mkSessionCache (client quiet_adapter) "authlier:session:".
Definition redis_demo_manager : Manager server :=
  mkManager server (SessionStore quiet_adapter) (Some (sessionCache demo_cache)) Hour Minute None demo_clock.

Lemma redis_session_backend_witness :
  SessionBackend redis_demo_manager (redis_wf quiet_adapter srv_keys srv_cache demo_cache)
    (redis_view quiet_adapter srv_keys srv_cache) /\
  match Create redis_demo_manager "alice" (demo_world empty_server) with
  | (Ok issued, w) => ID <$> ok_value (fst (Resolve redis_demo_manager (issued_Token issued) w)) = Some (ID (issued_Record issued))
  | _ => False
  end.
Proof.
  split.
  - exact (redis_session_backend quiet_adapter srv_keys srv_cache _ (false = false) demo_cache redis_demo_manager
      eq_refl eq_refl eq_refl eq_refl).
  - vm_compute. reflexivity.
Defined.

(** Another client that stores a session of its own before every second command. *)
Definition their_session : SessionRecord :=
  mkRecord "theirs" "bob" "their-hash" demo_epoch (demo_epoch + Hour)%Z None None.

Definition store_theirs (k : keyspace) : keyspace :=
  let sessions := "{authlier}:sessions" in
  let bob := "{authlier}:sessions:subject:bob" in
  let field := hashKey (TokenHash their_session) in
  match hash_at k sessions !! field with
  | Some _ => k
  | None =>
      put_set bob (set_at k bob ∪ {[field]})
        (put_hash sessions (<[field := json_Marshal their_session]> (hash_at k sessions)) k)
  end.

Definition interruption (n : nat) (k : keyspace) : keyspace := if (n =? 1)%nat then store_theirs k else k.
Definition busy_adapter : Adapter server := mkAdapter (demo_client true interruption) "{authlier}:" None.

Lemma store_theirs_ok k : sessions_ok busy_adapter k -> sessions_ok busy_adapter (store_theirs k).
Proof.
  intros Hok. unfold store_theirs. destruct (_ !! _) as [v|] eqn:Hv; [done|].
  change "{authlier}:sessions" with (key busy_adapter "sessions") in *.
  change "{authlier}:sessions:subject:bob" with (subjectSet busy_adapter (SubjectID their_session)).
  eapply put_session; [done|..].
  - autorewrite with redis. by key_cases.
  - intros s f. autorewrite with redis. case_decide as E.
    + apply subjectSet_inj in E as <-. rewrite elem_of_union, elem_of_singleton. tauto.
    + split; [by left|]. intros [?|[-> _]]; done.
  - intros old Hold. apply (table_None TokenHash hashKey) in Hv; [|apply Hok]. unfold sessions_of in Hold. congruence.
Qed.

Lemma busy_others_ok k k' :
  demo_others true interruption k k' -> sessions_ok busy_adapter k -> sessions_ok busy_adapter k'.
Proof.
  induction 1 as [|k k1 k2 [_ [n ->]] _ IH]; [done|]. intros Hok. apply IH. unfold interruption.
  destruct (n =? 1)%nat; [by apply store_theirs_ok|done].
Qed.

Lemma empty_sessions_ok adapter : sessions_ok (S := server) adapter (mkKeyspace ∅ ∅).
Proof.
  split.
  - intros f v Hf. done.
  - intros s f. split; [intros ?%elem_of_empty; done|]. intros (r & Hr & _). done.
Qed.

(** The busy server, and what its client sees of the keys. *)
Lemma redis_calls_at_once_witness :
  sessions_ok busy_adapter (mkKeyspace ∅ ∅) /\
  wp (SessionStore_Create busy_adapter (mkRecord "s1" "alice" "alice-hash" demo_epoch (demo_epoch + Hour)%Z None None))
    (fun res w' => match res with
       | Ok _ => changed busy_adapter (demo_others true interruption)
                   (fun σ σ' => σ !! "alice-hash" = None /\
                      σ' = <["alice-hash" := mkRecord "s1" "alice" "alice-hash" demo_epoch (demo_epoch + Hour)%Z None None]> σ)
                   (mkKeyspace ∅ ∅) (srv_keys (ext w'))
       | Err _ => demo_others true interruption (mkKeyspace ∅ ∅) (srv_keys (ext w'))
       end) (demo_world empty_server) /\
  fst (SessionStore_Create busy_adapter (mkRecord "s1" "alice" "alice-hash" demo_epoch (demo_epoch + Hour)%Z None None)
         (demo_world empty_server)) = Ok tt.
Proof.
  destruct (redis_calls_at_once busy_adapter srv_keys srv_cache (demo_others true interruption) (true = false)
    (demo_world empty_server) busy_others_ok (empty_sessions_ok busy_adapter)) as [Hcreate _].
  split_and!; [apply empty_sessions_ok|exact (Hcreate _)|vm_compute; reflexivity].
Defined.

(** ** The time of an extension that is tried again

    A session that was extended before, in a server of its own. *)
Definition extended_before : SessionRecord :=
  mkRecord "s1" "alice" "alice-hash" demo_epoch (demo_epoch + Hour)%Z (Some (demo_epoch + Minute)%Z) None.

Definition extended_server : server :=
  mkServer (keys_of (snd (SessionStore_Create quiet_adapter extended_before (demo_world empty_server)))) ∅ 0 None false.

(** [Extend] shares [extendedAt] with the record that its transaction decodes
    into: when another client's write makes it try again, decoding writes the
    time of the session's last extension over [extendedAt], so the session is
    extended with the old time; alone, the same call records the time it was
    given. *)
Theorem Extend_tried_again_records_the_old_time :
  let now := (demo_epoch + 2 * Minute)%Z in
  let later := (demo_epoch + 2 * Hour)%Z in
  ExtendedAt <$> ok_value (fst (SessionStore_Extend quiet_adapter "alice-hash" now later (demo_world extended_server))) =
    Some (Some now) /\
  ExtendedAt <$> ok_value (fst (SessionStore_Extend busy_adapter "alice-hash" now later (demo_world extended_server))) =
    Some (Some (demo_epoch + Minute)%Z) /\
  ExtendedAt <$> sessions_of busy_adapter
    (keys_of (snd (SessionStore_Extend busy_adapter "alice-hash" now later (demo_world extended_server)))) !! "alice-hash" =
    Some (Some (demo_epoch + Minute)%Z).
Proof. split_and!; vm_compute; reflexivity. Qed.
