(* ===== verification/Sql.v ===== *)
(** * SQL

    The part of SQL the storage adapters speak: values, rows and tables with
    their constraints; expressions, conditions and the statements SELECT,
    INSERT, UPDATE and DELETE, as syntax; and what a server does with them. A
    statement acts on all its rows at once, and when the tables it would leave
    behind break a constraint it fails and changes nothing. *)
From S2P Require Import Prelude.

(** ** Values and rows *)
Inductive value : Type :=
| Null
| Text (s : string)
| Bytea (s : string)
| Timestamp (t : Z)
| Boolean (b : bool)
| Bigint (z : Z)
| TextArray (l : list string)
| Jsonb (document : string).
#[export] Instance value_eq_dec : EqDecision value.
Proof. solve_decision. Defined.

Inductive kind : Type := text | bytea | timestamptz | boolean | bigint | bigint_unsigned | text_array | jsonb.

Definition has_kind (k : kind) (v : value) : bool :=
  match k, v with
  | _, Null | text, Text _ | bytea, Bytea _ | timestamptz, Timestamp _ | boolean, Boolean _
  | bigint, Bigint _ | text_array, TextArray _ | jsonb, Jsonb _ => true
  | bigint_unsigned, Bigint z => (0 <=? z)%Z
  | _, _ => false
  end.

(** A row has the columns of its table, in their order. *)
Abbreviation row := (list (string * value)).

(** ** Expressions

    [Arg n] is the parameter [$n], [Col alias c] a column of the row that
    [alias] names in a FROM clause, [Excluded c] that of the row an INSERT
    proposed. *)
Abbreviation from := (list (string * string)).

Inductive expr : Type :=
| Arg (n : nat)
| Col (alias c : string)
| Excluded (c : string)
| Const (v : value)
| CurrentTimestamp
| Coalesce (e1 e2 : expr)
| Plus (e1 e2 : expr)
| Equal (e1 e2 : expr)
| Less (e1 e2 : expr)
| IsNull (e : expr)
| Both (e1 e2 : expr)
| Either (e1 e2 : expr)
| Exists (source : from) (condition : expr)
| Count (source : from) (condition : expr)
| InSelect (e target : expr) (source : from) (condition : expr).

Inductive statement : Type :=
| SELECT (targets : list expr) (source : from) (condition : expr) (order_by_desc : option expr) (for_update : list string)
| INSERT (into : string) (values : list (string * expr)) (on_conflict : option (list string * list (string * expr)))
| UPDATE (name : string) (assignments : list (string * expr)) (condition : expr) (returning : list expr)
| DELETE (name : string) (condition : expr) (returning : list expr)
| UPSERT (into : string) (values : list (string * expr)) (on_duplicate_key_update : list (string * expr)).

Definition col : string -> expr := Col "".
Coercion col : string >-> expr.
Definition cols : list string -> list expr := map col.

Declare Scope sql_scope.
Delimit Scope sql_scope with sql.
Bind Scope sql_scope with expr.
Notation "$ n" := (Arg n) (at level 1, n at level 1, format "$ n").
Notation "e1 = e2" := (Equal e1 e2) : sql_scope.
Notation "e1 < e2" := (Less e1 e2) : sql_scope.
Notation "e1 > e2" := (Less e2 e1) : sql_scope.
Notation "e 'IS_NULL'" := (IsNull e) (at level 65) : sql_scope.
Notation "e1 'AND' e2" := (Both e1 e2) (at level 80, right associativity) : sql_scope.
Notation "e1 'OR' e2" := (Either e1 e2) (at level 85, right associativity) : sql_scope.
Notation "e1 + e2" := (Plus e1 e2) : sql_scope.
Notation TRUE := (Const (Boolean true)).

(** ** Tables *)
Record column : Type := mkColumn {
  column_name : string;
  column_kind : kind;
  not_null : bool;
  column_default : expr;
}.

(** REFERENCES foreign_table(foreign_column) ON DELETE CASCADE *)
Record reference : Type := mkReference {
  local_column : string;
  foreign_table : string;
  foreign_column : string;
}.

(** [unique_keys] are the columns of the primary key and of the UNIQUE
    constraints and indexes. *)
Record table : Type := mkTable {
  table_name : string;
  columns : list column;
  unique_keys : list (list string);
  references : list reference;
}.

(** The tables a table references come before it. *)
Abbreviation schema := (list table).
Abbreviation database := (gmap string (list row)).

Definition rows_in (db : database) (name : string) : list row := default [] (db !! name).

(** Where servers differ: the texts a collation holds for equal are those it
    gives one key, and an UPDATE counts the rows it matched, or only those it
    changed. *)
Record dialect : Type := mkDialect { collate : string -> string; counts_matched : bool }.

Fixpoint field {A} (name : string) (r : list (string * A)) : option A :=
  match r with
  | [] => None
  | (name', v) :: r => if String.eqb name name' then Some v else field name r
  end.

Definition cell (r : row) (c : string) : value := default Null (field c r).

(** ** Evaluation

    Truth has three values, NULL being the third: a comparison with NULL is
    NULL, and a row is selected when its condition is true. *)
Definition both (a b : value) : value :=
  match a, b with
  | Boolean false, _ | _, Boolean false => Boolean false
  | Boolean true, Boolean true => Boolean true
  | _, _ => Null
  end.

Definition either (a b : value) : value :=
  match a, b with
  | Boolean true, _ | _, Boolean true => Boolean true
  | Boolean false, Boolean false => Boolean false
  | _, _ => Null
  end.

Definition is_null (v : value) : bool := match v with Null => true | _ => false end.
Definition holds (v : value) : bool := match v with Boolean b => b | _ => false end.

Lemma holds_both a b : holds (both a b) = holds a && holds b.
Proof. by destruct a as [| | | |[]| | |], b as [| | | |[]| | |]. Qed.
Lemma holds_either a b : holds (either a b) = holds a || holds b.
Proof. by destruct a as [| | | |[]| | |], b as [| | | |[]| | |]. Qed.

Definition nullable {A} (inject : A -> value) (o : option A) : value :=
  match o with Some a => inject a | None => Null end.

Lemma is_null_nullable {A} (inject : A -> value) o :
  (forall a, is_null (inject a) = false) -> is_null (nullable inject o) = match o with Some _ => false | None => true end.
Proof. destruct o; simpl; auto. Qed.

Definition collated (d : dialect) (v : value) : value :=
  match v with Text s => Text (collate d s) | _ => v end.

Definition equal (d : dialect) (a b : value) : value :=
  match a, b with
  | Null, _ | _, Null => Null
  | _, _ => Boolean (bool_decide (collated d a = collated d b))
  end.

Definition less (a b : value) : value :=
  match a, b with
  | Timestamp x, Timestamp y | Bigint x, Bigint y => Boolean (x <? y)%Z
  | _, _ => Null
  end.

Definition plus (a b : value) : value :=
  match a, b with Bigint x, Bigint y => Bigint (x + y) | _, _ => Null end.

(** The rows in scope, by the aliases that name them, innermost first. *)
Abbreviation scope_ := (list (string * row)).

Section Evaluation.
Context (d : dialect) (db : database) (now : time) (args : list value).

Fixpoint product (source : from) (outer : scope_) : list scope_ :=
  match source with
  | [] => [outer]
  | (alias, name) :: source => flat_map (fun r => product source ((alias, r) :: outer)) (rows_in db name)
  end.

Fixpoint eval (excluded : row) (env : scope_) (e : expr) : value :=
  match e with
  | Arg n => default Null (args !! Nat.pred n)
  | Col alias c => match field alias env with Some r => cell r c | None => Null end
  | Excluded c => cell excluded c
  | Const v => v
  | CurrentTimestamp => Timestamp now
  | Coalesce e1 e2 => let v := eval excluded env e1 in if is_null v then eval excluded env e2 else v
  | Plus e1 e2 => plus (eval excluded env e1) (eval excluded env e2)
  | Equal e1 e2 => equal d (eval excluded env e1) (eval excluded env e2)
  | Less e1 e2 => less (eval excluded env e1) (eval excluded env e2)
  | IsNull e => Boolean (is_null (eval excluded env e))
  | Both e1 e2 => both (eval excluded env e1) (eval excluded env e2)
  | Either e1 e2 => either (eval excluded env e1) (eval excluded env e2)
  | Exists source condition =>
      Boolean (existsb (fun env => holds (eval excluded env condition)) (product source env))
  | Count source condition =>
      Bigint (Z.of_nat (length (List.filter (fun env => holds (eval excluded env condition)) (product source env))))
  | InSelect e target source condition =>
      Boolean (existsb (fun env' => holds (eval excluded env' condition) &&
                         holds (equal d (eval excluded env e) (eval excluded env' target))) (product source env))
  end.

Definition evals (excluded : row) (env : scope_) (es : list (string * expr)) : list (string * value) :=
  (fun '(c, e) => (c, eval excluded env e)) <$> es.
End Evaluation.

(** ** Constraints *)
Inductive violation : Type := DatatypeMismatch | NotNullViolation | UniqueViolation | ForeignKeyViolation.
#[export] Instance violation_eq_dec : EqDecision violation.
Proof. solve_decision. Defined.

Definition typed (t : table) (r : row) : bool :=
  bool_decide (r.*1 = column_name <$> columns t) &&
  forallb (fun '(c, v) => has_kind (column_kind c) v) (zip (columns t) r.*2).

Definition complete (t : table) (r : row) : bool :=
  forallb (fun '(c, v) => negb (not_null c && is_null v)) (zip (columns t) r.*2).

Definition key_of (d : dialect) (key : list string) (r : row) : list value := (fun c => collated d (cell r c)) <$> key.

(** Rows with a NULL in the key are distinct. *)
Definition unique_in (d : dialect) (rows : list row) (key : list string) : bool :=
  bool_decide (NoDup (List.filter (fun k => negb (existsb is_null k)) (key_of d key <$> rows))).

Definition referenced (d : dialect) (db : database) (r : row) (k : reference) : bool :=
  is_null (cell r (local_column k)) ||
  existsb (fun r' => holds (equal d (cell r (local_column k)) (cell r' (foreign_column k)))) (rows_in db (foreign_table k)).

Definition every (sch : schema) (db : database) (ok : table -> row -> bool) : bool :=
  forallb (fun t => forallb (ok t) (rows_in db (table_name t))) sch.

Definition violated (d : dialect) (sch : schema) (db : database) : option violation :=
  if negb (every sch db typed) then Some DatatypeMismatch else
  if negb (every sch db complete) then Some NotNullViolation else
  if negb (forallb (fun t => forallb (unique_in d (rows_in db (table_name t))) (unique_keys t)) sch)
  then Some UniqueViolation else
  if negb (every sch db (fun t r => forallb (referenced d db r) (references t))) then Some ForeignKeyViolation
  else None.

(** ** Statements

    The reply of a statement: the rows it returns, each with the value an ORDER
    BY sorts it by, and the number of rows it affected. *)
Abbreviation reply := (list (value * list value) * nat)%type.

Definition assign_row (values : list (string * value)) (r : row) : row :=
  (fun '(c, v) => (c, default v (field c values))) <$> r.

Definition find_table (sch : schema) (name : string) : option table :=
  List.find (fun t => String.eqb (table_name t) name) sch.

(** ON DELETE CASCADE: the rows whose references are gone go as well. *)
Definition cascade (d : dialect) (sch : schema) (db : database) : database :=
  fold_left (fun db t =>
    <[table_name t := List.filter (fun r => forallb (referenced d db r) (references t)) (rows_in db (table_name t))]> db) sch db.

Section Execution.
Context (d : dialect) (sch : schema) (db : database) (now : time) (args : list value).

Definition checked (r : reply) (db' : database) : (violation + reply) * database :=
  match violated d sch db' with
  | Some v => (inl v, db)
  | None => (inr r, db')
  end.

Definition matches (condition : expr) (r : row) : bool := holds (eval d db now args [] [("", r)] condition).

Definition project (targets : list expr) (env : scope_) : list value := eval d db now args [] env <$> targets.

Definition updated (assignments : list (string * expr)) (r : row) : row :=
  assign_row (evals d db now args [] [("", r)] assignments) r.

Definition changes (assignments : list (string * expr)) (r : row) : bool :=
  counts_matched d || negb (bool_decide (updated assignments r = r)).

Definition returned (returning : list expr) (r : row) : value * list value := (Null, project returning [("", r)]).

(** The row an INSERT proposes: a column without a value has its default. *)
Definition build_row (t : table) (values : list (string * expr)) : row :=
  (fun c => (column_name c, eval d db now args [] [] (default (column_default c) (field (column_name c) values)))) <$> columns t.

(** The table with the row, and the table where the rows that have a key of it
    are assigned to. *)
Definition insertion (name : string) (r : row) : database := <[name := rows_in db name ++ [r]]> db.

Definition same_key (key : list string) (r r' : row) : bool :=
  holds (foldr both (Boolean true) ((fun c => equal d (cell r c) (cell r' c)) <$> key)).

Definition merged (name : string) (key : list string) (r : row) (assignments : list (string * expr)) : database :=
  <[name := (fun r' => if same_key key r r' then assign_row (evals d db now args r [("", r')] assignments) r' else r')
            <$> rows_in db name]> db.

(** ON DUPLICATE KEY UPDATE looks for a duplicate along all the keys of the table. *)
Definition execute (s : statement) : (violation + reply) * database :=
  match s with
  | SELECT targets source condition order_by _ =>
      let envs := List.filter (fun env => holds (eval d db now args [] env condition)) (product db source []) in
      (inr ((fun env => (match order_by with Some e => eval d db now args [] env e | None => Null end,
                         project targets env)) <$> envs, length envs), db)
  | INSERT name values on_conflict =>
      match find_table sch name with
      | None => (inl DatatypeMismatch, db)
      | Some t =>
          let r := build_row t values in
          match on_conflict with
          | None => checked ([], 1) (insertion name r)
          | Some (key, assignments) =>
              checked ([], 1) (if existsb (same_key key r) (rows_in db name) then merged name key r assignments else insertion name r)
          end
      end
  | UPDATE name assignments condition returning =>
      let selected := List.filter (matches condition) (rows_in db name) in
      checked (returned returning <$> (updated assignments <$> selected), length (List.filter (changes assignments) selected))
        (<[name := (fun r => if matches condition r then updated assignments r else r) <$> rows_in db name]> db)
  | DELETE name condition returning =>
      let selected := List.filter (matches condition) (rows_in db name) in
      checked (returned returning <$> selected, length selected)
        (cascade d sch (<[name := List.filter (fun r => negb (matches condition r)) (rows_in db name)]> db))
  | UPSERT name values assignments =>
      match find_table sch name with
      | None => (inl DatatypeMismatch, db)
      | Some t =>
          let r := build_row t values in
          checked ([], 1)
            match List.find (fun key => existsb (same_key key r) (rows_in db name)) (unique_keys t) with
            | Some key => merged name key r assignments
            | None => insertion name r
            end
      end
  end.
End Execution.

(** ** Databases that satisfy their schema *)
Definition db_ok (d : dialect) (sch : schema) (db : database) : Prop := violated d sch db = None.

Definition every_row (sch : schema) (db : database) (ok : table -> row -> bool) : Prop :=
  forall t r, t ∈ sch -> r ∈ rows_in db (table_name t) -> ok t r = true.

Lemma every_true sch db ok : every sch db ok = true <-> every_row sch db ok.
Proof.
  unfold every, every_row. rewrite forallb_forall. split.
  - intros Hall t r Ht Hr. specialize (Hall t (proj1 (list_elem_of_In _ _) Ht)).
    rewrite forallb_forall in Hall. by apply Hall, list_elem_of_In.
  - intros Hall t Ht%list_elem_of_In. apply forallb_forall. intros r Hr%list_elem_of_In. by apply Hall.
Qed.

Lemma db_ok_spec d sch db :
  db_ok d sch db <->
    every_row sch db typed /\ every_row sch db complete /\
    (forall t key, t ∈ sch -> key ∈ unique_keys t -> unique_in d (rows_in db (table_name t)) key = true) /\
    every_row sch db (fun t r => forallb (referenced d db r) (references t)).
Proof.
  unfold db_ok, violated.
  assert (Huniq : forallb (fun t => forallb (unique_in d (rows_in db (table_name t))) (unique_keys t)) sch = true <->
    forall t key, t ∈ sch -> key ∈ unique_keys t -> unique_in d (rows_in db (table_name t)) key = true).
  { rewrite forallb_forall. setoid_rewrite forallb_forall. split.
    - intros Hall t key Ht%list_elem_of_In Hkey%list_elem_of_In. eauto.
    - intros Hall t Ht%list_elem_of_In key Hkey%list_elem_of_In. eauto. }
  rewrite <- Huniq, <- !every_true. clear Huniq.
  repeat (match goal with |- context [negb ?b] => destruct b; simpl end); intuition discriminate.
Qed.

Lemma checked_inr d sch db r db' r' db1 :
  checked d sch db r db' = (inr r', db1) -> r' = r /\ db1 = db' /\ db_ok d sch db'.
Proof. unfold checked, db_ok. destruct (violated d sch db') eqn:E; naive_solver. Qed.

Lemma checked_inl d sch db r db' v db1 : checked d sch db r db' = (inl v, db1) -> db1 = db /\ violated d sch db' = Some v.
Proof. unfold checked. destruct (violated d sch db'); naive_solver. Qed.

Lemma checked_ok d sch db r db' : db_ok d sch db -> db_ok d sch (checked d sch db r db').2.
Proof. unfold checked, db_ok. by destruct (violated d sch db') eqn:E. Qed.

(** No statement leaves a database that breaks its constraints, and one that
    fails leaves it as it was. *)
Lemma execute_ok d sch db now args s : db_ok d sch db -> db_ok d sch (execute d sch db now args s).2.
Proof.
  intros Hok. destruct s as [|name values [[key assignments]|]| | |]; simpl; try by apply checked_ok.
  - done.
  - destruct (find_table sch name); [|done]. by apply checked_ok.
  - destruct (find_table sch name); [|done]. by apply checked_ok.
  - destruct (find_table sch into); [|done]. by apply checked_ok.
Qed.

Lemma execute_inl d sch db now args s v db' : execute d sch db now args s = (inl v, db') -> db' = db.
Proof.
  destruct s as [|name values [[key assignments]|]| | |]; simpl; try (by intros [? _]%checked_inl).
  - done.
  - destruct (find_table sch name); [|by intros [= _ ->]]. by intros [? _]%checked_inl.
  - destruct (find_table sch name); [|by intros [= _ ->]]. by intros [? _]%checked_inl.
  - destruct (find_table sch into); [|by intros [= _ ->]]. by intros [? _]%checked_inl.
Qed.

Lemma rows_in_insert db name rows : rows_in (<[name := rows]> db) name = rows.
Proof. unfold rows_in. by rewrite lookup_insert_eq. Qed.
Lemma rows_in_insert_ne db name rows n : name <> n -> rows_in (<[name := rows]> db) n = rows_in db n.
Proof. intros Hn. unfold rows_in. by rewrite lookup_insert_ne. Qed.

(** ** Tables as lists of records

    An entity is a type of records whose rows a table holds. *)
Class Entity (A : Type) : Type := {
  entity : table;
  to_row : A -> row;
  of_row : row -> option A;
  of_to_row a : of_row (to_row a) = Some a;
  to_of_row r : typed entity r = true -> complete entity r = true -> exists a, r = to_row a;
}.
Arguments entity A {_}.

Definition rows_of (A : Type) `{Entity A} (db : database) : list A := omap of_row (rows_in db (table_name (entity A))).

(** What a typed and complete row holds, column by column. *)
Definition fits (c : column) (x : string * value) : Prop :=
  x.1 = column_name c /\ has_kind (column_kind c) x.2 = true /\ (not_null c = true -> is_null x.2 = false).

Lemma typed_fits t r : typed t r = true -> complete t r = true -> Forall2 fits (columns t) r.
Proof.
  unfold typed, complete. intros Ht Hc. go_bool. revert r H H0 Hc.
  induction (columns t) as [|c cs IH]; intros [|[n v] r]; try done. csimpl. intros [= -> Hn]. simpl.
  intros [Hk Hks]%andb_true_iff [Hv Hvs]%andb_true_iff. constructor; [|by apply IH].
  split_and!; [done|done|]. simpl. intros Hnn. rewrite Hnn in Hv. by destruct (is_null v).
Qed.

(** Take a row apart along its columns. *)
Ltac row_cells Hfits :=
  simpl in Hfits;
  repeat match type of Hfits with
  | Forall2 fits (_ :: _) _ =>
      let v := fresh "v" in let Hk := fresh "Hk" in let Hn := fresh "Hn" in let Hnull := fresh "Hnull" in
      apply Forall2_cons_inv_l in Hfits as ([? v] & ? & (Hk & Hn & Hnull) & Hfits & ->);
      cbn in Hk, Hn, Hnull; subst;
      destruct v; try discriminate Hn; try discriminate (Hnull eq_refl); clear Hn Hnull
  end;
  apply Forall2_nil_inv_l in Hfits as ->.

Lemma omap_to_row {A} `{Entity A} (l : list A) : omap of_row (to_row <$> l) = l.
Proof. induction l as [|a l IH]; csimpl; [done|]. rewrite of_to_row. congruence. Qed.

Lemma rows_typed (A : Type) `{Entity A} d sch db :
  entity A ∈ sch -> db_ok d sch db -> rows_in db (table_name (entity A)) = to_row <$> rows_of A db.
Proof.
  intros Hin (Htyped & Hcomplete & _)%db_ok_spec. unfold rows_of.
  assert (Hall : forall r, r ∈ rows_in db (table_name (entity A)) -> exists a, r = to_row a).
  { intros r Hr. apply to_of_row; [exact (Htyped _ _ Hin Hr)|exact (Hcomplete _ _ Hin Hr)]. }
  clear Htyped Hcomplete. induction (rows_in db _) as [|r rows IH]; [done|]. csimpl.
  destruct (Hall r) as [a ->]; [set_solver|]. rewrite of_to_row. csimpl. f_equal. apply IH. set_solver.
Qed.

Lemma map_filter_comm {A B} (f : A -> B) (p : B -> bool) (q : A -> bool) l :
  (forall a, p (f a) = q a) -> List.filter p (f <$> l) = f <$> List.filter q l.
Proof. intros Hp. induction l as [|a l IH]; [done|]. csimpl. rewrite Hp. destruct (q a); csimpl; congruence. Qed.

Lemma filter_ext_all {A} (p q : A -> bool) l : (forall a, p a = q a) -> List.filter p l = List.filter q l.
Proof. intros Hp. induction l as [|a l IH]; [done|]. simpl. rewrite Hp, IH. done. Qed.

Lemma filter_none {A} (p : A -> bool) l : (forall a, a ∈ l -> p a = false) -> List.filter p l = [].
Proof. induction l as [|a l IH]; [done|]. intros Hp. simpl. rewrite Hp by set_solver. apply IH. set_solver. Qed.

Lemma elem_of_List_filter {A} (p : A -> bool) l a : a ∈ List.filter p l <-> a ∈ l /\ p a = true.
Proof. by rewrite !list_elem_of_In, filter_In. Qed.

(** *** Each statement, on the records *)
Section Statements.
Context (d : dialect) (sch : schema) (db : database) (now : time) (args : list value).
Context (A : Type) `{Entity A} (Hin : entity A ∈ sch) (Hok : db_ok d sch db).
Context (name : string) (Hname : name = table_name (entity A)).

Definition others_same (db' : database) : Prop := forall n, n <> name -> rows_in db' n = rows_in db n.

Lemma rows_written (rows : list A) db' : rows_in db' name = to_row <$> rows -> rows_of A db' = rows.
Proof. intros Hr. unfold rows_of. rewrite <- Hname, Hr. apply omap_to_row. Qed.

Lemma table_rows : rows_in db name = to_row <$> rows_of A db.
Proof. rewrite Hname. by eapply rows_typed. Qed.

Lemma execute_UPDATE assignments condition returning r db' (p : A -> bool) (f : A -> A) :
  execute d sch db now args (UPDATE name assignments condition returning) = (inr r, db') ->
  (forall a, matches d db now args condition (to_row a) = p a) ->
  (forall a, p a = true -> updated d db now args assignments (to_row a) = to_row (f a)) ->
  rows_of A db' = (fun a => if p a then f a else a) <$> rows_of A db /\
  r.1 = (fun a => returned d db now args returning (to_row (f a))) <$> List.filter p (rows_of A db) /\
  (counts_matched d = true -> r.2 = length (List.filter p (rows_of A db))) /\
  db_ok d sch db' /\ others_same db'.
Proof.
  simpl. rewrite table_rows. intros (-> & -> & Hok')%checked_inr Hp Hf. simpl.
  rewrite (map_filter_comm to_row _ p) by done.
  split_and!; try done.
  - apply rows_written. rewrite rows_in_insert, <- !list_fmap_compose. apply list_fmap_ext. intros _ a _. simpl.
    rewrite Hp. destruct (p a) eqn:E; [by apply Hf|done].
  - rewrite <- !list_fmap_compose. apply list_fmap_ext. intros i a Hi. simpl. f_equal. apply Hf.
    apply list_elem_of_lookup_2, elem_of_List_filter in Hi. tauto.
  - intros Hd. transitivity (length (to_row <$> List.filter p (rows_of A db))); [|by rewrite length_fmap].
    f_equal. unfold changes. rewrite Hd. simpl. generalize (to_row <$> List.filter p (rows_of A db)).
    clear. intros l. induction l; simpl; congruence.
  - intros n Hn. by apply rows_in_insert_ne.
Qed.

Lemma execute_INSERT values r db' (a : A) :
  execute d sch db now args (INSERT name values None) = (inr r, db') ->
  find_table sch name = Some (entity A) ->
  build_row d db now args (entity A) values = to_row a ->
  rows_of A db' = rows_of A db ++ [a] /\ r.1 = [] /\ r.2 = 1 /\ db_ok d sch db' /\ others_same db'.
Proof.
  simpl. intros He Hf Ha. unfold insertion in He; rewrite Hf, Ha, table_rows in He. apply checked_inr in He as (-> & -> & Hok').
  split_and!; try done.
  - apply rows_written. by rewrite rows_in_insert, fmap_app.
  - intros n Hn. by apply rows_in_insert_ne.
Qed.

(** The row an INSERT proposes takes the place of those with its key, as far as
    the assignments say. *)
Lemma execute_upsert values key assignments r db' (a : A) (same : A -> bool) (f : A -> A) :
  execute d sch db now args (INSERT name values (Some (key, assignments))) = (inr r, db') ->
  find_table sch name = Some (entity A) ->
  build_row d db now args (entity A) values = to_row a ->
  (forall b, holds (foldr both (Boolean true) ((fun c => equal d (cell (to_row a) c) (cell (to_row b) c)) <$> key)) = same b) ->
  (forall b, same b = true -> assign_row (evals d db now args (to_row a) [("", to_row b)] assignments) (to_row b) = to_row (f b)) ->
  rows_of A db' = (if existsb same (rows_of A db) then (fun b => if same b then f b else b) <$> rows_of A db
                   else rows_of A db ++ [a]) /\
  db_ok d sch db' /\ others_same db'.
Proof.
  simpl. intros He Hf Ha Hsame Hassign. rewrite Hf, Ha in He. unfold merged, insertion, same_key in He. rewrite table_rows in He.
  assert (Hex : existsb (fun r' => holds (foldr both (Boolean true) ((fun c => equal d (cell (to_row a) c) (cell r' c)) <$> key)))
    (to_row <$> rows_of A db) = existsb same (rows_of A db)).
  { clear He. induction (rows_of A db) as [|b l IH]; [done|]. csimpl. by rewrite Hsame, IH. }
  rewrite Hex in He. destruct (existsb same (rows_of A db)); apply checked_inr in He as (-> & -> & Hok').
  - split_and!; [|done|intros n Hn; by apply rows_in_insert_ne].
    apply rows_written. rewrite rows_in_insert, <- !list_fmap_compose. apply list_fmap_ext. intros _ b _. simpl.
    rewrite Hsame. destruct (same b) eqn:E; [by apply Hassign|done].
  - split_and!; [|done|intros n Hn; by apply rows_in_insert_ne].
    apply rows_written. by rewrite rows_in_insert, fmap_app.
Qed.

Lemma execute_SELECT targets alias condition order_by locks r db' (p : A -> bool) :
  execute d sch db now args (SELECT targets [(alias, name)] condition order_by locks) = (inr r, db') ->
  (forall a, holds (eval d db now args [] [(alias, to_row a)] condition) = p a) ->
  db' = db /\
  r.1 = (fun a => (match order_by with Some e => eval d db now args [] [(alias, to_row a)] e | None => Null end,
                   project d db now args targets [(alias, to_row a)])) <$> List.filter p (rows_of A db).
Proof.
  simpl. rewrite table_rows. intros [= <- <-] Hp. split; [done|]. simpl.
  assert (Hflat : flat_map (fun r => [[(alias, r)]]) (to_row <$> rows_of A db) = (fun a => [(alias, to_row a)]) <$> rows_of A db).
  { induction (rows_of A db) as [|a l IH]; [done|]. csimpl. by rewrite IH. }
  rewrite Hflat, (map_filter_comm _ _ p) by done. by rewrite <- list_fmap_compose.
Qed.

Lemma eval_Exists excluded env alias condition (p : A -> bool) :
  (forall a, holds (eval d db now args excluded ((alias, to_row a) :: env) condition) = p a) ->
  eval d db now args excluded env (Exists [(alias, name)] condition) = Boolean (existsb p (rows_of A db)).
Proof.
  intros Hp. simpl. rewrite table_rows. f_equal. induction (rows_of A db) as [|a l IH]; [done|]. csimpl.
  by rewrite Hp, IH.
Qed.

Lemma eval_Count excluded env alias condition (p : A -> bool) :
  (forall a, holds (eval d db now args excluded ((alias, to_row a) :: env) condition) = p a) ->
  eval d db now args excluded env (Count [(alias, name)] condition) = Bigint (Z.of_nat (length (List.filter p (rows_of A db)))).
Proof.
  intros Hp. simpl. rewrite table_rows. do 2 f_equal. induction (rows_of A db) as [|a l IH]; [done|]. csimpl.
  rewrite Hp. destruct (p a); simpl; by rewrite IH.
Qed.

Lemma eval_InSelect excluded env alias e target condition (p : A -> bool) (q : A -> bool) :
  (forall a, holds (eval d db now args excluded ((alias, to_row a) :: env) condition) = p a) ->
  (forall a, holds (equal d (eval d db now args excluded env e)
                      (eval d db now args excluded ((alias, to_row a) :: env) target)) = q a) ->
  eval d db now args excluded env (InSelect e target [(alias, name)] condition) =
    Boolean (existsb (fun a => p a && q a) (rows_of A db)).
Proof.
  intros Hp Hq. simpl. rewrite table_rows. f_equal. induction (rows_of A db) as [|a l IH]; [done|]. csimpl.
  by rewrite Hp, Hq, IH.
Qed.

(** No table refers to this one. *)
Definition unreferenced (sch : schema) (name : string) : bool :=
  forallb (fun t => forallb (fun k => negb (String.eqb (foreign_table k) name)) (references t)) sch.

Lemma cascade_same db1 : unreferenced sch name = true ->
  db_ok d sch db -> (forall n, n <> name -> rows_in db1 n = rows_in db n) ->
  (forall r, r ∈ rows_in db1 name -> r ∈ rows_in db name) ->
  forall n, rows_in (cascade d sch db1) n = rows_in db1 n.
Proof.
  intros Hun (_ & _ & _ & Href)%db_ok_spec Hother Hsub. unfold cascade.
  assert (Hsuff : forall l db2, (forall t, t ∈ l -> t ∈ sch) -> (forall n, rows_in db2 n = rows_in db1 n) ->
    forall n, rows_in (fold_left (fun db t =>
      <[table_name t := List.filter (fun r => forallb (referenced d db r) (references t)) (rows_in db (table_name t))]> db) l db2) n
      = rows_in db1 n).
  { induction l as [|t l IH]; intros db2 Hl H2 n; [apply H2|]. simpl. apply IH; [set_solver|]. intros m.
    destruct (decide (table_name t = m)) as [<-|]; [|by rewrite rows_in_insert_ne].
    rewrite rows_in_insert, H2. assert (Ht : t ∈ sch) by set_solver.
    enough (Hall : forall r, r ∈ rows_in db1 (table_name t) -> forallb (referenced d db2 r) (references t) = true).
    { clear -Hall. induction (rows_in db1 (table_name t)) as [|r rows IHr]; [done|]. simpl.
      rewrite Hall by set_solver. f_equal. apply IHr. intros r' Hr'. apply Hall. set_solver. }
    intros r Hr. assert (Hr' : r ∈ rows_in db (table_name t)).
    { destruct (decide (table_name t = name)) as [E|]; [rewrite E in *; by apply Hsub|by rewrite <- Hother]. }
    specialize (Href t r Ht Hr'). rewrite forallb_forall in Href |- *. intros k Hk.
    specialize (Href k Hk). unfold referenced in *. rewrite H2, Hother; [done|].
    unfold unreferenced in Hun. rewrite forallb_forall in Hun.
    specialize (Hun t (proj1 (list_elem_of_In _ _) Ht)). rewrite forallb_forall in Hun. specialize (Hun k Hk).
    by go_bool. }
  apply Hsuff; done.
Qed.

Lemma execute_DELETE condition returning r db' (p : A -> bool) :
  execute d sch db now args (DELETE name condition returning) = (inr r, db') ->
  unreferenced sch name = true ->
  (forall a, matches d db now args condition (to_row a) = p a) ->
  rows_of A db' = List.filter (fun a => negb (p a)) (rows_of A db) /\
  r.1 = (fun a => returned d db now args returning (to_row a)) <$> List.filter p (rows_of A db) /\
  r.2 = length (List.filter p (rows_of A db)) /\
  db_ok d sch db' /\ others_same db'.
Proof.
  simpl. rewrite table_rows. intros (-> & -> & Hok')%checked_inr Hun Hp. simpl.
  rewrite (map_filter_comm to_row (matches d db now args condition) p) by done.
  rewrite (map_filter_comm to_row (fun r => negb (matches d db now args condition r)) (fun a => negb (p a)))
    by (intros; by rewrite Hp).
  assert (Hcascade : forall n, rows_in (cascade d sch (<[name := to_row <$> List.filter (fun a => negb (p a)) (rows_of A db)]> db)) n
    = rows_in (<[name := to_row <$> List.filter (fun a => negb (p a)) (rows_of A db)]> db) n).
  { apply cascade_same; [done|done|intros n Hn; by apply rows_in_insert_ne|].
    rewrite rows_in_insert, table_rows. intros r (a & -> & Ha)%list_elem_of_fmap.
    apply elem_of_List_filter in Ha as [Ha _]. by apply list_elem_of_fmap_2. }
  rewrite (map_filter_comm to_row (fun r => negb (matches d db now args condition r)) (fun a => negb (p a))) in Hok'
    by (intros; by rewrite Hp).
  split_and!; try done.
  - apply rows_written. by rewrite Hcascade, rows_in_insert.
  - by rewrite <- list_fmap_compose.
  - by rewrite length_fmap.
  - intros n Hn. rewrite Hcascade. by apply rows_in_insert_ne.
Qed.
End Statements.

(** A join of two tables. *)
Section Join.
Context (d : dialect) (sch : schema) (db : database) (now : time) (args : list value).
Context (A B : Type) `{Entity A} `{Entity B} (HA : entity A ∈ sch) (HB : entity B ∈ sch) (Hok : db_ok d sch db).
Context (nameA nameB : string) (HnameA : nameA = table_name (entity A)) (HnameB : nameB = table_name (entity B)).

Lemma execute_join targets aliasA aliasB condition order_by locks r db' (p : A -> B -> bool) :
  execute d sch db now args (SELECT targets [(aliasA, nameA); (aliasB, nameB)] condition order_by locks) = (inr r, db') ->
  (forall a b, holds (eval d db now args [] [(aliasB, to_row b); (aliasA, to_row a)] condition) = p a b) ->
  db' = db /\
  forall x, x ∈ r.1.*2 <-> exists a b, a ∈ rows_of A db /\ b ∈ rows_of B db /\ p a b = true /\
    x = project d db now args targets [(aliasB, to_row b); (aliasA, to_row a)].
Proof.
  simpl. rewrite (table_rows d sch db A HA Hok nameA HnameA), (table_rows d sch db B HB Hok nameB HnameB).
  intros [= <- <-] Hp. split; [done|]. simpl. intros x.
  assert (Hin : forall env, env ∈ flat_map (fun r => flat_map (fun r0 => [[(aliasB, r0); (aliasA, r)]]) (to_row <$> rows_of B db))
      (to_row <$> rows_of A db) <->
    exists a b, a ∈ rows_of A db /\ b ∈ rows_of B db /\ env = [(aliasB, to_row b); (aliasA, to_row a)]).
  { intros env. rewrite list_elem_of_In, in_flat_map. setoid_rewrite in_flat_map.
    setoid_rewrite <- list_elem_of_In. setoid_rewrite list_elem_of_fmap. split.
    - intros (? & (a & -> & Ha) & ? & (b & -> & Hb) & Henv%list_elem_of_singleton). eauto 8.
    - intros (a & b & Ha & Hb & ->). eexists. split; [by exists a|]. eexists. split; [by exists b|]. set_solver. }
  rewrite <- list_fmap_compose, list_elem_of_fmap. split.
  - intros (env & -> & [(a & b & Ha & Hb & ->)%Hin Hc]%elem_of_List_filter). simpl. rewrite Hp in Hc. eauto 8.
  - intros (a & b & Ha & Hb & Hpab & ->). eexists. split; [|apply elem_of_List_filter; split; [apply Hin; eauto 8|]]; [done|].
    by rewrite Hp.
Qed.
End Join.

(** *** Records by a key *)
Section Keys.
Context {A K : Type} `{Countable K} (key : A -> K).

Definition by_key (rows : list A) : gmap K A := list_to_map ((fun a => (key a, a)) <$> rows).

Lemma fst_keyed (rows : list A) : ((fun a => (key a, a)) <$> rows).*1 = key <$> rows.
Proof. by rewrite <- list_fmap_compose. Qed.

Lemma by_key_Some rows k a : NoDup (key <$> rows) -> by_key rows !! k = Some a <-> a ∈ rows /\ key a = k.
Proof.
  intros Hnodup. unfold by_key. rewrite <- elem_of_list_to_map by by rewrite fst_keyed.
  rewrite list_elem_of_fmap. naive_solver.
Qed.

Lemma by_key_None rows k : by_key rows !! k = None <-> forall a, a ∈ rows -> key a <> k.
Proof.
  unfold by_key. rewrite <- not_elem_of_list_to_map, fst_keyed, list_elem_of_fmap. naive_solver.
Qed.

Lemma by_key_app rows a : NoDup (key <$> rows ++ [a]) ->
  by_key rows !! key a = None /\ by_key (rows ++ [a]) = <[key a := a]> (by_key rows).
Proof.
  rewrite fmap_app. intros Hnodup. assert (Hrows : NoDup (key <$> rows)) by (apply list.NoDup_app in Hnodup; tauto).
  assert (Hfresh : forall b, b ∈ rows -> key b <> key a).
  { apply list.NoDup_app in Hnodup as (_ & Hd & _). intros b Hb E. apply (Hd (key b)); [by apply list_elem_of_fmap_2|].
    csimpl. rewrite E. set_solver. }
  split; [by apply by_key_None|]. apply map_eq. intros k. apply option_eq. intros b.
  rewrite by_key_Some by by rewrite fmap_app. destruct (decide (key a = k)) as [<-|].
  - rewrite lookup_insert_eq, elem_of_app, list_elem_of_singleton. split.
    + intros [[Hb|Hb] E]; [by apply Hfresh in Hb|by subst].
    + intros [= ->]. auto.
  - rewrite lookup_insert_ne, by_key_Some by done. rewrite elem_of_app, list_elem_of_singleton. naive_solver.
Qed.

Lemma by_key_fmap (f : A -> A) rows : (forall a, key (f a) = key a) -> by_key (f <$> rows) = f <$> by_key rows.
Proof.
  intros Hf. unfold by_key. rewrite <- list_to_map_fmap, <- !list_fmap_compose. f_equal.
  apply list_fmap_ext. intros i a _. simpl. by rewrite Hf.
Qed.

Lemma key_inj rows a b : NoDup (key <$> rows) -> a ∈ rows -> b ∈ rows -> key a = key b -> a = b.
Proof.
  intros Hnodup Ha Hb E. assert (H1 : by_key rows !! key b = Some a) by by apply by_key_Some.
  assert (H2 : by_key rows !! key b = Some b) by by apply by_key_Some. congruence.
Qed.

(** An update of the record at one key. *)
Lemma by_key_update (p : A -> bool) (f : A -> A) rows k a :
  NoDup (key <$> rows) -> (forall b, key (f b) = key b) -> (forall b, p b = true -> key b = k) ->
  by_key rows !! k = Some a -> p a = true ->
  by_key ((fun b => if p b then f b else b) <$> rows) = <[k := f a]> (by_key rows).
Proof.
  intros Hnodup Hf Hp Ha Hpa. rewrite by_key_fmap by (intros b; destruct (p b); auto).
  apply map_eq. intros j. rewrite lookup_fmap. destruct (decide (k = j)) as [<-|].
  - rewrite Ha, lookup_insert_eq. simpl. by rewrite Hpa.
  - rewrite lookup_insert_ne by done. destruct (by_key rows !! j) as [b|] eqn:E; [|done]. simpl.
    apply by_key_Some in E as [_ <-]; [|done]. destruct (p b) eqn:Hpb; [|done]. by apply Hp in Hpb.
Qed.

Lemma update_none (p : A -> bool) (f : A -> A) rows :
  List.filter p rows = [] -> (fun b => if p b then f b else b) <$> rows = rows.
Proof.
  induction rows as [|a rows IH]; [done|]. csimpl. destruct (p a) eqn:E; [done|]. intros Hn. f_equal. by apply IH.
Qed.

(** A row takes the place of the one with its key, or comes after the others. *)
Lemma by_key_upsert (same : A -> bool) (f : A -> A) rows a : NoDup (key <$> rows) ->
  (forall b, same b = bool_decide (key b = key a)) -> (forall b, same b = true -> f b = a) ->
  by_key (if existsb same rows then (fun b => if same b then f b else b) <$> rows else rows ++ [a]) =
    <[key a := a]> (by_key rows).
Proof.
  intros Hnd Hsame Hf. assert (Hkey : forall b, same b = true -> key b = key a) by (intros b Hb; rewrite Hsame in Hb; by go_bool).
  destruct (existsb same rows) eqn:E.
  - apply existsb_exists in E as (b & Hb%list_elem_of_In & Hsb). set (g := fun c => if same c then a else c).
    assert (Hg : (fun c => if same c then f c else c) <$> rows = (fun c => if same c then g c else c) <$> rows).
    { apply list_fmap_ext. intros _ c _. simpl. unfold g. destruct (same c) eqn:Ec; [by apply Hf|done]. }
    rewrite Hg. rewrite (by_key_update same g rows (key a) b Hnd).
    + unfold g. by rewrite Hsb.
    + intros c. unfold g. destruct (same c) eqn:Ec; [|done]. symmetry. by apply Hkey.
    + exact Hkey.
    + apply by_key_Some; [done|]. split; [done|]. by apply Hkey.
    + done.
  - assert (Hno : forall b, b ∈ rows -> key b <> key a).
    { intros b Hb Hk. assert (Hex : existsb same rows = true); [|congruence]. apply existsb_exists. exists b.
      split; [by apply list_elem_of_In|]. rewrite Hsame. by apply bool_decide_eq_true. }
    apply by_key_app. rewrite fmap_app. apply list.NoDup_app. split_and!; [done| |apply NoDup_singleton].
    intros k (b & -> & Hb)%list_elem_of_fmap. csimpl. rewrite list_elem_of_singleton. by apply Hno.
Qed.

Lemma by_key_delete (p : A -> bool) rows k :
  NoDup (key <$> rows) -> (forall b, b ∈ rows -> p b = bool_decide (key b = k)) ->
  by_key (List.filter (fun b => negb (p b)) rows) = delete k (by_key rows).
Proof.
  intros Hnodup Hp. apply map_eq. intros j. apply option_eq. intros b.
  assert (Hsub : NoDup (key <$> List.filter (fun b => negb (p b)) rows)).
  { clear -Hnodup. induction rows as [|a rows IH]; [done|]. csimpl in *. apply list.NoDup_cons in Hnodup as [Ha Hn].
    destruct (negb (p a)); csimpl; [|by apply IH]. apply list.NoDup_cons. split; [|by apply IH].
    contradict Ha. apply list_elem_of_fmap in Ha as (b & -> & [? _]%elem_of_List_filter). by apply list_elem_of_fmap_2. }
  rewrite by_key_Some, elem_of_List_filter by done. destruct (decide (k = j)) as [<-|].
  - rewrite lookup_delete_eq. split; [|done]. intros [[Hb Hn] <-]. rewrite Hp in Hn by done.
    by rewrite bool_decide_eq_true_2 in Hn.
  - rewrite lookup_delete_ne, by_key_Some by done. split; [tauto|]. intros [Hb <-]. split_and!; try done.
    rewrite Hp by done. by rewrite bool_decide_eq_false_2.
Qed.

(** A selection by the key finds one record or none. *)
Lemma filter_by_key (p : A -> bool) rows k : NoDup (key <$> rows) -> (forall b, p b = true -> key b = k) ->
  List.filter p rows = match by_key rows !! k with Some a => if p a then [a] else [] | None => [] end.
Proof.
  intros Hnodup Hp. induction rows as [|a rows IH]; [done|]. csimpl in *. apply list.NoDup_cons in Hnodup as [Ha Hn].
  unfold by_key in *. csimpl. destruct (decide (key a = k)) as [<-|Hk].
  - rewrite lookup_insert_eq.
    assert (Hnone : List.filter p rows = []).
    { clear -Ha Hp. induction rows as [|b rows IH]; [done|]. csimpl in *. destruct (p b) eqn:E.
      - exfalso. apply Ha. rewrite (Hp b E). set_solver.
      - apply IH. set_solver. }
    rewrite Hnone. by destruct (p a).
  - rewrite lookup_insert_ne by done. destruct (p a) eqn:E; [by apply Hp in E|]. by apply IH.
Qed.

Lemma existsb_by_key (p : A -> bool) rows k : NoDup (key <$> rows) -> (forall b, p b = bool_decide (key b = k)) ->
  existsb p rows = bool_decide (is_Some (by_key rows !! k)).
Proof.
  intros Hnodup Hp. apply eq_true_iff_eq. rewrite existsb_exists, bool_decide_eq_true. split.
  - intros (a & Ha%list_elem_of_In & Hpa). rewrite Hp in Hpa. go_bool. exists a. by apply by_key_Some.
  - intros [a [Ha Hk]%by_key_Some]; [|done]. exists a. rewrite Hp. split; [by apply list_elem_of_In|].
    by apply bool_decide_eq_true.
Qed.
End Keys.

(** A unique column with no NULLs is a key. *)
Lemma unique_column d sch db (A : Type) `{Entity A} {K} (key : A -> K) (inject : K -> value) (c : string) :
  entity A ∈ sch -> db_ok d sch db -> [c] ∈ unique_keys (entity A) ->
  Inj (=) (=) inject ->
  (forall a, collated d (cell (to_row a) c) = inject (key a)) -> (forall k, is_null (inject k) = false) ->
  NoDup (key <$> rows_of A db).
Proof.
  intros Hin Hok Hkey Hinj Hc Hnull. pose proof Hok as Hok'. apply db_ok_spec in Hok' as (_ & _ & Huniq & _).
  specialize (Huniq _ _ Hin Hkey). unfold unique_in in Huniq. go_bool.
  rewrite (rows_typed A d sch db Hin Hok) in Huniq. revert Huniq.
  assert (Hmap : forall l : list A, List.filter (fun k => negb (existsb is_null k)) (key_of d [c] <$> (to_row <$> l))
    = (fun a => [inject (key a)]) <$> l).
  { induction l as [|a l IH]; [done|]. csimpl. rewrite Hc, Hnull. simpl. by f_equal. }
  rewrite Hmap. intros Hnodup. apply (NoDup_fmap_1 (fun k => [inject k])). by rewrite <- list_fmap_compose.
Qed.

(** Evaluate an expression on the rows of records. *)
Lemma Text_eq x y : bool_decide (Text x = Text y) = bool_decide (x = y).
Proof. apply bool_decide_ext. naive_solver. Qed.
Lemma Bytea_eq x y : bool_decide (Bytea x = Bytea y) = bool_decide (x = y).
Proof. apply bool_decide_ext. naive_solver. Qed.
Lemma Jsonb_eq x y : bool_decide (Jsonb x = Jsonb y) = bool_decide (x = y).
Proof. apply bool_decide_ext. naive_solver. Qed.

Lemma eqb_decide (x y : string) : bool_decide (x = y) = String.eqb x y.
Proof. destruct (String.eqb_spec x y); [by apply bool_decide_eq_true|by apply bool_decide_eq_false]. Qed.

#[export] Hint Rewrite holds_both holds_either Text_eq Bytea_eq Jsonb_eq : sql.

Arguments both : simpl never.
Arguments either : simpl never.
Arguments cell r c /.
Arguments equal d !a !b /.
Arguments build_row d db now args t values /.

Ltac sql_eval :=
  unfold matches, updated, returned, project, assign_row, evals, cols; csimpl;
  autorewrite with sql; csimpl.
