(* ===== verification/SqlServer.v ===== *)
(** * Servers of SQL

    What the adapters for SQL databases share: the transactions and pools of a
    client library, what a server promises of their calls, and the rules by which
    programs over them are run. [T] is the type of what the client returns for a
    statement that returns no rows. *)
From Stdlib Require Import Sorting.Sorted.
From S2P Require Import Prelude GoText Sql.

(** ** Clients

    [Exec] returns the number of rows affected, [QueryRow] the first row,
    [Query] the rows and what [rows.Err] says after them. [Exec_text] is [Exec]
    for statements that are not those of module Sql. *)
Record Tx (T S : Type) : Type := mkTx {
  tx_Exec : statement -> list value -> M S (result T);
  tx_Exec_text : string -> M S (result unit);
  tx_QueryRow : statement -> list value -> M S (result (list value));
  tx_Query : statement -> list value -> M S (result (list (list value) * result unit));
  tx_Commit : M S (result unit);
  tx_Rollback : M S (result unit);
}.
Arguments mkTx {T S}.
Arguments tx_Exec {T S}. Arguments tx_Exec_text {T S}. Arguments tx_QueryRow {T S}. Arguments tx_Query {T S}.
Arguments tx_Commit {T S}. Arguments tx_Rollback {T S}.

Record Pool (T S : Type) : Type := mkPool {
  pool_Exec : statement -> list value -> M S (result T);
  pool_QueryRow : statement -> list value -> M S (result (list value));
  pool_Query : statement -> list value -> M S (result (list (list value) * result unit));
  pool_Begin : M S (result (Tx T S));
}.
Arguments mkPool {T S}.
Arguments pool_Exec {T S}. Arguments pool_QueryRow {T S}. Arguments pool_Query {T S}. Arguments pool_Begin {T S}.

(** [tx, err := pool.Begin(ctx); if err != nil { return err };
    defer tx.Rollback(ctx)] and the rest of a function. *)
Definition with_tx {T S A} (pool : Pool T S) (body : Tx T S -> M S (result A)) : M S (result A) :=
  tx <-? pool_Begin pool ;;
  r <- body tx ;;
  tx_Rollback tx ;;;
  ret r.

(** [return a, tx.Commit(ctx)] *)
Definition commit {T S A} (tx : Tx T S) (a : A) : M S (result A) := _ <-? tx_Commit tx ;; ret (Ok a).

Definition ignored {A} (r : result A) : result unit := match r with Ok _ => Ok tt | Err e => Err e end.

(** ** What a server promises

    The state behind a pool is the committed database and, in a transaction, the
    database as the transaction sees it, if it still can be used. *)
Record connection : Type := mkConnection {
  committed : database;
  transaction : option (option database);
}.

(** An error of the library is none of the variables of this program. *)
Definition program_packages : list string :=
  ["authlier."; "emailpassword."; "emailverification."; "googleoauth."; "mysql."; "oidc."; "passkey."; "passwordreset.";
   "postgres."; "refreshtoken."; "saml."; "sessiontoken."; "totp."].

Definition foreign (e : error) : Prop :=
  forall v, existsb (fun package => String.prefix package v) program_packages = true -> errors_Is e (New v) = false.

Definition not_before (a b : value) : Prop :=
  match a, b with Timestamp x, Timestamp y => (y <= x)%Z | _, _ => True end.

Definition in_order (s : statement) (rows : list (value * list value)) : Prop :=
  match s with
  | SELECT _ _ _ (Some _) _ => StronglySorted not_before rows.*1
  | _ => True
  end.

Definition first_row (noRows : error) (res : result reply) : result (list value) :=
  match res with
  | Ok ([], _) => Err noRows
  | Ok ((_, row) :: _, _) => Ok row
  | Err e => Err e
  end.

(** The instant at which a call takes effect is the server's. *)
Definition runs (d : dialect) (sch : schema) (s : statement) (args : list value) (db : database) (r : reply) (db' : database) : Prop :=
  exists now, execute d sch db now args s = (inr r, db').

Section Contract.
Context {T S : Type} (d : dialect) (sch : schema) (noRows : error) (unique : error -> bool) (error_of : violation -> error).
Context (tag : nat -> T).

(** A failure of the connection or of the server, which is no answer about rows
    and keys. *)
Definition plain_failure (e : error) : Prop :=
  unique e = false /\ errors_Is e noRows = false /\ foreign e.

Definition fails (s : statement) (args : list value) (db : database) (e : error) : Prop :=
  plain_failure e \/ exists now v db1, execute d sch db now args s = (inl v, db1) /\ e = error_of v.

(** A statement at an instant: the rows come in any order that ORDER BY
    allows, and a statement that fails changes nothing. *)
Definition answers (s : statement) (args : list value) (db : database) (res : result reply) (db' : database) : Prop :=
  match res with
  | Ok r => exists now r0, execute d sch db now args s = (inr r0, db') /\ r.1 ≡ₚ r0.1 /\ r.2 = r0.2 /\ in_order s r.1
  | Err e => db' = db /\ fails s args db e
  end.

Definition affected (res : result reply) : result T :=
  match res with Ok r => Ok (tag r.2) | Err e => Err e end.

(** In a transaction that began at [db0]: after a failure it may be of no use. *)
Definition after (db0 : database) (res : result reply) (db' : database) (c : connection) : Prop :=
  match res with
  | Ok _ => c = mkConnection db0 (Some (Some db'))
  | Err _ => committed c = db0
  end.

Class TxContract (tx : Tx T S) (conn : S -> connection) : Prop := {
  tx_Exec_ok s args db0 db w : conn (ext w) = mkConnection db0 (Some (Some db)) ->
    wp (tx_Exec tx s args) (fun n w' => exists res db',
      answers s args db res db' /\ n = affected res /\ after db0 res db' (conn (ext w'))) w;
  tx_QueryRow_ok s args db0 db w : conn (ext w) = mkConnection db0 (Some (Some db)) ->
    wp (tx_QueryRow tx s args) (fun row w' => exists res db',
      answers s args db res db' /\ row = first_row noRows res /\ after db0 res db' (conn (ext w'))) w;
  tx_Query_ok s args db0 db w : conn (ext w) = mkConnection db0 (Some (Some db)) ->
    wp (tx_Query tx s args) (fun q w' => exists res db',
      answers s args db res db' /\
      match q with
      | Ok (rows, Ok _) => after db0 res db' (conn (ext w')) /\ exists r, res = Ok r /\ rows = r.1.*2
      | Ok (_, Err _) => committed (conn (ext w')) = db0
      | Err e => committed (conn (ext w')) = db0 /\ res = Err e
      end) w;
  tx_Commit_ok db0 db w : conn (ext w) = mkConnection db0 (Some (Some db)) ->
    wp (tx_Commit tx) (fun r w' =>
      match r with
      | Ok _ => conn (ext w') = mkConnection db None
      | Err e => conn (ext w') = mkConnection db0 None /\ foreign e
      end) w;
  tx_Rollback_ok w :
    wp (tx_Rollback tx) (fun _ w' => conn (ext w') = mkConnection (committed (conn (ext w))) None) w;
}.

Class PoolContract (pool : Pool T S) (conn : S -> connection) : Prop := {
  pool_Exec_ok s args db w : conn (ext w) = mkConnection db None ->
    wp (pool_Exec pool s args) (fun n w' => exists res db',
      answers s args db res db' /\ n = affected res /\ conn (ext w') = mkConnection db' None) w;
  pool_QueryRow_ok s args db w : conn (ext w) = mkConnection db None ->
    wp (pool_QueryRow pool s args) (fun row w' => exists res db',
      answers s args db res db' /\ row = first_row noRows res /\ conn (ext w') = mkConnection db' None) w;
  pool_Query_ok s args db w : conn (ext w) = mkConnection db None ->
    wp (pool_Query pool s args) (fun q w' => exists res db',
      answers s args db res db' /\
      match q with
      | Ok (rows, Ok _) => conn (ext w') = mkConnection db' None /\ exists r, res = Ok r /\ rows = r.1.*2
      | Ok (_, Err _) => conn (ext w') = mkConnection db None
      | Err e => conn (ext w') = mkConnection db None /\ res = Err e
      end) w;
  pool_Begin_ok db w : conn (ext w) = mkConnection db None ->
    wp (pool_Begin pool) (fun r w' =>
      match r with
      | Ok tx => TxContract tx conn /\ conn (ext w') = mkConnection db (Some (Some db))
      | Err e => conn (ext w') = mkConnection db None /\ foreign e
      end) w;
}.
End Contract.

(** ** Rules for the programs of an adapter *)
Section States.
Context {S : Type} (conn : S -> connection).

Definition idle (db : database) (w : World S) : Prop := conn (ext w) = mkConnection db None.
Definition inside (db0 db : database) (w : World S) : Prop := conn (ext w) = mkConnection db0 (Some (Some db)).
Definition broken (db0 : database) (w : World S) : Prop := committed (conn (ext w)) = db0.

Lemma inside_broken db0 db w : inside db0 db w -> broken db0 w.
Proof. unfold inside, broken. by intros ->. Qed.
Lemma idle_broken db w : idle db w -> broken db w.
Proof. unfold idle, broken. by intros ->. Qed.

(** The call is over; [P] holds of its result and of the committed database. *)
Definition leaves {A} (P : result A -> database -> Prop) (r : result A) (w : World S) : Prop :=
  exists db, idle db w /\ P r db.
Definition leaves_in {A} (P : result A -> database -> Prop) (r : result A) (w : World S) : Prop :=
  exists db, broken db w /\ P r db.
End States.
#[export] Hint Resolve inside_broken idle_broken : core.

(** The transaction is left as it is. *)
Ltac left_in db := exists db; split; [eauto|].

Section Rules.
Context {T S : Type} {d : dialect} {sch : schema} {noRows : error} {unique : error -> bool} {error_of : violation -> error}.
Context {tag : nat -> T} (conn : S -> connection).
Implicit Types (tx : Tx T S) (pool : Pool T S).

#[local] Abbreviation TxContract := (TxContract d sch noRows unique error_of tag).
#[local] Abbreviation PoolContract := (PoolContract d sch noRows unique error_of tag).
#[local] Abbreviation runs := (runs d sch).
#[local] Abbreviation fails := (fails d sch noRows unique error_of).
#[local] Abbreviation idle := (idle conn).
#[local] Abbreviation inside := (inside conn).
#[local] Abbreviation broken := (broken conn).

Lemma fails_are_foreign s args db e : (forall v, foreign (error_of v)) -> fails s args db e -> foreign e.
Proof. by intros Hv [(_ & _ & Hf)|(now & v & db1 & _ & ->)]. Qed.

Lemma wp_with_tx {A} pool (body : Tx T S -> M S (result A)) (P : result A -> database -> Prop) db w :
  PoolContract pool conn -> idle db w -> (forall e, foreign e -> P (Err e) db) ->
  (forall tx w', TxContract tx conn -> inside db db w' -> wp (body tx) (leaves_in conn P) w') ->
  wp (with_tx pool body) (leaves conn P) w.
Proof.
  intros Hpool Hidle Herr Hbody. unfold with_tx. wp_go. eapply wp_mono; [by eapply pool_Begin_ok|].
  intros [tx|e] w' [Htx Hw']; wp_go; [|exists db; auto].
  eapply wp_mono; [by apply Hbody|]. intros r w2 (db2 & Hc & HP). wp_go.
  eapply wp_mono; [by eapply tx_Rollback_ok|]. intros ? w3 Hw3. wp_go. exists db2. split; [|done].
  unfold SqlServer.idle. by rewrite Hw3, Hc.
Qed.

Lemma wp_commit {A} tx (a : A) (P : result A -> database -> Prop) db0 db w :
  TxContract tx conn -> inside db0 db w -> P (Ok a) db -> (forall e, foreign e -> P (Err e) db0) ->
  wp (commit tx a) (leaves_in conn P) w.
Proof.
  intros Htx Hw HP Herr. unfold commit. wp_go. eapply wp_mono; [by eapply tx_Commit_ok|]. unfold leaves_in, SqlServer.broken.
  intros [[]|e] w' Hw'; wp_go; [exists db; by rewrite Hw'|]. destruct Hw' as [Hw' He]. exists db0. rewrite Hw'. auto.
Qed.

(** A call that is answered in a transaction. *)
Lemma wp_answered_exec (m : M S (result T)) s args db0 db w (Q : result T -> World S -> Prop) :
  wp m (fun n w' => exists res db', answers d sch noRows unique error_of s args db res db' /\ n = affected tag res /\
    after db0 res db' (conn (ext w'))) w ->
  (forall r db' w', inside db0 db' w' -> runs s args db r db' -> Q (Ok (tag r.2)) w') ->
  (forall e w', broken db0 w' -> fails s args db e -> Q (Err e) w') ->
  wp m Q w.
Proof.
  intros Hm Hok Herr. eapply wp_mono; [exact Hm|].
  intros n w' ([r|e] & db' & Ha & -> & Hc); simpl in *.
  - destruct Ha as (now & r0 & He & _ & -> & _). eapply Hok; [exact Hc|by exists now].
  - destruct Ha as [-> Hf]. by apply Herr.
Qed.

(** The row is one of those the statement selects. *)
Lemma wp_answered_row (m : M S (result (list value))) s args db0 db w (Q : result (list value) -> World S -> Prop) :
  wp m (fun row w' => exists res db', answers d sch noRows unique error_of s args db res db' /\ row = first_row noRows res /\
    after db0 res db' (conn (ext w'))) w ->
  (forall r row db' w', inside db0 db' w' -> runs s args db r db' -> row ∈ r.1.*2 -> Q (Ok row) w') ->
  (forall r db' w', inside db0 db' w' -> runs s args db r db' -> r.1 = [] -> Q (Err noRows) w') ->
  (forall e w', broken db0 w' -> fails s args db e -> Q (Err e) w') ->
  wp m Q w.
Proof.
  intros Hm Hok Hnone Herr. eapply wp_mono; [exact Hm|].
  intros n w' ([[rows n']|e] & db' & Ha & -> & Hc); simpl in *.
  - destruct Ha as (now & r0 & He & Hperm & _ & _). simpl in Hperm. destruct rows as [|[k row] rows].
    + eapply Hnone; [exact Hc|by exists now|]. by apply Permutation_nil_l in Hperm.
    + eapply Hok; [exact Hc|by exists now|]. rewrite <- Hperm. apply list_elem_of_here.
  - destruct Ha as [-> Hf]. by apply Herr.
Qed.

Lemma wp_tx_Exec tx s args db0 db w (Q : result T -> World S -> Prop) :
  TxContract tx conn -> inside db0 db w ->
  (forall r db' w', inside db0 db' w' -> runs s args db r db' -> Q (Ok (tag r.2)) w') ->
  (forall e w', broken db0 w' -> fails s args db e -> Q (Err e) w') ->
  wp (tx_Exec tx s args) Q w.
Proof. intros Htx Hw. eapply wp_answered_exec. by eapply tx_Exec_ok. Qed.

Lemma wp_tx_QueryRow tx s args db0 db w (Q : result (list value) -> World S -> Prop) :
  TxContract tx conn -> inside db0 db w ->
  (forall r row db' w', inside db0 db' w' -> runs s args db r db' -> row ∈ r.1.*2 -> Q (Ok row) w') ->
  (forall r db' w', inside db0 db' w' -> runs s args db r db' -> r.1 = [] -> Q (Err noRows) w') ->
  (forall e w', broken db0 w' -> fails s args db e -> Q (Err e) w') ->
  wp (tx_QueryRow tx s args) Q w.
Proof. intros Htx Hw. eapply wp_answered_row. by eapply tx_QueryRow_ok. Qed.

(** [Query] returns all the rows unless it or [rows.Err] fails. *)
Lemma wp_tx_Query tx s args db0 db w (Q : result (list (list value) * result unit) -> World S -> Prop) :
  TxContract tx conn -> inside db0 db w ->
  (forall r rows db' w', inside db0 db' w' -> runs s args db r db' -> rows ≡ₚ r.1 -> in_order s rows -> Q (Ok (rows.*2, Ok tt)) w') ->
  (forall rows e w', broken db0 w' -> Q (Ok (rows, Err e)) w') ->
  (forall e w', broken db0 w' -> fails s args db e -> Q (Err e) w') ->
  wp (tx_Query tx s args) Q w.
Proof.
  intros Htx Hw Hok Hlate Herr. eapply wp_mono; [by eapply tx_Query_ok|].
  intros [[rows [[]|e]]|e] w' (res & db' & Ha & Hq).
  - destruct Hq as (Hc & r & -> & ->). destruct Ha as (now & r0 & He & Hperm & _ & Ho).
    eapply Hok; [exact Hc|by exists now|done|done].
  - by apply Hlate.
  - destruct Hq as [Hc ->]. destruct Ha as [-> Hf]. by apply Herr.
Qed.

Lemma wp_pool_Exec pool s args db w (Q : result T -> World S -> Prop) :
  PoolContract pool conn -> idle db w ->
  (forall r db' w', idle db' w' -> runs s args db r db' -> Q (Ok (tag r.2)) w') ->
  (forall e w', idle db w' -> fails s args db e -> Q (Err e) w') ->
  wp (pool_Exec pool s args) Q w.
Proof.
  intros Htx Hw Hok Herr. eapply wp_mono; [by eapply pool_Exec_ok|].
  intros n w' ([r|e] & db' & Ha & -> & Hc); simpl in *.
  - destruct Ha as (now & r0 & He & _ & -> & _). eapply Hok; [exact Hc|by exists now].
  - destruct Ha as [-> Hf]. apply Herr; [exact Hc|done].
Qed.

Lemma wp_pool_QueryRow pool s args db w (Q : result (list value) -> World S -> Prop) :
  PoolContract pool conn -> idle db w ->
  (forall r row db' w', idle db' w' -> runs s args db r db' -> row ∈ r.1.*2 -> Q (Ok row) w') ->
  (forall r db' w', idle db' w' -> runs s args db r db' -> r.1 = [] -> Q (Err noRows) w') ->
  (forall e w', idle db w' -> fails s args db e -> Q (Err e) w') ->
  wp (pool_QueryRow pool s args) Q w.
Proof.
  intros Htx Hw Hok Hnone Herr. eapply wp_mono; [by eapply pool_QueryRow_ok|].
  intros n w' ([[rows n']|e] & db' & Ha & -> & Hc); simpl in *.
  - destruct Ha as (now & r0 & He & Hperm & _ & _). simpl in Hperm. destruct rows as [|[k row] rows].
    + eapply Hnone; [exact Hc|by exists now|]. by apply Permutation_nil_l in Hperm.
    + eapply Hok; [exact Hc|by exists now|]. rewrite <- Hperm. set_solver.
  - destruct Ha as [-> Hf]. apply Herr; [exact Hc|done].
Qed.

Lemma wp_pool_Query pool s args db w (Q : result (list (list value) * result unit) -> World S -> Prop) :
  PoolContract pool conn -> idle db w ->
  (forall r rows db' w', idle db' w' -> runs s args db r db' -> rows ≡ₚ r.1 -> in_order s rows -> Q (Ok (rows.*2, Ok tt)) w') ->
  (forall rows e w', idle db w' -> Q (Ok (rows, Err e)) w') ->
  (forall e w', idle db w' -> fails s args db e -> Q (Err e) w') ->
  wp (pool_Query pool s args) Q w.
Proof.
  intros Htx Hw Hok Hlate Herr. eapply wp_mono; [by eapply pool_Query_ok|].
  intros [[rows [[]|e]]|e] w' (res & db' & Ha & Hq).
  - destruct Hq as (Hc & r & -> & ->). destruct Ha as (now & r0 & He & Hperm & _ & Ho).
    eapply Hok; [exact Hc|by exists now|done|done].
  - by apply Hlate.
  - destruct Hq as [Hc ->]. destruct Ha as [-> Hf]. by apply Herr.
Qed.
End Rules.

(** ** The effect of a statement on the records of its table *)
Lemma runs_ok d sch s args db r db' : runs d sch s args db r db' -> db_ok d sch db -> db_ok d sch db'.
Proof. intros [now He] Hok. pose proof (execute_ok d sch db now args s Hok) as H. by rewrite He in H. Qed.

Lemma rows_of_same (A : Type) `{Entity A} name db db' :
  others_same db name db' -> table_name (entity A) <> name -> rows_of A db' = rows_of A db.
Proof. intros Hs Hn. unfold rows_of. by rewrite Hs. Qed.

Lemma runs_SELECT_same d sch targets source condition order_by locks args db r db' :
  runs d sch (SELECT targets source condition order_by locks) args db r db' -> db' = db.
Proof. by intros [now [= _ <-]]. Qed.

(** A row of values without a table. *)
Lemma runs_counts d sch targets args db r db' row :
  runs d sch (SELECT targets [] TRUE None []) args db r db' -> row ∈ r.1.*2 ->
  db' = db /\ exists now, row = eval d db now args [] [] <$> targets.
Proof. intros [now [= <- <-]] Hrow. split; [done|]. exists now. simpl in Hrow. set_solver. Qed.

Section Effects.
Context (d : dialect) (sch : schema) (A : Type) `{Entity A} (Hin : entity A ∈ sch) (name : string) (Hname : name = table_name (entity A)).
Context (args : list value) (db : database) (r : reply) (db' : database) (Hok : db_ok d sch db).
#[local] Abbreviation ok := (db_ok d sch).
#[local] Abbreviation runs := (runs d sch).

Lemma runs_update_rows assignments condition returning (p : A -> bool) (f : A -> A) (g : A -> list value) :
  runs (UPDATE name assignments condition returning) args db r db' ->
  (forall now a, matches d db now args condition (to_row a) = p a) ->
  (forall now a, p a = true -> updated d db now args assignments (to_row a) = to_row (f a)) ->
  (forall now a, project d db now args returning [("", to_row (f a))] = g a) ->
  rows_of A db' = (fun a => if p a then f a else a) <$> rows_of A db /\
  r.1.*2 = g <$> List.filter p (rows_of A db) /\ (counts_matched d = true -> r.2 = length (List.filter p (rows_of A db))) /\
  ok db' /\ others_same db name db'.
Proof.
  intros [now He] Hp Hf Hg. eapply execute_UPDATE in He as (Hr & H1 & H2 & Hok' & Hs); eauto.
  split_and!; [done| |exact H2|done|done]. rewrite H1, <- list_fmap_compose. apply list_fmap_ext.
  intros _ a _. simpl. apply Hg.
Qed.

(** However the rows are counted: none affected, none changed; some affected,
    some matched. *)
Lemma runs_affected assignments condition returning (p : A -> bool) (f : A -> A) :
  runs (UPDATE name assignments condition returning) args db r db' ->
  (forall now a, matches d db now args condition (to_row a) = p a) ->
  (forall now a, p a = true -> updated d db now args assignments (to_row a) = to_row (f a)) ->
  (r.2 = 0 -> rows_of A db' = rows_of A db) /\ (r.2 <> 0 -> List.filter p (rows_of A db) <> []).
Proof.
  intros [now He] Hp Hf. pose proof He as He'.
  eapply (execute_UPDATE d sch db now args A Hin Hok name Hname) with (p := p) (f := f) in He' as (Hrows & _); [|done|by eauto].
  simpl in He. rewrite (table_rows d sch db A Hin Hok name Hname) in He.
  apply checked_inr in He as (-> & _ & _). simpl. rewrite (map_filter_comm to_row _ p) by done. split.
  - intros Hnone. apply nil_length_inv in Hnone. rewrite Hrows. rewrite <- (list_fmap_id (rows_of A db)) at 2.
    apply list_fmap_ext. intros i a Ha%list_elem_of_lookup_2. simpl. destruct (p a) eqn:E; [|done].
    assert (Hc : changes d db now args assignments (to_row a) = false).
    { destruct (changes d db now args assignments (to_row a)) eqn:Hc; [|done]. exfalso.
      assert (Hin' : to_row a ∈ List.filter (changes d db now args assignments) (to_row <$> List.filter p (rows_of A db))).
      { apply elem_of_List_filter. split; [|done]. apply list_elem_of_fmap_2. by apply elem_of_List_filter. }
      rewrite Hnone in Hin'. set_solver. }
    unfold changes in Hc. apply orb_false_iff in Hc as [_ Hc]. go_bool. rewrite (Hf now a E) in Hc.
    apply (f_equal of_row) in Hc. rewrite !of_to_row in Hc. by injection Hc.
  - intros Hsome E. rewrite E in Hsome. by apply Hsome.
Qed.

Lemma runs_INSERT values (a : time -> A) :
  runs (INSERT name values None) args db r db' -> find_table sch name = Some (entity A) ->
  (forall now, build_row d db now args (entity A) values = to_row (a now)) ->
  exists now, rows_of A db' = rows_of A db ++ [a now] /\ ok db' /\ others_same db name db'.
Proof.
  intros [now He] Hf Ha. exists now. eapply execute_INSERT in He as (Hr & _ & _ & Hok' & Hs); eauto.
Qed.

Lemma runs_upsert values key assignments (a : A) (same : A -> bool) (f : A -> A) :
  runs (INSERT name values (Some (key, assignments))) args db r db' -> find_table sch name = Some (entity A) ->
  (forall now, build_row d db now args (entity A) values = to_row a) ->
  (forall b, holds (foldr both (Boolean true) ((fun c => equal d (cell (to_row a) c) (cell (to_row b) c)) <$> key)) = same b) ->
  (forall now b, same b = true ->
     assign_row (evals d db now args (to_row a) [("", to_row b)] assignments) (to_row b) = to_row (f b)) ->
  rows_of A db' = (if existsb same (rows_of A db) then (fun b => if same b then f b else b) <$> rows_of A db
                   else rows_of A db ++ [a]) /\
  ok db' /\ others_same db name db'.
Proof. intros [now He] Hf Ha Hsame Hassign. eapply execute_upsert in He; eauto. Qed.

Lemma runs_SELECT targets alias condition order_by locks (p : A -> bool) (g : A -> list value) :
  runs (SELECT targets [(alias, name)] condition order_by locks) args db r db' ->
  (forall now a, holds (eval d db now args [] [(alias, to_row a)] condition) = p a) ->
  (forall now a, project d db now args targets [(alias, to_row a)] = g a) ->
  db' = db /\ r.1.*2 = g <$> List.filter p (rows_of A db).
Proof.
  intros [now He] Hp Hg. eapply execute_SELECT in He as (-> & H1); eauto. split; [done|].
  rewrite H1, <- list_fmap_compose. apply list_fmap_ext. intros _ a _. simpl. apply Hg.
Qed.

Lemma runs_DELETE condition returning (p : A -> bool) (g : A -> list value) :
  runs (DELETE name condition returning) args db r db' ->
  unreferenced sch name = true ->
  (forall now a, matches d db now args condition (to_row a) = p a) ->
  (forall now a, project d db now args returning [("", to_row a)] = g a) ->
  rows_of A db' = List.filter (fun a => negb (p a)) (rows_of A db) /\
  r.1.*2 = g <$> List.filter p (rows_of A db) /\ r.2 = length (List.filter p (rows_of A db)) /\
  ok db' /\ others_same db name db'.
Proof.
  intros [now He] Hu Hp Hg. eapply execute_DELETE in He as (Hr & H1 & H2 & Hok' & Hs); eauto.
  split_and!; try done. rewrite H1, <- list_fmap_compose. apply list_fmap_ext. intros _ a _. simpl. apply Hg.
Qed.
End Effects.

Section Join.
Context (d : dialect) (sch : schema) (A B : Type) `{Entity A} `{Entity B} (HA : entity A ∈ sch) (HB : entity B ∈ sch).
Context (nameA nameB : string) (HnameA : nameA = table_name (entity A)) (HnameB : nameB = table_name (entity B)).

Lemma runs_join targets aliasA aliasB condition order_by locks args db r db' (p : A -> B -> bool) (g : A -> B -> list value) :
  db_ok d sch db -> runs d sch (SELECT targets [(aliasA, nameA); (aliasB, nameB)] condition order_by locks) args db r db' ->
  (forall now a b, holds (eval d db now args [] [(aliasB, to_row b); (aliasA, to_row a)] condition) = p a b) ->
  (forall now a b, project d db now args targets [(aliasB, to_row b); (aliasA, to_row a)] = g a b) ->
  db' = db /\ forall x, x ∈ r.1.*2 <-> exists a b, a ∈ rows_of A db /\ b ∈ rows_of B db /\ p a b = true /\ x = g a b.
Proof.
  intros Hok [now He] Hp Hg.
  eapply (execute_join d sch db now args A B HA HB Hok nameA nameB HnameA HnameB) in He as [-> Hx]; [|by intros; apply Hp].
  split; [done|]. intros x. rewrite Hx. split; intros (a & b & Ha & Hb & Hpab & ->); exists a, b; by rewrite ?Hg.
Qed.
End Join.

(** The records of a table by a unique column of bytes or of text. *)
Lemma bytea_key d sch (A : Type) `{Entity A} (key : A -> string) (c : string) db :
  db_ok d sch db -> entity A ∈ sch -> [c] ∈ unique_keys (entity A) ->
  (forall a, cell (to_row a) c = Bytea (key a)) -> NoDup (key <$> rows_of A db).
Proof.
  intros Hok Hin Hkey Hc. eapply (unique_column d sch db A key Bytea c); [done|done|done|congruence| |done].
  intros a. by rewrite Hc.
Qed.

(** Texts that compare byte by byte. *)
Definition exact (d : dialect) : Prop := forall s, collate d s = s.

Lemma text_key d sch (A : Type) `{Entity A} (key : A -> string) (c : string) db : exact d ->
  db_ok d sch db -> entity A ∈ sch -> [c] ∈ unique_keys (entity A) ->
  (forall a, cell (to_row a) c = Text (key a)) -> NoDup (key <$> rows_of A db).
Proof.
  intros Hd Hok Hin Hkey Hc. eapply (unique_column d sch db A key Text c); [done|done|done|congruence| |done].
  intros a. rewrite Hc. simpl. by rewrite Hd.
Qed.

(** What a row refers to is there. *)
Lemma text_reference d sch (A B : Type) `{Entity A} `{Entity B} (ka : A -> string) (kb : B -> string) (c c' : string) db a : exact d ->
  db_ok d sch db -> entity A ∈ sch -> entity B ∈ sch ->
  mkReference c (table_name (entity B)) c' ∈ references (entity A) ->
  (forall a, cell (to_row a) c = Text (ka a)) -> (forall b, cell (to_row b) c' = Text (kb b)) ->
  a ∈ rows_of A db -> exists b, b ∈ rows_of B db /\ kb b = ka a.
Proof.
  intros Hd Hok HA HB Hin Ha Hb Hrow. pose proof Hok as Hok'. apply db_ok_spec in Hok' as (_ & _ & _ & Href).
  assert (Hr : to_row a ∈ rows_in db (table_name (entity A))).
  { rewrite (rows_typed A d sch db) by done. by apply list_elem_of_fmap_2. }
  specialize (Href _ _ HA Hr). rewrite forallb_forall in Href.
  specialize (Href _ (proj1 (list_elem_of_In _ _) Hin)). unfold referenced in Href. cbn [local_column foreign_column foreign_table] in Href.
  rewrite Ha in Href. cbn [is_null orb] in Href.
  rewrite (rows_typed B d sch db) in Href by done.
  apply existsb_exists in Href as (r & Hr'%list_elem_of_In & He). apply list_elem_of_fmap in Hr' as (b & -> & Hrb).
  exists b. split; [done|]. rewrite Hb in He. simpl in He. rewrite !Hd, Text_eq in He. by apply bool_decide_eq_true in He.
Qed.

Ltac in_list := first [apply list_elem_of_here | apply list_elem_of_further; in_list].
