(* ===== verification/Migrate.v ===== *)
(** * internal/migrate: schema migrations read from files

    The statements of each SQL file, in the order of the files' names. *)
From Stdlib Require Import Sorting.Sorted.
From S2P Require Import Prelude GoText.

(** ** The interface [fs.FS]

    A read-only file system: [ReadDir] of its root gives the names of its
    entries, and whether they are directories. *)
Record DirEntry : Type := mkEntry { Name : string; IsDir : bool }.
Record FS : Type := mkFS {
  ReadDir : result (list DirEntry);
  ReadFile : string -> result string;
}.

Definition separator : string := "-- authlier:split".

Record Migration : Type := mkMigration { Version : string; SQL : list string }.

Definition HasSuffix (s suffix : string) : bool :=
  (String.length suffix <=? String.length s)%nat &&
  String.eqb (String.substring (String.length s - String.length suffix) (String.length suffix) s) suffix.

(** [sort.Slice] by names, which are different from each other. *)
Fixpoint insert_entry (e : DirEntry) (entries : list DirEntry) : list DirEntry :=
  match entries with
  | [] => [e]
  | e' :: entries' => if String.ltb (Name e) (Name e') then e :: entries else e' :: insert_entry e entries'
  end.
Definition sort_entries (entries : list DirEntry) : list DirEntry := fold_right insert_entry [] entries.

(** The loop over the parts of a file. *)
Definition statements (body : string) : list string :=
  List.filter (fun statement => negb (String.eqb statement "")) (TrimSpace <$> Split body separator).

(** The loop over the entries. *)
Fixpoint read_entries (files : FS) (entries : list DirEntry) (migrations : list Migration) : result (list Migration) :=
  match entries with
  | [] => Ok migrations
  | entry :: entries =>
      if IsDir entry || negb (HasSuffix (Name entry) ".sql") then read_entries files entries migrations else
      match ReadFile files (Name entry) with
      | Err err => Err (Errorf "read migration %s: %w" [err])
      | Ok body =>
          if (length (statements body) =? 0)%nat then Err (Errorf "migration %s has no statements" []) else
          read_entries files entries (migrations ++ [mkMigration (Name entry) (statements body)])
      end
  end.

Definition Read (files : FS) : result (list Migration) :=
  match ReadDir files with
  | Err err => Err (Errorf "read migrations: %w" [err])
  | Ok entries => read_entries files (sort_entries entries) []
  end.

(** ** What is read *)
Definition name_before (a b : DirEntry) : Prop := String.ltb (Name b) (Name a) = false.

Lemma sort_entries_Permutation entries : sort_entries entries ≡ₚ entries.
Proof.
  assert (Hins : forall e l, insert_entry e l ≡ₚ e :: l).
  { intros e l. induction l as [|e' l IH]; simpl; [done|]. destruct (String.ltb _ _); [done|].
    rewrite IH. apply Permutation_swap. }
  unfold sort_entries. induction entries as [|e entries IH]; simpl; [done|]. by rewrite Hins, IH.
Qed.

Lemma ltb_asym a b : String.ltb a b = true -> String.ltb b a = false.
Proof.
  unfold String.ltb. rewrite (String.compare_antisym a b). destruct (String.compare b a); simpl; done.
Qed.

Lemma sort_entries_Sorted entries : Sorted name_before (sort_entries entries).
Proof.
  unfold sort_entries. induction entries as [|e entries IH]; simpl; [constructor|].
  induction IH as [|e' l Hl IHl Hhd]; simpl; [repeat constructor|].
  destruct (String.ltb (Name e) (Name e')) eqn:E.
  - repeat constructor; try done. by apply ltb_asym.
  - constructor; [done|]. destruct l as [|e2 l]; simpl; [by repeat constructor|].
    destruct (String.ltb (Name e) (Name e2)); constructor; [done|]. by inversion Hhd.
Qed.

Definition is_sql (entry : DirEntry) : bool := negb (IsDir entry) && HasSuffix (Name entry) ".sql".

Lemma read_entries_spec files entries acc ms :
  read_entries files entries acc = Ok ms ->
  exists l, ms = acc ++ l /\ Version <$> l = Name <$> List.filter is_sql entries /\
    Forall (fun m => SQL m <> [] /\ exists body, ReadFile files (Version m) = Ok body /\ SQL m = statements body) l.
Proof.
  revert acc. induction entries as [|e entries IH]; simpl; intros acc.
  - intros [= <-]. exists []. by rewrite app_nil_r.
  - unfold is_sql at 1. destruct (IsDir e); simpl; [apply IH|].
    destruct (HasSuffix (Name e) ".sql"); simpl; [|apply IH].
    destruct (ReadFile files (Name e)) as [body|err] eqn:Hbody; [|done].
    destruct (statements body) as [|s ss] eqn:Hs; [done|]. cbn [length Nat.eqb].
    intros (l & -> & Hv & Hall)%IH. exists (mkMigration (Name e) (s :: ss) :: l). split_and!.
    + by rewrite <- app_assoc.
    + csimpl. by rewrite Hv.
    + constructor; [|done]. simpl. split; [done|]. exists body. by rewrite Hs.
Qed.

Lemma sorted_filter (p : DirEntry -> bool) l :
  StronglySorted name_before l -> StronglySorted name_before (List.filter p l).
Proof.
  induction 1 as [|e l Hl IH Hall]; simpl; [constructor|]. destruct (p e); [|done].
  constructor; [done|]. apply List.Forall_forall. intros x [Hx _]%filter_In. by eapply List.Forall_forall in Hall.
Qed.

Lemma compare_trans_lt a b c : String.compare a b = Lt -> String.compare b c = Lt -> String.compare a c = Lt.
Proof.
  revert b c. induction a as [|x a IH]; intros [|y b] [|z c]; simpl; try done.
  unfold Ascii.compare. destruct (N.compare_spec (N_of_ascii x) (N_of_ascii y)) as [E|E|E]; try done;
  destruct (N.compare_spec (N_of_ascii y) (N_of_ascii z)) as [E2|E2|E2]; try done.
  - rewrite E, E2, N.compare_refl. apply IH.
  - intros _ _. rewrite E. by apply N.compare_lt_iff in E2 as ->.
  - intros _ _. rewrite <- E2. by apply N.compare_lt_iff in E as ->.
  - intros _ _. assert (N_of_ascii x < N_of_ascii z)%N as ->%N.compare_lt_iff by lia. done.
Qed.

Lemma name_before_iff a b : name_before a b <-> String.compare (Name b) (Name a) <> Lt.
Proof. unfold name_before, String.ltb. by destruct (String.compare _ _). Qed.

Lemma name_before_trans : Transitive name_before.
Proof.
  intros a b c. rewrite !name_before_iff. intros Hba Hcb Hca.
  destruct (String.compare (Name b) (Name a)) eqn:E; [| done |].
  - apply String.compare_eq_iff in E. by rewrite <- E in Hca.
  - assert (Hab : String.compare (Name a) (Name b) = Lt) by (by rewrite String.compare_antisym, E).
    apply Hcb. by eapply compare_trans_lt.
Qed.

(** The migrations are those of the SQL files, each with its statements, in the
    order of the names. *)
Definition in_name_order (files : FS) (ms : list Migration) : Prop :=
  exists entries, ReadDir files = Ok entries /\
    Version <$> ms ≡ₚ Name <$> List.filter is_sql entries /\
    StronglySorted (fun a b => String.ltb b a = false) (Version <$> ms) /\
    Forall (fun m => SQL m <> [] /\ exists body, ReadFile files (Version m) = Ok body /\ SQL m = statements body) ms.

Lemma Read_Ok files ms : Read files = Ok ms -> in_name_order files ms.
Proof.
  unfold Read, in_name_order. destruct (ReadDir files) as [entries|]; [|done]. intros (l & -> & Hv & Hall)%read_entries_spec.
  exists entries. simpl. rewrite Hv. split_and!; [done| | |done].
  - apply fmap_Permutation. clear. induction (sort_entries_Permutation entries) as [| |x y l|]; simpl; [done| | |by etrans].
    + by destruct (is_sql x); [f_equiv|].
    + destruct (is_sql x), (is_sql y); try done. apply Permutation_swap.
  - assert (Hs : StronglySorted name_before (List.filter is_sql (sort_entries entries))).
    { apply sorted_filter, Sorted_StronglySorted; [apply name_before_trans|apply sort_entries_Sorted]. }
    clear -Hs. induction Hs as [|e l Hl IH Hall]; csimpl; constructor; [done|].
    by apply Forall_fmap.
Qed.

(** A directory of two migrations, out of order, with a note. *)
Definition demo_files : FS := mkFS
  (Ok [mkEntry "002_b.sql" false; mkEntry "README.md" false; mkEntry "001_a.sql" false; mkEntry "old.sql" true])
  (fun name =>
     if String.eqb name "001_a.sql" then Ok (" A; " +:+ separator +:+ " B; ") else
     if String.eqb name "002_b.sql" then Ok "C;" else Err (New "fs.ErrNotExist")).

Example demo_Read : Read demo_files = Ok [mkMigration "001_a.sql" ["A;"; "B;"]; mkMigration "002_b.sql" ["C;"]].
Proof. vm_compute. reflexivity. Qed.

Example empty_file_fails :
  Read (mkFS (Ok [mkEntry "001.sql" false]) (fun _ => Ok separator)) = Err (Errorf "migration %s has no statements" []).
Proof. vm_compute. reflexivity. Qed.
