(* ===== verification/Postgres.v ===== *)
(** * The PostgreSQL adapter (storage/postgres/postgres.go)

    The client library, the adapter and its migrations, and the tables the
    migrations make. *)
From S2P Require Import Prelude GoText GoJson Migrate.
From S2P Require Export Sql SqlServer.

Definition ErrInvalidConfig : error := New "postgres.ErrInvalidConfig".

(** ** The library github.com/jackc/pgx/v5

    [ErrNoRows] is the answer of [QueryRow] when there is no row. An error of
    the server is a [*pgconn.PgError], which has a code. *)
Definition ErrNoRows : error := New "pgx.ErrNoRows".
Definition pg_error_prefix : string := "pgconn.PgError:".
Definition PgError (code : string) : error := New (pg_error_prefix +:+ code).

(** [errors.As] for [*pgconn.PgError]: the code of the first one in the tree. *)
Fixpoint errors_As_PgError (err : error) : option string :=
  match err with
  | New variable =>
      if String.prefix pg_error_prefix variable
      then Some (String.substring (String.length pg_error_prefix) (String.length variable) variable) else None
  | Errorf _ wrapped =>
      (fix first (l : list error) : option string :=
         match l with
         | [] => None
         | e :: l => match errors_As_PgError e with Some code => Some code | None => first l end
         end) wrapped
  end.

(** How times and JSON documents are stored: a timestamptz counts microseconds,
    and what is below them is dropped; a jsonb keeps the value of a document, not
    its text. *)
Class PgTypes := {
  microseconds : time -> time;
  jsonb_value : string -> string;
  microseconds_law t : (microseconds t <= t < microseconds t + 1000)%Z /\ (microseconds t mod 1000 = 0)%Z;
}.

(** The transactions and the pool of the library: [Exec] returns the number of
    rows affected. *)
Abbreviation Tx := (SqlServer.Tx nat).
Abbreviation Pool := (SqlServer.Pool nat).

Definition ErrScan : error := New "pgx.ScanArgError".

Definition scan_optional_time (v : value) : option (option time) :=
  match v with Null => Some None | Timestamp t => Some (Some t) | _ => None end.

Section Arguments_.
Context `{PgTypes}.
Definition time_value (t : time) : value := Timestamp (microseconds t).
Definition optional_time_value : option time -> value := nullable time_value.
Definition jsonb_document (document : string) : value := Jsonb (jsonb_value document).
End Arguments_.

(** ** The adapter *)
Record SecretCodec (S : Type) : Type := mkSecretCodec {
  Encrypt : string -> M S (result string);
  Decrypt : string -> M S (result string);
}.
Arguments Encrypt {S}. Arguments Decrypt {S}.

Record Config (S : Type) : Type := mkConfig { Secrets : option (SecretCodec S) }.
Arguments Secrets {S}.

Record Adapter (S : Type) : Type := mkAdapter { pool : Pool S; secrets : option (SecretCodec S) }.
Arguments pool {S}. Arguments secrets {S}. Arguments mkAdapter {S}.

Definition uniqueViolation (err : error) : bool :=
  match errors_As_PgError err with Some code => String.eqb code "23505" | None => false end.

(** [if uniqueViolation(err) { return conflict }; return err] *)
Definition conflicting {A} (conflict : error) (r : result A) : result A :=
  match r with
  | Err err => if uniqueViolation err then Err conflict else Err err
  | Ok a => Ok a
  end.

(** [if errors.Is(err, pgx.ErrNoRows) { return absent }; return err] *)
Definition or_absent {A} (absent : error) (r : result A) : result A :=
  match r with
  | Err err => if errors_Is err ErrNoRows then Err absent else Err err
  | Ok a => Ok a
  end.

Section Adapter.
Context {S : Type}.

Definition New_ (pool : option (Pool S)) (config : Config S) : result (Adapter S) :=
  match pool with
  | None => Err (Errorf "%w: pool is required" [ErrInvalidConfig])
  | Some pool => Ok (mkAdapter pool (Secrets config))
  end.

End Adapter.

(** ** The tables (migrations 001 to 004) *)
Definition required (name : string) (k : kind) : column := mkColumn name k true (Const Null).
Definition optional (name : string) (k : kind) : column := mkColumn name k false (Const Null).
Definition with_default (name : string) (k : kind) (e : expr) : column := mkColumn name k true e.

Definition authlier_schema_migrations : table :=
  mkTable "authlier_schema_migrations"
    [required "version" text; with_default "applied_at" timestamptz CurrentTimestamp]
    [["version"]] [].

Definition authlier_users : table :=
  mkTable "authlier_users"
    [required "id" text; required "email" text; with_default "email_verified" boolean (Const (Boolean false));
     required "webauthn_handle" bytea; required "created_at" timestamptz]
    [["id"]; ["email"]; ["webauthn_handle"]] [].

Definition to_user (c : string) : reference := mkReference c "authlier_users" "id".

Definition authlier_password_credentials : table :=
  mkTable "authlier_password_credentials"
    [required "user_id" text; required "password_hash" text; required "updated_at" timestamptz]
    [["user_id"]] [to_user "user_id"].

Definition authlier_google_identities : table :=
  mkTable "authlier_google_identities"
    [required "provider_subject" text; required "user_id" text; required "email" text; required "linked_at" timestamptz]
    [["provider_subject"]; ["user_id"]] [to_user "user_id"].

Definition pending_table (name : string) : table :=
  mkTable name
    [required "user_id" text; required "email" text; required "token_hash" bytea;
     required "created_at" timestamptz; required "expires_at" timestamptz]
    [["user_id"]; ["token_hash"]] [to_user "user_id"].
Definition authlier_email_verifications : table := pending_table "authlier_email_verifications".
Definition authlier_password_resets : table := pending_table "authlier_password_resets".

Definition authlier_sessions : table :=
  mkTable "authlier_sessions"
    [required "token_hash" bytea; required "subject_id" text; required "created_at" timestamptz;
     required "expires_at" timestamptz; optional "extended_at" timestamptz; optional "revoked_at" timestamptz;
     required "id" text]
    [["token_hash"]; ["id"]] [].

Definition authlier_access_sessions : table :=
  mkTable "authlier_access_sessions"
    [required "id" text; required "subject_id" text; required "created_at" timestamptz;
     required "expires_at" timestamptz; optional "revoked_at" timestamptz]
    [["id"]] [].

Definition authlier_refresh_tokens : table :=
  mkTable "authlier_refresh_tokens"
    [required "token_hash" bytea; required "session_id" text; required "created_at" timestamptz;
     required "expires_at" timestamptz; optional "rotated_at" timestamptz; optional "revoked_at" timestamptz]
    [["token_hash"]] [mkReference "session_id" "authlier_access_sessions" "id"].

Definition empty_text : expr := Const (Text "").

Definition authlier_google_challenges : table :=
  mkTable "authlier_google_challenges"
    [required "state_hash" bytea; required "nonce" text; required "code_verifier" text;
     with_default "subject_id" text empty_text; required "created_at" timestamptz;
     required "expires_at" timestamptz; optional "consumed_at" timestamptz]
    [["state_hash"]] [].

Definition authlier_oidc_challenges : table :=
  mkTable "authlier_oidc_challenges"
    [required "state_hash" bytea; required "connection_id" text; required "issuer" text; required "client_id" text;
     required "redirect_url" text; required "scopes" text_array; required "require_verified_email" boolean;
     required "nonce" text; required "code_verifier" text; required "created_at" timestamptz;
     required "expires_at" timestamptz; optional "consumed_at" timestamptz]
    [["state_hash"]] [].

Definition authlier_saml_requests : table :=
  mkTable "authlier_saml_requests"
    [required "state_hash" bytea; required "connection_id" text; required "connection_hash" bytea;
     required "request_id" text; required "created_at" timestamptz; required "expires_at" timestamptz;
     optional "consumed_at" timestamptz]
    [["state_hash"]] [].

Definition authlier_totp_enrollments : table :=
  mkTable "authlier_totp_enrollments"
    [required "subject_id" text; required "encrypted_secret" bytea; required "created_at" timestamptz;
     required "expires_at" timestamptz]
    [["subject_id"]] [].

Definition authlier_totp_credentials : table :=
  mkTable "authlier_totp_credentials"
    [required "subject_id" text; required "encrypted_secret" bytea; required "enabled_at" timestamptz;
     optional "last_used_counter" bigint; optional "disabled_at" timestamptz]
    [["subject_id"]] [].

Definition authlier_totp_recovery_codes : table :=
  mkTable "authlier_totp_recovery_codes"
    [required "subject_id" text; required "code_hash" bytea; optional "used_at" timestamptz]
    [["subject_id"; "code_hash"]] [mkReference "subject_id" "authlier_totp_credentials" "subject_id"].

Definition authlier_totp_challenges : table :=
  mkTable "authlier_totp_challenges"
    [required "token_hash" bytea; required "subject_id" text; required "created_at" timestamptz;
     required "expires_at" timestamptz; optional "consumed_at" timestamptz]
    [["token_hash"]] [].

Definition authlier_passkey_credentials : table :=
  mkTable "authlier_passkey_credentials"
    [required "credential_id" bytea; required "subject_id" text; required "credential" jsonb;
     required "created_at" timestamptz; required "updated_at" timestamptz]
    [["credential_id"]] [to_user "subject_id"].

Definition authlier_passkey_ceremonies : table :=
  mkTable "authlier_passkey_ceremonies"
    [required "token_hash" bytea; required "ceremony_type" text; with_default "subject_id" text empty_text;
     required "session_data" jsonb; required "created_at" timestamptz; required "expires_at" timestamptz;
     optional "consumed_at" timestamptz]
    [["token_hash"]] [].

Definition tables : schema :=
  [authlier_schema_migrations; authlier_users; authlier_password_credentials; authlier_google_identities;
   authlier_email_verifications; authlier_password_resets; authlier_sessions; authlier_access_sessions;
   authlier_refresh_tokens; authlier_google_challenges; authlier_oidc_challenges; authlier_saml_requests;
   authlier_totp_enrollments; authlier_totp_credentials; authlier_totp_recovery_codes; authlier_totp_challenges;
   authlier_passkey_credentials; authlier_passkey_ceremonies].

(** ** Migrate *)
Definition create_ledger : string :=
  "CREATE TABLE IF NOT EXISTS authlier_schema_migrations (version text PRIMARY KEY, applied_at timestamptz NOT NULL DEFAULT CURRENT_TIMESTAMP)".

Definition ledger_has : statement :=
  SELECT [Exists [("", "authlier_schema_migrations")] ("version" = $1)] [] TRUE None [].

Definition ledger_add : statement := INSERT "authlier_schema_migrations" [("version", $1)] None.

Section Migrate.
Context {S : Type}.

Definition applyMigration (tx : Tx S) (file : Migration) : M S (result unit) :=
  _ <-? wrapped "create migration ledger: %w" (tx_Exec_text tx create_ledger) ;;
  row <-? wrapped "check migration %s: %w" (tx_QueryRow tx ledger_has [Text (Version file)]) ;;
  match row with
  | [Boolean true] => ret (Ok tt)
  | [Boolean false] =>
      for_each (SQL file) tt
        (fun statement _ =>
           r <- wrapped "apply migration %s: %w" (tx_Exec_text tx statement) ;;
           match r with
           | Err err => ret (Return (Err err))
           | Ok _ => ret (Next tt)
           end)
        (fun _ =>
           _ <-? wrapped "record migration %s: %w" (tx_Exec tx ledger_add [Text (Version file)]) ;;
           ret (Ok tt))
  | _ => ret (Err (Errorf "check migration %s: %w" [ErrScan]))
  end.

(** [migrations]: the embedded directory. *)
Definition Migrate (adapter : Adapter S) (migrations : FS) : M S (result unit) :=
  match Read migrations with
  | Err err => ret (Err err)
  | Ok files =>
      for_each files tt
        (fun file _ =>
           tx <- wrapped "begin migration %s: %w" (pool_Begin (pool adapter)) ;;
           match tx with
           | Err err => ret (Return (Err err))
           | Ok tx =>
               r <- applyMigration tx file ;;
               match r with
               | Err err => tx_Rollback tx ;;; ret (Return (Err err))
               | Ok _ =>
                   r <- wrapped "commit migration %s: %w" (tx_Commit tx) ;;
                   match r with
                   | Err err => ret (Return (Err err))
                   | Ok _ => ret (Next tt)
                   end
               end
           end)
        (fun _ => ret (Ok tt))
  end.
End Migrate.

(** ** What the server promises

    Text compares byte by byte and an UPDATE counts the rows it matched. *)
Definition postgresql : dialect := mkDialect (fun s => s) true.

Definition sqlstate (v : violation) : string :=
  match v with
  | DatatypeMismatch => "42804"
  | NotNullViolation => "23502"
  | ForeignKeyViolation => "23503"
  | UniqueViolation => "23505"
  end.

Definition server_error (v : violation) : error := PgError (sqlstate v).

Abbreviation TxContract := (SqlServer.TxContract postgresql tables ErrNoRows uniqueViolation server_error (fun n => n)).
Abbreviation PoolContract := (SqlServer.PoolContract postgresql tables ErrNoRows uniqueViolation server_error (fun n => n)).
Abbreviation runs := (SqlServer.runs postgresql tables).
Abbreviation fails := (SqlServer.fails postgresql tables ErrNoRows uniqueViolation server_error).
Abbreviation ok db := (db_ok postgresql tables db).

Lemma server_error_foreign v : foreign (server_error v).
Proof. intros x Hx. apply String.eqb_neq. intros <-. destruct v; vm_compute in Hx; discriminate Hx. Qed.

Lemma fails_foreign s args db e : fails s args db e -> foreign e.
Proof. apply SqlServer.fails_are_foreign, server_error_foreign. Qed.

(** An error is not that there is no row. *)
Lemma fails_with_rows s args db e : fails s args db e -> errors_Is e ErrNoRows = false.
Proof. intros [(_ & He & _)|(now & v & db1 & _ & ->)]; [done|]. by destruct v. Qed.

Section Effects.
Context (A : Type) `{Entity A} (Hin : entity A ∈ tables) (name : string) (Hname : name = table_name (entity A)).
Context (args : list value) (db : database) (r : reply) (db' : database) (Hok : ok db).

Lemma runs_UPDATE assignments condition returning (p : A -> bool) (f : A -> A) (g : A -> list value) :
  runs (UPDATE name assignments condition returning) args db r db' ->
  (forall now a, matches postgresql db now args condition (to_row a) = p a) ->
  (forall now a, p a = true -> updated postgresql db now args assignments (to_row a) = to_row (f a)) ->
  (forall now a, project postgresql db now args returning [("", to_row (f a))] = g a) ->
  rows_of A db' = (fun a => if p a then f a else a) <$> rows_of A db /\
  r.1.*2 = g <$> List.filter p (rows_of A db) /\ r.2 = length (List.filter p (rows_of A db)) /\
  ok db' /\ others_same db name db'.
Proof.
  intros Hr Hp Hf Hg. eapply (SqlServer.runs_update_rows postgresql tables A) in Hr as (H1 & H2 & H3 & H4); eauto.
Qed.
End Effects.

Abbreviation runs_INSERT A := (SqlServer.runs_INSERT postgresql tables A).
Abbreviation runs_upsert A := (SqlServer.runs_upsert postgresql tables A).
Abbreviation runs_SELECT A := (SqlServer.runs_SELECT postgresql tables A).
Abbreviation runs_DELETE A := (SqlServer.runs_DELETE postgresql tables A).
Lemma postgresql_exact : exact postgresql.
Proof. done. Qed.
Abbreviation bytea_key A := (SqlServer.bytea_key postgresql tables A).
Abbreviation text_key A key c db := (SqlServer.text_key postgresql tables A key c db postgresql_exact).
Abbreviation text_reference A B ka kb c c' db a :=
  (SqlServer.text_reference postgresql tables A B ka kb c c' db a postgresql_exact).
Abbreviation runs_ok := (SqlServer.runs_ok postgresql tables).

(** A call that leaves [P] of the committed database, for a contract over
    states: the pool is idle and the tables are in order. *)
Definition in_order_state {S} (conn : S -> connection) (s : S) : Prop :=
  transaction (conn s) = None /\ ok (committed (conn s)).

Lemma in_order_idle {S} (conn : S -> connection) w : in_order_state conn (ext w) ->
  idle conn (committed (conn (ext w))) w /\ ok (committed (conn (ext w))).
Proof. intros [Ht Hok]. unfold idle. destruct (conn (ext w)); simpl in *. by subst. Qed.

Lemma idle_in_order {S} (conn : S -> connection) db w : idle conn db w -> ok db ->
  in_order_state conn (ext w) /\ committed (conn (ext w)) = db.
Proof. unfold idle, in_order_state. by intros ->. Qed.
