(* ===== verification/PostgresSessions.v ===== *)
(** * Sessions and refresh tokens in PostgreSQL (storage/postgres/sessions.go)

    The stores of cookie sessions and of bearer sessions, and the contracts of
    SessionSpec and BearerSpec for them, with times kept to the microsecond. *)
From Stdlib Require Import Sorting.Sorted.
From S2P Require Import Prelude Token Sql Postgres.
From S2P Require SessionToken RefreshToken AccessToken BearerSession SessionSpec BearerSpec.

(** ** Cookie sessions *)
Section Sessions.
Import SessionToken.
Context {S : Type} `{PgTypes} (adapter : Adapter S).

Definition session_columns : list expr :=
  cols ["id"; "token_hash"; "subject_id"; "created_at"; "expires_at"; "extended_at"; "revoked_at"].

Definition insert_session : statement :=
  INSERT "authlier_sessions"
    [("id", $1); ("token_hash", $2); ("subject_id", $3); ("created_at", $4); ("expires_at", $5);
     ("extended_at", $6); ("revoked_at", $7)] None.

Definition session_values (record : SessionRecord) : list value :=
  [Text (ID record); Bytea (TokenHash record); Text (SubjectID record); time_value (CreatedAt record);
   time_value (ExpiresAt record); optional_time_value (ExtendedAt record); optional_time_value (RevokedAt record)].

Definition SessionStore_Create (record : SessionRecord) : M S (result unit) :=
  r <- pool_Exec (pool adapter) insert_session (session_values record) ;;
  ret (conflicting ErrConflict (ignored r)).

(** The variables of [Scan]: a hash is copied into an array of 32 bytes, which
    is what the columns of hashes are written from. *)
Definition scan_session (row : list value) : result SessionRecord :=
  match row with
  | [Text id; Bytea hash; Text subjectID; Timestamp createdAt; Timestamp expiresAt; extendedAt; revokedAt] =>
      match scan_optional_time extendedAt, scan_optional_time revokedAt with
      | Some extendedAt, Some revokedAt => Ok (mkRecord id subjectID hash createdAt expiresAt extendedAt revokedAt)
      | _, _ => Err ErrScan
      end
  | _ => Err ErrScan
  end.

Definition scanSession (row : result (list value)) : result SessionRecord :=
  or_absent ErrNotFound (match row with Ok row => scan_session row | Err err => Err err end).

Definition SessionStore_FindByTokenHash (tokenHash : Hash) : M S (result SessionRecord) :=
  row <- pool_QueryRow (pool adapter)
    (SELECT session_columns [("", "authlier_sessions")] ("token_hash" = $1) None []) [Bytea tokenHash] ;;
  ret (scanSession row).

(** The loop over the rows. *)
Fixpoint scan_sessions (rows : list (list value)) (records : list SessionRecord) : result (list SessionRecord) :=
  match rows with
  | [] => Ok records
  | row :: rows =>
      match scanSession (Ok row) with
      | Ok record => scan_sessions rows (records ++ [record])
      | Err err => Err err
      end
  end.

Definition read_sessions (query : result (list (list value) * result unit)) : result (list SessionRecord) :=
  match query with
  | Err err => Err err
  | Ok (rows, rows_Err) =>
      match scan_sessions rows [], rows_Err with
      | Err err, _ | _, Err err => Err err
      | Ok records, Ok _ => Ok records
      end
  end.

Definition SessionStore_ListBySubject (subjectID : string) : M S (result (list SessionRecord)) :=
  rows <- pool_Query (pool adapter)
    (SELECT session_columns [("", "authlier_sessions")] ("subject_id" = $1) (Some (col "created_at")) []) [Text subjectID] ;;
  ret (read_sessions rows).

Definition SessionStore_Extend (tokenHash : Hash) (extendedAt expiresAt : time) : M S (result SessionRecord) :=
  row <- pool_QueryRow (pool adapter)
    (UPDATE "authlier_sessions" [("extended_at", $1); ("expires_at", $2)]
       ("token_hash" = $3 AND "revoked_at" IS_NULL AND "expires_at" > $1 AND "expires_at" < $2)
       session_columns)
    [time_value extendedAt; time_value expiresAt; Bytea tokenHash] ;;
  match scanSession row with
  | Err err => if errors_Is err ErrNotFound then ret (Err ErrInactive) else ret (Err err)
  | Ok record => ret (Ok record)
  end.

Definition SessionStore_Rotate (current : Hash) (replacement : SessionRecord) (rotatedAt : time) : M S (result unit) :=
  with_tx (pool adapter) (fun tx =>
    row <- tx_QueryRow tx
      (SELECT (cols ["expires_at"; "revoked_at"]) [("", "authlier_sessions")] ("token_hash" = $1) None [""]) [Bytea current] ;;
    match or_absent ErrNotFound row with
    | Err err => ret (Err err)
    | Ok [Timestamp expiresAt; revokedAt] =>
        if negb (is_null revokedAt) || negb (Before rotatedAt expiresAt) then ret (Err ErrInactive) else
        r <- tx_Exec tx insert_session (session_values replacement) ;;
        match conflicting ErrConflict r with
        | Err err => ret (Err err)
        | Ok _ =>
            _ <-? tx_Exec tx (UPDATE "authlier_sessions" [("revoked_at", $1)] ("token_hash" = $2) [])
                    [time_value rotatedAt; Bytea current] ;;
            commit tx tt
        end
    | Ok _ => ret (Err ErrScan)
    end).

Definition SessionStore_Revoke (tokenHash : Hash) (revokedAt : time) : M S (result unit) :=
  tag <-? pool_Exec (pool adapter)
    (UPDATE "authlier_sessions" [("revoked_at", Coalesce "revoked_at" ($1))] ("token_hash" = $2) [])
    [time_value revokedAt; Bytea tokenHash] ;;
  if (tag =? 0)%nat then ret (Err ErrNotFound) else ret (Ok tt).

Definition SessionStore_RevokeAll (subjectID : string) (revokedAt : time) : M S (result (list SessionRecord)) :=
  rows <- pool_Query (pool adapter)
    (UPDATE "authlier_sessions" [("revoked_at", Coalesce "revoked_at" ($1))] ("subject_id" = $2) session_columns)
    [time_value revokedAt; Text subjectID] ;;
  ret (read_sessions rows).

Definition SessionStore : Store S :=
  {| store_Create := SessionStore_Create;
     store_FindByTokenHash := SessionStore_FindByTokenHash;
     store_ListBySubject := SessionStore_ListBySubject;
     store_Extend := SessionStore_Extend;
     store_Rotate := SessionStore_Rotate;
     store_Revoke := SessionStore_Revoke;
     store_RevokeAll := SessionStore_RevokeAll |}.
End Sessions.

(** ** Sessions as records *)
Section SessionRows.
Import SessionToken.

Definition session_row (r : SessionRecord) : row :=
  [("token_hash", Bytea (TokenHash r)); ("subject_id", Text (SubjectID r)); ("created_at", Timestamp (CreatedAt r));
   ("expires_at", Timestamp (ExpiresAt r)); ("extended_at", nullable Timestamp (ExtendedAt r));
   ("revoked_at", nullable Timestamp (RevokedAt r)); ("id", Text (ID r))].
Arguments session_row r /.

Definition row_session (r : row) : option SessionRecord :=
  match scan_session ((cell r) <$> ["id"; "token_hash"; "subject_id"; "created_at"; "expires_at"; "extended_at"; "revoked_at"]) with
  | Ok a => Some a
  | Err _ => None
  end.

Arguments scan_session row : simpl never.

(** The columns that the statements return. *)
Definition session_cells (a : SessionRecord) : list value :=
  [Text (ID a); Bytea (TokenHash a); Text (SubjectID a); Timestamp (CreatedAt a); Timestamp (ExpiresAt a);
   nullable Timestamp (ExtendedAt a); nullable Timestamp (RevokedAt a)].

Lemma scan_session_ok a : scan_session (session_cells a) = Ok a.
Proof. by destruct a as [? ? ? ? ? [] []]. Qed.

#[export, refine] Instance session_entity : Entity SessionRecord :=
  {| entity := authlier_sessions; to_row := session_row; of_row := row_session |}.
Proof.
  - by intros [? ? ? ? ? [] []].
  - intros r Ht Hc. pose proof (typed_fits _ _ Ht Hc) as Hfits. clear Ht Hc. row_cells Hfits.
    all: match goal with |- exists a, [("token_hash", Bytea ?h); ("subject_id", Text ?s); ("created_at", Timestamp ?c);
      ("expires_at", Timestamp ?e); ("extended_at", ?x); ("revoked_at", ?v); ("id", Text ?i)] = _ =>
      exists (mkRecord i s h c e (match x with Timestamp t => Some t | _ => None end)
                         (match v with Timestamp t => Some t | _ => None end)) end; reflexivity.
Defined.

Definition sessions_of (db : database) : gmap string SessionRecord := by_key TokenHash (rows_of SessionRecord db).

Lemma session_keys db : ok db -> NoDup (TokenHash <$> rows_of SessionRecord db).
Proof. intros Hok. by apply (bytea_key SessionRecord TokenHash "token_hash" db); [done|in_list..|]. Qed.

Lemma scan_sessions_ok (l acc : list SessionRecord) : scan_sessions (session_cells <$> l) acc = Ok (acc ++ l).
Proof.
  revert acc. induction l as [|a l IH]; intros acc; csimpl; [by rewrite app_nil_r|].
  unfold scanSession. rewrite scan_session_ok. simpl. rewrite IH. by rewrite <- app_assoc.
Qed.

Lemma read_sessions_ok l rows : rows ≡ₚ session_cells <$> l ->
  exists l', read_sessions (Ok (rows, Ok tt)) = Ok l' /\ l' ≡ₚ l /\ rows = session_cells <$> l'.
Proof.
  intros (l' & -> & Hl)%Permutation_map_inv. exists l'. change (map session_cells l') with (session_cells <$> l').
  simpl. by rewrite scan_sessions_ok.
Qed.

Lemma read_sessions_late rows e : exists e', read_sessions (Ok (rows, Err e)) = Err e'.
Proof. simpl. destruct (scan_sessions rows []); eauto. Qed.
End SessionRows.

Section SessionEffects.
Import SessionToken SessionSpec.
Context {S : Type} `{PgTypes} (adapter : Adapter S) (conn : S -> connection) `{!PoolContract (pool adapter) conn}.

(** What the columns keep of a record. *)
Definition stored_session (r : SessionRecord) : SessionRecord :=
  mkRecord (ID r) (SubjectID r) (TokenHash r) (microseconds (CreatedAt r)) (microseconds (ExpiresAt r))
    (microseconds <$> ExtendedAt r) (microseconds <$> RevokedAt r).

Lemma runs_insert_session record db r db' :
  runs insert_session (session_values record) db r db' -> ok db ->
  ok db' /\ sessions_of db !! TokenHash record = None /\
  sessions_of db' = <[TokenHash record := stored_session record]> (sessions_of db).
Proof.
  intros Hr Hok. eapply (runs_INSERT SessionRecord) with (a := fun _ => stored_session record) in Hr
    as (_ & Hrows & Hok' & _); [|in_list|done|done|done|].
  - split; [done|]. unfold sessions_of. rewrite Hrows. pose proof (session_keys _ Hok') as Hnd. rewrite Hrows in Hnd.
    by apply by_key_app in Hnd.
  - intros now. sql_eval. unfold optional_time_value. by destruct record as [? ? ? ? ? [] []].
Qed.

Lemma Create_effect record db w : idle conn db w -> ok db ->
  wp (SessionStore_Create adapter record) (leaves conn (fun res db' => ok db' /\
    match res with
    | Ok _ => sessions_of db !! TokenHash record = None /\
              sessions_of db' = <[TokenHash record := stored_session record]> (sessions_of db)
    | Err _ => db' = db
    end)) w.
Proof.
  intros Hw Hok. unfold SessionStore_Create. wp_go. eapply wp_pool_Exec; [done|exact Hw| |].
  - intros r db' w' Hw' Hr. wp_go. exists db'. split; [done|]. by apply runs_insert_session in Hr.
  - intros e w' Hw' _. wp_go. exists db. split; [done|]. simpl. by destruct (uniqueViolation e).
Qed.

Lemma select_sessions targets condition order_by locks (p : SessionRecord -> bool) (g : SessionRecord -> list value) args db r db' :
  runs (SELECT targets [("", "authlier_sessions")] condition order_by locks) args db r db' -> ok db ->
  (forall now a, matches postgresql db now args condition (session_row a) = p a) ->
  (forall now a, project postgresql db now args targets [("", session_row a)] = g a) ->
  db' = db /\ r.1.*2 = g <$> List.filter p (rows_of SessionRecord db).
Proof. intros Hr Hok Hp Hg. eapply (runs_SELECT SessionRecord) in Hr; [exact Hr|in_list|done|done|done|done]. Qed.

Lemma Find_effect h db w : idle conn db w -> ok db ->
  wp (SessionStore_FindByTokenHash adapter h)
    (leaves conn (fun res db' => db' = db /\ forall a, res = Ok a -> sessions_of db !! h = Some a)) w.
Proof.
  intros Hw Hok. unfold SessionStore_FindByTokenHash. wp_go. eapply wp_pool_QueryRow; [done|exact Hw|..].
  - intros r row db' w' Hw' Hr Hin. wp_go. exists db'. split; [done|].
    eapply select_sessions with (p := fun a => bool_decide (TokenHash a = h)) (g := session_cells) in Hr as [-> Hr]; [|done|by intros; sql_eval..].
    split; [done|]. rewrite Hr in Hin. apply list_elem_of_fmap in Hin as (a & -> & [Ha Hh]%elem_of_List_filter). go_bool.
    unfold scanSession. rewrite scan_session_ok. simpl. intros ? [= <-]. by apply by_key_Some; [by apply session_keys|].
  - intros r db' w' Hw' Hr _. wp_go. exists db'. split; [done|].
    eapply select_sessions with (p := fun a => bool_decide (TokenHash a = h)) (g := session_cells) in Hr as [-> _]; [|done|by intros; sql_eval..].
    done.
  - intros e w' Hw' _. wp_go. exists db. do 2 (split; [done|]). intros a. unfold scanSession. simpl. by destruct (errors_Is e ErrNoRows).
Qed.

(** Rows come back in the order of their creation, latest first. *)
Lemma List_effect subject db w : idle conn db w -> ok db ->
  wp (SessionStore_ListBySubject adapter subject)
    (leaves conn (fun res db' => db' = db /\ forall l, res = Ok l ->
       l ≡ₚ List.filter (fun a => bool_decide (SubjectID a = subject)) (rows_of SessionRecord db))) w.
Proof.
  intros Hw Hok. unfold SessionStore_ListBySubject. wp_go.
  eapply wp_pool_Query; [done|exact Hw|..].
  - intros r rows db' w' Hw' Hr Hperm Hord. wp_go. exists db'. split; [done|].
    eapply select_sessions with (p := fun a => bool_decide (SubjectID a = subject)) (g := session_cells) in Hr as [-> Hr];
      [|done|by intros; sql_eval..].
    split; [done|]. destruct (read_sessions_ok (List.filter (fun a => bool_decide (SubjectID a = subject)) (rows_of SessionRecord db)) rows.*2)
      as (l' & -> & Hl' & _); [by rewrite <- Hr, Hperm|]. by intros l [= <-].
  - intros rows e w' Hw'. wp_go. exists db. do 2 (split; [done|]). by destruct (read_sessions_late rows e) as [e' ->].
  - intros e w' Hw' _. wp_go. by exists db.
Qed.

Lemma runs_update_sessions assignments condition returning args db r db' (p : SessionRecord -> bool) (f : SessionRecord -> SessionRecord) g :
  runs (UPDATE "authlier_sessions" assignments condition returning) args db r db' -> ok db ->
  (forall now a, matches postgresql db now args condition (session_row a) = p a) ->
  (forall now a, p a = true -> updated postgresql db now args assignments (session_row a) = session_row (f a)) ->
  (forall now a, project postgresql db now args returning [("", session_row (f a))] = g a) ->
  rows_of SessionRecord db' = (fun a => if p a then f a else a) <$> rows_of SessionRecord db /\
  r.1.*2 = g <$> List.filter p (rows_of SessionRecord db) /\ r.2 = length (List.filter p (rows_of SessionRecord db)) /\
  ok db'.
Proof.
  intros Hr Hok Hp Hf Hg. eapply (runs_UPDATE SessionRecord) in Hr; [|in_list|done|done|done|done|done]. tauto.
Qed.

Lemma is_null_RevokedAt (a : SessionRecord) : is_null (nullable Timestamp (RevokedAt a)) = bool_decide (RevokedAt a = None).
Proof. by destruct (RevokedAt a). Qed.

Lemma Extend_effect h extendedAt expiresAt db w : idle conn db w -> ok db ->
  wp (SessionStore_Extend adapter h extendedAt expiresAt) (leaves conn (fun res db' => ok db' /\
    match res with
    | Ok a' => exists a, sessions_of db !! h = Some a /\ RevokedAt a = None /\
        (microseconds extendedAt < ExpiresAt a < microseconds expiresAt)%Z /\
        a' = extend_record (microseconds extendedAt) (microseconds expiresAt) a /\
        sessions_of db' = <[h := a']> (sessions_of db)
    | Err _ => sessions_of db' = sessions_of db
    end)) w.
Proof.
  intros Hw Hok. unfold SessionStore_Extend.
  set (extend := extend_record (microseconds extendedAt) (microseconds expiresAt)).
  set (p := fun a : SessionRecord => bool_decide (TokenHash a = h) && (bool_decide (RevokedAt a = None) &&
    ((microseconds extendedAt <? ExpiresAt a)%Z && (ExpiresAt a <? microseconds expiresAt)%Z))).
  assert (Hrun : forall r db', runs (UPDATE "authlier_sessions" [("extended_at", $1); ("expires_at", $2)]
       ("token_hash" = $3 AND "revoked_at" IS_NULL AND "expires_at" > $1 AND "expires_at" < $2)
       session_columns) [time_value extendedAt; time_value expiresAt; Bytea h] db r db' ->
    rows_of SessionRecord db' = (fun a => if p a then extend a else a) <$> rows_of SessionRecord db /\
    r.1.*2 = (fun a => session_cells (extend a)) <$> List.filter p (rows_of SessionRecord db) /\ ok db').
  { intros r db' Hr. eapply runs_update_sessions with (p := p) (f := extend) (g := fun a => session_cells (extend a)) in Hr;
      [tauto|done|..]; intros now a; [|by intros _; sql_eval|by sql_eval].
    unfold p. sql_eval. by rewrite is_null_RevokedAt. }
  assert (Hkeys := session_keys db Hok). wp_go. eapply wp_pool_QueryRow; [done|exact Hw|..].
  - intros r row db' w' Hw' (Hrows & Hr & Hok')%Hrun Hin. rewrite Hr in Hin.
    apply list_elem_of_fmap in Hin as (a & -> & [Ha Hp]%elem_of_List_filter).
    unfold scanSession. rewrite scan_session_ok. cbn [or_absent]. wp_go. exists db'. split; [done|]. split; [done|]. exists a.
    pose proof Hp as Hp'. unfold p in Hp'. go_bool. subst h.
    assert (Hat : sessions_of db !! TokenHash a = Some a) by by apply by_key_Some.
    split_and!; try done. unfold sessions_of. rewrite Hrows.
    apply by_key_update with (a := a); [done|by intros []| |done|done]. intros b Hb. unfold p in Hb. by go_bool.
  - intros r db' w' Hw' (Hrows & Hr & Hok')%Hrun Hnil. rewrite Hnil in Hr. symmetry in Hr. apply fmap_nil_inv in Hr.
    unfold scanSession. simpl. wp_go. exists db'. split; [done|]. split; [done|]. unfold sessions_of. rewrite Hrows. by rewrite update_none.
  - intros e w' Hw' _. unfold scanSession. simpl. destruct (errors_Is e ErrNoRows); simpl; [wp_go; by exists db|].
    destruct (errors_Is e ErrNotFound); wp_go; by exists db.
Qed.

Definition revoke_stored (revokedAt : time) : SessionRecord -> SessionRecord := revoke_record (microseconds revokedAt).

(** UPDATE ... SET revoked_at = COALESCE(revoked_at, $1) *)
Lemma revoke_cell revokedAt a :
  (if is_null (nullable Timestamp (RevokedAt a)) then time_value revokedAt else nullable Timestamp (RevokedAt a)) =
  nullable Timestamp (RevokedAt (revoke_stored revokedAt a)).
Proof. unfold revoke_stored, revoke_record. by destruct (RevokedAt a). Qed.

Lemma Revoke_effect h revokedAt db w : idle conn db w -> ok db ->
  wp (SessionStore_Revoke adapter h revokedAt) (leaves conn (fun res db' => ok db' /\
    match res with
    | Ok _ => exists a, sessions_of db !! h = Some a /\ sessions_of db' = <[h := revoke_stored revokedAt a]> (sessions_of db)
    | Err _ => sessions_of db' = sessions_of db
    end)) w.
Proof.
  intros Hw Hok. unfold SessionStore_Revoke. set (p := fun a : SessionRecord => bool_decide (TokenHash a = h)).
  assert (Hkeys := session_keys db Hok). wp_go. eapply wp_pool_Exec; [done|exact Hw|..].
  - intros r db' w' Hw' Hr.
    eapply runs_update_sessions with (p := p) (f := revoke_stored revokedAt) (g := fun _ => []) in Hr as (Hrows & _ & Hn & Hok');
      [|done|by intros; sql_eval|intros now a _; sql_eval; by rewrite revoke_cell|by intros].
    rewrite (filter_by_key TokenHash p _ h) in Hn; [|done|by intros b Hb; unfold p in Hb; go_bool].
    fold (sessions_of db) in Hn. destruct (sessions_of db !! h) as [a|] eqn:Ha.
    + assert (Hp : p a = true) by (unfold p; apply by_key_Some in Ha as [_ <-]; [by apply bool_decide_eq_true|done]).
      rewrite Hp in Hn. rewrite Hn. cbn. wp_go. exists db'. split; [done|]. split; [done|]. exists a. split; [done|].
      unfold sessions_of. rewrite Hrows. apply by_key_update with (a := a); try done. intros b Hb. unfold p in Hb. by go_bool.
    + rewrite Hn. cbn. wp_go. exists db'. split; [done|]. split; [done|]. unfold sessions_of. rewrite Hrows, update_none; [done|].
      rewrite (filter_by_key TokenHash p _ h); [|done|by intros b Hb; unfold p in Hb; go_bool].
      fold (sessions_of db). by rewrite Ha.
  - intros e w' Hw' _. wp_go. by exists db.
Qed.

Lemma RevokeAll_effect subject revokedAt db w : idle conn db w -> ok db ->
  wp (SessionStore_RevokeAll adapter subject revokedAt) (leaves conn (fun res db' => ok db' /\
    match res with
    | Ok l => sessions_of db' = revoke_subject subject (microseconds revokedAt) <$> sessions_of db /\
        l ≡ₚ List.filter (fun a => bool_decide (SubjectID a = subject)) (rows_of SessionRecord db')
    | Err _ => sessions_of db' = sessions_of db
    end)) w.
Proof.
  intros Hw Hok. unfold SessionStore_RevokeAll. set (p := fun a : SessionRecord => bool_decide (SubjectID a = subject)).
  assert (Hp : forall a, p (revoke_stored revokedAt a) = p a) by done.
  wp_go. eapply wp_pool_Query; [done|exact Hw|..].
  - intros r rows db' w' Hw' Hr Hperm _. wp_go. exists db'. split; [done|].
    eapply runs_update_sessions with (p := p) (f := revoke_stored revokedAt)
      (g := fun a => session_cells (revoke_stored revokedAt a)) in Hr as (Hrows & Hr & _ & Hok');
      [|done|by intros; sql_eval|intros now a _; sql_eval; by rewrite revoke_cell|by intros; sql_eval].
    split; [done|].
    assert (Hall : List.filter p (rows_of SessionRecord db') = revoke_stored revokedAt <$> List.filter p (rows_of SessionRecord db)).
    { rewrite Hrows. clear -Hp. induction (rows_of SessionRecord db) as [|a l IH]; [done|]. csimpl.
      destruct (p a) eqn:E; [rewrite Hp, E; csimpl; by f_equal|by rewrite E]. }
    destruct (read_sessions_ok (revoke_stored revokedAt <$> List.filter p (rows_of SessionRecord db)) rows.*2)
      as (l' & -> & Hl' & _); [by rewrite <- list_fmap_compose, Hperm, Hr|].
    split; [|by rewrite Hl', <- Hall]. unfold sessions_of. rewrite Hrows, by_key_fmap by (intros a; by destruct (p a)).
    apply map_fmap_ext. intros k a _. unfold revoke_subject, p, revoke_stored.
    destruct (decide (SubjectID a = subject)) as [E|E].
    + rewrite bool_decide_eq_true_2 by done. by rewrite (proj2 (String.eqb_eq _ _) E).
    + rewrite bool_decide_eq_false_2 by done. by rewrite (proj2 (String.eqb_neq _ _) E).
  - intros rows e w' Hw'. wp_go. exists db. do 2 (split; [done|]). by destruct (read_sessions_late rows e) as [e' ->].
  - intros e w' Hw' _. wp_go. by exists db.
Qed.

Lemma Rotate_effect h replacement rotatedAt db w : idle conn db w -> ok db ->
  wp (SessionStore_Rotate adapter h replacement rotatedAt) (leaves conn (fun res db' => ok db' /\
    match res with
    | Ok _ => exists a, sessions_of db !! h = Some a /\ sessions_of db !! TokenHash replacement = None /\
        RevokedAt a = None /\ (rotatedAt < ExpiresAt a)%Z /\
        sessions_of db' = <[TokenHash replacement := stored_session replacement]>
          (<[h := mkRecord (ID a) (SubjectID a) (TokenHash a) (CreatedAt a) (ExpiresAt a) (ExtendedAt a) (Some (microseconds rotatedAt))]>
             (sessions_of db))
    | Err _ => db' = db
    end)) w.
Proof.
  intros Hw Hok. assert (Hkeys := session_keys db Hok). unfold SessionStore_Rotate.
  eapply wp_with_tx; [done|exact Hw|done|]. intros tx w1 Htx Hw1. wp_go. eapply wp_tx_QueryRow; [done|exact Hw1|..].
  - intros r row db1 w2 Hw2 Hr Hin.
    eapply select_sessions with (p := fun a => bool_decide (TokenHash a = h))
      (g := fun a => [Timestamp (ExpiresAt a); nullable Timestamp (RevokedAt a)]) in Hr as [-> Hr]; [|done|by intros; sql_eval..].
    rewrite Hr in Hin. apply list_elem_of_fmap in Hin as (a & -> & [Ha Hh]%elem_of_List_filter). go_bool. subst h.
    assert (Hat : sessions_of db !! TokenHash a = Some a) by by apply by_key_Some.
    cbn [or_absent]. rewrite is_null_RevokedAt. wp_go; [by left_in db|].
    apply orb_false_iff in Heqb as [Hrev Hbefore]. go_bool.
    eapply wp_tx_Exec; [done|exact Hw2|..].
    + intros r2 db2 w3 Hw3 Hr2. apply runs_insert_session in Hr2 as (Hok2 & Hnone & Hins); [|done]. cbn. wp_go.
      eapply wp_tx_Exec; [done|exact Hw3|..].
      * intros r3 db3 w4 Hw4 Hr3. wp_go. eapply wp_commit; [done|exact Hw4| |done].
        eapply runs_update_sessions with (p := fun b => bool_decide (TokenHash b = TokenHash a))
          (f := fun b => mkRecord (ID b) (SubjectID b) (TokenHash b) (CreatedAt b) (ExpiresAt b) (ExtendedAt b) (Some (microseconds rotatedAt)))
          (g := fun _ => []) in Hr3 as (Hrows & _ & _ & Hok3); [|done|by intros; sql_eval|by intros; sql_eval|by intros].
        split; [done|]. exists a. split_and!; try done. assert (Hne : TokenHash replacement <> TokenHash a) by congruence.
        rewrite insert_insert_ne, <- Hins by done. unfold sessions_of. rewrite Hrows.
        eapply by_key_update with (a := a); [by apply session_keys|done|intros b Hb; by go_bool| |by apply bool_decide_eq_true].
        fold (sessions_of db2). by rewrite Hins, lookup_insert_ne.
      * intros e w4 Hw4 _. wp_go. by exists db.
    + intros e w3 Hw3 _. unfold conflicting. destruct (uniqueViolation e); wp_go; by exists db.
  - intros r db1 w2 Hw2 Hr _.
    eapply select_sessions with (p := fun a => bool_decide (TokenHash a = h))
      (g := fun a => [Timestamp (ExpiresAt a); nullable Timestamp (RevokedAt a)]) in Hr as [-> Hr]; [|done|by intros; sql_eval..].
    cbn. wp_go. by left_in db.
  - intros e w2 Hw2 _. cbn. destruct (errors_Is e ErrNoRows); wp_go; by exists db.
Qed.

(** ** The contract *)
Definition session_view (s : S) : sessions_state := mkState (sessions_of (committed (conn s))) ∅.

Ltac contract_step Heff :=
  let Hw := fresh "Hw" in let Hok := fresh "Hok" in
  match goal with H : in_order_state _ _ |- _ => destruct (in_order_idle _ _ H) as [Hw Hok] end;
  eapply wp_mono; [by apply Heff|]; intros res w' (db' & Hw' & Hpost).

Lemma postgres_sessions_keep_contract :
  KeptStoreContract stored_session microseconds microseconds (SessionStore adapter) (in_order_state conn) session_view.
Proof.
  split; simpl.
  - intros w h r [_ Hok] Hr. simpl in Hr. apply by_key_Some in Hr as [_ ?]; [done|]. by apply session_keys.
  - intros r w Hwf. contract_step Create_effect. destruct Hpost as [Hok' Hpost].
    destruct (idle_in_order conn db' w' Hw' Hok') as [Hwf' Hdb']. split; [done|]. unfold session_view. rewrite Hdb'.
    destruct res as [[]|e]; [|by rewrite Hpost]. by destruct Hpost.
  - intros h w Hwf. contract_step Find_effect. destruct Hpost as [-> Hpost].
    destruct (idle_in_order conn _ w' Hw' Hok) as [Hwf' Hdb']. split; [done|]. unfold session_view. by rewrite Hdb'.
  - intros subject w Hwf. contract_step List_effect. destruct Hpost as [-> Hpost].
    destruct (idle_in_order conn _ w' Hw' Hok) as [Hwf' Hdb']. split; [done|]. unfold session_view. rewrite Hdb'.
    split; [done|]. intros l Hl a. rewrite (Hpost l Hl), elem_of_List_filter, bool_decide_eq_true. simpl.
    unfold sessions_of. rewrite by_key_Some by by apply session_keys. tauto.
  - intros h now expires w Hwf. contract_step Extend_effect. destruct Hpost as [Hok' Hpost].
    destruct (idle_in_order conn db' w' Hw' Hok') as [Hwf' Hdb']. split; [done|]. unfold session_view. rewrite Hdb'. simpl.
    destruct res as [a'|e]; [|by rewrite Hpost].
    destruct Hpost as (a & ? & ? & ? & ? & ?). by exists a.
  - intros h r now w Hwf. contract_step Rotate_effect. destruct Hpost as [Hok' Hpost].
    destruct (idle_in_order conn db' w' Hw' Hok') as [Hwf' Hdb']. split; [done|]. unfold session_view. rewrite Hdb'. simpl.
    destruct res as [[]|e]; [|by rewrite Hpost].
    destruct Hpost as (a & Ha & Hnone & Hrev & Hlt & Hrows). exists a. split_and!; try done.
    rewrite Hrows. do 2 f_equal. unfold revoke_record. by rewrite Hrev.
  - intros h now w Hwf. contract_step Revoke_effect. destruct Hpost as [Hok' Hpost].
    destruct (idle_in_order conn db' w' Hw' Hok') as [Hwf' Hdb']. split; [done|]. unfold session_view. rewrite Hdb'. simpl.
    destruct res as [[]|e]; [|by rewrite Hpost].
    destruct Hpost as (a & ? & ?). by exists a.
  - intros subject now w Hwf. contract_step RevokeAll_effect. destruct Hpost as [Hok' Hpost].
    destruct (idle_in_order conn db' w' Hw' Hok') as [Hwf' Hdb']. split; [done|]. unfold session_view. rewrite Hdb'. simpl.
    destruct res as [l|e]; [|by rewrite Hpost].
    destruct Hpost as [Hrows Hl]. split_and!; [done|done|]. intros r.
    rewrite <- Hrows, Hl, elem_of_List_filter, bool_decide_eq_true. unfold sessions_of at 1.
    rewrite by_key_Some by by apply session_keys. tauto.
Qed.
End SessionEffects.

(** ** Bearer sessions and their refresh tokens *)
Section Bearer.
Import BearerSession RefreshToken.
Context {S : Type} `{PgTypes} (adapter : Adapter S).

Definition access_columns : list expr := cols ["id"; "subject_id"; "created_at"; "expires_at"; "revoked_at"].

Definition insert_access_session : statement :=
  INSERT "authlier_access_sessions"
    [("id", $1); ("subject_id", $2); ("created_at", $3); ("expires_at", $4); ("revoked_at", $5)] None.

Definition access_values (session : AccessSession) : list value :=
  [Text (as_ID session); Text (as_SubjectID session); time_value (as_CreatedAt session);
   time_value (as_ExpiresAt session); optional_time_value (as_RevokedAt session)].

Definition insert_refresh_token : statement :=
  INSERT "authlier_refresh_tokens"
    [("token_hash", $1); ("session_id", $2); ("created_at", $3); ("expires_at", $4); ("rotated_at", $5);
     ("revoked_at", $6)] None.

Definition refresh_values (record : RefreshRecord) : list value :=
  [Bytea (TokenHash record); Text (SessionID record); time_value (CreatedAt record); time_value (ExpiresAt record);
   optional_time_value (RotatedAt record); optional_time_value (RevokedAt record)].

Definition AccessSessionStore_CreateSession (session : AccessSession) (refreshToken : RefreshRecord) : M S (result unit) :=
  with_tx (pool adapter) (fun tx =>
    _ <-? tx_Exec tx insert_access_session (access_values session) ;;
    _ <-? tx_Exec tx insert_refresh_token (refresh_values refreshToken) ;;
    commit tx tt).

Definition AccessSessionStore_ResolveSession (sessionID : string) : M S (result AccessToken.Session) :=
  row <-? pool_QueryRow (pool adapter)
    (SELECT (cols ["id"; "subject_id"; "created_at"; "expires_at"]) [("", "authlier_access_sessions")]
       ("id" = $1 AND "revoked_at" IS_NULL AND "expires_at" > CurrentTimestamp) None []) [Text sessionID] ;;
  match row with
  | [Text id; Text subjectID; Timestamp createdAt; Timestamp expiresAt] =>
      ret (Ok (AccessToken.mkSession id subjectID createdAt expiresAt))
  | _ => ret (Err ErrScan)
  end.

Definition scan_access (row : list value) : result AccessSession :=
  match row with
  | [Text id; Text subjectID; Timestamp createdAt; Timestamp expiresAt; revokedAt] =>
      match scan_optional_time revokedAt with
      | Some revokedAt => Ok (mkAccess id subjectID createdAt expiresAt revokedAt)
      | None => Err ErrScan
      end
  | _ => Err ErrScan
  end.

(** The loop over the rows. *)
Fixpoint scan_accesses (rows : list (list value)) (records : list AccessSession) : result (list AccessSession) :=
  match rows with
  | [] => Ok records
  | row :: rows =>
      match scan_access row with
      | Ok record => scan_accesses rows (records ++ [record])
      | Err err => Err err
      end
  end.

Definition AccessSessionStore_ListBySubject (subjectID : string) : M S (result (list AccessSession)) :=
  query <-? pool_Query (pool adapter)
    (SELECT access_columns [("", "authlier_access_sessions")] ("subject_id" = $1) (Some (col "created_at")) [])
    [Text subjectID] ;;
  let '(rows, rows_Err) := query in
  match scan_accesses rows [], rows_Err with
  | Err err, _ | _, Err err => ret (Err err)
  | Ok records, Ok _ => ret (Ok records)
  end.

Definition revokeAccessSession (tx : Tx S) (sessionID : string) (revokedAt : time) : M S (result unit) :=
  _ <-? tx_Exec tx (UPDATE "authlier_access_sessions" [("revoked_at", Coalesce "revoked_at" ($1))] ("id" = $2) [])
          [time_value revokedAt; Text sessionID] ;;
  _ <-? tx_Exec tx (UPDATE "authlier_refresh_tokens" [("revoked_at", Coalesce "revoked_at" ($1))] ("session_id" = $2) [])
          [time_value revokedAt; Text sessionID] ;;
  ret (Ok tt).

Definition AccessSessionStore_Revoke (sessionID : string) (revokedAt : time) : M S (result unit) :=
  with_tx (pool adapter) (fun tx =>
    _ <-? revokeAccessSession tx sessionID revokedAt ;;
    commit tx tt).

Definition AccessSessionStore_RevokeAll (subjectID : string) (revokedAt : time) : M S (result unit) :=
  with_tx (pool adapter) (fun tx =>
    _ <-? tx_Exec tx
      (UPDATE "authlier_refresh_tokens" [("revoked_at", Coalesce "revoked_at" ($1))]
         (InSelect "session_id" "id" [("", "authlier_access_sessions")] ("subject_id" = $2)) [])
      [time_value revokedAt; Text subjectID] ;;
    _ <-? tx_Exec tx
      (UPDATE "authlier_access_sessions" [("revoked_at", Coalesce "revoked_at" ($1))] ("subject_id" = $2) [])
      [time_value revokedAt; Text subjectID] ;;
    commit tx tt).

Definition RefreshTokenStore_Create (record : RefreshRecord) : M S (result unit) :=
  r <- pool_Exec (pool adapter) insert_refresh_token (refresh_values record) ;;
  ret (conflicting ErrConflict (ignored r)).

Definition scan_refresh (row : list value) : result RefreshRecord :=
  match row with
  | [Bytea hash; Text sessionID; Timestamp createdAt; Timestamp expiresAt; rotatedAt; revokedAt] =>
      match scan_optional_time rotatedAt, scan_optional_time revokedAt with
      | Some rotatedAt, Some revokedAt => Ok (mkRefresh sessionID hash createdAt expiresAt rotatedAt revokedAt)
      | _, _ => Err ErrScan
      end
  | _ => Err ErrScan
  end.

Definition RefreshTokenStore_FindByTokenHash (tokenHash : Hash) : M S (result RefreshRecord) :=
  row <- pool_QueryRow (pool adapter)
    (SELECT (cols ["token_hash"; "session_id"; "created_at"; "expires_at"; "rotated_at"; "revoked_at"])
       [("", "authlier_refresh_tokens")] ("token_hash" = $1) None []) [Bytea tokenHash] ;;
  ret (or_absent ErrNotFound (match row with Ok row => scan_refresh row | Err err => Err err end)).

Definition RefreshTokenStore_Rotate (current : Hash) (replacement : RefreshRecord) (rotatedAt : time) : M S (result unit) :=
  with_tx (pool adapter) (fun tx =>
    row <- tx_QueryRow tx
      (SELECT (cols ["session_id"; "expires_at"; "rotated_at"; "revoked_at"]) [("", "authlier_refresh_tokens")]
         ("token_hash" = $1) None [""]) [Bytea current] ;;
    match or_absent ErrNotFound row with
    | Err err => ret (Err err)
    | Ok [Text sessionID; Timestamp expiresAt; previousRotation; revokedAt] =>
        if negb (is_null previousRotation) || negb (is_null revokedAt) || negb (Before rotatedAt expiresAt) then
          _ <-? revokeAccessSession tx sessionID rotatedAt ;;
          _ <-? tx_Commit tx ;;
          ret (Err ErrReuseDetected)
        else
        r <- tx_Exec tx
          (INSERT "authlier_refresh_tokens"
             [("token_hash", $1); ("session_id", $2); ("created_at", $3); ("expires_at", $4)] None)
          [Bytea (TokenHash replacement); Text (SessionID replacement); time_value (CreatedAt replacement);
           time_value (ExpiresAt replacement)] ;;
        match conflicting ErrConflict r with
        | Err err => ret (Err err)
        | Ok _ =>
            _ <-? tx_Exec tx (UPDATE "authlier_refresh_tokens" [("rotated_at", $1)] ("token_hash" = $2) [])
                    [time_value rotatedAt; Bytea current] ;;
            commit tx tt
        end
    | Ok _ => ret (Err ErrScan)
    end).

Definition RefreshTokenStore_RevokeSession (sessionID : string) (revokedAt : time) : M S (result unit) :=
  with_tx (pool adapter) (fun tx =>
    _ <-? revokeAccessSession tx sessionID revokedAt ;;
    commit tx tt).

Definition RefreshTokenStore : RefreshToken.Store S :=
  {| store_Create := RefreshTokenStore_Create;
     store_FindByTokenHash := RefreshTokenStore_FindByTokenHash;
     store_Rotate := RefreshTokenStore_Rotate;
     store_RevokeSession := RefreshTokenStore_RevokeSession |}.

Definition AccessSessionStore_ : AccessSessionStore S :=
  {| access_ResolveSession := AccessSessionStore_ResolveSession;
     access_CreateSession := AccessSessionStore_CreateSession;
     access_ListBySubject := AccessSessionStore_ListBySubject;
     access_Revoke := AccessSessionStore_Revoke;
     access_RevokeAll := AccessSessionStore_RevokeAll |}.
End Bearer.

Section BearerRows.
Import BearerSession RefreshToken.

Definition access_row (a : AccessSession) : row :=
  [("id", Text (as_ID a)); ("subject_id", Text (as_SubjectID a)); ("created_at", Timestamp (as_CreatedAt a));
   ("expires_at", Timestamp (as_ExpiresAt a)); ("revoked_at", nullable Timestamp (as_RevokedAt a))].
Definition refresh_row (r : RefreshRecord) : row :=
  [("token_hash", Bytea (TokenHash r)); ("session_id", Text (SessionID r)); ("created_at", Timestamp (CreatedAt r));
   ("expires_at", Timestamp (ExpiresAt r)); ("rotated_at", nullable Timestamp (RotatedAt r));
   ("revoked_at", nullable Timestamp (RevokedAt r))].
Arguments access_row a /.
Arguments refresh_row r /.
Arguments scan_access row : simpl never.
Arguments scan_refresh row : simpl never.

Definition access_cells (a : AccessSession) : list value := (access_row a).*2.
Definition refresh_cells (r : RefreshRecord) : list value := (refresh_row r).*2.

Lemma scan_access_ok a : scan_access (access_cells a) = Ok a.
Proof. by destruct a as [? ? ? ? []]. Qed.
Lemma scan_refresh_ok r : scan_refresh (refresh_cells r) = Ok r.
Proof. by destruct r as [? ? ? ? [] []]. Qed.

Definition of_result {A} (r : result A) : option A := match r with Ok a => Some a | Err _ => None end.
Definition optional_of (v : value) : option time := match v with Timestamp t => Some t | _ => None end.

#[export, refine] Instance access_entity : Entity AccessSession :=
  {| entity := authlier_access_sessions; to_row := access_row; of_row r := of_result (scan_access r.*2) |}.
Proof.
  - intros a. change (of_result (scan_access (access_cells a)) = Some a). by rewrite scan_access_ok.
  - intros r Ht Hc. pose proof (typed_fits _ _ Ht Hc) as Hfits. clear Ht Hc. row_cells Hfits.
    all: match goal with |- exists a, [("id", Text ?i); ("subject_id", Text ?s); ("created_at", Timestamp ?c);
      ("expires_at", Timestamp ?e); ("revoked_at", ?v)] = _ => exists (mkAccess i s c e (optional_of v)) end; reflexivity.
Defined.

#[export, refine] Instance refresh_entity : Entity RefreshRecord :=
  {| entity := authlier_refresh_tokens; to_row := refresh_row; of_row r := of_result (scan_refresh r.*2) |}.
Proof.
  - intros r. change (of_result (scan_refresh (refresh_cells r)) = Some r). by rewrite scan_refresh_ok.
  - intros r Ht Hc. pose proof (typed_fits _ _ Ht Hc) as Hfits. clear Ht Hc. row_cells Hfits.
    all: match goal with |- exists a, [("token_hash", Bytea ?h); ("session_id", Text ?s); ("created_at", Timestamp ?c);
      ("expires_at", Timestamp ?e); ("rotated_at", ?x); ("revoked_at", ?v)] = _ =>
      exists (mkRefresh s h c e (optional_of x) (optional_of v)) end; reflexivity.
Defined.

Definition access_of (db : database) : gmap string AccessSession := by_key as_ID (rows_of AccessSession db).
Definition tokens_of (db : database) : gmap string RefreshRecord := by_key TokenHash (rows_of RefreshRecord db).

Lemma access_keys db : ok db -> NoDup (as_ID <$> rows_of AccessSession db).
Proof. intros Hok. by apply (text_key AccessSession as_ID "id" db); [done|in_list..|]. Qed.
Lemma token_keys db : ok db -> NoDup (TokenHash <$> rows_of RefreshRecord db).
Proof. intros Hok. by apply (bytea_key RefreshRecord TokenHash "token_hash" db); [done|in_list..|]. Qed.

(** A refresh token belongs to a session. *)
Lemma token_session db h r : ok db -> tokens_of db !! h = Some r ->
  exists a, access_of db !! SessionID r = Some a /\ as_ID a = SessionID r.
Proof.
  intros Hok [Hr _]%by_key_Some; [|by apply token_keys].
  destruct (text_reference RefreshRecord AccessSession SessionID as_ID "session_id" "id" db r) as (a & Ha & E);
    [done|in_list|in_list|in_list|done|done|done|]. exists a. split; [|done]. by apply by_key_Some; [apply access_keys|].
Qed.
End BearerRows.

Section BearerEffects.
Import BearerSpec BearerSession RefreshToken.
Context {S : Type} `{PgTypes} (adapter : Adapter S) (conn : S -> connection) `{!PoolContract (pool adapter) conn}.

Definition bearer_of (db : database) : bearer_state := mkBearer (access_of db) (tokens_of db).

Lemma bearer_eq s s' : sessions s = sessions s' -> tokens s = tokens s' -> s = s'.
Proof. destruct s, s'. simpl. by intros -> ->. Qed.

Lemma tokens_revoked ids at_ db db' (p : RefreshRecord -> bool) : ok db ->
  rows_of RefreshRecord db' = (fun r => if p r then revoke_token at_ r else r) <$> rows_of RefreshRecord db ->
  (forall r a, access_of db !! SessionID r = Some a -> as_ID a = SessionID r -> p r = ids a) ->
  tokens_of db' = tokens (revoke_where ids at_ (bearer_of db)).
Proof.
  intros Hok Hrows Hp. unfold tokens_of. rewrite Hrows, by_key_fmap by (intros r; by destruct (p r)).
  simpl. apply map_fmap_ext. intros h r Hr. destruct (token_session db h r Hok Hr) as (a & Ha & E).
  rewrite Ha, (Hp r a) by done. done.
Qed.

Lemma accesses_revoked (ids : AccessSession -> bool) at_ db db' :
  rows_of AccessSession db' = (fun a => if ids a then revoke_access at_ a else a) <$> rows_of AccessSession db ->
  access_of db' = sessions (revoke_where ids at_ (bearer_of db)).
Proof. intros Hrows. unfold access_of. rewrite Hrows, by_key_fmap; [done|]. intros a. by destruct (ids a). Qed.

Lemma runs_update_access assignments condition args db r db' (p : AccessSession -> bool) (f : AccessSession -> AccessSession) :
  runs (UPDATE "authlier_access_sessions" assignments condition []) args db r db' -> ok db ->
  (forall now a, matches postgresql db now args condition (access_row a) = p a) ->
  (forall now a, p a = true -> updated postgresql db now args assignments (access_row a) = access_row (f a)) ->
  rows_of AccessSession db' = (fun a => if p a then f a else a) <$> rows_of AccessSession db /\
  rows_of RefreshRecord db' = rows_of RefreshRecord db /\ ok db'.
Proof.
  intros Hr Hok Hp Hf. eapply (runs_UPDATE AccessSession) with (g := fun _ => []) in Hr
    as (Hrows & _ & _ & Hok' & Hs); [|in_list|done|done|done|done|done].
  split_and!; [done| |done]. by eapply rows_of_same.
Qed.

Lemma runs_update_tokens assignments condition args db r db' (p : RefreshRecord -> bool) (f : RefreshRecord -> RefreshRecord) :
  runs (UPDATE "authlier_refresh_tokens" assignments condition []) args db r db' -> ok db ->
  (forall now a, matches postgresql db now args condition (refresh_row a) = p a) ->
  (forall now a, p a = true -> updated postgresql db now args assignments (refresh_row a) = refresh_row (f a)) ->
  rows_of RefreshRecord db' = (fun a => if p a then f a else a) <$> rows_of RefreshRecord db /\
  rows_of AccessSession db' = rows_of AccessSession db /\ ok db'.
Proof.
  intros Hr Hok Hp Hf. eapply (runs_UPDATE RefreshRecord) with (g := fun _ => []) in Hr
    as (Hrows & _ & _ & Hok' & Hs); [|in_list|done|done|done|done|done].
  split_and!; [done| |done]. by eapply rows_of_same.
Qed.

Lemma revoke_access_cell at_ a :
  (if is_null (nullable Timestamp (as_RevokedAt a)) then time_value at_ else nullable Timestamp (as_RevokedAt a)) =
  nullable Timestamp (as_RevokedAt (revoke_access (microseconds at_) a)).
Proof. by destruct a as [? ? ? ? []]. Qed.
Lemma revoke_token_cell at_ r :
  (if is_null (nullable Timestamp (RevokedAt r)) then time_value at_ else nullable Timestamp (RevokedAt r)) =
  nullable Timestamp (RevokedAt (revoke_token (microseconds at_) r)).
Proof. by destruct r as [? ? ? ? ? []]. Qed.

Lemma wp_revokeAccessSession tx id at_ db0 db w (Q : result unit -> World S -> Prop) :
  TxContract tx conn -> inside conn db0 db w -> ok db ->
  (forall db' w', inside conn db0 db' w' -> ok db' ->
     bearer_of db' = revoke_session id (microseconds at_) (bearer_of db) -> Q (Ok tt) w') ->
  (forall e w', broken conn db0 w' -> foreign e -> Q (Err e) w') ->
  wp (revokeAccessSession tx id at_) Q w.
Proof.
  intros Htx Hw Hok HQ Herr. unfold revokeAccessSession. wp_go.
  eapply wp_tx_Exec; [done|exact Hw| |intros e w' Hw' He; wp_go; apply Herr; [done|by eapply fails_foreign]].
  intros r1 db1 w1 Hw1 Hr1. wp_go.
  eapply runs_update_access with (p := fun a : AccessSession => String.eqb (as_ID a) id) (f := revoke_access (microseconds at_)) in Hr1
    as (Ha1 & Ht1 & Hok1); [|done|intros now a; sql_eval; apply eqb_decide
      |intros now a _; sql_eval; by rewrite revoke_access_cell].
  eapply wp_tx_Exec; [done|exact Hw1| |intros e w' Hw' He; wp_go; apply Herr; [done|by eapply fails_foreign]].
  intros r2 db2 w2 Hw2 Hr2. wp_go.
  eapply runs_update_tokens with (p := fun r : RefreshRecord => String.eqb (SessionID r) id) (f := revoke_token (microseconds at_)) in Hr2
    as (Ht2 & Ha2 & Hok2); [|done|intros now a; sql_eval; apply eqb_decide
      |intros now a _; sql_eval; by rewrite revoke_token_cell].
  apply (HQ db2); [done|done|]. apply bearer_eq; cbn [bearer_of sessions tokens].
  - transitivity (access_of db1); [unfold access_of; by rewrite Ha2|]. by apply accesses_revoked.
  - rewrite Ht1 in Ht2. eapply tokens_revoked; [done|exact Ht2|]. intros r a _ E. by rewrite E.
Qed.

Definition stored_access (a : AccessSession) : AccessSession :=
  mkAccess (as_ID a) (as_SubjectID a) (microseconds (as_CreatedAt a)) (microseconds (as_ExpiresAt a))
    (microseconds <$> as_RevokedAt a).
Definition stored_token (r : RefreshRecord) : RefreshRecord :=
  mkRefresh (SessionID r) (TokenHash r) (microseconds (CreatedAt r)) (microseconds (ExpiresAt r))
    (microseconds <$> RotatedAt r) (microseconds <$> RevokedAt r).

Lemma runs_insert_access a db r db' : runs insert_access_session (access_values a) db r db' -> ok db ->
  ok db' /\ access_of db !! as_ID a = None /\ access_of db' = <[as_ID a := stored_access a]> (access_of db) /\
  tokens_of db' = tokens_of db.
Proof.
  intros Hr Hok. eapply (runs_INSERT AccessSession) with (a := fun _ => stored_access a) in Hr
    as (_ & Hrows & Hok' & Hs); [|in_list|done|done|done|].
  - split; [done|]. pose proof (access_keys _ Hok') as Hnd. rewrite Hrows in Hnd. apply by_key_app in Hnd as [Hn Hi].
    split_and!; [done|unfold access_of; by rewrite Hrows|]. unfold tokens_of. by erewrite rows_of_same.
  - intros now. sql_eval. by destruct a as [? ? ? ? []].
Qed.

(** The columns that an INSERT leaves out are NULL. *)
Lemma runs_insert_token values args record db r db' :
  runs (INSERT "authlier_refresh_tokens" values None) args db r db' -> ok db ->
  (forall now, build_row postgresql db now args authlier_refresh_tokens values = refresh_row record) ->
  ok db' /\ tokens_of db !! TokenHash record = None /\
  tokens_of db' = <[TokenHash record := record]> (tokens_of db) /\ access_of db' = access_of db.
Proof.
  intros Hr Hok Hrow. eapply (runs_INSERT RefreshRecord) with (a := fun _ => record) in Hr
    as (_ & Hrows & Hok' & Hs); [|in_list|done|done|done|done].
  split; [done|]. pose proof (token_keys _ Hok') as Hnd. rewrite Hrows in Hnd. apply by_key_app in Hnd as [Hn Hi].
  split_and!; [done|unfold tokens_of; by rewrite Hrows|]. unfold access_of. by erewrite rows_of_same.
Qed.

Lemma CreateSession_effect a t db w : idle conn db w -> ok db ->
  wp (AccessSessionStore_CreateSession adapter a t) (leaves conn (fun res db' => ok db' /\
    match res with
    | Ok _ => access_of db !! as_ID a = None /\ tokens_of db !! TokenHash t = None /\
        bearer_of db' = mkBearer (<[as_ID a := stored_access a]> (access_of db)) (<[TokenHash t := stored_token t]> (tokens_of db))
    | Err _ => db' = db
    end)) w.
Proof.
  intros Hw Hok. unfold AccessSessionStore_CreateSession.
  eapply wp_with_tx; [done|exact Hw|done|]. intros tx w1 Htx Hw1. wp_go.
  eapply wp_tx_Exec; [done|exact Hw1| |by intros e w' Hw' _; wp_go; exists db].
  intros r2 db2 w2 Hw2 Hr2. wp_go. apply runs_insert_access in Hr2 as (Hok2 & Hna & Ha2 & Ht2); [|done].
  eapply wp_tx_Exec; [done|exact Hw2| |by intros e w' Hw' _; wp_go; exists db].
  intros r3 db3 w3 Hw3 Hr3. wp_go.
  eapply runs_insert_token with (record := stored_token t) in Hr3 as (Hok3 & Hnt & Ht3 & Ha3);
    [|done|intros now; sql_eval; by destruct t as [? ? ? ? [] []]].
  eapply wp_commit; [done|exact Hw3| |done]. split; [done|]. cbn [stored_token TokenHash] in Hnt, Ht3.
  rewrite Ht2 in Hnt. split_and!; [done|done|]. apply bearer_eq; cbn [bearer_of sessions tokens].
  - by rewrite Ha3, Ha2.
  - by rewrite Ht3, Ht2.
Qed.

Lemma ResolveSession_effect id db w : idle conn db w -> ok db ->
  wp (AccessSessionStore_ResolveSession adapter id) (leaves conn (fun res db' => db' = db /\
    forall x, res = Ok x -> exists a, access_of db !! id = Some a /\ as_RevokedAt a = None /\ x = session_of a)) w.
Proof.
  intros Hw Hok. unfold AccessSessionStore_ResolveSession. wp_go.
  eapply wp_pool_QueryRow; [done|exact Hw|..].
  - intros r row db' w' Hw' [now He] Hin. eapply (execute_SELECT _ _ _ _ _ AccessSession) with
      (p := fun a => bool_decide (as_ID a = id) && (is_null (nullable Timestamp (as_RevokedAt a)) && (now <? as_ExpiresAt a)%Z)) in He
      as [-> Hr]; [|in_list|done|done|by intros; sql_eval].
    rewrite Hr, <- list_fmap_compose in Hin. apply list_elem_of_fmap in Hin as (a & -> & [Ha Hp]%elem_of_List_filter).
    sql_eval. wp_go. exists db. split; [done|]. split; [done|]. intros x [= <-]. exists a. go_bool.
    split_and!; [by apply by_key_Some; [apply access_keys|]|by destruct (as_RevokedAt a)|done].
  - intros r db' w' Hw' [now He] _. simpl in He. injection He as _ <-. wp_go. by exists db.
  - intros e w' Hw' _. wp_go. by exists db.
Qed.

Lemma scan_accesses_ok l acc : scan_accesses (access_cells <$> l) acc = Ok (acc ++ l).
Proof.
  revert acc. induction l as [|a l IH]; intros acc; [csimpl; by rewrite app_nil_r|].
  rewrite fmap_cons. cbn [scan_accesses]. rewrite scan_access_ok, IH. by rewrite <- app_assoc.
Qed.

Lemma AccessList_effect subject db w : idle conn db w -> ok db ->
  wp (AccessSessionStore_ListBySubject adapter subject)
    (leaves conn (fun res db' => db' = db /\ forall l, res = Ok l ->
       l ≡ₚ List.filter (fun a => bool_decide (as_SubjectID a = subject)) (rows_of AccessSession db))) w.
Proof.
  intros Hw Hok. unfold AccessSessionStore_ListBySubject. wp_go.
  eapply wp_pool_Query; [done|exact Hw|..].
  - intros r rows db' w' Hw' Hr Hperm Hord.
    eapply (runs_SELECT AccessSession) with (p := fun a => bool_decide (as_SubjectID a = subject)) (g := access_cells) in Hr
      as [-> Hr]; [|in_list|done|done|by intros; sql_eval..].
    assert (Hrows : rows.*2 ≡ₚ access_cells <$> List.filter (fun a => bool_decide (as_SubjectID a = subject)) (rows_of AccessSession db))
      by by rewrite Hperm, Hr.
    apply Permutation_map_inv in Hrows as (l' & Hl' & Hperm').
    change (map access_cells l') with (access_cells <$> l') in Hl'. go_red. rewrite Hl', (scan_accesses_ok l' []). wp_go. exists db. split; [done|]. split; [done|].
    by intros l [= <-].
  - intros rows e w' Hw'. wp_go; by exists db.
  - intros e w' Hw' _. wp_go. by exists db.
Qed.

Lemma AccessRevokeAll_effect subject at_ db w : idle conn db w -> ok db ->
  wp (AccessSessionStore_RevokeAll adapter subject at_) (leaves conn (fun res db' => ok db' /\
    match res with
    | Ok _ => bearer_of db' = revoke_subject subject (microseconds at_) (bearer_of db)
    | Err _ => db' = db
    end)) w.
Proof.
  intros Hw Hok. unfold AccessSessionStore_RevokeAll.
  eapply wp_with_tx; [done|exact Hw|done|]. intros tx w1 Htx Hw1. wp_go.
  eapply wp_tx_Exec; [done|exact Hw1| |by intros e w' Hw' _; wp_go; exists db].
  intros r2 db2 w2 Hw2 Hr2. wp_go.
  eapply runs_update_tokens with (f := revoke_token (microseconds at_))
    (p := fun r : RefreshRecord => existsb (fun a => String.eqb (as_SubjectID a) subject && String.eqb (SessionID r) (as_ID a))
            (rows_of AccessSession db)) in Hr2 as (Ht2 & Ha2 & Hok2);
    [|done| |intros now a _; sql_eval; by rewrite revoke_token_cell].
  2:{ intros now r. unfold matches. erewrite (eval_InSelect _ tables _ _ _ AccessSession) with
        (p := fun a => String.eqb (as_SubjectID a) subject) (q := fun a => String.eqb (SessionID r) (as_ID a)); try done.
      - in_list.
      - intros a. sql_eval. apply eqb_decide.
      - intros a. sql_eval. apply eqb_decide. }
  eapply wp_tx_Exec; [done|exact Hw2| |by intros e w' Hw' _; wp_go; exists db].
  intros r3 db3 w3 Hw3 Hr3. wp_go.
  eapply runs_update_access with (p := fun a : AccessSession => String.eqb (as_SubjectID a) subject)
    (f := revoke_access (microseconds at_)) in Hr3 as (Ha3 & Ht3 & Hok3);
    [|done|intros now a; sql_eval; apply eqb_decide|intros now a _; sql_eval; by rewrite revoke_access_cell].
  eapply wp_commit; [done|exact Hw3| |done]. split; [done|]. apply bearer_eq; cbn [bearer_of sessions tokens].
  - rewrite Ha2 in Ha3. by apply accesses_revoked.
  - rewrite Ht2 in Ht3. eapply tokens_revoked; [done|exact Ht3|]. intros r a Ha E.
    apply by_key_Some in Ha as [Ha _]; [|by apply access_keys]. apply eq_true_iff_eq. rewrite existsb_exists. split.
    + intros (b & Hb%list_elem_of_In & [Hs Hi]%andb_true_iff). apply String.eqb_eq in Hi.
      assert (b = a) as ->; [|done]. pose proof (access_keys _ Hok) as Hnd.
      assert (H1 : access_of db !! as_ID a = Some a) by by apply by_key_Some.
      assert (H2 : access_of db !! as_ID a = Some b) by (apply by_key_Some; [done|split; [done|congruence]]). congruence.
    + intros Hs. exists a. rewrite Hs, E, String.eqb_refl. split; [by apply list_elem_of_In|done].
Qed.

Lemma FindToken_effect h db w : idle conn db w -> ok db ->
  wp (RefreshTokenStore_FindByTokenHash adapter h)
    (leaves conn (fun res db' => db' = db /\ forall r, res = Ok r -> tokens_of db !! h = Some r)) w.
Proof.
  intros Hw Hok. unfold RefreshTokenStore_FindByTokenHash. wp_go. eapply wp_pool_QueryRow; [done|exact Hw|..].
  - intros r row db' w' Hw' Hr Hin. wp_go. exists db'. split; [done|].
    eapply (runs_SELECT RefreshRecord) with (p := fun a => bool_decide (TokenHash a = h)) (g := refresh_cells) in Hr as [-> Hr];
      [|in_list|done|done|by intros; sql_eval..].
    split; [done|]. rewrite Hr in Hin. apply list_elem_of_fmap in Hin as (a & -> & [Ha Hh]%elem_of_List_filter). go_bool.
    rewrite scan_refresh_ok. simpl. intros ? [= <-]. by apply by_key_Some; [by apply token_keys|].
  - intros r db' w' Hw' [now He] _. simpl in He. injection He as _ <-. wp_go. exists db. split; [done|]. by split.
  - intros e w' Hw' _. wp_go. exists db. do 2 (split; [done|]). intros a. simpl. by destruct (errors_Is e ErrNoRows).
Qed.

Lemma RevokeSession_effect id at_ db w : idle conn db w -> ok db ->
  wp (RefreshTokenStore_RevokeSession adapter id at_) (leaves conn (fun res db' => ok db' /\
    match res with
    | Ok _ => bearer_of db' = revoke_session id (microseconds at_) (bearer_of db)
    | Err _ => db' = db
    end)) w.
Proof.
  intros Hw Hok. unfold RefreshTokenStore_RevokeSession.
  eapply wp_with_tx; [done|exact Hw|done|]. intros tx w1 Htx Hw1. wp_go.
  eapply wp_revokeAccessSession; [done|exact Hw1|done| |by intros e w' Hw' _; exists db].
  intros db2 w2 Hw2 Hok2 Hb. by eapply wp_commit; [done|exact Hw2| |done].
Qed.

(** [AccessSessionStore.Revoke] is the same transaction. *)
Lemma AccessRevoke_effect id at_ db w : idle conn db w -> ok db ->
  wp (AccessSessionStore_Revoke adapter id at_) (leaves conn (fun res db' => ok db' /\
    match res with
    | Ok _ => bearer_of db' = revoke_session id (microseconds at_) (bearer_of db)
    | Err _ => db' = db
    end)) w.
Proof. apply RevokeSession_effect. Qed.

Lemma RotateToken_effect h replacement at_ db w : idle conn db w -> ok db ->
  wp (RefreshTokenStore_Rotate adapter h replacement at_) (leaves conn (fun res db' => ok db' /\
    match res with
    | Ok _ => exists r, tokens_of db !! h = Some r /\ ActiveAt r at_ = true /\ tokens_of db !! TokenHash replacement = None /\
        bearer_of db' = mkBearer (access_of db)
          (<[TokenHash replacement := mkRefresh (SessionID replacement) (TokenHash replacement)
               (microseconds (CreatedAt replacement)) (microseconds (ExpiresAt replacement)) None None]>
            (<[h := consume_token (microseconds at_) r]> (tokens_of db)))
    | Err e => db' = db /\ errors_Is e ErrReuseDetected = false \/
        e = ErrReuseDetected /\ exists r, tokens_of db !! h = Some r /\ ActiveAt r at_ = false /\
          bearer_of db' = revoke_session (SessionID r) (microseconds at_) (bearer_of db)
    end)) w.
Proof.
  intros Hw Hok. assert (Hkeys := token_keys db Hok). unfold RefreshTokenStore_Rotate.
  eapply wp_with_tx; [done|exact Hw|intros e He; split; [done|left; split; [done|by apply He]]|]. intros tx w1 Htx Hw1. wp_go.
  set (g := fun a : RefreshRecord => [Text (SessionID a); Timestamp (ExpiresAt a); nullable Timestamp (RotatedAt a);
                      nullable Timestamp (RevokedAt a)]).
  eapply wp_tx_QueryRow; [done|exact Hw1|..].
  - intros r row db1 w2 Hw2 Hr Hin.
    eapply (runs_SELECT RefreshRecord) with (p := fun a => bool_decide (TokenHash a = h)) (g := g) in Hr as [-> Hr];
      [|in_list|done|done|by intros; sql_eval..].
    rewrite Hr in Hin. apply list_elem_of_fmap in Hin as (a & -> & [Ha Hh]%elem_of_List_filter). go_bool. subst h.
    assert (Hat : tokens_of db !! TokenHash a = Some a) by by apply by_key_Some.
    unfold g. cbn [or_absent].
    assert (Hactive : negb (is_null (nullable Timestamp (RotatedAt a))) || negb (is_null (nullable Timestamp (RevokedAt a))) ||
      negb (Before at_ (ExpiresAt a)) = negb (ActiveAt a at_)).
    { unfold ActiveAt. by destruct (RotatedAt a), (RevokedAt a), (Before at_ (ExpiresAt a)). }
    rewrite Hactive. wp_go.
    + eapply wp_revokeAccessSession; [done|exact Hw2|done| |intros e w' Hw' He; wp_go; exists db; split_and!; [done|done|left; split; [done|by apply He]]].
      intros db2 w3 Hw3 Hok3 Hb. wp_go. eapply wp_mono; [by eapply tx_Commit_ok|]. go_bool.
      intros [[]|e] w4 Hw4; wp_go; [|destruct Hw4 as [Hw4 He]; left_in db; split; [done|left; split; [done|by apply He]]]. left_in db2. split; [done|]. right. eauto.
    + go_bool. eapply wp_tx_Exec; [done|exact Hw2|..].
      * intros r2 db2 w3 Hw3 Hr2.
        eapply runs_insert_token with (record := mkRefresh (SessionID replacement) (TokenHash replacement)
               (microseconds (CreatedAt replacement)) (microseconds (ExpiresAt replacement)) None None) in Hr2
          as (Hok2 & Hnone & Hins & Hacc); [|done|by intros; sql_eval]. cbn [TokenHash] in Hnone, Hins. cbn [conflicting]. wp_go.
        eapply wp_tx_Exec; [done|exact Hw3| |intros e w' Hw' He%fails_foreign; wp_go; exists db; split_and!; [done|done|left; split; [done|by apply He]]].
        intros r3 db3 w4 Hw4 Hr3. wp_go. eapply wp_commit; [done|exact Hw4| |intros e He; split; [done|left; split; [done|by apply He]]].
        eapply runs_update_tokens with (p := fun b : RefreshRecord => bool_decide (TokenHash b = TokenHash a))
          (f := consume_token (microseconds at_)) in Hr3 as (Ht3 & Ha3 & Hok3); [|done|by intros; sql_eval|by intros; sql_eval].
        split; [done|]. exists a. split_and!; try done. assert (Hne : TokenHash replacement <> TokenHash a) by congruence.
        apply bearer_eq; cbn [bearer_of sessions tokens]; [by unfold access_of in *; rewrite Ha3|].
        rewrite insert_insert_ne, <- Hins by done. unfold tokens_of. rewrite Ht3.
        eapply by_key_update with (a := a); [by apply token_keys|done|intros b Hb; by go_bool| |by apply bool_decide_eq_true].
        fold (tokens_of db2). by rewrite Hins, lookup_insert_ne.
      * intros e w3 Hw3 He%fails_foreign. unfold conflicting.
        destruct (uniqueViolation e); wp_go; exists db; (split_and!; [done|done|left; split; [done|first [done|by apply He]]]).
  - intros r db1 w2 Hw2 [now He] _. simpl in He. injection He as _ <-. cbn [or_absent].
    change (errors_Is ErrNoRows ErrNoRows) with true. wp_go. left_in db. split; [done|by left].
  - intros e w2 Hw2 He%fails_foreign. cbn [or_absent].
    destruct (errors_Is e ErrNoRows); wp_go; exists db; (split_and!; [done|done|left; split; [done|first [done|by apply He]]]).
Qed.

(** *** The contracts *)
(** [Rotate] stores the replacement as unused, whatever its record says. *)
Definition stored_replacement (r : RefreshRecord) : RefreshRecord :=
  mkRefresh (SessionID r) (TokenHash r) (microseconds (CreatedAt r)) (microseconds (ExpiresAt r)) None None.

Definition bearer_view (s : S) : bearer_state := bearer_of (committed (conn s)).

Ltac bearer_step Heff :=
  let Hw := fresh "Hw" in let Hok := fresh "Hok" in
  match goal with H : in_order_state _ _ |- _ => destruct (in_order_idle _ _ H) as [Hw Hok] end;
  eapply wp_mono; [by apply Heff|]; intros res w' (db' & Hw' & Hpost).

Ltac bearer_done Hw' Hok' :=
  let Hwf' := fresh "Hwf'" in let Hdb' := fresh "Hdb'" in
  destruct (idle_in_order _ _ _ Hw' Hok') as [Hwf' Hdb']; split; [done|]; unfold bearer_view; rewrite Hdb'.

Lemma postgres_refresh_contract :
  KeptRefreshContract stored_replacement microseconds (RefreshTokenStore adapter) (in_order_state conn) bearer_view.
Proof.
  split; simpl.
  - intros h w Hwf. bearer_step FindToken_effect. destruct Hpost as [-> Hpost]. by bearer_done Hw' Hok.
  - intros h r at_ w Hwf. bearer_step RotateToken_effect. destruct Hpost as [Hok' Hpost]. bearer_done Hw' Hok'.
    destruct res as [[]|e].
    + destruct Hpost as (a & ? & ? & ? & Hb). exists a. split_and!; try done.
    + destruct Hpost as [[-> He]|(-> & a & ? & ? & Hb)]; [by rewrite He|].
      change (errors_Is ErrReuseDetected ErrReuseDetected) with true. split; [done|]. by exists a.
  - intros id at_ w Hwf. bearer_step RevokeSession_effect. destruct Hpost as [Hok' Hpost]. bearer_done Hw' Hok'.
    destruct res as [[]|e]; [done|by rewrite Hpost].
Qed.

Lemma postgres_access_contract :
  KeptAccessContract stored_access stored_token microseconds (AccessSessionStore_ adapter) (in_order_state conn) bearer_view.
Proof.
  split; simpl.
  - intros w id a [_ Hok] Ha. by apply by_key_Some in Ha as [_ ?]; [|apply access_keys].
  - intros id w Hwf. bearer_step ResolveSession_effect. destruct Hpost as [-> Hpost]. by bearer_done Hw' Hok.
  - intros a r w Hwf. bearer_step CreateSession_effect. destruct Hpost as [Hok' Hpost]. bearer_done Hw' Hok'.
    destruct res as [[]|e]; [done|by rewrite Hpost].
  - intros subject w Hwf. bearer_step AccessList_effect. destruct Hpost as [-> Hpost]. bearer_done Hw' Hok.
    split; [done|]. intros l Hl a. rewrite (Hpost l Hl), elem_of_List_filter, bool_decide_eq_true. simpl.
    unfold access_of. rewrite by_key_Some by by apply access_keys. tauto.
  - intros subject at_ w Hwf. bearer_step AccessRevokeAll_effect. destruct Hpost as [Hok' Hpost]. bearer_done Hw' Hok'.
    destruct res as [[]|e]; [done|by rewrite Hpost].
Qed.
End BearerEffects.
