(* ===== verification/PostgresAccounts.v ===== *)
(** * Accounts in PostgreSQL (storage/postgres/accounts.go)

    The stores behind packages emailpassword, emailverification, passwordreset
    and googleoauth, and their contracts, with times kept to the microsecond. *)
From S2P Require Import Prelude GoText Token Sql Postgres.
From S2P Require EmailPassword EmailVerification PasswordReset GoogleOAuth.
From S2P Require AccountSpec EmailPasswordSpec EmailVerificationSpec PasswordResetSpec GoogleOAuthSpec.

Section Shared.
Context {S : Type}.

Definition lockUser (tx : Tx S) (subjectID : string) : M S (result unit) :=
  row <- tx_QueryRow tx (SELECT (cols ["id"]) [("", "authlier_users")] ("id" = $1) None [""]) [Text subjectID] ;;
  match row with
  | Err err => ret (Err err)
  | Ok [Text _] => ret (Ok tt)
  | Ok _ => ret (Err ErrScan)
  end.

Definition count_of (name column : string) : expr := Count [("", name)] (Equal column ($1)).

Definition otherCredentialCount (tx : Tx S) (subjectID : string) : M S (result Z) :=
  row <-? tx_QueryRow tx
    (SELECT [Plus (count_of "authlier_google_identities" "user_id") (count_of "authlier_passkey_credentials" "subject_id")]
       [] TRUE None []) [Text subjectID] ;;
  match row with
  | [Bigint count] => ret (Ok count)
  | _ => ret (Err ErrScan)
  end.

Context `{Env} `{PgTypes}.

Definition insertUser (tx : Tx S) (email : string) (verified : bool) (createdAt : time) : M S (result string) :=
  userID <-? wrapped "generate user ID: %w" new_uuid ;;
  handle <-? wrapped "generate WebAuthn handle: %w" (rand_Read 64) ;;
  _ <-? tx_Exec tx
    (INSERT "authlier_users"
       [("id", $1); ("email", $2); ("email_verified", $3); ("webauthn_handle", $4); ("created_at", $5)] None)
    [Text userID; Text email; Boolean verified; Bytea handle; time_value createdAt] ;;
  ret (Ok userID).
End Shared.

(** ** Email and password *)
Section EmailPassword_.
Import EmailPassword.
Context {S : Type} `{Env} `{PgTypes} (adapter : Adapter S).

Definition insert_password : statement :=
  INSERT "authlier_password_credentials" [("user_id", $1); ("password_hash", $2); ("updated_at", $3)] None.

Definition EmailPasswordStore_Register (registration : Registration) : M S (result User) :=
  with_tx (pool adapter) (fun tx =>
    userID <-? wrapped "generate user ID: %w" new_uuid ;;
    handle <-? wrapped "generate WebAuthn handle: %w" (rand_Read 64) ;;
    r <- tx_Exec tx
      (INSERT "authlier_users" [("id", $1); ("email", $2); ("webauthn_handle", $3); ("created_at", $4)] None)
      [Text userID; Text (reg_Email registration); Bytea handle; time_value (reg_CreatedAt registration)] ;;
    match conflicting ErrConflict r with
    | Err err => ret (Err err)
    | Ok _ =>
        _ <-? tx_Exec tx insert_password
          [Text userID; Text (reg_PasswordHash registration); time_value (reg_CreatedAt registration)] ;;
        r <- tx_Commit tx ;;
        match conflicting ErrConflict r with
        | Err err => ret (Err err)
        | Ok _ => ret (Ok (mkUser userID (reg_Email registration)))
        end
    end).

(** The join that finds a user with a password. *)
Definition find_credential (condition : expr) : statement :=
  SELECT [Col "u" "id"; Col "u" "email"; Col "p" "password_hash"]
    [("u", "authlier_users"); ("p", "authlier_password_credentials")]
    (Both (Equal (Col "p" "user_id") (Col "u" "id")) condition) None [].

Definition scan_credential (row : list value) : result (User * PasswordCredential) :=
  match row with
  | [Text id; Text email; Text passwordHash] => Ok (mkUser id email, mkCredential id passwordHash)
  | _ => Err ErrScan
  end.

Definition credential_result (row : result (list value)) : result (User * PasswordCredential) :=
  or_absent ErrNotFound (match row with Ok row => scan_credential row | Err err => Err err end).

Definition EmailPasswordStore_FindByEmail (email : string) : M S (result (User * PasswordCredential)) :=
  row <- pool_QueryRow (pool adapter) (find_credential (Equal (Col "u" "email") ($1))) [Text email] ;;
  ret (credential_result row).

Definition EmailPasswordStore_FindBySubject (subjectID : string) : M S (result (User * PasswordCredential)) :=
  row <- pool_QueryRow (pool adapter) (find_credential (Equal (Col "u" "id") ($1))) [Text subjectID] ;;
  ret (credential_result row).

Definition EmailPasswordStore_AddPassword (subjectID passwordHash : string) (addedAt : time) : M S (result User) :=
  with_tx (pool adapter) (fun tx =>
    row <- tx_QueryRow tx (SELECT (cols ["id"; "email"]) [("", "authlier_users")] ("id" = $1) None [""]) [Text subjectID] ;;
    match or_absent ErrNotFound row with
    | Err err => ret (Err err)
    | Ok [Text id; Text email] =>
        r <- tx_Exec tx insert_password [Text subjectID; Text passwordHash; time_value addedAt] ;;
        match conflicting ErrConflict r with
        | Err err => ret (Err err)
        | Ok _ => commit tx (mkUser id email)
        end
    | Ok _ => ret (Err ErrScan)
    end).

Definition EmailPasswordStore_ReplacePasswordHash (userID currentHash replacementHash : string) (updatedAt : time) :
    M S (result unit) :=
  tag <-? pool_Exec (pool adapter)
    (UPDATE "authlier_password_credentials" [("password_hash", $1); ("updated_at", $2)]
       ("user_id" = $3 AND "password_hash" = $4) [])
    [Text replacementHash; time_value updatedAt; Text userID; Text currentHash] ;;
  if (tag =? 0)%nat then ret (Err ErrConflict) else ret (Ok tt).

Definition EmailPasswordStore_RemovePassword (subjectID currentHash : string) (_ : time) : M S (result unit) :=
  with_tx (pool adapter) (fun tx =>
    r <- lockUser tx subjectID ;;
    match or_absent ErrNotFound r with
    | Err err => ret (Err err)
    | Ok _ =>
        row <- tx_QueryRow tx
          (SELECT (cols ["password_hash"]) [("", "authlier_password_credentials")] ("user_id" = $1) None [])
          [Text subjectID] ;;
        match or_absent ErrNotFound row with
        | Err err => ret (Err err)
        | Ok [Text storedHash] =>
            if negb (String.eqb storedHash currentHash) then ret (Err ErrConflict) else
            methods <-? otherCredentialCount tx subjectID ;;
            if (methods =? 0)%Z then ret (Err ErrLastCredential) else
            _ <-? tx_Exec tx (DELETE "authlier_password_credentials" ("user_id" = $1) []) [Text subjectID] ;;
            commit tx tt
        | Ok _ => ret (Err ErrScan)
        end
    end).

Definition EmailPasswordStore : Store S :=
  {| store_Register := EmailPasswordStore_Register;
     store_FindByEmail := EmailPasswordStore_FindByEmail;
     store_ReplacePasswordHash := EmailPasswordStore_ReplacePasswordHash |}.

Definition EmailPasswordCredentialStore : CredentialStore S :=
  {| cred_FindBySubject := EmailPasswordStore_FindBySubject;
     cred_AddPassword := EmailPasswordStore_AddPassword;
     cred_ReplacePasswordHash := EmailPasswordStore_ReplacePasswordHash;
     cred_RemovePassword := EmailPasswordStore_RemovePassword |}.
End EmailPassword_.

(** A pending request of a user: the statement of [Issue] for both kinds. *)
Definition issue_pending (name : string) : statement :=
  INSERT name
    [("user_id", $1); ("email", $2); ("token_hash", $3); ("created_at", $4); ("expires_at", $5)]
    (Some (["user_id"], [("email", Excluded "email"); ("token_hash", Excluded "token_hash");
       ("created_at", Excluded "created_at"); ("expires_at", Excluded "expires_at")])).

(** ** Email verification *)
Section EmailVerification_.
Import EmailVerification.
Context {S : Type} `{PgTypes} (adapter : Adapter S).

Definition EmailVerificationStore_FindUserByEmail (email : string) : M S (result User) :=
  row <- pool_QueryRow (pool adapter)
    (SELECT (cols ["id"; "email"; "email_verified"]) [("", "authlier_users")] ("email" = $1) None []) [Text email] ;;
  ret (or_absent ErrNotFound
    match row with
    | Ok [Text id; Text email; Boolean verified] => Ok (mkUser id email verified)
    | Ok _ => Err ErrScan
    | Err err => Err err
    end).

Definition EmailVerificationStore_Issue (record : VerificationRecord) : M S (result unit) :=
  r <- pool_Exec (pool adapter) (issue_pending "authlier_email_verifications")
    [Text (rec_UserID record); Text (rec_Email record); Bytea (rec_TokenHash record); time_value (rec_CreatedAt record);
     time_value (rec_ExpiresAt record)] ;;
  ret (conflicting ErrConflict (ignored r)).

Definition EmailVerificationStore_Verify (tokenHash : Hash) (verifiedAt : time) : M S (result User) :=
  with_tx (pool adapter) (fun tx =>
    row <- tx_QueryRow tx
      (SELECT [Col "u" "id"; Col "u" "email"; Col "u" "email_verified"; Col "v" "expires_at"]
         [("v", "authlier_email_verifications"); ("u", "authlier_users")]
         (Both (Equal (Col "u" "id") (Col "v" "user_id")) (Equal (Col "v" "token_hash") ($1))) None ["v"; "u"])
      [Bytea tokenHash] ;;
    match or_absent ErrNotFound row with
    | Err err => ret (Err err)
    | Ok [Text id; Text email; Boolean verified; Timestamp expiresAt] =>
        if verified || negb (Before verifiedAt expiresAt) then ret (Err ErrInactiveToken) else
        _ <-? tx_Exec tx (UPDATE "authlier_users" [("email_verified", Const (Boolean true))] ("id" = $1) []) [Text id] ;;
        _ <-? tx_Exec tx (DELETE "authlier_email_verifications" ("user_id" = $1) []) [Text id] ;;
        commit tx (mkUser id email true)
    | Ok _ => ret (Err ErrScan)
    end).

Definition EmailVerificationStore : Store S :=
  {| store_FindUserByEmail := EmailVerificationStore_FindUserByEmail;
     store_Issue := EmailVerificationStore_Issue;
     store_Verify := EmailVerificationStore_Verify |}.
End EmailVerification_.

(** ** Password reset *)
Section PasswordReset_.
Import PasswordReset.
Context {S : Type} `{PgTypes} (adapter : Adapter S).

Definition PasswordResetStore_FindUserByEmail (email : string) : M S (result User) :=
  row <- pool_QueryRow (pool adapter)
    (SELECT (cols ["id"; "email"]) [("", "authlier_users")] ("email" = $1) None []) [Text email] ;;
  ret (or_absent ErrNotFound
    match row with
    | Ok [Text id; Text email] => Ok (mkUser id email)
    | Ok _ => Err ErrScan
    | Err err => Err err
    end).

Definition PasswordResetStore_Issue (record : ResetRecord) : M S (result unit) :=
  r <- pool_Exec (pool adapter) (issue_pending "authlier_password_resets")
    [Text (rec_UserID record); Text (rec_Email record); Bytea (rec_TokenHash record); time_value (rec_CreatedAt record);
     time_value (rec_ExpiresAt record)] ;;
  ret (conflicting ErrConflict (ignored r)).

Definition PasswordResetStore_ResetPassword (tokenHash : Hash) (passwordHash : string) (resetAt : time) :
    M S (result User) :=
  with_tx (pool adapter) (fun tx =>
    row <- tx_QueryRow tx
      (SELECT [Col "u" "id"; Col "u" "email"; Col "r" "expires_at"]
         [("r", "authlier_password_resets"); ("u", "authlier_users")]
         (Both (Equal (Col "u" "id") (Col "r" "user_id")) (Equal (Col "r" "token_hash") ($1))) None ["r"; "u"])
      [Bytea tokenHash] ;;
    match or_absent ErrNotFound row with
    | Err err => ret (Err err)
    | Ok [Text id; Text email; Timestamp expiresAt] =>
        if negb (Before resetAt expiresAt) then ret (Err ErrInactiveToken) else
        _ <-? tx_Exec tx
          (INSERT "authlier_password_credentials" [("user_id", $1); ("password_hash", $2); ("updated_at", $3)]
             (Some (["user_id"], [("password_hash", Excluded "password_hash"); ("updated_at", Excluded "updated_at")])))
          [Text id; Text passwordHash; time_value resetAt] ;;
        _ <-? tx_Exec tx (DELETE "authlier_password_resets" ("user_id" = $1) []) [Text id] ;;
        commit tx (mkUser id email)
    | Ok _ => ret (Err ErrScan)
    end).

Definition PasswordResetStore : Store S :=
  {| store_FindUserByEmail := PasswordResetStore_FindUserByEmail;
     store_Issue := PasswordResetStore_Issue;
     store_ResetPassword := PasswordResetStore_ResetPassword |}.
End PasswordReset_.

(** ** Google identities *)
Section Google_.
Import GoogleOAuth.
Context {S : Type} `{Env} `{PgTypes} (adapter : Adapter S).

Definition GoogleStore_CreateChallenge (challenge : Challenge) : M S (result unit) :=
  r <- pool_Exec (pool adapter)
    (INSERT "authlier_google_challenges"
       [("state_hash", $1); ("nonce", $2); ("code_verifier", $3); ("subject_id", $4); ("created_at", $5);
        ("expires_at", $6)] None)
    [Bytea (StateHash challenge); Text (ch_Nonce challenge); Text (CodeVerifier challenge);
     Text (ch_SubjectID challenge); time_value (CreatedAt challenge); time_value (ExpiresAt challenge)] ;;
  ret (conflicting ErrConflict (ignored r)).

Definition GoogleStore_ConsumeChallenge (stateHash : string) (consumedAt : time) : M S (result Challenge) :=
  row <- pool_QueryRow (pool adapter)
    (DELETE "authlier_google_challenges" ("state_hash" = $1)
       (cols ["state_hash"; "nonce"; "code_verifier"; "subject_id"; "created_at"; "expires_at"])) [Bytea stateHash] ;;
  match or_absent ErrNotFound row with
  | Err err => ret (Err err)
  | Ok [Bytea storedHash; Text nonce; Text codeVerifier; Text subjectID; Timestamp createdAt; Timestamp expiresAt] =>
      if negb (Before consumedAt expiresAt) then ret (Err ErrInvalidState) else
      ret (Ok (mkChallenge storedHash nonce codeVerifier subjectID createdAt expiresAt))
  | Ok _ => ret (Err ErrScan)
  end.

(** The last part of [ResolveIdentity]: [userID] gets the identity. *)
Definition link_identity (tx : Tx S) (resolution : IdentityResolution) (userID : string) : M S (result User) :=
  r <- tx_Exec tx
    (INSERT "authlier_google_identities"
       [("provider_subject", $1); ("user_id", $2); ("email", $3); ("linked_at", CurrentTimestamp)] None)
    [Text (ProviderSubject resolution); Text userID; Text (Email resolution)] ;;
  match conflicting ErrConflict r with
  | Err err => ret (Err err)
  | Ok _ => commit tx (mkUser userID)
  end.

(** Its middle: the user of an identity that is not linked yet. *)
Definition identity_user (tx : Tx S) (resolution : IdentityResolution) : M S (result string) :=
  if negb (String.eqb (SubjectID resolution) "") then
    r <- lockUser tx (SubjectID resolution) ;;
    match or_absent ErrNotFound r with
    | Err err => ret (Err err)
    | Ok _ =>
        row <- tx_QueryRow tx
          (SELECT (cols ["provider_subject"]) [("", "authlier_google_identities")] ("user_id" = $1) None [])
          [Text (SubjectID resolution)] ;;
        match row with
        | Ok [Text _] => ret (Err ErrConflict)
        | Ok _ => ret (Err ErrScan)
        | Err err => if negb (errors_Is err ErrNoRows) then ret (Err err) else ret (Ok (SubjectID resolution))
        end
    end
  else
    row <- tx_QueryRow tx
      (SELECT (cols ["id"]) [("", "authlier_users")] ("email" = $1) None [""]) [Text (Email resolution)] ;;
    match row with
    | Ok [Text _] => ret (Err ErrLinkRequired)
    | Ok _ => ret (Err ErrScan)
    | Err err =>
        if negb (errors_Is err ErrNoRows) then ret (Err err) else
        now <- read_now time_Now ;;
        r <- insertUser tx (Email resolution) true now ;;
        ret (conflicting ErrLinkRequired r)
    end.

Definition GoogleStore_ResolveIdentity (resolution : IdentityResolution) : M S (result User) :=
  with_tx (pool adapter) (fun tx =>
    row <- tx_QueryRow tx
      (SELECT (cols ["user_id"]) [("", "authlier_google_identities")] ("provider_subject" = $1) None [""])
      [Text (ProviderSubject resolution)] ;;
    match row with
    | Ok [Text linkedUserID] =>
        if negb (String.eqb (SubjectID resolution) "") && negb (String.eqb linkedUserID (SubjectID resolution))
        then ret (Err ErrConflict) else
        _ <-? tx_Exec tx (UPDATE "authlier_google_identities" [("email", $1)] ("provider_subject" = $2) [])
                [Text (Email resolution); Text (ProviderSubject resolution)] ;;
        commit tx (mkUser linkedUserID)
    | Ok _ => ret (Err ErrScan)
    | Err err =>
        if negb (errors_Is err ErrNoRows) then ret (Err err) else
        userID <-? identity_user tx resolution ;;
        link_identity tx resolution userID
    end).

Definition GoogleStore_UnlinkIdentity (subjectID : string) (_ : time) : M S (result unit) :=
  with_tx (pool adapter) (fun tx =>
    r <- lockUser tx subjectID ;;
    match or_absent ErrNotFound r with
    | Err err => ret (Err err)
    | Ok _ =>
        row <- tx_QueryRow tx
          (SELECT (cols ["provider_subject"]) [("", "authlier_google_identities")] ("user_id" = $1) None [""])
          [Text subjectID] ;;
        match or_absent ErrNotFound row with
        | Err err => ret (Err err)
        | Ok [Text _] =>
            counts <-? tx_QueryRow tx
              (SELECT [count_of "authlier_password_credentials" "user_id"; count_of "authlier_passkey_credentials" "subject_id"]
                 [] TRUE None []) [Text subjectID] ;;
            match counts with
            | [Bigint passwordCount; Bigint passkeyCount] =>
                if (passwordCount + passkeyCount =? 0)%Z then ret (Err ErrLastCredential) else
                _ <-? tx_Exec tx (DELETE "authlier_google_identities" ("user_id" = $1) []) [Text subjectID] ;;
                commit tx tt
            | _ => ret (Err ErrScan)
            end
        | Ok _ => ret (Err ErrScan)
        end
    end).

Definition GoogleStore : Store S :=
  {| store_CreateChallenge := GoogleStore_CreateChallenge;
     store_ConsumeChallenge := GoogleStore_ConsumeChallenge;
     store_ResolveIdentity := GoogleStore_ResolveIdentity |}.
End Google_.

(** ** The tables as records *)
Record user_record : Type := mkUserRecord {
  u_ID : string; u_Email : string; u_Verified : bool; u_Handle : string; u_CreatedAt : time }.
Record password_record : Type := mkPasswordRecord { pw_UserID : string; pw_PasswordHash : string; pw_UpdatedAt : time }.
Record identity_record : Type := mkIdentityRecord {
  gi_ProviderSubject : string; gi_UserID : string; gi_Email : string; gi_LinkedAt : time }.
Record pending_record : Type := mkPendingRecord {
  pr_UserID : string; pr_Email : string; pr_TokenHash : string; pr_CreatedAt : time; pr_ExpiresAt : time }.
Record verification_record : Type := mkVerification { as_pending : pending_record }.
Record reset_record : Type := mkReset { as_reset : pending_record }.
Record passkey_record : Type := mkPasskeyRecord {
  pk_CredentialID : string; pk_SubjectID : string; pk_Credential : string; pk_CreatedAt : time; pk_UpdatedAt : time }.

Definition user_row (u : user_record) : row :=
  [("id", Text (u_ID u)); ("email", Text (u_Email u)); ("email_verified", Boolean (u_Verified u));
   ("webauthn_handle", Bytea (u_Handle u)); ("created_at", Timestamp (u_CreatedAt u))].
Definition password_row (p : password_record) : row :=
  [("user_id", Text (pw_UserID p)); ("password_hash", Text (pw_PasswordHash p)); ("updated_at", Timestamp (pw_UpdatedAt p))].
Definition identity_row (i : identity_record) : row :=
  [("provider_subject", Text (gi_ProviderSubject i)); ("user_id", Text (gi_UserID i)); ("email", Text (gi_Email i));
   ("linked_at", Timestamp (gi_LinkedAt i))].
Definition pending_row (p : pending_record) : row :=
  [("user_id", Text (pr_UserID p)); ("email", Text (pr_Email p)); ("token_hash", Bytea (pr_TokenHash p));
   ("created_at", Timestamp (pr_CreatedAt p)); ("expires_at", Timestamp (pr_ExpiresAt p))].
Definition passkey_row (p : passkey_record) : row :=
  [("credential_id", Bytea (pk_CredentialID p)); ("subject_id", Text (pk_SubjectID p)); ("credential", Jsonb (pk_Credential p));
   ("created_at", Timestamp (pk_CreatedAt p)); ("updated_at", Timestamp (pk_UpdatedAt p))].
Arguments user_row u /. Arguments password_row p /. Arguments identity_row i /. Arguments pending_row p /.
Arguments passkey_row p /.

Definition row_pending (r : row) : option pending_record :=
  match r.*2 with
  | [Text u; Text e; Bytea h; Timestamp c; Timestamp x] => Some (mkPendingRecord u e h c x)
  | _ => None
  end.

Lemma pending_fits name r : typed (pending_table name) r = true -> complete (pending_table name) r = true ->
  exists p, r = pending_row p.
Proof.
  intros Ht Hc. pose proof (typed_fits _ _ Ht Hc) as Hfits. clear Ht Hc. row_cells Hfits. by eexists (mkPendingRecord _ _ _ _ _).
Qed.

Ltac entity_cells :=
  let Ht := fresh in let Hc := fresh in let Hfits := fresh "Hfits" in
  intros ? Ht Hc; pose proof (typed_fits _ _ Ht Hc) as Hfits; clear Ht Hc; row_cells Hfits.

#[export, refine] Instance user_entity : Entity user_record :=
  {| entity := authlier_users; to_row := user_row;
     of_row r := match r.*2 with
                 | [Text i; Text e; Boolean v; Bytea h; Timestamp c] => Some (mkUserRecord i e v h c)
                 | _ => None
                 end |}.
Proof. - by intros []. - entity_cells. by eexists (mkUserRecord _ _ _ _ _). Defined.

#[export, refine] Instance password_entity : Entity password_record :=
  {| entity := authlier_password_credentials; to_row := password_row;
     of_row r := match r.*2 with [Text u; Text h; Timestamp c] => Some (mkPasswordRecord u h c) | _ => None end |}.
Proof. - by intros []. - entity_cells. by eexists (mkPasswordRecord _ _ _). Defined.

#[export, refine] Instance identity_entity : Entity identity_record :=
  {| entity := authlier_google_identities; to_row := identity_row;
     of_row r := match r.*2 with
                 | [Text s; Text u; Text e; Timestamp c] => Some (mkIdentityRecord s u e c)
                 | _ => None
                 end |}.
Proof. - by intros []. - entity_cells. by eexists (mkIdentityRecord _ _ _ _). Defined.

#[export, refine] Instance verification_entity : Entity verification_record :=
  {| entity := authlier_email_verifications; to_row v := pending_row (as_pending v); of_row r := mkVerification <$> row_pending r |}.
Proof. - by intros [[]]. - intros r Ht Hc. destruct (pending_fits _ _ Ht Hc) as [p ->]. by exists (mkVerification p). Defined.

#[export, refine] Instance reset_entity : Entity reset_record :=
  {| entity := authlier_password_resets; to_row v := pending_row (as_reset v); of_row r := mkReset <$> row_pending r |}.
Proof. - by intros [[]]. - intros r Ht Hc. destruct (pending_fits _ _ Ht Hc) as [p ->]. by exists (mkReset p). Defined.

#[export, refine] Instance passkey_entity : Entity passkey_record :=
  {| entity := authlier_passkey_credentials; to_row := passkey_row;
     of_row r := match r.*2 with
                 | [Bytea i; Text s; Jsonb d; Timestamp c; Timestamp u] => Some (mkPasskeyRecord i s d c u)
                 | _ => None
                 end |}.
Proof. - by intros []. - entity_cells. by eexists (mkPasskeyRecord _ _ _ _ _). Defined.

Lemma user_keys db : ok db -> NoDup (u_ID <$> rows_of user_record db).
Proof. intros Hok. by apply (text_key user_record u_ID "id" db); [done|in_list..|]. Qed.
Lemma user_emails db : ok db -> NoDup (u_Email <$> rows_of user_record db).
Proof. intros Hok. by apply (text_key user_record u_Email "email" db); [done|in_list..|]. Qed.
Lemma password_keys db : ok db -> NoDup (pw_UserID <$> rows_of password_record db).
Proof. intros Hok. by apply (text_key password_record pw_UserID "user_id" db); [done|in_list..|]. Qed.
Lemma identity_keys db : ok db -> NoDup (gi_ProviderSubject <$> rows_of identity_record db).
Proof. intros Hok. by apply (text_key identity_record gi_ProviderSubject "provider_subject" db); [done|in_list..|]. Qed.
Lemma identity_users db : ok db -> NoDup (gi_UserID <$> rows_of identity_record db).
Proof. intros Hok. by apply (text_key identity_record gi_UserID "user_id" db); [done|in_list..|]. Qed.
Lemma verification_keys db : ok db -> NoDup ((fun v => pr_UserID (as_pending v)) <$> rows_of verification_record db).
Proof. intros Hok. by apply (text_key verification_record _ "user_id" db); [done|in_list..|]. Qed.
Lemma verification_hashes db : ok db -> NoDup ((fun v => pr_TokenHash (as_pending v)) <$> rows_of verification_record db).
Proof. intros Hok. by apply (bytea_key verification_record _ "token_hash" db); [done|in_list..|]. Qed.
Lemma reset_keys db : ok db -> NoDup ((fun v => pr_UserID (as_reset v)) <$> rows_of reset_record db).
Proof. intros Hok. by apply (text_key reset_record _ "user_id" db); [done|in_list..|]. Qed.
Lemma reset_hashes db : ok db -> NoDup ((fun v => pr_TokenHash (as_reset v)) <$> rows_of reset_record db).
Proof. intros Hok. by apply (bytea_key reset_record _ "token_hash" db); [done|in_list..|]. Qed.

(** ** The accounts in the tables *)
Section AccountsView.
Import AccountSpec.

Definition account_of (u : user_record) : account := mkAccount (u_Email u) (u_Verified u).
Definition pending_of (p : pending_record) : pending := mkPending (pr_Email p) (pr_TokenHash p) (pr_ExpiresAt p).

Definition user_table (db : database) : gmap string user_record := by_key u_ID (rows_of user_record db).
Definition password_table (db : database) : gmap string password_record := by_key pw_UserID (rows_of password_record db).
Definition verification_table (db : database) : gmap string verification_record :=
  by_key (fun v => pr_UserID (as_pending v)) (rows_of verification_record db).
Definition reset_table (db : database) : gmap string reset_record :=
  by_key (fun v => pr_UserID (as_reset v)) (rows_of reset_record db).

(** The other ways to sign in: Google identities and passkeys. *)
Definition other_methods (db : database) (id : string) : nat :=
  length (List.filter (fun i => String.eqb (gi_UserID i) id) (rows_of identity_record db)) +
  length (List.filter (fun p => String.eqb (pk_SubjectID p) id) (rows_of passkey_record db)).

Definition some_methods (n : nat) : option nat := if (n =? 0)%nat then None else Some n.

Definition accounts_of (db : database) : accounts :=
  mkAccounts (account_of <$> user_table db) (pw_PasswordHash <$> password_table db)
    (omap (fun u => some_methods (other_methods db (u_ID u))) (user_table db))
    ((fun v => pending_of (as_pending v)) <$> verification_table db)
    ((fun v => pending_of (as_reset v)) <$> reset_table db).

Lemma user_at db id u : ok db -> user_table db !! id = Some u <-> u ∈ rows_of user_record db /\ u_ID u = id.
Proof. intros Hok. apply by_key_Some, user_keys, Hok. Qed.
Lemma password_at db id p : ok db -> password_table db !! id = Some p <-> p ∈ rows_of password_record db /\ pw_UserID p = id.
Proof. intros Hok. apply by_key_Some, password_keys, Hok. Qed.

Lemma users_at db id a : users (accounts_of db) !! id = Some a <-> exists u, user_table db !! id = Some u /\ a = account_of u.
Proof. simpl. rewrite lookup_fmap_Some. naive_solver. Qed.

(** The constraints of the tables keep the invariant of accounts. *)
Lemma accounts_of_inv db : ok db -> accounts_inv (accounts_of db).
Proof.
  intros Hok. split.
  - intros i j email (a & (u & Hu & ->)%users_at & Ha) (b & (v & Hv & ->)%users_at & Hb).
    apply user_at in Hu as [Hu <-]; [|done]. apply user_at in Hv as [Hv <-]; [|done]. simpl in *.
    assert (H1 : by_key u_Email (rows_of user_record db) !! email = Some u) by (apply by_key_Some; [by apply user_emails|done]).
    assert (H2 : by_key u_Email (rows_of user_record db) !! email = Some v) by (apply by_key_Some; [by apply user_emails|done]).
    congruence.
  - intros id h (p & <- & [Hp <-]%password_at)%lookup_fmap_Some; [|done].
    destruct (text_reference password_record user_record pw_UserID u_ID "user_id" "id" db p) as (u & Hu & E);
      [done|in_list|in_list|in_list|done|done|done|]. exists (account_of u). apply users_at. exists u. split; [|done].
    by apply user_at.
Qed.

(** What a statement on one table leaves of the others. *)
Lemma accounts_eq s s' : users s = users s' -> hashes s = hashes s' -> others s = others s' ->
  verifications s = verifications s' -> resets s = resets s' -> s = s'.
Proof. destruct s, s'. simpl. by intros -> -> -> -> ->. Qed.
End AccountsView.

Ltac same_tables Hs :=
  unfold user_table, password_table, verification_table, reset_table, other_methods;
  rewrite ?(rows_of_same user_record _ _ _ Hs), ?(rows_of_same password_record _ _ _ Hs),
    ?(rows_of_same identity_record _ _ _ Hs), ?(rows_of_same passkey_record _ _ _ Hs),
    ?(rows_of_same verification_record _ _ _ Hs), ?(rows_of_same reset_record _ _ _ Hs) by done.

Section AccountRules.
Import AccountSpec EmailPassword EmailPasswordSpec.
Context `{PgTypes}.

Lemma runs_insert_password id hash at_ db r db' :
  runs insert_password [Text id; Text hash; time_value at_] db r db' -> ok db ->
  ok db' /\ hashes (accounts_of db) !! id = None /\ accounts_of db' = set_hash id hash (accounts_of db).
Proof.
  intros Hr Hok. eapply (runs_INSERT password_record) with (a := fun _ => mkPasswordRecord id hash (microseconds at_)) in Hr
    as (_ & Hrows & Hok' & Hs); [|in_list|done|done|done|by intros; sql_eval].
  pose proof (password_keys _ Hok') as Hnd. rewrite Hrows in Hnd. apply by_key_app in Hnd as [Hn Hi].
  split_and!; [done|simpl; by rewrite lookup_fmap, fmap_None|].
  apply accounts_eq; simpl; [by same_tables Hs| |by same_tables Hs..].
  unfold password_table. by rewrite Hrows, Hi, fmap_insert.
Qed.

(** A new user: a fresh identifier, a fresh email. *)
Lemma runs_insert_user values args u db r db' :
  runs (INSERT "authlier_users" values None) args db r db' -> ok db ->
  (forall now, build_row postgresql db now args authlier_users values = user_row u) ->
  ok db' /\ user_table db !! u_ID u = None /\ (forall v, v ∈ rows_of user_record db -> u_Email v <> u_Email u) /\
  rows_of user_record db' = rows_of user_record db ++ [u] /\ user_table db' = <[u_ID u := u]> (user_table db) /\
  others_same db "authlier_users" db'.
Proof.
  intros Hr Hok Hrow. eapply (runs_INSERT user_record) with (a := fun _ => u) in Hr
    as (_ & Hrows & Hok' & Hs); [|in_list|done|done|done|done].
  pose proof (user_keys _ Hok') as Hnd. rewrite Hrows in Hnd. apply by_key_app in Hnd as [Hn Hi].
  split_and!; try done; [|unfold user_table; by rewrite Hrows].
  intros v Hv E. pose proof (user_emails _ Hok') as Hne. rewrite Hrows, fmap_app in Hne.
  apply list.NoDup_app in Hne as (_ & Hne & _). apply (Hne (u_Email u)); [rewrite <- E; by apply list_elem_of_fmap_2|csimpl; set_solver].
Qed.

Lemma no_email email db : ok db -> (forall v, v ∈ rows_of user_record db -> u_Email v <> email) ->
  forall id, ~ has_email id email (accounts_of db).
Proof.
  intros Hok Hno id (a & (u & Hu & ->)%users_at & E). apply user_at in Hu as [Hu _]; [|done]. by apply (Hno u).
Qed.

(** What a fresh user leaves: the counts of its other sign-in methods begin at
    zero, since identities and passkeys belong to users. *)
Lemma fresh_user_rows (A : Type) `{Entity A} (owner : A -> string) column db id : ok db -> entity A ∈ tables ->
  mkReference column "authlier_users" "id" ∈ references (entity A) -> (forall a, cell (to_row a) column = Text (owner a)) ->
  user_table db !! id = None -> List.filter (fun a => String.eqb (owner a) id) (rows_of A db) = [].
Proof.
  intros Hok Hin Href Hc Hnone. apply filter_none. intros a Ha. apply String.eqb_neq. intros <-.
  destruct (text_reference A user_record owner u_ID column "id" db a) as (u & Hu & E); [done|done|in_list|done|done|done|done|].
  by apply (proj1 (by_key_None u_ID _ _) Hnone u).
Qed.

Lemma fresh_user_methods db id : ok db -> user_table db !! id = None -> other_methods db id = 0.
Proof.
  intros Hok Hnone. unfold other_methods.
  by rewrite (fresh_user_rows identity_record gi_UserID "user_id"), (fresh_user_rows passkey_record pk_SubjectID "subject_id")
    by (done || in_list).
Qed.

Lemma accounts_add_user u db db' : ok db -> user_table db !! u_ID u = None ->
  user_table db' = <[u_ID u := u]> (user_table db) -> others_same db "authlier_users" db' ->
  accounts_of db' = set_users (<[u_ID u := account_of u]> (users (accounts_of db))) (accounts_of db).
Proof.
  intros Hok Hnone Hu Hs. apply accounts_eq; simpl; [by rewrite Hu, fmap_insert|by same_tables Hs| |by same_tables Hs..].
  rewrite Hu. assert (Hm : forall id, other_methods db' id = other_methods db id) by (intros id; by same_tables Hs).
  rewrite (omap_ext _ (fun v => some_methods (other_methods db (u_ID v)))) by (intros; by rewrite Hm).
  apply map_eq. intros id. rewrite !lookup_omap. destruct (decide (u_ID u = id)) as [<-|]; [|by rewrite lookup_insert_ne].
  rewrite lookup_insert_eq, Hnone. simpl. by rewrite fresh_user_methods.
Qed.

End AccountRules.

Section PasswordEffects.
Import AccountSpec EmailPassword EmailPasswordSpec.
Context {S : Type} `{Env} `{PgTypes} (adapter : Adapter S) (conn : S -> connection) `{!PoolContract (pool adapter) conn}.

Lemma Register_effect registration db w : idle conn db w -> ok db ->
  wp (EmailPasswordStore_Register adapter registration) (leaves conn (fun res db' => ok db' /\
    match res with
    | Ok u => Email u = reg_Email registration /\ (exists i, uuid_NewV7 i = Some (ID u)) /\
        users (accounts_of db) !! ID u = None /\ (forall id, ~ has_email id (reg_Email registration) (accounts_of db)) /\
        accounts_of db' = set_hash (ID u) (reg_PasswordHash registration)
          (set_users (<[ID u := mkAccount (reg_Email registration) false]> (users (accounts_of db))) (accounts_of db))
    | Err _ => db' = db
    end)) w.
Proof.
  intros Hw Hok. unfold EmailPasswordStore_Register.
  eapply wp_with_tx; [done|exact Hw|done|]. intros tx w1 Htx Hw1. wp_go; [|by left_in db..].
  match goal with H : uuid_NewV7 ?i = Some ?x |- _ => rename x into userID end.
  match goal with H : uuid_NewV7 ?i = Some _ |- _ => rename H into Huuid; set (n := i) in Huuid end.
  generalize (string_of_list (f <$> seq 0 64)) as handle. intros handle.
  eapply wp_tx_Exec; [done|by unfold inside in *; autorewrite with go| |].
  - intros r2 db2 w2 Hw2 Hr2.
    eapply runs_insert_user with (u := mkUserRecord userID (reg_Email registration) false handle (microseconds (reg_CreatedAt registration)))
      in Hr2 as (Hok2 & Hnone & Hemail & Hrows & Htab & Hs); [|done|by intros; sql_eval]. cbn [conflicting]. wp_go.
    eapply wp_tx_Exec; [done|exact Hw2| |by intros e w' Hw' _; wp_go; exists db].
    intros r3 db3 w3 Hw3 Hr3. apply runs_insert_password in Hr3 as (Hok3 & Hnohash & Hacc); [|done]. wp_go.
    eapply wp_mono; [by eapply tx_Commit_ok|]. intros [[]|e] w4 Hw4.
    + cbn [conflicting]. wp_go. left_in db3. split; [done|]. cbn [ID Email]. cbn [u_ID u_Email] in *.
      split_and!; [done|by exists n| |by apply no_email|].
      * rewrite <- not_elem_of_dom. intros (x & (u & Hu & _)%users_at)%elem_of_dom. congruence.
      * rewrite Hacc. f_equal.
        exact (accounts_add_user (mkUserRecord userID (reg_Email registration) false handle _) db db2 Hok Hnone Htab Hs).
    + destruct Hw4 as [Hw4 _]. unfold conflicting. destruct (uniqueViolation e); wp_go; by left_in db.
  - intros e w' Hw' _. unfold conflicting. destruct (uniqueViolation e); wp_go; by exists db.
Qed.
End PasswordEffects.

(** ** Credentials in the tables *)
Section Owned.
Context {A : Type} (owner : A -> string).

(** The rows of a user. *)
Definition owned (id : string) (rows : list A) : nat := length (List.filter (fun a => String.eqb (owner a) id) rows).

Lemma owned_remove (p : A -> bool) id rows : (forall a, p a = true -> owner a = id) ->
  owned id rows = length (List.filter p rows) + owned id (List.filter (fun a => negb (p a)) rows) /\
  forall j, j <> id -> owned j (List.filter (fun a => negb (p a)) rows) = owned j rows.
Proof.
  intros Hp. unfold owned. induction rows as [|a rows [IH1 IH2]]; [done|]. csimpl.
  destruct (p a) eqn:E; csimpl.
  - rewrite (Hp a E), String.eqb_refl. csimpl. split; [lia|]. intros j Hj. rewrite IH2 by done.
    by destruct (String.eqb_spec id j).
  - destruct (String.eqb_spec (owner a) id); csimpl; (split; [lia|]); intros j Hj; by destruct (String.eqb (owner a) j); csimpl; rewrite IH2.
Qed.

Lemma one_row `{Countable K} (key : A -> K) (p : A -> bool) rows k : NoDup (key <$> rows) ->
  (forall a, p a = true -> key a = k) -> List.filter p rows <> [] -> length (List.filter p rows) = 1.
Proof.
  intros Hnd Hp. rewrite (filter_by_key key p rows k) by done. destruct (by_key key rows !! k) as [a|]; [|done].
  by destruct (p a).
Qed.
End Owned.

Section Rules.
Context {S : Type} (conn : S -> connection).

Lemma wp_lockUser tx id db0 db w (Q : result unit -> World S -> Prop) :
  TxContract tx conn -> inside conn db0 db w ->
  (forall w', inside conn db0 db w' -> Q (Ok tt) w') -> (forall e w', broken conn db0 w' -> Q (Err e) w') ->
  wp (lockUser tx id) Q w.
Proof.
  intros Htx Hw Hok Herr. unfold lockUser. wp_go. eapply wp_tx_QueryRow; [done|exact Hw|..].
  - intros r row db' w' Hw' ->%runs_SELECT_same _. wp_go; eauto.
  - intros r db' w' Hw' _ _. wp_go. eauto.
  - intros e w' Hw' _. wp_go. eauto.
Qed.

Lemma eval_count_of (A : Type) `{Entity A} (owner : A -> string) name column id db now : ok db -> entity A ∈ tables ->
  name = table_name (entity A) -> (forall a, cell (to_row a) column = Text (owner a)) ->
  eval postgresql db now [Text id] [] [] (count_of name column) = Bigint (Z.of_nat (owned owner id (rows_of A db))).
Proof.
  intros Hok Hin Hname Hc. unfold count_of, owned. rewrite (eval_Count postgresql tables db now _ A Hin Hok name Hname _ _ _ _
    (fun a => String.eqb (owner a) id)); [done|]. intros a. cbn [eval field col default]. rewrite String.eqb_refl.
  rewrite Hc. simpl. rewrite Text_eq. by rewrite eqb_decide.
Qed.

(** Rows of a table go, one of them the user's. *)
Lemma runs_delete_owned (A : Type) `{Entity A} (owner : A -> string) id name condition args db r db' (p : A -> bool) :
  runs (DELETE name condition []) args db r db' -> ok db -> entity A ∈ tables ->
  name = table_name (entity A) -> unreferenced tables name = true ->
  (forall now a, matches postgresql db now args condition (to_row a) = p a) -> (forall a, p a = true -> owner a = id) ->
  ok db' /\ others_same db name db' /\ r.2 = length (List.filter p (rows_of A db)) /\
  owned owner id (rows_of A db) = length (List.filter p (rows_of A db)) + owned owner id (rows_of A db') /\
  forall j, j <> id -> owned owner j (rows_of A db') = owned owner j (rows_of A db).
Proof.
  intros Hr Hok Hin Hname Hun Hp Ho. eapply (runs_DELETE A) with (p := p) (g := fun _ => []) in Hr as (Hrows & _ & Hn & Hok' & Hs); try done.
  rewrite Hrows. destruct (owned_remove owner p id (rows_of A db) Ho). done.
Qed.

Lemma eval_Plus d db now args excluded env e1 e2 :
  eval d db now args excluded env (Plus e1 e2) = plus (eval d db now args excluded env e1) (eval d db now args excluded env e2).
Proof. done. Qed.
End Rules.

Ltac counted :=
  rewrite ?eval_Plus;
  rewrite ?(eval_count_of password_record pw_UserID "authlier_password_credentials" "user_id") by (done || in_list);
  rewrite ?(eval_count_of identity_record gi_UserID "authlier_google_identities" "user_id") by (done || in_list);
  rewrite ?(eval_count_of passkey_record pk_SubjectID "authlier_passkey_credentials" "subject_id") by (done || in_list);
  cbn [plus].

(** A branch that leaves the transaction with an error. *)
Ltac refused db :=
  intros;
  repeat match goal with H : SqlServer.runs _ _ (SELECT _ _ _ _ _) _ _ _ _ |- _ => apply runs_SELECT_same in H; subst end;
  cbn [or_absent]; try change (errors_Is ErrNoRows ErrNoRows) with true;
  try match goal with |- context [errors_Is ?e ?x] => destruct (errors_Is e x) end; wp_go; by left_in db.

Section Credentials.
Import AccountSpec EmailPassword EmailPasswordSpec.
Context {S : Type} `{PgTypes} (adapter : Adapter S) (conn : S -> connection) `{!PoolContract (pool adapter) conn}.

(** A user with a password. *)
Definition credential_of (q : user_record -> bool) (db : database) (x : User * PasswordCredential) : Prop :=
  exists a b, user_table db !! ID x.1 = Some a /\ q a = true /\ Email x.1 = u_Email a /\ UserID x.2 = ID x.1 /\
    password_table db !! ID x.1 = Some b /\ PasswordHash x.2 = pw_PasswordHash b.

Lemma FindCredential_effect condition args (q : user_record -> bool) db w : idle conn db w -> ok db ->
  (forall now a b, holds (eval postgresql db now args [] [("p", password_row b); ("u", user_row a)] condition) = q a) ->
  wp (row <- pool_QueryRow (pool adapter) (find_credential condition) args ;; ret (credential_result row))
    (leaves conn (fun res db' => db' = db /\ forall x, res = Ok x -> credential_of q db x)) w.
Proof.
  intros Hw Hok Hq. wp_go. unfold find_credential.
  assert (Hjoin : forall r db', runs (find_credential condition) args db r db' -> db' = db /\ forall x, x ∈ r.1.*2 <->
    exists a b, a ∈ rows_of user_record db /\ b ∈ rows_of password_record db /\
      String.eqb (pw_UserID b) (u_ID a) && q a = true /\ x = [Text (u_ID a); Text (u_Email a); Text (pw_PasswordHash b)]).
  { intros r db' Hr. eapply (runs_join postgresql tables user_record password_record) in Hr; [exact Hr|in_list|in_list|done|done|done| |by intros; sql_eval].
    intros now a b. cbn [eval]. rewrite holds_both, Hq. f_equal. sql_eval. by rewrite eqb_decide. }
  eapply wp_pool_QueryRow; [done|exact Hw|..].
  - intros r row db' w' Hw' [-> Hx]%Hjoin Hrow. wp_go. exists db. do 2 (split; [done|]).
    apply Hx in Hrow as (a & b & Ha & Hb & Hab & ->). apply andb_true_iff in Hab as [Hu Hqa]. apply String.eqb_eq in Hu.
    simpl. intros x [= <-]. exists a, b. simpl. split_and!; try done; [by apply user_at|by apply password_at].
  - intros r db' w' Hw' [-> _]%Hjoin _. wp_go. by exists db.
  - intros e w' Hw' _. wp_go. exists db. do 2 (split; [done|]). intros x. unfold credential_result, or_absent.
    by destruct (errors_Is e Postgres.ErrNoRows).
Qed.

Lemma AddPassword_effect id hash at_ db w : idle conn db w -> ok db ->
  wp (EmailPasswordStore_AddPassword adapter id hash at_) (leaves conn (fun res db' => ok db' /\
    match res with
    | Ok u => ID u = id /\ has_email id (Email u) (accounts_of db) /\ hashes (accounts_of db) !! id = None /\
              accounts_of db' = set_hash id hash (accounts_of db)
    | Err _ => db' = db
    end)) w.
Proof.
  intros Hw Hok. unfold EmailPasswordStore_AddPassword.
  eapply wp_with_tx; [done|exact Hw|done|]. intros tx w1 Htx Hw1. wp_go.
  eapply wp_tx_QueryRow; [done|exact Hw1| |refused db..]. intros r row db2 w2 Hw2 Hr Hrow.
  eapply (runs_SELECT user_record) with (p := fun a => String.eqb (u_ID a) id) (g := fun a => [Text (u_ID a); Text (u_Email a)]) in Hr
    as [-> Hr]; [|in_list|done|done|intros; by sql_eval; rewrite eqb_decide|by intros; sql_eval].
  rewrite Hr in Hrow. apply list_elem_of_fmap in Hrow as (a & -> & [Ha Hid]%elem_of_List_filter). apply String.eqb_eq in Hid.
  cbn [or_absent]. wp_go.
  eapply wp_tx_Exec; [done|exact Hw2| |intros e w' Hw' _; unfold conflicting; destruct (uniqueViolation e); wp_go; by exists db].
  intros r3 db3 w3 Hw3 Hr3. apply runs_insert_password in Hr3 as (Hok3 & Hno & Hacc); [|done]. cbn [conflicting]. wp_go.
  eapply wp_commit; [done|exact Hw3| |done]. split; [done|]. cbn [ID Email]. split_and!; try done.
  exists (account_of a). split; [|done]. apply users_at. exists a. split; [|done]. by apply user_at.
Qed.

Lemma ReplacePasswordHash_effect id current replacement at_ db w : idle conn db w -> ok db ->
  wp (EmailPasswordStore_ReplacePasswordHash adapter id current replacement at_) (leaves conn (fun res db' => ok db' /\
    match res with
    | Ok _ => hashes (accounts_of db) !! id = Some current /\ accounts_of db' = set_hash id replacement (accounts_of db)
    | Err _ => accounts_of db' = accounts_of db
    end)) w.
Proof.
  intros Hw Hok. unfold EmailPasswordStore_ReplacePasswordHash. wp_go.
  set (p := fun a : password_record => String.eqb (pw_UserID a) id && String.eqb (pw_PasswordHash a) current).
  set (f := fun a : password_record => mkPasswordRecord (pw_UserID a) replacement (microseconds at_)).
  assert (Hp : forall a, p a = true -> pw_UserID a = id) by (intros a Ha; unfold p in Ha; by go_bool).
  eapply wp_pool_Exec; [done|exact Hw|..].
  - intros r db' w' Hw' Hr.
    eapply (runs_UPDATE password_record) with (p := p) (f := f) (g := fun _ => []) in Hr as (Hrows & _ & Hn & Hok' & Hs);
      [|in_list|done|done|intros; unfold p; sql_eval; by rewrite !eqb_decide|by intros; sql_eval|done].
    rewrite (filter_by_key pw_UserID p _ id (password_keys _ Hok) Hp) in Hn. fold (password_table db) in Hn.
    assert (Hacc : forall h, password_table db' = h -> accounts_of db' = set_hashes (pw_PasswordHash <$> h) (accounts_of db)).
    { intros h <-. apply accounts_eq; simpl; [by same_tables Hs|done|by same_tables Hs..]. }
    destruct (password_table db !! id) as [a|] eqn:Ha; [destruct (p a) eqn:Hpa|].
    + rewrite Hn. cbn [length Nat.eqb]. wp_go. exists db'. split; [done|]. split; [done|]. split.
      * simpl. rewrite lookup_fmap, Ha. simpl. f_equal. unfold p in Hpa. by go_bool.
      * erewrite Hacc; [|unfold password_table; rewrite Hrows; by eapply by_key_update; [apply password_keys| | |exact Ha|exact Hpa]].
        unfold set_hash. f_equal. by rewrite fmap_insert.
    + rewrite Hn. cbn [length Nat.eqb]. wp_go. exists db'. split; [done|]. split; [done|].
      rewrite (Hacc (password_table db)); [reflexivity|]. unfold password_table. rewrite Hrows, update_none; [done|].
      rewrite (filter_by_key pw_UserID p _ id (password_keys _ Hok) Hp). fold (password_table db). by rewrite Ha, Hpa.
    + rewrite Hn. cbn [length Nat.eqb]. wp_go. exists db'. split; [done|]. split; [done|].
      rewrite (Hacc (password_table db)); [reflexivity|]. unfold password_table. rewrite Hrows, update_none; [done|].
      rewrite (filter_by_key pw_UserID p _ id (password_keys _ Hok) Hp). fold (password_table db). by rewrite Ha.
  - intros e w' Hw' _. wp_go. by exists db.
Qed.

Lemma RemovePassword_effect id hash at_ db w : idle conn db w -> ok db ->
  wp (EmailPasswordStore_RemovePassword adapter id hash at_) (leaves conn (fun res db' => ok db' /\
    match res with
    | Ok _ => (exists p, password_table db !! id = Some p /\ pw_PasswordHash p = hash) /\ other_methods db id <> 0 /\
        (exists u, user_table db !! id = Some u) /\
        rows_of password_record db' = List.filter (fun a => negb (String.eqb (pw_UserID a) id)) (rows_of password_record db) /\
        others_same db "authlier_password_credentials" db'
    | Err _ => db' = db
    end)) w.
Proof.
  intros Hw Hok. unfold EmailPasswordStore_RemovePassword.
  eapply wp_with_tx; [done|exact Hw|done|]. intros tx w1 Htx Hw1. wp_go.
  eapply wp_lockUser; [done|exact Hw1| |refused db]. intros w2 Hw2. cbn [or_absent]. wp_go.
  eapply wp_tx_QueryRow; [done|exact Hw2| |refused db..]. intros r row db2 w3 Hw3 Hr Hrow.
  eapply (runs_SELECT password_record) with (p := fun a => String.eqb (pw_UserID a) id) (g := fun a => [Text (pw_PasswordHash a)]) in Hr
    as [-> Hsel]; [|in_list|done|done|intros; by sql_eval; rewrite eqb_decide|done].
  rewrite Hsel in Hrow. apply list_elem_of_fmap in Hrow as (p & -> & [Hp Hid]%elem_of_List_filter). apply String.eqb_eq in Hid.
  clear r Hsel. cbn [or_absent]. wp_go; try by left_in db. unfold otherCredentialCount. wp_go.
  eapply wp_tx_QueryRow; [done|exact Hw3| |refused db..].
  intros r row2 db2 w4 Hw4 Hr Hrow. eapply runs_counts in Hr as [-> [now ->]]; [|exact Hrow]. clear Hrow.
  cbn [fmap list_fmap]. counted. wp_go; try by left_in db.
  eapply wp_tx_Exec; [done|exact Hw4| |refused db]. intros r3 db3 w5 Hw5 Hr3.
  eapply (runs_DELETE password_record) with (p := fun a => String.eqb (pw_UserID a) id) (g := fun _ => []) in Hr3
    as (Hrows & _ & _ & Hok3 & Hs); [|in_list|done|done|done|intros; by sql_eval; rewrite eqb_decide|done].
  wp_go. eapply wp_commit; [done|exact Hw5| |intros e _; done]. go_bool.
  assert (Hat : password_table db !! id = Some p) by by apply password_at.
  split_and!; [done|by exists p|unfold other_methods, owned in *; lia| |done|done].
  destruct (text_reference password_record user_record pw_UserID u_ID "user_id" "id" db p) as (u & Hu & E);
    [done|in_list|in_list|in_list|done|done|done|]. exists u. apply user_at; [done|]. split; congruence.
Qed.

Definition accounts_view (s : S) : accounts := accounts_of (committed (conn s)).

Lemma remove_accounts id db db' : ok db ->
  rows_of password_record db' = List.filter (fun a => negb (String.eqb (pw_UserID a) id)) (rows_of password_record db) ->
  others_same db "authlier_password_credentials" db' ->
  accounts_of db' = set_hashes (delete id (hashes (accounts_of db))) (accounts_of db).
Proof.
  intros Hok Hrows Hs. apply accounts_eq; simpl; [by same_tables Hs| |by same_tables Hs..].
  unfold password_table. rewrite Hrows.
  rewrite (by_key_delete pw_UserID (fun a => String.eqb (pw_UserID a) id) _ id); [|by apply password_keys|].
  - by rewrite fmap_delete.
  - intros b _. by rewrite eqb_decide.
Qed.
End Credentials.

(** ** The contracts of accounts *)
Ltac account_step Heff :=
  let Hw := fresh "Hw" in let Hok := fresh "Hok" in
  match goal with H : in_order_state _ _ |- _ => destruct (in_order_idle _ _ H) as [Hw Hok] end;
  eapply wp_mono; [by apply Heff|]; intros res w' (db' & Hw' & Hpost).

Ltac account_done Hw' Hok' :=
  let H1 := fresh "Hwf'" in let H2 := fresh "Hdb'" in
  destruct (idle_in_order _ _ _ Hw' Hok') as [H1 H2]; split; [done|]; unfold accounts_view; rewrite H2.

Section EmailContracts.
Import AccountSpec EmailPassword EmailPasswordSpec.
Context {S : Type} `{Env} `{PgTypes} (adapter : Adapter S) (conn : S -> connection) `{!PoolContract (pool adapter) conn}.

Lemma found_credential q db x : ok db -> credential_of q db x ->
  has_email (ID x.1) (Email x.1) (accounts_of db) /\ UserID x.2 = ID x.1 /\
  hashes (accounts_of db) !! ID x.1 = Some (PasswordHash x.2) /\ exists a, u_ID a = ID x.1 /\ u_Email a = Email x.1 /\ q a = true.
Proof.
  intros Hok (a & b & Ha & Hq & Hemail & Huser & Hb & Hh). split_and!; [|done| |].
  - exists (account_of a). split; [apply users_at; by exists a|by rewrite Hemail].
  - simpl. by rewrite lookup_fmap, Hb, Hh.
  - exists a. apply user_at in Ha as [_ ?]; [|done]. done.
Qed.

Lemma postgres_email_contract : (forall i u, uuid_NewV7 i = Some u -> TrimSpace u <> "") ->
  EmailStoreContract (EmailPasswordStore adapter) (in_order_state conn) (accounts_view conn).
Proof.
  intros Hids. split; simpl.
  - intros reg w Hwf. account_step (Register_effect adapter conn). destruct Hpost as [Hok' Hpost]. account_done Hw' Hok'.
    destruct res as [u|e]; [|by rewrite Hpost]. destruct Hpost as (? & (i & Hi) & ? & ? & ?). eauto 8.
  - intros email w Hwf. destruct (in_order_idle _ _ Hwf) as [Hw Hok]. unfold EmailPasswordStore_FindByEmail.
    eapply wp_mono; [apply (FindCredential_effect adapter conn _ _ (fun a => String.eqb (u_Email a) email) _ _ Hw Hok)|].
    { intros now a b. sql_eval. by rewrite eqb_decide. }
    intros res w' (db' & Hw' & -> & Hpost). account_done Hw' Hok. split; [done|]. intros u c Hres.
    destruct (found_credential _ _ _ Hok (Hpost _ Hres)) as (He & Hu & Hh & a & Ha & Hae & Hq). simpl in *.
    apply String.eqb_eq in Hq. assert (Email u = email) by congruence. split_and!; congruence.
  - intros id current replacement at_ w Hwf. account_step (ReplacePasswordHash_effect adapter conn). destruct Hpost as [Hok' Hpost].
    account_done Hw' Hok'. by destruct res as [[]|e].
Qed.

Lemma postgres_credential_contract :
  CredentialStoreContract (EmailPasswordCredentialStore adapter) (in_order_state conn) (accounts_view conn).
Proof.
  split; simpl.
  - intros id w Hwf. destruct (in_order_idle _ _ Hwf) as [Hw Hok]. unfold EmailPasswordStore_FindBySubject.
    eapply wp_mono; [apply (FindCredential_effect adapter conn _ _ (fun a => String.eqb (u_ID a) id) _ _ Hw Hok)|].
    { intros now a b. sql_eval. by rewrite eqb_decide. }
    intros res w' (db' & Hw' & -> & Hpost). account_done Hw' Hok. split; [done|]. intros u c Hres.
    destruct (found_credential _ _ _ Hok (Hpost _ Hres)) as (He & Hu & Hh & a & Ha & Hae & Hq). simpl in *.
    apply String.eqb_eq in Hq. assert (ID u = id) as <- by congruence. done.
  - intros id hash at_ w Hwf. account_step (AddPassword_effect adapter conn). destruct Hpost as [Hok' Hpost]. account_done Hw' Hok'.
    destruct res as [u|e]; [|by rewrite Hpost]. destruct Hpost as (? & ? & ? & ?). done.
  - intros id current replacement at_ w Hwf. account_step (ReplacePasswordHash_effect adapter conn). destruct Hpost as [Hok' Hpost].
    account_done Hw' Hok'. by destruct res as [[]|e].
  - intros id current at_ w Hwf. account_step (RemovePassword_effect adapter conn). destruct Hpost as [Hok' Hpost]. account_done Hw' Hok'.
    destruct res as [[]|e]; [|by rewrite Hpost]. destruct Hpost as ((p & Hp & Hh) & Hm & (u & Hu) & Hrows & Hs). split_and!.
    + simpl. by rewrite lookup_fmap, Hp, <- Hh.
    + exists (other_methods (committed (conn (ext w))) id). split; [|lia]. simpl. rewrite lookup_omap, Hu. simpl.
      apply user_at in Hu as [_ ->]; [|done]. unfold some_methods. by destruct (Nat.eqb_spec (other_methods (committed (conn (ext w))) id) 0).
    + by apply remove_accounts.
Qed.
End EmailContracts.

(** ** Pending verifications and resets *)
Section Pending.
Context {B : Type} `{Entity B} `{PgTypes} (mk : pending_record -> B) (as_ : B -> pending_record) (name : string).
Context (Hin : entity B ∈ tables) (Hname : name = table_name (entity B)) (Hfind : find_table tables name = Some (entity B)).
Context (Htable : entity B = pending_table name) (Hrow : forall b, to_row b = pending_row (as_ b)) (Hmk : forall b, mk (as_ b) = b) (Has : forall p, as_ (mk p) = p).

Definition pending_key (b : B) : string := pr_UserID (as_ b).

(** A new request takes the place of the user's last one. *)
Lemma runs_issue user email hash c x db r db' :
  runs (issue_pending name) [Text user; Text email; Bytea hash; time_value c; time_value x] db r db' -> ok db ->
  NoDup (pending_key <$> rows_of B db) ->
  ok db' /\ others_same db name db' /\
  by_key pending_key (rows_of B db') =
    <[user := mk (mkPendingRecord user email hash (microseconds c) (microseconds x))]> (by_key pending_key (rows_of B db)).
Proof.
  intros Hr Hok Hnd. set (a := mk (mkPendingRecord user email hash (microseconds c) (microseconds x))).
  set (f := fun b : B => mk (mkPendingRecord (pr_UserID (as_ b)) email hash (microseconds c) (microseconds x))).
  assert (Ha : pending_key a = user) by (unfold pending_key, a; by rewrite Has).
  eapply (runs_upsert B) with (a := a) (same := fun b => bool_decide (pending_key b = pending_key a)) (f := f) in Hr
    as (Hrows & Hok' & Hs); [|done|done|done|done|..].
  - split_and!; [done|done|]. rewrite Hrows. rewrite (by_key_upsert pending_key); [by rewrite Ha|done|done|].
    intros b Hb. go_bool. unfold f, a. do 2 f_equal. change (pending_key b = user). by rewrite Hb.
  - intros now. rewrite Htable, Hrow. unfold a. rewrite Has. by sql_eval.
  - intros b. rewrite !Hrow. unfold a. rewrite Has. sql_eval. unfold pending_key. rewrite Has. simpl.
    rewrite andb_true_r. apply bool_decide_ext. naive_solver.
  - intros now b _. rewrite !Hrow. unfold f, a. rewrite !Has. by sql_eval.
Qed.
End Pending.

Section MailEffects.
Import AccountSpec.
Context {S : Type} `{PgTypes} (adapter : Adapter S) (conn : S -> connection) `{!PoolContract (pool adapter) conn}.

(** Another record for a user who is there. *)
Lemma accounts_set_user u u' db db' : ok db -> user_table db !! u_ID u = Some u -> u_ID u' = u_ID u ->
  user_table db' = <[u_ID u := u']> (user_table db) -> others_same db "authlier_users" db' ->
  accounts_of db' = set_users (<[u_ID u := account_of u']> (users (accounts_of db))) (accounts_of db).
Proof.
  intros Hok Hu Hid Htab Hs. apply accounts_eq; simpl; [by rewrite Htab, fmap_insert|by same_tables Hs| |by same_tables Hs..].
  assert (Hm : forall id, other_methods db' id = other_methods db id) by (intros id; by same_tables Hs).
  rewrite Htab, (omap_ext _ (fun v => some_methods (other_methods db (u_ID v)))) by (intros; by rewrite Hm).
  apply map_eq. intros id. rewrite !lookup_omap. destruct (decide (u_ID u = id)) as [<-|]; [|by rewrite lookup_insert_ne].
  rewrite lookup_insert_eq, Hu. simpl. by rewrite Hid.
Qed.

Lemma runs_verify_user id u db r db' :
  runs (UPDATE "authlier_users" [("email_verified", Const (Boolean true))] ("id" = $1)%sql []) [Text id] db r db' -> ok db ->
  user_table db !! id = Some u ->
  ok db' /\ others_same db "authlier_users" db' /\
  accounts_of db' = set_users (<[id := mkAccount (u_Email u) true]> (users (accounts_of db))) (accounts_of db).
Proof.
  intros Hr Hok Hu. set (f := fun v => mkUserRecord (u_ID v) (u_Email v) true (u_Handle v) (u_CreatedAt v)).
  eapply (runs_UPDATE user_record) with (p := fun v => String.eqb (u_ID v) id) (f := f) (g := fun _ => []) in Hr
    as (Hrows & _ & _ & Hok' & Hs); [|in_list|done|done|intros; by sql_eval; rewrite eqb_decide|by intros; sql_eval|done].
  split_and!; [done|done|]. pose proof Hu as Hu'. apply user_at in Hu' as [_ Hid]; [|done]. rewrite <- Hid in *.
  apply (accounts_set_user u (f u) db db'); try done. unfold user_table. rewrite Hrows.
  apply by_key_update with (a := u); try done; [by apply user_keys|by intros b ->%String.eqb_eq|by apply String.eqb_eq].
Qed.

Lemma runs_drop_verification id db r db' :
  runs (DELETE "authlier_email_verifications" ("user_id" = $1)%sql []) [Text id] db r db' -> ok db ->
  ok db' /\ accounts_of db' = set_verifications (delete id (verifications (accounts_of db))) (accounts_of db).
Proof.
  intros Hr Hok.
  eapply (runs_DELETE verification_record) with (p := fun v => String.eqb (pr_UserID (as_pending v)) id) (g := fun _ => []) in Hr
    as (Hrows & _ & _ & Hok' & Hs); [|in_list|done|done|done|intros; by sql_eval; rewrite eqb_decide|done].
  split; [done|]. apply accounts_eq; simpl; [by same_tables Hs..| |by same_tables Hs].
  unfold verification_table. rewrite Hrows, (by_key_delete _ (fun v => String.eqb (pr_UserID (as_pending v)) id) _ id);
    [by rewrite fmap_delete|by apply verification_keys|]. intros b _. by rewrite eqb_decide.
Qed.

Lemma runs_drop_reset id db r db' :
  runs (DELETE "authlier_password_resets" ("user_id" = $1)%sql []) [Text id] db r db' -> ok db ->
  ok db' /\ accounts_of db' = set_resets (delete id (resets (accounts_of db))) (accounts_of db).
Proof.
  intros Hr Hok.
  eapply (runs_DELETE reset_record) with (p := fun v => String.eqb (pr_UserID (as_reset v)) id) (g := fun _ => []) in Hr
    as (Hrows & _ & _ & Hok' & Hs); [|in_list|done|done|done|intros; by sql_eval; rewrite eqb_decide|done].
  split; [done|]. apply accounts_eq; simpl; [by same_tables Hs..|].
  unfold reset_table. rewrite Hrows, (by_key_delete _ (fun v => String.eqb (pr_UserID (as_reset v)) id) _ id);
    [by rewrite fmap_delete|by apply reset_keys|]. intros b _. by rewrite eqb_decide.
Qed.

(** The statement that gives a user a password, or another one. *)
Definition put_password : statement :=
  INSERT "authlier_password_credentials" [("user_id", $1); ("password_hash", $2); ("updated_at", $3)]
    (Some (["user_id"], [("password_hash", Excluded "password_hash"); ("updated_at", Excluded "updated_at")])).

Lemma runs_put_password id hash at_ db r db' : runs put_password [Text id; Text hash; time_value at_] db r db' -> ok db ->
  ok db' /\ accounts_of db' = set_hash id hash (accounts_of db).
Proof.
  intros Hr Hok. set (a := mkPasswordRecord id hash (microseconds at_)).
  eapply (runs_upsert password_record) with (a := a) (same := fun b => bool_decide (pw_UserID b = id))
    (f := fun b => mkPasswordRecord (pw_UserID b) hash (microseconds at_)) in Hr as (Hrows & Hok' & Hs); [|in_list|done|done|done|..].
  - split; [done|]. apply accounts_eq; simpl; [by same_tables Hs| |by same_tables Hs..].
    unfold password_table. rewrite Hrows, (by_key_upsert pw_UserID (fun b => bool_decide (pw_UserID b = id)) _ _ a); [by rewrite fmap_insert|by apply password_keys|done|].
    intros b Hb. go_bool. unfold a. by rewrite Hb.
  - intros now. by sql_eval.
  - intros b. unfold a. sql_eval. rewrite ?andb_true_r. apply bool_decide_ext. naive_solver.
  - intros now b _. by sql_eval.
Qed.

(** A user by email. *)
Lemma select_by_email targets (g : user_record -> list value) email db r db' :
  runs (SELECT targets [("", "authlier_users")] ("email" = $1)%sql None []) [Text email] db r db' -> ok db ->
  (forall now a, project postgresql db now [Text email] targets [("", user_row a)] = g a) ->
  db' = db /\ forall row, row ∈ r.1.*2 -> exists a, user_table db !! u_ID a = Some a /\ u_Email a = email /\ row = g a.
Proof.
  intros Hr Hok Hg.
  eapply (runs_SELECT user_record) with (p := fun a => String.eqb (u_Email a) email) (g := g) in Hr
    as [-> Hr]; [|in_list|done|done|intros; by sql_eval; rewrite eqb_decide|done].
  split; [done|]. intros row Hrow. rewrite Hr in Hrow.
  apply list_elem_of_fmap in Hrow as (a & -> & [Ha He]%elem_of_List_filter). apply String.eqb_eq in He.
  exists a. split_and!; [by apply user_at|done|done].
Qed.

Lemma VerificationFind_effect email db w : idle conn db w -> ok db ->
  wp (EmailVerificationStore_FindUserByEmail adapter email) (leaves conn (fun res db' => db' = db /\
    forall u, res = Ok u -> exists a, user_table db !! EmailVerification.user_ID u = Some a /\ u_Email a = email /\
      u = EmailVerification.mkUser (u_ID a) (u_Email a) (u_Verified a))) w.
Proof.
  intros Hw Hok. unfold EmailVerificationStore_FindUserByEmail. wp_go. eapply wp_pool_QueryRow; [done|exact Hw|..].
  - intros r row db' w' Hw' Hr Hrow. wp_go.
    eapply (select_by_email _ (fun a => [Text (u_ID a); Text (u_Email a); Boolean (u_Verified a)])) in Hr as [-> Hr]; [|done|by intros; sql_eval].
    exists db. do 2 (split; [done|]). destruct (Hr row Hrow) as (a & Ha & He & ->). simpl. intros u [= <-]. by exists a.
  - intros r db' w' Hw' ->%runs_SELECT_same _. wp_go. by exists db.
  - intros e w' Hw' _. wp_go. exists db. do 2 (split; [done|]). intros u. unfold or_absent. by destruct (errors_Is e ErrNoRows).
Qed.

Lemma ResetFind_effect email db w : idle conn db w -> ok db ->
  wp (PasswordResetStore_FindUserByEmail adapter email) (leaves conn (fun res db' => db' = db /\
    forall u, res = Ok u -> exists a, user_table db !! PasswordReset.user_ID u = Some a /\ u_Email a = email /\
      u = PasswordReset.mkUser (u_ID a) (u_Email a))) w.
Proof.
  intros Hw Hok. unfold PasswordResetStore_FindUserByEmail. wp_go. eapply wp_pool_QueryRow; [done|exact Hw|..].
  - intros r row db' w' Hw' Hr Hrow. wp_go.
    eapply (select_by_email _ (fun a => [Text (u_ID a); Text (u_Email a)])) in Hr as [-> Hr]; [|done|by intros; sql_eval].
    exists db. do 2 (split; [done|]). destruct (Hr row Hrow) as (a & Ha & He & ->). simpl. intros u [= <-]. by exists a.
  - intros r db' w' Hw' ->%runs_SELECT_same _. wp_go. by exists db.
  - intros e w' Hw' _. wp_go. exists db. do 2 (split; [done|]). intros u. unfold or_absent. by destruct (errors_Is e ErrNoRows).
Qed.

Lemma VerificationIssue_effect (record : EmailVerification.VerificationRecord) db w : idle conn db w -> ok db ->
  wp (EmailVerificationStore_Issue adapter record) (leaves conn (fun res db' => ok db' /\
    match res with
    | Ok _ => accounts_of db' = set_verifications
        (<[EmailVerification.rec_UserID record := mkPending (EmailVerification.rec_Email record) (EmailVerification.rec_TokenHash record)
             (microseconds (EmailVerification.rec_ExpiresAt record))]> (verifications (accounts_of db))) (accounts_of db)
    | Err _ => db' = db
    end)) w.
Proof.
  intros Hw Hok. unfold EmailVerificationStore_Issue. wp_go. eapply wp_pool_Exec; [done|exact Hw|..].
  - intros r db' w' Hw' Hr. wp_go. exists db'. split; [done|]. simpl.
    eapply (runs_issue mkVerification as_pending "authlier_email_verifications") in Hr as (Hok' & Hs & Hrows);
      [|in_list|done|done|done|done|done|exact Hok|by apply verification_keys].
    split; [done|]. apply accounts_eq; simpl; [by same_tables Hs..| |by same_tables Hs].
    change (verification_table db') with (by_key (pending_key as_pending) (rows_of verification_record db')).
    by rewrite Hrows, fmap_insert.
  - intros e w' Hw' _. wp_go. exists db. split; [done|]. simpl. by destruct (uniqueViolation e).
Qed.

Lemma ResetIssue_effect (record : PasswordReset.ResetRecord) db w : idle conn db w -> ok db ->
  wp (PasswordResetStore_Issue adapter record) (leaves conn (fun res db' => ok db' /\
    match res with
    | Ok _ => accounts_of db' = set_resets
        (<[PasswordReset.rec_UserID record := mkPending (PasswordReset.rec_Email record) (PasswordReset.rec_TokenHash record)
             (microseconds (PasswordReset.rec_ExpiresAt record))]> (resets (accounts_of db))) (accounts_of db)
    | Err _ => db' = db
    end)) w.
Proof.
  intros Hw Hok. unfold PasswordResetStore_Issue. wp_go. eapply wp_pool_Exec; [done|exact Hw|..].
  - intros r db' w' Hw' Hr. wp_go. exists db'. split; [done|]. simpl.
    eapply (runs_issue mkReset as_reset "authlier_password_resets") in Hr as (Hok' & Hs & Hrows);
      [|in_list|done|done|done|done|done|exact Hok|by apply reset_keys].
    split; [done|]. apply accounts_eq; simpl; [by same_tables Hs..|].
    change (reset_table db') with (by_key (pending_key as_reset) (rows_of reset_record db')).
    by rewrite Hrows, fmap_insert.
  - intros e w' Hw' _. wp_go. exists db. split; [done|]. simpl. by destruct (uniqueViolation e).
Qed.

(** A live verification is used up and the email of its user verified. *)
Lemma Verify_effect hash at_ db w : idle conn db w -> ok db ->
  wp (EmailVerificationStore_Verify adapter hash at_) (leaves conn (fun res db' => ok db' /\
    match res with
    | Ok u => let id := EmailVerification.user_ID u in exists p a, verifications (accounts_of db) !! id = Some p /\
        p_TokenHash p = hash /\ (at_ < p_ExpiresAt p)%Z /\ users (accounts_of db) !! id = Some a /\ acc_Verified a = false /\
        u = EmailVerification.mkUser id (acc_Email a) true /\ accounts_of db' = EmailVerificationSpec.verify_user id a (accounts_of db)
    | Err _ => db' = db
    end)) w.
Proof.
  intros Hw Hok. unfold EmailVerificationStore_Verify.
  eapply wp_with_tx; [done|exact Hw|done|]. intros tx w1 Htx Hw1. wp_go.
  eapply wp_tx_QueryRow; [done|exact Hw1| |refused db..]. intros r row db2 w2 Hw2 Hr Hrow.
  eapply (runs_join postgresql tables verification_record user_record) with
    (p := fun v u => String.eqb (u_ID u) (pr_UserID (as_pending v)) && String.eqb (pr_TokenHash (as_pending v)) hash)
    (g := fun v u => [Text (u_ID u); Text (u_Email u); Boolean (u_Verified u); Timestamp (pr_ExpiresAt (as_pending v))]) in Hr
    as [-> Hx]; [|in_list|in_list|done|done|done|intros; by sql_eval; rewrite !eqb_decide|by intros; sql_eval].
  apply Hx in Hrow as (v & u & Hv & Hu & Hvu & ->). apply andb_true_iff in Hvu as [Hid Hh].
  apply String.eqb_eq in Hid. apply String.eqb_eq in Hh.
  cbn [or_absent]. wp_go; [by left_in db|]. apply orb_false_iff in Heqb as [Hver Hlive]. go_bool.
  eapply wp_tx_Exec; [done|exact Hw2| |intros e w' Hw' _; wp_go; by left_in db]. intros r3 db3 w3 Hw3 Hr3.
  eapply runs_verify_user in Hr3 as (Hok3 & Hs3 & Hacc3); [|done|by apply user_at]. wp_go.
  eapply wp_tx_Exec; [done|exact Hw3| |intros e w' Hw' _; wp_go; by left_in db]. intros r4 db4 w4 Hw4 Hr4.
  apply runs_drop_verification in Hr4 as (Hok4 & Hacc4); [|done]. wp_go. eapply wp_commit; [done|exact Hw4| |done].
  split; [done|]. cbn [EmailVerification.user_ID]. exists (pending_of (as_pending v)), (account_of u). split_and!; try done.
  - simpl. rewrite lookup_fmap. unfold verification_table.
    rewrite (proj2 (by_key_Some _ _ (u_ID u) v (verification_keys _ Hok))); [done|]. by split.
  - simpl. by rewrite lookup_fmap, (proj2 (user_at _ _ u Hok)).
  - rewrite Hacc4, Hacc3. done.
Qed.

(** A live reset is used up and its user has the new password. *)
Lemma ResetPassword_effect hash newHash at_ db w : idle conn db w -> ok db ->
  wp (PasswordResetStore_ResetPassword adapter hash newHash at_) (leaves conn (fun res db' => ok db' /\
    match res with
    | Ok u => let id := PasswordReset.user_ID u in exists p, resets (accounts_of db) !! id = Some p /\
        p_TokenHash p = hash /\ (at_ < p_ExpiresAt p)%Z /\ has_email id (PasswordReset.user_Email u) (accounts_of db) /\
        accounts_of db' = PasswordResetSpec.reset_user id newHash (accounts_of db)
    | Err _ => db' = db
    end)) w.
Proof.
  intros Hw Hok. unfold PasswordResetStore_ResetPassword.
  eapply wp_with_tx; [done|exact Hw|done|]. intros tx w1 Htx Hw1. wp_go.
  eapply wp_tx_QueryRow; [done|exact Hw1| |refused db..]. intros r row db2 w2 Hw2 Hr Hrow.
  eapply (runs_join postgresql tables reset_record user_record) with
    (p := fun v u => String.eqb (u_ID u) (pr_UserID (as_reset v)) && String.eqb (pr_TokenHash (as_reset v)) hash)
    (g := fun v u => [Text (u_ID u); Text (u_Email u); Timestamp (pr_ExpiresAt (as_reset v))]) in Hr
    as [-> Hx]; [|in_list|in_list|done|done|done|intros; by sql_eval; rewrite !eqb_decide|by intros; sql_eval].
  apply Hx in Hrow as (v & u & Hv & Hu & Hvu & ->). apply andb_true_iff in Hvu as [Hid Hh].
  apply String.eqb_eq in Hid. apply String.eqb_eq in Hh.
  cbn [or_absent]. wp_go; [by left_in db|]. go_bool.
  eapply wp_tx_Exec; [done|exact Hw2| |intros e w' Hw' _; wp_go; by left_in db]. intros r3 db3 w3 Hw3 Hr3.
  apply runs_put_password in Hr3 as (Hok3 & Hacc3); [|done]. wp_go.
  eapply wp_tx_Exec; [done|exact Hw3| |intros e w' Hw' _; wp_go; by left_in db]. intros r4 db4 w4 Hw4 Hr4.
  apply runs_drop_reset in Hr4 as (Hok4 & Hacc4); [|done]. wp_go. eapply wp_commit; [done|exact Hw4| |done].
  split; [done|]. cbn [PasswordReset.user_ID PasswordReset.user_Email]. exists (pending_of (as_reset v)). split_and!; try done.
  - simpl. rewrite lookup_fmap. unfold reset_table.
    rewrite (proj2 (by_key_Some _ _ (u_ID u) v (reset_keys _ Hok))); [done|]. by split.
  - exists (account_of u). split; [|done]. simpl. by rewrite lookup_fmap, (proj2 (user_at _ _ u Hok)).
  - rewrite Hacc4, Hacc3. done.
Qed.
End MailEffects.

(** ** The contracts of verifications and resets *)
Lemma one_hash {B} (key hash : B -> string) rows i j b c :
  NoDup (key <$> rows) -> NoDup (hash <$> rows) -> by_key key rows !! i = Some b -> by_key key rows !! j = Some c ->
  hash b = hash c -> i = j.
Proof.
  intros Hk Hh [Hb <-]%by_key_Some [Hc <-]%by_key_Some Hbc; [|done|done]. by rewrite (key_inj hash rows b c).
Qed.

Section MailContracts.
Import AccountSpec.
Context {S : Type} `{PgTypes} (adapter : Adapter S) (conn : S -> connection) `{!PoolContract (pool adapter) conn}.

(** The adapters send no mail. *)
Definition no_mail {A} (s : S) : list A := [].

Lemma postgres_verification_contract :
  EmailVerificationSpec.KeptVerificationStoreContract microseconds (EmailVerificationStore adapter) (in_order_state conn)
    (accounts_view conn) no_mail.
Proof.
  split; simpl.
  - intros w i j p q [_ Hok] (v & <- & Hi)%lookup_fmap_Some (u & <- & Hj)%lookup_fmap_Some E.
    by eapply (one_hash _ (fun v => pr_TokenHash (as_pending v))); [apply verification_keys|apply verification_hashes|..].
  - intros email w Hwf. account_step (VerificationFind_effect adapter conn). destruct Hpost as [-> Hpost]. account_done Hw' Hok.
    split_and!; [done..|]. intros u Hu. destruct (Hpost u Hu) as (a & Ha & He & ->). simpl in *. exists (account_of a).
    split_and!; [|done|done]. apply users_at. by exists a.
  - intros record w Hwf. account_step (VerificationIssue_effect adapter conn).
    destruct Hpost as [Hok' Hpost]. account_done Hw' Hok'. split; [done|].
    destruct res as [[]|e]; by rewrite Hpost.
  - intros hash at_ w Hwf. account_step (Verify_effect adapter conn). destruct Hpost as [Hok' Hpost]. account_done Hw' Hok'.
    split; [done|]. by destruct res as [u|e]; [|rewrite Hpost].
Qed.

Lemma postgres_reset_contract :
  PasswordResetSpec.KeptResetStoreContract microseconds (PasswordResetStore adapter) (in_order_state conn)
    (accounts_view conn) no_mail.
Proof.
  split; simpl.
  - intros w i j p q [_ Hok] (v & <- & Hi)%lookup_fmap_Some (u & <- & Hj)%lookup_fmap_Some E.
    by eapply (one_hash _ (fun v => pr_TokenHash (as_reset v))); [apply reset_keys|apply reset_hashes|..].
  - intros email w Hwf. account_step (ResetFind_effect adapter conn). destruct Hpost as [-> Hpost]. account_done Hw' Hok.
    split_and!; [done..|]. intros u Hu. destruct (Hpost u Hu) as (a & Ha & He & ->). simpl in *. exists (account_of a).
    split; [|done]. apply users_at. by exists a.
  - intros record w Hwf. account_step (ResetIssue_effect adapter conn).
    destruct Hpost as [Hok' Hpost]. account_done Hw' Hok'. split; [done|].
    destruct res as [[]|e]; by rewrite Hpost.
  - intros hash newHash at_ w Hwf. account_step (ResetPassword_effect adapter conn). destruct Hpost as [Hok' Hpost].
    account_done Hw' Hok'. split; [done|]. by destruct res as [u|e]; [|rewrite Hpost].
Qed.
End MailContracts.

(** ** What is pending until it is used up

    Records kept under the hash of a secret, as [mk c None] until a DELETE takes
    them away; the column of the use is never written. *)
Section OneTime.
Context {C B : Type} `{Entity B} (mk : C -> option time -> B) (content : B -> C) (hash : C -> string) (name : string).
Context (Hin : entity B ∈ tables) (Hname : name = table_name (entity B)) (Hfind : find_table tables name = Some (entity B)).
Context (Hun : unreferenced tables name = true) (Hmk : forall c u, content (mk c u) = c).

Definition one_time (db : database) : gmap string C := content <$> by_key (fun b => hash (content b)) (rows_of B db).

Lemma runs_create values args (c : C) db r db' : runs (INSERT name values None) args db r db' -> ok db ->
  (forall now, build_row postgresql db now args (entity B) values = to_row (mk c None)) ->
  NoDup ((fun b => hash (content b)) <$> rows_of B db') ->
  ok db' /\ others_same db name db' /\ one_time db !! hash c = None /\ one_time db' = <[hash c := c]> (one_time db).
Proof.
  intros Hr Hok Hrow Hnd. eapply (runs_INSERT B) with (a := fun _ => mk c None) in Hr as (_ & Hrows & Hok' & Hs); try done.
  rewrite Hrows in Hnd. apply by_key_app in Hnd as [Hn Hi]. rewrite Hmk in *.
  unfold one_time. split_and!; [done|done|by rewrite lookup_fmap, Hn|]. by rewrite Hrows, Hi, fmap_insert, Hmk.
Qed.

Lemma runs_use_up condition returning args h (g : C -> list value) db r db' :
  runs (DELETE name condition returning) args db r db' -> ok db ->
  (forall now b, matches postgresql db now args condition (to_row b) = String.eqb (hash (content b)) h) ->
  (forall now b, project postgresql db now args returning [("", to_row b)] = g (content b)) ->
  NoDup ((fun b => hash (content b)) <$> rows_of B db) ->
  ok db' /\ others_same db name db' /\ one_time db' = delete h (one_time db) /\
  forall row, row ∈ r.1.*2 -> exists c, one_time db !! h = Some c /\ row = g c.
Proof.
  intros Hr Hok Hp Hg Hnd.
  eapply (runs_DELETE B) with (p := fun b => String.eqb (hash (content b)) h) (g := fun b => g (content b)) in Hr
    as (Hrows & Hret & _ & Hok' & Hs); try done.
  split_and!; [done|done| |].
  - unfold one_time. rewrite Hrows. rewrite (by_key_delete _ _ _ h) by (done || intros; by rewrite eqb_decide).
    by rewrite fmap_delete.
  - intros row. rewrite Hret, list_elem_of_fmap. intros (b & -> & [Hb Hh]%elem_of_List_filter). apply String.eqb_eq in Hh.
    exists (content b). split; [|done]. unfold one_time. rewrite lookup_fmap.
    by rewrite (proj2 (by_key_Some _ _ h b Hnd)).
Qed.
End OneTime.

(** ** Google sign-in in the tables *)
Section GoogleView.
Import GoogleOAuth GoogleOAuthSpec.

Record google_record : Type := mkGoogleRecord { gc_Challenge : Challenge; gc_ConsumedAt : option time }.

Definition google_row (g : google_record) : row :=
  let c := gc_Challenge g in
  [("state_hash", Bytea (StateHash c)); ("nonce", Text (ch_Nonce c)); ("code_verifier", Text (CodeVerifier c));
   ("subject_id", Text (ch_SubjectID c)); ("created_at", Timestamp (CreatedAt c)); ("expires_at", Timestamp (ExpiresAt c));
   ("consumed_at", nullable Timestamp (gc_ConsumedAt g))].
Arguments google_row g /.

#[export, refine] Instance google_entity : Entity google_record :=
  {| entity := authlier_google_challenges; to_row := google_row;
     of_row r := match r.*2 with
                 | [Bytea h; Text n; Text v; Text s; Timestamp c; Timestamp x; u] =>
                     mkGoogleRecord (mkChallenge h n v s c x) <$> scan_optional_time u
                 | _ => None
                 end |}.
Proof.
  - by intros [[] []].
  - entity_cells.
    + by eexists (mkGoogleRecord (mkChallenge _ _ _ _ _ _) None).
    + by eexists (mkGoogleRecord (mkChallenge _ _ _ _ _ _) (Some _)).
Defined.

Definition google_challenges (db : database) : gmap string Challenge := one_time gc_Challenge StateHash db.
Definition identity_table (db : database) : gmap string identity_record := by_key gi_ProviderSubject (rows_of identity_record db).

(** The ways to sign in but Google's. *)
Definition local_methods (db : database) (id : string) : nat :=
  owned pw_UserID id (rows_of password_record db) + owned pk_SubjectID id (rows_of passkey_record db).

Definition links_of (db : database) : links :=
  mkLinks (google_challenges db) (gi_UserID <$> identity_table db) (u_Email <$> user_table db)
    (omap (fun u => some_methods (local_methods db (u_ID u))) (user_table db)).

Lemma google_keys db : ok db -> NoDup ((fun g => StateHash (gc_Challenge g)) <$> rows_of google_record db).
Proof. intros Hok. by apply (bytea_key google_record _ "state_hash" db); [done|in_list..|]. Qed.

Lemma identity_at db p i : ok db -> identity_table db !! p = Some i <-> i ∈ rows_of identity_record db /\ gi_ProviderSubject i = p.
Proof. intros Hok. apply by_key_Some, identity_keys, Hok. Qed.

(** The user of an identity, and of a password. *)
Lemma identity_user_there i db : ok db -> i ∈ rows_of identity_record db -> is_Some (user_table db !! gi_UserID i).
Proof.
  intros Hok Hi. destruct (text_reference identity_record user_record gi_UserID u_ID "user_id" "id" db i) as (u & Hu & E);
    [done|in_list|in_list|in_list|done|done|done|]. exists u. by apply user_at.
Qed.

(** The constraints of the tables keep the invariant of the links. *)
Lemma links_of_inv db : ok db -> links_inv (links_of db).
Proof.
  intros Hok. split; simpl.
  - intros p q id (i & Hi & Hp)%lookup_fmap_Some (j & Hj & Hq)%lookup_fmap_Some.
    apply identity_at in Hp as [Hp <-]; [|done]. apply identity_at in Hq as [Hq <-]; [|done].
    by rewrite (key_inj gi_UserID (rows_of identity_record db) i j) by (done || by apply identity_users || congruence).
  - intros p id (i & <- & [Hi _]%identity_at)%lookup_fmap_Some; [|done]. rewrite lookup_fmap, fmap_is_Some.
    by apply identity_user_there.
  - unfold google_challenges, one_time. intros h c (g & <- & Hg)%lookup_fmap_Some.
    by apply by_key_Some in Hg as [_ <-]; [|apply google_keys].
Qed.

Lemma links_eq s s' : states s = states s' -> owners s = owners s' -> people s = people s' -> methods s = methods s' -> s = s'.
Proof. destruct s, s'. simpl. by intros -> -> -> ->. Qed.
End GoogleView.

(** No row, no record. *)
Lemma no_identity_rows (q : identity_record -> bool) {X} (g : identity_record -> X) (r : list X) db i :
  r = g <$> List.filter q (rows_of identity_record db) -> r = [] -> i ∈ rows_of identity_record db -> q i = false.
Proof.
  intros -> Hnil Hi. apply fmap_nil_inv in Hnil. destruct (q i) eqn:E; [|done].
  assert (Hf : i ∈ List.filter q (rows_of identity_record db)) by by apply elem_of_List_filter. rewrite Hnil in Hf. set_solver.
Qed.

Ltac same_links Hs :=
  unfold google_challenges, one_time, identity_table, user_table, local_methods;
  rewrite ?(rows_of_same user_record _ _ _ Hs), ?(rows_of_same password_record _ _ _ Hs),
    ?(rows_of_same identity_record _ _ _ Hs), ?(rows_of_same passkey_record _ _ _ Hs),
    ?(rows_of_same google_record _ _ _ Hs) by done.

Section GoogleRules.
Import GoogleOAuth GoogleOAuthSpec.
Context {S : Type} (conn : S -> connection).

(** The identity gets a user: one who is there, since the row refers to it. *)
Lemma runs_link subject id email db r db' :
  runs (INSERT "authlier_google_identities"
    [("provider_subject", $1); ("user_id", $2); ("email", $3); ("linked_at", CurrentTimestamp)] None)
    [Text subject; Text id; Text email] db r db' -> ok db ->
  ok db' /\ identity_table db !! subject = None /\ is_Some (user_table db !! id) /\ links_of db' = link subject id (links_of db).
Proof.
  intros Hr Hok. eapply (runs_INSERT identity_record) with (a := fun now => mkIdentityRecord subject id email now) in Hr
    as (now & Hrows & Hok' & Hs); [|in_list|done|done|done|by intros; sql_eval].
  assert (Hi : mkIdentityRecord subject id email now ∈ rows_of identity_record db') by (rewrite Hrows; set_solver).
  apply (identity_user_there _ _ Hok') in Hi. simpl in Hi. unfold user_table in Hi. rewrite (rows_of_same user_record _ _ _ Hs) in Hi by done.
  pose proof (identity_keys _ Hok') as Hnd. rewrite Hrows in Hnd. apply by_key_app in Hnd as [Hn Hadd].
  split_and!; [done|done|done|]. apply links_eq; simpl; [by same_links Hs| |by same_links Hs..].
  unfold identity_table. by rewrite Hrows, Hadd, fmap_insert.
Qed.

Lemma wp_link_identity tx resolution id db0 db w (P : result User -> database -> Prop) :
  TxContract tx conn -> inside conn db0 db w -> ok db ->
  (forall db', ok db' -> identity_table db !! ProviderSubject resolution = None -> is_Some (user_table db !! id) ->
     links_of db' = link (ProviderSubject resolution) id (links_of db) -> P (Ok (mkUser id)) db') ->
  (forall e, P (Err e) db0) -> wp (link_identity tx resolution id) (leaves_in conn P) w.
Proof.
  intros Htx Hw Hok Hyes Hno. unfold link_identity. wp_go. eapply wp_tx_Exec; [done|exact Hw|..].
  - intros r db' w' Hw' Hr. apply runs_link in Hr as (Hok' & Hn & Hu & Hl); [|done]. cbn [conflicting]. wp_go.
    eapply wp_commit; [done|exact Hw'|by apply Hyes|done].
  - intros e w' Hw' _. unfold conflicting. destruct (uniqueViolation e); wp_go; by left_in db0.
Qed.

(** A statement on the identities that keeps their users. *)
Lemma links_touch subject email db r db' :
  runs (UPDATE "authlier_google_identities" [("email", $1)] ("provider_subject" = $2) []) [Text email; Text subject] db r db' ->
  ok db -> ok db' /\ links_of db' = links_of db.
Proof.
  intros Hr Hok. set (f := fun i => mkIdentityRecord (gi_ProviderSubject i) (gi_UserID i) email (gi_LinkedAt i)).
  eapply (runs_UPDATE identity_record) with (p := fun i => String.eqb (gi_ProviderSubject i) subject) (f := f) (g := fun _ => []) in Hr
    as (Hrows & _ & _ & Hok' & Hs); [|in_list|done|exact Hok|intros; by sql_eval; rewrite eqb_decide|by intros; sql_eval|done].
  split; [done|]. apply links_eq; simpl; [by same_links Hs| |by same_links Hs..].
  unfold identity_table. rewrite Hrows, by_key_fmap by (intros i; by destruct (String.eqb _ _)).
  rewrite <- map_fmap_compose. apply map_fmap_ext. intros p i _. simpl. by destruct (String.eqb _ _).
Qed.
End GoogleRules.

Section GoogleEffects.
Import GoogleOAuth GoogleOAuthSpec.
Context {S : Type} `{Env} `{PgTypes} (adapter : Adapter S) (conn : S -> connection) `{!PoolContract (pool adapter) conn}.

(** What is kept of a challenge: its times to the microsecond. *)
Definition stored_google (c : Challenge) : Challenge :=
  mkChallenge (StateHash c) (ch_Nonce c) (CodeVerifier c) (ch_SubjectID c) (microseconds (CreatedAt c)) (microseconds (ExpiresAt c)).

Lemma GoogleCreate_effect c db w : idle conn db w -> ok db ->
  wp (GoogleStore_CreateChallenge adapter c) (leaves conn (fun res db' => ok db' /\
    match res with
    | Ok _ => google_challenges db !! StateHash c = None /\ links_of db' = add_state (stored_google c) (links_of db)
    | Err _ => db' = db
    end)) w.
Proof.
  intros Hw Hok. unfold GoogleStore_CreateChallenge. wp_go. eapply wp_pool_Exec; [done|exact Hw|..].
  - intros r db' w' Hw' Hr. wp_go. exists db'. split; [done|]. simpl.
    pose proof (google_keys _ (runs_ok _ _ _ _ _ Hr Hok)) as Hnd.
    eapply (runs_create mkGoogleRecord gc_Challenge StateHash) with (c := stored_google c) in Hr as (Hok' & Hs & Hno & Hnew);
      [|in_list|done|done|done|exact Hok|by intros; sql_eval|exact Hnd].
    split_and!; [done|done|]. apply links_eq; simpl; [done|by same_links Hs..].
  - intros e w' Hw' _. wp_go. exists db. split; [done|]. simpl. unfold conflicting. by destruct (uniqueViolation e).
Qed.

Lemma GoogleConsume_effect h at_ db w : idle conn db w -> ok db ->
  wp (GoogleStore_ConsumeChallenge adapter h at_) (leaves conn (fun res db' => ok db' /\
    match res with
    | Ok c => google_challenges db !! h = Some c /\ (at_ < ExpiresAt c)%Z /\ links_of db' = consume h (links_of db)
    | Err _ => links_of db' = links_of db \/ links_of db' = consume h (links_of db)
    end)) w.
Proof.
  intros Hw Hok. unfold GoogleStore_ConsumeChallenge. wp_go.
  set (g := fun c => [Bytea (StateHash c); Text (ch_Nonce c); Text (CodeVerifier c); Text (ch_SubjectID c);
    Timestamp (CreatedAt c); Timestamp (ExpiresAt c)]).
  assert (Huse : forall r db', runs (DELETE "authlier_google_challenges" ("state_hash" = $1)
      (cols ["state_hash"; "nonce"; "code_verifier"; "subject_id"; "created_at"; "expires_at"])) [Bytea h] db r db' ->
    ok db' /\ links_of db' = consume h (links_of db) /\
    forall row, row ∈ r.1.*2 -> exists c, google_challenges db !! h = Some c /\ row = g c).
  { intros r db' Hr. eapply (runs_use_up gc_Challenge StateHash) with (h := h) (g := g) in Hr
      as (Hok' & Hs & Hnew & Hrows); [|in_list|done|done|exact Hok|by intros; sql_eval; rewrite eqb_decide|by intros; sql_eval|by apply google_keys].
    split_and!; [done| |done]. apply links_eq; simpl; [done|by same_links Hs..]. }
  eapply wp_pool_QueryRow; [done|exact Hw|..].
  - intros r row db' w' Hw' (Hok' & Hl & Hrows)%Huse Hrow. destruct (Hrows row Hrow) as (c & Hc & ->). unfold g. cbn [or_absent]. wp_go.
    + exists db'. auto.
    + exists db'. do 2 (split; [done|]). go_bool. split_and!; [by destruct c|done|done].
  - intros r db' w' Hw' (Hok' & Hl & _)%Huse _. unfold or_absent. destruct (errors_Is ErrNoRows ErrNoRows); wp_go; exists db'; auto.
  - intros e w' Hw' _. unfold or_absent. destruct (errors_Is e ErrNoRows); wp_go; exists db; auto.
Qed.
End GoogleEffects.

Section GoogleContract.
Import GoogleOAuth GoogleOAuthSpec.
Context {S : Type} `{Env} `{PgTypes} (adapter : Adapter S) (conn : S -> connection) `{!PoolContract (pool adapter) conn}.

Lemma fresh_user_local db id : ok db -> user_table db !! id = None -> local_methods db id = 0.
Proof.
  intros Hok Hnone. unfold local_methods, owned.
  by rewrite (fresh_user_rows password_record pw_UserID "user_id"), (fresh_user_rows passkey_record pk_SubjectID "subject_id")
    by (done || in_list).
Qed.

(** A new user in a transaction, whom nothing refers to yet. *)
Lemma wp_insertUser tx email verified at_ db0 db w (Q : result string -> World S -> Prop) :
  TxContract tx conn -> inside conn db0 db w -> ok db ->
  (forall id db' w', inside conn db0 db' w' -> ok db' -> user_table db !! id = None ->
     (forall v, v ∈ rows_of user_record db -> u_Email v <> email) -> others_same db "authlier_users" db' ->
     links_of db' = add_person id email (links_of db) -> Q (Ok id) w') ->
  (forall e w', broken conn db0 w' -> Q (Err e) w') ->
  wp (insertUser tx email verified at_) Q w.
Proof.
  intros Htx Hw Hok Hyes Hno. unfold insertUser. wp_go; [|by apply Hno; eauto..].
  match goal with H : uuid_NewV7 ?i = Some ?x |- _ => rename x into userID end.
  generalize (string_of_list (f <$> seq 0 64)) as handle. intros handle.
  eapply wp_tx_Exec; [done|by unfold inside in *; autorewrite with go| |].
  - intros r db' w' Hw' Hr. wp_go.
    eapply runs_insert_user with (u := mkUserRecord userID email verified handle (microseconds at_)) in Hr
      as (Hok' & Hnone & Hemail & _ & Htab & Hs); [|done|by intros; sql_eval].
    eapply Hyes; try done. cbn [u_ID u_Email] in *. apply links_eq; simpl; [by same_links Hs..| |].
    + by rewrite Htab, fmap_insert.
    + rewrite Htab. assert (Hm : forall id, local_methods db' id = local_methods db id) by (intros id; by same_links Hs).
      rewrite (omap_ext _ (fun v => some_methods (local_methods db (u_ID v)))) by (intros; by rewrite Hm).
      apply map_eq. intros id. rewrite !lookup_omap. destruct (decide (userID = id)) as [<-|]; [|by rewrite lookup_insert_ne].
      rewrite lookup_insert_eq, Hnone. simpl. by rewrite fresh_user_local.
  - intros e w' Hw' _. wp_go. by apply Hno.
Qed.
(** The user a new link is for: one who asks and has none, or a new one. *)
Definition chosen (r : IdentityResolution) (s s1 : links) (id : string) : Prop :=
  forall s', is_Some (people s1 !! id) -> s' = link (ProviderSubject r) id s1 -> resolution r s id s'.

Lemma wp_new_user tx (r : IdentityResolution) db0 db w (Q : result string -> World S -> Prop) :
  TxContract tx conn -> inside conn db0 db w -> ok db -> identity_table db !! ProviderSubject r = None -> SubjectID r = "" ->
  (forall id db' w', inside conn db0 db' w' -> ok db' -> chosen r (links_of db) (links_of db') id -> Q (Ok id) w') ->
  (forall e w', broken conn db0 w' -> Q (Err e) w') ->
  wp (identity_user tx r) Q w.
Proof.
  intros Htx Hw Hok Hnone Hsub Hyes Hno. unfold identity_user. rewrite Hsub. cbn [String.eqb negb]. wp_go.
  eapply wp_tx_QueryRow; [done|exact Hw|intros rr row db' w' Hw' _ _; repeat case_match; wp_go; eauto| |].
  - intros rr db' w' Hw' Hr Hnil. change (errors_Is ErrNoRows ErrNoRows) with true. cbn [negb]. wp_go.
    eapply (runs_SELECT user_record) with (p := fun a => String.eqb (u_Email a) (Email r)) (g := fun a => [Text (u_ID a)]) in Hr
      as [-> _]; [|in_list|done|done|intros; by sql_eval; rewrite eqb_decide|done].
    eapply wp_insertUser; [done|by unfold inside in *; autorewrite with go|done| |].
    + intros id db2 w2 Hw2 Hok2 Hid Hemail Hs Hl. cbn [conflicting]. wp_go. eapply Hyes; [done|done|].
      intros s' _ ->. rewrite Hl. apply resolution_new; [simpl; by rewrite lookup_fmap, Hnone|done|simpl; by rewrite lookup_fmap, Hid|].
      intros other. simpl. rewrite lookup_fmap_Some. intros (u & E & [Hu _]%user_at); [|done]. by apply (Hemail u).
    + intros e w2 Hw2. unfold conflicting. destruct (uniqueViolation e); wp_go; by apply Hno.
  - intros e w' Hw' He. rewrite (fails_with_rows _ _ _ _ He). cbn [negb]. wp_go. by apply Hno.
Qed.

Lemma wp_linked_user tx (r : IdentityResolution) db0 db w (Q : result string -> World S -> Prop) :
  TxContract tx conn -> inside conn db0 db w -> ok db -> identity_table db !! ProviderSubject r = None -> SubjectID r <> "" ->
  (forall w', inside conn db0 db w' -> chosen r (links_of db) (links_of db) (SubjectID r) -> Q (Ok (SubjectID r)) w') ->
  (forall e w', broken conn db0 w' -> Q (Err e) w') ->
  wp (identity_user tx r) Q w.
Proof.
  intros Htx Hw Hok Hnone Hsub Hyes Hno. unfold identity_user. rewrite (proj2 (String.eqb_neq _ _) Hsub). cbn [negb]. wp_go.
  eapply wp_lockUser; [done|exact Hw| |].
  - intros w1 Hw1. cbn [or_absent]. wp_go.
    eapply wp_tx_QueryRow; [done|exact Hw1|intros rr row db' w' Hw' _ _; repeat case_match; wp_go; eauto| |].
    + intros rr db' w' Hw' Hr Hnil. change (errors_Is ErrNoRows ErrNoRows) with true. cbn [negb]. wp_go.
      eapply (runs_SELECT identity_record) with (p := fun a => String.eqb (gi_UserID a) (SubjectID r)) (g := fun a => [Text (gi_ProviderSubject a)])
        in Hr as [-> Hsel]; [|in_list|done|done|intros; by sql_eval; rewrite eqb_decide|done].
      apply Hyes; [done|]. intros s' Hid ->. apply resolution_link; [simpl; by rewrite lookup_fmap, Hnone|done|done|done|].
      intros subject. simpl. rewrite lookup_fmap_Some. intros (i & E & [Hi _]%identity_at); [|done].
      rewrite Hnil in Hsel. pose proof (no_identity_rows _ _ [] _ i Hsel eq_refl Hi) as Hq. simpl in Hq. by apply String.eqb_neq in Hq.
    + intros e w' Hw' He. rewrite (fails_with_rows _ _ _ _ He). cbn [negb]. wp_go. by apply Hno.
  - intros e w1 Hw1. unfold or_absent. destruct (errors_Is e ErrNoRows); wp_go; by apply Hno.
Qed.

Lemma ResolveIdentity_effect r db w : idle conn db w -> ok db ->
  wp (GoogleStore_ResolveIdentity adapter r) (leaves conn (fun res db' => ok db' /\
    match res with
    | Ok u => resolution r (links_of db) (ID u) (links_of db')
    | Err _ => db' = db
    end)) w.
Proof.
  intros Hw Hok. unfold GoogleStore_ResolveIdentity.
  eapply wp_with_tx; [done|exact Hw|done|]. intros tx w1 Htx Hw1. wp_go.
  eapply wp_tx_QueryRow; [done|exact Hw1| | |].
  - intros rr row db2 w2 Hw2 Hr Hrow.
    eapply (runs_SELECT identity_record) with (p := fun a => String.eqb (gi_ProviderSubject a) (ProviderSubject r)) (g := fun a => [Text (gi_UserID a)])
      in Hr as [-> Hsel]; [|in_list|done|done|intros; by sql_eval; rewrite eqb_decide|done].
    rewrite Hsel in Hrow. apply list_elem_of_fmap in Hrow as (i & -> & [Hi Hp]%elem_of_List_filter). apply String.eqb_eq in Hp.
    wp_go; [by left_in db|]. eapply wp_tx_Exec; [done|exact Hw2| |intros e w' Hw' _; wp_go; by left_in db].
    intros r3 db3 w3 Hw3 Hr3. apply links_touch in Hr3 as [Hok3 Hl]; [|done]. wp_go.
    eapply wp_commit; [done|exact Hw3| |done]. split; [done|]. cbn [ID]. rewrite Hl. apply resolution_known.
    + simpl. rewrite lookup_fmap. rewrite (proj2 (identity_at db _ i Hok)); [done|]. by split.
    + apply andb_false_iff in Heqb as [E|E]; go_bool; auto.
  - intros rr db2 w2 Hw2 Hr Hnil. change (errors_Is ErrNoRows ErrNoRows) with true. cbn [negb]. wp_go.
    eapply (runs_SELECT identity_record) with (p := fun a => String.eqb (gi_ProviderSubject a) (ProviderSubject r)) (g := fun a => [Text (gi_UserID a)])
      in Hr as [-> Hsel]; [|in_list|done|done|intros; by sql_eval; rewrite eqb_decide|done].
    assert (Hnone : identity_table db !! ProviderSubject r = None).
    { apply by_key_None. intros i Hi. rewrite Hnil in Hsel. pose proof (no_identity_rows _ _ [] _ i Hsel eq_refl Hi) as Hq.
      simpl in Hq. by apply String.eqb_neq in Hq. }
    assert (Hlink : forall id db3 w3, inside conn db db3 w3 -> ok db3 -> chosen r (links_of db) (links_of db3) id ->
      wp (link_identity tx r id) (leaves_in conn (fun res db' => ok db' /\
        match res with Ok u => resolution r (links_of db) (ID u) (links_of db') | Err _ => db' = db end)) w3).
    { intros id db3 w3 Hw3 Hok3 Hch. eapply wp_link_identity; [done|exact Hw3|done| |done].
      intros db' Hok' _ Hid Hl. split; [done|]. cbn [ID]. apply Hch; [|done]. simpl. by rewrite lookup_fmap, fmap_is_Some. }
    destruct (decide (SubjectID r = "")) as [Hsub|Hsub].
    + eapply wp_new_user; [done|exact Hw2|done|done|done| |intros e w' Hw'; wp_go; by left_in db].
      intros id db3 w3 Hw3 Hok3 Hch. wp_go. by eapply Hlink.
    + eapply wp_linked_user; [done|exact Hw2|done|done|done| |intros e w' Hw'; wp_go; by left_in db].
      intros w3 Hw3 Hch. wp_go. by eapply Hlink.
  - intros e w' Hw' He. rewrite (fails_with_rows _ _ _ _ He). cbn [negb]. wp_go. by left_in db.
Qed.

Lemma UnlinkIdentity_effect id at_ db w : idle conn db w -> ok db ->
  wp (GoogleStore_UnlinkIdentity adapter id at_) (leaves conn (fun res db' => ok db' /\
    match res with
    | Ok _ => (exists i, i ∈ rows_of identity_record db /\ gi_UserID i = id) /\ local_methods db id <> 0 /\
        rows_of identity_record db' = List.filter (fun a => negb (String.eqb (gi_UserID a) id)) (rows_of identity_record db) /\
        others_same db "authlier_google_identities" db'
    | Err _ => db' = db
    end)) w.
Proof.
  intros Hw Hok. unfold GoogleStore_UnlinkIdentity.
  eapply wp_with_tx; [done|exact Hw|done|]. intros tx w1 Htx Hw1. wp_go.
  eapply wp_lockUser; [done|exact Hw1| |refused db]. intros w2 Hw2. cbn [or_absent]. wp_go.
  eapply wp_tx_QueryRow; [done|exact Hw2| |refused db..]. intros r row db2 w3 Hw3 Hr Hrow.
  eapply (runs_SELECT identity_record) with (p := fun a => String.eqb (gi_UserID a) id) (g := fun a => [Text (gi_ProviderSubject a)]) in Hr
    as [-> Hsel]; [|in_list|done|done|intros; by sql_eval; rewrite eqb_decide|done].
  rewrite Hsel in Hrow. apply list_elem_of_fmap in Hrow as (i & -> & [Hi Hid]%elem_of_List_filter). apply String.eqb_eq in Hid.
  clear r Hsel. cbn [or_absent]. wp_go; try by left_in db.
  eapply wp_tx_QueryRow; [done|exact Hw3| |refused db..].
  intros r row2 db2 w4 Hw4 Hr Hrow. eapply runs_counts in Hr as [-> [now ->]]; [|exact Hrow]. clear Hrow.
  cbn [fmap list_fmap]. counted. wp_go; try by left_in db.
  eapply wp_tx_Exec; [done|exact Hw4| |refused db]. intros r3 db3 w5 Hw5 Hr3.
  eapply (runs_DELETE identity_record) with (p := fun a => String.eqb (gi_UserID a) id) (g := fun _ => []) in Hr3
    as (Hrows & _ & _ & Hok3 & Hs); [|in_list|done|done|done|intros; by sql_eval; rewrite eqb_decide|done].
  wp_go. eapply wp_commit; [done|exact Hw5| |intros e _; done]. go_bool.
  split_and!; [done|by exists i|unfold local_methods; lia|done|done].
Qed.

Lemma unlink_links i db db' : ok db -> i ∈ rows_of identity_record db ->
  rows_of identity_record db' = List.filter (fun a => negb (String.eqb (gi_UserID a) (gi_UserID i))) (rows_of identity_record db) ->
  others_same db "authlier_google_identities" db' ->
  links_of db' = unlink (gi_ProviderSubject i) (links_of db).
Proof.
  intros Hok Hi Hrows Hs. apply links_eq; simpl; [by same_links Hs| |by same_links Hs..].
  unfold identity_table. rewrite Hrows.
  rewrite (by_key_delete gi_ProviderSubject (fun a => String.eqb (gi_UserID a) (gi_UserID i)) _ (gi_ProviderSubject i));
    [by rewrite fmap_delete|by apply identity_keys|].
  intros b Hb. rewrite eqb_decide. apply eq_true_iff_eq. rewrite !String.eqb_eq. split; intros E.
  - by rewrite (key_inj gi_UserID (rows_of identity_record db) b i) by (done || by apply identity_users).
  - by rewrite (key_inj gi_ProviderSubject (rows_of identity_record db) b i) by (done || by apply identity_keys).
Qed.

Definition links_view (s : S) : links := links_of (committed (conn s)).

Lemma postgres_google_contract : KeptGoogleStoreContract stored_google (GoogleStore adapter) (in_order_state conn) links_view.
Proof.
  split; simpl.
  - intros c w Hwf. account_step (GoogleCreate_effect adapter conn).
    destruct Hpost as [Hok' Hpost]. destruct (idle_in_order _ _ _ Hw' Hok') as [Hwf' Hdb]. split; [done|].
    unfold links_view. rewrite Hdb. destruct res as [[]|e]; [|by rewrite Hpost].
    by destruct Hpost as [Hno ->].
  - intros h at_ w Hwf. account_step (GoogleConsume_effect adapter conn).
    destruct Hpost as [Hok' Hpost]. destruct (idle_in_order _ _ _ Hw' Hok') as [Hwf' Hdb]. split; [done|].
    unfold links_view. rewrite Hdb. destruct res as [c|e]; [|done]. by destruct Hpost as (? & _ & ?).
  - intros r w Hwf. account_step ResolveIdentity_effect.
    destruct Hpost as [Hok' Hpost]. destruct (idle_in_order _ _ _ Hw' Hok') as [Hwf' Hdb]. split; [done|].
    unfold links_view. rewrite Hdb. destruct res as [u|e]; [done|by rewrite Hpost].
Qed.

(** Unlinking, which the contract of the manager's backend asks for. *)
Definition UnlinkContract (unlinkIdentity : string -> time -> M S (result unit)) : Prop :=
  forall id at_ w, in_order_state conn (ext w) ->
  wp (unlinkIdentity id at_) (fun res w' => in_order_state conn (ext w') /\
    match res with
    | Ok _ => exists subject n, owners (links_view (ext w)) !! subject = Some id /\
                methods (links_view (ext w)) !! id = Some n /\ 0 < n /\ links_view (ext w') = unlink subject (links_view (ext w))
    | Err _ => links_view (ext w') = links_view (ext w)
    end) w.

Lemma postgres_unlinks : UnlinkContract (GoogleStore_UnlinkIdentity adapter).
Proof.
  intros id at_ w Hwf. account_step UnlinkIdentity_effect.
  destruct Hpost as [Hok' Hpost]. destruct (idle_in_order _ _ _ Hw' Hok') as [Hwf' Hdb]. split; [done|].
  unfold links_view. rewrite Hdb. destruct res as [[]|e]; [|by rewrite Hpost].
  destruct Hpost as ((i & Hi & Hid) & Hm & Hrows & Hs).
  exists (gi_ProviderSubject i), (local_methods (committed (conn (ext w))) id). split_and!; [| |lia|].
  - simpl. rewrite lookup_fmap. rewrite (proj2 (identity_at _ _ i Hok)); [by rewrite <- Hid|done].
  - destruct (identity_user_there _ _ Hok Hi) as [u Hu]. rewrite Hid in Hu. simpl. rewrite lookup_omap, Hu. simpl.
    apply user_at in Hu as [_ ->]; [|done]. unfold some_methods. by rewrite (proj2 (Nat.eqb_neq _ _) Hm).
  - apply unlink_links; [done|done| |done]. by rewrite Hid.
Qed.
End GoogleContract.
