(* ===== verification/PostgresFactors.v ===== *)
(** * Second factors, passkeys and single sign-on in PostgreSQL

    storage/postgres/totp.go, passkeys.go and sso.go: the stores behind packages
    totp, passkey, oidc and saml, and the contracts of totp, oidc and saml, with
    times kept to the microsecond and counters as signed integers. *)
From S2P Require Import Prelude GoJson Token Sql Postgres.
From S2P Require Import PostgresSessions PostgresAccounts.
From S2P Require Totp Passkey Oidc Saml GoogleOAuth Config.
From S2P Require SsoSpec TotpSpec.

(** ** Conversions between [uint64] and [int64] *)
Definition int64 (n : Z) : Z :=
  let m := (n mod 2 ^ 64)%Z in if (m <? 2 ^ 63)%Z then m else (m - 2 ^ 64)%Z.
Definition uint64 (z : Z) : Z := (z mod 2 ^ 64)%Z.

Lemma int64_range z : (- 2 ^ 63 <= int64 z < 2 ^ 63)%Z.
Proof. unfold int64. pose proof (Z.mod_pos_bound z (2 ^ 64) ltac:(lia)). cbv zeta. destruct (Z.ltb_spec (z mod 2 ^ 64) (2 ^ 63)); lia. Qed.

(** The conversions undo each other. *)
Lemma int64_uint64 z : int64 (uint64 z) = int64 z.
Proof. unfold int64, uint64. by rewrite Z.mod_mod. Qed.

Lemma uint64_int64 z : uint64 (int64 z) = uint64 z.
Proof.
  unfold int64, uint64. cbv zeta. destruct (_ <? _)%Z; [by rewrite Z.mod_mod|].
  rewrite <- (Z.mod_add _ 1) by lia. by rewrite Z.mul_1_l, Z.sub_add, Z.mod_mod.
Qed.

Lemma int64_int64 z : int64 (int64 z) = int64 z.
Proof. by rewrite <- (int64_uint64 (int64 z)), uint64_int64, int64_uint64. Qed.

(** ** TOTP *)
Section Totp_.
Import Totp.
Context {S : Type} `{PgTypes} (adapter : Adapter S).

Definition encrypt (secret : string) : M S (result string) :=
  match secrets adapter with
  | None => ret (Err (Errorf "%w: secret codec is required for TOTP" [Postgres.ErrInvalidConfig]))
  | Some codec => Encrypt codec secret
  end.

Definition decrypt (encrypted : string) : M S (result string) :=
  match secrets adapter with
  | None => ret (Err (Errorf "%w: secret codec is required for TOTP" [Postgres.ErrInvalidConfig]))
  | Some codec => Decrypt codec encrypted
  end.

Definition TOTPStore_IsEnabled (subjectID : string) : M S (result bool) :=
  row <-? pool_QueryRow (pool adapter)
    (SELECT [Exists [("", "authlier_totp_credentials")] ("subject_id" = $1 AND "disabled_at" IS_NULL)] [] TRUE None [])
    [Text subjectID] ;;
  match row with
  | [Boolean enabled] => ret (Ok enabled)
  | _ => ret (Err ErrScan)
  end.

Definition TOTPStore_BeginEnrollment (enrollment : Enrollment) : M S (result unit) :=
  secret <-? encrypt (enr_Secret enrollment) ;;
  r <- pool_Exec (pool adapter)
    (INSERT "authlier_totp_enrollments"
       [("subject_id", $1); ("encrypted_secret", $2); ("created_at", $3); ("expires_at", $4)]
       (Some (["subject_id"], [("encrypted_secret", Excluded "encrypted_secret"); ("created_at", Excluded "created_at");
          ("expires_at", Excluded "expires_at")])))
    [Text (enr_SubjectID enrollment); Bytea secret; time_value (enr_CreatedAt enrollment);
     time_value (enr_ExpiresAt enrollment)] ;;
  ret (ignored r).

Definition TOTPStore_FindEnrollment (subjectID : string) : M S (result Enrollment) :=
  row <- pool_QueryRow (pool adapter)
    (SELECT (cols ["subject_id"; "encrypted_secret"; "created_at"; "expires_at"])
       [("", "authlier_totp_enrollments")] ("subject_id" = $1) None []) [Text subjectID] ;;
  match or_absent ErrNotFound row with
  | Err err => ret (Err err)
  | Ok [Text id; Bytea encrypted; Timestamp createdAt; Timestamp expiresAt] =>
      secret <-? decrypt encrypted ;;
      ret (Ok (mkEnrollment id secret createdAt expiresAt))
  | Ok _ => ret (Err ErrScan)
  end.

Definition TOTPStore_Enable (subjectID : string) (confirmedCounter : Z) (recoveryCodes : list RecoveryCodeHash)
    (enabledAt : time) : M S (result unit) :=
  with_tx (pool adapter) (fun tx =>
    row <- tx_QueryRow tx
      (SELECT (cols ["encrypted_secret"; "expires_at"]) [("", "authlier_totp_enrollments")] ("subject_id" = $1) None [""])
      [Text subjectID] ;;
    match or_absent ErrNotFound row with
    | Err err => ret (Err err)
    | Ok [Bytea encrypted; Timestamp expiresAt] =>
        if negb (Before enabledAt expiresAt) then ret (Err ErrInactiveEnrollment) else
        _ <-? tx_Exec tx
          (INSERT "authlier_totp_credentials"
             [("subject_id", $1); ("encrypted_secret", $2); ("enabled_at", $3); ("last_used_counter", $4)]
             (Some (["subject_id"], [("encrypted_secret", Excluded "encrypted_secret"); ("enabled_at", Excluded "enabled_at");
                ("last_used_counter", Excluded "last_used_counter"); ("disabled_at", Const Null)])))
          [Text subjectID; Bytea encrypted; time_value enabledAt; Bigint (int64 confirmedCounter)] ;;
        _ <-? tx_Exec tx (DELETE "authlier_totp_recovery_codes" ("subject_id" = $1) []) [Text subjectID] ;;
        for_each recoveryCodes tt
          (fun code _ =>
             r <- tx_Exec tx
               (INSERT "authlier_totp_recovery_codes" [("subject_id", $1); ("code_hash", $2)] None)
               [Text subjectID; Bytea code] ;;
             match r with
             | Err err => ret (Return (Err err))
             | Ok _ => ret (Next tt)
             end)
          (fun _ =>
             _ <-? tx_Exec tx (DELETE "authlier_totp_enrollments" ("subject_id" = $1) []) [Text subjectID] ;;
             commit tx tt)
    | Ok _ => ret (Err ErrScan)
    end).

Definition TOTPStore_Disable (subjectID : string) (disabledAt : time) : M S (result unit) :=
  with_tx (pool adapter) (fun tx =>
    tag <-? tx_Exec tx
      (UPDATE "authlier_totp_credentials" [("disabled_at", Coalesce "disabled_at" ($1))] ("subject_id" = $2) [])
      [time_value disabledAt; Text subjectID] ;;
    if (tag =? 0)%nat then ret (Err ErrNotFound) else
    _ <-? tx_Exec tx (DELETE "authlier_totp_recovery_codes" ("subject_id" = $1) []) [Text subjectID] ;;
    commit tx tt).

Definition TOTPStore_CreateChallenge (challenge : Challenge) : M S (result unit) :=
  r <- pool_Exec (pool adapter)
    (INSERT "authlier_totp_challenges"
       [("token_hash", $1); ("subject_id", $2); ("created_at", $3); ("expires_at", $4)] None)
    [Bytea (ch_TokenHash challenge); Text (ch_SubjectID challenge); time_value (ch_CreatedAt challenge);
     time_value (ch_ExpiresAt challenge)] ;;
  ret (conflicting ErrConflict (ignored r)).

(** [*int64]: the counter, or none. *)
Definition scan_counter (v : value) : option (option Z) :=
  match v with Null => Some None | Bigint z => Some (Some z) | _ => None end.

Definition TOTPStore_FindChallenge (challengeHash : ChallengeHash) : M S (result (Challenge * Credential)) :=
  row <- pool_QueryRow (pool adapter)
    (SELECT [Col "c" "token_hash"; Col "c" "subject_id"; Col "c" "created_at"; Col "c" "expires_at";
             Col "t" "encrypted_secret"; Col "t" "enabled_at"; Col "t" "last_used_counter"]
       [("c", "authlier_totp_challenges"); ("t", "authlier_totp_credentials")]
       (Both (Equal (Col "t" "subject_id") (Col "c" "subject_id"))
          (Both (Equal (Col "c" "token_hash") ($1)) (Both (IsNull (Col "c" "consumed_at")) (IsNull (Col "t" "disabled_at")))))
       None []) [Bytea challengeHash] ;;
  match or_absent ErrNotFound row with
  | Err err => ret (Err err)
  | Ok [Bytea hash; Text subjectID; Timestamp createdAt; Timestamp expiresAt; Bytea encrypted; Timestamp enabledAt; counter] =>
      match scan_counter counter with
      | None => ret (Err ErrScan)
      | Some counter =>
          secret <-? decrypt encrypted ;;
          ret (Ok (mkChallenge subjectID hash createdAt expiresAt,
            match counter with
            | Some counter => mkCredential subjectID secret enabledAt (uint64 counter) true
            | None => mkCredential subjectID secret enabledAt 0 false
            end))
      end
  | Ok _ => ret (Err ErrScan)
  end.

Definition consumeTOTPChallenge (tx : Tx S) (hash : ChallengeHash) (at_ : time) : M S (result string) :=
  row <- tx_QueryRow tx
    (UPDATE "authlier_totp_challenges" [("consumed_at", $1)]
       ("token_hash" = $2 AND "consumed_at" IS_NULL AND "expires_at" > $1) (cols ["subject_id"]))
    [time_value at_; Bytea hash] ;;
  match or_absent ErrInactiveChallenge row with
  | Err err => ret (Err err)
  | Ok [Text subjectID] => ret (Ok subjectID)
  | Ok _ => ret (Err ErrScan)
  end.

Definition TOTPStore_CompleteCode (challengeHash : ChallengeHash) (counter : Z) (completedAt : time) : M S (result string) :=
  with_tx (pool adapter) (fun tx =>
    subjectID <-? consumeTOTPChallenge tx challengeHash completedAt ;;
    tag <-? tx_Exec tx
      (UPDATE "authlier_totp_credentials" [("last_used_counter", $1)]
         ("subject_id" = $2 AND "disabled_at" IS_NULL AND ("last_used_counter" IS_NULL OR "last_used_counter" < $1)) [])
      [Bigint (int64 counter); Text subjectID] ;;
    if (tag =? 0)%nat then ret (Err ErrInvalidCode) else
    commit tx subjectID).

Definition TOTPStore_CompleteRecovery (challengeHash : ChallengeHash) (recoveryCode : RecoveryCodeHash)
    (completedAt : time) : M S (result string) :=
  with_tx (pool adapter) (fun tx =>
    subjectID <-? consumeTOTPChallenge tx challengeHash completedAt ;;
    tag <-? tx_Exec tx
      (UPDATE "authlier_totp_recovery_codes" [("used_at", $1)]
         ("subject_id" = $2 AND "code_hash" = $3 AND "used_at" IS_NULL) [])
      [time_value completedAt; Text subjectID; Bytea recoveryCode] ;;
    if (tag =? 0)%nat then ret (Err ErrInvalidCode) else
    commit tx subjectID).

Definition TOTPStore : Store S :=
  {| store_IsEnabled := TOTPStore_IsEnabled;
     store_BeginEnrollment := TOTPStore_BeginEnrollment;
     store_FindEnrollment := TOTPStore_FindEnrollment;
     store_Enable := TOTPStore_Enable;
     store_Disable := TOTPStore_Disable;
     store_CreateChallenge := TOTPStore_CreateChallenge;
     store_FindChallenge := TOTPStore_FindChallenge;
     store_CompleteCode := TOTPStore_CompleteCode;
     store_CompleteRecovery := TOTPStore_CompleteRecovery |}.
End Totp_.

(** ** Passkeys *)
Section Passkeys_.
Import Passkey.
Context {S : Type} `{PgTypes} `{JSON Credential} `{JSON SessionData} (adapter : Adapter S).

Definition ceremony_type (t : CeremonyType) : string :=
  match t with CeremonyRegistration => "registration" | CeremonyAuthentication => "authentication" end.
Definition scan_ceremony_type (s : string) : option CeremonyType :=
  if String.eqb s "registration" then Some CeremonyRegistration else
  if String.eqb s "authentication" then Some CeremonyAuthentication else None.

(** The loop over the rows. *)
Fixpoint scan_credentials (rows : list (list value)) (credentials : list Credential) : result (list Credential) :=
  match rows with
  | [] => Ok credentials
  | [Jsonb encoded] :: rows =>
      match json_Unmarshal encoded with
      | Ok credential => scan_credentials rows (credentials ++ [credential])
      | Err err => Err err
      end
  | _ :: _ => Err ErrScan
  end.

Definition findUser (predicate : expr) (arguments : list value) : M S (result User) :=
  row <- pool_QueryRow (pool adapter)
    (SELECT [Col "u" "id"; Col "u" "webauthn_handle"; Col "u" "email"] [("u", "authlier_users")] predicate None [])
    arguments ;;
  match or_absent ErrNotFound row with
  | Err err => ret (Err err)
  | Ok [Text subjectID; Bytea handle; Text name] =>
      rows <-? pool_Query (pool adapter)
        (SELECT (cols ["credential"]) [("", "authlier_passkey_credentials")] ("subject_id" = $1) None []) [Text subjectID] ;;
      let '(rows, rows_Err) := rows in
      match scan_credentials rows [], rows_Err with
      | Err err, _ | _, Err err => ret (Err err)
      | Ok credentials, Ok _ => ret (Ok (mkUser subjectID handle name name credentials))
      end
  | Ok _ => ret (Err ErrScan)
  end.

Definition PasskeyStore_FindUserBySubject (subjectID : string) : M S (result User) :=
  findUser (Equal (Col "u" "id") ($1)) [Text subjectID].

Definition PasskeyStore_FindUserByCredential (credentialID userHandle : string) : M S (result User) :=
  findUser
    (Both (Equal (Col "u" "webauthn_handle") ($1))
       (Exists [("c", "authlier_passkey_credentials")]
          (Both (Equal (Col "c" "subject_id") (Col "u" "id")) (Equal (Col "c" "credential_id") ($2)))))
    [Bytea userHandle; Bytea credentialID].

Definition PasskeyStore_CreateCeremony (ceremony : Ceremony) : M S (result unit) :=
  let sessionData := json_Marshal (Session ceremony) in
  r <- pool_Exec (pool adapter)
    (INSERT "authlier_passkey_ceremonies"
       [("token_hash", $1); ("ceremony_type", $2); ("subject_id", $3); ("session_data", $4); ("created_at", $5);
        ("expires_at", $6)] None)
    [Bytea (cer_TokenHash ceremony); Text (ceremony_type (cer_Type ceremony)); Text (cer_SubjectID ceremony);
     jsonb_document sessionData; time_value (cer_CreatedAt ceremony); time_value (cer_ExpiresAt ceremony)] ;;
  ret (conflicting ErrConflict (ignored r)).

(** A type that is neither of the two has no value in the model. *)
Definition PasskeyStore_FindCeremony (ceremonyHash : CeremonyHash) : M S (result Ceremony) :=
  row <- pool_QueryRow (pool adapter)
    (SELECT (cols ["token_hash"; "ceremony_type"; "subject_id"; "session_data"; "created_at"; "expires_at"])
       [("", "authlier_passkey_ceremonies")] ("token_hash" = $1 AND "consumed_at" IS_NULL) None []) [Bytea ceremonyHash] ;;
  match or_absent ErrNotFound row with
  | Err err => ret (Err err)
  | Ok [Bytea hash; Text type; Text subjectID; Jsonb sessionData; Timestamp createdAt; Timestamp expiresAt] =>
      match scan_ceremony_type type, json_Unmarshal sessionData with
      | None, _ => ret (Err ErrScan)
      | _, Err err => ret (Err err)
      | Some type, Ok session => ret (Ok (mkCeremony type hash subjectID session createdAt expiresAt))
      end
  | Ok _ => ret (Err ErrScan)
  end.

Definition consumePasskeyCeremony (tx : Tx S) (hash : CeremonyHash) (subjectID : string) (type : CeremonyType)
    (at_ : time) : M S (result unit) :=
  tag <-? tx_Exec tx
    (UPDATE "authlier_passkey_ceremonies" [("consumed_at", $1)]
       ("token_hash" = $2 AND "ceremony_type" = $3 AND "subject_id" = $4 AND "consumed_at" IS_NULL AND "expires_at" > $1) [])
    [time_value at_; Bytea hash; Text (ceremony_type type); Text subjectID] ;;
  if (tag =? 0)%nat then ret (Err ErrInactiveCeremony) else ret (Ok tt).

Definition PasskeyStore_CompleteRegistration (ceremonyHash : CeremonyHash) (subjectID : string)
    (credential : Credential) (completedAt : time) : M S (result unit) :=
  let encoded := json_Marshal credential in
  with_tx (pool adapter) (fun tx =>
    _ <-? consumePasskeyCeremony tx ceremonyHash subjectID CeremonyRegistration completedAt ;;
    r <- tx_Exec tx
      (INSERT "authlier_passkey_credentials"
         [("credential_id", $1); ("subject_id", $2); ("credential", $3); ("created_at", $4); ("updated_at", $4)] None)
      [Bytea (cred_ID credential); Text subjectID; jsonb_document encoded; time_value completedAt] ;;
    match conflicting ErrConflict r with
    | Err err => ret (Err err)
    | Ok _ => commit tx tt
    end).

Definition PasskeyStore_CompleteAuthentication (ceremonyHash : CeremonyHash) (subjectID : string)
    (previous updated : Credential) (completedAt : time) : M S (result unit) :=
  let previousJSON := json_Marshal previous in
  let updatedJSON := json_Marshal updated in
  with_tx (pool adapter) (fun tx =>
    _ <-? consumePasskeyCeremony tx ceremonyHash subjectID CeremonyAuthentication completedAt ;;
    tag <-? tx_Exec tx
      (UPDATE "authlier_passkey_credentials" [("credential", $1); ("updated_at", $2)]
         ("credential_id" = $3 AND "subject_id" = $4 AND "credential" = $5) [])
      [jsonb_document updatedJSON; time_value completedAt; Bytea (cred_ID previous); Text subjectID;
       jsonb_document previousJSON] ;;
    if (tag =? 0)%nat then ret (Err ErrConflict) else
    commit tx tt).

Definition PasskeyStore_DeleteCredential (subjectID credentialID : string) (_ : time) : M S (result unit) :=
  with_tx (pool adapter) (fun tx =>
    r <- lockUser tx subjectID ;;
    match or_absent ErrNotFound r with
    | Err err => ret (Err err)
    | Ok _ =>
        counts <-? tx_QueryRow tx
          (SELECT [count_of "authlier_passkey_credentials" "subject_id"; count_of "authlier_password_credentials" "user_id";
                   count_of "authlier_google_identities" "user_id"] [] TRUE None []) [Text subjectID] ;;
        match counts with
        | [Bigint passkeys; Bigint passwords; Bigint googleIdentities] =>
            if (passkeys =? 1)%Z && (passwords + googleIdentities =? 0)%Z then ret (Err ErrLastCredential) else
            tag <-? tx_Exec tx
              (DELETE "authlier_passkey_credentials" ("subject_id" = $1 AND "credential_id" = $2) [])
              [Text subjectID; Bytea credentialID] ;;
            if (tag =? 0)%nat then ret (Err ErrNotFound) else
            commit tx tt
        | _ => ret (Err ErrScan)
        end
    end).

Definition PasskeyStore : Store S :=
  {| store_FindUserBySubject := PasskeyStore_FindUserBySubject;
     store_FindUserByCredential := PasskeyStore_FindUserByCredential;
     store_CreateCeremony := PasskeyStore_CreateCeremony;
     store_FindCeremony := PasskeyStore_FindCeremony;
     store_CompleteRegistration := PasskeyStore_CompleteRegistration;
     store_CompleteAuthentication := PasskeyStore_CompleteAuthentication;
     store_DeleteCredential := PasskeyStore_DeleteCredential |}.
End Passkeys_.

(** ** OpenID Connect and SAML *)
Section Sso_.
Context {S : Type} `{PgTypes} (adapter : Adapter S).

Definition OIDCStore_CreateChallenge (challenge : Oidc.Challenge) : M S (result unit) :=
  r <- pool_Exec (pool adapter)
    (INSERT "authlier_oidc_challenges"
       [("state_hash", $1); ("connection_id", $2); ("issuer", $3); ("client_id", $4); ("redirect_url", $5); ("scopes", $6);
        ("require_verified_email", $7); ("nonce", $8); ("code_verifier", $9); ("created_at", $10); ("expires_at", $11)] None)
    [Bytea (Oidc.StateHash challenge); Text (Oidc.ch_ConnectionID challenge); Text (Oidc.ch_Issuer challenge);
     Text (Oidc.ch_ClientID challenge); Text (Oidc.ch_RedirectURL challenge); TextArray (Oidc.ch_Scopes challenge);
     Boolean (Oidc.ch_RequireVerifiedEmail challenge); Text (Oidc.ch_Nonce challenge); Text (Oidc.CodeVerifier challenge);
     time_value (Oidc.CreatedAt challenge); time_value (Oidc.ExpiresAt challenge)] ;;
  ret (conflicting Oidc.ErrConflict (ignored r)).

Definition OIDCStore_ConsumeChallenge (stateHash : Hash) (consumedAt : time) : M S (result Oidc.Challenge) :=
  row <- pool_QueryRow (pool adapter)
    (DELETE "authlier_oidc_challenges" ("state_hash" = $1)
       (cols ["state_hash"; "connection_id"; "issuer"; "client_id"; "redirect_url"; "scopes"; "require_verified_email";
              "nonce"; "code_verifier"; "created_at"; "expires_at"])) [Bytea stateHash] ;;
  match or_absent Oidc.ErrNotFound row with
  | Err err => ret (Err err)
  | Ok [Bytea storedHash; Text connectionID; Text issuer; Text clientID; Text redirectURL; TextArray scopes;
        Boolean requireVerifiedEmail; Text nonce; Text codeVerifier; Timestamp createdAt; Timestamp expiresAt] =>
      if negb (Before consumedAt expiresAt) then ret (Err Oidc.ErrInactiveState) else
      ret (Ok (Oidc.mkChallenge storedHash connectionID issuer clientID redirectURL scopes requireVerifiedEmail nonce
        codeVerifier createdAt expiresAt))
  | Ok _ => ret (Err ErrScan)
  end.

Definition OIDCStore : Oidc.Store S :=
  {| Oidc.store_CreateChallenge := OIDCStore_CreateChallenge;
     Oidc.store_ConsumeChallenge := OIDCStore_ConsumeChallenge |}.

Definition SAMLStore_CreateRequest (request : Saml.Request) : M S (result unit) :=
  r <- pool_Exec (pool adapter)
    (INSERT "authlier_saml_requests"
       [("state_hash", $1); ("connection_id", $2); ("connection_hash", $3); ("request_id", $4); ("created_at", $5);
        ("expires_at", $6)] None)
    [Bytea (Saml.StateHash request); Text (Saml.req_ConnectionID request); Bytea (Saml.ConnectionHash request);
     Text (Saml.RequestID request); time_value (Saml.CreatedAt request); time_value (Saml.ExpiresAt request)] ;;
  ret (conflicting Saml.ErrConflict (ignored r)).

Definition SAMLStore_ConsumeRequest (stateHash : Hash) (consumedAt : time) : M S (result Saml.Request) :=
  row <- pool_QueryRow (pool adapter)
    (DELETE "authlier_saml_requests" ("state_hash" = $1)
       (cols ["state_hash"; "connection_id"; "connection_hash"; "request_id"; "created_at"; "expires_at"]))
    [Bytea stateHash] ;;
  match or_absent Saml.ErrNotFound row with
  | Err err => ret (Err err)
  | Ok [Bytea storedState; Text connectionID; Bytea connectionHash; Text requestID; Timestamp createdAt;
        Timestamp expiresAt] =>
      if negb (Before consumedAt expiresAt) then ret (Err Saml.ErrInactiveRequest) else
      ret (Ok (Saml.mkRequest storedState connectionID connectionHash requestID createdAt expiresAt))
  | Ok _ => ret (Err ErrScan)
  end.

Definition SAMLStore : Saml.Store S :=
  {| Saml.store_CreateRequest := SAMLStore_CreateRequest;
     Saml.store_ConsumeRequest := SAMLStore_ConsumeRequest |}.
End Sso_.

(** ** The adapter as a database *)
Section Stores_.
Context {S : Type} `{Env} `{PgTypes} `{JSON Passkey.Credential} `{JSON Passkey.SessionData} (adapter : Adapter S).

Definition Stores : Config.Stores S :=
  Config.mkStores
    (Some (Config.mkEmailPasswordStore (EmailPasswordStore adapter) (EmailPasswordCredentialStore adapter)))
    (Some (EmailVerificationStore adapter))
    (Some (Config.mkGoogleStore (GoogleStore adapter) (GoogleStore_UnlinkIdentity adapter)))
    (Some (OIDCStore adapter)) (Some (PasskeyStore adapter)) (Some (PasswordResetStore adapter))
    (Some (RefreshTokenStore adapter)) (Some (SAMLStore adapter)) (Some (SessionStore adapter)) (Some (TOTPStore adapter))
    (Some (AccessSessionStore_ adapter)).
End Stores_.

(** ** Single sign-on in the tables *)
Section SsoView.
Record oidc_record : Type := mkOidcRecord { oc_Challenge : Oidc.Challenge; oc_ConsumedAt : option time }.
Record saml_record : Type := mkSamlRecord { sr_Request : Saml.Request; sr_ConsumedAt : option time }.

Definition oidc_row (o : oidc_record) : row :=
  let c := oc_Challenge o in
  [("state_hash", Bytea (Oidc.StateHash c)); ("connection_id", Text (Oidc.ch_ConnectionID c)); ("issuer", Text (Oidc.ch_Issuer c));
   ("client_id", Text (Oidc.ch_ClientID c)); ("redirect_url", Text (Oidc.ch_RedirectURL c));
   ("scopes", TextArray (Oidc.ch_Scopes c)); ("require_verified_email", Boolean (Oidc.ch_RequireVerifiedEmail c));
   ("nonce", Text (Oidc.ch_Nonce c)); ("code_verifier", Text (Oidc.CodeVerifier c));
   ("created_at", Timestamp (Oidc.CreatedAt c)); ("expires_at", Timestamp (Oidc.ExpiresAt c));
   ("consumed_at", nullable Timestamp (oc_ConsumedAt o))].
Definition saml_row (o : saml_record) : row :=
  let r := sr_Request o in
  [("state_hash", Bytea (Saml.StateHash r)); ("connection_id", Text (Saml.req_ConnectionID r));
   ("connection_hash", Bytea (Saml.ConnectionHash r)); ("request_id", Text (Saml.RequestID r));
   ("created_at", Timestamp (Saml.CreatedAt r)); ("expires_at", Timestamp (Saml.ExpiresAt r));
   ("consumed_at", nullable Timestamp (sr_ConsumedAt o))].
Arguments oidc_row o /. Arguments saml_row o /.

#[export, refine] Instance oidc_entity : Entity oidc_record :=
  {| entity := authlier_oidc_challenges; to_row := oidc_row;
     of_row r := match r.*2 with
                 | [Bytea h; Text c; Text i; Text l; Text u; TextArray s; Boolean v; Text n; Text k; Timestamp t; Timestamp x; d] =>
                     mkOidcRecord (Oidc.mkChallenge h c i l u s v n k t x) <$> scan_optional_time d
                 | _ => None
                 end |}.
Proof.
  - by intros [[] []].
  - entity_cells.
    + by eexists (mkOidcRecord (Oidc.mkChallenge _ _ _ _ _ _ _ _ _ _ _) None).
    + by eexists (mkOidcRecord (Oidc.mkChallenge _ _ _ _ _ _ _ _ _ _ _) (Some _)).
Defined.

#[export, refine] Instance saml_entity : Entity saml_record :=
  {| entity := authlier_saml_requests; to_row := saml_row;
     of_row r := match r.*2 with
                 | [Bytea h; Text c; Bytea k; Text i; Timestamp t; Timestamp x; d] =>
                     mkSamlRecord (Saml.mkRequest h c k i t x) <$> scan_optional_time d
                 | _ => None
                 end |}.
Proof.
  - by intros [[] []].
  - entity_cells.
    + by eexists (mkSamlRecord (Saml.mkRequest _ _ _ _ _ _) None).
    + by eexists (mkSamlRecord (Saml.mkRequest _ _ _ _ _ _) (Some _)).
Defined.

Lemma oidc_keys db : ok db -> NoDup ((fun o => Oidc.StateHash (oc_Challenge o)) <$> rows_of oidc_record db).
Proof. intros Hok. by apply (bytea_key oidc_record _ "state_hash" db); [done|in_list..|]. Qed.
Lemma saml_keys db : ok db -> NoDup ((fun o => Saml.StateHash (sr_Request o)) <$> rows_of saml_record db).
Proof. intros Hok. by apply (bytea_key saml_record _ "state_hash" db); [done|in_list..|]. Qed.

Definition oidc_pending (db : database) : gmap string Oidc.Challenge := one_time oc_Challenge Oidc.StateHash db.
Definition saml_pending (db : database) : gmap string Saml.Request := one_time sr_Request Saml.StateHash db.
End SsoView.

Section SsoContracts.
Context {S : Type} `{PgTypes} (adapter : Adapter S) (conn : S -> connection) `{!PoolContract (pool adapter) conn}.

Definition oidc_values (c : Oidc.Challenge) : list value :=
  [Bytea (Oidc.StateHash c); Text (Oidc.ch_ConnectionID c); Text (Oidc.ch_Issuer c); Text (Oidc.ch_ClientID c);
   Text (Oidc.ch_RedirectURL c); TextArray (Oidc.ch_Scopes c); Boolean (Oidc.ch_RequireVerifiedEmail c);
   Text (Oidc.ch_Nonce c); Text (Oidc.CodeVerifier c); Timestamp (Oidc.CreatedAt c); Timestamp (Oidc.ExpiresAt c)].
Definition saml_values (r : Saml.Request) : list value :=
  [Bytea (Saml.StateHash r); Text (Saml.req_ConnectionID r); Bytea (Saml.ConnectionHash r); Text (Saml.RequestID r);
   Timestamp (Saml.CreatedAt r); Timestamp (Saml.ExpiresAt r)].

Definition stored_oidc (c : Oidc.Challenge) : Oidc.Challenge :=
  Oidc.mkChallenge (Oidc.StateHash c) (Oidc.ch_ConnectionID c) (Oidc.ch_Issuer c) (Oidc.ch_ClientID c) (Oidc.ch_RedirectURL c)
    (Oidc.ch_Scopes c) (Oidc.ch_RequireVerifiedEmail c) (Oidc.ch_Nonce c) (Oidc.CodeVerifier c)
    (microseconds (Oidc.CreatedAt c)) (microseconds (Oidc.ExpiresAt c)).
Definition stored_saml (r : Saml.Request) : Saml.Request :=
  Saml.mkRequest (Saml.StateHash r) (Saml.req_ConnectionID r) (Saml.ConnectionHash r) (Saml.RequestID r)
    (microseconds (Saml.CreatedAt r)) (microseconds (Saml.ExpiresAt r)).

Definition oidc_view (s : S) : gmap string Oidc.Challenge := oidc_pending (committed (conn s)).
Definition saml_view (s : S) : gmap string Saml.Request := saml_pending (committed (conn s)).

(** A call ends with [db'] committed. *)
Ltac pending_done db' Hok' :=
  match goal with Hw' : idle _ db' _ |- _ =>
    let H1 := fresh in let H2 := fresh in destruct (idle_in_order _ _ _ Hw' Hok') as [H1 H2]; split; [done|];
    unfold oidc_view, saml_view; rewrite H2 end.

Lemma postgres_oidc_contract :
  SsoSpec.KeptPendingContract Oidc.StateHash (OIDCStore_CreateChallenge adapter) (OIDCStore_ConsumeChallenge adapter) stored_oidc
    (in_order_state conn) oidc_view.
Proof.
  split.
  - intros c w Hwf. destruct (in_order_idle _ _ Hwf) as [Hw Hok].
    unfold OIDCStore_CreateChallenge. wp_go. eapply wp_pool_Exec; [done|exact Hw|..].
    + intros r db' w' Hw' Hr. pose proof (oidc_keys _ (runs_ok _ _ _ _ _ Hr Hok)) as Hnd.
      eapply (runs_create mkOidcRecord oc_Challenge Oidc.StateHash) with (c := stored_oidc c) in Hr as (Hok' & _ & Hno & Hnew);
        [|in_list|done|done|done|exact Hok|by intros; sql_eval|exact Hnd].
      wp_go. pending_done db' Hok'. split; [exact Hno|]. unfold oidc_pending. rewrite Hnew. done.
    + intros e w' Hw' _. wp_go. pending_done (committed (conn (ext w))) Hok. cbn. by destruct (uniqueViolation e).
  - intros h at_ w Hwf. destruct (in_order_idle _ _ Hwf) as [Hw Hok]. unfold OIDCStore_ConsumeChallenge. wp_go.
    assert (Huse : forall r db', runs (DELETE "authlier_oidc_challenges" ("state_hash" = $1)
        (cols ["state_hash"; "connection_id"; "issuer"; "client_id"; "redirect_url"; "scopes"; "require_verified_email";
          "nonce"; "code_verifier"; "created_at"; "expires_at"])) [Bytea h] (committed (conn (ext w))) r db' ->
      ok db' /\ oidc_pending db' = delete h (oidc_view (ext w)) /\
      forall row, row ∈ r.1.*2 -> exists c, oidc_view (ext w) !! h = Some c /\ row = oidc_values c).
    { intros r db' Hr. eapply (runs_use_up oc_Challenge Oidc.StateHash) with (h := h) (g := oidc_values) in Hr
        as (Hok' & _ & Hnew & Hrows); [|in_list|done|done|exact Hok|by intros; sql_eval; rewrite eqb_decide|by intros; sql_eval|by apply oidc_keys].
      done. }
    eapply wp_pool_QueryRow; [done|exact Hw|..].
    + intros r row db' w' Hw' (Hok' & Hl & Hrows)%Huse Hrow. destruct (Hrows row Hrow) as (c & Hc & ->).
      unfold oidc_values. cbn [or_absent]. wp_go; (pending_done db' Hok'; try by auto). split; [by destruct c|done].
    + intros r db' w' Hw' (Hok' & Hl & _)%Huse _. unfold or_absent. destruct (errors_Is ErrNoRows ErrNoRows); wp_go; pending_done db' Hok'; auto.
    + intros e w' Hw' _. unfold or_absent. destruct (errors_Is e ErrNoRows); wp_go; pending_done (committed (conn (ext w))) Hok; auto.
Qed.

Lemma postgres_saml_contract :
  SsoSpec.KeptPendingContract Saml.StateHash (SAMLStore_CreateRequest adapter) (SAMLStore_ConsumeRequest adapter) stored_saml
    (in_order_state conn) saml_view.
Proof.
  split.
  - intros c w Hwf. destruct (in_order_idle _ _ Hwf) as [Hw Hok].
    unfold SAMLStore_CreateRequest. wp_go. eapply wp_pool_Exec; [done|exact Hw|..].
    + intros r db' w' Hw' Hr. pose proof (saml_keys _ (runs_ok _ _ _ _ _ Hr Hok)) as Hnd.
      eapply (runs_create mkSamlRecord sr_Request Saml.StateHash) with (c := stored_saml c) in Hr as (Hok' & _ & Hno & Hnew);
        [|in_list|done|done|done|exact Hok|by intros; sql_eval|exact Hnd].
      wp_go. pending_done db' Hok'. split; [exact Hno|]. unfold saml_pending. rewrite Hnew. done.
    + intros e w' Hw' _. wp_go. pending_done (committed (conn (ext w))) Hok. cbn. by destruct (uniqueViolation e).
  - intros h at_ w Hwf. destruct (in_order_idle _ _ Hwf) as [Hw Hok]. unfold SAMLStore_ConsumeRequest. wp_go.
    assert (Huse : forall r db', runs (DELETE "authlier_saml_requests" ("state_hash" = $1)
        (cols ["state_hash"; "connection_id"; "connection_hash"; "request_id"; "created_at"; "expires_at"])) [Bytea h]
        (committed (conn (ext w))) r db' ->
      ok db' /\ saml_pending db' = delete h (saml_view (ext w)) /\
      forall row, row ∈ r.1.*2 -> exists c, saml_view (ext w) !! h = Some c /\ row = saml_values c).
    { intros r db' Hr. eapply (runs_use_up sr_Request Saml.StateHash) with (h := h) (g := saml_values) in Hr
        as (Hok' & _ & Hnew & Hrows); [|in_list|done|done|exact Hok|by intros; sql_eval; rewrite eqb_decide|by intros; sql_eval|by apply saml_keys].
      done. }
    eapply wp_pool_QueryRow; [done|exact Hw|..].
    + intros r row db' w' Hw' (Hok' & Hl & Hrows)%Huse Hrow. destruct (Hrows row Hrow) as (c & Hc & ->).
      unfold saml_values. cbn [or_absent]. wp_go; (pending_done db' Hok'; try by auto). split; [by destruct c|done].
    + intros r db' w' Hw' (Hok' & Hl & _)%Huse _. unfold or_absent. destruct (errors_Is ErrNoRows ErrNoRows); wp_go; pending_done db' Hok'; auto.
    + intros e w' Hw' _. unfold or_absent. destruct (errors_Is e ErrNoRows); wp_go; pending_done (committed (conn (ext w))) Hok; auto.
Qed.
End SsoContracts.

(** ** Second factors in the tables *)
Record enrollment_record : Type := mkEnrollmentRecord {
  te_SubjectID : string; te_Secret : string; te_CreatedAt : time; te_ExpiresAt : time }.
Record factor_record : Type := mkFactorRecord {
  tf_SubjectID : string; tf_Secret : string; tf_EnabledAt : time; tf_Counter : option Z; tf_DisabledAt : option time }.
Record code_record : Type := mkCodeRecord { rc_SubjectID : string; rc_Hash : string; rc_UsedAt : option time }.
Record challenge_record : Type := mkChallengeRecord {
  tl_Hash : string; tl_SubjectID : string; tl_CreatedAt : time; tl_ExpiresAt : time; tl_ConsumedAt : option time }.

Definition enrollment_row (e : enrollment_record) : row :=
  [("subject_id", Text (te_SubjectID e)); ("encrypted_secret", Bytea (te_Secret e)); ("created_at", Timestamp (te_CreatedAt e));
   ("expires_at", Timestamp (te_ExpiresAt e))].
Definition factor_row (f : factor_record) : row :=
  [("subject_id", Text (tf_SubjectID f)); ("encrypted_secret", Bytea (tf_Secret f)); ("enabled_at", Timestamp (tf_EnabledAt f));
   ("last_used_counter", nullable Bigint (tf_Counter f)); ("disabled_at", nullable Timestamp (tf_DisabledAt f))].
Definition code_row (c : code_record) : row :=
  [("subject_id", Text (rc_SubjectID c)); ("code_hash", Bytea (rc_Hash c)); ("used_at", nullable Timestamp (rc_UsedAt c))].
Definition challenge_row (c : challenge_record) : row :=
  [("token_hash", Bytea (tl_Hash c)); ("subject_id", Text (tl_SubjectID c)); ("created_at", Timestamp (tl_CreatedAt c));
   ("expires_at", Timestamp (tl_ExpiresAt c)); ("consumed_at", nullable Timestamp (tl_ConsumedAt c))].
Arguments enrollment_row e /. Arguments factor_row f /. Arguments code_row c /. Arguments challenge_row c /.

#[export, refine] Instance enrollment_entity : Entity enrollment_record :=
  {| entity := authlier_totp_enrollments; to_row := enrollment_row;
     of_row r := match r.*2 with
                 | [Text s; Bytea e; Timestamp c; Timestamp x] => Some (mkEnrollmentRecord s e c x)
                 | _ => None
                 end |}.
Proof. - by intros []. - entity_cells. by eexists (mkEnrollmentRecord _ _ _ _). Defined.

#[export, refine] Instance factor_entity : Entity factor_record :=
  {| entity := authlier_totp_credentials; to_row := factor_row;
     of_row r := match r.*2 with
                 | [Text s; Bytea e; Timestamp t; k; d] =>
                     match scan_counter k, scan_optional_time d with
                     | Some k, Some d => Some (mkFactorRecord s e t k d)
                     | _, _ => None
                     end
                 | _ => None
                 end |}.
Proof.
  - by intros [? ? ? [] []].
  - entity_cells.
    + by eexists (mkFactorRecord _ _ _ None None).
    + by eexists (mkFactorRecord _ _ _ None (Some _)).
    + by eexists (mkFactorRecord _ _ _ (Some _) None).
    + by eexists (mkFactorRecord _ _ _ (Some _) (Some _)).
Defined.

#[export, refine] Instance code_entity : Entity code_record :=
  {| entity := authlier_totp_recovery_codes; to_row := code_row;
     of_row r := match r.*2 with
                 | [Text s; Bytea h; u] => mkCodeRecord s h <$> scan_optional_time u
                 | _ => None
                 end |}.
Proof.
  - by intros [? ? []].
  - entity_cells.
    + by eexists (mkCodeRecord _ _ None).
    + by eexists (mkCodeRecord _ _ (Some _)).
Defined.

#[export, refine] Instance challenge_entity : Entity challenge_record :=
  {| entity := authlier_totp_challenges; to_row := challenge_row;
     of_row r := match r.*2 with
                 | [Bytea h; Text s; Timestamp c; Timestamp x; u] => mkChallengeRecord h s c x <$> scan_optional_time u
                 | _ => None
                 end |}.
Proof.
  - by intros [? ? ? ? []].
  - entity_cells.
    + by eexists (mkChallengeRecord _ _ _ _ None).
    + by eexists (mkChallengeRecord _ _ _ _ (Some _)).
Defined.

Lemma enrollment_keys db : ok db -> NoDup (te_SubjectID <$> rows_of enrollment_record db).
Proof. intros Hok. by apply (text_key enrollment_record te_SubjectID "subject_id" db); [done|in_list..|]. Qed.
Lemma factor_keys db : ok db -> NoDup (tf_SubjectID <$> rows_of factor_record db).
Proof. intros Hok. by apply (text_key factor_record tf_SubjectID "subject_id" db); [done|in_list..|]. Qed.
Lemma challenge_keys db : ok db -> NoDup (tl_Hash <$> rows_of challenge_record db).
Proof. intros Hok. by apply (bytea_key challenge_record tl_Hash "token_hash" db); [done|in_list..|]. Qed.

(** The four tables. *)
Record totp_tables : Type := mkTotpTables {
  enrollment_table : gmap string enrollment_record;
  factor_table : gmap string factor_record;
  code_rows : list code_record;
  challenge_table : gmap string challenge_record;
}.

Definition totp_of (db : database) : totp_tables :=
  mkTotpTables (by_key te_SubjectID (rows_of enrollment_record db)) (by_key tf_SubjectID (rows_of factor_record db))
    (rows_of code_record db) (by_key tl_Hash (rows_of challenge_record db)).

(** The codes of a user that are not used. *)
Definition open_code (id : string) (c : code_record) : bool :=
  String.eqb (rc_SubjectID c) id && is_null (nullable Timestamp (rc_UsedAt c)).
Definition unused (id : string) (codes : list code_record) : gset string :=
  list_to_set (rc_Hash <$> List.filter (open_code id) codes).

Lemma elem_of_unused id codes h : h ∈ unused id codes <-> exists c, c ∈ codes /\ open_code id c = true /\ rc_Hash c = h.
Proof.
  unfold unused. rewrite elem_of_list_to_set, list_elem_of_fmap. setoid_rewrite elem_of_List_filter. naive_solver.
Qed.

Section TotpView.
Import Totp TotpSpec.

(** [plain]: the secret of a ciphertext. *)
Context (plain : string -> string).

Definition active {A} (f : factor_record) (a : A) : option A := match tf_DisabledAt f with None => Some a | Some _ => None end.
Definition enrolled_of (e : enrollment_record) : enrolled := mkEnrolled (plain (te_Secret e)) (te_ExpiresAt e).
Definition factor_at (f : factor_record) : factor := mkFactor (plain (tf_Secret f)) (uint64 <$> tf_Counter f).
Definition challenged_of (c : challenge_record) : option challenged :=
  match tl_ConsumedAt c with None => Some (mkChallenged (tl_SubjectID c) (tl_ExpiresAt c)) | Some _ => None end.

Definition factors_from (t : totp_tables) : factors :=
  mkFactors (enrolled_of <$> enrollment_table t) (omap (fun f => active f (factor_at f)) (factor_table t))
    (omap challenged_of (challenge_table t))
    (map_imap (fun id f => active f (unused id (code_rows t))) (factor_table t)).

(** Codes are an enabled factor's, and the counters fit an int64. *)
Record totp_inv (t : totp_tables) : Prop := {
  inv_codes c : c ∈ code_rows t -> exists f, factor_table t !! rc_SubjectID c = Some f /\ tf_DisabledAt f = None;
  inv_counters id f z : factor_table t !! id = Some f -> tf_Counter f = Some z -> int64 z = z;
}.

Lemma factors_eq s s' : enrollments s = enrollments s' -> enabled s = enabled s' -> challenges s = challenges s' ->
  recovery s = recovery s' -> s = s'.
Proof. destruct s, s'. simpl. by intros -> -> -> ->. Qed.

Definition put_enrollment (e : enrollment_record) (t : totp_tables) : totp_tables :=
  mkTotpTables (<[te_SubjectID e := e]> (enrollment_table t)) (factor_table t) (code_rows t) (challenge_table t).
Definition drop_enrollment (id : string) (t : totp_tables) : totp_tables :=
  mkTotpTables (delete id (enrollment_table t)) (factor_table t) (code_rows t) (challenge_table t).
Definition put_factor (f : factor_record) (t : totp_tables) : totp_tables :=
  mkTotpTables (enrollment_table t) (<[tf_SubjectID f := f]> (factor_table t)) (code_rows t) (challenge_table t).
Definition drop_codes (id : string) (t : totp_tables) : totp_tables :=
  mkTotpTables (enrollment_table t) (factor_table t)
    (List.filter (fun c => negb (String.eqb (rc_SubjectID c) id)) (code_rows t)) (challenge_table t).
Definition add_codes (id : string) (hashes : list string) (t : totp_tables) : totp_tables :=
  mkTotpTables (enrollment_table t) (factor_table t)
    (code_rows t ++ ((fun h => mkCodeRecord id h None) <$> hashes)) (challenge_table t).
Definition use_code (id h : string) (at_ : time) (t : totp_tables) : totp_tables :=
  mkTotpTables (enrollment_table t) (factor_table t)
    ((fun c => if open_code id c && String.eqb (rc_Hash c) h then mkCodeRecord (rc_SubjectID c) (rc_Hash c) (Some at_) else c)
       <$> code_rows t) (challenge_table t).
Definition put_challenge (c : challenge_record) (t : totp_tables) : totp_tables :=
  mkTotpTables (enrollment_table t) (factor_table t) (code_rows t) (<[tl_Hash c := c]> (challenge_table t)).

Lemma unused_app id l k : unused id (l ++ k) = unused id l ∪ unused id k.
Proof. unfold unused. by rewrite List.filter_app, fmap_app, list_to_set_app_L. Qed.

Lemma unused_none id codes : (forall c, c ∈ codes -> rc_SubjectID c <> id) -> unused id codes = ∅.
Proof.
  intros Hno. unfold unused. rewrite filter_none; [done|]. intros c Hc. unfold open_code.
  by rewrite (proj2 (String.eqb_neq _ _) (Hno c Hc)).
Qed.

Lemma unused_new id hashes : unused id ((fun h => mkCodeRecord id h None) <$> hashes) = list_to_set hashes.
Proof.
  induction hashes as [|h l IH]; [done|]. unfold unused in *. csimpl. unfold open_code at 1. simpl. rewrite String.eqb_refl.
  csimpl. by rewrite IH.
Qed.

Lemma unused_drop id j codes : j <> id ->
  unused j (List.filter (fun c => negb (String.eqb (rc_SubjectID c) id)) codes) = unused j codes.
Proof.
  intros Hj. unfold unused. f_equal. f_equal. induction codes as [|c l IH]; [done|]. csimpl.
  destruct (String.eqb_spec (rc_SubjectID c) id) as [E|E]; csimpl; [|by rewrite IH].
  rewrite IH. unfold open_code at 2. by rewrite (proj2 (String.eqb_neq (rc_SubjectID c) j)) by congruence.
Qed.

Lemma recovery_at t id : recovery (factors_from t) !! id = factor_table t !! id ≫= fun f => active f (unused id (code_rows t)).
Proof. simpl. by rewrite map_lookup_imap. Qed.

(** *** What the steps do to the factors *)
Lemma begun_tables e t : totp_inv t ->
  totp_inv (put_enrollment e t) /\
  factors_from (put_enrollment e t) = begin_enrollment (te_SubjectID e) (enrolled_of e) (factors_from t).
Proof. intros [Hc Hz]. split; [by split|]. apply factors_eq; simpl; [by rewrite fmap_insert|done..]. Qed.

Lemma enabled_tables f k hashes t (id := tf_SubjectID f) : totp_inv t ->
  tf_DisabledAt f = None -> tf_Counter f = Some k -> int64 k = k ->
  totp_inv (drop_enrollment id (add_codes id hashes (drop_codes id (put_factor f t)))) /\
  factors_from (drop_enrollment id (add_codes id hashes (drop_codes id (put_factor f t)))) =
    enable id (plain (tf_Secret f)) (uint64 k) hashes (factors_from t).
Proof.
  intros [Hc Hz] Hd Hk Hr. split.
  - split; simpl.
    + intros c [[Hin Hn]%elem_of_List_filter|(h & -> & _)%list_elem_of_fmap]%elem_of_app; simpl.
      * destruct (Hc c Hin) as (g & Hg & Hgd). exists g. rewrite lookup_insert_ne; [done|].
        intros E. rewrite <- E in Hn. by rewrite String.eqb_refl in Hn.
      * exists f. by rewrite lookup_insert_eq.
    + intros j g z [[<- <-]|[_ Hg]]%lookup_insert_Some; [congruence|by eapply Hz].
  - apply factors_eq; simpl; [by rewrite fmap_delete| |done|].
    + rewrite omap_insert. unfold active, factor_at at 1. by rewrite Hd, Hk.
    + apply map_eq. intros j. rewrite map_lookup_imap. destruct (decide (id = j)) as [<-|Hj].
      * rewrite !lookup_insert_eq. simpl. unfold active. rewrite Hd, unused_app, unused_new, unused_none; [f_equal; set_solver|].
        intros c [_ Hn]%elem_of_List_filter E. rewrite E in Hn. by rewrite String.eqb_refl in Hn.
      * rewrite !lookup_insert_ne by done. rewrite map_lookup_imap. destruct (factor_table t !! j) as [g|]; [|done].
        simpl. rewrite unused_app, unused_drop by done. f_equal. rewrite (unused_none j ((fun h => _) <$> hashes)); [set_solver|].
        by intros c (h & -> & _)%list_elem_of_fmap.
Qed.

Lemma disabled_tables f t (id := tf_SubjectID f) g : totp_inv t -> factor_table t !! id = Some g ->
  is_Some (tf_DisabledAt f) -> tf_Counter f = tf_Counter g ->
  totp_inv (drop_codes id (put_factor f t)) /\
  factors_from (drop_codes id (put_factor f t)) = disable id (factors_from t).
Proof.
  intros [Hc Hz] Hg [at_ Hd] Hk. split.
  - split; simpl.
    + intros c [Hin Hn]%elem_of_List_filter. destruct (Hc c Hin) as (g' & Hg' & Hgd). exists g'.
      rewrite lookup_insert_ne; [done|]. intros E. rewrite <- E in Hn. by rewrite String.eqb_refl in Hn.
    + intros j g' z [[<- <-]|[_ Hg']]%lookup_insert_Some; [rewrite Hk; by eapply Hz|by eapply Hz].
  - apply factors_eq; simpl; [done| |done|].
    + apply map_eq. intros j. rewrite !lookup_omap. destruct (decide (id = j)) as [<-|Hj].
      * rewrite lookup_insert_eq, lookup_delete_eq. simpl. unfold active. by rewrite Hd.
      * by rewrite lookup_insert_ne, lookup_delete_ne, lookup_omap.
    + apply map_eq. intros j. rewrite map_lookup_imap. destruct (decide (id = j)) as [<-|Hj].
      * rewrite lookup_insert_eq, lookup_delete_eq. simpl. unfold active. by rewrite Hd.
      * rewrite lookup_insert_ne, lookup_delete_ne, map_lookup_imap by done. destruct (factor_table t !! j); [|done].
        simpl. by rewrite unused_drop.
Qed.

Lemma challenged_tables c t : totp_inv t -> tl_ConsumedAt c = None ->
  totp_inv (put_challenge c t) /\
  factors_from (put_challenge c t) = challenge_subject (tl_Hash c) (tl_SubjectID c) (tl_ExpiresAt c) (factors_from t).
Proof.
  intros [Hc Hz] Hd. split; [by split|]. apply factors_eq; simpl; [done|done| |done].
  rewrite omap_insert. unfold challenged_of at 1. by rewrite Hd.
Qed.

(** A challenge that is used up. *)
Definition consumed (at_ : time) (c : challenge_record) : challenge_record :=
  mkChallengeRecord (tl_Hash c) (tl_SubjectID c) (tl_CreatedAt c) (tl_ExpiresAt c) (Some at_).

Lemma consumed_challenges c at_ t :
  omap challenged_of (<[tl_Hash c := consumed at_ c]> (challenge_table t)) = delete (tl_Hash c) (omap challenged_of (challenge_table t)).
Proof. by rewrite omap_insert. Qed.

Lemma coded_tables c at_ f k t (id := tf_SubjectID f) g : totp_inv t -> factor_table t !! id = Some g ->
  tf_DisabledAt g = None -> tf_DisabledAt f = None -> tf_Secret f = tf_Secret g -> tf_Counter f = Some k -> int64 k = k ->
  totp_inv (put_factor f (put_challenge (consumed at_ c) t)) /\
  factors_from (put_factor f (put_challenge (consumed at_ c) t)) = complete_code (tl_Hash c) id (plain (tf_Secret g)) (uint64 k) (factors_from t).
Proof.
  intros [Hc Hz] Hg Hgd Hd Hs Hk Hr. split.
  - split; simpl.
    + intros x Hx. destruct (Hc x Hx) as (g' & Hg' & Hgd'). destruct (decide (id = rc_SubjectID x)) as [E|E].
      * exists f. split; [|done]. apply lookup_insert_Some. by left.
      * exists g'. by rewrite lookup_insert_ne.
    + intros j g' z [[<- <-]|[_ Hg']]%lookup_insert_Some; [congruence|by eapply Hz].
  - apply factors_eq; simpl; [done| |by apply consumed_challenges|].
    + rewrite omap_insert. unfold active, factor_at at 1. by rewrite Hd, Hk, Hs.
    + apply map_eq. intros j. rewrite !map_lookup_imap. destruct (decide (id = j)) as [<-|Hj].
      * rewrite lookup_insert_eq, Hg. simpl. unfold active. by rewrite Hd, Hgd.
      * by rewrite lookup_insert_ne.
Qed.

Lemma unused_use id h at_ codes :
  unused id ((fun c => if open_code id c && String.eqb (rc_Hash c) h then mkCodeRecord (rc_SubjectID c) (rc_Hash c) (Some at_) else c)
    <$> codes) = unused id codes ∖ {[h]} /\
  forall j, j <> id ->
    unused j ((fun c => if open_code id c && String.eqb (rc_Hash c) h then mkCodeRecord (rc_SubjectID c) (rc_Hash c) (Some at_) else c)
      <$> codes) = unused j codes.
Proof.
  induction codes as [|c l [IH1 IH2]]; [split; [apply leibniz_equiv; set_solver|done]|].
  unfold unused in *. csimpl. destruct (open_code id c) eqn:E; csimpl.
  - destruct (String.eqb_spec (rc_Hash c) h) as [<-|Hh]; csimpl.
    + assert (Hused : forall j, open_code j (mkCodeRecord (rc_SubjectID c) (rc_Hash c) (Some at_)) = false)
        by (intros j; unfold open_code; by rewrite andb_false_r).
      rewrite Hused, IH1. split; [set_solver|]. intros j Hj. rewrite Hused, IH2 by done.
      assert (Hcj : open_code j c = false); [|by rewrite Hcj].
      unfold open_code in *. go_bool. by rewrite (proj2 (String.eqb_neq (rc_SubjectID c) j)) by congruence.
    + rewrite E. csimpl. rewrite IH1. split; [set_solver|]. intros j Hj. destruct (open_code j c); csimpl; by rewrite IH2.
  - rewrite E, IH1. split; [done|]. intros j Hj. destruct (open_code j c); csimpl; by rewrite IH2.
Qed.

Lemma recovered_tables c at_ id h used g t : totp_inv t -> factor_table t !! id = Some g -> tf_DisabledAt g = None ->
  totp_inv (use_code id h used (put_challenge (consumed at_ c) t)) /\
  factors_from (use_code id h used (put_challenge (consumed at_ c) t)) =
    complete_recovery (tl_Hash c) id h (unused id (code_rows t)) (factors_from t).
Proof.
  intros [Hc Hz] Hg Hgd. split.
  - split; simpl; [|done]. intros x (y & -> & Hy)%list_elem_of_fmap. destruct (Hc y Hy) as (g' & Hg' & Hgd').
    exists g'. by destruct (open_code id y && String.eqb (rc_Hash y) h).
  - destruct (unused_use id h used (code_rows t)) as [Hsame Hother].
    apply factors_eq; simpl; [done|done|by apply consumed_challenges|].
    apply map_eq. intros j. rewrite map_lookup_imap. destruct (decide (id = j)) as [<-|Hj].
    + rewrite lookup_insert_eq, Hg. simpl. unfold active. by rewrite Hgd, Hsame.
    + rewrite lookup_insert_ne, map_lookup_imap by done. destruct (factor_table t !! j); [|done]. simpl. by rewrite Hother.
Qed.
End TotpView.

Lemma totp_eq s s' : enrollment_table s = enrollment_table s' -> factor_table s = factor_table s' ->
  code_rows s = code_rows s' -> challenge_table s = challenge_table s' -> s = s'.
Proof. destruct s, s'. simpl. by intros -> -> -> ->. Qed.

Ltac same_totp Hs :=
  rewrite ?(rows_of_same enrollment_record _ _ _ Hs), ?(rows_of_same factor_record _ _ _ Hs),
    ?(rows_of_same code_record _ _ _ Hs), ?(rows_of_same challenge_record _ _ _ Hs) by done; done.

(** *** What the statements do to the tables *)
Section TotpStatements.
Context `{PgTypes}.

Lemma runs_put_enrollment id secret c x db r db' :
  runs (INSERT "authlier_totp_enrollments"
       [("subject_id", $1); ("encrypted_secret", $2); ("created_at", $3); ("expires_at", $4)]
       (Some (["subject_id"], [("encrypted_secret", Excluded "encrypted_secret"); ("created_at", Excluded "created_at");
          ("expires_at", Excluded "expires_at")])))
    [Text id; Bytea secret; time_value c; time_value x] db r db' -> ok db ->
  ok db' /\ totp_of db' = put_enrollment (mkEnrollmentRecord id secret (microseconds c) (microseconds x)) (totp_of db).
Proof.
  intros Hr Hok. set (a := mkEnrollmentRecord id secret (microseconds c) (microseconds x)).
  eapply (runs_upsert enrollment_record) with (a := a) (same := fun b => bool_decide (te_SubjectID b = te_SubjectID a))
    (f := fun b => mkEnrollmentRecord (te_SubjectID b) secret (microseconds c) (microseconds x)) in Hr as (Hrows & Hok' & Hs);
    [|in_list|done|done|done|by intros; sql_eval| |by intros; sql_eval].
  - split; [done|]. apply totp_eq; simpl; [|same_totp Hs..]. rewrite Hrows.
    rewrite (by_key_upsert te_SubjectID); [done|by apply enrollment_keys|done|].
    intros b Hb. go_bool. unfold a. f_equal. by rewrite Hb.
  - intros b. unfold a. sql_eval. rewrite andb_true_r. apply bool_decide_ext. naive_solver.
Qed.

Lemma runs_drop_enrollment id db r db' :
  runs (DELETE "authlier_totp_enrollments" ("subject_id" = $1) []) [Text id] db r db' -> ok db ->
  ok db' /\ totp_of db' = drop_enrollment id (totp_of db).
Proof.
  intros Hr Hok. eapply (runs_DELETE enrollment_record) with (p := fun a => String.eqb (te_SubjectID a) id) (g := fun _ => []) in Hr
    as (Hrows & _ & _ & Hok' & Hs); [|in_list|done|done|done|intros; by sql_eval; rewrite eqb_decide|done].
  split; [done|]. apply totp_eq; simpl; [|same_totp Hs..].
  rewrite Hrows. apply by_key_delete; [by apply enrollment_keys|]. intros b _. by rewrite eqb_decide.
Qed.

Lemma runs_put_factor id secret at_ k db r db' :
  runs (INSERT "authlier_totp_credentials"
             [("subject_id", $1); ("encrypted_secret", $2); ("enabled_at", $3); ("last_used_counter", $4)]
             (Some (["subject_id"], [("encrypted_secret", Excluded "encrypted_secret"); ("enabled_at", Excluded "enabled_at");
                ("last_used_counter", Excluded "last_used_counter"); ("disabled_at", Const Null)])))
    [Text id; Bytea secret; time_value at_; Bigint k] db r db' -> ok db ->
  ok db' /\ totp_of db' = put_factor (mkFactorRecord id secret (microseconds at_) (Some k) None) (totp_of db).
Proof.
  intros Hr Hok. set (a := mkFactorRecord id secret (microseconds at_) (Some k) None).
  eapply (runs_upsert factor_record) with (a := a) (same := fun b => bool_decide (tf_SubjectID b = tf_SubjectID a))
    (f := fun b => mkFactorRecord (tf_SubjectID b) secret (microseconds at_) (Some k) None) in Hr as (Hrows & Hok' & Hs);
    [|in_list|done|done|done|by intros; sql_eval| |by intros; sql_eval].
  - split; [done|]. apply totp_eq; simpl; [same_totp Hs| |same_totp Hs..]. rewrite Hrows.
    rewrite (by_key_upsert tf_SubjectID); [done|by apply factor_keys|done|].
    intros b Hb. go_bool. unfold a. f_equal. by rewrite Hb.
  - intros b. unfold a. sql_eval. rewrite andb_true_r. apply bool_decide_ext. naive_solver.
Qed.

Lemma runs_drop_codes id db r db' :
  runs (DELETE "authlier_totp_recovery_codes" ("subject_id" = $1) []) [Text id] db r db' -> ok db ->
  ok db' /\ totp_of db' = drop_codes id (totp_of db).
Proof.
  intros Hr Hok. eapply (runs_DELETE code_record) with (p := fun a => String.eqb (rc_SubjectID a) id) (g := fun _ => []) in Hr
    as (Hrows & _ & _ & Hok' & Hs); [|in_list|done|done|done|intros; by sql_eval; rewrite eqb_decide|done].
  split; [done|]. apply totp_eq; simpl; [same_totp Hs..|done|same_totp Hs].
Qed.

Lemma runs_add_code id h db r db' :
  runs (INSERT "authlier_totp_recovery_codes" [("subject_id", $1); ("code_hash", $2)] None) [Text id; Bytea h] db r db' -> ok db ->
  ok db' /\ totp_of db' = add_codes id [h] (totp_of db).
Proof.
  intros Hr Hok. eapply (runs_INSERT code_record) with (a := fun _ => mkCodeRecord id h None) in Hr
    as (_ & Hrows & Hok' & Hs); [|in_list|done|done|done|by intros; sql_eval].
  split; [done|]. apply totp_eq; simpl; [same_totp Hs..|done|same_totp Hs].
Qed.

Lemma runs_add_challenge h id c x db r db' :
  runs (INSERT "authlier_totp_challenges" [("token_hash", $1); ("subject_id", $2); ("created_at", $3); ("expires_at", $4)] None)
    [Bytea h; Text id; time_value c; time_value x] db r db' -> ok db ->
  ok db' /\ challenge_table (totp_of db) !! h = None /\
  totp_of db' = put_challenge (mkChallengeRecord h id (microseconds c) (microseconds x) None) (totp_of db).
Proof.
  intros Hr Hok. eapply (runs_INSERT challenge_record) with (a := fun _ => mkChallengeRecord h id (microseconds c) (microseconds x) None) in Hr
    as (_ & Hrows & Hok' & Hs); [|in_list|done|done|done|by intros; sql_eval].
  pose proof (challenge_keys _ Hok') as Hnd. rewrite Hrows in Hnd. apply by_key_app in Hnd as [Hn Hi].
  split_and!; [done|exact Hn|]. apply totp_eq; simpl; [same_totp Hs..|]. by rewrite Hrows, Hi.
Qed.

(** A challenge is used up, if it is there, unused and live. *)
Lemma runs_consume_challenge h at_ db r db' :
  runs (UPDATE "authlier_totp_challenges" [("consumed_at", $1)]
       ("token_hash" = $2 AND "consumed_at" IS_NULL AND "expires_at" > $1) (cols ["subject_id"]))
    [time_value at_; Bytea h] db r db' -> ok db ->
  ok db' /\ forall row, row ∈ r.1.*2 -> exists c, challenge_table (totp_of db) !! h = Some c /\ tl_Hash c = h /\
    tl_ConsumedAt c = None /\ (microseconds at_ < tl_ExpiresAt c)%Z /\ row = [Text (tl_SubjectID c)] /\
    totp_of db' = put_challenge (consumed (microseconds at_) c) (totp_of db).
Proof.
  intros Hr Hok.
  set (p := fun c => String.eqb (tl_Hash c) h && (is_null (nullable Timestamp (tl_ConsumedAt c)) && (microseconds at_ <? tl_ExpiresAt c)%Z)).
  eapply (runs_UPDATE challenge_record) with (p := p) (f := consumed (microseconds at_)) (g := fun c => [Text (tl_SubjectID c)]) in Hr
    as (Hrows & Hret & _ & Hok' & Hs); [|in_list|done|done|intros; unfold p; sql_eval; by rewrite !eqb_decide|by intros; sql_eval|by intros; sql_eval].
  split; [done|]. intros row. rewrite Hret, list_elem_of_fmap. intros (c & -> & [Hc Hp]%elem_of_List_filter).
  pose proof Hp as Hp'. unfold p in Hp'. go_bool. assert (Hat : challenge_table (totp_of db) !! h = Some c).
  { simpl. apply by_key_Some; [by apply challenge_keys|]. done. }
  exists c. split_and!; [done|done|by destruct (tl_ConsumedAt c)|done|done|].
  apply totp_eq; simpl; [same_totp Hs..|]. rewrite Hrows.
  rewrite (by_key_update tl_Hash p (consumed (microseconds at_)) _ h c);
    [by f_equal|by apply challenge_keys|done| |exact Hat|exact Hp].
  intros b Hb. unfold p in Hb. by go_bool.
Qed.

(** An enabled factor is used at a later counter. *)
Lemma runs_use_counter k id db r db' :
  runs (UPDATE "authlier_totp_credentials" [("last_used_counter", $1)]
         ("subject_id" = $2 AND "disabled_at" IS_NULL AND ("last_used_counter" IS_NULL OR "last_used_counter" < $1)) [])
    [Bigint k; Text id] db r db' -> ok db ->
  ok db' /\ (r.2 <> 0 -> exists f, factor_table (totp_of db) !! id = Some f /\ tf_SubjectID f = id /\ tf_DisabledAt f = None /\
    match tf_Counter f with Some last => (last < k)%Z | None => True end /\
    totp_of db' = put_factor (mkFactorRecord id (tf_Secret f) (tf_EnabledAt f) (Some k) None) (totp_of db)).
Proof.
  intros Hr Hok.
  set (p := fun f => String.eqb (tf_SubjectID f) id && (is_null (nullable Timestamp (tf_DisabledAt f)) &&
    match tf_Counter f with Some last => (last <? k)%Z | None => true end)).
  set (upd := fun f => mkFactorRecord (tf_SubjectID f) (tf_Secret f) (tf_EnabledAt f) (Some k) (tf_DisabledAt f)).
  eapply (runs_UPDATE factor_record) with (p := p) (f := upd) (g := fun _ => []) in Hr
    as (Hrows & _ & Hn & Hok' & Hs); [|in_list|done|done| |by intros; sql_eval|by intros; sql_eval].
  2: { intros now a. unfold p. sql_eval. rewrite !eqb_decide. by destruct (tf_Counter a). }
  split; [done|]. rewrite Hn. intros Hsome. destruct (List.filter p _) as [|f l] eqn:E; [done|].
  assert (Hf : f ∈ f :: l) by set_solver. rewrite <- E in Hf. apply elem_of_List_filter in Hf as [Hf Hp].
  pose proof Hp as Hp'. unfold p in Hp'. go_bool. assert (Hat : factor_table (totp_of db) !! id = Some f).
  { simpl. apply by_key_Some; [by apply factor_keys|]. done. }
  assert (Hd : tf_DisabledAt f = None) by by destruct (tf_DisabledAt f).
  exists f. split_and!; [done|done|done|destruct (tf_Counter f); [by go_bool|done]|].
  apply totp_eq; simpl; [same_totp Hs| |same_totp Hs..]. rewrite Hrows.
  rewrite (by_key_update tf_SubjectID p upd _ id f); [|by apply factor_keys|done| |exact Hat|exact Hp].
  - f_equal. unfold upd. rewrite Hd. by f_equal.
  - intros b Hb. unfold p in Hb. by go_bool.
Qed.

Lemma runs_use_code at_ id h db r db' :
  runs (UPDATE "authlier_totp_recovery_codes" [("used_at", $1)]
         ("subject_id" = $2 AND "code_hash" = $3 AND "used_at" IS_NULL) [])
    [time_value at_; Text id; Bytea h] db r db' -> ok db ->
  ok db' /\ totp_of db' = use_code id h (microseconds at_) (totp_of db) /\ (r.2 <> 0 -> h ∈ unused id (code_rows (totp_of db))).
Proof.
  intros Hr Hok. set (p := fun c => open_code id c && String.eqb (rc_Hash c) h).
  eapply (runs_UPDATE code_record) with (p := p) (f := fun c => mkCodeRecord (rc_SubjectID c) (rc_Hash c) (Some (microseconds at_)))
    (g := fun _ => []) in Hr as (Hrows & _ & Hn & Hok' & Hs); [|in_list|done|done| |by intros; sql_eval|by intros; sql_eval].
  2: { intros now a. unfold p, open_code. sql_eval. rewrite !eqb_decide. by rewrite <- !andb_assoc, (andb_comm (is_null _)). }
  split_and!; [done|apply totp_eq; simpl; [same_totp Hs..|exact Hrows|same_totp Hs]|].
  rewrite Hn. intros Hsome. destruct (List.filter p _) as [|c l] eqn:E; [done|].
  assert (Hc : c ∈ c :: l) by set_solver. rewrite <- E in Hc. apply elem_of_List_filter in Hc as [Hc Hp].
  unfold p in Hp. go_bool. rewrite elem_of_unused. by exists c.
Qed.

Lemma runs_disable_factor at_ id db r db' :
  runs (UPDATE "authlier_totp_credentials" [("disabled_at", Coalesce "disabled_at" ($1))] ("subject_id" = $2) [])
    [time_value at_; Text id] db r db' -> ok db ->
  ok db' /\ (r.2 <> 0 -> exists f g, factor_table (totp_of db) !! id = Some g /\ tf_SubjectID f = id /\ is_Some (tf_DisabledAt f) /\
    tf_Counter f = tf_Counter g /\ totp_of db' = put_factor f (totp_of db)).
Proof.
  intros Hr Hok. set (p := fun f => String.eqb (tf_SubjectID f) id).
  set (upd := fun f => mkFactorRecord (tf_SubjectID f) (tf_Secret f) (tf_EnabledAt f) (tf_Counter f)
    (Some (default (microseconds at_) (tf_DisabledAt f)))).
  eapply (runs_UPDATE factor_record) with (p := p) (f := upd) (g := fun _ => []) in Hr
    as (Hrows & _ & Hn & Hok' & Hs); [|in_list|done|done|intros; unfold p; sql_eval; by rewrite eqb_decide| |by intros; sql_eval].
  2: { intros now a _. unfold upd. sql_eval. by destruct (tf_DisabledAt a). }
  split; [done|]. rewrite Hn. intros Hsome. destruct (List.filter p _) as [|f l] eqn:E; [done|].
  assert (Hf : f ∈ f :: l) by set_solver. rewrite <- E in Hf. apply elem_of_List_filter in Hf as [Hf Hp].
  pose proof Hp as Hp'. unfold p in Hp'. apply String.eqb_eq in Hp'. assert (Hat : factor_table (totp_of db) !! id = Some f).
  { simpl. apply by_key_Some; [by apply factor_keys|]. done. }
  exists (upd f), f. split_and!; [done|done|by eexists|done|].
  apply totp_eq; simpl; [same_totp Hs| |same_totp Hs..]. rewrite Hrows, Hp'.
  apply (by_key_update tf_SubjectID p upd _ id f); [by apply factor_keys|done| |exact Hat|exact Hp].
  intros b. by intros ->%String.eqb_eq.
Qed.
End TotpStatements.

(** *** The store over a codec of secrets *)
Class CodecContract {S} (codec : SecretCodec S) (conn : S -> connection) (plain : string -> string) : Prop := {
  codec_Encrypt_ok s w : wp (Encrypt codec s) (fun r w' => conn (ext w') = conn (ext w) /\ forall e, r = Ok e -> plain e = s) w;
  codec_Decrypt_ok e w : wp (Decrypt codec e) (fun r w' => conn (ext w') = conn (ext w) /\ forall s, r = Ok s -> s = plain e) w;
}.

Section TotpEffects.
Import Totp TotpSpec.
Context {S : Type} `{PgTypes} (adapter : Adapter S) (conn : S -> connection) `{!PoolContract (pool adapter) conn}.
Context (plain : string -> string) (Hcodec : forall codec, secrets adapter = Some codec -> CodecContract codec conn plain).

Lemma wp_encrypt s db w (Q : result string -> World S -> Prop) : idle conn db w ->
  (forall e w', idle conn db w' -> plain e = s -> Q (Ok e) w') -> (forall e w', idle conn db w' -> Q (Err e) w') ->
  wp (encrypt adapter s) Q w.
Proof.
  intros Hw Hyes Hno. unfold encrypt. destruct (secrets adapter) as [codec|] eqn:E; [|wp_go; by apply Hno].
  specialize (Hcodec codec eq_refl). eapply wp_mono; [by apply codec_Encrypt_ok|]. intros [e|e] w' [Hc He].
  - apply Hyes; [unfold idle; by rewrite Hc|by apply He].
  - apply Hno. unfold idle. by rewrite Hc.
Qed.

Lemma wp_decrypt e db w (Q : result string -> World S -> Prop) : idle conn db w ->
  (forall w', idle conn db w' -> Q (Ok (plain e)) w') -> (forall e w', idle conn db w' -> Q (Err e) w') ->
  wp (decrypt adapter e) Q w.
Proof.
  intros Hw Hyes Hno. unfold decrypt. destruct (secrets adapter) as [codec|] eqn:E; [|wp_go; by apply Hno].
  specialize (Hcodec codec eq_refl). eapply wp_mono; [by apply codec_Decrypt_ok|]. intros [s|e'] w' [Hc He].
  - rewrite (He s eq_refl). apply Hyes. unfold idle. by rewrite Hc.
  - apply Hno. unfold idle. by rewrite Hc.
Qed.

Definition totp_state (s : S) : Prop := in_order_state conn s /\ totp_inv (totp_of (committed (conn s))).
Definition totp_view (s : S) : factors := factors_from plain (totp_of (committed (conn s))).

(** Between the tables a call finds and those it leaves: what a result says of the factors. *)
Definition steps {A} (P : A -> factors -> factors -> Prop) (db : database) (res : result A) (db' : database) : Prop :=
  ok db' /\
  match res with
  | Ok a => totp_inv (totp_of db') /\ P a (factors_from plain (totp_of db)) (factors_from plain (totp_of db'))
  | Err _ => db' = db
  end.

Lemma wp_steps {A} (m : M S (result A)) P w : totp_state (ext w) ->
  (forall db, idle conn db w -> ok db -> totp_inv (totp_of db) -> wp m (leaves conn (steps P db)) w) ->
  wp m (fun res w' => totp_state (ext w') /\
    match res with
    | Ok a => P a (totp_view (ext w)) (totp_view (ext w'))
    | Err _ => totp_view (ext w') = totp_view (ext w)
    end) w.
Proof.
  intros [Hin Hinv] Hm. destruct (in_order_idle _ _ Hin) as [Hw Hok]. eapply wp_mono; [by apply Hm|].
  intros res w' (db' & Hw' & Hok' & Hres). destruct (idle_in_order _ _ _ Hw' Hok') as [Hin' Hdb].
  unfold totp_state, totp_view. rewrite Hdb. destruct res as [a|e]; [by destruct Hres|by rewrite Hres].
Qed.

Lemma BeginEnrollment_effect e db w : idle conn db w -> ok db -> totp_inv (totp_of db) ->
  wp (TOTPStore_BeginEnrollment adapter e) (leaves conn (steps (fun _ s s' =>
    s' = begin_enrollment (enr_SubjectID e) (mkEnrolled (enr_Secret e) (microseconds (enr_ExpiresAt e))) s) db)) w.
Proof.
  intros Hw Hok Hinv. unfold TOTPStore_BeginEnrollment. wp_go.
  eapply wp_encrypt; [exact Hw| |intros e' w' Hw'; wp_go; by exists db]. intros secret w1 Hw1 Hplain. wp_go.
  eapply wp_pool_Exec; [done|exact Hw1| |intros e' w' Hw' _; wp_go; by exists db].
  intros r db' w' Hw' Hr. apply runs_put_enrollment in Hr as [Hok' Ht]; [|done]. wp_go. exists db'. split; [done|].
  split; [done|]. simpl. rewrite Ht. destruct (begun_tables plain (mkEnrollmentRecord (enr_SubjectID e) secret
    (microseconds (enr_CreatedAt e)) (microseconds (enr_ExpiresAt e))) _ Hinv) as [Hinv' ->]. split; [done|].
  unfold enrolled_of. simpl. by rewrite Hplain.
Qed.

Lemma CreateChallenge_effect c db w : idle conn db w -> ok db -> totp_inv (totp_of db) ->
  wp (TOTPStore_CreateChallenge adapter c) (leaves conn (steps (fun _ s s' =>
    challenges s !! ch_TokenHash c = None /\ s' = challenge_subject (ch_TokenHash c) (ch_SubjectID c) (microseconds (ch_ExpiresAt c)) s) db)) w.
Proof.
  intros Hw Hok Hinv. unfold TOTPStore_CreateChallenge. wp_go.
  eapply wp_pool_Exec; [done|exact Hw| |].
  - intros r db' w' Hw' Hr. apply runs_add_challenge in Hr as (Hok' & Hno & Ht); [|done]. wp_go. exists db'. split; [done|].
    split; [done|]. simpl. rewrite Ht. destruct (challenged_tables plain (mkChallengeRecord (ch_TokenHash c) (ch_SubjectID c)
      (microseconds (ch_CreatedAt c)) (microseconds (ch_ExpiresAt c)) None) _ Hinv eq_refl) as [Hinv' ->].
    split_and!; [exact Hinv'| |done].
    change (omap challenged_of (challenge_table (totp_of db)) !! ch_TokenHash c = None). rewrite lookup_omap.
    exact (f_equal (fun o => o ≫= challenged_of) Hno).
  - intros e w' Hw' _. wp_go. exists db. split; [done|]. simpl. unfold conflicting. by destruct (uniqueViolation e).
Qed.

Lemma add_codes_app id l k t : add_codes id k (add_codes id l t) = add_codes id (l ++ k) t.
Proof. apply totp_eq; simpl; [done..| |done]. by rewrite fmap_app, app_assoc. Qed.

Lemma Enable_effect id k codes at_ db w : idle conn db w -> ok db -> totp_inv (totp_of db) ->
  wp (TOTPStore_Enable adapter id k codes at_) (leaves conn (steps (fun _ s s' =>
    exists e, enrollments s !! id = Some e /\ (at_ < e_ExpiresAt e)%Z /\ s' = enable id (e_Secret e) (uint64 k) codes s) db)) w.
Proof.
  intros Hw Hok Hinv. unfold TOTPStore_Enable.
  eapply wp_with_tx; [done|exact Hw|done|]. intros tx w1 Htx Hw1. wp_go.
  eapply wp_tx_QueryRow; [done|exact Hw1| |refused db..]. intros r row db2 w2 Hw2 Hr Hrow.
  eapply (runs_SELECT enrollment_record) with (p := fun a => String.eqb (te_SubjectID a) id)
    (g := fun a => [Bytea (te_Secret a); Timestamp (te_ExpiresAt a)]) in Hr
    as [-> Hsel]; [|in_list|done|done|intros; by sql_eval; rewrite eqb_decide|done].
  rewrite Hsel in Hrow. apply list_elem_of_fmap in Hrow as (e & -> & [He Hid]%elem_of_List_filter). apply String.eqb_eq in Hid.
  clear r Hsel. cbn [or_absent]. wp_go; [by left_in db|]. go_bool.
  eapply wp_tx_Exec; [done|exact Hw2| |intros e' w' Hw' _; wp_go; by left_in db]. intros r3 db3 w3 Hw3 Hr3.
  apply runs_put_factor in Hr3 as [Hok3 Ht3]; [|done]. wp_go.
  eapply wp_tx_Exec; [done|exact Hw3| |intros e' w' Hw' _; wp_go; by left_in db]. intros r4 db4 w4 Hw4 Hr4.
  apply runs_drop_codes in Hr4 as [Hok4 Ht4]; [|done]. wp_go.
  apply wp_for_each with (I := fun rest _ w => exists db' added, inside conn db db' w /\ ok db' /\ codes = added ++ rest /\
    totp_of db' = add_codes id added (totp_of db4)).
  - exists db4, []. split_and!; [done|done|done|]. apply totp_eq; simpl; [done..| |done]. by rewrite app_nil_r.
  - intros code rest [] v (db5 & added & Hv & Hok5 & Hcodes & Ht5). wp_go.
    eapply wp_tx_Exec; [done|exact Hv| |intros e' w' Hw' _; wp_go; by left_in db]. intros r6 db6 w6 Hw6 Hr6.
    apply runs_add_code in Hr6 as [Hok6 Ht6]; [|done]. wp_go. exists db6, (added ++ [code]).
    split_and!; [done|done|by rewrite <- app_assoc|]. by rewrite Ht6, Ht5, add_codes_app.
  - intros [] v (db5 & added & Hv & Hok5 & Hcodes & Ht5). rewrite app_nil_r in Hcodes. subst added. wp_go.
    eapply wp_tx_Exec; [done|exact Hv| |intros e' w' Hw' _; wp_go; by left_in db]. intros r6 db6 w6 Hw6 Hr6.
    apply runs_drop_enrollment in Hr6 as [Hok6 Ht6]; [|done]. wp_go. eapply wp_commit; [done|exact Hw6| |done].
    split; [done|]. rewrite Ht6, Ht5, Ht4, Ht3.
    destruct (enabled_tables plain (mkFactorRecord id (te_Secret e) (microseconds at_) (Some (int64 k)) None) (int64 k) codes _ Hinv
      eq_refl eq_refl (int64_int64 k)) as [Hinv' Heq]. rewrite uint64_int64 in Heq. split; [exact Hinv'|]. exists (enrolled_of plain e). split_and!; [|done|exact Heq].
    simpl. by rewrite lookup_fmap, (proj2 (by_key_Some te_SubjectID _ id e (enrollment_keys _ Hok))).
Qed.

Lemma factor_at_key db id f : ok db -> factor_table (totp_of db) !! id = Some f <-> f ∈ rows_of factor_record db /\ tf_SubjectID f = id.
Proof. intros Hok. simpl. apply by_key_Some. by apply factor_keys. Qed.

Lemma IsEnabled_effect id db w : idle conn db w -> ok db ->
  wp (TOTPStore_IsEnabled adapter id) (leaves conn (fun res db' => db' = db /\
    forall b, res = Ok b -> b = bool_decide (is_Some (enabled (factors_from plain (totp_of db)) !! id)))) w.
Proof.
  intros Hw Hok. unfold TOTPStore_IsEnabled. wp_go. eapply wp_pool_QueryRow; [done|exact Hw|..].
  - intros r row db' w' Hw' Hr Hrow. eapply runs_counts in Hr as [-> [now ->]]; [|exact Hrow].
    assert (Hin : entity factor_record ∈ tables) by in_list. cbn [fmap list_fmap].
    rewrite (eval_Exists postgresql tables db now [Text id] factor_record Hin Hok _ eq_refl _ _ _ _
      (fun f => String.eqb (tf_SubjectID f) id && is_null (nullable Timestamp (tf_DisabledAt f))));
      [|intros f; sql_eval; by rewrite eqb_decide].
    wp_go. exists db. do 2 (split; [done|]). intros b [= <-]. apply eq_true_iff_eq.
    rewrite existsb_exists, bool_decide_eq_true. simpl. rewrite lookup_omap. split.
    + intros (f & Hf%list_elem_of_In & Hp). go_bool. rewrite (proj2 (factor_at_key db _ f Hok)) by done.
      simpl. unfold active. destruct (tf_DisabledAt f); [done|]. by eexists.
    + intros [x Hx]. destruct (by_key tf_SubjectID (rows_of factor_record db) !! id) as [f|] eqn:E; [|done].
      apply factor_at_key in E as [Hf Hid]; [|done]. exists f. split; [by apply list_elem_of_In|].
      simpl in Hx. unfold active in Hx. rewrite Hid, String.eqb_refl. by destruct (tf_DisabledAt f).
  - intros r db' w' Hw' ->%runs_SELECT_same _. wp_go. by exists db.
  - intros e w' Hw' _. wp_go. by exists db.
Qed.

Lemma FindEnrollment_effect id db w : idle conn db w -> ok db ->
  wp (TOTPStore_FindEnrollment adapter id) (leaves conn (fun res db' => db' = db /\
    forall e, res = Ok e -> enrollments (factors_from plain (totp_of db)) !! id = Some (mkEnrolled (enr_Secret e) (enr_ExpiresAt e)))) w.
Proof.
  intros Hw Hok. unfold TOTPStore_FindEnrollment. wp_go. eapply wp_pool_QueryRow; [done|exact Hw|..].
  - intros r row db' w' Hw' Hr Hrow.
    eapply (runs_SELECT enrollment_record) with (p := fun a => String.eqb (te_SubjectID a) id)
      (g := fun a => [Text (te_SubjectID a); Bytea (te_Secret a); Timestamp (te_CreatedAt a); Timestamp (te_ExpiresAt a)]) in Hr
      as [-> Hsel]; [|in_list|done|done|intros; by sql_eval; rewrite eqb_decide|done].
    rewrite Hsel in Hrow. apply list_elem_of_fmap in Hrow as (e & -> & [He Hid]%elem_of_List_filter). apply String.eqb_eq in Hid.
    cbn [or_absent]. wp_go. eapply wp_decrypt; [exact Hw'| |intros e' w2 Hw2; wp_go; by exists db].
    intros w2 Hw2. wp_go. exists db. do 2 (split; [done|]). intros x [= <-]. simpl.
    by rewrite lookup_fmap, (proj2 (by_key_Some te_SubjectID _ id e (enrollment_keys _ Hok))).
  - intros r db' w' Hw' ->%runs_SELECT_same _. unfold or_absent. destruct (errors_Is ErrNoRows ErrNoRows); wp_go; by exists db.
  - intros e w' Hw' _. unfold or_absent. destruct (errors_Is e ErrNoRows); wp_go; by exists db.
Qed.

Lemma Disable_effect id at_ db w : idle conn db w -> ok db -> totp_inv (totp_of db) ->
  wp (TOTPStore_Disable adapter id at_) (leaves conn (steps (fun _ s s' => s' = disable id s) db)) w.
Proof.
  intros Hw Hok Hinv. unfold TOTPStore_Disable.
  eapply wp_with_tx; [done|exact Hw|done|]. intros tx w1 Htx Hw1. wp_go.
  eapply wp_tx_Exec; [done|exact Hw1| |refused db]. intros r2 db2 w2 Hw2 Hr2.
  apply runs_disable_factor in Hr2 as [Hok2 Hdis]; [|done]. wp_go; [by left_in db|]. apply Nat.eqb_neq in Heqb.
  destruct (Hdis Heqb) as (f & g & Hg & <- & Hd & Hk & Ht2).
  eapply wp_tx_Exec; [done|exact Hw2| |refused db]. intros r3 db3 w3 Hw3 Hr3.
  apply runs_drop_codes in Hr3 as [Hok3 Ht3]; [|done]. wp_go. eapply wp_commit; [done|exact Hw3| |done].
  split; [done|]. rewrite Ht3, Ht2. by eapply disabled_tables.
Qed.

Lemma FindChallenge_effect h db w : idle conn db w -> ok db -> totp_inv (totp_of db) ->
  wp (TOTPStore_FindChallenge adapter h) (leaves conn (fun res db' => db' = db /\
    forall c cr, res = Ok (c, cr) ->
      challenges (factors_from plain (totp_of db)) !! h = Some (mkChallenged (ch_SubjectID c) (ch_ExpiresAt c)) /\
      enabled (factors_from plain (totp_of db)) !! ch_SubjectID c = Some (factor_of cr))) w.
Proof.
  intros Hw Hok Hinv. unfold TOTPStore_FindChallenge. wp_go. eapply wp_pool_QueryRow; [done|exact Hw|..].
  - intros r row db' w' Hw' Hr Hrow.
    eapply (runs_join postgresql tables challenge_record factor_record) with
      (p := fun c f => String.eqb (tf_SubjectID f) (tl_SubjectID c) && (String.eqb (tl_Hash c) h &&
        (is_null (nullable Timestamp (tl_ConsumedAt c)) && is_null (nullable Timestamp (tf_DisabledAt f)))))
      (g := fun c f => [Bytea (tl_Hash c); Text (tl_SubjectID c); Timestamp (tl_CreatedAt c); Timestamp (tl_ExpiresAt c);
        Bytea (tf_Secret f); Timestamp (tf_EnabledAt f); nullable Bigint (tf_Counter f)]) in Hr
      as [-> Hx]; [|in_list|in_list|done|done|done|intros; by sql_eval; rewrite !eqb_decide|by intros; sql_eval].
    apply Hx in Hrow as (c & f & Hc & Hf & Hp & ->). go_bool. cbn [or_absent].
    assert (Hcon : tl_ConsumedAt c = None) by by destruct (tl_ConsumedAt c).
    assert (Hdis : tf_DisabledAt f = None) by by destruct (tf_DisabledAt f).
    assert (Hch : challenge_table (totp_of db) !! h = Some c) by (simpl; apply by_key_Some; [by apply challenge_keys|done]).
    assert (Hft : factor_table (totp_of db) !! tl_SubjectID c = Some f) by (by apply factor_at_key).
    assert (Hview : challenges (factors_from plain (totp_of db)) !! h = Some (mkChallenged (tl_SubjectID c) (tl_ExpiresAt c)) /\
      enabled (factors_from plain (totp_of db)) !! tl_SubjectID c = Some (factor_at plain f)).
    { unfold factors_from. cbn [challenges enabled]. rewrite !lookup_omap, Hch, Hft. simpl. unfold challenged_of, active.
      by rewrite Hcon, Hdis. }
    destruct (tf_Counter f) as [z|] eqn:Hz; cbn [nullable scan_counter]; wp_go.
    + eapply wp_decrypt; [exact Hw'| |intros e' w2 Hw2; wp_go; by exists db]. intros w2 Hw2. wp_go.
      exists db. do 2 (split; [done|]). intros c' cr [= <- <-]. cbn [ch_SubjectID ch_ExpiresAt]. destruct Hview as [Hv1 Hv2]. split; [done|].
      rewrite Hv2. unfold factor_at, factor_of. simpl. by rewrite Hz.
    + eapply wp_decrypt; [exact Hw'| |intros e' w2 Hw2; wp_go; by exists db]. intros w2 Hw2. wp_go.
      exists db. do 2 (split; [done|]). intros c' cr [= <- <-]. cbn [ch_SubjectID ch_ExpiresAt]. destruct Hview as [Hv1 Hv2]. split; [done|].
      rewrite Hv2. unfold factor_at, factor_of. simpl. by rewrite Hz.
  - intros r db' w' Hw' ->%runs_SELECT_same _. unfold or_absent. destruct (errors_Is ErrNoRows ErrNoRows); wp_go; by exists db.
  - intros e w' Hw' _. unfold or_absent. destruct (errors_Is e ErrNoRows); wp_go; by exists db.
Qed.

(** The first part of both completions. *)
Lemma wp_consumeChallenge tx h at_ db0 db w (Q : result string -> World S -> Prop) :
  TxContract tx conn -> inside conn db0 db w -> ok db ->
  (forall c db' w', inside conn db0 db' w' -> ok db' -> tl_Hash c = h ->
     challenges (factors_from plain (totp_of db)) !! h = Some (mkChallenged (tl_SubjectID c) (tl_ExpiresAt c)) ->
     (microseconds at_ < tl_ExpiresAt c)%Z -> totp_of db' = put_challenge (consumed (microseconds at_) c) (totp_of db) -> Q (Ok (tl_SubjectID c)) w') ->
  (forall e w', broken conn db0 w' -> Q (Err e) w') ->
  wp (consumeTOTPChallenge tx h at_) Q w.
Proof.
  intros Htx Hw Hok Hyes Hno. unfold consumeTOTPChallenge. wp_go. eapply wp_tx_QueryRow; [done|exact Hw|..].
  - intros r row db' w' Hw' Hr Hrow. apply runs_consume_challenge in Hr as [Hok' Hrows]; [|done].
    destruct (Hrows row Hrow) as (c & Hc & Hh & Hcon & Hexp & -> & Ht).
    cbn [or_absent]. wp_go. eapply Hyes; [done|done|done| |done|done].
    unfold factors_from. cbn [challenges]. rewrite lookup_omap, Hc. simpl. unfold challenged_of. by rewrite Hcon.
  - intros r db' w' Hw' _ _. unfold or_absent. destruct (errors_Is ErrNoRows ErrNoRows); wp_go; by apply Hno; eauto.
  - intros e w' Hw' _. unfold or_absent. destruct (errors_Is e ErrNoRows); wp_go; by apply Hno.
Qed.

Lemma CompleteCode_effect h k at_ db w : idle conn db w -> ok db -> totp_inv (totp_of db) ->
  wp (TOTPStore_CompleteCode adapter h k at_) (leaves conn (steps (fun id s s' =>
    exists d f, challenges s !! h = Some d /\ d_Subject d = id /\ (microseconds at_ < d_ExpiresAt d)%Z /\ enabled s !! id = Some f /\
      fresh_by int64 f k /\ s' = complete_code h id (f_Secret f) (uint64 k) s) db)) w.
Proof.
  intros Hw Hok Hinv. unfold TOTPStore_CompleteCode.
  eapply wp_with_tx; [done|exact Hw|done|]. intros tx w1 Htx Hw1. wp_go.
  eapply wp_consumeChallenge; [done|exact Hw1|done| |intros e w' Hw'; wp_go; by left_in db].
  intros c db2 w2 Hw2 Hok2 <- Hch Hexp Ht2. wp_go.
  eapply wp_tx_Exec; [done|exact Hw2| |refused db]. intros r3 db3 w3 Hw3 Hr3.
  apply runs_use_counter in Hr3 as [Hok3 Huse]; [|done]. wp_go; [by left_in db|]. apply Nat.eqb_neq in Heqb.
  destruct (Huse Heqb) as (g & Hg & Hid & Hd & Hfresh & Ht3). rewrite Ht2 in Hg, Ht3. simpl in Hg.
  eapply wp_commit; [done|exact Hw3| |done]. split; [done|]. rewrite Ht3.
  destruct (coded_tables plain c (microseconds at_) (mkFactorRecord (tl_SubjectID c) (tf_Secret g) (tf_EnabledAt g) (Some (int64 k)) None)
    (int64 k) _ g Hinv Hg Hd eq_refl eq_refl eq_refl (int64_int64 k)) as [Hinv' Heq]. rewrite uint64_int64 in Heq.
  split; [exact Hinv'|]. exists (mkChallenged (tl_SubjectID c) (tl_ExpiresAt c)), (factor_at plain g).
  split_and!; [done|done|done| | |exact Heq].
  - unfold factors_from. cbn [enabled]. rewrite lookup_omap. simpl. rewrite Hg. simpl. unfold active. by rewrite Hd.
  - unfold fresh_by, factor_at. simpl. destruct (tf_Counter g) as [last|] eqn:Hlast; simpl in *; [|done].
    by rewrite int64_uint64, (inv_counters _ Hinv _ _ _ Hg Hlast).
Qed.

Lemma CompleteRecovery_effect h code at_ db w : idle conn db w -> ok db -> totp_inv (totp_of db) ->
  wp (TOTPStore_CompleteRecovery adapter h code at_) (leaves conn (steps (fun id s s' =>
    exists d codes, challenges s !! h = Some d /\ d_Subject d = id /\ (microseconds at_ < d_ExpiresAt d)%Z /\ recovery s !! id = Some codes /\
      code ∈ codes /\ s' = complete_recovery h id code codes s) db)) w.
Proof.
  intros Hw Hok Hinv. unfold TOTPStore_CompleteRecovery.
  eapply wp_with_tx; [done|exact Hw|done|]. intros tx w1 Htx Hw1. wp_go.
  eapply wp_consumeChallenge; [done|exact Hw1|done| |intros e w' Hw'; wp_go; by left_in db].
  intros c db2 w2 Hw2 Hok2 <- Hch Hexp Ht2. wp_go.
  eapply wp_tx_Exec; [done|exact Hw2| |refused db]. intros r3 db3 w3 Hw3 Hr3.
  apply runs_use_code in Hr3 as (Hok3 & Ht3 & Huse); [|done]. wp_go; [by left_in db|]. apply Nat.eqb_neq in Heqb.
  specialize (Huse Heqb). rewrite Ht2 in Huse, Ht3. cbn [code_rows put_challenge] in Huse. pose proof Huse as Hcode.
  apply elem_of_unused in Hcode as (x & Hx & Hopen & _). destruct (inv_codes _ Hinv x Hx) as (g & Hg & Hgd).
  assert (Hsub : rc_SubjectID x = tl_SubjectID c) by (unfold open_code in Hopen; by go_bool). rewrite Hsub in Hg.
  eapply wp_commit; [done|exact Hw3| |done]. split; [done|]. rewrite Ht3.
  destruct (recovered_tables plain c (microseconds at_) (tl_SubjectID c) code (microseconds at_) g _ Hinv Hg Hgd) as [Hinv' Heq].
  split; [exact Hinv'|]. exists (mkChallenged (tl_SubjectID c) (tl_ExpiresAt c)), (unused (tl_SubjectID c) (code_rows (totp_of db))).
  split_and!; [done|done|done| |exact Huse|exact Heq].
  rewrite recovery_at, Hg. simpl. unfold active. by rewrite Hgd.
Qed.

Lemma postgres_factor_contract : KeptFactorStoreContract microseconds uint64 int64 (TOTPStore adapter) totp_state totp_view.
Proof.
  assert (Hread : forall A (m : M S (result A)) (P : result A -> factors -> Prop) w, totp_state (ext w) ->
    (forall db, idle conn db w -> ok db -> totp_inv (totp_of db) ->
       wp m (leaves conn (fun res db' => db' = db /\ P res (factors_from plain (totp_of db)))) w) ->
    wp m (fun res w' => totp_state (ext w') /\ totp_view (ext w') = totp_view (ext w) /\ P res (totp_view (ext w))) w).
  { intros A m P w [Hin Hinv] Hm. destruct (in_order_idle _ _ Hin) as [Hw Hok]. eapply wp_mono; [by apply Hm|].
    intros res w' (db' & Hw' & -> & HP). destruct (idle_in_order _ _ _ Hw' Hok) as [Hin' Hdb].
    unfold totp_state, totp_view. by rewrite Hdb. }
  split; unfold TOTPStore; cbn [store_IsEnabled store_BeginEnrollment store_FindEnrollment store_Enable store_Disable
    store_CreateChallenge store_FindChallenge store_CompleteCode store_CompleteRecovery].
  - intros id w Hwf. pose (P := fun (res : result bool) s => forall b, res = Ok b -> b = bool_decide (is_Some (enabled s !! id))).
    apply (Hread _ _ P); [done|].
    intros db Hw Hok _. by apply IsEnabled_effect.
  - intros e w Hwf.
    apply (wp_steps _ (fun _ s s' => s' = begin_enrollment (enr_SubjectID e) (mkEnrolled (enr_Secret e) (microseconds (enr_ExpiresAt e))) s));
      [done|].
    intros. by apply BeginEnrollment_effect.
  - intros id w Hwf. apply (Hread _ _ (fun res s => forall e, res = Ok e ->
      enrollments s !! id = Some (mkEnrolled (enr_Secret e) (enr_ExpiresAt e)))); [done|].
    intros db Hw Hok _. by apply FindEnrollment_effect.
  - intros id k codes at_ w Hwf.
    apply (wp_steps _ (fun _ s s' => exists e, enrollments s !! id = Some e /\ (at_ < e_ExpiresAt e)%Z /\
      s' = enable id (e_Secret e) (uint64 k) codes s)); [done|]. intros. by apply Enable_effect.
  - intros id at_ w Hwf. apply (wp_steps _ (fun _ s s' => s' = disable id s)); [done|]. intros. by apply Disable_effect.
  - intros c w Hwf.
    apply (wp_steps _ (fun _ s s' => challenges s !! ch_TokenHash c = None /\
      s' = challenge_subject (ch_TokenHash c) (ch_SubjectID c) (microseconds (ch_ExpiresAt c)) s)); [done|]. intros. by apply CreateChallenge_effect.
  - intros h w Hwf. apply (Hread _ _ (fun res s => forall c cr, res = Ok (c, cr) ->
      challenges s !! h = Some (mkChallenged (ch_SubjectID c) (ch_ExpiresAt c)) /\ enabled s !! ch_SubjectID c = Some (factor_of cr))); [done|].
    intros. by apply FindChallenge_effect.
  - intros h k at_ w Hwf.
    apply (wp_steps _ (fun id s s' => exists d f, challenges s !! h = Some d /\ d_Subject d = id /\ (microseconds at_ < d_ExpiresAt d)%Z /\
      enabled s !! id = Some f /\ fresh_by int64 f k /\ s' = complete_code h id (f_Secret f) (uint64 k) s)); [done|].
    intros. by apply CompleteCode_effect.
  - intros h code at_ w Hwf.
    apply (wp_steps _ (fun id s s' => exists d codes, challenges s !! h = Some d /\ d_Subject d = id /\ (microseconds at_ < d_ExpiresAt d)%Z /\
      recovery s !! id = Some codes /\ code ∈ codes /\ s' = complete_recovery h id code codes s)); [done|].
    intros. by apply CompleteRecovery_effect.
Qed.
End TotpEffects.
