(* ===== verification/Mysql.v ===== *)
(** * The MySQL adapter (storage/mysql/mysql.go and sessions.go)

    The client library, the adapter and its migrations, the tables the migrations
    make, and the stores of sessions, with the contract they keep. *)
From S2P Require Import Prelude GoText GoJson Migrate Token.
From S2P Require Export Sql SqlServer.
From S2P Require SessionToken SessionSpec RefreshToken AccessToken BearerSession PostgresSessions.

Definition ErrInvalidConfig : error := New "mysql.ErrInvalidConfig".

(** ** The libraries database/sql and github.com/go-sql-driver/mysql

    [ErrNoRows] is the answer of [Scan] when there is no row. An error of the
    server is a [*mysql.MySQLError], which has a number. *)
Definition ErrNoRows : error := New "sql.ErrNoRows".
Definition mysql_error_prefix : string := "driver.MySQLError:".
Definition MySQLError (number : string) : error := New (mysql_error_prefix +:+ number).

(** [errors.As] for [*mysql.MySQLError]: the number of the first one in the tree. *)
Fixpoint errors_As_MySQLError (err : error) : option string :=
  match err with
  | New variable =>
      if String.prefix mysql_error_prefix variable
      then Some (String.substring (String.length mysql_error_prefix) (String.length variable) variable) else None
  | Errorf _ wrapped =>
      (fix first (l : list error) : option string :=
         match l with
         | [] => None
         | e :: l => match errors_As_MySQLError e with Some number => Some number | None => first l end
         end) wrapped
  end.

(** How times and JSON documents are stored: a datetime(6) is rounded to the
    microsecond; a json column keeps the value of a document, not its text. *)
Class MysqlTypes := {
  microseconds : time -> time;
  json_value : string -> string;
  microseconds_law t : (microseconds t - 500 <= t <= microseconds t + 500)%Z /\ (microseconds t mod 1000 = 0)%Z;
}.

(** [sql.Result]: the number of rows affected, if the driver has it. *)
Record Result : Type := mkResult { RowsAffected : result nat }.

Abbreviation Tx := (SqlServer.Tx Result).
Abbreviation DB := (SqlServer.Pool Result).

(** The error of [Scan] when a column does not fit its variable. *)
Definition ErrScan : error := New "sql.ErrScan".

Definition scan_optional_time (v : value) : option (option time) :=
  match v with Null => Some None | Timestamp t => Some (Some t) | _ => None end.

Section Arguments_.
Context `{MysqlTypes}.
Definition time_value (t : time) : value := Timestamp (microseconds t).
Definition optional_time_value : option time -> value := nullable time_value.
Definition json_document (document : string) : value := Jsonb (json_value document).
End Arguments_.

(** ** The adapter *)
Record SecretCodec (S : Type) : Type := mkSecretCodec {
  Encrypt : string -> M S (result string);
  Decrypt : string -> M S (result string);
}.
Arguments Encrypt {S}. Arguments Decrypt {S}.

Record Config (S : Type) : Type := mkConfig { Secrets : option (SecretCodec S) }.
Arguments Secrets {S}.

Record Adapter (S : Type) : Type := mkAdapter { db : DB S; secrets : option (SecretCodec S) }.
Arguments db {S}. Arguments secrets {S}. Arguments mkAdapter {S}.

Definition uniqueViolation (err : error) : bool :=
  match errors_As_MySQLError err with Some number => String.eqb number "1062" | None => false end.

(** [if uniqueViolation(err) { return conflict }; return err] *)
Definition conflicting {A} (conflict : error) (r : result A) : result A :=
  match r with
  | Err err => if uniqueViolation err then Err conflict else Err err
  | Ok a => Ok a
  end.

(** [if errors.Is(err, sql.ErrNoRows) { return absent }; return err] *)
Definition or_absent {A} (absent : error) (r : result A) : result A :=
  match r with
  | Err err => if errors_Is err ErrNoRows then Err absent else Err err
  | Ok a => Ok a
  end.

Definition New_ {S} (database : option (DB S)) (config : Config S) : result (Adapter S) :=
  match database with
  | None => Err (Errorf "%w: database is required" [ErrInvalidConfig])
  | Some database => Ok (mkAdapter database (Secrets config))
  end.

(** [if err != nil { return err }; affected, err := result.RowsAffected();
    if err != nil { return err }; if affected == 0 { return none }] and the rest. *)
Definition some_affected {S A} (r : result Result) (none : error) (rest : M S (result A)) : M S (result A) :=
  match r with
  | Err err => ret (Err err)
  | Ok tag =>
      match RowsAffected tag with
      | Err err => ret (Err err)
      | Ok affected => if (affected =? 0)%nat then ret (Err none) else rest
      end
  end.

(** ** The tables (migrations 001 to 004) *)
Definition required (name : string) (k : kind) : column := mkColumn name k true (Const Null).
Definition optional (name : string) (k : kind) : column := mkColumn name k false (Const Null).
Definition with_default (name : string) (k : kind) (e : expr) : column := mkColumn name k true e.

Definition authlier_schema_migrations : table :=
  mkTable "authlier_schema_migrations"
    [required "version" text; with_default "applied_at" timestamptz CurrentTimestamp]
    [["version"]] [].

Definition authlier_users : table :=
  mkTable "authlier_users"
    [required "id" text; required "email" text; with_default "email_verified" boolean (Const (Boolean false));
     required "webauthn_handle" bytea; required "created_at" timestamptz]
    [["id"]; ["email"]; ["webauthn_handle"]] [].

Definition to_user (c : string) : reference := mkReference c "authlier_users" "id".

Definition authlier_password_credentials : table :=
  mkTable "authlier_password_credentials"
    [required "user_id" text; required "password_hash" text; required "updated_at" timestamptz]
    [["user_id"]] [to_user "user_id"].

Definition authlier_google_identities : table :=
  mkTable "authlier_google_identities"
    [required "provider_subject" text; required "user_id" text; required "email" text; required "linked_at" timestamptz]
    [["provider_subject"]; ["user_id"]] [to_user "user_id"].

Definition authlier_email_verifications : table :=
  mkTable "authlier_email_verifications"
    [required "user_id" text; required "email" text; required "token_hash" bytea;
     required "created_at" timestamptz; required "expires_at" timestamptz]
    [["user_id"]; ["token_hash"]] [to_user "user_id"].

Definition authlier_password_resets : table :=
  mkTable "authlier_password_resets"
    [required "user_id" text; required "email" text; required "token_hash" bytea;
     required "created_at" timestamptz; required "expires_at" timestamptz]
    [["user_id"]; ["token_hash"]] [to_user "user_id"].

Definition authlier_sessions : table :=
  mkTable "authlier_sessions"
    [required "token_hash" bytea; required "subject_id" text; required "created_at" timestamptz;
     required "expires_at" timestamptz; optional "extended_at" timestamptz; optional "revoked_at" timestamptz;
     required "id" text]
    [["token_hash"]; ["id"]] [].

Definition authlier_access_sessions : table :=
  mkTable "authlier_access_sessions"
    [required "id" text; required "subject_id" text; required "created_at" timestamptz;
     required "expires_at" timestamptz; optional "revoked_at" timestamptz]
    [["id"]] [].

Definition authlier_refresh_tokens : table :=
  mkTable "authlier_refresh_tokens"
    [required "token_hash" bytea; required "session_id" text; required "created_at" timestamptz;
     required "expires_at" timestamptz; optional "rotated_at" timestamptz; optional "revoked_at" timestamptz]
    [["token_hash"]] [mkReference "session_id" "authlier_access_sessions" "id"].

Definition authlier_google_challenges : table :=
  mkTable "authlier_google_challenges"
    [required "state_hash" bytea; required "nonce" text; required "code_verifier" text;
     with_default "subject_id" text (Const (Text "")); required "created_at" timestamptz; required "expires_at" timestamptz]
    [["state_hash"]] [].

Definition authlier_oidc_challenges : table :=
  mkTable "authlier_oidc_challenges"
    [required "state_hash" bytea; required "connection_id" text; required "issuer" text; required "client_id" text;
     required "redirect_url" text; required "scopes" jsonb; required "require_verified_email" boolean;
     required "nonce" text; required "code_verifier" text; required "created_at" timestamptz;
     required "expires_at" timestamptz]
    [["state_hash"]] [].

Definition authlier_saml_requests : table :=
  mkTable "authlier_saml_requests"
    [required "state_hash" bytea; required "connection_id" text; required "connection_hash" bytea;
     required "request_id" text; required "created_at" timestamptz; required "expires_at" timestamptz]
    [["state_hash"]] [].

Definition authlier_totp_enrollments : table :=
  mkTable "authlier_totp_enrollments"
    [required "subject_id" text; required "encrypted_secret" bytea; required "created_at" timestamptz;
     required "expires_at" timestamptz]
    [["subject_id"]] [].

Definition authlier_totp_credentials : table :=
  mkTable "authlier_totp_credentials"
    [required "subject_id" text; required "encrypted_secret" bytea; required "enabled_at" timestamptz;
     optional "last_used_counter" bigint_unsigned; optional "disabled_at" timestamptz]
    [["subject_id"]] [].

Definition authlier_totp_recovery_codes : table :=
  mkTable "authlier_totp_recovery_codes"
    [required "subject_id" text; required "code_hash" bytea; optional "used_at" timestamptz]
    [["subject_id"; "code_hash"]] [mkReference "subject_id" "authlier_totp_credentials" "subject_id"].

Definition authlier_totp_challenges : table :=
  mkTable "authlier_totp_challenges"
    [required "token_hash" bytea; required "subject_id" text; required "created_at" timestamptz;
     required "expires_at" timestamptz; optional "consumed_at" timestamptz]
    [["token_hash"]] [].

Definition authlier_passkey_credentials : table :=
  mkTable "authlier_passkey_credentials"
    [required "credential_id" bytea; required "subject_id" text; required "credential" jsonb;
     required "created_at" timestamptz; required "updated_at" timestamptz]
    [["credential_id"]] [to_user "subject_id"].

Definition authlier_passkey_ceremonies : table :=
  mkTable "authlier_passkey_ceremonies"
    [required "token_hash" bytea; required "ceremony_type" text; with_default "subject_id" text (Const (Text ""));
     required "session_data" jsonb; required "created_at" timestamptz; required "expires_at" timestamptz;
     optional "consumed_at" timestamptz]
    [["token_hash"]] [].

Definition tables : schema :=
  [authlier_schema_migrations; authlier_users; authlier_password_credentials; authlier_google_identities;
   authlier_email_verifications; authlier_password_resets; authlier_sessions; authlier_access_sessions;
   authlier_refresh_tokens; authlier_google_challenges; authlier_oidc_challenges; authlier_saml_requests;
   authlier_totp_enrollments; authlier_totp_credentials; authlier_totp_recovery_codes; authlier_totp_challenges;
   authlier_passkey_credentials; authlier_passkey_ceremonies].

(** ** Migrate *)
Definition create_ledger : string :=
  "CREATE TABLE IF NOT EXISTS authlier_schema_migrations (version varchar(255) PRIMARY KEY, applied_at datetime(6) NOT NULL DEFAULT CURRENT_TIMESTAMP(6))".

Definition ledger_has : statement :=
  SELECT [Exists [("", "authlier_schema_migrations")] ("version" = $1)] [] TRUE None [].

Definition ledger_add : statement := INSERT "authlier_schema_migrations" [("version", $1)] None.

Section Migrate.
Context {S : Type}.

Definition applyMigration (tx : Tx S) (file : Migration) : M S (result unit) :=
  _ <-? wrapped "create migration ledger: %w" (tx_Exec_text tx create_ledger) ;;
  row <-? wrapped "check migration %s: %w" (tx_QueryRow tx ledger_has [Text (Version file)]) ;;
  match row with
  | [Boolean true] => ret (Ok tt)
  | [Boolean false] =>
      for_each (SQL file) tt
        (fun statement _ =>
           r <- wrapped "apply migration %s: %w" (tx_Exec_text tx statement) ;;
           match r with
           | Err err => ret (Return (Err err))
           | Ok _ => ret (Next tt)
           end)
        (fun _ =>
           _ <-? wrapped "record migration %s: %w" (tx_Exec tx ledger_add [Text (Version file)]) ;;
           ret (Ok tt))
  | _ => ret (Err (Errorf "check migration %s: %w" [ErrScan]))
  end.

(** [migrations]: the embedded directory. *)
Definition Migrate (adapter : Adapter S) (migrations : FS) : M S (result unit) :=
  match Read migrations with
  | Err err => ret (Err err)
  | Ok files =>
      for_each files tt
        (fun file _ =>
           tx <- wrapped "begin migration %s: %w" (pool_Begin (db adapter)) ;;
           match tx with
           | Err err => ret (Return (Err err))
           | Ok tx =>
               r <- applyMigration tx file ;;
               match r with
               | Err err => tx_Rollback tx ;;; ret (Return (Err err))
               | Ok _ =>
                   r <- wrapped "commit migration %s: %w" (tx_Commit tx) ;;
                   match r with
                   | Err err => ret (Return (Err err))
                   | Ok _ => ret (Next tt)
                   end
               end
           end)
        (fun _ => ret (Ok tt))
  end.
End Migrate.

(** ** What the server promises

    How texts compare is the collation's; an UPDATE counts the rows it changed,
    unless the connection asks for those it matched (clientFoundRows). A driver of
    MySQL always has the number of rows affected. *)
Definition number (v : violation) : string :=
  match v with
  | DatatypeMismatch => "1366"
  | NotNullViolation => "1048"
  | ForeignKeyViolation => "1452"
  | UniqueViolation => "1062"
  end.

Definition server_error (v : violation) : error := MySQLError (number v).
Definition result_of (n : nat) : Result := mkResult (Ok n).

Lemma mysql_error_foreign v : foreign (server_error v).
Proof. intros x Hx. apply String.eqb_neq. intros <-. destruct v; vm_compute in Hx; discriminate Hx. Qed.

(** ** Sessions *)
Section Sessions.
Import SessionToken.
Context {S : Type} `{MysqlTypes} (adapter : Adapter S).

Definition session_columns : list expr :=
  cols ["id"; "token_hash"; "subject_id"; "created_at"; "expires_at"; "extended_at"; "revoked_at"].

Definition insert_session : statement :=
  INSERT "authlier_sessions"
    [("id", $1); ("token_hash", $2); ("subject_id", $3); ("created_at", $4); ("expires_at", $5);
     ("extended_at", $6); ("revoked_at", $7)] None.

Definition session_values (record : SessionRecord) : list value :=
  [Text (ID record); Bytea (TokenHash record); Text (SubjectID record); time_value (CreatedAt record);
   time_value (ExpiresAt record); optional_time_value (ExtendedAt record); optional_time_value (RevokedAt record)].

Definition SessionStore_Create (record : SessionRecord) : M S (result unit) :=
  r <- pool_Exec (db adapter) insert_session (session_values record) ;;
  ret (conflicting ErrConflict (ignored r)).

Definition scan_session (row : list value) : result SessionRecord :=
  match row with
  | [Text id; Bytea hash; Text subjectID; Timestamp createdAt; Timestamp expiresAt; extendedAt; revokedAt] =>
      match scan_optional_time extendedAt, scan_optional_time revokedAt with
      | Some extendedAt, Some revokedAt => Ok (mkRecord id subjectID hash createdAt expiresAt extendedAt revokedAt)
      | _, _ => Err ErrScan
      end
  | _ => Err ErrScan
  end.

Definition scanSession (row : result (list value)) : result SessionRecord :=
  or_absent ErrNotFound (match row with Ok row => scan_session row | Err err => Err err end).

Definition find_session (locks : list string) : statement :=
  SELECT session_columns [("", "authlier_sessions")] ("token_hash" = $1) None locks.

Definition SessionStore_FindByTokenHash (tokenHash : Hash) : M S (result SessionRecord) :=
  row <- pool_QueryRow (db adapter) (find_session []) [Bytea tokenHash] ;;
  ret (scanSession row).

(** The loop over the rows, with what it does to a record. *)
Fixpoint scan_sessions (each : SessionRecord -> SessionRecord) (rows : list (list value)) (records : list SessionRecord) :
    result (list SessionRecord) :=
  match rows with
  | [] => Ok records
  | row :: rows =>
      match scanSession (Ok row) with
      | Ok record => scan_sessions each rows (records ++ [each record])
      | Err err => Err err
      end
  end.

Definition read_sessions (each : SessionRecord -> SessionRecord) (query : result (list (list value) * result unit)) :
    result (list SessionRecord) :=
  match query with
  | Err err => Err err
  | Ok (rows, rows_Err) =>
      match scan_sessions each rows [], rows_Err with
      | Err err, _ | _, Err err => Err err
      | Ok records, Ok _ => Ok records
      end
  end.

Definition SessionStore_ListBySubject (subjectID : string) : M S (result (list SessionRecord)) :=
  rows <- pool_Query (db adapter)
    (SELECT session_columns [("", "authlier_sessions")] ("subject_id" = $1) (Some (col "created_at")) []) [Text subjectID] ;;
  ret (read_sessions (fun record => record) rows).

Definition SessionStore_Extend (tokenHash : Hash) (extendedAt expiresAt : time) : M S (result SessionRecord) :=
  with_tx (db adapter) (fun tx =>
    result <- tx_Exec tx
      (UPDATE "authlier_sessions" [("extended_at", $1); ("expires_at", $2)]
         ("token_hash" = $3 AND "revoked_at" IS_NULL AND "expires_at" > $4 AND "expires_at" < $5) [])
      [time_value extendedAt; time_value expiresAt; Bytea tokenHash; time_value extendedAt; time_value expiresAt] ;;
    some_affected result ErrInactive (
      row <- tx_QueryRow tx (find_session []) [Bytea tokenHash] ;;
      match scanSession row with
      | Err err => ret (Err err)
      | Ok record => commit tx record
      end)).

Definition SessionStore_Rotate (current : Hash) (replacement : SessionRecord) (rotatedAt : time) : M S (result unit) :=
  with_tx (db adapter) (fun tx =>
    row <- tx_QueryRow tx
      (SELECT (cols ["expires_at"; "revoked_at"]) [("", "authlier_sessions")] ("token_hash" = $1) None [""]) [Bytea current] ;;
    match or_absent ErrNotFound row with
    | Err err => ret (Err err)
    | Ok [Timestamp expiresAt; revokedAt] =>
        if negb (is_null revokedAt) || negb (Before rotatedAt expiresAt) then ret (Err ErrInactive) else
        r <- tx_Exec tx insert_session (session_values replacement) ;;
        match conflicting ErrConflict r with
        | Err err => ret (Err err)
        | Ok _ =>
            _ <-? tx_Exec tx (UPDATE "authlier_sessions" [("revoked_at", $1)] ("token_hash" = $2) [])
                    [time_value rotatedAt; Bytea current] ;;
            commit tx tt
        end
    | Ok _ => ret (Err ErrScan)
    end).

Definition SessionStore_Revoke (tokenHash : Hash) (revokedAt : time) : M S (result unit) :=
  tag <- pool_Exec (db adapter)
    (UPDATE "authlier_sessions" [("revoked_at", Coalesce "revoked_at" ($1))] ("token_hash" = $2) [])
    [time_value revokedAt; Bytea tokenHash] ;;
  some_affected tag ErrNotFound (ret (Ok tt)).

(** [if record.RevokedAt == nil { record.RevokedAt = &revokedAt }] *)
Definition mark_revoked (revokedAt : time) (record : SessionRecord) : SessionRecord :=
  match RevokedAt record with
  | Some _ => record
  | None => mkRecord (ID record) (SubjectID record) (TokenHash record) (CreatedAt record) (ExpiresAt record)
              (ExtendedAt record) (Some revokedAt)
  end.

Definition SessionStore_RevokeAll (subjectID : string) (revokedAt : time) : M S (result (list SessionRecord)) :=
  with_tx (db adapter) (fun tx =>
    rows <- tx_Query tx (SELECT session_columns [("", "authlier_sessions")] ("subject_id" = $1) None [""]) [Text subjectID] ;;
    match read_sessions (mark_revoked revokedAt) rows with
    | Err err => ret (Err err)
    | Ok records =>
        _ <-? tx_Exec tx (UPDATE "authlier_sessions" [("revoked_at", Coalesce "revoked_at" ($1))] ("subject_id" = $2) [])
                [time_value revokedAt; Text subjectID] ;;
        commit tx records
    end).

Definition SessionStore : Store S :=
  {| store_Create := SessionStore_Create;
     store_FindByTokenHash := SessionStore_FindByTokenHash;
     store_ListBySubject := SessionStore_ListBySubject;
     store_Extend := SessionStore_Extend;
     store_Rotate := SessionStore_Rotate;
     store_Revoke := SessionStore_Revoke;
     store_RevokeAll := SessionStore_RevokeAll |}.
End Sessions.

(** ** Access sessions and refresh tokens *)
Section Bearer.
Import BearerSession RefreshToken.
Context {S : Type} `{MysqlTypes} (adapter : Adapter S).

Definition access_columns : list expr := cols ["id"; "subject_id"; "created_at"; "expires_at"; "revoked_at"].

Definition insert_access_session : statement :=
  INSERT "authlier_access_sessions"
    [("id", $1); ("subject_id", $2); ("created_at", $3); ("expires_at", $4); ("revoked_at", $5)] None.

Definition access_values (session : AccessSession) : list value :=
  [Text (as_ID session); Text (as_SubjectID session); time_value (as_CreatedAt session);
   time_value (as_ExpiresAt session); optional_time_value (as_RevokedAt session)].

Definition insert_refresh_token : statement :=
  INSERT "authlier_refresh_tokens"
    [("token_hash", $1); ("session_id", $2); ("created_at", $3); ("expires_at", $4); ("rotated_at", $5);
     ("revoked_at", $6)] None.

Definition refresh_values (record : RefreshRecord) : list value :=
  [Bytea (TokenHash record); Text (SessionID record); time_value (CreatedAt record); time_value (ExpiresAt record);
   optional_time_value (RotatedAt record); optional_time_value (RevokedAt record)].

Definition AccessSessionStore_CreateSession (session : AccessSession) (refreshToken : RefreshRecord) : M S (result unit) :=
  with_tx (db adapter) (fun tx =>
    _ <-? tx_Exec tx insert_access_session (access_values session) ;;
    _ <-? tx_Exec tx insert_refresh_token (refresh_values refreshToken) ;;
    commit tx tt).

Definition AccessSessionStore_ResolveSession (sessionID : string) : M S (result AccessToken.Session) :=
  row <-? pool_QueryRow (db adapter)
    (SELECT (cols ["id"; "subject_id"; "created_at"; "expires_at"]) [("", "authlier_access_sessions")]
       ("id" = $1 AND "revoked_at" IS_NULL AND "expires_at" > CurrentTimestamp) None []) [Text sessionID] ;;
  match row with
  | [Text id; Text subjectID; Timestamp createdAt; Timestamp expiresAt] =>
      ret (Ok (AccessToken.mkSession id subjectID createdAt expiresAt))
  | _ => ret (Err ErrScan)
  end.

Definition scan_access (row : list value) : result AccessSession :=
  match row with
  | [Text id; Text subjectID; Timestamp createdAt; Timestamp expiresAt; revokedAt] =>
      match scan_optional_time revokedAt with
      | Some revokedAt => Ok (mkAccess id subjectID createdAt expiresAt revokedAt)
      | None => Err ErrScan
      end
  | _ => Err ErrScan
  end.

(** The loop over the rows. *)
Fixpoint scan_accesses (rows : list (list value)) (records : list AccessSession) : result (list AccessSession) :=
  match rows with
  | [] => Ok records
  | row :: rows =>
      match scan_access row with
      | Ok record => scan_accesses rows (records ++ [record])
      | Err err => Err err
      end
  end.

Definition AccessSessionStore_ListBySubject (subjectID : string) : M S (result (list AccessSession)) :=
  query <-? pool_Query (db adapter)
    (SELECT access_columns [("", "authlier_access_sessions")] ("subject_id" = $1) (Some (col "created_at")) [])
    [Text subjectID] ;;
  let '(rows, rows_Err) := query in
  match scan_accesses rows [], rows_Err with
  | Err err, _ | _, Err err => ret (Err err)
  | Ok records, Ok _ => ret (Ok records)
  end.

Definition revokeAccessSession (tx : Tx S) (sessionID : string) (revokedAt : time) : M S (result unit) :=
  _ <-? tx_Exec tx (UPDATE "authlier_access_sessions" [("revoked_at", Coalesce "revoked_at" ($1))] ("id" = $2) [])
          [time_value revokedAt; Text sessionID] ;;
  _ <-? tx_Exec tx (UPDATE "authlier_refresh_tokens" [("revoked_at", Coalesce "revoked_at" ($1))] ("session_id" = $2) [])
          [time_value revokedAt; Text sessionID] ;;
  ret (Ok tt).

Definition AccessSessionStore_Revoke (sessionID : string) (revokedAt : time) : M S (result unit) :=
  with_tx (db adapter) (fun tx =>
    _ <-? revokeAccessSession tx sessionID revokedAt ;;
    commit tx tt).

Definition AccessSessionStore_RevokeAll (subjectID : string) (revokedAt : time) : M S (result unit) :=
  with_tx (db adapter) (fun tx =>
    _ <-? tx_Exec tx
      (UPDATE "authlier_refresh_tokens" [("revoked_at", Coalesce "revoked_at" ($1))]
         (InSelect "session_id" "id" [("", "authlier_access_sessions")] ("subject_id" = $2)) [])
      [time_value revokedAt; Text subjectID] ;;
    _ <-? tx_Exec tx
      (UPDATE "authlier_access_sessions" [("revoked_at", Coalesce "revoked_at" ($1))] ("subject_id" = $2) [])
      [time_value revokedAt; Text subjectID] ;;
    commit tx tt).

Definition RefreshTokenStore_Create (record : RefreshRecord) : M S (result unit) :=
  r <- pool_Exec (db adapter) insert_refresh_token (refresh_values record) ;;
  ret (conflicting ErrConflict (ignored r)).

Definition scan_refresh (row : list value) : result RefreshRecord :=
  match row with
  | [Bytea hash; Text sessionID; Timestamp createdAt; Timestamp expiresAt; rotatedAt; revokedAt] =>
      match scan_optional_time rotatedAt, scan_optional_time revokedAt with
      | Some rotatedAt, Some revokedAt => Ok (mkRefresh sessionID hash createdAt expiresAt rotatedAt revokedAt)
      | _, _ => Err ErrScan
      end
  | _ => Err ErrScan
  end.

Definition RefreshTokenStore_FindByTokenHash (tokenHash : Hash) : M S (result RefreshRecord) :=
  row <- pool_QueryRow (db adapter)
    (SELECT (cols ["token_hash"; "session_id"; "created_at"; "expires_at"; "rotated_at"; "revoked_at"])
       [("", "authlier_refresh_tokens")] ("token_hash" = $1) None []) [Bytea tokenHash] ;;
  ret (or_absent ErrNotFound (match row with Ok row => scan_refresh row | Err err => Err err end)).

Definition RefreshTokenStore_Rotate (current : Hash) (replacement : RefreshRecord) (rotatedAt : time) : M S (result unit) :=
  with_tx (db adapter) (fun tx =>
    row <- tx_QueryRow tx
      (SELECT (cols ["session_id"; "expires_at"; "rotated_at"; "revoked_at"]) [("", "authlier_refresh_tokens")]
         ("token_hash" = $1) None [""]) [Bytea current] ;;
    match or_absent ErrNotFound row with
    | Err err => ret (Err err)
    | Ok [Text sessionID; Timestamp expiresAt; previousRotation; revokedAt] =>
        if negb (is_null previousRotation) || negb (is_null revokedAt) || negb (Before rotatedAt expiresAt) then
          _ <-? revokeAccessSession tx sessionID rotatedAt ;;
          _ <-? tx_Commit tx ;;
          ret (Err ErrReuseDetected)
        else
        r <- tx_Exec tx
          (INSERT "authlier_refresh_tokens"
             [("token_hash", $1); ("session_id", $2); ("created_at", $3); ("expires_at", $4)] None)
          [Bytea (TokenHash replacement); Text (SessionID replacement); time_value (CreatedAt replacement);
           time_value (ExpiresAt replacement)] ;;
        match conflicting ErrConflict r with
        | Err err => ret (Err err)
        | Ok _ =>
            _ <-? tx_Exec tx (UPDATE "authlier_refresh_tokens" [("rotated_at", $1)] ("token_hash" = $2) [])
                    [time_value rotatedAt; Bytea current] ;;
            commit tx tt
        end
    | Ok _ => ret (Err ErrScan)
    end).

Definition RefreshTokenStore_RevokeSession (sessionID : string) (revokedAt : time) : M S (result unit) :=
  with_tx (db adapter) (fun tx =>
    _ <-? revokeAccessSession tx sessionID revokedAt ;;
    commit tx tt).

Definition RefreshTokenStore : RefreshToken.Store S :=
  {| store_Create := RefreshTokenStore_Create;
     store_FindByTokenHash := RefreshTokenStore_FindByTokenHash;
     store_Rotate := RefreshTokenStore_Rotate;
     store_RevokeSession := RefreshTokenStore_RevokeSession |}.

Definition AccessSessionStore_ : AccessSessionStore S :=
  {| access_ResolveSession := AccessSessionStore_ResolveSession;
     access_CreateSession := AccessSessionStore_CreateSession;
     access_ListBySubject := AccessSessionStore_ListBySubject;
     access_Revoke := AccessSessionStore_Revoke;
     access_RevokeAll := AccessSessionStore_RevokeAll |}.
End Bearer.

(** ** What the calls do to the sessions

    The columns are those of PostgreSQL, and so are the records of their rows. The
    texts compare byte by byte, as with a binary collation; the rows may be
    counted either way. *)
Section SessionEffects.
Import SessionToken SessionSpec.
#[local] Existing Instance PostgresSessions.session_entity.
#[local] Abbreviation session_row := PostgresSessions.session_row.
#[local] Abbreviation session_cells := PostgresSessions.session_cells.
#[local] Abbreviation sessions_of := PostgresSessions.sessions_of.
Context {S : Type} `{MysqlTypes} (d : dialect) (Hd : exact d) (adapter : Adapter S) (conn : S -> connection)
  `{!SqlServer.PoolContract d tables ErrNoRows uniqueViolation server_error result_of (db adapter) conn}.
#[local] Abbreviation ok db := (db_ok d tables db).
#[local] Abbreviation runs := (SqlServer.runs d tables).

Lemma sessions_in_tables : entity SessionRecord ∈ tables.
Proof. change (entity SessionRecord) with authlier_sessions. unfold tables. in_list. Qed.

(** What the columns keep of a record. *)
Definition stored_session (r : SessionRecord) : SessionRecord :=
  mkRecord (ID r) (SubjectID r) (TokenHash r) (microseconds (CreatedAt r)) (microseconds (ExpiresAt r))
    (microseconds <$> ExtendedAt r) (microseconds <$> RevokedAt r).

Definition has_hash (h : Hash) (a : SessionRecord) : bool := bool_decide (TokenHash a = h).
Definition of_subject (subject : string) (a : SessionRecord) : bool := bool_decide (SubjectID a = subject).
Definition revoke_stored (at_ : time) : SessionRecord -> SessionRecord := revoke_record (microseconds at_).

Lemma mysql_has_hash_key h a : has_hash h a = true -> TokenHash a = h.
Proof. unfold has_hash. intros Hp. by go_bool. Qed.

Lemma mysql_scan_session_ok a : scan_session (session_cells a) = Ok a.
Proof. by destruct a as [? ? ? ? ? [] []]. Qed.

Lemma mysql_session_keys db0 : ok db0 -> NoDup (TokenHash <$> rows_of SessionRecord db0).
Proof. intros Hok. by apply (SqlServer.bytea_key d tables SessionRecord TokenHash "token_hash" db0); [|apply sessions_in_tables|in_list|]. Qed.

Lemma mysql_scan_sessions_ok each l acc : scan_sessions each (session_cells <$> l) acc = Ok (acc ++ (each <$> l)).
Proof.
  revert acc. induction l as [|a l IH]; intros acc; [by rewrite app_nil_r|]. cbn [fmap list_fmap scan_sessions].
  unfold scanSession. rewrite mysql_scan_session_ok. cbn [or_absent]. rewrite IH. by rewrite <- app_assoc.
Qed.

Lemma mysql_read_sessions_ok each l rows : rows ≡ₚ session_cells <$> l ->
  exists l', read_sessions each (Ok (rows, Ok tt)) = Ok (each <$> l') /\ l' ≡ₚ l.
Proof.
  intros Hperm. apply Permutation_map_inv in Hperm as (l' & -> & Hl'). exists l'. split; [|by symmetry].
  unfold read_sessions. change (map session_cells l') with (session_cells <$> l'). by rewrite mysql_scan_sessions_ok.
Qed.

Lemma mysql_read_sessions_late each rows e : exists e', read_sessions each (Ok (rows, Err e)) = Err e'.
Proof. unfold read_sessions. destruct (scan_sessions each rows []); eauto. Qed.

Lemma mysql_runs_insert_session record db0 r db' : runs insert_session (session_values record) db0 r db' -> ok db0 ->
  ok db' /\ sessions_of db0 !! TokenHash record = None /\
  sessions_of db' = <[TokenHash record := stored_session record]> (sessions_of db0).
Proof.
  intros Hr Hok. eapply (SqlServer.runs_INSERT d tables SessionRecord sessions_in_tables) with (a := fun _ => stored_session record) in Hr
    as (_ & Hrows & Hok' & _); [|done|done|done|].
  - split; [done|]. unfold PostgresSessions.sessions_of. rewrite Hrows. pose proof (mysql_session_keys _ Hok') as Hnd. rewrite Hrows in Hnd.
    by apply by_key_app in Hnd.
  - intros now. sql_eval. unfold optional_time_value. by destruct record as [? ? ? ? ? [] []].
Qed.

Lemma runs_select_sessions targets condition order_by locks (p : SessionRecord -> bool) (g : SessionRecord -> list value) args db0 r db' :
  runs (SELECT targets [("", "authlier_sessions")] condition order_by locks) args db0 r db' -> ok db0 ->
  (forall now a, matches d db0 now args condition (session_row a) = p a) ->
  (forall now a, project d db0 now args targets [("", session_row a)] = g a) ->
  db' = db0 /\ r.1.*2 = g <$> List.filter p (rows_of SessionRecord db0).
Proof.
  intros Hr Hok Hp Hg. eapply (SqlServer.runs_SELECT d tables SessionRecord sessions_in_tables) in Hr; [exact Hr|done|done|done|done].
Qed.

(** An update of sessions, with what the number of affected rows tells. *)
Lemma mysql_runs_update_sessions assignments condition args db0 r db' (p : SessionRecord -> bool) (f : SessionRecord -> SessionRecord) :
  runs (UPDATE "authlier_sessions" assignments condition []) args db0 r db' -> ok db0 ->
  (forall now a, matches d db0 now args condition (session_row a) = p a) ->
  (forall now a, p a = true -> updated d db0 now args assignments (session_row a) = session_row (f a)) ->
  ok db' /\ rows_of SessionRecord db' = (fun a => if p a then f a else a) <$> rows_of SessionRecord db0 /\
  (r.2 = 0 -> rows_of SessionRecord db' = rows_of SessionRecord db0) /\
  (r.2 <> 0 -> List.filter p (rows_of SessionRecord db0) <> []).
Proof.
  intros Hr Hok Hp Hf.
  eapply (SqlServer.runs_affected d tables SessionRecord sessions_in_tables) in Hr as Haff; [|done|done|exact Hp|exact Hf].
  eapply (SqlServer.runs_update_rows d tables SessionRecord sessions_in_tables) with (g := fun _ => []) in Hr;
    [|done|done|exact Hp|exact Hf|done]. tauto.
Qed.

Lemma mysql_is_null_RevokedAt (a : SessionRecord) : is_null (nullable Timestamp (RevokedAt a)) = bool_decide (RevokedAt a = None).
Proof. by destruct (RevokedAt a). Qed.

(** UPDATE ... SET revoked_at = COALESCE(revoked_at, ?) *)
Lemma mysql_revoke_cell at_ a :
  (if is_null (nullable Timestamp (RevokedAt a)) then time_value at_ else nullable Timestamp (RevokedAt a)) =
  nullable Timestamp (RevokedAt (revoke_stored at_ a)).
Proof. unfold revoke_stored, revoke_record. by destruct (RevokedAt a). Qed.

Lemma mysql_match_hash now h args db0 n a : args !! Nat.pred n = Some (Bytea h) ->
  matches d db0 now args (Equal "token_hash" ($n)) (session_row a) = has_hash h a.
Proof. intros Hn. sql_eval. rewrite Hn. simpl. by rewrite Bytea_eq. Qed.

Lemma mysql_match_subject now s args db0 n a : args !! Nat.pred n = Some (Text s) ->
  matches d db0 now args (Equal "subject_id" ($n)) (session_row a) = of_subject s a.
Proof. intros Hn. sql_eval. rewrite Hn. simpl. by rewrite !Hd, Text_eq. Qed.

(** One row has the hash. *)
Lemma session_at h db0 a : ok db0 -> a ∈ rows_of SessionRecord db0 -> TokenHash a = h -> sessions_of db0 !! h = Some a.
Proof. intros Hok Ha Hh. apply by_key_Some; [by apply mysql_session_keys|done]. Qed.

Lemma mysql_Create_effect record db0 w : idle conn db0 w -> ok db0 ->
  wp (SessionStore_Create adapter record) (leaves conn (fun res db' => ok db' /\
    match res with
    | Ok _ => sessions_of db0 !! TokenHash record = None /\
              sessions_of db' = <[TokenHash record := stored_session record]> (sessions_of db0)
    | Err _ => sessions_of db' = sessions_of db0
    end)) w.
Proof.
  intros Hw Hok. unfold SessionStore_Create. wp_go. eapply wp_pool_Exec; [done|exact Hw| |].
  - intros r db' w' Hw' Hr. wp_go. exists db'. split; [done|]. by apply mysql_runs_insert_session in Hr.
  - intros e w' Hw' _. wp_go. exists db0. split; [done|]. simpl. by destruct (uniqueViolation e).
Qed.

Lemma runs_find_session locks h db0 r db' : runs (find_session locks) [Bytea h] db0 r db' -> ok db0 ->
  db' = db0 /\ r.1.*2 = session_cells <$> List.filter (has_hash h) (rows_of SessionRecord db0).
Proof.
  intros Hr Hok. eapply runs_select_sessions in Hr; [exact Hr|done|intros; by apply mysql_match_hash|by intros; sql_eval].
Qed.

Lemma mysql_Find_effect h db0 w : idle conn db0 w -> ok db0 ->
  wp (SessionStore_FindByTokenHash adapter h)
    (leaves conn (fun res db' => db' = db0 /\ forall a, res = Ok a -> sessions_of db0 !! h = Some a)) w.
Proof.
  intros Hw Hok. unfold SessionStore_FindByTokenHash. wp_go. eapply wp_pool_QueryRow; [done|exact Hw|..].
  - intros r row db' w' Hw' Hr Hin. apply runs_find_session in Hr as [-> Hr]; [|done]. wp_go. exists db0. do 2 (split; [done|]).
    rewrite Hr in Hin. apply list_elem_of_fmap in Hin as (a & -> & [Ha Hh]%elem_of_List_filter). apply mysql_has_hash_key in Hh.
    unfold scanSession. rewrite mysql_scan_session_ok. simpl. intros ? [= <-]. by apply session_at.
  - intros r db' w' Hw' Hr _. apply runs_find_session in Hr as [-> _]; [|done]. wp_go. by exists db0.
  - intros e w' Hw' _. wp_go. exists db0. do 2 (split; [done|]). intros a. unfold scanSession. simpl. by destruct (errors_Is e ErrNoRows).
Qed.

Lemma mysql_List_effect subject db0 w : idle conn db0 w -> ok db0 ->
  wp (SessionStore_ListBySubject adapter subject)
    (leaves conn (fun res db' => db' = db0 /\ forall l, res = Ok l ->
       l ≡ₚ List.filter (of_subject subject) (rows_of SessionRecord db0))) w.
Proof.
  intros Hw Hok. unfold SessionStore_ListBySubject. wp_go. eapply wp_pool_Query; [done|exact Hw|..].
  - intros r rows db' w' Hw' Hr Hperm Hord. wp_go. exists db'. split; [done|].
    eapply runs_select_sessions with (p := of_subject subject) (g := session_cells) in Hr as [-> Hr];
      [|done|intros; by apply mysql_match_subject|by intros; sql_eval].
    split; [done|]. destruct (mysql_read_sessions_ok (fun record => record) (List.filter (of_subject subject) (rows_of SessionRecord db0)) rows.*2)
      as (l' & -> & Hl'); [by rewrite <- Hr, Hperm|]. intros l [= <-]. by rewrite list_fmap_id.
  - intros rows e w' Hw'. wp_go. exists db0. do 2 (split; [done|]). by destruct (mysql_read_sessions_late (fun record => record) rows e) as [e' ->].
  - intros e w' Hw' _. wp_go. by exists db0.
Qed.

Lemma mysql_Revoke_effect h at_ db0 w : idle conn db0 w -> ok db0 ->
  wp (SessionStore_Revoke adapter h at_) (leaves conn (fun res db' => ok db' /\
    match res with
    | Ok _ => exists a, sessions_of db0 !! h = Some a /\ sessions_of db' = <[h := revoke_stored at_ a]> (sessions_of db0)
    | Err _ => sessions_of db' = sessions_of db0
    end)) w.
Proof.
  intros Hw Hok. unfold SessionStore_Revoke. wp_go. eapply wp_pool_Exec; [done|exact Hw|..].
  - intros r db' w' Hw' Hr.
    eapply mysql_runs_update_sessions with (p := has_hash h) (f := revoke_stored at_) in Hr as (Hok' & Hrows & Hnone & Hsome);
      [|done|intros; by apply mysql_match_hash|intros now a _; sql_eval; by rewrite mysql_revoke_cell].
    unfold result_of, some_affected. cbn [RowsAffected]. wp_go; exists db'; (split; [done|]); (split; [done|]).
    + apply Nat.eqb_eq in Heqb. unfold PostgresSessions.sessions_of. by rewrite Hnone.
    + apply Nat.eqb_neq in Heqb. specialize (Hsome Heqb). destruct (List.filter (has_hash h) (rows_of SessionRecord db0)) as [|a l] eqn:E; [done|].
      assert (Ha : a ∈ a :: l) by set_solver. rewrite <- E in Ha. apply elem_of_List_filter in Ha as [Ha Hh].
      pose proof (session_at h db0 a Hok Ha (mysql_has_hash_key h a Hh)) as Hat. exists a. split; [done|].
      unfold PostgresSessions.sessions_of. rewrite Hrows. apply by_key_update with (a := a); try done; [by apply mysql_session_keys|apply mysql_has_hash_key].
  - intros e w' Hw' _. cbn [some_affected]. wp_go. by exists db0.
Qed.

Lemma mysql_Extend_effect h at_ expires db0 w : idle conn db0 w -> ok db0 ->
  wp (SessionStore_Extend adapter h at_ expires) (leaves conn (fun res db' => ok db' /\
    match res with
    | Ok a' => exists a, sessions_of db0 !! h = Some a /\ RevokedAt a = None /\
        (microseconds at_ < ExpiresAt a < microseconds expires)%Z /\
        a' = extend_record (microseconds at_) (microseconds expires) a /\
        sessions_of db' = <[h := a']> (sessions_of db0)
    | Err _ => sessions_of db' = sessions_of db0
    end)) w.
Proof.
  intros Hw Hok. unfold SessionStore_Extend. set (extend := extend_record (microseconds at_) (microseconds expires)).
  set (p := fun a : SessionRecord => has_hash h a && (bool_decide (RevokedAt a = None) &&
    ((microseconds at_ <? ExpiresAt a)%Z && (ExpiresAt a <? microseconds expires)%Z))).
  assert (Hp : forall a, p a = true -> TokenHash a = h) by (intros a Ha; unfold p, has_hash in Ha; by go_bool).
  eapply wp_with_tx; [done|exact Hw|done|]. intros tx w1 Htx Hw1. wp_go.
  eapply wp_tx_Exec; [done|exact Hw1| |intros e w' Hw' _; cbn [some_affected]; wp_go; by left_in db0].
  intros r db2 w2 Hw2 Hr.
  eapply mysql_runs_update_sessions with (p := p) (f := extend) in Hr as (Hok2 & Hrows & Hnone & Hsome); [|done| |by intros now a _; sql_eval].
  2: { intros now a. unfold p, has_hash. sql_eval. by rewrite mysql_is_null_RevokedAt. }
  unfold result_of, some_affected. cbn [RowsAffected]. wp_go; [by left_in db0|].
  apply Nat.eqb_neq in Heqb. specialize (Hsome Heqb). destruct (List.filter p (rows_of SessionRecord db0)) as [|a l] eqn:E; [done|].
  assert (Ha : a ∈ a :: l) by set_solver. rewrite <- E in Ha. apply elem_of_List_filter in Ha as [Ha Hpa].
  pose proof (session_at h db0 a Hok Ha (Hp a Hpa)) as Hat.
  assert (Hs2 : sessions_of db2 = <[h := extend a]> (sessions_of db0)).
  { unfold PostgresSessions.sessions_of. rewrite Hrows. apply by_key_update with (a := a); try done. by apply mysql_session_keys. }
  eapply wp_tx_QueryRow; [done|exact Hw2| | |].
  - intros r2 row db3 w3 Hw3 Hr2 Hin. apply runs_find_session in Hr2 as [-> Hr2]; [|done]. rewrite Hr2 in Hin.
    apply list_elem_of_fmap in Hin as (b & -> & [Hb Hh]%elem_of_List_filter).
    pose proof (session_at h db2 b Hok2 Hb (mysql_has_hash_key h b Hh)) as Hbt. rewrite Hs2, lookup_insert_eq in Hbt. injection Hbt as <-.
    unfold scanSession. rewrite mysql_scan_session_ok. cbn [or_absent]. wp_go. eapply wp_commit; [done|exact Hw3| |done].
    split; [done|]. exists a. unfold p in Hpa. go_bool. split_and!; done || lia.
  - intros r2 db3 w3 Hw3 Hr2 _. apply runs_find_session in Hr2 as [-> _]; [|done]. simpl. wp_go. by left_in db0.
  - intros e w3 Hw3 _. unfold scanSession. simpl. destruct (errors_Is e ErrNoRows); wp_go; by left_in db0.
Qed.

Lemma mysql_Rotate_effect h replacement at_ db0 w : idle conn db0 w -> ok db0 ->
  wp (SessionStore_Rotate adapter h replacement at_) (leaves conn (fun res db' => ok db' /\
    match res with
    | Ok _ => exists a, sessions_of db0 !! h = Some a /\ sessions_of db0 !! TokenHash replacement = None /\
        RevokedAt a = None /\ (at_ < ExpiresAt a)%Z /\
        sessions_of db' = <[TokenHash replacement := stored_session replacement]>
          (<[h := revoke_stored at_ a]> (sessions_of db0))
    | Err _ => sessions_of db' = sessions_of db0
    end)) w.
Proof.
  intros Hw Hok. unfold SessionStore_Rotate.
  assert (Hsel : forall r db', runs (SELECT (cols ["expires_at"; "revoked_at"]) [("", "authlier_sessions")] ("token_hash" = $1)%sql None [""])
      [Bytea h] db0 r db' -> db' = db0 /\ r.1.*2 =
    (fun a => [Timestamp (ExpiresAt a); nullable Timestamp (RevokedAt a)]) <$> List.filter (has_hash h) (rows_of SessionRecord db0)).
  { intros r db' Hr. eapply runs_select_sessions in Hr; [exact Hr|done|intros; by apply mysql_match_hash|by intros; sql_eval]. }
  eapply wp_with_tx; [done|exact Hw|done|]. intros tx w1 Htx Hw1. wp_go. eapply wp_tx_QueryRow; [done|exact Hw1|..].
  - intros r row db1 w2 Hw2 [-> Hr]%Hsel Hin. rewrite Hr in Hin.
    apply list_elem_of_fmap in Hin as (a & -> & [Ha Hh]%elem_of_List_filter). apply mysql_has_hash_key in Hh.
    pose proof (session_at h db0 a Hok Ha Hh) as Hat. cbn [or_absent]. rewrite mysql_is_null_RevokedAt. wp_go; [by left_in db0|].
    apply orb_false_iff in Heqb as [Hrev Hbefore]. go_bool.
    eapply wp_tx_Exec; [done|exact Hw2| |intros e w3 Hw3 _; unfold conflicting; destruct (uniqueViolation e); wp_go; by exists db0].
    intros r2 db2 w3 Hw3 Hr2. apply mysql_runs_insert_session in Hr2 as (Hok2 & Hnone & Hins); [|done]. cbn. wp_go.
    eapply wp_tx_Exec; [done|exact Hw3| |intros e w4 Hw4 _; wp_go; by exists db0].
    intros r3 db3 w4 Hw4 Hr3. wp_go. eapply wp_commit; [done|exact Hw4| |done].
    set (revoke := fun b : SessionRecord =>
      mkRecord (ID b) (SubjectID b) (TokenHash b) (CreatedAt b) (ExpiresAt b) (ExtendedAt b) (Some (microseconds at_))).
    eapply mysql_runs_update_sessions with (p := has_hash h) (f := revoke) in Hr3 as (Hok3 & Hrows & _);
      [|done|intros; by apply mysql_match_hash|by intros now b _; sql_eval].
    split; [done|]. exists a. split_and!; try done. assert (Hne : TokenHash replacement <> h) by congruence.
    rewrite insert_insert_ne, <- Hins by done.
    assert (Hra : revoke_stored at_ a = revoke a) by (unfold revoke_stored, revoke_record; by rewrite Hrev).
    rewrite Hra. unfold PostgresSessions.sessions_of. rewrite Hrows.
    eapply by_key_update with (a := a); [by apply mysql_session_keys|done|apply mysql_has_hash_key| |by apply bool_decide_eq_true].
    change (by_key TokenHash (rows_of SessionRecord db2)) with (sessions_of db2). by rewrite Hins, lookup_insert_ne.
  - intros r db1 w2 Hw2 [-> _]%Hsel _. cbn. wp_go. by left_in db0.
  - intros e w2 Hw2 _. cbn. destruct (errors_Is e ErrNoRows); wp_go; by exists db0.
Qed.

Lemma mysql_RevokeAll_effect subject at_ db0 w : idle conn db0 w -> ok db0 ->
  wp (SessionStore_RevokeAll adapter subject at_) (leaves conn (fun res db' => ok db' /\
    match res with
    | Ok l => sessions_of db' = revoke_subject subject (microseconds at_) <$> sessions_of db0 /\
        l ≡ₚ revoke_record at_ <$> List.filter (of_subject subject) (rows_of SessionRecord db0)
    | Err _ => sessions_of db' = sessions_of db0
    end)) w.
Proof.
  intros Hw Hok. unfold SessionStore_RevokeAll. eapply wp_with_tx; [done|exact Hw|done|]. intros tx w1 Htx Hw1. wp_go.
  eapply wp_tx_Query; [done|exact Hw1|..].
  - intros r rows db1 w2 Hw2 Hr Hperm _.
    eapply runs_select_sessions with (p := of_subject subject) (g := session_cells) in Hr as [-> Hr];
      [|done|intros; by apply mysql_match_subject|by intros; sql_eval].
    destruct (mysql_read_sessions_ok (mark_revoked at_) (List.filter (of_subject subject) (rows_of SessionRecord db0)) rows.*2)
      as (l' & -> & Hl'); [by rewrite <- Hr, Hperm|]. wp_go.
    eapply wp_tx_Exec; [done|exact Hw2| |intros e w3 Hw3 _; wp_go; by exists db0].
    intros r2 db2 w3 Hw3 Hr2. wp_go. eapply wp_commit; [done|exact Hw3| |done].
    eapply mysql_runs_update_sessions with (p := of_subject subject) (f := revoke_stored at_) in Hr2 as (Hok2 & Hrows & _);
      [|done|intros; by apply mysql_match_subject|intros now a _; sql_eval; by rewrite mysql_revoke_cell].
    split_and!; [done| |].
    + unfold PostgresSessions.sessions_of. rewrite Hrows, by_key_fmap by (intros a; by destruct (of_subject subject a)).
      apply map_fmap_ext. intros k a _. unfold revoke_subject, of_subject, revoke_stored.
      destruct (String.eqb_spec (SubjectID a) subject) as [E|E];
        [by rewrite bool_decide_eq_true_2|by rewrite bool_decide_eq_false_2].
    + rewrite <- Hl'. erewrite list_fmap_ext; [done|]. intros _ a _. simpl. unfold mark_revoked, revoke_record.
      by destruct a as [? ? ? ? ? ? []].
  - intros rows e w2 Hw2. destruct (mysql_read_sessions_late (mark_revoked at_) rows e) as [e' ->]. wp_go. by exists db0.
  - intros e w2 Hw2 _. cbn [read_sessions]. wp_go. by exists db0.
Qed.

(** ** The contract *)
Definition in_order_state (s : S) : Prop := transaction (conn s) = None /\ ok (committed (conn s)).
Definition session_view (s : S) : sessions_state := mkState (sessions_of (committed (conn s))) ∅.

Lemma mysql_in_order_idle w : in_order_state (ext w) -> idle conn (committed (conn (ext w))) w /\ ok (committed (conn (ext w))).
Proof. intros [Ht Hok]. unfold idle. destruct (conn (ext w)); simpl in *. by subst. Qed.
Lemma mysql_idle_in_order db0 w : idle conn db0 w -> ok db0 -> in_order_state (ext w) /\ committed (conn (ext w)) = db0.
Proof. unfold idle, in_order_state. by intros ->. Qed.

Ltac contract_step Heff :=
  let Hw := fresh "Hw" in let Hok := fresh "Hok" in
  match goal with H : in_order_state _ |- _ => destruct (mysql_in_order_idle _ H) as [Hw Hok] end;
  eapply wp_mono; [by apply Heff|]; intros res w' (db' & Hw' & Hpost).

Ltac contract_done Hw' Hok' :=
  let H1 := fresh "Hwf'" in let H2 := fresh "Hdb'" in
  destruct (mysql_idle_in_order _ _ Hw' Hok') as [H1 H2]; split; [done|]; unfold session_view; rewrite H2; simpl.

Lemma mysql_sessions_keep_contract :
  KeptStoreContract stored_session microseconds (fun t => t) (SessionStore adapter) in_order_state session_view.
Proof.
  split; simpl.
  - intros w h r [_ Hok] Hr. simpl in Hr. by apply by_key_Some in Hr as [_ ?]; [|apply mysql_session_keys].
  - intros r w Hwf. contract_step mysql_Create_effect. destruct Hpost as [Hok' Hpost]. contract_done Hw' Hok'.
    destruct res as [[]|e]; [|by rewrite Hpost]. by destruct Hpost.
  - intros h w Hwf. contract_step mysql_Find_effect. destruct Hpost as [-> Hpost]. by contract_done Hw' Hok.
  - intros subject w Hwf. contract_step mysql_List_effect. destruct Hpost as [-> Hpost]. contract_done Hw' Hok.
    split; [done|]. intros l Hl a. rewrite (Hpost l Hl), elem_of_List_filter. unfold of_subject. rewrite bool_decide_eq_true.
    unfold PostgresSessions.sessions_of. rewrite by_key_Some by by apply mysql_session_keys. tauto.
  - intros h now expires w Hwf. contract_step mysql_Extend_effect. destruct Hpost as [Hok' Hpost]. contract_done Hw' Hok'.
    destruct res as [a'|e]; [|by rewrite Hpost].
    destruct Hpost as (a & ? & ? & ? & ? & ?). by exists a.
  - intros h r now w Hwf. contract_step mysql_Rotate_effect. destruct Hpost as [Hok' Hpost]. contract_done Hw' Hok'.
    destruct res as [[]|e]; [|by rewrite Hpost]. destruct Hpost as (a & ? & ? & ? & ? & ?). by exists a.
  - intros h now w Hwf. contract_step mysql_Revoke_effect. destruct Hpost as [Hok' Hpost]. contract_done Hw' Hok'.
    destruct res as [[]|e]; [|by rewrite Hpost]. unfold revoke_stored in Hpost.
    destruct Hpost as (a & ? & ?). by exists a.
  - intros subject now w Hwf. contract_step mysql_RevokeAll_effect. destruct Hpost as [Hok' Hpost]. contract_done Hw' Hok'.
    destruct res as [l|e]; [|by rewrite Hpost].
    destruct Hpost as [Hrows Hl]. split_and!; [done|done|]. intros r. rewrite Hl.
    apply revoked_records; [intros a|intros k a Ha]; unfold PostgresSessions.sessions_of in *.
    + rewrite by_key_Some by by apply mysql_session_keys. tauto.
    + by apply by_key_Some in Ha as [_ ?]; [|apply mysql_session_keys].
Qed.
End SessionEffects.
