(* ===== verification/MysqlStores.v ===== *)
(** * The stores of the MySQL adapter (storage/mysql/accounts.go, totp.go, passkeys.go and sso.go)

    Accounts, second factors, passkeys and single sign-on; the stores of sessions
    are in Mysql. *)
From S2P Require Import Prelude GoJson Token Mysql.
From S2P Require EmailPassword EmailVerification PasswordReset GoogleOAuth.
From S2P Require Totp Passkey Oidc Saml Config.

(** ** Users *)
Section Shared.
Context {S : Type}.

Definition lockUser (tx : Tx S) (subjectID : string) : M S (result unit) :=
  row <- tx_QueryRow tx (SELECT (cols ["id"]) [("", "authlier_users")] ("id" = $1) None [""]) [Text subjectID] ;;
  match row with
  | Err err => ret (Err err)
  | Ok [Text _] => ret (Ok tt)
  | Ok _ => ret (Err ErrScan)
  end.

Definition count_of (name column : string) (n : nat) : expr := Count [("", name)] (Equal column (Arg n)).

Definition otherCredentialCount (tx : Tx S) (subjectID : string) : M S (result Z) :=
  row <-? tx_QueryRow tx
    (SELECT [Plus (count_of "authlier_google_identities" "user_id" 1) (count_of "authlier_passkey_credentials" "subject_id" 2)]
       [] TRUE None []) [Text subjectID; Text subjectID] ;;
  match row with
  | [Bigint count] => ret (Ok count)
  | _ => ret (Err ErrScan)
  end.

Context `{Env} `{MysqlTypes}.

Definition insertUser (tx : Tx S) (email : string) (verified : bool) (createdAt : time) : M S (result string) :=
  userID <-? wrapped "generate user ID: %w" new_uuid ;;
  handle <-? wrapped "generate WebAuthn handle: %w" (rand_Read 64) ;;
  _ <-? tx_Exec tx
    (INSERT "authlier_users"
       [("id", $1); ("email", $2); ("email_verified", $3); ("webauthn_handle", $4); ("created_at", $5)] None)
    [Text userID; Text email; Boolean verified; Bytea handle; time_value createdAt] ;;
  ret (Ok userID).
End Shared.

(** ** Email and password *)
Section EmailPassword_.
Import EmailPassword.
Context {S : Type} `{Env} `{MysqlTypes} (adapter : Adapter S).

Definition insert_password : statement :=
  INSERT "authlier_password_credentials" [("user_id", $1); ("password_hash", $2); ("updated_at", $3)] None.

Definition EmailPasswordStore_Register (registration : Registration) : M S (result User) :=
  with_tx (db adapter) (fun tx =>
    userID <-? wrapped "generate user ID: %w" new_uuid ;;
    handle <-? wrapped "generate WebAuthn handle: %w" (rand_Read 64) ;;
    r <- tx_Exec tx
      (INSERT "authlier_users" [("id", $1); ("email", $2); ("webauthn_handle", $3); ("created_at", $4)] None)
      [Text userID; Text (reg_Email registration); Bytea handle; time_value (reg_CreatedAt registration)] ;;
    match conflicting ErrConflict r with
    | Err err => ret (Err err)
    | Ok _ =>
        _ <-? tx_Exec tx insert_password
          [Text userID; Text (reg_PasswordHash registration); time_value (reg_CreatedAt registration)] ;;
        r <- tx_Commit tx ;;
        match conflicting ErrConflict r with
        | Err err => ret (Err err)
        | Ok _ => ret (Ok (mkUser userID (reg_Email registration)))
        end
    end).

(** The join that finds a user with a password. *)
Definition find_credential (condition : expr) : statement :=
  SELECT [Col "u" "id"; Col "u" "email"; Col "p" "password_hash"]
    [("u", "authlier_users"); ("p", "authlier_password_credentials")]
    (Both (Equal (Col "p" "user_id") (Col "u" "id")) condition) None [].

Definition scan_credential (row : list value) : result (User * PasswordCredential) :=
  match row with
  | [Text id; Text email; Text passwordHash] => Ok (mkUser id email, mkCredential id passwordHash)
  | _ => Err ErrScan
  end.

Definition credential_result (row : result (list value)) : result (User * PasswordCredential) :=
  or_absent ErrNotFound (match row with Ok row => scan_credential row | Err err => Err err end).

Definition EmailPasswordStore_FindByEmail (email : string) : M S (result (User * PasswordCredential)) :=
  row <- pool_QueryRow (db adapter) (find_credential (Equal (Col "u" "email") ($1))) [Text email] ;;
  ret (credential_result row).

Definition EmailPasswordStore_FindBySubject (subjectID : string) : M S (result (User * PasswordCredential)) :=
  row <- pool_QueryRow (db adapter) (find_credential (Equal (Col "u" "id") ($1))) [Text subjectID] ;;
  ret (credential_result row).

Definition EmailPasswordStore_AddPassword (subjectID passwordHash : string) (addedAt : time) : M S (result User) :=
  with_tx (db adapter) (fun tx =>
    row <- tx_QueryRow tx (SELECT (cols ["id"; "email"]) [("", "authlier_users")] ("id" = $1) None [""]) [Text subjectID] ;;
    match or_absent ErrNotFound row with
    | Err err => ret (Err err)
    | Ok [Text id; Text email] =>
        r <- tx_Exec tx insert_password [Text subjectID; Text passwordHash; time_value addedAt] ;;
        match conflicting ErrConflict r with
        | Err err => ret (Err err)
        | Ok _ => commit tx (mkUser id email)
        end
    | Ok _ => ret (Err ErrScan)
    end).

Definition EmailPasswordStore_ReplacePasswordHash (userID currentHash replacementHash : string) (updatedAt : time) :
    M S (result unit) :=
  tag <- pool_Exec (db adapter)
    (UPDATE "authlier_password_credentials" [("password_hash", $1); ("updated_at", $2)]
       ("user_id" = $3 AND "password_hash" = $4) [])
    [Text replacementHash; time_value updatedAt; Text userID; Text currentHash] ;;
  some_affected tag ErrConflict (ret (Ok tt)).

Definition EmailPasswordStore_RemovePassword (subjectID currentHash : string) (_ : time) : M S (result unit) :=
  with_tx (db adapter) (fun tx =>
    r <- lockUser tx subjectID ;;
    match or_absent ErrNotFound r with
    | Err err => ret (Err err)
    | Ok _ =>
        row <- tx_QueryRow tx
          (SELECT (cols ["password_hash"]) [("", "authlier_password_credentials")] ("user_id" = $1) None [])
          [Text subjectID] ;;
        match or_absent ErrNotFound row with
        | Err err => ret (Err err)
        | Ok [Text storedHash] =>
            if negb (String.eqb storedHash currentHash) then ret (Err ErrConflict) else
            methods <-? otherCredentialCount tx subjectID ;;
            if (methods =? 0)%Z then ret (Err ErrLastCredential) else
            _ <-? tx_Exec tx (DELETE "authlier_password_credentials" ("user_id" = $1) []) [Text subjectID] ;;
            commit tx tt
        | Ok _ => ret (Err ErrScan)
        end
    end).

Definition EmailPasswordStore : Store S :=
  {| store_Register := EmailPasswordStore_Register;
     store_FindByEmail := EmailPasswordStore_FindByEmail;
     store_ReplacePasswordHash := EmailPasswordStore_ReplacePasswordHash |}.

Definition EmailPasswordCredentialStore : CredentialStore S :=
  {| cred_FindBySubject := EmailPasswordStore_FindBySubject;
     cred_AddPassword := EmailPasswordStore_AddPassword;
     cred_ReplacePasswordHash := EmailPasswordStore_ReplacePasswordHash;
     cred_RemovePassword := EmailPasswordStore_RemovePassword |}.
End EmailPassword_.

(** A pending request of a user: the statement of [Issue] for both kinds. *)
Definition issue_pending (name : string) : statement :=
  UPSERT name
    [("user_id", $1); ("email", $2); ("token_hash", $3); ("created_at", $4); ("expires_at", $5)]
    [("email", Excluded "email"); ("token_hash", Excluded "token_hash");
     ("created_at", Excluded "created_at"); ("expires_at", Excluded "expires_at")].

(** ** Email verification *)
Section EmailVerification_.
Import EmailVerification.
Context {S : Type} `{MysqlTypes} (adapter : Adapter S).

Definition EmailVerificationStore_FindUserByEmail (email : string) : M S (result User) :=
  row <- pool_QueryRow (db adapter)
    (SELECT (cols ["id"; "email"; "email_verified"]) [("", "authlier_users")] ("email" = $1) None []) [Text email] ;;
  ret (or_absent ErrNotFound
    match row with
    | Ok [Text id; Text email; Boolean verified] => Ok (mkUser id email verified)
    | Ok _ => Err ErrScan
    | Err err => Err err
    end).

Definition EmailVerificationStore_Issue (record : VerificationRecord) : M S (result unit) :=
  r <- pool_Exec (db adapter) (issue_pending "authlier_email_verifications")
    [Text (rec_UserID record); Text (rec_Email record); Bytea (rec_TokenHash record); time_value (rec_CreatedAt record);
     time_value (rec_ExpiresAt record)] ;;
  ret (conflicting ErrConflict (ignored r)).

Definition EmailVerificationStore_Verify (tokenHash : Hash) (verifiedAt : time) : M S (result User) :=
  with_tx (db adapter) (fun tx =>
    row <- tx_QueryRow tx
      (SELECT [Col "u" "id"; Col "u" "email"; Col "u" "email_verified"; Col "v" "expires_at"]
         [("v", "authlier_email_verifications"); ("u", "authlier_users")]
         (Both (Equal (Col "u" "id") (Col "v" "user_id")) (Equal (Col "v" "token_hash") ($1))) None [""])
      [Bytea tokenHash] ;;
    match or_absent ErrNotFound row with
    | Err err => ret (Err err)
    | Ok [Text id; Text email; Boolean verified; Timestamp expiresAt] =>
        if verified || negb (Before verifiedAt expiresAt) then ret (Err ErrInactiveToken) else
        _ <-? tx_Exec tx (UPDATE "authlier_users" [("email_verified", Const (Boolean true))] ("id" = $1) []) [Text id] ;;
        _ <-? tx_Exec tx (DELETE "authlier_email_verifications" ("user_id" = $1) []) [Text id] ;;
        commit tx (mkUser id email true)
    | Ok _ => ret (Err ErrScan)
    end).

Definition EmailVerificationStore : Store S :=
  {| store_FindUserByEmail := EmailVerificationStore_FindUserByEmail;
     store_Issue := EmailVerificationStore_Issue;
     store_Verify := EmailVerificationStore_Verify |}.
End EmailVerification_.

(** ** Password reset *)
Section PasswordReset_.
Import PasswordReset.
Context {S : Type} `{MysqlTypes} (adapter : Adapter S).

Definition PasswordResetStore_FindUserByEmail (email : string) : M S (result User) :=
  row <- pool_QueryRow (db adapter)
    (SELECT (cols ["id"; "email"]) [("", "authlier_users")] ("email" = $1) None []) [Text email] ;;
  ret (or_absent ErrNotFound
    match row with
    | Ok [Text id; Text email] => Ok (mkUser id email)
    | Ok _ => Err ErrScan
    | Err err => Err err
    end).

Definition PasswordResetStore_Issue (record : ResetRecord) : M S (result unit) :=
  r <- pool_Exec (db adapter) (issue_pending "authlier_password_resets")
    [Text (rec_UserID record); Text (rec_Email record); Bytea (rec_TokenHash record); time_value (rec_CreatedAt record);
     time_value (rec_ExpiresAt record)] ;;
  ret (conflicting ErrConflict (ignored r)).

Definition PasswordResetStore_ResetPassword (tokenHash : Hash) (passwordHash : string) (resetAt : time) :
    M S (result User) :=
  with_tx (db adapter) (fun tx =>
    row <- tx_QueryRow tx
      (SELECT [Col "u" "id"; Col "u" "email"; Col "r" "expires_at"]
         [("r", "authlier_password_resets"); ("u", "authlier_users")]
         (Both (Equal (Col "u" "id") (Col "r" "user_id")) (Equal (Col "r" "token_hash") ($1))) None [""])
      [Bytea tokenHash] ;;
    match or_absent ErrNotFound row with
    | Err err => ret (Err err)
    | Ok [Text id; Text email; Timestamp expiresAt] =>
        if negb (Before resetAt expiresAt) then ret (Err ErrInactiveToken) else
        _ <-? tx_Exec tx
          (UPSERT "authlier_password_credentials" [("user_id", $1); ("password_hash", $2); ("updated_at", $3)]
             [("password_hash", Excluded "password_hash"); ("updated_at", Excluded "updated_at")])
          [Text id; Text passwordHash; time_value resetAt] ;;
        _ <-? tx_Exec tx (DELETE "authlier_password_resets" ("user_id" = $1) []) [Text id] ;;
        commit tx (mkUser id email)
    | Ok _ => ret (Err ErrScan)
    end).

Definition PasswordResetStore : Store S :=
  {| store_FindUserByEmail := PasswordResetStore_FindUserByEmail;
     store_Issue := PasswordResetStore_Issue;
     store_ResetPassword := PasswordResetStore_ResetPassword |}.
End PasswordReset_.

(** ** Google identities *)
Section Google_.
Import GoogleOAuth.
Context {S : Type} `{Env} `{MysqlTypes} (adapter : Adapter S).

Definition GoogleStore_CreateChallenge (challenge : Challenge) : M S (result unit) :=
  r <- pool_Exec (db adapter)
    (INSERT "authlier_google_challenges"
       [("state_hash", $1); ("nonce", $2); ("code_verifier", $3); ("subject_id", $4); ("created_at", $5);
        ("expires_at", $6)] None)
    [Bytea (StateHash challenge); Text (ch_Nonce challenge); Text (CodeVerifier challenge);
     Text (ch_SubjectID challenge); time_value (CreatedAt challenge); time_value (ExpiresAt challenge)] ;;
  ret (conflicting ErrConflict (ignored r)).

Definition GoogleStore_ConsumeChallenge (stateHash : string) (consumedAt : time) : M S (result Challenge) :=
  with_tx (db adapter) (fun tx =>
    row <- tx_QueryRow tx
      (SELECT (cols ["state_hash"; "nonce"; "code_verifier"; "subject_id"; "created_at"; "expires_at"])
         [("", "authlier_google_challenges")] ("state_hash" = $1) None [""]) [Bytea stateHash] ;;
    match or_absent ErrNotFound row with
    | Err err => ret (Err err)
    | Ok [Bytea storedHash; Text nonce; Text codeVerifier; Text subjectID; Timestamp createdAt; Timestamp expiresAt] =>
        _ <-? tx_Exec tx (DELETE "authlier_google_challenges" ("state_hash" = $1) []) [Bytea stateHash] ;;
        _ <-? tx_Commit tx ;;
        if negb (Before consumedAt expiresAt) then ret (Err ErrInvalidState) else
        ret (Ok (mkChallenge storedHash nonce codeVerifier subjectID createdAt expiresAt))
    | Ok _ => ret (Err ErrScan)
    end).

(** The last part of [ResolveIdentity]: [userID] gets the identity. *)
Definition link_identity (tx : Tx S) (resolution : IdentityResolution) (userID : string) : M S (result User) :=
  r <- tx_Exec tx
    (INSERT "authlier_google_identities"
       [("provider_subject", $1); ("user_id", $2); ("email", $3); ("linked_at", CurrentTimestamp)] None)
    [Text (ProviderSubject resolution); Text userID; Text (Email resolution)] ;;
  match conflicting ErrConflict r with
  | Err err => ret (Err err)
  | Ok _ => commit tx (mkUser userID)
  end.

(** Its middle: the user of an identity that is not linked yet. *)
Definition identity_user (tx : Tx S) (resolution : IdentityResolution) : M S (result string) :=
  if negb (String.eqb (SubjectID resolution) "") then
    r <- lockUser tx (SubjectID resolution) ;;
    match or_absent ErrNotFound r with
    | Err err => ret (Err err)
    | Ok _ =>
        row <- tx_QueryRow tx
          (SELECT (cols ["provider_subject"]) [("", "authlier_google_identities")] ("user_id" = $1) None [])
          [Text (SubjectID resolution)] ;;
        match row with
        | Ok [Text _] => ret (Err ErrConflict)
        | Ok _ => ret (Err ErrScan)
        | Err err => if negb (errors_Is err ErrNoRows) then ret (Err err) else ret (Ok (SubjectID resolution))
        end
    end
  else
    row <- tx_QueryRow tx
      (SELECT (cols ["id"]) [("", "authlier_users")] ("email" = $1) None [""]) [Text (Email resolution)] ;;
    match row with
    | Ok [Text _] => ret (Err ErrLinkRequired)
    | Ok _ => ret (Err ErrScan)
    | Err err =>
        if negb (errors_Is err ErrNoRows) then ret (Err err) else
        now <- read_now time_Now ;;
        r <- insertUser tx (Email resolution) true now ;;
        ret (conflicting ErrLinkRequired r)
    end.

Definition GoogleStore_ResolveIdentity (resolution : IdentityResolution) : M S (result User) :=
  with_tx (db adapter) (fun tx =>
    row <- tx_QueryRow tx
      (SELECT (cols ["user_id"]) [("", "authlier_google_identities")] ("provider_subject" = $1) None [""])
      [Text (ProviderSubject resolution)] ;;
    match row with
    | Ok [Text linkedUserID] =>
        if negb (String.eqb (SubjectID resolution) "") && negb (String.eqb linkedUserID (SubjectID resolution))
        then ret (Err ErrConflict) else
        _ <-? tx_Exec tx (UPDATE "authlier_google_identities" [("email", $1)] ("provider_subject" = $2) [])
                [Text (Email resolution); Text (ProviderSubject resolution)] ;;
        commit tx (mkUser linkedUserID)
    | Ok _ => ret (Err ErrScan)
    | Err err =>
        if negb (errors_Is err ErrNoRows) then ret (Err err) else
        userID <-? identity_user tx resolution ;;
        link_identity tx resolution userID
    end).

Definition GoogleStore_UnlinkIdentity (subjectID : string) (_ : time) : M S (result unit) :=
  with_tx (db adapter) (fun tx =>
    r <- lockUser tx subjectID ;;
    match or_absent ErrNotFound r with
    | Err err => ret (Err err)
    | Ok _ =>
        row <- tx_QueryRow tx
          (SELECT (cols ["provider_subject"]) [("", "authlier_google_identities")] ("user_id" = $1) None [""])
          [Text subjectID] ;;
        match or_absent ErrNotFound row with
        | Err err => ret (Err err)
        | Ok [Text _] =>
            counts <-? tx_QueryRow tx
              (SELECT [count_of "authlier_password_credentials" "user_id" 1; count_of "authlier_passkey_credentials" "subject_id" 2]
                 [] TRUE None []) [Text subjectID; Text subjectID] ;;
            match counts with
            | [Bigint passwordCount; Bigint passkeyCount] =>
                if (passwordCount + passkeyCount =? 0)%Z then ret (Err ErrLastCredential) else
                _ <-? tx_Exec tx (DELETE "authlier_google_identities" ("user_id" = $1) []) [Text subjectID] ;;
                commit tx tt
            | _ => ret (Err ErrScan)
            end
        | Ok _ => ret (Err ErrScan)
        end
    end).

Definition GoogleStore : Store S :=
  {| store_CreateChallenge := GoogleStore_CreateChallenge;
     store_ConsumeChallenge := GoogleStore_ConsumeChallenge;
     store_ResolveIdentity := GoogleStore_ResolveIdentity |}.
End Google_.


(** ** Conversions between [uint64] and [int64] *)
Definition int64 (n : Z) : Z :=
  let m := (n mod 2 ^ 64)%Z in if (m <? 2 ^ 63)%Z then m else (m - 2 ^ 64)%Z.
Definition uint64 (z : Z) : Z := (z mod 2 ^ 64)%Z.

(** ** TOTP *)
Section Totp_.
Import Totp.
Context {S : Type} `{MysqlTypes} (adapter : Adapter S).

Definition encrypt (secret : string) : M S (result string) :=
  match secrets adapter with
  | None => ret (Err (Errorf "%w: secret codec is required for TOTP" [Mysql.ErrInvalidConfig]))
  | Some codec => Encrypt codec secret
  end.

Definition decrypt (encrypted : string) : M S (result string) :=
  match secrets adapter with
  | None => ret (Err (Errorf "%w: secret codec is required for TOTP" [Mysql.ErrInvalidConfig]))
  | Some codec => Decrypt codec encrypted
  end.

Definition TOTPStore_IsEnabled (subjectID : string) : M S (result bool) :=
  row <-? pool_QueryRow (db adapter)
    (SELECT [Exists [("", "authlier_totp_credentials")] ("subject_id" = $1 AND "disabled_at" IS_NULL)] [] TRUE None [])
    [Text subjectID] ;;
  match row with
  | [Boolean enabled] => ret (Ok enabled)
  | _ => ret (Err ErrScan)
  end.

Definition TOTPStore_BeginEnrollment (enrollment : Enrollment) : M S (result unit) :=
  secret <-? encrypt (enr_Secret enrollment) ;;
  r <- pool_Exec (db adapter)
    (UPSERT "authlier_totp_enrollments"
       [("subject_id", $1); ("encrypted_secret", $2); ("created_at", $3); ("expires_at", $4)]
       [("encrypted_secret", Excluded "encrypted_secret"); ("created_at", Excluded "created_at");
        ("expires_at", Excluded "expires_at")])
    [Text (enr_SubjectID enrollment); Bytea secret; time_value (enr_CreatedAt enrollment);
     time_value (enr_ExpiresAt enrollment)] ;;
  ret (ignored r).

Definition TOTPStore_FindEnrollment (subjectID : string) : M S (result Enrollment) :=
  row <- pool_QueryRow (db adapter)
    (SELECT (cols ["subject_id"; "encrypted_secret"; "created_at"; "expires_at"])
       [("", "authlier_totp_enrollments")] ("subject_id" = $1) None []) [Text subjectID] ;;
  match or_absent ErrNotFound row with
  | Err err => ret (Err err)
  | Ok [Text id; Bytea encrypted; Timestamp createdAt; Timestamp expiresAt] =>
      secret <-? decrypt encrypted ;;
      ret (Ok (mkEnrollment id secret createdAt expiresAt))
  | Ok _ => ret (Err ErrScan)
  end.

Definition TOTPStore_Enable (subjectID : string) (confirmedCounter : Z) (recoveryCodes : list RecoveryCodeHash)
    (enabledAt : time) : M S (result unit) :=
  with_tx (db adapter) (fun tx =>
    row <- tx_QueryRow tx
      (SELECT (cols ["encrypted_secret"; "expires_at"]) [("", "authlier_totp_enrollments")] ("subject_id" = $1) None [""])
      [Text subjectID] ;;
    match or_absent ErrNotFound row with
    | Err err => ret (Err err)
    | Ok [Bytea encrypted; Timestamp expiresAt] =>
        if negb (Before enabledAt expiresAt) then ret (Err ErrInactiveEnrollment) else
        _ <-? tx_Exec tx
          (UPSERT "authlier_totp_credentials"
             [("subject_id", $1); ("encrypted_secret", $2); ("enabled_at", $3); ("last_used_counter", $4)]
             [("encrypted_secret", Excluded "encrypted_secret"); ("enabled_at", Excluded "enabled_at");
              ("last_used_counter", Excluded "last_used_counter"); ("disabled_at", Const Null)])
          [Text subjectID; Bytea encrypted; time_value enabledAt; Bigint (int64 confirmedCounter)] ;;
        _ <-? tx_Exec tx (DELETE "authlier_totp_recovery_codes" ("subject_id" = $1) []) [Text subjectID] ;;
        for_each recoveryCodes tt
          (fun code _ =>
             r <- tx_Exec tx
               (INSERT "authlier_totp_recovery_codes" [("subject_id", $1); ("code_hash", $2)] None)
               [Text subjectID; Bytea code] ;;
             match r with
             | Err err => ret (Return (Err err))
             | Ok _ => ret (Next tt)
             end)
          (fun _ =>
             _ <-? tx_Exec tx (DELETE "authlier_totp_enrollments" ("subject_id" = $1) []) [Text subjectID] ;;
             commit tx tt)
    | Ok _ => ret (Err ErrScan)
    end).

Definition TOTPStore_Disable (subjectID : string) (disabledAt : time) : M S (result unit) :=
  with_tx (db adapter) (fun tx =>
    tag <- tx_Exec tx
      (UPDATE "authlier_totp_credentials" [("disabled_at", Coalesce "disabled_at" ($1))] ("subject_id" = $2) [])
      [time_value disabledAt; Text subjectID] ;;
    some_affected tag ErrNotFound (
      _ <-? tx_Exec tx (DELETE "authlier_totp_recovery_codes" ("subject_id" = $1) []) [Text subjectID] ;;
      commit tx tt)).

Definition TOTPStore_CreateChallenge (challenge : Challenge) : M S (result unit) :=
  r <- pool_Exec (db adapter)
    (INSERT "authlier_totp_challenges"
       [("token_hash", $1); ("subject_id", $2); ("created_at", $3); ("expires_at", $4)] None)
    [Bytea (ch_TokenHash challenge); Text (ch_SubjectID challenge); time_value (ch_CreatedAt challenge);
     time_value (ch_ExpiresAt challenge)] ;;
  ret (conflicting ErrConflict (ignored r)).

(** [*int64]: the counter, or none. *)
Definition scan_counter (v : value) : option (option Z) :=
  match v with Null => Some None | Bigint z => Some (Some z) | _ => None end.

Definition TOTPStore_FindChallenge (challengeHash : ChallengeHash) : M S (result (Challenge * Credential)) :=
  row <- pool_QueryRow (db adapter)
    (SELECT [Col "c" "token_hash"; Col "c" "subject_id"; Col "c" "created_at"; Col "c" "expires_at";
             Col "t" "encrypted_secret"; Col "t" "enabled_at"; Col "t" "last_used_counter"]
       [("c", "authlier_totp_challenges"); ("t", "authlier_totp_credentials")]
       (Both (Equal (Col "t" "subject_id") (Col "c" "subject_id"))
          (Both (Equal (Col "c" "token_hash") ($1)) (Both (IsNull (Col "c" "consumed_at")) (IsNull (Col "t" "disabled_at")))))
       None []) [Bytea challengeHash] ;;
  match or_absent ErrNotFound row with
  | Err err => ret (Err err)
  | Ok [Bytea hash; Text subjectID; Timestamp createdAt; Timestamp expiresAt; Bytea encrypted; Timestamp enabledAt; counter] =>
      match scan_counter counter with
      | None => ret (Err ErrScan)
      | Some counter =>
          secret <-? decrypt encrypted ;;
          ret (Ok (mkChallenge subjectID hash createdAt expiresAt,
            match counter with
            | Some counter => mkCredential subjectID secret enabledAt (uint64 counter) true
            | None => mkCredential subjectID secret enabledAt 0 false
            end))
      end
  | Ok _ => ret (Err ErrScan)
  end.

Definition consumeTOTPChallenge (tx : Tx S) (hash : ChallengeHash) (at_ : time) : M S (result string) :=
  row <- tx_QueryRow tx
    (SELECT (cols ["subject_id"]) [("", "authlier_totp_challenges")]
       ("token_hash" = $1 AND "consumed_at" IS_NULL AND "expires_at" > $2) None [""])
    [Bytea hash; time_value at_] ;;
  match or_absent ErrInactiveChallenge row with
  | Err err => ret (Err err)
  | Ok [Text subjectID] =>
      result <- tx_Exec tx
        (UPDATE "authlier_totp_challenges" [("consumed_at", $1)] ("token_hash" = $2 AND "consumed_at" IS_NULL) [])
        [time_value at_; Bytea hash] ;;
      some_affected result ErrInactiveChallenge (ret (Ok subjectID))
  | Ok _ => ret (Err ErrScan)
  end.

Definition TOTPStore_CompleteCode (challengeHash : ChallengeHash) (counter : Z) (completedAt : time) : M S (result string) :=
  with_tx (db adapter) (fun tx =>
    subjectID <-? consumeTOTPChallenge tx challengeHash completedAt ;;
    tag <- tx_Exec tx
      (UPDATE "authlier_totp_credentials" [("last_used_counter", $1)]
         ("subject_id" = $2 AND "disabled_at" IS_NULL AND ("last_used_counter" IS_NULL OR "last_used_counter" < $3)) [])
      [Bigint (int64 counter); Text subjectID; Bigint (int64 counter)] ;;
    some_affected tag ErrInvalidCode (commit tx subjectID)).

Definition TOTPStore_CompleteRecovery (challengeHash : ChallengeHash) (recoveryCode : RecoveryCodeHash)
    (completedAt : time) : M S (result string) :=
  with_tx (db adapter) (fun tx =>
    subjectID <-? consumeTOTPChallenge tx challengeHash completedAt ;;
    tag <- tx_Exec tx
      (UPDATE "authlier_totp_recovery_codes" [("used_at", $1)]
         ("subject_id" = $2 AND "code_hash" = $3 AND "used_at" IS_NULL) [])
      [time_value completedAt; Text subjectID; Bytea recoveryCode] ;;
    some_affected tag ErrInvalidCode (commit tx subjectID)).

Definition TOTPStore : Store S :=
  {| store_IsEnabled := TOTPStore_IsEnabled;
     store_BeginEnrollment := TOTPStore_BeginEnrollment;
     store_FindEnrollment := TOTPStore_FindEnrollment;
     store_Enable := TOTPStore_Enable;
     store_Disable := TOTPStore_Disable;
     store_CreateChallenge := TOTPStore_CreateChallenge;
     store_FindChallenge := TOTPStore_FindChallenge;
     store_CompleteCode := TOTPStore_CompleteCode;
     store_CompleteRecovery := TOTPStore_CompleteRecovery |}.
End Totp_.

(** ** Passkeys *)
Section Passkeys_.
Import Passkey.
Context {S : Type} `{MysqlTypes} `{JSON Credential} `{JSON SessionData} (adapter : Adapter S).

Definition ceremony_type (t : CeremonyType) : string :=
  match t with CeremonyRegistration => "registration" | CeremonyAuthentication => "authentication" end.
Definition scan_ceremony_type (s : string) : option CeremonyType :=
  if String.eqb s "registration" then Some CeremonyRegistration else
  if String.eqb s "authentication" then Some CeremonyAuthentication else None.

(** The loop over the rows. *)
Fixpoint scan_credentials (rows : list (list value)) (credentials : list Credential) : result (list Credential) :=
  match rows with
  | [] => Ok credentials
  | [Jsonb encoded] :: rows =>
      match json_Unmarshal encoded with
      | Ok credential => scan_credentials rows (credentials ++ [credential])
      | Err err => Err err
      end
  | _ :: _ => Err ErrScan
  end.

Definition findUser (predicate : expr) (arguments : list value) : M S (result User) :=
  row <- pool_QueryRow (db adapter)
    (SELECT [Col "u" "id"; Col "u" "webauthn_handle"; Col "u" "email"] [("u", "authlier_users")] predicate None [])
    arguments ;;
  match or_absent ErrNotFound row with
  | Err err => ret (Err err)
  | Ok [Text subjectID; Bytea handle; Text name] =>
      rows <-? pool_Query (db adapter)
        (SELECT (cols ["credential"]) [("", "authlier_passkey_credentials")] ("subject_id" = $1) None []) [Text subjectID] ;;
      let '(rows, rows_Err) := rows in
      match scan_credentials rows [], rows_Err with
      | Err err, _ | _, Err err => ret (Err err)
      | Ok credentials, Ok _ => ret (Ok (mkUser subjectID handle name name credentials))
      end
  | Ok _ => ret (Err ErrScan)
  end.

Definition PasskeyStore_FindUserBySubject (subjectID : string) : M S (result User) :=
  findUser (Equal (Col "u" "id") ($1)) [Text subjectID].

Definition PasskeyStore_FindUserByCredential (credentialID userHandle : string) : M S (result User) :=
  findUser
    (Both (Equal (Col "u" "webauthn_handle") ($1))
       (Exists [("c", "authlier_passkey_credentials")]
          (Both (Equal (Col "c" "subject_id") (Col "u" "id")) (Equal (Col "c" "credential_id") ($2)))))
    [Bytea userHandle; Bytea credentialID].

Definition PasskeyStore_CreateCeremony (ceremony : Ceremony) : M S (result unit) :=
  let sessionData := json_Marshal (Session ceremony) in
  r <- pool_Exec (db adapter)
    (INSERT "authlier_passkey_ceremonies"
       [("token_hash", $1); ("ceremony_type", $2); ("subject_id", $3); ("session_data", $4); ("created_at", $5);
        ("expires_at", $6)] None)
    [Bytea (cer_TokenHash ceremony); Text (ceremony_type (cer_Type ceremony)); Text (cer_SubjectID ceremony);
     json_document sessionData; time_value (cer_CreatedAt ceremony); time_value (cer_ExpiresAt ceremony)] ;;
  ret (conflicting ErrConflict (ignored r)).

(** A type that is neither of the two has no value in the model. *)
Definition PasskeyStore_FindCeremony (ceremonyHash : CeremonyHash) : M S (result Ceremony) :=
  row <- pool_QueryRow (db adapter)
    (SELECT (cols ["token_hash"; "ceremony_type"; "subject_id"; "session_data"; "created_at"; "expires_at"])
       [("", "authlier_passkey_ceremonies")] ("token_hash" = $1 AND "consumed_at" IS_NULL) None []) [Bytea ceremonyHash] ;;
  match or_absent ErrNotFound row with
  | Err err => ret (Err err)
  | Ok [Bytea hash; Text type; Text subjectID; Jsonb sessionData; Timestamp createdAt; Timestamp expiresAt] =>
      match scan_ceremony_type type, json_Unmarshal sessionData with
      | None, _ => ret (Err ErrScan)
      | _, Err err => ret (Err err)
      | Some type, Ok session => ret (Ok (mkCeremony type hash subjectID session createdAt expiresAt))
      end
  | Ok _ => ret (Err ErrScan)
  end.

Definition consumePasskeyCeremony (tx : Tx S) (hash : CeremonyHash) (subjectID : string) (type : CeremonyType)
    (at_ : time) : M S (result unit) :=
  tag <- tx_Exec tx
    (UPDATE "authlier_passkey_ceremonies" [("consumed_at", $1)]
       ("token_hash" = $2 AND "ceremony_type" = $3 AND "subject_id" = $4 AND "consumed_at" IS_NULL AND "expires_at" > $5) [])
    [time_value at_; Bytea hash; Text (ceremony_type type); Text subjectID; time_value at_] ;;
  some_affected tag ErrInactiveCeremony (ret (Ok tt)).

Definition PasskeyStore_CompleteRegistration (ceremonyHash : CeremonyHash) (subjectID : string)
    (credential : Credential) (completedAt : time) : M S (result unit) :=
  let encoded := json_Marshal credential in
  with_tx (db adapter) (fun tx =>
    _ <-? consumePasskeyCeremony tx ceremonyHash subjectID CeremonyRegistration completedAt ;;
    r <- tx_Exec tx
      (INSERT "authlier_passkey_credentials"
         [("credential_id", $1); ("subject_id", $2); ("credential", $3); ("created_at", $4); ("updated_at", $5)] None)
      [Bytea (cred_ID credential); Text subjectID; json_document encoded; time_value completedAt; time_value completedAt] ;;
    match conflicting ErrConflict r with
    | Err err => ret (Err err)
    | Ok _ => commit tx tt
    end).

Definition PasskeyStore_CompleteAuthentication (ceremonyHash : CeremonyHash) (subjectID : string)
    (previous updated : Credential) (completedAt : time) : M S (result unit) :=
  let previousJSON := json_Marshal previous in
  let updatedJSON := json_Marshal updated in
  with_tx (db adapter) (fun tx =>
    _ <-? consumePasskeyCeremony tx ceremonyHash subjectID CeremonyAuthentication completedAt ;;
    tag <- tx_Exec tx
      (UPDATE "authlier_passkey_credentials" [("credential", $1); ("updated_at", $2)]
         ("credential_id" = $3 AND "subject_id" = $4 AND "credential" = $5) [])
      [json_document updatedJSON; time_value completedAt; Bytea (cred_ID previous); Text subjectID;
       json_document previousJSON] ;;
    some_affected tag ErrConflict (commit tx tt)).

Definition PasskeyStore_DeleteCredential (subjectID credentialID : string) (_ : time) : M S (result unit) :=
  with_tx (db adapter) (fun tx =>
    r <- lockUser tx subjectID ;;
    match or_absent ErrNotFound r with
    | Err err => ret (Err err)
    | Ok _ =>
        counts <-? tx_QueryRow tx
          (SELECT [count_of "authlier_passkey_credentials" "subject_id" 1; count_of "authlier_password_credentials" "user_id" 2;
                   count_of "authlier_google_identities" "user_id" 3] [] TRUE None [])
            [Text subjectID; Text subjectID; Text subjectID] ;;
        match counts with
        | [Bigint passkeys; Bigint passwords; Bigint googleIdentities] =>
            if (passkeys =? 1)%Z && (passwords + googleIdentities =? 0)%Z then ret (Err ErrLastCredential) else
            tag <- tx_Exec tx
              (DELETE "authlier_passkey_credentials" ("subject_id" = $1 AND "credential_id" = $2) [])
              [Text subjectID; Bytea credentialID] ;;
            some_affected tag ErrNotFound (commit tx tt)
        | _ => ret (Err ErrScan)
        end
    end).

Definition PasskeyStore : Store S :=
  {| store_FindUserBySubject := PasskeyStore_FindUserBySubject;
     store_FindUserByCredential := PasskeyStore_FindUserByCredential;
     store_CreateCeremony := PasskeyStore_CreateCeremony;
     store_FindCeremony := PasskeyStore_FindCeremony;
     store_CompleteRegistration := PasskeyStore_CompleteRegistration;
     store_CompleteAuthentication := PasskeyStore_CompleteAuthentication;
     store_DeleteCredential := PasskeyStore_DeleteCredential |}.
End Passkeys_.

(** ** OpenID Connect and SAML *)
Section Sso_.
Context {S : Type} `{MysqlTypes} `{JSON (list string)} (adapter : Adapter S).

Definition OIDCStore_CreateChallenge (challenge : Oidc.Challenge) : M S (result unit) :=
  let scopes := json_Marshal (Oidc.ch_Scopes challenge) in
  r <- pool_Exec (db adapter)
    (INSERT "authlier_oidc_challenges"
       [("state_hash", $1); ("connection_id", $2); ("issuer", $3); ("client_id", $4); ("redirect_url", $5); ("scopes", $6);
        ("require_verified_email", $7); ("nonce", $8); ("code_verifier", $9); ("created_at", $10); ("expires_at", $11)] None)
    [Bytea (Oidc.StateHash challenge); Text (Oidc.ch_ConnectionID challenge); Text (Oidc.ch_Issuer challenge);
     Text (Oidc.ch_ClientID challenge); Text (Oidc.ch_RedirectURL challenge); json_document scopes;
     Boolean (Oidc.ch_RequireVerifiedEmail challenge); Text (Oidc.ch_Nonce challenge); Text (Oidc.CodeVerifier challenge);
     time_value (Oidc.CreatedAt challenge); time_value (Oidc.ExpiresAt challenge)] ;;
  ret (conflicting Oidc.ErrConflict (ignored r)).

Definition OIDCStore_ConsumeChallenge (stateHash : Hash) (consumedAt : time) : M S (result Oidc.Challenge) :=
  with_tx (db adapter) (fun tx =>
    row <- tx_QueryRow tx
      (SELECT (cols ["state_hash"; "connection_id"; "issuer"; "client_id"; "redirect_url"; "scopes";
                     "require_verified_email"; "nonce"; "code_verifier"; "created_at"; "expires_at"])
         [("", "authlier_oidc_challenges")] ("state_hash" = $1) None [""]) [Bytea stateHash] ;;
    match or_absent Oidc.ErrNotFound row with
    | Err err => ret (Err err)
    | Ok [Bytea storedHash; Text connectionID; Text issuer; Text clientID; Text redirectURL; Jsonb scopes;
          Boolean requireVerifiedEmail; Text nonce; Text codeVerifier; Timestamp createdAt; Timestamp expiresAt] =>
        scopes <-? ret (json_Unmarshal scopes) ;;
        _ <-? tx_Exec tx (DELETE "authlier_oidc_challenges" ("state_hash" = $1) []) [Bytea stateHash] ;;
        _ <-? tx_Commit tx ;;
        if negb (Before consumedAt expiresAt) then ret (Err Oidc.ErrInactiveState) else
        ret (Ok (Oidc.mkChallenge storedHash connectionID issuer clientID redirectURL scopes requireVerifiedEmail nonce
          codeVerifier createdAt expiresAt))
    | Ok _ => ret (Err ErrScan)
    end).

Definition OIDCStore : Oidc.Store S :=
  {| Oidc.store_CreateChallenge := OIDCStore_CreateChallenge;
     Oidc.store_ConsumeChallenge := OIDCStore_ConsumeChallenge |}.

Definition SAMLStore_CreateRequest (request : Saml.Request) : M S (result unit) :=
  r <- pool_Exec (db adapter)
    (INSERT "authlier_saml_requests"
       [("state_hash", $1); ("connection_id", $2); ("connection_hash", $3); ("request_id", $4); ("created_at", $5);
        ("expires_at", $6)] None)
    [Bytea (Saml.StateHash request); Text (Saml.req_ConnectionID request); Bytea (Saml.ConnectionHash request);
     Text (Saml.RequestID request); time_value (Saml.CreatedAt request); time_value (Saml.ExpiresAt request)] ;;
  ret (conflicting Saml.ErrConflict (ignored r)).

Definition SAMLStore_ConsumeRequest (stateHash : Hash) (consumedAt : time) : M S (result Saml.Request) :=
  with_tx (db adapter) (fun tx =>
    row <- tx_QueryRow tx
      (SELECT (cols ["state_hash"; "connection_id"; "connection_hash"; "request_id"; "created_at"; "expires_at"])
         [("", "authlier_saml_requests")] ("state_hash" = $1) None [""]) [Bytea stateHash] ;;
    match or_absent Saml.ErrNotFound row with
    | Err err => ret (Err err)
    | Ok [Bytea storedState; Text connectionID; Bytea connectionHash; Text requestID; Timestamp createdAt;
          Timestamp expiresAt] =>
        _ <-? tx_Exec tx (DELETE "authlier_saml_requests" ("state_hash" = $1) []) [Bytea stateHash] ;;
        _ <-? tx_Commit tx ;;
        if negb (Before consumedAt expiresAt) then ret (Err Saml.ErrInactiveRequest) else
        ret (Ok (Saml.mkRequest storedState connectionID connectionHash requestID createdAt expiresAt))
    | Ok _ => ret (Err ErrScan)
    end).

Definition SAMLStore : Saml.Store S :=
  {| Saml.store_CreateRequest := SAMLStore_CreateRequest;
     Saml.store_ConsumeRequest := SAMLStore_ConsumeRequest |}.
End Sso_.

(** ** The adapter as a database *)
Section Stores_.
Context {S : Type} `{Env} `{MysqlTypes} `{JSON Passkey.Credential} `{JSON Passkey.SessionData} `{JSON (list string)} (adapter : Adapter S).

Definition Stores : Config.Stores S :=
  Config.mkStores
    (Some (Config.mkEmailPasswordStore (EmailPasswordStore adapter) (EmailPasswordCredentialStore adapter)))
    (Some (EmailVerificationStore adapter))
    (Some (Config.mkGoogleStore (GoogleStore adapter) (GoogleStore_UnlinkIdentity adapter)))
    (Some (OIDCStore adapter)) (Some (PasskeyStore adapter)) (Some (PasswordResetStore adapter))
    (Some (RefreshTokenStore adapter)) (Some (SAMLStore adapter)) (Some (SessionStore adapter)) (Some (TOTPStore adapter))
    (Some (AccessSessionStore_ adapter)).
End Stores_.
