(* ===== verification/Mongo.v ===== *)
(** * The MongoDB adapter (storage/mongodb/mongodb.go and sessions.go)

    Documents, filters and commands of a server, executable; the client library
    and the adapter; and the stores of sessions, with the contract they keep. *)
From S2P Require Import Prelude GoText Token.
From S2P Require SessionToken SessionSpec RefreshToken AccessToken BearerSession Sql.

(** ** Documents

    A [time.Time] is stored as a number of milliseconds; the times here are
    nanoseconds, of which the last six digits are dropped. *)
Inductive bson : Type :=
| BString (s : string)
| BBinary (s : string)
| BDateTime (t : time)
| BBoolean (b : bool)
| BInt64 (z : Z)
| BArray (l : list string).
#[export] Instance bson_eq_dec : EqDecision bson.
Proof. solve_decision. Defined.

Definition milliseconds (t : time) : time := (t - t mod 1000000)%Z.
Definition datetime (t : time) : bson := BDateTime (milliseconds t).

Abbreviation document := (list (string * bson)).
Abbreviation database := (gmap string (list document)).

Fixpoint field (name : string) (d : document) : option bson :=
  match d with
  | [] => None
  | (name', v) :: d => if String.eqb name name' then Some v else field name d
  end.

(** The field gets a value, at its place or after the others. *)
Fixpoint set_field (name : string) (v : bson) (d : document) : document :=
  match d with
  | [] => [(name, v)]
  | (name', v') :: d => if String.eqb name name' then (name', v) :: d else (name', v') :: set_field name v d
  end.

(** [bson:",omitempty"] of a pointer *)
Definition omitempty {A} (name : string) (f : A -> bson) (o : option A) : document :=
  match o with Some a => [(name, f a)] | None => [] end.

(** ** Filters and updates *)
Inductive filter : Type :=
| Eq (name : string) (v : bson)
| Exists_ (name : string) (b : bool)
| IsNil (name : string)
| Gt (name : string) (v : bson)
| Lt (name : string) (v : bson)
| In_ (name : string) (l : list string)
| AfterNow (name : string)
| And (l : list filter)
| Or (l : list filter).

Definition missing (name : string) : filter := Exists_ name false.

Definition before (a b : bson) : bool :=
  match a, b with BDateTime x, BDateTime y | BInt64 x, BInt64 y => (x <? y)%Z | _, _ => false end.

(** A comparison holds of a field that is there and has the type of the value. *)
Fixpoint matches (now : time) (f : filter) (d : document) : bool :=
  match f with
  | Eq name v => bool_decide (field name d = Some v)
  | Exists_ name b => Bool.eqb b (bool_decide (is_Some (field name d)))
  | IsNil name => bool_decide (field name d = None)
  | Gt name v => match field name d with Some v' => before v v' | None => false end
  | Lt name v => match field name d with Some v' => before v' v | None => false end
  | In_ name l => match field name d with Some (BString s) => bool_decide (s ∈ l) | _ => false end
  | AfterNow name => match field name d with Some (BDateTime t) => (now <? t)%Z | _ => false end
  | And l => forallb (fun f => matches now f d) l
  | Or l => existsb (fun f => matches now f d) l
  end.

Inductive update : Type :=
| SetFields (l : document)
| Inc (name : string) (n : Z).

Definition updated (u : update) (d : document) : document :=
  match u with
  | SetFields l => fold_left (fun d '(name, v) => set_field name v d) l d
  | Inc name n =>
      set_field name (BInt64 (match field name d with Some (BInt64 z) => (z + n)%Z | _ => n end)) d
  end.

(** ** Commands

    [Find] returns the documents and what [cursor.Err] says after them; the
    counts are [MatchedCount] and [DeletedCount]. [ReplaceOne] is with the option
    to insert. *)
Inductive command : Type -> Type :=
| InsertOne (collection : string) (d : document) : command unit
| InsertMany (collection : string) (l : list document) : command unit
| FindOne (collection : string) (f : filter) : command document
| Find (collection : string) (f : filter) (sort_desc : option string) : command (list document * result unit)
| FindOneAndUpdate (collection : string) (f : filter) (u : update) (after : bool) : command document
| FindOneAndDelete (collection : string) (f : filter) : command document
| UpdateOne (collection : string) (f : filter) (u : update) : command nat
| UpdateMany (collection : string) (f : filter) (u : update) : command nat
| ReplaceOne (collection : string) (f : filter) (d : document) : command unit
| DeleteOne (collection : string) (f : filter) : command nat
| DeleteMany (collection : string) (f : filter) : command nat
| CountDocuments (collection : string) (f : filter) : command nat.

Definition ErrNoDocuments : error := New "mongo.ErrNoDocuments".
Definition DuplicateKeyError : error := New "mongo.DuplicateKeyError".
Definition IsDuplicateKeyError (err : error) : bool := errors_Is err DuplicateKeyError.

(** A unique index, and whether it leaves documents without the field alone. *)
Record index : Type := mkIndex { index_keys : list string; unique : bool; sparse : bool }.

Definition documents (db : database) (collection : string) : list document := default [] (db !! collection).

(** A stable sort, the latest first. *)
Fixpoint insert_desc (name : string) (d : document) (l : list document) : list document :=
  match l with
  | [] => [d]
  | d' :: l' =>
      match field name d, field name d' with
      | Some v, Some v' => if before v v' then d' :: insert_desc name d l' else d :: l
      | _, _ => d :: l
      end
  end.
Definition sorted_desc (sort_desc : option string) (l : list document) : list document :=
  match sort_desc with Some name => fold_right (insert_desc name) [] l | None => l end.

Section Server.
Context (indexes : string -> list index) (now : time).

Definition key_of (keys : list string) (d : document) : list (option bson) := (fun name => field name d) <$> keys.

Definition distinct (l : list document) (i : index) : bool :=
  negb (unique i) ||
  bool_decide (NoDup (List.filter (fun k => negb (sparse i && forallb (fun v => bool_decide (v = None)) k)) (key_of (index_keys i) <$> l))).

(** Every collection has a unique index on [_id]; the client gives a new one to
    a document without it. *)
Definition well_indexed (collection : string) (l : list document) : bool :=
  forallb (distinct l) (mkIndex ["_id"] true true :: indexes collection).

Definition checked {A} (a : A) (collection : string) (l : list document) (db : database) : result A * database :=
  if well_indexed collection l then (Ok a, <[collection := l]> db) else (Err DuplicateKeyError, db).

(** Change the first document that a filter selects. *)
Fixpoint change_first (f : filter) (change : document -> list document) (l : list document) : list document :=
  match l with
  | [] => []
  | d :: l => if matches now f d then change d ++ l else d :: change_first f change l
  end.

Definition find_first (f : filter) (l : list document) : result document :=
  match List.find (matches now f) l with Some d => Ok d | None => Err ErrNoDocuments end.

Definition count (f : filter) (l : list document) : nat := length (List.filter (matches now f) l).

Definition execute {A} (c : command A) (db : database) : result A * database :=
  match c in command A return result A * database with
  | InsertOne collection d => checked tt collection (documents db collection ++ [d]) db
  | InsertMany collection l => checked tt collection (documents db collection ++ l) db
  | FindOne collection f => (find_first f (documents db collection), db)
  | Find collection f sort => (Ok (sorted_desc sort (List.filter (matches now f) (documents db collection)), Ok tt), db)
  | FindOneAndUpdate collection f u after =>
      let l := documents db collection in
      match List.find (matches now f) l with
      | None => (Err ErrNoDocuments, db)
      | Some d => checked (if after then updated u d else d) collection (change_first f (fun d => [updated u d]) l) db
      end
  | FindOneAndDelete collection f =>
      let l := documents db collection in
      match List.find (matches now f) l with
      | None => (Err ErrNoDocuments, db)
      | Some d => (Ok d, <[collection := change_first f (fun _ => []) l]> db)
      end
  | UpdateOne collection f u =>
      let l := documents db collection in
      checked (Nat.min 1 (count f l)) collection (change_first f (fun d => [updated u d]) l) db
  | UpdateMany collection f u =>
      let l := documents db collection in
      checked (count f l) collection ((fun d => if matches now f d then updated u d else d) <$> l) db
  | ReplaceOne collection f d =>
      let l := documents db collection in
      checked tt collection (if (count f l =? 0)%nat then l ++ [d] else change_first f (fun _ => [d]) l) db
  | DeleteOne collection f =>
      let l := documents db collection in
      (Ok (Nat.min 1 (count f l)), <[collection := change_first f (fun _ => []) l]> db)
  | DeleteMany collection f =>
      let l := documents db collection in
      (Ok (count f l), <[collection := List.filter (fun d => negb (matches now f d)) l]> db)
  | CountDocuments collection f => (Ok (count f (documents db collection)), db)
  end.
End Server.

(** ** The library go.mongodb.org/mongo-driver

    How commands are run, outside and inside a transaction. [WithTransaction]
    runs a function in a transaction, again when a conflict aborts it; the
    function may assign variables of its caller, of type [L]. *)
Record Runner (S : Type) : Type := mkRunner { run : forall A : Type, command A -> M S (result A) }.
Arguments run {S} _ {A}. Arguments mkRunner {S}.

Record Client (S : Type) : Type := mkClient {
  plain : Runner S;
  CreateMany : string -> list index -> M S (result unit);
  StartSession : M S (result unit);
  WithTransaction : forall L : Type, (Runner S -> L -> M S (L * result unit)) -> L -> M S (L * result unit);
}.
Arguments plain {S}. Arguments CreateMany {S}. Arguments StartSession {S}. Arguments WithTransaction {S} _ {L}.
Arguments mkClient {S}.

(** [Decode]: a field that is not there leaves the zero value. *)
Definition ErrDecode : error := New "bson.ErrDecode".

Definition get_string (name : string) (d : document) : result string :=
  match field name d with None => Ok "" | Some (BString s) => Ok s | _ => Err ErrDecode end.
Definition get_binary (name : string) (d : document) : result string :=
  match field name d with None => Ok "" | Some (BBinary s) => Ok s | _ => Err ErrDecode end.
Definition get_time (name : string) (d : document) : result time :=
  match field name d with None => Ok 0%Z | Some (BDateTime t) => Ok t | _ => Err ErrDecode end.
Definition get_optional_time (name : string) (d : document) : result (option time) :=
  match field name d with None => Ok None | Some (BDateTime t) => Ok (Some t) | _ => Err ErrDecode end.
Definition get_bool (name : string) (d : document) : result bool :=
  match field name d with None => Ok false | Some (BBoolean b) => Ok b | _ => Err ErrDecode end.
Definition get_strings (name : string) (d : document) : result (list string) :=
  match field name d with None => Ok [] | Some (BArray l) => Ok l | _ => Err ErrDecode end.
Definition get_optional_int64 (name : string) (d : document) : result (option Z) :=
  match field name d with None => Ok None | Some (BInt64 z) => Ok (Some z) | _ => Err ErrDecode end.

Notation "x <-! r ; k" := (match r with Ok x => k | Err err => Err err end)
  (at level 100, r at next level, right associativity) : go_scope.

(** [.Decode(&document)] of what a command returned, and [cursor.All]. *)
Definition decoded {A B} (decode : A -> result B) (r : result A) : result B := d <-! r; decode d.

Fixpoint decode_all {A} (decode : document -> result A) (l : list document) : result (list A) :=
  match l with
  | [] => Ok []
  | d :: l => a <-! decode d; l <-! decode_all decode l; Ok (a :: l)
  end.

Definition cursor_All {A} (decode : document -> result A) (r : result (list document * result unit)) : result (list A) :=
  found <-! r;
  let '(l, cursor_Err) := found in
  documents <-! decode_all decode l; _ <-! cursor_Err; Ok documents.

(** ** The adapter *)
Definition ErrInvalidConfig : error := New "mongodb.ErrInvalidConfig".

Record SecretCodec (S : Type) : Type := mkSecretCodec {
  Encrypt : string -> M S (result string);
  Decrypt : string -> M S (result string);
}.
Arguments Encrypt {S}. Arguments Decrypt {S}.

Record Config (S : Type) : Type := mkConfig { Secrets : option (SecretCodec S) }.
Arguments Secrets {S}.

(** The client is that of the database. *)
Record Adapter (S : Type) : Type := mkAdapter { client : Client S; secrets : option (SecretCodec S) }.
Arguments client {S}. Arguments secrets {S}. Arguments mkAdapter {S}.

Definition usersCollection : string := "authlier_users".
Definition passwordsCollection : string := "authlier_password_credentials".
Definition googleIdentitiesCollection : string := "authlier_google_identities".
Definition emailVerificationsCollection : string := "authlier_email_verifications".
Definition passwordResetsCollection : string := "authlier_password_resets".
Definition sessionsCollection : string := "authlier_sessions".
Definition accessSessionsCollection : string := "authlier_access_sessions".
Definition refreshTokensCollection : string := "authlier_refresh_tokens".
Definition googleChallengesCollection : string := "authlier_google_challenges".
Definition oidcChallengesCollection : string := "authlier_oidc_challenges".
Definition samlRequestsCollection : string := "authlier_saml_requests".
Definition totpEnrollmentsCollection : string := "authlier_totp_enrollments".
Definition totpCredentialsCollection : string := "authlier_totp_credentials".
Definition totpRecoveryCodesCollection : string := "authlier_totp_recovery_codes".
Definition totpChallengesCollection : string := "authlier_totp_challenges".
Definition passkeyCredentialsCollection : string := "authlier_passkey_credentials".
Definition passkeyCeremoniesCollection : string := "authlier_passkey_ceremonies".

(** [client.Database(databaseName)] is a parameter. *)
Definition New_ {S C} (Database : C -> string -> Client S) (client : option C) (databaseName : string) (config : Config S) :
    result (Adapter S) :=
  match client with
  | None => Err (Errorf "%w: client and database name are required" [ErrInvalidConfig])
  | Some client =>
      if String.eqb (TrimSpace databaseName) "" then Err (Errorf "%w: client and database name are required" [ErrInvalidConfig])
      else Ok (mkAdapter (Database client databaseName) (Secrets config))
  end.

(** The map of [Migrate], in one order of its keys. *)
Definition unique_index (keys : list string) : index := mkIndex keys true false.
Definition plain_index (keys : list string) : index := mkIndex keys false false.

Definition indexes : list (string * list index) :=
  [("authlier_users", [unique_index ["email"]; unique_index ["webauthn_handle"]]);
   ("authlier_google_identities", [plain_index ["user_id"]]);
   ("authlier_email_verifications", [unique_index ["token_hash"]]);
   ("authlier_password_resets", [unique_index ["token_hash"]]);
   ("authlier_sessions", [mkIndex ["session_id"] true true; plain_index ["subject_id"; "created_at"]]);
   ("authlier_access_sessions", [plain_index ["subject_id"; "created_at"]]);
   ("authlier_refresh_tokens", [plain_index ["session_id"]]);
   ("authlier_totp_recovery_codes", [unique_index ["subject_id"; "code_hash"]]);
   ("authlier_passkey_credentials", [plain_index ["subject_id"]])].

Definition indexes_of (collection : string) : list index :=
  match List.find (fun '(name, _) => String.eqb name collection) indexes with Some (_, l) => l | None => [] end.

Definition duplicateKey (err : error) : bool := IsDuplicateKeyError err.

(** [if duplicateKey(err) { return conflict }; return err], and
    [if errors.Is(err, mongo.ErrNoDocuments) { return absent }; return err] *)
Definition conflicting {A} (conflict : error) (r : result A) : result A :=
  match r with
  | Err err => if duplicateKey err then Err conflict else Err err
  | Ok a => Ok a
  end.

Definition or_absent {A} (absent : error) (r : result A) : result A :=
  match r with
  | Err err => if errors_Is err ErrNoDocuments then Err absent else Err err
  | Ok a => Ok a
  end.

Definition ignored {A} (r : result A) : result unit := match r with Ok _ => Ok tt | Err e => Err e end.

(** [if err == nil && result.MatchedCount == 0 { return none }; return err] *)
Definition some_matched (none : error) (r : result nat) : result unit :=
  match r with
  | Ok n => if (n =? 0)%nat then Err none else Ok tt
  | Err err => Err err
  end.

Section Adapter.
Context {S : Type} (adapter : Adapter S).

(** [order]: that in which the range visits the map. *)
Definition Migrate (order : list (string * list index)) : M S (result unit) :=
  for_each order tt
    (fun '(collection, models) _ =>
       r <- wrapped "create %s indexes: %w" (CreateMany (client adapter) collection models) ;;
       match r with
       | Err err => ret (Return (Err err))
       | Ok _ => ret (Next tt)
       end)
    (fun _ => ret (Ok tt)).

Definition transaction {L} (operation : Runner S -> L -> M S (L * result unit)) (l : L) : M S (L * result unit) :=
  r <- StartSession (client adapter) ;;
  match r with
  | Err err => ret (l, Err err)
  | Ok _ => WithTransaction (client adapter) operation l
  end.

(** A function that assigns no variable of its caller. *)
Definition in_transaction (operation : Runner S -> M S (result unit)) : M S (result unit) :=
  r <- transaction (fun tx _ => r <- operation tx ;; ret (tt, r)) tt ;;
  ret r.2.

(** A function that assigns its result at its end, and [return result, err] *)
Definition returning {L} (r : L * result unit) : result L :=
  match r.2 with Ok _ => Ok r.1 | Err err => Err err end.

Definition transaction_of {L} (operation : Runner S -> M S (result L)) (zero : L) : M S (result L) :=
  r <- transaction (fun tx l =>
    r <- operation tx ;;
    ret match r with Ok a => (a, Ok tt) | Err err => (l, Err err) end) zero ;;
  ret (returning r).
End Adapter.

(** ** Sessions *)
Section Sessions.
Import SessionToken.

Definition sessionDocumentFrom (record : SessionRecord) : document :=
  [("_id", BBinary (TokenHash record)); ("session_id", BString (ID record)); ("subject_id", BString (SubjectID record));
   ("created_at", datetime (CreatedAt record)); ("expires_at", datetime (ExpiresAt record))] ++
  omitempty "extended_at" datetime (ExtendedAt record) ++ omitempty "revoked_at" datetime (RevokedAt record).

(** [Decode(&document)] and [document.record()] *)
Definition session_record (d : document) : result SessionRecord :=
  hash <-! get_binary "_id" d;
  id <-! get_string "session_id" d;
  subjectID <-! get_string "subject_id" d;
  createdAt <-! get_time "created_at" d;
  expiresAt <-! get_time "expires_at" d;
  extendedAt <-! get_optional_time "extended_at" d;
  revokedAt <-! get_optional_time "revoked_at" d;
  Ok (mkRecord id subjectID hash createdAt expiresAt extendedAt revokedAt).

Context {S : Type} (adapter : Adapter S).

Definition SessionStore_Create (record : SessionRecord) : M S (result unit) :=
  r <- run (plain (client adapter)) (InsertOne sessionsCollection (sessionDocumentFrom record)) ;;
  ret (conflicting ErrConflict r).

Definition SessionStore_FindByTokenHash (tokenHash : Hash) : M S (result SessionRecord) :=
  r <- run (plain (client adapter)) (FindOne sessionsCollection (Eq "_id" (BBinary tokenHash))) ;;
  ret (or_absent ErrNotFound (decoded session_record r)).

Definition SessionStore_ListBySubject (subjectID : string) : M S (result (list SessionRecord)) :=
  r <- run (plain (client adapter)) (Find sessionsCollection (Eq "subject_id" (BString subjectID)) (Some "created_at")) ;;
  ret (cursor_All session_record r).

Definition SessionStore_Extend (tokenHash : Hash) (extendedAt expiresAt : time) : M S (result SessionRecord) :=
  r <- run (plain (client adapter))
    (FindOneAndUpdate sessionsCollection
       (And [Eq "_id" (BBinary tokenHash); missing "revoked_at"; Gt "expires_at" (datetime extendedAt);
             Lt "expires_at" (datetime expiresAt)])
       (SetFields [("extended_at", datetime extendedAt); ("expires_at", datetime expiresAt)]) true) ;;
  ret (or_absent ErrInactive (decoded session_record r)).

Definition set_revoked (revokedAt : time) : update := SetFields [("revoked_at", datetime revokedAt)].

Definition SessionStore_Rotate (current : Hash) (replacement : SessionRecord) (rotatedAt : time) : M S (result unit) :=
  in_transaction adapter (fun tx =>
    r <- run tx (FindOne sessionsCollection (Eq "_id" (BBinary current))) ;;
    match or_absent ErrNotFound (decoded session_record r) with
    | Err err => ret (Err err)
    | Ok currentDocument =>
        if negb (bool_decide (RevokedAt currentDocument = None)) || negb (Before rotatedAt (ExpiresAt currentDocument))
        then ret (Err ErrInactive) else
        r <- run tx (InsertOne sessionsCollection (sessionDocumentFrom replacement)) ;;
        match conflicting ErrConflict r with
        | Err err => ret (Err err)
        | Ok _ =>
            r <- run tx (UpdateOne sessionsCollection (And [Eq "_id" (BBinary current); missing "revoked_at"])
                           (set_revoked rotatedAt)) ;;
            ret (ignored r)
        end
    end).

Definition SessionStore_Revoke (tokenHash : Hash) (revokedAt : time) : M S (result unit) :=
  r <- run (plain (client adapter))
    (UpdateOne sessionsCollection (And [Eq "_id" (BBinary tokenHash); missing "revoked_at"]) (set_revoked revokedAt)) ;;
  match r with
  | Err err => ret (Err err)
  | Ok n =>
      if negb (n =? 0)%nat then ret (Ok tt) else
      r <- run (plain (client adapter)) (FindOne sessionsCollection (Eq "_id" (BBinary tokenHash))) ;;
      ret (or_absent ErrNotFound (ignored r))
  end.

(** [if documents[index].RevokedAt == nil { documents[index].RevokedAt = &revokedAt }] *)
Definition mark_revoked (revokedAt : time) (record : SessionRecord) : SessionRecord :=
  match RevokedAt record with
  | Some _ => record
  | None => mkRecord (ID record) (SubjectID record) (TokenHash record) (CreatedAt record) (ExpiresAt record)
              (ExtendedAt record) (Some revokedAt)
  end.

Definition SessionStore_RevokeAll (subjectID : string) (revokedAt : time) : M S (result (list SessionRecord)) :=
  transaction_of adapter (fun tx =>
    r <- run tx (Find sessionsCollection (Eq "subject_id" (BString subjectID)) None) ;;
    match cursor_All session_record r with
    | Err err => ret (Err err)
    | Ok documents =>
        _ <-? run tx (UpdateMany sessionsCollection (And [Eq "subject_id" (BString subjectID); missing "revoked_at"])
                        (set_revoked revokedAt)) ;;
        ret (Ok (mark_revoked revokedAt <$> documents))
    end) [].

Definition SessionStore : Store S :=
  {| store_Create := SessionStore_Create;
     store_FindByTokenHash := SessionStore_FindByTokenHash;
     store_ListBySubject := SessionStore_ListBySubject;
     store_Extend := SessionStore_Extend;
     store_Rotate := SessionStore_Rotate;
     store_Revoke := SessionStore_Revoke;
     store_RevokeAll := SessionStore_RevokeAll |}.
End Sessions.

(** ** Access sessions and refresh tokens *)
Section Bearer.
Import BearerSession RefreshToken.

Definition accessSessionDocument (session : AccessSession) : document :=
  [("_id", BString (as_ID session)); ("subject_id", BString (as_SubjectID session));
   ("created_at", datetime (as_CreatedAt session)); ("expires_at", datetime (as_ExpiresAt session))] ++
  omitempty "revoked_at" datetime (as_RevokedAt session).

Definition access_record (d : document) : result AccessSession :=
  id <-! get_string "_id" d;
  subjectID <-! get_string "subject_id" d;
  createdAt <-! get_time "created_at" d;
  expiresAt <-! get_time "expires_at" d;
  revokedAt <-! get_optional_time "revoked_at" d;
  Ok (mkAccess id subjectID createdAt expiresAt revokedAt).

Definition refreshDocumentFrom (record : RefreshRecord) : document :=
  [("_id", BBinary (TokenHash record)); ("session_id", BString (SessionID record));
   ("created_at", datetime (CreatedAt record)); ("expires_at", datetime (ExpiresAt record))] ++
  omitempty "rotated_at" datetime (RotatedAt record) ++ omitempty "revoked_at" datetime (RevokedAt record).

Definition refresh_record (d : document) : result RefreshRecord :=
  hash <-! get_binary "_id" d;
  sessionID <-! get_string "session_id" d;
  createdAt <-! get_time "created_at" d;
  expiresAt <-! get_time "expires_at" d;
  rotatedAt <-! get_optional_time "rotated_at" d;
  revokedAt <-! get_optional_time "revoked_at" d;
  Ok (mkRefresh sessionID hash createdAt expiresAt rotatedAt revokedAt).

Context {S : Type} (adapter : Adapter S).

Definition AccessSessionStore_CreateSession (session : AccessSession) (refreshToken : RefreshRecord) : M S (result unit) :=
  in_transaction adapter (fun tx =>
    _ <-? run tx (InsertOne accessSessionsCollection (accessSessionDocument session)) ;;
    run tx (InsertOne refreshTokensCollection (refreshDocumentFrom refreshToken))).

Definition AccessSessionStore_ResolveSession (sessionID : string) : M S (result AccessToken.Session) :=
  r <- run (plain (client adapter))
    (FindOne accessSessionsCollection (And [Eq "_id" (BString sessionID); missing "revoked_at"; AfterNow "expires_at"])) ;;
  ret (document <-! decoded access_record r;
       Ok (AccessToken.mkSession (as_ID document) (as_SubjectID document) (as_CreatedAt document) (as_ExpiresAt document))).

Definition AccessSessionStore_ListBySubject (subjectID : string) : M S (result (list AccessSession)) :=
  r <- run (plain (client adapter)) (Find accessSessionsCollection (Eq "subject_id" (BString subjectID)) (Some "created_at")) ;;
  ret (cursor_All access_record r).

Definition revokeAccessSession (tx : Runner S) (sessionID : string) (revokedAt : time) : M S (result unit) :=
  _ <-? run tx (UpdateOne accessSessionsCollection (And [Eq "_id" (BString sessionID); missing "revoked_at"])
                  (set_revoked revokedAt)) ;;
  r <- run tx (UpdateMany refreshTokensCollection (And [Eq "session_id" (BString sessionID); missing "revoked_at"])
                 (set_revoked revokedAt)) ;;
  ret (ignored r).

Definition AccessSessionStore_Revoke (sessionID : string) (revokedAt : time) : M S (result unit) :=
  in_transaction adapter (fun tx => revokeAccessSession tx sessionID revokedAt).

(** The projection leaves the other fields out of the documents, which are not
    looked at. *)
Definition AccessSessionStore_RevokeAll (subjectID : string) (revokedAt : time) : M S (result unit) :=
  in_transaction adapter (fun tx =>
    r <- run tx (Find accessSessionsCollection (Eq "subject_id" (BString subjectID)) None) ;;
    match cursor_All (get_string "_id") r with
    | Err err => ret (Err err)
    | Ok ids =>
        r <- (if (0 <? length ids)%nat
              then run tx (UpdateMany refreshTokensCollection (And [In_ "session_id" ids; missing "revoked_at"])
                             (set_revoked revokedAt))
              else ret (Ok 0)) ;;
        match r with
        | Err err => ret (Err err)
        | Ok _ =>
            r <- run tx (UpdateMany accessSessionsCollection (And [Eq "subject_id" (BString subjectID); missing "revoked_at"])
                           (set_revoked revokedAt)) ;;
            ret (ignored r)
        end
    end).

Definition RefreshTokenStore_Create (record : RefreshRecord) : M S (result unit) :=
  r <- run (plain (client adapter)) (InsertOne refreshTokensCollection (refreshDocumentFrom record)) ;;
  ret (conflicting ErrConflict r).

Definition RefreshTokenStore_FindByTokenHash (tokenHash : Hash) : M S (result RefreshRecord) :=
  r <- run (plain (client adapter)) (FindOne refreshTokensCollection (Eq "_id" (BBinary tokenHash))) ;;
  ret (or_absent ErrNotFound (decoded refresh_record r)).

(** [reused] keeps its value when the transaction runs again. *)
Definition rotate_transaction (current : Hash) (replacement : RefreshRecord) (rotatedAt : time) (tx : Runner S)
    (reused : bool) : M S (bool * result unit) :=
  r <- run tx (FindOne refreshTokensCollection (Eq "_id" (BBinary current))) ;;
  match or_absent ErrNotFound (decoded refresh_record r) with
  | Err err => ret (reused, Err err)
  | Ok document =>
      if negb (bool_decide (RotatedAt document = None)) || negb (bool_decide (RevokedAt document = None)) ||
         negb (Before rotatedAt (ExpiresAt document))
      then
        r <- revokeAccessSession tx (SessionID document) rotatedAt ;;
        ret (true, r)
      else
        r <- run tx (InsertOne refreshTokensCollection (refreshDocumentFrom replacement)) ;;
        match conflicting ErrConflict r with
        | Err err => ret (reused, Err err)
        | Ok _ =>
            r <- run tx (UpdateOne refreshTokensCollection (And [Eq "_id" (BBinary current); missing "rotated_at"])
                           (SetFields [("rotated_at", datetime rotatedAt)])) ;;
            ret (reused, ignored r)
        end
  end.

Definition RefreshTokenStore_Rotate (current : Hash) (replacement : RefreshRecord) (rotatedAt : time) : M S (result unit) :=
  r <- transaction adapter (rotate_transaction current replacement rotatedAt) false ;;
  match r with
  | (true, Ok _) => ret (Err ErrReuseDetected)
  | (_, r) => ret r
  end.

Definition RefreshTokenStore_RevokeSession (sessionID : string) (revokedAt : time) : M S (result unit) :=
  in_transaction adapter (fun tx => revokeAccessSession tx sessionID revokedAt).

Definition RefreshTokenStore : RefreshToken.Store S :=
  {| store_Create := RefreshTokenStore_Create;
     store_FindByTokenHash := RefreshTokenStore_FindByTokenHash;
     store_Rotate := RefreshTokenStore_Rotate;
     store_RevokeSession := RefreshTokenStore_RevokeSession |}.

Definition AccessSessionStore_ : AccessSessionStore S :=
  {| access_ResolveSession := AccessSessionStore_ResolveSession;
     access_CreateSession := AccessSessionStore_CreateSession;
     access_ListBySubject := AccessSessionStore_ListBySubject;
     access_Revoke := AccessSessionStore_Revoke;
     access_RevokeAll := AccessSessionStore_RevokeAll |}.
End Bearer.

(** ** What the server promises

    The state behind the client is the committed database and, in a transaction,
    the database as the transaction sees it, if it still can be used. *)
Record connection : Type := mkConnection {
  committed : database;
  current : option (option database);
}.

(** The answer of a call that the server does not answer to its end. *)
Definition cut_off {A} (c : command A) : result A -> Prop :=
  match c in command A return result A -> Prop with
  | Find _ _ _ => fun res => match res with Ok (_, Ok _) => False | _ => True end
  | _ => fun res => is_ok res = false
  end.

(** The instant at which a command takes effect is the server's; a command that
    fails changes nothing. *)
Definition answers {A} (c : command A) (db : database) (res : result A) (db' : database) : Prop :=
  (exists now, execute indexes_of now c db = (res, db')) \/ (db' = db /\ cut_off c res).

Section Contract.
Context {S : Type} (conn : S -> connection).

Definition idle (db : database) (w : World S) : Prop := conn (ext w) = mkConnection db None.
Definition inside (db0 db : database) (w : World S) : Prop := conn (ext w) = mkConnection db0 (Some (Some db)).
Definition broken (db0 : database) (w : World S) : Prop := committed (conn (ext w)) = db0.

Lemma mongo_inside_broken db0 db w : inside db0 db w -> broken db0 w.
Proof. unfold inside, broken. by intros ->. Qed.

(** The call is over; [P] holds of its result and of the committed database. *)
Definition leaves {A} (P : result A -> database -> Prop) (r : result A) (w : World S) : Prop :=
  exists db, idle db w /\ P r db.

(** A command in a transaction; after a failure other than the lack of documents
    the transaction may be of no use. *)
Class TxRunner (tx : Runner S) : Prop := {
  tx_run_ok A (c : command A) db0 db w : inside db0 db w ->
    wp (run tx c) (fun res w' =>
      (exists now db', execute indexes_of now c db = (res, db') /\ inside db0 db' w') \/
      (broken db0 w' /\ (cut_off c res \/ res = Err DuplicateKeyError))) w;
}.

(** [WithTransaction] runs its function any number of times, each time from the
    committed database, and commits what it leaves when it returns no error. *)
Class ClientContract (client : Client S) : Prop := {
  run_ok A (c : command A) db w : idle db w ->
    wp (run (plain client) c) (fun res w' => exists db', answers c db res db' /\ idle db' w') w;
  StartSession_ok db w : idle db w -> wp (StartSession client) (fun _ w' => idle db w') w;
  WithTransaction_ok (L : Type) (f : Runner S -> L -> M S (L * result unit)) (I : L -> Prop) (P : L -> database -> Prop) l db w :
    idle db w -> I l ->
    (forall tx l w', TxRunner tx -> I l -> inside db db w' ->
       wp (f tx l) (fun r w' => I r.1 /\
         match r.2 with
         | Ok _ => exists db', inside db db' w' /\ P r.1 db'
         | Err _ => broken db w'
         end) w') ->
    wp (WithTransaction client f l) (fun r w' => I r.1 /\
      match r.2 with
      | Ok _ => exists db', idle db' w' /\ P r.1 db'
      | Err _ => idle db w'
      end) w;
}.

Context (adapter : Adapter S) `{!ClientContract (client adapter)}.

Lemma mongo_wp_run {A} (c : command A) db w (Q : result A -> World S -> Prop) : idle db w ->
  (forall now res db' w', execute indexes_of now c db = (res, db') -> idle db' w' -> Q res w') ->
  (forall res w', cut_off c res -> idle db w' -> Q res w') ->
  wp (run (plain (client adapter)) c) Q w.
Proof.
  intros Hw Hok Hcut. eapply wp_mono; [by apply run_ok|]. intros res w' (db' & [[now He]|[-> Hc]] & Hw'); eauto.
Qed.

Lemma wp_tx_run {A} tx (c : command A) db0 db w (Q : result A -> World S -> Prop) : TxRunner tx -> inside db0 db w ->
  (forall now res db' w', execute indexes_of now c db = (res, db') -> inside db0 db' w' -> Q res w') ->
  (forall res w', cut_off c res \/ res = Err DuplicateKeyError -> broken db0 w' -> Q res w') ->
  wp (run tx c) Q w.
Proof.
  intros Htx Hw Hok Hcut. eapply wp_mono; [by apply tx_run_ok|]. intros res w' [(now & db' & He & Hw')|[Hw' Hr]]; eauto.
Qed.

Lemma wp_in_transaction (f : Runner S -> M S (result unit)) (P : database -> Prop) db w : idle db w ->
  (forall tx w', TxRunner tx -> inside db db w' ->
     wp (f tx) (fun r w' => match r with Ok _ => exists db', inside db db' w' /\ P db' | Err _ => broken db w' end) w') ->
  wp (in_transaction adapter f) (leaves (fun r db' => match r with Ok _ => P db' | Err _ => db' = db end)) w.
Proof.
  intros Hw Hf. unfold in_transaction, transaction. wp_go. eapply wp_mono; [by apply StartSession_ok|].
  intros [[]|e] w1 Hw1; wp_go; [|by exists db].
  eapply wp_mono; [apply (WithTransaction_ok unit _ (fun _ => True) (fun _ => P) tt db w1 Hw1 I)|].
  - intros tx [] w2 Htx _ Hw2. wp_go. eapply wp_mono; [by apply Hf|]. intros r w3 Hw3. by wp_go.
  - intros [[] r] w2 [_ Hw2]. wp_go. simpl in *. destruct r as [[]|e]; [|by exists db]. destruct Hw2 as (db' & Hw2 & HP).
    by exists db'.
Qed.

Lemma wp_transaction_of {L} (f : Runner S -> M S (result L)) (P : L -> database -> Prop) zero db w : idle db w ->
  (forall tx w', TxRunner tx -> inside db db w' ->
     wp (f tx) (fun r w' => match r with Ok l => exists db', inside db db' w' /\ P l db' | Err _ => broken db w' end) w') ->
  wp (transaction_of adapter f zero) (leaves (fun r db' => match r with Ok l => P l db' | Err _ => db' = db end)) w.
Proof.
  intros Hw Hf. unfold transaction_of, transaction. wp_go. eapply wp_mono; [by apply StartSession_ok|].
  intros [[]|e] w1 Hw1; wp_go; [|by exists db].
  eapply wp_mono; [apply (WithTransaction_ok L _ (fun _ => True) P zero db w1 Hw1 I)|].
  - intros tx l w2 Htx _ Hw2. wp_go. eapply wp_mono; [by apply Hf|]. intros r w3 Hw3. wp_go. by destruct r.
  - intros [l r] w2 [_ Hw2]. wp_go. unfold returning. simpl in *. destruct r as [[]|e]; [|by exists db].
    destruct Hw2 as (db' & Hw2 & HP). by exists db'.
Qed.
End Contract.
#[export] Hint Resolve mongo_inside_broken : core.

(** ** Sessions as records *)
Section SessionDocuments.
Import SessionToken SessionSpec.

Lemma milliseconds_idem t : milliseconds (milliseconds t) = milliseconds t.
Proof.
  unfold milliseconds. pose proof (Z.div_mod t 1000000). replace (t - t mod 1000000)%Z with (t / 1000000 * 1000000)%Z by lia.
  rewrite Z.mod_mul; lia.
Qed.
Lemma datetime_milliseconds t : datetime (milliseconds t) = datetime t.
Proof. unfold datetime. by rewrite milliseconds_idem. Qed.

(** What a document keeps of a record. *)
Definition stored_session (r : SessionRecord) : SessionRecord :=
  mkRecord (ID r) (SubjectID r) (TokenHash r) (milliseconds (CreatedAt r)) (milliseconds (ExpiresAt r))
    (milliseconds <$> ExtendedAt r) (milliseconds <$> RevokedAt r).

Lemma session_record_from r : session_record (sessionDocumentFrom r) = Ok (stored_session r).
Proof. by destruct r as [? ? ? ? ? [] []]. Qed.
Lemma document_stored r : sessionDocumentFrom (stored_session r) = sessionDocumentFrom r.
Proof.
  destruct r as [? ? ? c e x v]. unfold sessionDocumentFrom, stored_session. simpl. rewrite !datetime_milliseconds.
  destruct x, v; simpl; by rewrite ?datetime_milliseconds.
Qed.
Lemma stored_idem r : stored_session (stored_session r) = stored_session r.
Proof.
  destruct r as [? ? ? c e x v]. unfold stored_session. simpl. rewrite !milliseconds_idem.
  destruct x, v; simpl; by rewrite ?milliseconds_idem.
Qed.

Definition ok_of {A} (r : result A) : option A := match r with Ok a => Some a | Err _ => None end.
Definition sessions_in (db : database) : list SessionRecord :=
  omap (fun d => ok_of (session_record d)) (documents db sessionsCollection).
Definition sessions_of (db : database) : gmap string SessionRecord := Sql.by_key TokenHash (sessions_in db).

(** The documents are those of records, one for a hash. *)
Definition filed (db : database) : Prop :=
  documents db sessionsCollection = sessionDocumentFrom <$> sessions_in db /\
  Forall (fun a => stored_session a = a) (sessions_in db) /\ NoDup (TokenHash <$> sessions_in db).

Lemma filed_rows rows db : documents db sessionsCollection = sessionDocumentFrom <$> rows ->
  Forall (fun a => stored_session a = a) rows -> NoDup (TokenHash <$> rows) -> filed db /\ sessions_in db = rows.
Proof.
  intros Hdocs Hall Hnd. assert (Hin : sessions_in db = rows).
  { unfold sessions_in. rewrite Hdocs. clear -Hall. induction Hall as [|a rows Ha _ IH]; [done|]. csimpl.
    rewrite session_record_from. simpl. by rewrite Ha, IH. }
  split; [|done]. unfold filed. by rewrite Hin.
Qed.

Lemma documents_insert db c l : documents (<[c := l]> db) c = l.
Proof. unfold documents. by rewrite lookup_insert_eq. Qed.

Lemma checked_cases {A} (a : A) c l db res db' : checked indexes_of a c l db = (res, db') ->
  (res = Ok a /\ db' = <[c := l]> db /\ well_indexed indexes_of c l = true) \/ (res = Err DuplicateKeyError /\ db' = db).
Proof. unfold checked. destruct (well_indexed indexes_of c l) eqn:E; intros [= <- <-]; auto. Qed.

Lemma well_indexed_hashes rows : well_indexed indexes_of sessionsCollection (sessionDocumentFrom <$> rows) = true ->
  NoDup (TokenHash <$> rows).
Proof.
  unfold well_indexed. simpl. intros Hw. apply andb_true_iff in Hw as [Hd _]. unfold distinct in Hd. simpl in Hd. go_bool.
  apply (NoDup_fmap_1 (fun h => [Some (BBinary h)])). rewrite <- list_fmap_compose.
  match goal with H : NoDup ?l |- NoDup ?l' => replace l' with l; [exact H|] end. clear.
  induction rows as [|a rows IH]; [done|]. csimpl. by f_equal.
Qed.

(** *** Filters and updates on the documents of sessions *)
Lemma mongo_match_hash now h a : matches now (Eq "_id" (BBinary h)) (sessionDocumentFrom a) = bool_decide (TokenHash a = h).
Proof. simpl. apply bool_decide_ext. naive_solver. Qed.
Lemma mongo_match_subject now s a : matches now (Eq "subject_id" (BString s)) (sessionDocumentFrom a) = bool_decide (SubjectID a = s).
Proof. simpl. apply bool_decide_ext. naive_solver. Qed.
Lemma match_live now a : matches now (missing "revoked_at") (sessionDocumentFrom a) = bool_decide (RevokedAt a = None).
Proof. by destruct a as [? ? ? ? ? [] []]. Qed.
Lemma matches_And now f l d : matches now (And (f :: l)) d = matches now f d && matches now (And l) d.
Proof. done. Qed.
Lemma matches_And_nil now d : matches now (And []) d = true.
Proof. done. Qed.

Lemma revoke_document at_ a : RevokedAt a = None ->
  updated (set_revoked at_) (sessionDocumentFrom a) = sessionDocumentFrom (revoke_record (milliseconds at_) a).
Proof.
  destruct a as [? ? ? ? ? x v]. simpl. intros ->. unfold sessionDocumentFrom, revoke_record. simpl. rewrite datetime_milliseconds.
  by destruct x.
Qed.
Lemma extend_document at_ expires a : RevokedAt a = None ->
  updated (SetFields [("extended_at", datetime at_); ("expires_at", datetime expires)]) (sessionDocumentFrom a) =
    sessionDocumentFrom (extend_record (milliseconds at_) (milliseconds expires) a).
Proof.
  destruct a as [? ? ? ? ? x v]. simpl. intros ->. unfold sessionDocumentFrom, extend_record. simpl. rewrite !datetime_milliseconds.
  by destruct x.
Qed.

Lemma revoke_stored at_ a : stored_session a = a ->
  stored_session (revoke_record (milliseconds at_) a) = revoke_record (milliseconds at_) a.
Proof.
  destruct a as [? ? ? ? ? x v]. unfold stored_session, revoke_record. simpl. intros [= H1 H2 H3 H4]. f_equal; try done.
  f_equal. destruct v; simpl in *; [by injection H4 as ->|apply milliseconds_idem].
Qed.
Lemma extend_stored at_ expires a : stored_session a = a ->
  stored_session (extend_record (milliseconds at_) (milliseconds expires) a) = extend_record (milliseconds at_) (milliseconds expires) a.
Proof.
  destruct a as [? ? ? ? ? x v]. unfold stored_session, extend_record. simpl. intros [= H1 H2 H3 H4].
  rewrite !milliseconds_idem. by f_equal.
Qed.

Section Rows.
Context (now : time) (f : filter) (p : SessionRecord -> bool) (Hp : forall a, matches now f (sessionDocumentFrom a) = p a).
Context (rows : list SessionRecord).

Lemma filter_documents : List.filter (matches now f) (sessionDocumentFrom <$> rows) = sessionDocumentFrom <$> List.filter p rows.
Proof. by apply Sql.map_filter_comm. Qed.

Lemma count_documents : count now f (sessionDocumentFrom <$> rows) = length (List.filter p rows).
Proof. unfold count. by rewrite filter_documents, length_fmap. Qed.

Context (k : string) (Hnd : NoDup (TokenHash <$> rows)) (Hk : forall a, p a = true -> TokenHash a = k).

Lemma find_document : List.find (matches now f) (sessionDocumentFrom <$> rows) =
  match Sql.by_key TokenHash rows !! k with Some a => if p a then Some (sessionDocumentFrom a) else None | None => None end.
Proof.
  assert (Hfind : forall l, List.find (matches now f) l = head (List.filter (matches now f) l)).
  { induction l as [|d l IH]; [done|]. simpl. by destruct (matches now f d). }
  rewrite Hfind, filter_documents, (Sql.filter_by_key TokenHash p rows k) by done.
  destruct (Sql.by_key TokenHash rows !! k) as [a|]; [|done]. by destruct (p a).
Qed.

Lemma change_document (change : document -> list document) (g : SessionRecord -> SessionRecord) :
  (forall a, p a = true -> change (sessionDocumentFrom a) = [sessionDocumentFrom (g a)]) ->
  change_first now f change (sessionDocumentFrom <$> rows) =
    sessionDocumentFrom <$> ((fun a => if p a then g a else a) <$> rows).
Proof.
  intros Hg. clear -Hp Hnd Hk Hg. induction rows as [|a l IH]; [done|]. csimpl in *. apply list.NoDup_cons in Hnd as [Ha Hl].
  rewrite Hp. destruct (p a) eqn:E; [|by rewrite IH]. rewrite Hg by done. simpl. f_equal.
  rewrite Sql.update_none; [done|]. apply Sql.filter_none. intros b Hb. destruct (p b) eqn:Eb; [|done]. exfalso. apply Ha.
  rewrite (Hk a E), <- (Hk b Eb). by apply list_elem_of_fmap_2.
Qed.
End Rows.

(** The rows after an update of those that [p] selects. *)
Lemma filed_update db db' (p : SessionRecord -> bool) (g : SessionRecord -> SessionRecord) : filed db ->
  documents db' sessionsCollection = sessionDocumentFrom <$> ((fun a => if p a then g a else a) <$> sessions_in db) ->
  (forall a, TokenHash (g a) = TokenHash a) -> (forall a, stored_session a = a -> stored_session (g a) = g a) ->
  filed db' /\ sessions_in db' = (fun a => if p a then g a else a) <$> sessions_in db.
Proof.
  intros (_ & Hall & Hnd) Hdocs Hkey Hg. apply filed_rows; [done| |].
  - apply Forall_fmap. eapply List.Forall_impl; [|exact Hall]. intros a Ha. simpl. destruct (p a); auto.
  - rewrite <- list_fmap_compose. erewrite list_fmap_ext; [exact Hnd|]. intros _ a _. simpl. by destruct (p a).
Qed.

Lemma cursor_All_ok (l : list SessionRecord) found : found ≡ₚ sessionDocumentFrom <$> l ->
  Forall (fun a => stored_session a = a) l ->
  exists l', cursor_All session_record (Ok (found, Ok tt)) = Ok l' /\ l' ≡ₚ l.
Proof.
  intros Hperm Hall. apply Permutation_map_inv in Hperm as (l' & -> & Hl'). exists l'. split; [|by symmetry].
  unfold cursor_All. rewrite Hl' in Hall. clear Hl'. change (map sessionDocumentFrom l') with (sessionDocumentFrom <$> l').
  assert (Hd : decode_all session_record (sessionDocumentFrom <$> l') = Ok l'); [|by rewrite Hd].
  induction Hall as [|a l' Ha _ IH]; [done|]. csimpl. by rewrite session_record_from, Ha, IH.
Qed.

Lemma sorted_desc_Permutation s l : sorted_desc s l ≡ₚ l.
Proof.
  destruct s as [name|]; [|done]. simpl. induction l as [|d l IH]; [done|]. simpl.
  assert (Hins : forall d l, insert_desc name d l ≡ₚ d :: l).
  { clear. intros d l. induction l as [|d' l IH]; [done|]. simpl. destruct (field name d), (field name d'); try done.
    destruct (before _ _); [|done]. rewrite IH. apply Permutation_swap. }
  by rewrite Hins, IH.
Qed.
End SessionDocuments.

(** ** What the calls do to the sessions *)
Section SessionEffects.
Import SessionToken SessionSpec.
Context {S : Type} (adapter : Adapter S) (conn : S -> connection) `{!ClientContract conn (client adapter)}.

Definition has_hash (h : Hash) (a : SessionRecord) : bool := bool_decide (TokenHash a = h).
Definition of_subject (subject : string) (a : SessionRecord) : bool := bool_decide (SubjectID a = subject).
Definition live (a : SessionRecord) : bool := bool_decide (RevokedAt a = None).

Lemma Forall_selected (P : SessionRecord -> Prop) (p : SessionRecord -> bool) l : Forall P l -> Forall P (List.filter p l).
Proof. induction 1 as [|a l Ha _ IH]; simpl; [constructor|]. destruct (p a); [by constructor|done]. Qed.

Lemma mongo_has_hash_key h a : has_hash h a = true -> TokenHash a = h.
Proof. unfold has_hash. intros Hp. by go_bool. Qed.
Lemma live_hash_key h a : has_hash h a && live a = true -> TokenHash a = h.
Proof. unfold has_hash. intros Hp. by go_bool. Qed.

Lemma match_live_hash now h a :
  matches now (And [Eq "_id" (BBinary h); missing "revoked_at"]) (sessionDocumentFrom a) = has_hash h a && live a.
Proof. by rewrite !matches_And, matches_And_nil, mongo_match_hash, match_live, andb_true_r. Qed.
Lemma match_live_subject now s a :
  matches now (And [Eq "subject_id" (BString s); missing "revoked_at"]) (sessionDocumentFrom a) = of_subject s a && live a.
Proof. by rewrite !matches_And, matches_And_nil, mongo_match_subject, match_live, andb_true_r. Qed.

Lemma runs_InsertOne now record db res db' :
  execute indexes_of now (InsertOne sessionsCollection (sessionDocumentFrom record)) db = (res, db') -> filed db ->
  filed db' /\
  match res with
  | Ok _ => sessions_of db !! TokenHash record = None /\
            sessions_of db' = <[TokenHash record := stored_session record]> (sessions_of db)
  | Err _ => db' = db
  end.
Proof.
  simpl. intros [(-> & -> & Hix)|[-> ->]]%checked_cases Hf; [|done]. pose proof Hf as (Hdocs & Hall & Hnd).
  assert (Hrows : documents db sessionsCollection ++ [sessionDocumentFrom record] =
    sessionDocumentFrom <$> (sessions_in db ++ [stored_session record])) by (rewrite Hdocs, fmap_app; csimpl; by rewrite document_stored).
  rewrite Hrows in *. apply well_indexed_hashes in Hix as Hnd'.
  destruct (filed_rows (sessions_in db ++ [stored_session record]) (<[sessionsCollection := sessionDocumentFrom <$> (sessions_in db ++ [stored_session record])]> db)) as [Hf' Hin];
    [by rewrite documents_insert|apply Forall_app; split; [done|by repeat constructor; apply stored_idem]|done|].
  split; [done|]. unfold sessions_of. rewrite Hin. by apply Sql.by_key_app in Hnd'.
Qed.

(** The session at a hash. *)
Lemma runs_FindOne now h db res db' :
  execute indexes_of now (FindOne sessionsCollection (Eq "_id" (BBinary h))) db = (res, db') -> filed db ->
  db' = db /\ res = match sessions_of db !! h with Some a => Ok (sessionDocumentFrom a) | None => Err ErrNoDocuments end.
Proof.
  simpl. intros [= <- <-] (Hdocs & Hall & Hnd). split; [done|]. unfold find_first.
  rewrite Hdocs, (find_document now _ (has_hash h) (mongo_match_hash now h) _ h Hnd (mongo_has_hash_key h)). unfold sessions_of.
  destruct (Sql.by_key TokenHash (sessions_in db) !! h) as [a|] eqn:E; [|done].
  apply Sql.by_key_Some in E as [_ <-]; [|done]. unfold has_hash. by rewrite bool_decide_eq_true_2.
Qed.

Lemma runs_Find now c f s db res db' : execute indexes_of now (Find c f s) db = (res, db') ->
  db' = db /\ res = Ok (sorted_desc s (List.filter (matches now f) (documents db c)), Ok tt).
Proof. by intros [= <- <-]. Qed.

(** What is decoded is what was stored. *)
Lemma decoded_session db h a : filed db -> sessions_of db !! h = Some a -> session_record (sessionDocumentFrom a) = Ok a.
Proof.
  intros (_ & Hall & Hnd) [Ha _]%Sql.by_key_Some; [|done]. rewrite session_record_from.
  rewrite List.Forall_forall in Hall. by rewrite Hall by by apply list_elem_of_In.
Qed.

(** The live session at a hash is revoked. *)
Lemma runs_UpdateOne now h at_ db res db' :
  execute indexes_of now (UpdateOne sessionsCollection (And [Eq "_id" (BBinary h); missing "revoked_at"]) (set_revoked at_)) db = (res, db') ->
  filed db ->
  filed db' /\
  ((exists e, res = Err e /\ db' = db) \/
   (exists a, res = Ok 1 /\ sessions_of db !! h = Some a /\ RevokedAt a = None /\
      sessions_of db' = <[h := revoke_record (milliseconds at_) a]> (sessions_of db)) \/
   (res = Ok 0 /\ sessions_of db' = sessions_of db /\ forall a, sessions_of db !! h = Some a -> RevokedAt a <> None)).
Proof.
  cbn [execute]. intros Hc Hf. pose proof Hf as (Hdocs & Hall & Hnd). rewrite Hdocs in Hc.
  set (p := fun a => has_hash h a && live a) in *.
  rewrite (count_documents now _ p (match_live_hash now h)) in Hc.
  rewrite (change_document now _ p (match_live_hash now h) _ h Hnd (live_hash_key h) _ (revoke_record (milliseconds at_))) in Hc.
  2: { intros a Ha. unfold p, live in Ha. go_bool. by rewrite revoke_document. }
  apply checked_cases in Hc as [(-> & -> & _)|[-> ->]]; [|split; [done|left; by eauto]].
  match goal with |- filed ?d /\ _ => destruct (filed_update db d p (revoke_record (milliseconds at_)) Hf) as [Hf' Hin] end;
    [by rewrite documents_insert|done|apply revoke_stored|].
  split; [done|]. right. unfold sessions_of. rewrite Hin.
  rewrite (Sql.filter_by_key TokenHash p _ h Hnd (live_hash_key h)).
  destruct (Sql.by_key TokenHash (sessions_in db) !! h) as [a|] eqn:Ha.
  - destruct (p a) eqn:Hpa.
    + left. exists a. split_and!; [done|done|unfold p, live in Hpa; by go_bool|].
      eapply Sql.by_key_update; [done|done|apply (live_hash_key h)|done|done].
    + right. split_and!; [done| |].
      * rewrite Sql.update_none; [done|]. rewrite (Sql.filter_by_key TokenHash p _ h Hnd (live_hash_key h)), Ha. by rewrite Hpa.
      * intros ? [= <-]. apply Sql.by_key_Some in Ha as [_ Ha]; [|done]. unfold p, has_hash, live in Hpa.
        rewrite (bool_decide_eq_true_2 _ Ha) in Hpa. simpl in Hpa. by apply bool_decide_eq_false in Hpa.
  - right. split_and!; [done| |done]. rewrite Sql.update_none; [done|].
    by rewrite (Sql.filter_by_key TokenHash p _ h Hnd (live_hash_key h)), Ha.
Qed.

Lemma mongo_Create_effect record db w : idle conn db w -> filed db ->
  wp (SessionStore_Create adapter record) (leaves conn (fun res db' => filed db' /\
    match res with
    | Ok _ => sessions_of db !! TokenHash record = None /\
              sessions_of db' = <[TokenHash record := stored_session record]> (sessions_of db)
    | Err _ => sessions_of db' = sessions_of db
    end)) w.
Proof.
  intros Hw Hf. unfold SessionStore_Create. wp_go. eapply mongo_wp_run; [done|exact Hw|..].
  - intros now res db' w' He Hw'. apply runs_InsertOne in He as [Hf' He]; [|done]. wp_go. exists db'. split; [done|].
    split; [done|]. destruct res as [[]|e]; simpl; [done|]. destruct (duplicateKey e); by rewrite He.
  - intros res w' Hcut Hw'. wp_go. exists db. split; [done|]. split; [done|]. destruct res as [[]|e]; [done|]. simpl.
    by destruct (duplicateKey e).
Qed.

Lemma mongo_Find_effect h db w : idle conn db w -> filed db ->
  wp (SessionStore_FindByTokenHash adapter h)
    (leaves conn (fun res db' => db' = db /\ forall a, res = Ok a -> sessions_of db !! h = Some a)) w.
Proof.
  intros Hw Hf. unfold SessionStore_FindByTokenHash. wp_go. eapply mongo_wp_run; [done|exact Hw|..].
  - intros now res db' w' He Hw'. apply runs_FindOne in He as [-> ->]; [|done]. wp_go. exists db. do 2 (split; [done|]).
    destruct (sessions_of db !! h) as [a|] eqn:Ha; simpl; [|done].
    rewrite (decoded_session db h a Hf Ha). simpl. by intros ? [= <-].
  - intros res w' Hcut Hw'. wp_go. exists db. do 2 (split; [done|]). destruct res as [d|e]; [done|]. simpl.
    by destruct (errors_Is e ErrNoDocuments).
Qed.

Lemma mongo_List_effect subject db w : idle conn db w -> filed db ->
  wp (SessionStore_ListBySubject adapter subject)
    (leaves conn (fun res db' => db' = db /\ forall l, res = Ok l -> l ≡ₚ List.filter (of_subject subject) (sessions_in db))) w.
Proof.
  intros Hw Hf. unfold SessionStore_ListBySubject. wp_go. pose proof Hf as (Hdocs & Hall & Hnd). eapply mongo_wp_run; [done|exact Hw|..].
  - intros now res db' w' He Hw'. apply runs_Find in He as [-> ->]. wp_go. exists db. do 2 (split; [done|]).
    rewrite Hdocs. destruct (cursor_All_ok (List.filter (of_subject subject) (sessions_in db))
      (sorted_desc (Some "created_at") (List.filter (matches now (Eq "subject_id" (BString subject))) (sessionDocumentFrom <$> sessions_in db))))
      as (l' & -> & Hl'); [|by apply Forall_selected|by intros l [= <-]].
    rewrite sorted_desc_Permutation. by rewrite (filter_documents now _ (of_subject subject) (mongo_match_subject now subject)).
  - intros res w' Hcut Hw'. wp_go. exists db. do 2 (split; [done|]). intros l. simpl in Hcut.
    destruct res as [[d [[]|e]]|e]; [done| |done]. unfold cursor_All. by destruct (decode_all session_record d).
Qed.

Lemma mongo_Extend_effect h at_ expires db w : idle conn db w -> filed db ->
  wp (SessionStore_Extend adapter h at_ expires) (leaves conn (fun res db' => filed db' /\
    match res with
    | Ok a' => exists a, sessions_of db !! h = Some a /\ RevokedAt a = None /\
        (milliseconds at_ < ExpiresAt a < milliseconds expires)%Z /\
        a' = extend_record (milliseconds at_) (milliseconds expires) a /\
        sessions_of db' = <[h := a']> (sessions_of db)
    | Err _ => sessions_of db' = sessions_of db
    end)) w.
Proof.
  intros Hw Hf. unfold SessionStore_Extend. wp_go. pose proof Hf as (Hdocs & Hall & Hnd).
  set (flt := And _). set (extend := extend_record (milliseconds at_) (milliseconds expires)).
  set (p := fun a : SessionRecord => has_hash h a && (live a && ((milliseconds at_ <? milliseconds (ExpiresAt a))%Z &&
    (milliseconds (ExpiresAt a) <? milliseconds expires)%Z))).
  assert (Hp : forall now a, matches now flt (sessionDocumentFrom a) = p a).
  { intros now a. unfold flt, p. rewrite !matches_And, matches_And_nil, mongo_match_hash, match_live, andb_true_r. done. }
  assert (Hk : forall a, p a = true -> TokenHash a = h) by (intros a Ha; unfold p, has_hash in Ha; by go_bool).
  eapply mongo_wp_run; [done|exact Hw|..].
  - intros now res db' w' He Hw'. wp_go. exists db'. split; [done|]. cbn [execute] in He. rewrite Hdocs in He.
    rewrite (find_document now flt p (Hp now) _ h Hnd Hk) in He.
    destruct (Sql.by_key TokenHash (sessions_in db) !! h) as [a|] eqn:Ha; [|by injection He as <- <-].
    destruct (p a) eqn:Hpa; [|by injection He as <- <-].
    rewrite (change_document now flt p (Hp now) _ h Hnd Hk _ extend) in He.
    2: { intros b Hb. unfold p, live in Hb. go_bool. by rewrite extend_document. }
    assert (Hstored : stored_session a = a).
    { apply Sql.by_key_Some in Ha as [Ha _]; [|done]. rewrite List.Forall_forall in Hall. by apply Hall, list_elem_of_In. }
    assert (Hlive : RevokedAt a = None) by (unfold p, live in Hpa; by go_bool).
    apply checked_cases in He as [(-> & -> & _)|[-> ->]]; [|done].
    match goal with |- filed ?d /\ _ => destruct (filed_update db d p extend Hf) as [Hf' Hin] end;
      [by rewrite documents_insert|done|intros b; apply extend_stored|].
    split; [done|]. unfold decoded. rewrite extend_document, session_record_from by done. unfold extend in *.
    rewrite extend_stored by done. simpl. exists a. split_and!; try done.
    + unfold p in Hpa. go_bool. assert (milliseconds (ExpiresAt a) = ExpiresAt a) as Hx by (rewrite <- Hstored at 2; done). lia.
    + unfold p in Hpa. go_bool. assert (milliseconds (ExpiresAt a) = ExpiresAt a) as Hx by (rewrite <- Hstored at 2; done). lia.
    + unfold sessions_of. rewrite Hin. by eapply Sql.by_key_update.
  - intros res w' Hcut Hw'. wp_go. exists db. split; [done|]. split; [done|]. destruct res as [d|e]; [done|]. simpl.
    by destruct (errors_Is e ErrNoDocuments).
Qed.

Lemma mongo_Revoke_effect h at_ db w : idle conn db w -> filed db ->
  wp (SessionStore_Revoke adapter h at_) (leaves conn (fun res db' => filed db' /\
    match res with
    | Ok _ => exists a, sessions_of db !! h = Some a /\
        sessions_of db' = <[h := revoke_record (milliseconds at_) a]> (sessions_of db)
    | Err _ => sessions_of db' = sessions_of db
    end)) w.
Proof.
  intros Hw Hf. unfold SessionStore_Revoke. wp_go. eapply mongo_wp_run; [done|exact Hw|..].
  - intros now res db' w' He Hw'. apply runs_UpdateOne in He as [Hf' He]; [|done].
    destruct He as [(e & -> & ->)|[(a & -> & Hat & Hlive & Hs)|(-> & Hs & Hdead)]]; cbn [Nat.eqb negb]; wp_go.
    + by exists db.
    + exists db'. split; [done|]. split; [done|]. by exists a.
    + eapply mongo_wp_run; [done|exact Hw'|..].
      * intros now2 res2 db2 w2 He2 Hw2. apply runs_FindOne in He2 as [-> ->]; [|done]. rewrite Hs.
        destruct (sessions_of db !! h) as [a|] eqn:Ha; cbn [ignored or_absent]; wp_go; exists db'; do 2 (split; [done|]); [|done].
        exists a. split; [done|]. specialize (Hdead a eq_refl). rewrite insert_id; [done|]. rewrite Ha. f_equal.
        unfold revoke_record. destruct a as [? ? ? ? ? ? [v|]]; [done|]. by destruct Hdead.
      * intros res2 w2 Hcut2 Hw2. wp_go. exists db'. do 2 (split; [done|]). destruct res2 as [d|e]; [done|]. simpl.
        by destruct (errors_Is e ErrNoDocuments).
  - intros res w' Hcut Hw'. destruct res as [n|e]; [done|]. wp_go. by exists db.
Qed.

Lemma mongo_Rotate_effect h replacement at_ db w : idle conn db w -> filed db ->
  wp (SessionStore_Rotate adapter h replacement at_) (leaves conn (fun res db' => filed db' /\
    match res with
    | Ok _ => exists a, sessions_of db !! h = Some a /\ sessions_of db !! TokenHash replacement = None /\
        RevokedAt a = None /\ (at_ < ExpiresAt a)%Z /\
        sessions_of db' = <[TokenHash replacement := stored_session replacement]>
          (<[h := revoke_record (milliseconds at_) a]> (sessions_of db))
    | Err _ => sessions_of db' = sessions_of db
    end)) w.
Proof.
  intros Hw Hf. unfold SessionStore_Rotate.
  eapply wp_mono; [eapply (wp_in_transaction conn adapter _ (fun db' => filed db' /\ exists a, sessions_of db !! h = Some a /\
      sessions_of db !! TokenHash replacement = None /\ RevokedAt a = None /\ (at_ < ExpiresAt a)%Z /\
      sessions_of db' = <[TokenHash replacement := stored_session replacement]>
        (<[h := revoke_record (milliseconds at_) a]> (sessions_of db)))); [exact Hw|]|].
  2: { intros res w' (db' & Hw' & Hpost). exists db'. split; [done|]. destruct res as [[]|e]; [done|]. by rewrite Hpost. }
  intros tx w1 Htx Hw1. wp_go. eapply wp_tx_run; [done|exact Hw1|..].
  2: { intros res w2 [Hcut|Hdup] Hw2; destruct res as [d|e]; try done; simpl; destruct (errors_Is e ErrNoDocuments); by wp_go. }
  intros now res db2 w2 He Hw2. apply runs_FindOne in He as [-> ->]; [|done].
  destruct (sessions_of db !! h) as [a|] eqn:Ha; [|simpl; wp_go; by eauto].
  unfold decoded. rewrite (decoded_session db h a Hf Ha). cbn [or_absent]. wp_go; [by eauto|].
  apply orb_false_iff in Heqb as [Hlive Hbefore]. go_bool.
  eapply wp_tx_run; [done|exact Hw2|..].
  2: { intros res w3 [Hcut|Hdup] Hw3; destruct res as [[]|e]; try done; simpl; destruct (duplicateKey e); by wp_go. }
  intros now3 res db3 w3 He3 Hw3. apply runs_InsertOne in He3 as [Hf3 He3]; [|done].
  destruct res as [[]|e]; simpl; [|destruct (duplicateKey e); wp_go; by eauto]. destruct He3 as [Hnone Hs3]. wp_go.
  assert (Hne : TokenHash replacement <> h) by congruence.
  eapply wp_tx_run; [done|exact Hw3|..].
  2: { intros res w4 [Hcut|Hdup] Hw4; destruct res as [n|e]; try done; simpl; by wp_go. }
  intros now4 res db4 w4 He4 Hw4. apply runs_UpdateOne in He4 as [Hf4 He4]; [|done].
  rewrite Hs3, lookup_insert_ne, Ha in He4 by done.
  destruct He4 as [(e & -> & ->)|[(b & -> & [= <-] & _ & Hs4)|(-> & _ & Hdead)]]; simpl; wp_go; [by eauto| |by destruct (Hdead a eq_refl)].
  exists db4. split; [done|]. split; [done|]. exists a. split_and!; try done. by rewrite Hs4, insert_insert_ne by done.
Qed.

Lemma runs_UpdateMany now subject at_ db res db' :
  execute indexes_of now (UpdateMany sessionsCollection (And [Eq "subject_id" (BString subject); missing "revoked_at"])
    (set_revoked at_)) db = (res, db') ->
  filed db ->
  filed db' /\
  match res with
  | Ok _ => sessions_of db' = revoke_subject subject (milliseconds at_) <$> sessions_of db
  | Err _ => db' = db
  end.
Proof.
  cbn [execute]. intros Hc Hf. pose proof Hf as (Hdocs & Hall & Hnd). rewrite Hdocs in Hc.
  set (p := fun a => of_subject subject a && live a) in *.
  apply checked_cases in Hc as [(-> & -> & _)|[-> ->]]; [|done].
  match goal with |- filed ?d /\ _ => destruct (filed_update db d p (revoke_record (milliseconds at_)) Hf) as [Hf' Hin] end.
  - rewrite documents_insert, <- !list_fmap_compose. apply list_fmap_ext. intros _ a _. cbv beta delta [compose].
    rewrite (match_live_subject now subject a). fold (p a). destruct (p a) eqn:Hpa; [|done].
    unfold p, live in Hpa. go_bool. by apply revoke_document.
  - done.
  - apply revoke_stored.
  - split; [done|]. unfold sessions_of. rewrite Hin, Sql.by_key_fmap by (intros a; by destruct (p a)).
    apply map_fmap_ext. intros k a _. unfold revoke_subject, p, of_subject, live.
    destruct (String.eqb_spec (SubjectID a) subject) as [E|E]; [|by rewrite bool_decide_eq_false_2].
    rewrite bool_decide_eq_true_2 by done. simpl. destruct a as [? ? ? ? ? ? [v|]]; done.
Qed.

Lemma mongo_RevokeAll_effect subject at_ db w : idle conn db w -> filed db ->
  wp (SessionStore_RevokeAll adapter subject at_) (leaves conn (fun res db' => filed db' /\
    match res with
    | Ok l => sessions_of db' = revoke_subject subject (milliseconds at_) <$> sessions_of db /\
        l ≡ₚ revoke_record at_ <$> List.filter (of_subject subject) (sessions_in db)
    | Err _ => sessions_of db' = sessions_of db
    end)) w.
Proof.
  intros Hw Hf. pose proof Hf as (Hdocs & Hall & Hnd). unfold SessionStore_RevokeAll.
  eapply wp_mono; [eapply (wp_transaction_of conn adapter _ (fun l db' => filed db' /\
      sessions_of db' = revoke_subject subject (milliseconds at_) <$> sessions_of db /\
      l ≡ₚ revoke_record at_ <$> List.filter (of_subject subject) (sessions_in db))); [exact Hw|]|].
  2: { intros res w' (db' & Hw' & Hpost). exists db'. split; [done|]. destruct res as [l|e]; [done|]. by rewrite Hpost. }
  intros tx w1 Htx Hw1. wp_go. eapply wp_tx_run; [done|exact Hw1|..].
  2: { intros res w2 Hcut Hw2. destruct res as [[d last]|e]; simpl; [|by wp_go].
       destruct (decode_all session_record d); [|by wp_go]. destruct last as [[]|e]; [|by wp_go]. by destruct Hcut. }
  intros now res db2 w2 He Hw2. apply runs_Find in He as [-> ->]. cbn [sorted_desc]. rewrite Hdocs.
  destruct (cursor_All_ok (List.filter (of_subject subject) (sessions_in db))
      (List.filter (matches now (Eq "subject_id" (BString subject))) (sessionDocumentFrom <$> sessions_in db)))
    as (l' & Hl & Hl'); [by rewrite (filter_documents now _ (of_subject subject) (mongo_match_subject now subject))|by apply Forall_selected|].
  rewrite Hl. wp_go. eapply wp_tx_run; [done|exact Hw2|..].
  2: { intros res w3 [Hcut|Hdup] Hw3; destruct res as [n|e]; try done; by wp_go. }
  intros now3 res db3 w3 He3 Hw3. apply runs_UpdateMany in He3 as [Hf3 He3]; [|done].
  destruct res as [n|e]; wp_go; [|by eauto]. exists db3. split_and!; try done. rewrite <- Hl'.
  erewrite list_fmap_ext; [done|]. intros _ a _. simpl. unfold mark_revoked, revoke_record. by destruct a as [? ? ? ? ? ? []].
Qed.

(** ** The contract *)
Definition in_order_state (s : S) : Prop := current (conn s) = None /\ filed (committed (conn s)).
Definition session_view (s : S) : sessions_state := mkState (sessions_of (committed (conn s))) ∅.

Lemma mongo_in_order_idle w : in_order_state (ext w) -> idle conn (committed (conn (ext w))) w /\ filed (committed (conn (ext w))).
Proof. intros [Ht Hf]. unfold idle. destruct (conn (ext w)); simpl in *. by subst. Qed.
Lemma mongo_idle_in_order db w : idle conn db w -> filed db -> in_order_state (ext w) /\ committed (conn (ext w)) = db.
Proof. unfold idle, in_order_state. by intros ->. Qed.

Ltac contract_step Heff :=
  let Hw := fresh "Hw" in let Hf := fresh "Hf" in
  match goal with H : in_order_state _ |- _ => destruct (mongo_in_order_idle _ H) as [Hw Hf] end;
  eapply wp_mono; [by apply Heff|]; intros res w' (db' & Hw' & Hpost).

Ltac contract_done Hw' Hf' :=
  let H1 := fresh "Hwf'" in let H2 := fresh "Hdb'" in
  destruct (mongo_idle_in_order _ _ Hw' Hf') as [H1 H2]; split; [done|]; unfold session_view; rewrite H2; simpl.

Lemma mongo_sessions_keep_contract :
  KeptStoreContract stored_session milliseconds (fun t => t) (SessionStore adapter) in_order_state session_view.
Proof.
  split; simpl.
  - intros w h r [_ (_ & _ & Hnd)] Hr. simpl in Hr. by apply Sql.by_key_Some in Hr as [_ ?].
  - intros r w Hwf. contract_step mongo_Create_effect. destruct Hpost as [Hf' Hpost]. contract_done Hw' Hf'.
    destruct res as [[]|e]; [|by rewrite Hpost]. by destruct Hpost.
  - intros h w Hwf. contract_step mongo_Find_effect. destruct Hpost as [-> Hpost]. by contract_done Hw' Hf.
  - intros subject w Hwf. contract_step mongo_List_effect. destruct Hpost as [-> Hpost]. contract_done Hw' Hf.
    split; [done|]. intros l Hl a. rewrite (Hpost l Hl), Sql.elem_of_List_filter. unfold of_subject. rewrite bool_decide_eq_true.
    unfold sessions_of. rewrite Sql.by_key_Some by by destruct Hf as (_ & _ & ?). tauto.
  - intros h now expires w Hwf. contract_step mongo_Extend_effect. destruct Hpost as [Hf' Hpost]. contract_done Hw' Hf'.
    destruct res as [a'|e]; [|by rewrite Hpost].
    destruct Hpost as (a & ? & ? & ? & ? & ?). by exists a.
  - intros h r now w Hwf. contract_step mongo_Rotate_effect. destruct Hpost as [Hf' Hpost]. contract_done Hw' Hf'.
    destruct res as [[]|e]; [|by rewrite Hpost].
    destruct Hpost as (a & ? & ? & ? & ? & ?). by exists a.
  - intros h now w Hwf. contract_step mongo_Revoke_effect. destruct Hpost as [Hf' Hpost]. contract_done Hw' Hf'.
    destruct res as [[]|e]; [|by rewrite Hpost].
    destruct Hpost as (a & ? & ?). by exists a.
  - intros subject now w Hwf. contract_step mongo_RevokeAll_effect. destruct Hpost as [Hf' Hpost]. contract_done Hw' Hf'.
    destruct res as [l|e]; [|by rewrite Hpost].
    destruct Hpost as [Hrows Hl]. split_and!; [done|done|]. intros r. rewrite Hl. destruct Hf as (_ & _ & Hnd).
    apply revoked_records; [intros a|intros k a Ha]; unfold sessions_of in *.
    + rewrite Sql.by_key_Some by done. tauto.
    + by apply Sql.by_key_Some in Ha as [_ ?].
Qed.
End SessionEffects.
