(* ===== verification/MongoStores.v ===== *)
(** * The stores of the MongoDB adapter (storage/mongodb/accounts.go, totp.go, passkeys.go and sso.go)

    Accounts, second factors, passkeys and single sign-on; the stores of sessions
    are in Mongo. *)
From S2P Require Import Prelude GoJson Token Mongo.
From S2P Require EmailPassword EmailVerification PasswordReset GoogleOAuth.
From S2P Require Totp Passkey Oidc Saml Config.

(** ** Documents of accounts *)
Record userDocument : Type := mkUserDocument {
  ud_ID : string; ud_Email : string; ud_EmailVerified : bool; ud_WebAuthnHandle : string; ud_CreatedAt : time }.

Definition user_document (u : userDocument) : document :=
  [("_id", BString (ud_ID u)); ("email", BString (ud_Email u)); ("email_verified", BBoolean (ud_EmailVerified u));
   ("webauthn_handle", BBinary (ud_WebAuthnHandle u)); ("created_at", datetime (ud_CreatedAt u))].

Definition decode_user (d : document) : result userDocument :=
  id <-! get_string "_id" d;
  email <-! get_string "email" d;
  verified <-! get_bool "email_verified" d;
  handle <-! get_binary "webauthn_handle" d;
  createdAt <-! get_time "created_at" d;
  Ok (mkUserDocument id email verified handle createdAt).

Definition passwordDocument (userID passwordHash : string) (updatedAt : time) : document :=
  [("_id", BString userID); ("password_hash", BString passwordHash); ("updated_at", datetime updatedAt)].

(** The password hash: the only field of a [passwordDocument] that is read. *)
Definition decode_password (d : document) : result string :=
  _ <-! get_string "_id" d;
  passwordHash <-! get_string "password_hash" d;
  _ <-! get_time "updated_at" d;
  Ok passwordHash.

Record tokenDocument : Type := mkTokenDocument {
  td_UserID : string; td_Email : string; td_TokenHash : string; td_CreatedAt : time; td_ExpiresAt : time }.

Definition token_document (t : tokenDocument) : document :=
  [("_id", BString (td_UserID t)); ("email", BString (td_Email t)); ("token_hash", BBinary (td_TokenHash t));
   ("created_at", datetime (td_CreatedAt t)); ("expires_at", datetime (td_ExpiresAt t))].

Definition decode_token (d : document) : result tokenDocument :=
  userID <-! get_string "_id" d;
  email <-! get_string "email" d;
  hash <-! get_binary "token_hash" d;
  createdAt <-! get_time "created_at" d;
  expiresAt <-! get_time "expires_at" d;
  Ok (mkTokenDocument userID email hash createdAt expiresAt).

Record googleIdentityDocument : Type := mkGoogleIdentity {
  gd_ProviderSubject : string; gd_UserID : string; gd_Email : string; gd_LinkedAt : time }.

Definition identity_document (i : googleIdentityDocument) : document :=
  [("_id", BString (gd_ProviderSubject i)); ("user_id", BString (gd_UserID i)); ("email", BString (gd_Email i));
   ("linked_at", datetime (gd_LinkedAt i))].

Definition decode_identity (d : document) : result googleIdentityDocument :=
  providerSubject <-! get_string "_id" d;
  userID <-! get_string "user_id" d;
  email <-! get_string "email" d;
  linkedAt <-! get_time "linked_at" d;
  Ok (mkGoogleIdentity providerSubject userID email linkedAt).

Section Shared.
Context {S : Type} `{Env}.

Definition newUserDocument (email : string) (verified : bool) (createdAt : time) : M S (result userDocument) :=
  id <-? wrapped "generate user ID: %w" new_uuid ;;
  handle <-? wrapped "generate WebAuthn handle: %w" (rand_Read 64) ;;
  ret (Ok (mkUserDocument id email verified handle createdAt)).

Definition lockUser (tx : Runner S) (subjectID : string) : M S (result userDocument) :=
  r <- run tx (FindOneAndUpdate usersCollection (Eq "_id" (BString subjectID)) (Inc "credential_version" 1) true) ;;
  ret (decoded decode_user r).

Definition otherCredentialCount (tx : Runner S) (subjectID : string) : M S (result nat) :=
  googleCount <-? run tx (CountDocuments googleIdentitiesCollection (Eq "user_id" (BString subjectID))) ;;
  passkeyCount <-? run tx (CountDocuments passkeyCredentialsCollection (Eq "subject_id" (BString subjectID))) ;;
  ret (Ok (googleCount + passkeyCount)).
End Shared.

(** ** Email and password *)
Section EmailPassword_.
Import EmailPassword.
Context {S : Type} `{Env} (adapter : Adapter S).

Definition EmailPasswordStore_Register (registration : Registration) : M S (result User) :=
  transaction_of adapter (fun tx =>
    document <-? newUserDocument (reg_Email registration) false (reg_CreatedAt registration) ;;
    r <- run tx (InsertOne usersCollection (user_document document)) ;;
    match conflicting ErrConflict r with
    | Err err => ret (Err err)
    | Ok _ =>
        _ <-? run tx (InsertOne passwordsCollection
                        (passwordDocument (ud_ID document) (reg_PasswordHash registration) (reg_CreatedAt registration))) ;;
        ret (Ok (mkUser (ud_ID document) (ud_Email document)))
    end) (mkUser "" "").

Definition findWithPassword (document : userDocument) : M S (result (User * PasswordCredential)) :=
  r <- run (plain (client adapter)) (FindOne passwordsCollection (Eq "_id" (BString (ud_ID document)))) ;;
  ret (passwordHash <-! or_absent ErrNotFound (decoded decode_password r);
       Ok (mkUser (ud_ID document) (ud_Email document), mkCredential (ud_ID document) passwordHash)).

Definition EmailPasswordStore_FindByEmail (email : string) : M S (result (User * PasswordCredential)) :=
  r <- run (plain (client adapter)) (FindOne usersCollection (Eq "email" (BString email))) ;;
  match or_absent ErrNotFound (decoded decode_user r) with
  | Err err => ret (Err err)
  | Ok document => findWithPassword document
  end.

Definition EmailPasswordStore_FindBySubject (subjectID : string) : M S (result (User * PasswordCredential)) :=
  r <- run (plain (client adapter)) (FindOne usersCollection (Eq "_id" (BString subjectID))) ;;
  match or_absent ErrNotFound (decoded decode_user r) with
  | Err err => ret (Err err)
  | Ok document => findWithPassword document
  end.

Definition EmailPasswordStore_AddPassword (subjectID passwordHash : string) (addedAt : time) : M S (result User) :=
  transaction_of adapter (fun tx =>
    r <- lockUser tx subjectID ;;
    match or_absent ErrNotFound r with
    | Err err => ret (Err err)
    | Ok document =>
        r <- run tx (InsertOne passwordsCollection (passwordDocument subjectID passwordHash addedAt)) ;;
        ret (_ <-! conflicting ErrConflict r; Ok (mkUser (ud_ID document) (ud_Email document)))
    end) (mkUser "" "").

Definition EmailPasswordStore_ReplacePasswordHash (userID currentHash replacementHash : string) (updatedAt : time) :
    M S (result unit) :=
  r <- run (plain (client adapter))
    (UpdateOne passwordsCollection (And [Eq "_id" (BString userID); Eq "password_hash" (BString currentHash)])
       (SetFields [("password_hash", BString replacementHash); ("updated_at", datetime updatedAt)])) ;;
  ret (some_matched ErrConflict r).

Definition EmailPasswordStore_RemovePassword (subjectID currentHash : string) (_ : time) : M S (result unit) :=
  in_transaction adapter (fun tx =>
    r <- lockUser tx subjectID ;;
    match or_absent ErrNotFound r with
    | Err err => ret (Err err)
    | Ok _ =>
        r <- run tx (FindOne passwordsCollection (Eq "_id" (BString subjectID))) ;;
        match or_absent ErrNotFound (decoded decode_password r) with
        | Err err => ret (Err err)
        | Ok passwordHash =>
            if negb (String.eqb passwordHash currentHash) then ret (Err ErrConflict) else
            count <-? otherCredentialCount tx subjectID ;;
            if (count =? 0)%nat then ret (Err ErrLastCredential) else
            r <- run tx (DeleteOne passwordsCollection (Eq "_id" (BString subjectID))) ;;
            ret (ignored r)
        end
    end).

Definition EmailPasswordStore : Store S :=
  {| store_Register := EmailPasswordStore_Register;
     store_FindByEmail := EmailPasswordStore_FindByEmail;
     store_ReplacePasswordHash := EmailPasswordStore_ReplacePasswordHash |}.

Definition EmailPasswordCredentialStore : CredentialStore S :=
  {| cred_FindBySubject := EmailPasswordStore_FindBySubject;
     cred_AddPassword := EmailPasswordStore_AddPassword;
     cred_ReplacePasswordHash := EmailPasswordStore_ReplacePasswordHash;
     cred_RemovePassword := EmailPasswordStore_RemovePassword |}.
End EmailPassword_.

(** ** Email verification *)
Section EmailVerification_.
Import EmailVerification.
Context {S : Type} (adapter : Adapter S).

Definition EmailVerificationStore_FindUserByEmail (email : string) : M S (result User) :=
  r <- run (plain (client adapter)) (FindOne usersCollection (Eq "email" (BString email))) ;;
  ret (document <-! or_absent ErrNotFound (decoded decode_user r);
       Ok (mkUser (ud_ID document) (ud_Email document) (ud_EmailVerified document))).

Definition EmailVerificationStore_Issue (record : VerificationRecord) : M S (result unit) :=
  r <- run (plain (client adapter))
    (ReplaceOne emailVerificationsCollection (Eq "_id" (BString (rec_UserID record)))
       (token_document (mkTokenDocument (rec_UserID record) (rec_Email record) (rec_TokenHash record)
          (rec_CreatedAt record) (rec_ExpiresAt record)))) ;;
  ret (conflicting ErrConflict r).

Definition EmailVerificationStore_Verify (tokenHash : Hash) (verifiedAt : time) : M S (result User) :=
  transaction_of adapter (fun tx =>
    r <- run tx (FindOne emailVerificationsCollection (Eq "token_hash" (BBinary tokenHash))) ;;
    match or_absent ErrNotFound (decoded decode_token r) with
    | Err err => ret (Err err)
    | Ok token =>
        r <- run tx (FindOne usersCollection (Eq "_id" (BString (td_UserID token)))) ;;
        match or_absent ErrNotFound (decoded decode_user r) with
        | Err err => ret (Err err)
        | Ok document =>
            if ud_EmailVerified document || negb (Before verifiedAt (td_ExpiresAt token)) then ret (Err ErrInactiveToken) else
            _ <-? run tx (UpdateOne usersCollection (Eq "_id" (BString (ud_ID document)))
                            (SetFields [("email_verified", BBoolean true)])) ;;
            _ <-? run tx (DeleteOne emailVerificationsCollection (Eq "_id" (BString (td_UserID token)))) ;;
            ret (Ok (mkUser (ud_ID document) (ud_Email document) true))
        end
    end) (mkUser "" "" false).

Definition EmailVerificationStore : Store S :=
  {| store_FindUserByEmail := EmailVerificationStore_FindUserByEmail;
     store_Issue := EmailVerificationStore_Issue;
     store_Verify := EmailVerificationStore_Verify |}.
End EmailVerification_.

(** ** Password reset *)
Section PasswordReset_.
Import PasswordReset.
Context {S : Type} (adapter : Adapter S).

Definition PasswordResetStore_FindUserByEmail (email : string) : M S (result User) :=
  r <- run (plain (client adapter)) (FindOne usersCollection (Eq "email" (BString email))) ;;
  ret (document <-! or_absent ErrNotFound (decoded decode_user r); Ok (mkUser (ud_ID document) (ud_Email document))).

Definition PasswordResetStore_Issue (record : ResetRecord) : M S (result unit) :=
  r <- run (plain (client adapter))
    (ReplaceOne passwordResetsCollection (Eq "_id" (BString (rec_UserID record)))
       (token_document (mkTokenDocument (rec_UserID record) (rec_Email record) (rec_TokenHash record)
          (rec_CreatedAt record) (rec_ExpiresAt record)))) ;;
  ret (conflicting ErrConflict r).

Definition PasswordResetStore_ResetPassword (tokenHash : Hash) (passwordHash : string) (resetAt : time) :
    M S (result User) :=
  transaction_of adapter (fun tx =>
    r <- run tx (FindOne passwordResetsCollection (Eq "token_hash" (BBinary tokenHash))) ;;
    match or_absent ErrNotFound (decoded decode_token r) with
    | Err err => ret (Err err)
    | Ok token =>
        if negb (Before resetAt (td_ExpiresAt token)) then ret (Err ErrInactiveToken) else
        r <- run tx (FindOne usersCollection (Eq "_id" (BString (td_UserID token)))) ;;
        match or_absent ErrNotFound (decoded decode_user r) with
        | Err err => ret (Err err)
        | Ok document =>
            _ <-? run tx (ReplaceOne passwordsCollection (Eq "_id" (BString (td_UserID token)))
                            (passwordDocument (td_UserID token) passwordHash resetAt)) ;;
            _ <-? run tx (DeleteOne passwordResetsCollection (Eq "_id" (BString (td_UserID token)))) ;;
            ret (Ok (mkUser (ud_ID document) (ud_Email document)))
        end
    end) (mkUser "" "").

Definition PasswordResetStore : Store S :=
  {| store_FindUserByEmail := PasswordResetStore_FindUserByEmail;
     store_Issue := PasswordResetStore_Issue;
     store_ResetPassword := PasswordResetStore_ResetPassword |}.
End PasswordReset_.

(** ** Google identities *)
Section Google_.
Import GoogleOAuth.
Context {S : Type} `{Env} (adapter : Adapter S).

Definition GoogleStore_CreateChallenge (challenge : Challenge) : M S (result unit) :=
  r <- run (plain (client adapter))
    (InsertOne googleChallengesCollection
       [("_id", BBinary (StateHash challenge)); ("nonce", BString (ch_Nonce challenge));
        ("code_verifier", BString (CodeVerifier challenge)); ("subject_id", BString (ch_SubjectID challenge));
        ("created_at", datetime (CreatedAt challenge)); ("expires_at", datetime (ExpiresAt challenge))]) ;;
  ret (conflicting ErrConflict r).

Definition google_challenge (d : document) : result Challenge :=
  hash <-! get_binary "_id" d;
  nonce <-! get_string "nonce" d;
  codeVerifier <-! get_string "code_verifier" d;
  subjectID <-! get_string "subject_id" d;
  createdAt <-! get_time "created_at" d;
  expiresAt <-! get_time "expires_at" d;
  Ok (mkChallenge hash nonce codeVerifier subjectID createdAt expiresAt).

Definition GoogleStore_ConsumeChallenge (stateHash : string) (consumedAt : time) : M S (result Challenge) :=
  r <- run (plain (client adapter)) (FindOneAndDelete googleChallengesCollection (Eq "_id" (BBinary stateHash))) ;;
  ret (challenge <-! or_absent ErrNotFound (decoded google_challenge r);
       if negb (Before consumedAt (ExpiresAt challenge)) then Err ErrInvalidState else Ok challenge).

(** The middle of [ResolveIdentity]: the user of an identity that is not linked yet. *)
Definition identity_user (tx : Runner S) (resolution : IdentityResolution) : M S (result string) :=
  if negb (String.eqb (SubjectID resolution) "") then
    r <- lockUser tx (SubjectID resolution) ;;
    match or_absent ErrNotFound r with
    | Err err => ret (Err err)
    | Ok _ =>
        r <- run tx (FindOne googleIdentitiesCollection (Eq "user_id" (BString (SubjectID resolution)))) ;;
        match decoded decode_identity r with
        | Ok _ => ret (Err ErrConflict)
        | Err err => if negb (errors_Is err ErrNoDocuments) then ret (Err err) else ret (Ok (SubjectID resolution))
        end
    end
  else
    r <- run tx (FindOne usersCollection (Eq "email" (BString (Email resolution)))) ;;
    match decoded decode_user r with
    | Ok _ => ret (Err ErrLinkRequired)
    | Err err =>
        if negb (errors_Is err ErrNoDocuments) then ret (Err err) else
        now <- read_now time_Now ;;
        document <-? newUserDocument (Email resolution) true now ;;
        r <- run tx (InsertOne usersCollection (user_document document)) ;;
        ret (_ <-! conflicting ErrLinkRequired r; Ok (ud_ID document))
    end.

Definition GoogleStore_ResolveIdentity (resolution : IdentityResolution) : M S (result User) :=
  transaction_of adapter (fun tx =>
    r <- run tx (FindOne googleIdentitiesCollection (Eq "_id" (BString (ProviderSubject resolution)))) ;;
    match decoded decode_identity r with
    | Ok identity =>
        if negb (String.eqb (SubjectID resolution) "") && negb (String.eqb (gd_UserID identity) (SubjectID resolution))
        then ret (Err ErrConflict) else
        r <- run tx (UpdateOne googleIdentitiesCollection (Eq "_id" (BString (ProviderSubject resolution)))
                       (SetFields [("email", BString (Email resolution))])) ;;
        ret (_ <-! r; Ok (mkUser (gd_UserID identity)))
    | Err err =>
        if negb (errors_Is err ErrNoDocuments) then ret (Err err) else
        userID <-? identity_user tx resolution ;;
        now <- read_now time_Now ;;
        r <- run tx (InsertOne googleIdentitiesCollection
                       (identity_document (mkGoogleIdentity (ProviderSubject resolution) userID (Email resolution) now))) ;;
        ret (_ <-! conflicting ErrConflict r; Ok (mkUser userID))
    end) (mkUser "").

Definition GoogleStore_UnlinkIdentity (subjectID : string) (_ : time) : M S (result unit) :=
  in_transaction adapter (fun tx =>
    r <- lockUser tx subjectID ;;
    match or_absent ErrNotFound r with
    | Err err => ret (Err err)
    | Ok _ =>
        r <- run tx (FindOne googleIdentitiesCollection (Eq "user_id" (BString subjectID))) ;;
        match or_absent ErrNotFound (decoded decode_identity r) with
        | Err err => ret (Err err)
        | Ok _ =>
            passwords <-? run tx (CountDocuments passwordsCollection (Eq "_id" (BString subjectID))) ;;
            passkeys <-? run tx (CountDocuments passkeyCredentialsCollection (Eq "subject_id" (BString subjectID))) ;;
            if (passwords + passkeys =? 0)%nat then ret (Err ErrLastCredential) else
            r <- run tx (DeleteOne googleIdentitiesCollection (Eq "user_id" (BString subjectID))) ;;
            ret (ignored r)
        end
    end).

Definition GoogleStore : Store S :=
  {| store_CreateChallenge := GoogleStore_CreateChallenge;
     store_ConsumeChallenge := GoogleStore_ConsumeChallenge;
     store_ResolveIdentity := GoogleStore_ResolveIdentity |}.
End Google_.

(** ** Conversions between [uint64] and [int64] *)
Definition int64 (n : Z) : Z :=
  let m := (n mod 2 ^ 64)%Z in if (m <? 2 ^ 63)%Z then m else (m - 2 ^ 64)%Z.
Definition uint64 (z : Z) : Z := (z mod 2 ^ 64)%Z.

(** ** TOTP *)
Section Totp_.
Import Totp.
Context {S : Type} (adapter : Adapter S).

Definition encrypt (secret : string) : M S (result string) :=
  match secrets adapter with
  | None => ret (Err (Errorf "%w: secret codec is required for TOTP" [Mongo.ErrInvalidConfig]))
  | Some codec => Encrypt codec secret
  end.

Definition decrypt (encrypted : string) : M S (result string) :=
  match secrets adapter with
  | None => ret (Err (Errorf "%w: secret codec is required for TOTP" [Mongo.ErrInvalidConfig]))
  | Some codec => Decrypt codec encrypted
  end.

Definition TOTPStore_IsEnabled (subjectID : string) : M S (result bool) :=
  count <-? run (plain (client adapter))
    (CountDocuments totpCredentialsCollection
       (And [Eq "_id" (BString subjectID); Or [missing "disabled_at"; IsNil "disabled_at"]])) ;;
  ret (Ok (0 <? count)%nat).

Definition TOTPStore_BeginEnrollment (enrollment : Enrollment) : M S (result unit) :=
  secret <-? encrypt (enr_Secret enrollment) ;;
  run (plain (client adapter))
    (ReplaceOne totpEnrollmentsCollection (Eq "_id" (BString (enr_SubjectID enrollment)))
       [("_id", BString (enr_SubjectID enrollment)); ("encrypted_secret", BBinary secret);
        ("created_at", datetime (enr_CreatedAt enrollment)); ("expires_at", datetime (enr_ExpiresAt enrollment))]).

(** Its fields; the secret is the encrypted one. *)
Definition decode_enrollment (d : document) : result Enrollment :=
  id <-! get_string "_id" d;
  encrypted <-! get_binary "encrypted_secret" d;
  createdAt <-! get_time "created_at" d;
  expiresAt <-! get_time "expires_at" d;
  Ok (mkEnrollment id encrypted createdAt expiresAt).

Definition TOTPStore_FindEnrollment (subjectID : string) : M S (result Enrollment) :=
  r <- run (plain (client adapter)) (FindOne totpEnrollmentsCollection (Eq "_id" (BString subjectID))) ;;
  match or_absent ErrNotFound (decoded decode_enrollment r) with
  | Err err => ret (Err err)
  | Ok document =>
      secret <-? decrypt (enr_Secret document) ;;
      ret (Ok (mkEnrollment (enr_SubjectID document) secret (enr_CreatedAt document) (enr_ExpiresAt document)))
  end.

Definition totpCredentialDocument (subjectID encrypted : string) (enabledAt : time) (counter : Z) : document :=
  [("_id", BString subjectID); ("encrypted_secret", BBinary encrypted); ("enabled_at", datetime enabledAt);
   ("last_used_counter", BInt64 counter)].

Definition TOTPStore_Enable (subjectID : string) (confirmedCounter : Z) (recoveryCodes : list RecoveryCodeHash)
    (enabledAt : time) : M S (result unit) :=
  in_transaction adapter (fun tx =>
    r <- run tx (FindOne totpEnrollmentsCollection (Eq "_id" (BString subjectID))) ;;
    match or_absent ErrNotFound (decoded decode_enrollment r) with
    | Err err => ret (Err err)
    | Ok enrollment =>
        if negb (Before enabledAt (enr_ExpiresAt enrollment)) then ret (Err ErrInactiveEnrollment) else
        _ <-? run tx (ReplaceOne totpCredentialsCollection (Eq "_id" (BString subjectID))
                        (totpCredentialDocument subjectID (enr_Secret enrollment) enabledAt (int64 confirmedCounter))) ;;
        _ <-? run tx (DeleteMany totpRecoveryCodesCollection (Eq "subject_id" (BString subjectID))) ;;
        r <- (if (0 <? length recoveryCodes)%nat
              then run tx (InsertMany totpRecoveryCodesCollection
                             ((fun code => [("subject_id", BString subjectID); ("code_hash", BBinary code)]) <$> recoveryCodes))
              else ret (Ok tt)) ;;
        match r with
        | Err err => ret (Err err)
        | Ok _ =>
            r <- run tx (DeleteOne totpEnrollmentsCollection (Eq "_id" (BString subjectID))) ;;
            ret (ignored r)
        end
    end).

Definition TOTPStore_Disable (subjectID : string) (disabledAt : time) : M S (result unit) :=
  in_transaction adapter (fun tx =>
    n <-? run tx (UpdateOne totpCredentialsCollection (And [Eq "_id" (BString subjectID); missing "disabled_at"])
                    (SetFields [("disabled_at", datetime disabledAt)])) ;;
    r <- (if (n =? 0)%nat
          then (r <- run tx (FindOne totpCredentialsCollection (Eq "_id" (BString subjectID))) ;;
                ret (or_absent ErrNotFound (ignored r)))
          else ret (Ok tt)) ;;
    match r with
    | Err err => ret (Err err)
    | Ok _ =>
        r <- run tx (DeleteMany totpRecoveryCodesCollection (Eq "subject_id" (BString subjectID))) ;;
        ret (ignored r)
    end).

Definition TOTPStore_CreateChallenge (challenge : Challenge) : M S (result unit) :=
  r <- run (plain (client adapter))
    (InsertOne totpChallengesCollection
       [("_id", BBinary (ch_TokenHash challenge)); ("subject_id", BString (ch_SubjectID challenge));
        ("created_at", datetime (ch_CreatedAt challenge)); ("expires_at", datetime (ch_ExpiresAt challenge))]) ;;
  ret (conflicting ErrConflict r).

Definition totp_challenge (d : document) : result Challenge :=
  hash <-! get_binary "_id" d;
  subjectID <-! get_string "subject_id" d;
  createdAt <-! get_time "created_at" d;
  expiresAt <-! get_time "expires_at" d;
  _ <-! get_optional_time "consumed_at" d;
  Ok (mkChallenge subjectID hash createdAt expiresAt).

(** Its fields; the secret is the encrypted one. *)
Definition totp_credential (d : document) : result Credential :=
  id <-! get_string "_id" d;
  encrypted <-! get_binary "encrypted_secret" d;
  enabledAt <-! get_time "enabled_at" d;
  counter <-! get_optional_int64 "last_used_counter" d;
  _ <-! get_optional_time "disabled_at" d;
  Ok match counter with
     | Some counter => mkCredential id encrypted enabledAt (uint64 counter) true
     | None => mkCredential id encrypted enabledAt 0 false
     end.

Definition TOTPStore_FindChallenge (challengeHash : ChallengeHash) : M S (result (Challenge * Credential)) :=
  r <- run (plain (client adapter))
    (FindOne totpChallengesCollection (And [Eq "_id" (BBinary challengeHash); missing "consumed_at"])) ;;
  match or_absent ErrNotFound (decoded totp_challenge r) with
  | Err err => ret (Err err)
  | Ok challenge =>
      r <- run (plain (client adapter))
        (FindOne totpCredentialsCollection (And [Eq "_id" (BString (ch_SubjectID challenge)); missing "disabled_at"])) ;;
      match or_absent ErrNotFound (decoded totp_credential r) with
      | Err err => ret (Err err)
      | Ok credential =>
          secret <-? decrypt (cred_Secret credential) ;;
          ret (Ok (challenge, mkCredential (cred_SubjectID credential) secret (EnabledAt credential)
                                (LastUsedCounter credential) (HasLastUsedCounter credential)))
      end
  end.

Definition consumeChallenge (tx : Runner S) (hash : ChallengeHash) (at_ : time) : M S (result string) :=
  r <- run tx (FindOneAndUpdate totpChallengesCollection
                 (And [Eq "_id" (BBinary hash); missing "consumed_at"; Gt "expires_at" (datetime at_)])
                 (SetFields [("consumed_at", datetime at_)]) false) ;;
  ret (document <-! or_absent ErrInactiveChallenge (decoded totp_challenge r); Ok (ch_SubjectID document)).

Definition TOTPStore_CompleteCode (challengeHash : ChallengeHash) (counter : Z) (completedAt : time) : M S (result string) :=
  transaction_of adapter (fun tx =>
    subjectID <-? consumeChallenge tx challengeHash completedAt ;;
    r <- run tx (UpdateOne totpCredentialsCollection
                   (And [Eq "_id" (BString subjectID); missing "disabled_at";
                         Or [missing "last_used_counter"; Lt "last_used_counter" (BInt64 (int64 counter))]])
                   (SetFields [("last_used_counter", BInt64 (int64 counter))])) ;;
    ret (_ <-! some_matched ErrInvalidCode r; Ok subjectID)) "".

Definition TOTPStore_CompleteRecovery (challengeHash : ChallengeHash) (recoveryCode : RecoveryCodeHash)
    (completedAt : time) : M S (result string) :=
  transaction_of adapter (fun tx =>
    subjectID <-? consumeChallenge tx challengeHash completedAt ;;
    r <- run tx (UpdateOne totpRecoveryCodesCollection
                   (And [Eq "subject_id" (BString subjectID); Eq "code_hash" (BBinary recoveryCode); missing "used_at"])
                   (SetFields [("used_at", datetime completedAt)])) ;;
    ret (_ <-! some_matched ErrInvalidCode r; Ok subjectID)) "".

Definition TOTPStore : Store S :=
  {| store_IsEnabled := TOTPStore_IsEnabled;
     store_BeginEnrollment := TOTPStore_BeginEnrollment;
     store_FindEnrollment := TOTPStore_FindEnrollment;
     store_Enable := TOTPStore_Enable;
     store_Disable := TOTPStore_Disable;
     store_CreateChallenge := TOTPStore_CreateChallenge;
     store_FindChallenge := TOTPStore_FindChallenge;
     store_CompleteCode := TOTPStore_CompleteCode;
     store_CompleteRecovery := TOTPStore_CompleteRecovery |}.
End Totp_.

(** ** Passkeys *)
Section Passkeys_.
Import Passkey.
Context {S : Type} `{JSON Credential} `{JSON SessionData} (adapter : Adapter S).

Definition ceremony_type (t : CeremonyType) : string :=
  match t with CeremonyRegistration => "registration" | CeremonyAuthentication => "authentication" end.
Definition scan_ceremony_type (s : string) : option CeremonyType :=
  if String.eqb s "registration" then Some CeremonyRegistration else
  if String.eqb s "authentication" then Some CeremonyAuthentication else None.

Definition passkeyCredentialDocument (credentialID subjectID encoded : string) (createdAt updatedAt : time) : document :=
  [("_id", BBinary credentialID); ("subject_id", BString subjectID); ("credential", BBinary encoded);
   ("created_at", datetime createdAt); ("updated_at", datetime updatedAt)].

(** The fields of a [passkeyCredentialDocument] that are read: whose it is, and
    the encoded credential. *)
Definition decode_credential (d : document) : result (string * string) :=
  _ <-! get_binary "_id" d;
  subjectID <-! get_string "subject_id" d;
  encoded <-! get_binary "credential" d;
  _ <-! get_time "created_at" d;
  _ <-! get_time "updated_at" d;
  Ok (subjectID, encoded).

(** The loop over the cursor. *)
Fixpoint read_credentials (l : list document) (credentials : list Credential) : result (list Credential) :=
  match l with
  | [] => Ok credentials
  | d :: l =>
      stored <-! decode_credential d;
      credential <-! json_Unmarshal stored.2;
      read_credentials l (credentials ++ [credential])
  end.

Definition findUser (f : filter) : M S (result User) :=
  r <- run (plain (client adapter)) (FindOne usersCollection f) ;;
  match or_absent ErrNotFound (decoded decode_user r) with
  | Err err => ret (Err err)
  | Ok document =>
      found <-? run (plain (client adapter)) (Find passkeyCredentialsCollection (Eq "subject_id" (BString (ud_ID document))) None) ;;
      let '(l, cursor_Err) := found in
      ret (credentials <-! read_credentials l [];
           _ <-! cursor_Err;
           Ok (mkUser (ud_ID document) (ud_WebAuthnHandle document) (ud_Email document) (ud_Email document) credentials))
  end.

Definition PasskeyStore_FindUserBySubject (subjectID : string) : M S (result User) :=
  findUser (Eq "_id" (BString subjectID)).

Definition PasskeyStore_FindUserByCredential (credentialID userHandle : string) : M S (result User) :=
  r <- run (plain (client adapter)) (FindOne passkeyCredentialsCollection (Eq "_id" (BBinary credentialID))) ;;
  match or_absent ErrNotFound (decoded decode_credential r) with
  | Err err => ret (Err err)
  | Ok (subjectID, _) => findUser (And [Eq "_id" (BString subjectID); Eq "webauthn_handle" (BBinary userHandle)])
  end.

Definition PasskeyStore_CreateCeremony (ceremony : Ceremony) : M S (result unit) :=
  let session := json_Marshal (Session ceremony) in
  r <- run (plain (client adapter))
    (InsertOne passkeyCeremoniesCollection
       [("_id", BBinary (cer_TokenHash ceremony)); ("ceremony_type", BString (ceremony_type (cer_Type ceremony)));
        ("subject_id", BString (cer_SubjectID ceremony)); ("session_data", BBinary session);
        ("created_at", datetime (cer_CreatedAt ceremony)); ("expires_at", datetime (cer_ExpiresAt ceremony))]) ;;
  ret (conflicting ErrConflict r).

(** A type that is neither of the two has no value in the model. *)
Definition decodeCeremony (d : document) : result Ceremony :=
  hash <-! get_binary "_id" d;
  type <-! get_string "ceremony_type" d;
  subjectID <-! get_string "subject_id" d;
  session <-! get_binary "session_data" d;
  createdAt <-! get_time "created_at" d;
  expiresAt <-! get_time "expires_at" d;
  _ <-! get_optional_time "consumed_at" d;
  match scan_ceremony_type type with
  | None => Err ErrDecode
  | Some type => session <-! json_Unmarshal session; Ok (mkCeremony type hash subjectID session createdAt expiresAt)
  end.

Definition PasskeyStore_FindCeremony (ceremonyHash : CeremonyHash) : M S (result Ceremony) :=
  r <- run (plain (client adapter))
    (FindOne passkeyCeremoniesCollection (And [Eq "_id" (BBinary ceremonyHash); missing "consumed_at"])) ;;
  ret (d <-! or_absent ErrNotFound r; decodeCeremony d).

Definition consumeCeremony (tx : Runner S) (hash : CeremonyHash) (subjectID : string) (ceremonyType : CeremonyType)
    (at_ : time) : M S (result unit) :=
  r <- run tx (UpdateOne passkeyCeremoniesCollection
                 (And [Eq "_id" (BBinary hash); Eq "ceremony_type" (BString (ceremony_type ceremonyType));
                       Eq "subject_id" (BString subjectID); missing "consumed_at"; Gt "expires_at" (datetime at_)])
                 (SetFields [("consumed_at", datetime at_)])) ;;
  ret (some_matched ErrInactiveCeremony r).

Definition PasskeyStore_CompleteRegistration (ceremonyHash : CeremonyHash) (subjectID : string)
    (credential : Credential) (completedAt : time) : M S (result unit) :=
  let encoded := json_Marshal credential in
  in_transaction adapter (fun tx =>
    _ <-? consumeCeremony tx ceremonyHash subjectID CeremonyRegistration completedAt ;;
    r <- lockUser tx subjectID ;;
    match or_absent ErrNotFound r with
    | Err err => ret (Err err)
    | Ok _ =>
        r <- run tx (InsertOne passkeyCredentialsCollection
                       (passkeyCredentialDocument (cred_ID credential) subjectID encoded completedAt completedAt)) ;;
        ret (conflicting ErrConflict r)
    end).

Definition PasskeyStore_CompleteAuthentication (ceremonyHash : CeremonyHash) (subjectID : string)
    (previous updated : Credential) (completedAt : time) : M S (result unit) :=
  let previousJSON := json_Marshal previous in
  let updatedJSON := json_Marshal updated in
  in_transaction adapter (fun tx =>
    _ <-? consumeCeremony tx ceremonyHash subjectID CeremonyAuthentication completedAt ;;
    r <- run tx (UpdateOne passkeyCredentialsCollection
                   (And [Eq "_id" (BBinary (cred_ID previous)); Eq "subject_id" (BString subjectID);
                         Eq "credential" (BBinary previousJSON)])
                   (SetFields [("credential", BBinary updatedJSON); ("updated_at", datetime completedAt)])) ;;
    ret (some_matched ErrConflict r)).

Definition PasskeyStore_DeleteCredential (subjectID credentialID : string) (_ : time) : M S (result unit) :=
  in_transaction adapter (fun tx =>
    r <- lockUser tx subjectID ;;
    match or_absent ErrNotFound r with
    | Err err => ret (Err err)
    | Ok _ =>
        passkeys <-? run tx (CountDocuments passkeyCredentialsCollection (Eq "subject_id" (BString subjectID))) ;;
        passwords <-? run tx (CountDocuments passwordsCollection (Eq "_id" (BString subjectID))) ;;
        googleIdentities <-? run tx (CountDocuments googleIdentitiesCollection (Eq "user_id" (BString subjectID))) ;;
        if (passkeys =? 1)%nat && (passwords + googleIdentities =? 0)%nat then ret (Err ErrLastCredential) else
        r <- run tx (DeleteOne passkeyCredentialsCollection
                       (And [Eq "_id" (BBinary credentialID); Eq "subject_id" (BString subjectID)])) ;;
        ret (some_matched ErrNotFound r)
    end).

Definition PasskeyStore : Store S :=
  {| store_FindUserBySubject := PasskeyStore_FindUserBySubject;
     store_FindUserByCredential := PasskeyStore_FindUserByCredential;
     store_CreateCeremony := PasskeyStore_CreateCeremony;
     store_FindCeremony := PasskeyStore_FindCeremony;
     store_CompleteRegistration := PasskeyStore_CompleteRegistration;
     store_CompleteAuthentication := PasskeyStore_CompleteAuthentication;
     store_DeleteCredential := PasskeyStore_DeleteCredential |}.
End Passkeys_.

(** ** OpenID Connect and SAML *)
Section Sso_.
Context {S : Type} (adapter : Adapter S).

Definition oidcChallengeDocument (challenge : Oidc.Challenge) : document :=
  [("_id", BBinary (Oidc.StateHash challenge)); ("connection_id", BString (Oidc.ch_ConnectionID challenge));
   ("issuer", BString (Oidc.ch_Issuer challenge)); ("client_id", BString (Oidc.ch_ClientID challenge));
   ("redirect_url", BString (Oidc.ch_RedirectURL challenge)); ("scopes", BArray (Oidc.ch_Scopes challenge));
   ("require_verified_email", BBoolean (Oidc.ch_RequireVerifiedEmail challenge)); ("nonce", BString (Oidc.ch_Nonce challenge));
   ("code_verifier", BString (Oidc.CodeVerifier challenge)); ("created_at", datetime (Oidc.CreatedAt challenge));
   ("expires_at", datetime (Oidc.ExpiresAt challenge))].

Definition oidc_challenge (d : document) : result Oidc.Challenge :=
  hash <-! get_binary "_id" d;
  connectionID <-! get_string "connection_id" d;
  issuer <-! get_string "issuer" d;
  clientID <-! get_string "client_id" d;
  redirectURL <-! get_string "redirect_url" d;
  scopes <-! get_strings "scopes" d;
  requireVerifiedEmail <-! get_bool "require_verified_email" d;
  nonce <-! get_string "nonce" d;
  codeVerifier <-! get_string "code_verifier" d;
  createdAt <-! get_time "created_at" d;
  expiresAt <-! get_time "expires_at" d;
  Ok (Oidc.mkChallenge hash connectionID issuer clientID redirectURL scopes requireVerifiedEmail nonce codeVerifier createdAt
        expiresAt).

Definition OIDCStore_CreateChallenge (challenge : Oidc.Challenge) : M S (result unit) :=
  r <- run (plain (client adapter)) (InsertOne oidcChallengesCollection (oidcChallengeDocument challenge)) ;;
  ret (conflicting Oidc.ErrConflict r).

Definition OIDCStore_ConsumeChallenge (stateHash : Hash) (consumedAt : time) : M S (result Oidc.Challenge) :=
  r <- run (plain (client adapter)) (FindOneAndDelete oidcChallengesCollection (Eq "_id" (BBinary stateHash))) ;;
  ret (challenge <-! or_absent Oidc.ErrNotFound (decoded oidc_challenge r);
       if negb (Before consumedAt (Oidc.ExpiresAt challenge)) then Err Oidc.ErrInactiveState else Ok challenge).

Definition OIDCStore : Oidc.Store S :=
  {| Oidc.store_CreateChallenge := OIDCStore_CreateChallenge;
     Oidc.store_ConsumeChallenge := OIDCStore_ConsumeChallenge |}.

Definition samlRequestDocument (request : Saml.Request) : document :=
  [("_id", BBinary (Saml.StateHash request)); ("connection_id", BString (Saml.req_ConnectionID request));
   ("connection_hash", BBinary (Saml.ConnectionHash request)); ("request_id", BString (Saml.RequestID request));
   ("created_at", datetime (Saml.CreatedAt request)); ("expires_at", datetime (Saml.ExpiresAt request))].

Definition saml_request (d : document) : result Saml.Request :=
  hash <-! get_binary "_id" d;
  connectionID <-! get_string "connection_id" d;
  connectionHash <-! get_binary "connection_hash" d;
  requestID <-! get_string "request_id" d;
  createdAt <-! get_time "created_at" d;
  expiresAt <-! get_time "expires_at" d;
  Ok (Saml.mkRequest hash connectionID connectionHash requestID createdAt expiresAt).

Definition SAMLStore_CreateRequest (request : Saml.Request) : M S (result unit) :=
  r <- run (plain (client adapter)) (InsertOne samlRequestsCollection (samlRequestDocument request)) ;;
  ret (conflicting Saml.ErrConflict r).

Definition SAMLStore_ConsumeRequest (stateHash : Hash) (consumedAt : time) : M S (result Saml.Request) :=
  r <- run (plain (client adapter)) (FindOneAndDelete samlRequestsCollection (Eq "_id" (BBinary stateHash))) ;;
  ret (request <-! or_absent Saml.ErrNotFound (decoded saml_request r);
       if negb (Before consumedAt (Saml.ExpiresAt request)) then Err Saml.ErrInactiveRequest else Ok request).

Definition SAMLStore : Saml.Store S :=
  {| Saml.store_CreateRequest := SAMLStore_CreateRequest;
     Saml.store_ConsumeRequest := SAMLStore_ConsumeRequest |}.
End Sso_.

(** ** The adapter as a database *)
Section Stores_.
Context {S : Type} `{Env} `{JSON Passkey.Credential} `{JSON Passkey.SessionData} (adapter : Adapter S).

Definition Stores : Config.Stores S :=
  Config.mkStores
    (Some (Config.mkEmailPasswordStore (EmailPasswordStore adapter) (EmailPasswordCredentialStore adapter)))
    (Some (EmailVerificationStore adapter))
    (Some (Config.mkGoogleStore (GoogleStore adapter) (GoogleStore_UnlinkIdentity adapter)))
    (Some (OIDCStore adapter)) (Some (PasskeyStore adapter)) (Some (PasswordResetStore adapter))
    (Some (RefreshTokenStore adapter)) (Some (SAMLStore adapter)) (Some (SessionStore adapter)) (Some (TOTPStore adapter))
    (Some (AccessSessionStore_ adapter)).
End Stores_.
