(* ===== verification/StorageProps.v ===== *)
(** * Properties of the database adapters

    A reference server that keeps the promises of module SqlServer and one that
    keeps those of module Mongo, and what holds of the adapters for PostgreSQL,
    MySQL and MongoDB over any servers that keep them. *)
From Stdlib Require Import Sorting.Sorted.
From stdpp Require Import sorting.
From S2P Require Import Prelude GoText GoJson Token Sql SqlServer.
From S2P Require SessionToken SessionSpec BearerSpec AccountSpec Passkey PasskeySpec PasskeyProps RedisReference RedisPasskeysProps Migrate Mysql Mongo Postgres PostgresSessions PostgresAccounts PostgresFactors.

(** ** A reference server

    The server of one client: a statement takes effect at the instant of the
    call, and its rows come newest first where they are ordered. After a
    statement that fails, a transaction is of no use. *)
Definition instant_of (r : value * list value) : Z := match r.1 with Timestamp t => t | _ => 0 end.
Definition newest_first (a b : value * list value) : Prop := (instant_of b <= instant_of a)%Z.
#[export] Instance newest_first_dec a b : Decision (newest_first a b).
Proof. unfold newest_first. apply _. Defined.
#[export] Instance newest_first_trans : Transitive newest_first.
Proof. intros a b c. unfold newest_first. lia. Qed.
#[export] Instance newest_first_total : Total newest_first.
Proof. intros a b. unfold newest_first. lia. Qed.

Definition ordered (s : statement) (rows : list (value * list value)) : list (value * list value) :=
  match s with SELECT _ _ _ (Some _) _ => merge_sort newest_first rows | _ => rows end.

Lemma ordered_Permutation s rows : ordered s rows ≡ₚ rows.
Proof. unfold ordered. destruct s as [? ? ? [] ?| | | |]; try done. apply merge_sort_Permutation. Qed.

Lemma ordered_in_order s rows : in_order s (ordered s rows).
Proof.
  unfold in_order, ordered. destruct s as [? ? ? [] ?| | | |]; try done.
  assert (Hs : StronglySorted newest_first (merge_sort newest_first rows)) by apply (StronglySorted_merge_sort _).
  clear -Hs. induction Hs as [|a l Hl IH Hall]; csimpl; constructor; [done|].
  apply Forall_fmap. eapply List.Forall_impl; [|exact Hall]. intros b. unfold newest_first, instant_of, not_before. simpl.
  by destruct a.1, b.1.
Qed.

Definition ErrLost : error := New "driver.ErrBadConn".

Section Server.
Context {T : Type} (d : dialect) (sch : schema) (noRows : error) (unique : error -> bool) (error_of : violation -> error).
Context (tag : nat -> T) (now : time) (run_text : string -> database -> result database).

Definition server_run (s : statement) (args : list value) (db : database) : result reply * database :=
  match execute d sch db now args s with
  | (inr r, db') => (Ok (ordered s r.1, r.2), db')
  | (inl v, _) => (Err (error_of v), db)
  end.

Definition server_in {A} (s : statement) (args : list value) (f : result reply -> result A) : M connection (result A) :=
  lift_ext (fun c =>
    match transaction c with
    | Some (Some db) =>
        let '(r, db') := server_run s args db in
        (f r, mkConnection (committed c) (Some (if is_ok r then Some db' else None)))
    | _ => (Err ErrLost, c)
    end).

Definition server_at_once {A} (s : statement) (args : list value) (f : result reply -> result A) : M connection (result A) :=
  lift_ext (fun c =>
    match transaction c with
    | None => let '(r, db') := server_run s args (committed c) in (f r, mkConnection db' None)
    | _ => (Err ErrLost, c)
    end).

Definition all_rows (r : result reply) : result (list (list value) * result unit) :=
  match r with Ok r => Ok (r.1.*2, Ok tt) | Err e => Err e end.

Definition server_text (text : string) : M connection (result unit) :=
  lift_ext (fun c =>
    match transaction c with
    | Some (Some db) =>
        match run_text text db with
        | Ok db' => (Ok tt, mkConnection (committed c) (Some (Some db')))
        | Err e => (Err e, mkConnection (committed c) (Some None))
        end
    | _ => (Err ErrLost, c)
    end).

Definition server_tx : Tx T connection :=
  {| tx_Exec s args := server_in s args (affected tag);
     tx_Exec_text text := server_text text;
     tx_QueryRow s args := server_in s args (first_row noRows);
     tx_Query s args := server_in s args all_rows;
     tx_Commit := lift_ext (fun c =>
       match transaction c with
       | Some (Some db) => (Ok tt, mkConnection db None)
       | _ => (Err ErrLost, mkConnection (committed c) None)
       end);
     tx_Rollback := lift_ext (fun c => (Ok tt, mkConnection (committed c) None)) |}.

Definition server_pool : Pool T connection :=
  {| pool_Exec s args := server_at_once s args (affected tag);
     pool_QueryRow s args := server_at_once s args (first_row noRows);
     pool_Query s args := server_at_once s args all_rows;
     pool_Begin := lift_ext (fun c =>
       match transaction c with
       | None => (Ok server_tx, mkConnection (committed c) (Some (Some (committed c))))
       | Some _ => (Err ErrLost, c)
       end) |}.

Lemma server_answers s args db :
  answers d sch noRows unique error_of s args db (server_run s args db).1 (server_run s args db).2.
Proof.
  unfold server_run. destruct (execute d sch db now args s) as [[v|r] db'] eqn:E; simpl.
  - split; [done|]. right. by exists now, v, db'.
  - exists now, r. split_and!; [done|apply ordered_Permutation|done|apply ordered_in_order].
Qed.

Lemma wp_server_in {A} s args (f : result reply -> result A) db0 db w : ext w = mkConnection db0 (Some (Some db)) ->
  wp (server_in s args f) (fun a w' => exists res db',
    answers d sch noRows unique error_of s args db res db' /\ a = f res /\ after db0 res db' (ext w')) w.
Proof.
  intros Hw. unfold server_in. apply wp_lift_ext. rewrite Hw. simpl. pose proof (server_answers s args db) as Ha.
  destruct (server_run s args db) as [r db']. exists r, db'. by destruct r.
Qed.

Lemma wp_server_at_once {A} s args (f : result reply -> result A) db w : ext w = mkConnection db None ->
  wp (server_at_once s args f) (fun a w' => exists res db',
    answers d sch noRows unique error_of s args db res db' /\ a = f res /\ ext w' = mkConnection db' None) w.
Proof.
  intros Hw. unfold server_at_once. apply wp_lift_ext. rewrite Hw. simpl. pose proof (server_answers s args db) as Ha.
  destruct (server_run s args db) as [r db']. by exists r, db'.
Qed.

Lemma server_tx_contract : TxContract d sch noRows unique error_of tag server_tx id.
Proof.
  split; simpl; intros.
  - by apply wp_server_in.
  - by apply wp_server_in.
  - eapply wp_mono; [by apply wp_server_in|]. intros q w' (res & db' & Ha & -> & Hc). exists res, db'. split; [done|].
    destruct res as [r|e]; simpl; [by eauto|by destruct Ha].
  - apply wp_lift_ext. unfold id in *. by rewrite H.
  - by apply wp_lift_ext.
Qed.

Lemma server_contract : PoolContract d sch noRows unique error_of tag server_pool id.
Proof.
  split; simpl; intros.
  - by apply wp_server_at_once.
  - by apply wp_server_at_once.
  - eapply wp_mono; [by apply wp_server_at_once|]. intros q w' (res & db' & Ha & -> & Hc). exists res, db'. split; [done|].
    destruct res as [r|e]; simpl; [by eauto|]. destruct Ha as [-> _]. done.
  - apply wp_lift_ext. unfold id in *. rewrite H. simpl. split; [apply server_tx_contract|done].
Qed.
End Server.

(** ** A reference server of MongoDB

    [WithTransaction] throws the first attempt away and runs its function again. *)
Section MongoServer.
Import Mongo.

Definition mongo_plain : Runner connection :=
  mkRunner (fun A (c : command A) => lift_ext (fun s =>
    match current s with
    | None => let '(r, db') := execute indexes_of demo_epoch c (committed s) in (r, mkConnection db' None)
    | Some _ => (Err ErrLost, s)
    end)).

Definition mongo_tx : Runner connection :=
  mkRunner (fun A (c : command A) => lift_ext (fun s =>
    match current s with
    | Some (Some db) =>
        let '(r, db') := execute indexes_of demo_epoch c db in (r, mkConnection (committed s) (Some (Some db')))
    | _ => (Err ErrLost, s)
    end)).

Definition begin_ : M connection unit := lift_ext (fun s => (tt, mkConnection (committed s) (Some (Some (committed s))))).
Definition abort_ : M connection unit := lift_ext (fun s => (tt, mkConnection (committed s) None)).
Definition commit_ : M connection unit := lift_ext (fun s =>
  (tt, mkConnection match current s with Some (Some db) => db | _ => committed s end None)).

Definition mongo_client : Client connection :=
  {| plain := mongo_plain;
     CreateMany _ _ := ret (Ok tt);
     StartSession := ret (Ok tt);
     WithTransaction L f l :=
       begin_ ;;; first <- f mongo_tx l ;; abort_ ;;;
       begin_ ;;; r <- f mongo_tx first.1 ;;
       match r.2 with
       | Ok _ => commit_ ;;; ret r
       | Err _ => abort_ ;;; ret r
       end |}.

Lemma mongo_tx_runner : TxRunner id mongo_tx.
Proof.
  split. intros A c db0 db w Hw. simpl. apply wp_lift_ext. unfold inside, id in *. rewrite Hw. simpl.
  destruct (execute indexes_of demo_epoch c db) as [r db'] eqn:E. left. by exists demo_epoch, db'.
Qed.

#[export] Instance mongo_client_contract : ClientContract id mongo_client.
Proof.
  split.
  - intros A c db w Hw. simpl. apply wp_lift_ext. unfold idle, id in *. rewrite Hw. simpl.
    destruct (execute indexes_of demo_epoch c db) as [r db'] eqn:E. exists db'. split; [left; by exists demo_epoch|done].
  - intros db w Hw. by apply wp_ret.
  - intros L f J P l db w Hw Hl Hf. simpl. apply wp_bind, wp_lift_ext. simpl. apply wp_bind.
    eapply wp_mono; [apply (Hf mongo_tx l); [exact mongo_tx_runner|done|unfold inside, id; by rewrite Hw]|].
    intros [l1 r1] w1 [Hl1 Hw1]. simpl in *.
    assert (Hb : broken id db w1) by (destruct r1 as [[]|e]; [destruct Hw1 as (db1 & Hw1 & _); by eapply mongo_inside_broken|done]).
    clear Hw1. apply wp_bind, wp_lift_ext. simpl. apply wp_bind, wp_lift_ext. simpl. apply wp_bind.
    eapply wp_mono; [apply (Hf mongo_tx l1); [exact mongo_tx_runner|done|unfold inside, broken, id in *; simpl; by rewrite Hb]|].
    intros [l2 r2] w2 [Hl2 Hw2]. simpl in *. destruct r2 as [[]|e]; apply wp_bind, wp_lift_ext; simpl; apply wp_ret; (split; [done|]).
    + destruct Hw2 as (db2 & Hw2 & HP). exists db2. split; [|done]. unfold idle, inside, id in *. simpl. by rewrite Hw2.
    + unfold idle, broken, id in *. simpl. by rewrite Hw2.
Qed.
End MongoServer.

(** ** Sign-in methods in the tables *)
Section PostgresCredentials.
Import Postgres PostgresAccounts PostgresFactors.
Context {S : Type} `{PgTypes} (adapter : Adapter S) (conn : S -> connection) `{!PoolContract (pool adapter) conn}.

(** The ways in which a user can sign in: a password, Google identities, passkeys. *)
Definition sign_in_ways (db : database) (id : string) : nat :=
  owned pw_UserID id (rows_of password_record db) + owned gi_UserID id (rows_of identity_record db) +
  owned pk_SubjectID id (rows_of passkey_record db).

Definition way_tables : list string :=
  ["authlier_password_credentials"; "authlier_google_identities"; "authlier_passkey_credentials"].

(** One of several ways of the user is gone, or nothing changed. *)
Definition one_way_less (id : string) (db : database) (res : result unit) (db' : database) : Prop :=
  ok db' /\
  match res with
  | Ok _ => sign_in_ways db id = Datatypes.S (sign_in_ways db' id) /\ sign_in_ways db' id <> 0 /\
            (forall j, j <> id -> sign_in_ways db' j = sign_in_ways db j) /\
            (forall name, name ∉ way_tables -> rows_in db' name = rows_in db name)
  | Err _ => db' = db
  end.

(** The rows of the user in one table, of which the key is the user, are gone. *)
Lemma ways_after (A : Type) (owner : A -> string) id rows rows' : NoDup (owner <$> rows) ->
  (exists a, a ∈ rows /\ owner a = id) -> rows' = List.filter (fun a => negb (String.eqb (owner a) id)) rows ->
  owned owner id rows = Datatypes.S (owned owner id rows') /\ owned owner id rows' = 0 /\
  forall j, j <> id -> owned owner j rows' = owned owner j rows.
Proof.
  intros Hnd (a & Ha & Hid) ->.
  destruct (owned_remove owner (fun a => String.eqb (owner a) id) id rows) as [H1 H2]; [by intros b ->%String.eqb_eq|].
  rewrite (one_row owner _ rows id) in H1; [|done|by intros b ->%String.eqb_eq|].
  - assert (H0 : owned owner id (List.filter (fun a => negb (String.eqb (owner a) id)) rows) = 0).
    { unfold owned at 1. rewrite filter_none; [done|]. intros b [_ Hb]%elem_of_List_filter. by destruct (String.eqb _ _). }
    split_and!; [lia|done|done].
  - intros E. assert (Hf : a ∈ List.filter (fun a => String.eqb (owner a) id) rows)
      by (apply elem_of_List_filter; split; [done|by apply String.eqb_eq]). rewrite E in Hf. set_solver.
Qed.

Lemma RemovePassword_ways id h at_ db w : idle conn db w -> ok db ->
  wp (EmailPasswordStore_RemovePassword adapter id h at_) (leaves conn (one_way_less id db)) w.
Proof.
  intros Hw Hok. eapply wp_mono; [by apply (RemovePassword_effect adapter conn)|].
  intros res w' (db' & Hw' & Hok' & Hpost). exists db'. split; [done|]. split; [done|].
  destruct res as [[]|e]; [|done]. destruct Hpost as ((p & Hp & _) & Hm & _ & Hrows & Hs).
  apply password_at in Hp; [|done].
  destruct (ways_after password_record pw_UserID id _ _ (password_keys _ Hok) (ex_intro _ p Hp) Hrows) as (H1 & H2 & H3).
  unfold sign_in_ways. rewrite (rows_of_same identity_record _ _ _ Hs), (rows_of_same passkey_record _ _ _ Hs) by done.
  change (other_methods db id) with (owned gi_UserID id (rows_of identity_record db) + owned pk_SubjectID id (rows_of passkey_record db)) in Hm.
  split_and!; [lia|lia|intros j Hj; by rewrite H3|intros n Hn; apply Hs; set_solver].
Qed.

Lemma UnlinkIdentity_ways id at_ db w : idle conn db w -> ok db ->
  wp (GoogleStore_UnlinkIdentity adapter id at_) (leaves conn (one_way_less id db)) w.
Proof.
  intros Hw Hok. eapply wp_mono; [by apply (UnlinkIdentity_effect adapter conn)|].
  intros res w' (db' & Hw' & Hok' & Hpost). exists db'. split; [done|]. split; [done|].
  destruct res as [[]|e]; [|done]. destruct Hpost as (Hi & Hm & Hrows & Hs).
  destruct (ways_after identity_record gi_UserID id _ _ (identity_users _ Hok) Hi Hrows) as (H1 & H2 & H3).
  unfold sign_in_ways, local_methods in *.
  rewrite (rows_of_same password_record _ _ _ Hs), (rows_of_same passkey_record _ _ _ Hs) by done.
  split_and!; [lia|lia|intros j Hj; by rewrite H3|intros n Hn; apply Hs; set_solver].
Qed.

Lemma DeleteCredential_ways id credentialID at_ db w : idle conn db w -> ok db ->
  wp (PasskeyStore_DeleteCredential adapter id credentialID at_) (leaves conn (one_way_less id db)) w.
Proof.
  intros Hw Hok. unfold PasskeyStore_DeleteCredential.
  eapply wp_with_tx; [done|exact Hw|done|]. intros tx w1 Htx Hw1. wp_go.
  eapply wp_lockUser; [done|exact Hw1| |refused db]. intros w2 Hw2. cbn [or_absent]. wp_go.
  eapply wp_tx_QueryRow; [done|exact Hw2| |refused db..].
  intros r row2 db2 w4 Hw4 Hr Hrow. eapply runs_counts in Hr as [-> [now ->]]; [|exact Hrow]. clear Hrow.
  cbn [fmap list_fmap]. counted. wp_go; try by left_in db.
  eapply wp_tx_Exec; [done|exact Hw4| |refused db]. intros r3 db3 w5 Hw5 Hr3.
  eapply (runs_delete_owned passkey_record pk_SubjectID id _ _ _ _ _ _
      (fun a => String.eqb (pk_SubjectID a) id && String.eqb (pk_CredentialID a) credentialID)) in Hr3
    as (Hok3 & Hs & Hn & Hone & Hrest); [|done|in_list|done|done|intros; by sql_eval; rewrite !eqb_decide|].
  2: { intros a Ha. by go_bool. }
  wp_go; [by left_in db|]. rewrite Hn in Heqb0. erewrite one_row in Hone; [|by apply (bytea_key passkey_record pk_CredentialID "credential_id" db); [|in_list..|]| |].
  2: { intros a Ha. go_bool. done. }
  2: { intros E. by rewrite E in Heqb0. }
  eapply wp_commit; [done|exact Hw5| |intros e _; done].
  unfold one_way_less, sign_in_ways. rewrite (rows_of_same password_record _ _ _ Hs), (rows_of_same identity_record _ _ _ Hs) by done.
  split_and!; [done|lia| |intros j Hj; by rewrite Hrest|intros n Hn'; apply Hs; set_solver].
  apply andb_false_iff in Heqb as [E|E]; go_bool; lia.
Qed.
End PostgresCredentials.

(** ** Ceremonies in the tables *)
Section PostgresPasskeys.
Import Postgres PostgresAccounts Passkey PostgresFactors.

Record ceremony_record : Type := mkCeremonyRecord {
  cc_TokenHash : string; cc_Type : string; cc_SubjectID : string; cc_Session : string;
  cc_CreatedAt : time; cc_ExpiresAt : time; cc_ConsumedAt : option time }.

Definition ceremony_row (c : ceremony_record) : row :=
  [("token_hash", Bytea (cc_TokenHash c)); ("ceremony_type", Text (cc_Type c)); ("subject_id", Text (cc_SubjectID c));
   ("session_data", Jsonb (cc_Session c)); ("created_at", Timestamp (cc_CreatedAt c));
   ("expires_at", Timestamp (cc_ExpiresAt c)); ("consumed_at", nullable Timestamp (cc_ConsumedAt c))].
Arguments ceremony_row c /.

#[export, refine] Instance ceremony_entity : Entity ceremony_record :=
  {| entity := authlier_passkey_ceremonies; to_row := ceremony_row;
     of_row r := match r.*2 with
                 | [Bytea h; Text t; Text s; Jsonb d; Timestamp c; Timestamp x; u] =>
                     mkCeremonyRecord h t s d c x <$> scan_optional_time u
                 | _ => None
                 end |}.
Proof.
  - by intros [? ? ? ? ? ? []].
  - intros r Ht Hc. pose proof (typed_fits _ _ Ht Hc) as Hfits. clear Ht Hc. row_cells Hfits.
    + by eexists (mkCeremonyRecord _ _ _ _ _ _ None).
    + by eexists (mkCeremonyRecord _ _ _ _ _ _ (Some _)).
Defined.

Context {S : Type} `{PgTypes} `{JSON Credential} `{JSON SessionData} (adapter : Adapter S) (conn : S -> connection)
  `{!PoolContract (pool adapter) conn}.

(** The ceremonies that are sign-ins have no subject. *)
Definition subjectless_rows (db : database) : Prop :=
  forall c, c ∈ rows_of ceremony_record db -> cc_Type c = ceremony_type CeremonyAuthentication -> cc_SubjectID c = "".
Definition subjectless_tables (s : S) : Prop := in_order_state conn s /\ subjectless_rows (committed (conn s)).

Lemma subjectless_idle db w : idle conn db w -> ok db -> subjectless_rows db -> subjectless_tables (ext w).
Proof. intros Hw Hok Hs. destruct (idle_in_order conn db w Hw Hok) as [Ho Hc]. split; [done|]. by rewrite Hc. Qed.

Lemma subjectless_same name db db' : others_same db name db' -> table_name authlier_passkey_ceremonies <> name ->
  subjectless_rows db -> subjectless_rows db'.
Proof. intros Hs Hn Hdb. unfold subjectless_rows. rewrite (rows_of_same ceremony_record name db db' Hs); [done|exact Hn]. Qed.

(** A query changes nothing. *)
Lemma subjectless_QueryRow targets source condition order_by locks args w (Q : result (list value) -> World S -> Prop) :
  subjectless_tables (ext w) -> (forall row w', subjectless_tables (ext w') -> Q row w') ->
  wp (pool_QueryRow (pool adapter) (SELECT targets source condition order_by locks) args) Q w.
Proof.
  intros [Hin Hs] HQ. destruct (in_order_idle conn w Hin) as [Hw Hok]. eapply wp_pool_QueryRow; [done|exact Hw|..].
  - intros r row db' w' Hw' ->%runs_SELECT_same _. apply HQ. by eapply subjectless_idle.
  - intros r db' w' Hw' ->%runs_SELECT_same _. apply HQ. by eapply subjectless_idle.
  - intros e w' Hw' _. apply HQ. by eapply subjectless_idle.
Qed.

Lemma subjectless_Query targets source condition order_by locks args w (Q : result (list (list value) * result unit) -> World S -> Prop) :
  subjectless_tables (ext w) -> (forall rows w', subjectless_tables (ext w') -> Q rows w') ->
  wp (pool_Query (pool adapter) (SELECT targets source condition order_by locks) args) Q w.
Proof.
  intros [Hin Hs] HQ. destruct (in_order_idle conn w Hin) as [Hw Hok]. eapply wp_pool_Query; [done|exact Hw|..].
  - intros r rows db' w' Hw' ->%runs_SELECT_same _ _. apply HQ. by eapply subjectless_idle.
  - intros rows e w' Hw'. apply HQ. by eapply subjectless_idle.
  - intros e w' Hw' _. apply HQ. by eapply subjectless_idle.
Qed.

Lemma preserves_findUser predicate args : RedisPasskeysProps.preserves subjectless_tables (findUser adapter predicate args).
Proof.
  intros w Hw. unfold findUser. wp_go. apply subjectless_QueryRow; [done|]. intros row w1 Hw1. wp_go; try done.
  apply subjectless_Query; [done|]. intros [[rows last]|e] w2 Hw2; by wp_go.
Qed.

Lemma preserves_FindCeremony h : RedisPasskeysProps.preserves subjectless_tables (PasskeyStore_FindCeremony adapter h).
Proof.
  intros w Hw. unfold PasskeyStore_FindCeremony. wp_go. apply subjectless_QueryRow; [done|]. intros row w1 Hw1. by wp_go.
Qed.

Lemma preserves_CreateCeremony c : (cer_Type c = CeremonyAuthentication -> cer_SubjectID c = "") ->
  RedisPasskeysProps.preserves subjectless_tables (PasskeyStore_CreateCeremony adapter c).
Proof.
  intros Hc w [Hin Hs]. destruct (in_order_idle conn w Hin) as [Hw Hok]. unfold PasskeyStore_CreateCeremony. wp_go.
  eapply wp_pool_Exec; [done|exact Hw|..].
  - intros r db' w' Hw' Hr. wp_go.
    eapply (runs_INSERT ceremony_record) with (a := fun _ => mkCeremonyRecord (cer_TokenHash c) (ceremony_type (cer_Type c))
      (cer_SubjectID c) (jsonb_value (json_Marshal (Session c))) (microseconds (cer_CreatedAt c)) (microseconds (cer_ExpiresAt c)) None)
      in Hr as (_ & Hrows & Hok' & _); [|in_list|done|done|done|by intros; sql_eval].
    eapply subjectless_idle; [done|done|]. intros x. rewrite Hrows, elem_of_app, list_elem_of_singleton.
    intros [Hx| ->]; [by apply Hs|]. simpl. intros Ht. apply Hc. by destruct (cer_Type c).
  - intros e w' Hw' _. wp_go. by eapply subjectless_idle.
Qed.

(** Ceremonies that are used up keep their types and subjects. *)
Lemma runs_consume values args condition db r db' p (f : ceremony_record -> ceremony_record) :
  runs (UPDATE "authlier_passkey_ceremonies" values condition []) args db r db' -> ok db ->
  (forall now a, matches postgresql db now args condition (to_row a) = p a) ->
  (forall now a, p a = true -> updated postgresql db now args values (to_row a) = to_row (f a)) ->
  (forall a, cc_Type (f a) = cc_Type a /\ cc_SubjectID (f a) = cc_SubjectID a) ->
  ok db' /\ r.2 = length (List.filter p (rows_of ceremony_record db)) /\ (subjectless_rows db -> subjectless_rows db').
Proof.
  intros Hr Hok Hp Hf Hsame. eapply (runs_UPDATE ceremony_record) with (p := p) (f := f) (g := fun _ => []) in Hr
    as (Hrows & _ & Hn & Hok' & _); try done; [|in_list].
  split_and!; try done. intros Hs x. rewrite Hrows, list_elem_of_fmap. intros (c & -> & Hc).
  destruct (p c); [|by apply Hs]. destruct (Hsame c) as [-> ->]. by apply Hs.
Qed.

Definition consumed_at (at_ : time) (c : ceremony_record) : ceremony_record :=
  mkCeremonyRecord (cc_TokenHash c) (cc_Type c) (cc_SubjectID c) (cc_Session c) (cc_CreatedAt c) (cc_ExpiresAt c) (Some at_).

Lemma wp_consume tx h id type at_ db0 db w (Q : result unit -> World S -> Prop) :
  TxContract tx conn -> inside conn db0 db w -> ok db ->
  (forall db' w', inside conn db0 db' w' -> ok db' -> (subjectless_rows db -> subjectless_rows db') ->
     (exists c, c ∈ rows_of ceremony_record db /\ cc_Type c = ceremony_type type /\ cc_SubjectID c = id) -> Q (Ok tt) w') ->
  (forall e w', broken conn db0 w' -> Q (Err e) w') ->
  wp (consumePasskeyCeremony tx h id type at_) Q w.
Proof.
  intros Htx Hw Hok Hyes Hno. unfold consumePasskeyCeremony. wp_go.
  eapply wp_tx_Exec; [done|exact Hw| |intros e w' Hw' _; wp_go; eauto]. intros r db' w' Hw' Hr.
  eapply runs_consume with (f := consumed_at (microseconds at_))
    (p := fun a => String.eqb (cc_TokenHash a) h && (String.eqb (cc_Type a) (ceremony_type type) && (String.eqb (cc_SubjectID a) id &&
      (is_null (nullable Timestamp (cc_ConsumedAt a)) && (microseconds at_ <? cc_ExpiresAt a)%Z)))) in Hr as (Hok' & Hn & Hs); [|done|..].
  - wp_go; [eauto|]. eapply Hyes; [done|done|done|]. rewrite Hn in Heqb.
    destruct (List.filter _ _) as [|c l] eqn:E; [done|]. exists c.
    assert (Hc : c ∈ c :: l) by set_solver. rewrite <- E in Hc. apply elem_of_List_filter in Hc as [Hc Hp]. by go_bool.
  - intros now a. sql_eval. by rewrite !eqb_decide.
  - intros now a _. by sql_eval.
  - done.
Qed.

(** A call that leaves the ceremonies of sign-ins without a subject. *)
Lemma leaves_subjectless {A} (P : result A -> database -> Prop) r w :
  leaves conn (fun r db' => ok db' /\ subjectless_rows db' /\ P r db') r w ->
  subjectless_tables (ext w) /\ exists db', P r db'.
Proof. intros (db' & Hw & Hok & Hs & Hp). split; [by eapply subjectless_idle|by exists db']. Qed.

Lemma preserves_CompleteRegistration h id c at_ :
  RedisPasskeysProps.preserves subjectless_tables (PasskeyStore_CompleteRegistration adapter h id c at_).
Proof.
  intros w [Hin Hs]. destruct (in_order_idle conn w Hin) as [Hw Hok].
  eapply wp_mono; [|intros r w' Hl; exact (proj1 (leaves_subjectless (fun _ _ => True) r w' Hl))].
  unfold PasskeyStore_CompleteRegistration.
  eapply wp_with_tx; [done|exact Hw|done|]. intros tx w1 Htx Hw1. wp_go.
  eapply wp_consume; [done|exact Hw1|done| |intros e w' Hw'; by left_in (committed (conn (ext w)))].
  intros db2 w2 Hw2 Hok2 Hs2 _. wp_go. eapply wp_tx_Exec; [done|exact Hw2| |].
  - intros r db3 w3 Hw3 Hr. pose proof (runs_ok _ _ _ _ _ Hr Hok2) as Hok3.
    eapply (runs_INSERT passkey_record) with (a := fun _ => mkPasskeyRecord (cred_ID c) id (jsonb_value (json_Marshal c))
      (microseconds at_) (microseconds at_)) in Hr as (_ & _ & _ & Hsame); [|in_list|done|done|done|by intros; sql_eval].
    cbn [conflicting]. wp_go. eapply wp_commit; [done|exact Hw3| |done]. split_and!; [done| |done].
    eapply subjectless_same; [exact Hsame|done|by apply Hs2].
  - intros e w' Hw' _. unfold conflicting. destruct (uniqueViolation e); wp_go; by left_in (committed (conn (ext w))).
Qed.

Lemma preserves_DeleteCredential id c at_ :
  RedisPasskeysProps.preserves subjectless_tables (PasskeyStore_DeleteCredential adapter id c at_).
Proof.
  intros w [Hin Hs]. destruct (in_order_idle conn w Hin) as [Hw Hok].
  eapply wp_mono; [by apply DeleteCredential_ways|]. intros r w' (db' & Hw' & Hok' & Hr).
  eapply subjectless_idle; [done|done|]. destruct r as [[]|e]; [|by rewrite Hr].
  unfold subjectless_rows, rows_of. destruct Hr as (_ & _ & _ & Hsame). by rewrite Hsame by (simpl; set_solver).
Qed.

Lemma refused_CompleteAuthentication_tables h id previous updated at_ w : subjectless_tables (ext w) -> id <> "" ->
  wp (PasskeyStore_CompleteAuthentication adapter h id previous updated at_)
    (fun r w' => subjectless_tables (ext w') /\ is_ok r = false) w.
Proof.
  intros [Hin Hs] Hid. destruct (in_order_idle conn w Hin) as [Hw Hok].
  eapply wp_mono; [|intros r w' Hl; destruct (leaves_subjectless (fun r _ => is_ok r = false) r w' Hl) as [Hl1 [_ Hl2]]; exact (conj Hl1 Hl2)].
  unfold PasskeyStore_CompleteAuthentication.
  eapply wp_with_tx; [done|exact Hw|done|]. intros tx w1 Htx Hw1. wp_go.
  eapply wp_consume; [done|exact Hw1|done| |intros e w' Hw'; by left_in (committed (conn (ext w)))].
  intros db2 w2 Hw2 Hok2 Hs2 (c & Hc & Ht & Hsub). destruct Hid. rewrite <- Hsub. by apply Hs.
Qed.

Lemma postgres_refuses : RedisPasskeysProps.refuses_sign_ins (PasskeyStore adapter) subjectless_tables.
Proof.
  split; simpl.
  - intros id. apply preserves_findUser.
  - intros id handle. apply preserves_findUser.
  - apply preserves_CreateCeremony.
  - apply preserves_FindCeremony.
  - apply preserves_CompleteRegistration.
  - apply refused_CompleteAuthentication_tables.
  - apply preserves_DeleteCredential.
Qed.
End PostgresPasskeys.

(** ** Revoked sessions in MySQL *)
Section MysqlRevoke.
Import SessionToken Mysql.
#[local] Existing Instance PostgresSessions.session_entity.
Context {S : Type} `{MysqlTypes} (d : dialect) (adapter : Adapter S) (conn : S -> connection)
  `{!SqlServer.PoolContract d tables ErrNoRows uniqueViolation server_error result_of (db adapter) conn}.

(** The manager without its cache. *)
Definition uncached (manager : Manager S) : Manager S :=
  mkManager S (store manager) None (lifetime manager) (cacheTTL manager) (extension manager) (now manager).

Definition revoked_rows (h : Hash) (db : database) : Prop :=
  forall a, a ∈ rows_of SessionRecord db -> TokenHash a = h -> RevokedAt a <> None.

(** An UPDATE that changes nothing of the rows it matches affects none. *)
Lemma runs_unchanged name assignments condition returning args db0 r db' : counts_matched d = false ->
  runs d tables (UPDATE name assignments condition returning) args db0 r db' ->
  (forall now x, x ∈ rows_in db0 name -> matches d db0 now args condition x = true -> updated d db0 now args assignments x = x) ->
  r.2 = 0.
Proof.
  intros Hd [now He] Hx. simpl in He. apply checked_inr in He as (-> & _ & _). simpl.
  rewrite filter_none; [done|]. intros x [Hin Hm]%elem_of_List_filter. unfold changes. rewrite Hd. simpl.
  by rewrite bool_decide_eq_true_2 by by apply Hx.
Qed.

Lemma Revoke_revoked h at_ db0 w : counts_matched d = false -> idle conn db0 w -> db_ok d tables db0 -> revoked_rows h db0 ->
  wp (SessionStore_Revoke adapter h at_) (fun r w' => is_ok r = false /\ exists db', idle conn db' w') w.
Proof.
  intros Hd Hw Hok Hrev. unfold SessionStore_Revoke. wp_go. eapply wp_pool_Exec; [done|exact Hw|..].
  - intros r db' w' Hw' Hr. rewrite (runs_unchanged _ _ _ _ _ _ _ _ Hd Hr).
    + cbn. change (0 =? 0) with true. wp_go. split; [done|by exists db'].
    + intros now x Hx Hm. change "authlier_sessions" with (table_name (entity SessionRecord)) in Hx.
      assert (Hin : entity SessionRecord ∈ tables) by (change (entity SessionRecord) with authlier_sessions; unfold tables; in_list).
      rewrite (rows_typed SessionRecord d tables db0 Hin Hok) in Hx.
      apply list_elem_of_fmap in Hx as (a & -> & Ha). revert Hm. sql_eval. intros Hm. go_bool.
      destruct (RevokedAt a) eqn:E; [|by destruct (Hrev a Ha Hm)].
      unfold PostgresSessions.session_row. by rewrite E.
  - intros e w' Hw' _. cbn. wp_go. split; [done|by exists db0].
Qed.
End MysqlRevoke.

(** ** Migrations in PostgreSQL

    While the migrations run, only their ledger is known to have its columns: what
    the other tables hold and what the texts of the migrations do to them is the
    server's. *)
Section PostgresMigrations.
Import Migrate Postgres.

Record migration_record : Type := mkMigrationRecord { mr_Version : string; mr_AppliedAt : time }.
Definition migration_row (m : migration_record) : row :=
  [("version", Text (mr_Version m)); ("applied_at", Timestamp (mr_AppliedAt m))].
Arguments migration_row m /.

#[export, refine] Instance migration_entity : Entity migration_record :=
  {| entity := authlier_schema_migrations; to_row := migration_row;
     of_row r := match r.*2 with [Text v; Timestamp t] => Some (mkMigrationRecord v t) | _ => None end |}.
Proof.
  - by intros [].
  - intros r Ht Hc. pose proof (typed_fits _ _ Ht Hc) as Hfits. clear Ht Hc. row_cells Hfits.
    by eexists (mkMigrationRecord _ _).
Defined.

Definition ledger : schema := [authlier_schema_migrations].
Definition ledger_rows (db : database) : list row := rows_in db "authlier_schema_migrations".
Definition ledger_ok (db : database) : Prop := db_ok postgresql ledger db.
Definition versions (db : database) : list string := mr_Version <$> rows_of migration_record db.

Abbreviation ledger_answers :=
  (answers postgresql ledger ErrNoRows uniqueViolation server_error).

(** What a transaction of a migration promises: [changes] is what a text does to
    the tables. After an error the tables can only be left as they were. *)
Record LedgerTx {S} (tx : Tx S) (conn : S -> connection) (changes : string -> database -> database -> Prop) : Prop := {
  ledger_Exec_text text db0 db w : inside conn db0 db w ->
    wp (tx_Exec_text tx text) (fun r w' =>
      match r with
      | Ok _ => exists db', inside conn db0 db' w' /\ changes text db db'
      | Err _ => broken conn db0 w'
      end) w;
  ledger_QueryRow version db0 db w : inside conn db0 db w ->
    wp (tx_QueryRow tx ledger_has [Text version]) (fun row w' => exists res db',
      ledger_answers ledger_has [Text version] db res db' /\ row = first_row ErrNoRows res /\
      after db0 res db' (conn (ext w'))) w;
  ledger_Exec version db0 db w : inside conn db0 db w ->
    wp (tx_Exec tx ledger_add [Text version]) (fun n w' => exists res db',
      ledger_answers ledger_add [Text version] db res db' /\ n = affected (fun n => n) res /\
      after db0 res db' (conn (ext w'))) w;
  ledger_Commit db0 db w : inside conn db0 db w ->
    wp (tx_Commit tx) (fun r w' =>
      match r with Ok _ => idle conn db w' | Err _ => idle conn db0 w' end) w;
  ledger_Rollback w :
    wp (tx_Rollback tx) (fun _ w' => conn (ext w') = mkConnection (committed (conn (ext w))) None) w;
}.

Class MigrationContract {S} (pool : Pool S) (conn : S -> connection) (changes : string -> database -> database -> Prop) : Prop := {
  ledger_Begin db w : idle conn db w ->
    wp (pool_Begin pool) (fun r w' =>
      match r with
      | Ok tx => LedgerTx tx conn changes /\ inside conn db db w'
      | Err e => idle conn db w'
      end) w;
}.

(** Steps one after the other. *)
Fixpoint in_turn {A X : Type} (step : A -> X -> X -> Prop) (l : list A) (x y : X) : Prop :=
  match l with
  | [] => y = x
  | a :: l => exists z, step a x z /\ in_turn step l z y
  end.

Lemma in_turn_snoc {A X} (step : A -> X -> X -> Prop) l a x y z :
  in_turn step l x y -> step a y z -> in_turn step (l ++ [a]) x z.
Proof.
  revert x. induction l as [|b l IH]; simpl; intros x; [intros ->; by exists z|].
  intros (x1 & Hb & Hl) Ha. exists x1. auto.
Qed.

Lemma in_turn_keeps {A X B} (step : A -> X -> X -> Prop) (f : X -> B) l x y :
  (forall a x y, a ∈ l -> step a x y -> f y = f x) -> in_turn step l x y -> f y = f x.
Proof.
  revert x. induction l as [|a l IH]; simpl; intros x Hf; [by intros ->|]. intros (z & Ha & Hl).
  transitivity (f z); [|apply (Hf a); [set_solver|done]].
  apply IH; [|done]. intros b x' y' Hb. apply Hf. set_solver.
Qed.

Context {S : Type} (adapter : Adapter S) (conn : S -> connection) (changes : string -> database -> database -> Prop)
  `{!MigrationContract (pool adapter) conn changes}.

(** The ledger is created once, and the statements of the migrations leave it
    alone. *)
Definition ledger_laws (files : list Migration) : Prop :=
  (forall db db', changes create_ledger db db' -> forall name, rows_in db' name = rows_in db name) /\
  (forall file text db db', file ∈ files -> text ∈ SQL file -> changes text db db' -> ledger_rows db' = ledger_rows db).

(** A migration that is not recorded is run, its statements in their order, and
    then recorded. *)
Definition file_applied (file : Migration) (db db' : database) : Prop :=
  exists db0, changes create_ledger db db0 /\
    if bool_decide (Version file ∈ versions db0) then db' = db0 else
    exists db1 r, in_turn changes (SQL file) db0 db1 /\ SqlServer.runs postgresql ledger ledger_add [Text (Version file)] db1 r db'.

Definition record_version (versions : list string) (version : string) : list string :=
  if bool_decide (version ∈ versions) then versions else versions ++ [version].

(** How far a run has come: the first of the migrations have been applied, the
    others have not; the tables are as they were where all were recorded. *)
Definition migrated (files : list Migration) (db : database) (rest : list Migration) (db' : database) : Prop :=
  ledger_ok db' /\ exists applied, files = applied ++ rest /\
    in_turn file_applied applied db db' /\
    versions db' = foldl record_version (versions db) (Version <$> applied) /\
    (Forall (fun v => v ∈ versions db) (Version <$> files) -> forall name, rows_in db' name = rows_in db name).

Lemma ledger_same db db' : ledger_rows db' = ledger_rows db ->
  versions db' = versions db /\ (ledger_ok db -> ledger_ok db').
Proof.
  unfold ledger_rows. intros E. split; [unfold versions, rows_of; simpl; by rewrite E|].
  unfold ledger_ok, db_ok, violated, every. simpl. by rewrite E.
Qed.

Lemma runs_ledger_has version db r row db' : SqlServer.runs postgresql ledger ledger_has [Text version] db r db' ->
  ledger_ok db -> row ∈ r.1.*2 -> db' = db /\ row = [Boolean (bool_decide (version ∈ versions db))].
Proof.
  intros Hr Hok Hrow. eapply runs_counts in Hr as [-> [now ->]]; [|exact Hrow]. split; [done|].
  assert (Hin : entity migration_record ∈ ledger) by in_list. cbn [fmap list_fmap]. f_equal.
  rewrite (eval_Exists postgresql ledger db now [Text version] migration_record Hin Hok _ eq_refl _ _ _ _
    (fun m => String.eqb (mr_Version m) version)); [|intros m; sql_eval; by rewrite eqb_decide].
  f_equal. apply eq_true_iff_eq. rewrite existsb_exists, bool_decide_eq_true. unfold versions. rewrite list_elem_of_fmap. split.
  - intros (m & Hm & E). apply String.eqb_eq in E. exists m. by rewrite list_elem_of_In.
  - intros (m & -> & Hm%list_elem_of_In). exists m. by rewrite String.eqb_refl.
Qed.

Lemma runs_ledger_add version db r db' : SqlServer.runs postgresql ledger ledger_add [Text version] db r db' ->
  ledger_ok db -> ledger_ok db' /\ versions db' = versions db ++ [version].
Proof.
  intros Hr Hok. eapply (SqlServer.runs_INSERT postgresql ledger migration_record) with (a := fun now => mkMigrationRecord version now) in Hr
    as (now & Hrows & Hok' & _); [|in_list|done|done|done|by intros; sql_eval].
  split; [done|]. unfold versions. by rewrite Hrows, fmap_app.
Qed.

Section Applied.
Context (files : list Migration) (Hlaws : ledger_laws files).

Lemma applied_statements file db db' : file ∈ files -> in_turn changes (SQL file) db db' -> ledger_rows db' = ledger_rows db.
Proof. destruct Hlaws as [_ Htext]. intros Hf. apply in_turn_keeps. eauto. Qed.

Lemma file_applied_versions file db db' : file ∈ files -> ledger_ok db -> file_applied file db db' ->
  ledger_ok db' /\ versions db' = record_version (versions db) (Version file) /\
  (Version file ∈ versions db -> forall name, rows_in db' name = rows_in db name).
Proof.
  intros Hf Hok (db0 & Hc & Hr). pose proof (proj1 Hlaws _ _ Hc) as Hsame.
  destruct (ledger_same db db0) as [Hv Hok0]; [apply Hsame|]. rewrite Hv in Hr. unfold record_version. case_bool_decide.
  - subst db'. split_and!; [auto|done|done].
  - destruct Hr as (db1 & r & Hs & Hadd). destruct (ledger_same db0 db1) as [Hv1 Hok1]; [by eapply applied_statements|].
    apply runs_ledger_add in Hadd as [Hok2 Hv2]; [|auto]. split_and!; [done|congruence|done].
Qed.

(** A migration in its transaction. *)
Lemma wp_applyMigration tx file db w : LedgerTx tx conn changes -> inside conn db db w -> ledger_ok db ->
  wp (applyMigration tx file) (fun r w' =>
    match r with
    | Ok _ => exists db', inside conn db db' w' /\ file_applied file db db'
    | Err _ => broken conn db w'
    end) w.
Proof.
  intros Htx Hw Hok. unfold applyMigration. wp_go.
  eapply wp_mono; [by eapply ledger_Exec_text|]. intros [[]|e] w1 Hw1; wp_go; [|done].
  destruct Hw1 as (db0 & Hw1 & Hc). destruct (ledger_same db db0) as [_ Hok0]; [by apply (proj1 Hlaws)|].
  eapply wp_answered_row; [by eapply ledger_QueryRow|..].
  - intros r row db2 w2 Hw2 Hr Hrow. destruct (runs_ledger_has _ _ _ _ _ Hr (Hok0 Hok) Hrow) as [-> ->]. wp_go.
    + exists db0. split; [done|]. exists db0. by rewrite Heqb.
    + apply wp_for_each with (I := fun l _ w => exists ss db1, SQL file = ss ++ l /\ inside conn db db1 w /\ in_turn changes ss db0 db1).
      * by exists [], db0.
      * intros statement l [] v (ss & db1 & E & Hv & Hs). wp_go. eapply wp_mono; [by eapply ledger_Exec_text|].
        intros [[]|e] v' Hv'; wp_go; [|done]. destruct Hv' as (db2 & Hv' & Hs2).
        exists (ss ++ [statement]), db2. split_and!; [by rewrite <- app_assoc|done|by eapply in_turn_snoc].
      * intros [] v (ss & db1 & E & Hv & Hs). rewrite app_nil_r in E. subst ss. wp_go.
        eapply wp_answered_exec; [by eapply ledger_Exec| |intros e v' Hv' _; by wp_go].
        intros r3 db3 v' Hv' Hadd. wp_go. exists db3. split; [done|]. exists db0. rewrite Heqb. eauto 6.
  - intros r db2 w2 Hw2 Hr%runs_SELECT_same _. wp_go. eauto.
  - intros e w2 Hw2 _. by wp_go.
Qed.

Lemma migrated_next file rest db db1 db2 : migrated files db (file :: rest) db1 -> file_applied file db1 db2 ->
  migrated files db rest db2.
Proof.
  intros (Hok & applied & E & Hturn & Hv & Hsame) Ha.
  apply file_applied_versions in Ha as Hf; [|rewrite E; set_solver|done]. destruct Hf as (Hok2 & Hv2 & Hsame2).
  split; [done|]. exists (applied ++ [file]).
  split_and!; [by rewrite <- app_assoc|by eapply in_turn_snoc|by rewrite fmap_app, foldl_app, Hv2, Hv|].
  intros Hall name. rewrite <- (Hsame Hall name). apply Hsame2.
  destruct (ledger_same db db1) as [-> _]; [by apply (Hsame Hall)|].
  rewrite E, fmap_app in Hall. apply Forall_app in Hall as [_ Hall]. by inversion Hall.
Qed.

Lemma wp_Migrate migrations db w : Read migrations = Ok files -> idle conn db w -> ledger_ok db ->
  wp (Migrate adapter migrations) (fun r w' => exists db' rest, idle conn db' w' /\ migrated files db rest db' /\
    (is_ok r = true -> rest = [])) w.
Proof.
  intros Hread Hw Hok. unfold Migrate. rewrite Hread. wp_go.
  apply wp_for_each with (I := fun rest _ w => exists db', idle conn db' w /\ migrated files db rest db').
  - exists db. split; [done|]. split; [done|]. by exists [].
  - intros file rest [] v (db1 & Hv & Hm). assert (Hok1 := proj1 Hm). wp_go.
    eapply wp_mono; [by eapply ledger_Begin|]. intros [tx|e] v1 Hv1; wp_go; [|by exists db1, (file :: rest)].
    destruct Hv1 as (Htx & Hv1). eapply wp_mono; [by apply wp_applyMigration|]. intros [[]|e] v2 Hv2; wp_go.
    + destruct Hv2 as (db2 & Hv2 & Ha). eapply wp_mono; [by eapply ledger_Commit|].
      intros [[]|e] v3 Hv3; wp_go; [|by exists db1, (file :: rest)].
      exists db2. split; [done|]. by eapply migrated_next.
    + eapply wp_mono; [by eapply ledger_Rollback|]. intros ? v3 Hv3. wp_go. exists db1, (file :: rest).
      split_and!; [unfold idle; by rewrite Hv3, Hv2|done|done].
  - intros [] v (db1 & Hv & Hm). wp_go. by exists db1, [].
Qed.
End Applied.
End PostgresMigrations.

(** ** Runs *)
#[export, refine] Instance demo_pg_types : Postgres.PgTypes :=
  {| Postgres.microseconds t := (t - t mod 1000)%Z; Postgres.jsonb_value document := document |}.
Proof.
  intros t. pose proof (Z.mod_pos_bound t 1000 eq_refl). split; [lia|].
  pose proof (Z.div_mod t 1000). replace (t - t mod 1000)%Z with (t / 1000 * 1000)%Z by lia. apply Z.mod_mul. lia.
Defined.

#[export, refine] Instance demo_mysql_types : Mysql.MysqlTypes :=
  {| Mysql.microseconds t := ((t + 500) - (t + 500) mod 1000)%Z; Mysql.json_value document := document |}.
Proof.
  intros t. pose proof (Z.mod_pos_bound (t + 500) 1000 eq_refl). split; [lia|].
  pose proof (Z.div_mod (t + 500) 1000). replace (t + 500 - (t + 500) mod 1000)%Z with ((t + 500) / 1000 * 1000)%Z by lia.
  apply Z.mod_mul. lia.
Defined.

(** A server that reads no texts. *)
Definition no_texts (text : string) (db : database) : result database := Err (New "driver: syntax error").

Definition pg_pool : Postgres.Pool connection :=
  server_pool Postgres.postgresql Postgres.tables Postgres.ErrNoRows Postgres.server_error (fun n => n) demo_epoch no_texts.
Definition pg_demo : Postgres.Adapter connection := Postgres.mkAdapter pg_pool None.

#[export] Instance pg_demo_contract : Postgres.PoolContract (Postgres.pool pg_demo) id.
Proof. apply server_contract. Qed.

(** A driver with its default settings: an UPDATE counts the rows it changed. *)
Definition mysql_default : dialect := mkDialect (fun s => s) false.
Definition mysql_demo : Mysql.Adapter connection :=
  Mysql.mkAdapter (server_pool mysql_default Mysql.tables Mysql.ErrNoRows Mysql.server_error Mysql.result_of demo_epoch no_texts) None.

#[export] Instance mysql_demo_contract : SqlServer.PoolContract mysql_default Mysql.tables Mysql.ErrNoRows
  Mysql.uniqueViolation Mysql.server_error Mysql.result_of (Mysql.db mysql_demo) id.
Proof. apply server_contract. Qed.

Definition connected (db : database) : World connection := demo_world (mkConnection db None).

#[export] Instance demo_session_data_json : JSON Passkey.SessionData :=
  RedisReference.json_of_countable
    (fun s => (Passkey.ses_Challenge s, Passkey.ses_UserID s, Passkey.ses_Expires s, Passkey.ses_rest s))
    (fun '(c, u, e, r) => Passkey.mkSessionData c u e r) (fun s => match s with Passkey.mkSessionData _ _ _ _ => eq_refl end).
#[local] Existing Instances RedisPasskeysProps.demo_credential_json PasskeySpec.demo_webauthn PasskeySpec.demo_discoverable.

(** Alice, with a password and a Google identity. *)
Definition alice_tables : database := list_to_map
  [("authlier_users", [PostgresAccounts.user_row (PostgresAccounts.mkUserRecord "alice" "alice@example.com" true "handle-a" demo_epoch)]);
   ("authlier_password_credentials", [PostgresAccounts.password_row (PostgresAccounts.mkPasswordRecord "alice" "hash" demo_epoch)]);
   ("authlier_google_identities",
    [PostgresAccounts.identity_row (PostgresAccounts.mkIdentityRecord "google-1" "alice" "alice@example.com" demo_epoch)])].

Lemma alice_tables_ok : Postgres.ok alice_tables.
Proof. vm_compute. reflexivity. Qed.
Lemma no_rows_ok : Postgres.ok ∅.
Proof. vm_compute. reflexivity. Qed.

(** A server that creates the ledger and reads two texts of migrations. *)
Section MigrationServer.
Import Migrate Postgres.

Definition add_alice : string :=
  "INSERT INTO authlier_users (id, email, webauthn_handle, created_at) VALUES ('alice', 'alice@example.com', 'handle-a', CURRENT_TIMESTAMP);".
Definition verify_emails : string := "UPDATE authlier_users SET email_verified = true;".
Definition parsed (text : string) : option statement :=
  if String.eqb text add_alice then
    Some (INSERT "authlier_users" [("id", Const (Text "alice")); ("email", Const (Text "alice@example.com"));
      ("webauthn_handle", Const (Bytea "handle-a")); ("created_at", CurrentTimestamp)] None)
  else if String.eqb text verify_emails then
    Some (UPDATE "authlier_users" [("email_verified", TRUE)] TRUE [])
  else None.

Definition run_migration_text (text : string) (db : database) : result database :=
  if String.eqb text create_ledger then Ok (<["authlier_schema_migrations" := ledger_rows db]> db) else
  match parsed text with
  | Some s =>
      match execute postgresql tables db demo_epoch [] s with
      | (inr _, db') => Ok db'
      | (inl v, _) => Err (server_error v)
      end
  | None => Err (PgError "42601")
  end.

Definition pg_new : Adapter connection :=
  mkAdapter (server_pool postgresql ledger ErrNoRows server_error (fun n => n) demo_epoch run_migration_text) None.
Definition text_changes (text : string) (db db' : database) : Prop := run_migration_text text db = Ok db'.

#[export] Instance pg_new_contract : MigrationContract (pool pg_new) id text_changes.
Proof.
  split. intros db w Hw. simpl. apply wp_lift_ext. unfold idle, id in *. rewrite Hw. simpl. split; [|done].
  split.
  - intros text db0 db1 v Hv. apply wp_lift_ext. unfold inside, broken, id in *. rewrite Hv. simpl.
    destruct (run_migration_text text db1) as [db2|e] eqn:E; simpl; [by exists db2|done].
  - intros version db0 db1 v Hv. by apply wp_server_in.
  - intros version db0 db1 v Hv. by apply wp_server_in.
  - intros db0 db1 v Hv. apply wp_lift_ext. unfold inside, id in *. by rewrite Hv.
  - intros v. by apply wp_lift_ext.
Qed.

(** Two migrations, out of order. *)
Definition seeds : FS := mkFS
  (Ok [mkEntry "002_verified.sql" false; mkEntry "001_alice.sql" false])
  (fun name =>
     if String.eqb name "001_alice.sql" then Ok add_alice else
     if String.eqb name "002_verified.sql" then Ok (verify_emails +:+ separator +:+ verify_emails) else Err (New "fs.ErrNotExist")).
Definition seed_files : list Migration :=
  [mkMigration "001_alice.sql" [add_alice]; mkMigration "002_verified.sql" [verify_emails; verify_emails]].

Lemma seeds_Read : Read seeds = Ok seed_files.
Proof. vm_compute. reflexivity. Qed.

Lemma no_ledger_ok : ledger_ok ∅.
Proof. vm_compute. reflexivity. Qed.

Lemma parsed_others text st db now r db' : parsed text = Some st -> execute postgresql tables db now [] st = (inr r, db') ->
  ledger_rows db' = ledger_rows db.
Proof.
  unfold parsed. destruct (String.eqb text add_alice); [|destruct (String.eqb text verify_emails); [|done]];
    intros [= <-] He; unfold execute in He; [destruct (find_table _ _) in He; [|done]|];
    apply checked_inr in He as (_ & -> & _); unfold insertion, ledger_rows, rows_in; by rewrite lookup_insert_ne.
Qed.

Lemma seeds_laws : ledger_laws text_changes seed_files.
Proof.
  split.
  - intros db db' [= <-] name. unfold ledger_rows, rows_in. destruct (decide (name = "authlier_schema_migrations")) as [->|Hn].
    + rewrite lookup_insert_eq. by destruct (db !! "authlier_schema_migrations").
    + by rewrite lookup_insert_ne.
  - intros file text db db' Hfile Htext Hc.
    assert (Hin : text = add_alice \/ text = verify_emails).
    { apply list_elem_of_In in Hfile. apply list_elem_of_In in Htext.
      destruct Hfile as [<-|[<-|[]]]; simpl in Htext; intuition. }
    assert (Hne : String.eqb text create_ledger = false) by (destruct Hin as [-> | ->]; vm_compute; reflexivity).
    unfold text_changes, run_migration_text in Hc. rewrite Hne in Hc. destruct (parsed text) as [st|] eqn:E; [|done].
    destruct (execute postgresql tables db demo_epoch [] st) as [[v|r] db1] eqn:He; [done|].
    revert Hc. intros [= <-]. by eapply parsed_others.
Qed.
End MigrationServer.


Definition pg_passkeys : Passkey.Manager connection :=
  Passkey.mkManager _ (PostgresFactors.PasskeyStore pg_demo) (Passkey.webAuthnProtocol "app.example.com") (10 * Minute)%Z
    None None demo_clock.
Definition pg_begun := Passkey.BeginRegistration pg_passkeys "alice" (connected alice_tables).
Definition pg_registered :=
  Passkey.CompleteRegistration pg_passkeys (Passkey.mkCompleteInput (PasskeySpec.token_of (fst pg_begun)) "alice" "cred-1" "")
    (snd pg_begun).
Definition pg_returns := Passkey.BeginAuthentication pg_passkeys (snd pg_registered).
Definition pg_response := Passkey.mkCompleteInput (PasskeySpec.signin_token_of (fst pg_returns)) "" "cred-1/handle-a" "".

(** A cache that has lost its server. *)
Definition lost_cache : SessionToken.Cache connection :=
  {| SessionToken.cache_Get _ := ret (Err ErrLost);
     SessionToken.cache_Set _ _ := ret (Err ErrLost);
     SessionToken.cache_Delete _ := ret (Err ErrLost) |}.
Definition mysql_sessions : SessionToken.Manager connection :=
  SessionToken.mkManager _ (Mysql.SessionStore mysql_demo) (Some lost_cache) Hour Minute None demo_clock.
Definition mysql_created := SessionToken.Create mysql_sessions "alice" (connected ∅).
Definition mysql_token : string :=
  match fst mysql_created with Ok issued => SessionToken.issued_Token issued | Err _ => "" end.
Definition mysql_revoked := SessionToken.Revoke mysql_sessions mysql_token (snd mysql_created).
Definition tables_of (w : World connection) : database := committed (ext w).

(** ** Properties *)
Section Theorems.
Import Postgres PostgresSessions PostgresAccounts.


(** C10: the stores of users, passwords, email verifications and password resets
    of the adapter for PostgreSQL keep the contracts of their packages over one
    view of the tables as accounts: each call does to the accounts what the
    abstract stores do, or fails and changes nothing; and the constraints of the
    tables keep the invariant of the accounts. Requests may expire at any time,
    which is kept to the microsecond. It is assumed that the identifiers that are
    made are not blank, which holds of the text of every UUID. *)
Theorem postgres_keeps_account_contracts {S : Type} `{Env} `{PgTypes} (adapter : Adapter S) (conn : S -> connection)
    `{!PoolContract (pool adapter) conn} :
  (forall i u, uuid_NewV7 i = Some u -> GoText.TrimSpace u <> "") ->
  EmailPasswordSpec.EmailStoreContract (EmailPasswordStore adapter) (in_order_state conn) (accounts_view conn) /\
  EmailPasswordSpec.CredentialStoreContract (EmailPasswordCredentialStore adapter) (in_order_state conn) (accounts_view conn) /\
  EmailVerificationSpec.KeptVerificationStoreContract microseconds (EmailVerificationStore adapter) (in_order_state conn)
    (accounts_view conn) no_mail /\
  PasswordResetSpec.KeptResetStoreContract microseconds (PasswordResetStore adapter) (in_order_state conn)
    (accounts_view conn) no_mail /\
  (forall s, in_order_state conn s -> AccountSpec.accounts_inv (accounts_view conn s)).
Proof.
  intros Hids. split_and!; [| | | |by intros s [_ Hok]; apply accounts_of_inv]; [by apply postgres_email_contract|by apply postgres_credential_contract|
    by apply postgres_verification_contract|by apply postgres_reset_contract].
Qed.

(** C11: so do the stores of Google sign-in, of OpenID Connect, of SAML and of
    second factors, over the links, the pending sign-ons and the factors in the
    tables, given that the codec of secrets decrypts what it encrypted. Times are
    kept to the microsecond, and the counters of codes, of 64 bits, are kept and
    compared as signed integers. Unlinking leaves a user with another way to
    sign in. *)
Theorem postgres_keeps_factor_contracts {S : Type} `{Env} `{PgTypes} (adapter : Adapter S) (conn : S -> connection)
    `{!PoolContract (pool adapter) conn} (plain : string -> string) :
  (forall codec, secrets adapter = Some codec -> PostgresFactors.CodecContract codec conn plain) ->
  GoogleOAuthSpec.KeptGoogleStoreContract stored_google (GoogleStore adapter) (in_order_state conn) (links_view conn) /\
  UnlinkContract conn (GoogleStore_UnlinkIdentity adapter) /\
  (forall s, in_order_state conn s -> GoogleOAuthSpec.links_inv (links_view conn s)) /\
  SsoSpec.KeptPendingContract Oidc.StateHash (PostgresFactors.OIDCStore_CreateChallenge adapter)
    (PostgresFactors.OIDCStore_ConsumeChallenge adapter) PostgresFactors.stored_oidc (in_order_state conn) (PostgresFactors.oidc_view conn) /\
  SsoSpec.KeptPendingContract Saml.StateHash (PostgresFactors.SAMLStore_CreateRequest adapter)
    (PostgresFactors.SAMLStore_ConsumeRequest adapter) PostgresFactors.stored_saml (in_order_state conn) (PostgresFactors.saml_view conn) /\
  TotpSpec.KeptFactorStoreContract microseconds PostgresFactors.uint64 PostgresFactors.int64
    (PostgresFactors.TOTPStore adapter) (PostgresFactors.totp_state conn) (PostgresFactors.totp_view conn plain).
Proof.
  intros Hcodec. split_and!; [by apply postgres_google_contract|by apply postgres_unlinks|
    by intros s [_ Hok]; apply links_of_inv|by apply PostgresFactors.postgres_oidc_contract|
    by apply PostgresFactors.postgres_saml_contract|by apply PostgresFactors.postgres_factor_contract].
Qed.

(** C12: removing a password, unlinking a Google identity and deleting a passkey
    each take exactly one way to sign in from their user, who keeps another one,
    take none from anyone else and touch no other table; or they fail, and
    nothing has changed. *)
Theorem postgres_keeps_last_credential {S : Type} `{PgTypes} (adapter : Adapter S) (conn : S -> connection)
    `{!PoolContract (pool adapter) conn} id hash credentialID at_ db w :
  idle conn db w -> ok db ->
  wp (EmailPasswordStore_RemovePassword adapter id hash at_) (leaves conn (one_way_less id db)) w /\
  wp (GoogleStore_UnlinkIdentity adapter id at_) (leaves conn (one_way_less id db)) w /\
  wp (PostgresFactors.PasskeyStore_DeleteCredential adapter id credentialID at_) (leaves conn (one_way_less id db)) w.
Proof.
  intros Hw Hok. split_and!; [by apply RemovePassword_ways|by apply UnlinkIdentity_ways|by apply DeleteCredential_ways].
Qed.

(** C34: [Migrate] reads the SQL files of the directory in the order of their names
    and applies them one after the other: of a file that is not recorded it runs
    the statements in their order and then records its version, at once; one that
    is recorded it skips. The tables are left with what the first of the files do
    to them, all of them if it succeeds; no version is recorded twice; and where
    all were recorded before, nothing changes. *)
Theorem postgres_migrations_recorded {S : Type} (adapter : Adapter S) (conn : S -> connection)
    (changes : string -> database -> database -> Prop) `{!MigrationContract (pool adapter) conn changes} migrations files db w :
  Migrate.Read migrations = Ok files -> ledger_laws changes files -> idle conn db w -> ledger_ok db ->
  Migrate.in_name_order migrations files /\
  wp (Postgres.Migrate adapter migrations) (fun r w' => exists db' rest, idle conn db' w' /\
    migrated changes files db rest db' /\ (is_ok r = true -> rest = [])) w.
Proof. intros Hread Hlaws Hw Hok. split; [by apply Migrate.Read_Ok|by eapply wp_Migrate]. Qed.
End Theorems.

(** C18: the ceremonies of sign-ins are stored without a subject, and the adapter
    for PostgreSQL completes a sign-in only of a ceremony with the subject that
    signs in: along every history of calls every [CompleteAuthentication] fails. *)
Theorem postgres_passkeys_never_sign_in {S : Type} `{Postgres.PgTypes} `{PasskeySpec.DiscoverableLogin}
    `{JSON Passkey.Credential} `{JSON Passkey.SessionData} (adapter : Postgres.Adapter S) (conn : S -> connection)
    `{!Postgres.PoolContract (Postgres.pool adapter) conn} (manager : Passkey.Manager S) (webAuthn : Passkey.WebAuthn) w w1 input :
  Passkey.store manager = PostgresFactors.PasskeyStore adapter ->
  Passkey.protocol manager = Passkey.webAuthnProtocol webAuthn ->
  (forall g a, Passkey.attemptGuard manager = Some g -> RedisPasskeysProps.preserves (subjectless_tables conn) (g a)) ->
  (forall e a, Passkey.securityEvents manager = Some e -> RedisPasskeysProps.preserves (subjectless_tables conn) (e a)) ->
  subjectless_tables conn (ext w) -> rtc (PasskeyProps.passkey_call manager) w w1 ->
  is_ok (fst (Passkey.CompleteAuthentication manager input w1)) = false.
Proof.
  intros Hst Hp Hg He Hw Hcalls.
  assert (Href : RedisPasskeysProps.refuses_sign_ins (Passkey.store manager) (subjectless_tables conn))
    by (rewrite Hst; by apply postgres_refuses).
  assert (Hw1 : subjectless_tables conn (ext w1)).
  { clear input. induction Hcalls as [w|w w2 w1 Hcall _ IH]; [done|]. apply IH.
    by apply (RedisPasskeysProps.refused_call manager webAuthn (subjectless_tables conn) Href Hp Hg He w w2). }
  by destruct (RedisPasskeysProps.refused_CompleteAuthentication manager webAuthn _ Href Hp Hg He input w1 Hw1).
Qed.

(** C19: over MySQL, when an UPDATE counts the rows it changed, which is the
    driver's default, revoking a session again fails: the store finds no row, and
    [Revoke] returns before it deletes the session from the cache, as if there
    were no cache. *)
Theorem mysql_revoke_not_repeatable {S : Type} `{Mysql.MysqlTypes} (d : dialect) (adapter : Mysql.Adapter S)
    (conn : S -> connection)
    `{!SqlServer.PoolContract d Mysql.tables Mysql.ErrNoRows Mysql.uniqueViolation Mysql.server_error Mysql.result_of
        (Mysql.db adapter) conn} (manager : SessionToken.Manager S) rawToken tokenHash db w :
  counts_matched d = false -> SessionToken.store manager = Mysql.SessionStore adapter ->
  HashToken rawToken = Ok tokenHash -> idle conn db w -> db_ok d Mysql.tables db -> revoked_rows tokenHash db ->
  is_ok (fst (SessionToken.Revoke manager rawToken w)) = false /\
  SessionToken.Revoke manager rawToken w = SessionToken.Revoke (uncached manager) rawToken w.
Proof.
  intros Hd Hst Hraw Hw Hok Hrev. unfold SessionToken.Revoke. rewrite Hraw. simpl SessionToken.store. rewrite Hst. simpl.
  unfold read_now, wrapped, bind_ok, bind, ret. simpl.
  pose proof (Revoke_revoked d adapter conn tokenHash (SessionToken.now manager (ticks w)) db (tick w) Hd) as Hr.
  unfold wp in Hr. destruct (Mysql.SessionStore_Revoke adapter tokenHash _ _) as [[[]|e] w']; [|done].
  destruct (Hr Hw Hok Hrev) as [Hf _]. done.
Qed.

(** C14: over any server that keeps the promises of MongoDB, [WithTransaction] that
    runs its function again included, the store of sessions keeps the contract of
    the package, with times kept to the millisecond: each call, for any times, does
    to the sessions what the abstract store does, with the times that are stored
    cut as BSON cuts them, or fails and changes nothing. Only the sessions that
    [RevokeAll] answers carry the time as it was given. *)
Theorem mongo_keeps_session_contract {S : Type} (adapter : Mongo.Adapter S) (conn : S -> Mongo.connection)
    `{!Mongo.ClientContract conn (Mongo.client adapter)} :
  SessionSpec.KeptStoreContract Mongo.stored_session Mongo.milliseconds (fun t => t) (Mongo.SessionStore adapter)
    (Mongo.in_order_state conn) (Mongo.session_view conn).
Proof. by apply Mongo.mongo_sessions_keep_contract. Qed.

(** C15: over any server that keeps the promises of MySQL and compares texts byte by
    byte, however it counts the rows of an UPDATE, the store of sessions keeps the
    contract of the package, with times kept to the microsecond: each call, for any
    times, does to the sessions what the abstract store does, with the times that
    are stored rounded as [datetime(6)] rounds them, or fails and changes nothing.
    Only the sessions that [RevokeAll] answers carry the time as it was given. *)
Theorem mysql_keeps_session_contract {S : Type} `{Mysql.MysqlTypes} (d : dialect) (adapter : Mysql.Adapter S)
    (conn : S -> connection)
    `{!SqlServer.PoolContract d Mysql.tables Mysql.ErrNoRows Mysql.uniqueViolation Mysql.server_error Mysql.result_of
        (Mysql.db adapter) conn} :
  exact d ->
  SessionSpec.KeptStoreContract Mysql.stored_session Mysql.microseconds (fun t => t) (Mysql.SessionStore adapter)
    (Mysql.in_order_state d conn) (Mysql.session_view conn).
Proof. intros Hd. by apply Mysql.mysql_sessions_keep_contract. Qed.


Lemma demo_ids i : GoText.TrimSpace (String (ascii_of_nat (65 + i)) "0190-7000") <> "".
Proof. destruct (ascii_of_nat (65 + i)) as [[] [] [] [] [] [] [] []]; by vm_compute. Qed.

(** Bob registers, verifies his email and resets his password. *)
Definition bob_flow : M connection (result (PasswordReset.User * option string)) :=
  user <-? EmailPassword.store_Register (PostgresAccounts.EmailPasswordStore pg_demo)
    (EmailPassword.mkRegistration "bob@example.com" "hash-1" demo_epoch) ;;
  let id := EmailPassword.ID user in
  let expires := (demo_epoch + Hour)%Z in
  _ <-? EmailVerification.store_Issue (PostgresAccounts.EmailVerificationStore pg_demo)
    (EmailVerification.mkVerificationRecord id "bob@example.com" "code-1" demo_epoch expires) ;;
  _ <-? EmailVerification.store_Verify (PostgresAccounts.EmailVerificationStore pg_demo) "code-1" demo_epoch ;;
  _ <-? PasswordReset.store_Issue (PostgresAccounts.PasswordResetStore pg_demo)
    (PasswordReset.mkResetRecord id "bob@example.com" "code-2" demo_epoch expires) ;;
  _ <-? PasswordReset.store_ResetPassword (PostgresAccounts.PasswordResetStore pg_demo) "code-2" "hash-2" demo_epoch ;;
  found <-? EmailPassword.store_FindByEmail (PostgresAccounts.EmailPasswordStore pg_demo) "bob@example.com" ;;
  ret (Ok (PasswordReset.mkUser (EmailPassword.ID (fst found)) (EmailPassword.Email (fst found)),
    Some (EmailPassword.PasswordHash (snd found)))).

Lemma postgres_keeps_account_contracts_witness :
  EmailPasswordSpec.EmailStoreContract (PostgresAccounts.EmailPasswordStore pg_demo) (Postgres.in_order_state id)
    (PostgresAccounts.accounts_view id) /\
  Postgres.in_order_state id (mkConnection ∅ None) /\
  (snd <$> RedisReference.ok_value (fst (bob_flow (connected ∅)))) = Some (Some "hash-2").
Proof.
  split_and!; [|split; [done|exact no_rows_ok]|vm_compute; reflexivity].
  refine (proj1 (postgres_keeps_account_contracts pg_demo id _)). intros i u Hu. revert Hu. simpl. intros [= <-].
  exact (demo_ids i).
Defined.

(** A codec that marks its ciphertexts. *)
Definition demo_codec : Postgres.SecretCodec connection :=
  Postgres.mkSecretCodec _ (fun s => ret (Ok (String "#" s)))
    (fun e => ret (match e with String _ s => Ok s | EmptyString => Err (New "codec: empty") end)).
Definition demo_plain (e : string) : string := match e with String _ s => s | EmptyString => "" end.
Definition pg_secret : Postgres.Adapter connection := Postgres.mkAdapter pg_pool (Some demo_codec).

#[export] Instance pg_secret_contract : Postgres.PoolContract (Postgres.pool pg_secret) id := pg_demo_contract.

#[export] Instance demo_codec_contract : PostgresFactors.CodecContract demo_codec id demo_plain.
Proof. split; intros; wp_go; (split; [done|]); [by intros ? [= <-]|by destruct e; intros ? [= <-]]. Qed.

(** Alice enables a second factor and signs in with a recovery code, once. *)
Definition alice_factor : M connection (result (string * bool)) :=
  let st := PostgresFactors.TOTPStore pg_secret in
  let expires := (demo_epoch + Hour)%Z in
  _ <-? Totp.store_BeginEnrollment st (Totp.mkEnrollment "alice" "secret" demo_epoch expires) ;;
  _ <-? Totp.store_Enable st "alice" 7 ["code-1"; "code-2"] demo_epoch ;;
  _ <-? Totp.store_CreateChallenge st (Totp.mkChallenge "alice" "challenge-1" demo_epoch expires) ;;
  subject <-? Totp.store_CompleteRecovery st "challenge-1" "code-1" demo_epoch ;;
  _ <-? Totp.store_CreateChallenge st (Totp.mkChallenge "alice" "challenge-2" demo_epoch expires) ;;
  again <- Totp.store_CompleteRecovery st "challenge-2" "code-1" demo_epoch ;;
  ret (Ok (subject, is_ok again)).
Definition alice_enrolled := alice_factor (connected alice_tables).

Lemma postgres_keeps_factor_contracts_witness :
  TotpSpec.KeptFactorStoreContract Postgres.microseconds PostgresFactors.uint64 PostgresFactors.int64
    (PostgresFactors.TOTPStore pg_secret) (PostgresFactors.totp_state id) (PostgresFactors.totp_view id demo_plain) /\
  fst alice_enrolled = Ok ("alice", false) /\
  elements <$> TotpSpec.recovery (PostgresFactors.totp_view id demo_plain (ext (snd alice_enrolled))) !! "alice" = Some ["code-2"].
Proof.
  split_and!; [|vm_compute; reflexivity|vm_compute; reflexivity].
  refine (proj2 (proj2 (proj2 (proj2 (proj2 (postgres_keeps_factor_contracts pg_secret id demo_plain _)))))).
  intros codec [= <-]. exact demo_codec_contract.
Defined.

(** Alice gives her password up, and then may not unlink her identity. *)
Definition password_removed :=
  PostgresAccounts.EmailPasswordStore_RemovePassword pg_demo "alice" "hash" demo_epoch (connected alice_tables).
Definition identity_unlinked := PostgresAccounts.GoogleStore_UnlinkIdentity pg_demo "alice" demo_epoch (snd password_removed).

Lemma postgres_keeps_last_credential_witness :
  sign_in_ways alice_tables "alice" = 2 /\ fst password_removed = Ok tt /\
  fst identity_unlinked = Err GoogleOAuth.ErrLastCredential /\
  leaves id (one_way_less "alice" alice_tables) (fst password_removed) (snd password_removed).
Proof.
  split_and!; [vm_compute; reflexivity..|].
  destruct (postgres_keeps_last_credential pg_demo id "alice" "hash" "cred-1" demo_epoch alice_tables (connected alice_tables)
    eq_refl alice_tables_ok) as (Hr & _ & _). revert Hr. unfold wp, password_removed.
  by destruct (PostgresAccounts.EmailPasswordStore_RemovePassword _ _ _ _ _).
Defined.

Definition pg_migrated := Postgres.Migrate pg_new seeds (connected ∅).
Definition pg_migrated_again := Postgres.Migrate pg_new seeds (snd pg_migrated).

(** Alice is there, and her email is verified; a second run changes nothing. *)
Lemma postgres_migrations_recorded_witness :
  fst pg_migrated = Ok tt /\ versions (tables_of (snd pg_migrated)) = ["001_alice.sql"; "002_verified.sql"] /\
  rows_in (tables_of (snd pg_migrated)) "authlier_users" =
    [PostgresAccounts.user_row (PostgresAccounts.mkUserRecord "alice" "alice@example.com" true "handle-a" demo_epoch)] /\
  fst pg_migrated_again = Ok tt /\ tables_of (snd pg_migrated_again) = tables_of (snd pg_migrated) /\
  exists db', idle id db' (snd pg_migrated) /\ migrated text_changes seed_files ∅ [] db'.
Proof.
  assert (Hok : fst pg_migrated = Ok tt) by (vm_compute; reflexivity).
  split_and!; [exact Hok|vm_compute; reflexivity..|].
  destruct (postgres_migrations_recorded pg_new id text_changes seeds seed_files ∅ (connected ∅) seeds_Read seeds_laws
    eq_refl no_ledger_ok) as [_ Hr]. revert Hr Hok. unfold wp, pg_migrated.
  destruct (Postgres.Migrate _ _ _) as [r w']. simpl. intros (db' & rest & Hw & Hm & Hrest) ->.
  rewrite (Hrest eq_refl) in Hm. by exists db'.
Defined.

Lemma postgres_passkeys_never_sign_in_witness :
  Passkey.cred_ID <$> RedisReference.ok_value (fst pg_registered) = Some "cred-1" /\ is_ok (fst pg_returns) = true /\
  is_ok (fst (Passkey.CompleteAuthentication pg_passkeys pg_response (snd pg_returns))) = false.
Proof.
  split_and!; [vm_compute; reflexivity..|].
  refine (postgres_passkeys_never_sign_in pg_demo id pg_passkeys "app.example.com" (connected alice_tables) (snd pg_returns)
    pg_response eq_refl eq_refl _ _ _ _).
  - done.
  - done.
  - split; [split; [done|exact alice_tables_ok]|]. intros c Hc. exfalso. vm_compute in Hc. by apply not_elem_of_nil in Hc.
  - eapply rtc_l; [apply (PasskeyProps.call_BeginRegistration pg_passkeys "alice" (connected alice_tables))|].
    eapply rtc_l; [apply PasskeyProps.call_CompleteRegistration|]. eapply rtc_l; [apply PasskeyProps.call_BeginAuthentication|].
    apply rtc_refl.
Defined.

(** The cache cannot be reached when the session is revoked; revoking it again does
    not reach the cache at all. *)
Definition mysql_again := SessionToken.Revoke mysql_sessions mysql_token (snd mysql_revoked).

Lemma mysql_revoked_state :
  ext (snd mysql_revoked) = mkConnection (tables_of (snd mysql_revoked)) None /\
  db_ok mysql_default Mysql.tables (tables_of (snd mysql_revoked)) /\
  match HashToken mysql_token with Ok h => revoked_rows h (tables_of (snd mysql_revoked)) | Err _ => False end.
Proof.
  split_and!; [vm_compute; reflexivity..|]. destruct (HashToken mysql_token) as [h|e] eqn:E; [|vm_compute in E; discriminate].
  assert (Hall : forallb (fun a => negb (bool_decide (SessionToken.RevokedAt a = None)))
    (omap PostgresSessions.row_session (rows_in (tables_of (snd mysql_revoked)) "authlier_sessions")) = true)
    by (vm_compute; reflexivity).
  intros a Ha _. rewrite forallb_forall in Hall. specialize (Hall a (proj1 (list_elem_of_In _ _) Ha)). by go_bool.
Qed.

Lemma mysql_revoke_not_repeatable_witness :
  match fst mysql_revoked with Ok _ => False | Err e => errors_Is e SessionToken.ErrCacheSync = true end /\
  match fst mysql_again with Ok _ => False | Err e => errors_Is e SessionToken.ErrNotFound = true end /\
  mysql_again = SessionToken.Revoke (uncached mysql_sessions) mysql_token (snd mysql_revoked).
Proof.
  split_and!; [vm_compute; reflexivity..|]. destruct mysql_revoked_state as (Hw & Hok & Hrev).
  destruct (HashToken mysql_token) as [h|e] eqn:E; [|done].
  exact (proj2 (mysql_revoke_not_repeatable mysql_default mysql_demo id mysql_sessions mysql_token h
    (tables_of (snd mysql_revoked)) (snd mysql_revoked) eq_refl eq_refl E Hw Hok Hrev)).
Defined.

Definition mongo_demo : Mongo.Adapter Mongo.connection := Mongo.mkAdapter mongo_client None.
#[export] Instance mongo_demo_contract : Mongo.ClientContract id (Mongo.client mongo_demo).
Proof. exact mongo_client_contract. Qed.
Definition mongo_sessions : SessionToken.Manager Mongo.connection :=
  SessionToken.mkManager _ (Mongo.SessionStore mongo_demo) None Hour Minute None demo_clock.
Definition mongo_created := SessionToken.Create mongo_sessions "alice" (demo_world (Mongo.mkConnection ∅ None)).
Definition mongo_token : string :=
  match fst mongo_created with Ok issued => SessionToken.issued_Token issued | Err _ => "" end.
Definition mongo_revoked := SessionToken.RevokeAll mongo_sessions "alice" (snd mongo_created).

Lemma mongo_keeps_session_contract_witness :
  SessionSpec.KeptStoreContract Mongo.stored_session Mongo.milliseconds (fun t => t) (Mongo.SessionStore mongo_demo)
    (Mongo.in_order_state id) (Mongo.session_view id) /\
  Mongo.in_order_state id (Mongo.mkConnection ∅ None) /\
  is_ok (fst (SessionToken.Resolve mongo_sessions mongo_token (snd mongo_created))) = true /\
  fst mongo_revoked = Ok tt /\
  is_ok (fst (SessionToken.Resolve mongo_sessions mongo_token (snd mongo_revoked))) = false.
Proof.
  split_and!; [exact (mongo_keeps_session_contract mongo_demo id)| |vm_compute; reflexivity..].
  split; [done|]. split_and!; [done|by constructor|by constructor].
Defined.

Definition mysql_uncached : SessionToken.Manager connection :=
  SessionToken.mkManager _ (Mysql.SessionStore mysql_demo) None Hour Minute None demo_clock.
Definition mysql_session := SessionToken.Create mysql_uncached "alice" (connected ∅).
Definition mysql_session_token : string :=
  match fst mysql_session with Ok issued => SessionToken.issued_Token issued | Err _ => "" end.
Definition mysql_rotated := SessionToken.Rotate mysql_uncached mysql_session_token (snd mysql_session).

Lemma mysql_keeps_session_contract_witness :
  SessionSpec.KeptStoreContract Mysql.stored_session Mysql.microseconds (fun t => t) (Mysql.SessionStore mysql_demo)
    (Mysql.in_order_state mysql_default id)
    (Mysql.session_view id) /\
  Mysql.in_order_state mysql_default id (mkConnection ∅ None) /\
  is_ok (fst mysql_rotated) = true /\
  is_ok (fst (SessionToken.Resolve mysql_uncached mysql_session_token (snd mysql_rotated))) = false.
Proof.
  assert (Hd : exact mysql_default) by done.
  split_and!; [exact (mysql_keeps_session_contract mysql_default mysql_demo id Hd)|split; [done|vm_compute; reflexivity]|..];
    vm_compute; reflexivity.
Defined.
